(* ===== verification/_CoqProject ===== *)
-Q . S2P
Prelude.v
SdkMath.v
GoStr.v
Keys.v
Shares.v
Chains.v
Assets.v
Coins.v
Bank.v
Nodes.v
Txs.v
Decimal.v
GoLib.v
Addresses.v
Voters.v
Mimir.v
Observed.v
Pools.v
Streaming.v
MemoTypes.v
SwapSort.v
SwapCalc.v
Vaults.v
Keeper.v
MemoParser.v
MemoProps.v
MemoRound.v
LimitIndex.v
Halt.v
VaultStore.v
NodeStore.v
Swaps.v
Outbounds.v
GasMgr.v
OutboundPlan.v
OutboundProps.v
GasProps.v
ObservedStore.v
Settle.v
SwapQueue.v
QueueProps.v
QueueSearch.v
Liquidity.v
LiquidityProps.v
Helpers.v
Governance.v
Bonds.v
SwapCheck.v
LiquidityMsgs.v
SwapHandler.v
HandlerProps.v
LegacyQueue.v
Affiliates.v
TxOutMgr.v
Slasher.v
SlashProps.v
TxOutProps.v
NodeMsgs.v
NodeProps.v
