(* ===== verification/Prelude.v ===== *)
(** * decanode: verification of the node's core

    The repository is a Go node of a cross-chain liquidity network: validators
    observe transactions on external chains ([bifrost/]), report them to a
    Cosmos state machine ([x/thorchain/]), vote on what they saw and on
    configuration values, and the state machine prices swaps against
    liquidity pools and pays for them from shared vaults.  This library models
    the deterministic core of that state machine and of the shared types in
    [common/], as pure functions over explicit state.

    ** Parts of the program and files of the library

    - [Prelude]: Go outcomes (a value, an [error], or a panic), 64-bit integers
      with their wrap-around, sums, sizes of sets, Go's sorting functions.
    - [SdkMath]: the interface of the Cosmos number types [math.Uint] and
      [math.LegacyDec] (256-bit naturals that panic on overflow, 18-digit
      decimals), its documented laws and an instance.  [GoStr]: the parts of
      [strings] in use.  [Keys]: [common/pubkey.go], [common/address.go] and the
      interface of the bech32 and semantic-version libraries.  [Bank]: the
      interface of the Cosmos bank module, its laws and an instance.
    - [Shares]: [common/type_convert.go], [math.go], [decimals.go],
      [significant_figures.go], [common/cosmos/cosmos.go].
    - [Chains], [Assets], [Coins]: [common/chain.go], [asset.go], [symbol.go],
      [ticker.go], [coin.go], [gas.go].
    - [Txs]: [common/tx.go], [common/type_observed_tx.go],
      [x/thorchain/types/type_tx_out.go].
    - [Nodes]: [types/type_node_account.go] (node accounts, bond providers).
    - [Voters], [Observed], [Mimir]: the voters of [x/thorchain/types/]: what
      the validators sign, when enough of them did, and which value won.
    - [Pools]: [types/type_pool.go], [type_liquidity_provider.go], [type_pol.go],
      [type_rune_pool.go], and the unit arithmetic of [handler_add_liquidity.go].
    - [Streaming]: [types/msg_swap.go], [type_streaming_swap.go],
      [type_clout.go], and the bookkeeping of sub-swaps in both swap queues.
    - [SwapCalc], [Swaps]: [x/thorchain/swap_current.go], the formulas and the
      state changes of a swap, with the slip floors of [helpers.go].
    - [Keeper]: the records of [x/thorchain/keeper/v1/] these parts read and
      write, and minting, burning and moving coins.
    - [Decimal]: the numbers of [strconv] and [%d].  [LimitIndex]:
      [keeper_adv_swap_queue.go], the swaps of the advanced queue, the index of
      limit swaps by pair and price, the expiry lists.  [SwapSort]:
      [manager_swap_queue.go], the order swaps are served in, and trading pairs.
      [Settle]: refunds and settlement of a swap ([helpers.go]) and the handler
      that modifies and cancels limit swaps ([handler_modify_limit_swap.go]).
      [SwapQueue]: [manager_adv_swap_queue_current.go], [limit_swap_ttl.go]: what
      a block does with the queue.  [QueueProps], [QueueSearch]: theorems on it.
      [LegacyQueue]: [manager_swap_queue_current.go], the queue before it.
    - [Liquidity], [LiquidityMsgs]: [handler_add_liquidity.go], [withdraw.go],
      [handler_withdraw.go], [handler_donate.go]: the arithmetic and state
      changes, then the messages with their validation.  [LiquidityProps]:
      theorems on them.  [Helpers]: the functions of [helpers.go] the handlers
      share (effective bonds, caps, quantities, action items).
    - [SwapCheck], [SwapHandler]: [handler_swap.go], what a swap must pass and
      its execution; [HandlerProps]: the advanced queue run with this handler.
    - [GoLib]: the parts of [strings], [encoding/base64] and [math/big] the
      memos use.  [Addresses]: [common/address.go], the networks an address can
      belong to.  [MemoTypes], [MemoParser]: [x/thorchain/memo/] and
      [types/type_thorname.go], the instructions a transaction carries in its
      memo, their printing and their parsing.  [MemoProps], [MemoRound]:
      theorems on them.
    - [Halt]: [keeper_halt.go], the values that stop trading and chains.
    - [Vaults], [VaultStore]: [types/type_vault.go] and [keeper_vault.go], the
      coins of a threshold-signature group, and the vault records with the index
      of Asgard vaults and the index from EdDSA to ECDSA keys.
    - [Outbounds]: [keeper_txout.go], the scheduled, pending and ranked side of
      [keeper_vault.go], [keeper_anchors.go], [keeper_network_fee.go],
      [keeper_outbound_fees.go].  [GasMgr]: [manager_gas_current.go], outbound
      fees and the reimbursement of the pools; [GasProps]: theorems on it.
      [OutboundPlan], [TxOutMgr]: [manager_txout_current.go], the choice of
      vaults, clout, scheduling, then fees, payment and the end of a block;
      [OutboundProps], [TxOutProps]: theorems on them.  [Affiliates]:
      [affiliate_fees.go], the shares of an outbound its memo gives away.
    - [ObservedStore]: [keeper_txin.go], [keeper_last_height.go],
      [keeper_observer.go] and the stores of the voters, with
      [manager_observer_current.go].  [Slasher]: [manager_slasher_current.go],
      slash points, the slashing of a vault's members and the second attempt at
      outbounds nobody signed; [SlashProps]: theorems on it.
    - [NodeStore]: [keeper_node_account.go], [keeper_version.go],
      [keeper_ban.go]: node accounts, bond providers, jails, versions.
    - [Governance]: [x/thorchain/handler_mimir.go].  [Bonds]: the handlers that
      move bonds ([handler_bond.go], [handler_unbond.go], [handler_rebond.go],
      [handler_leave.go], [handler_operator_rotate.go], [handler_ban.go]).
      [NodeMsgs]: the other node handlers, the path of a deposit with a node
      memo, the ante handlers, and the delivery of all node transactions as a
      step relation.  [NodeProps]: theorems on the node records.

    The parts interact through the keeper's state: [Swaps.Swap] loads a pool
    ([Keeper.GetPool]), prices the swap ([SwapCalc.GetSwapCalc]) from its depths
    ([Pools]), moves coins ([Keeper.SendFromModuleToModule], over [Bank]), stores
    the pool and the sender's clout ([Streaming]), and reads its limits from
    configuration values ([Keeper.GetConfigInt64]) that [Governance] writes from
    the votes [Mimir] counts.

    ** Conventions

    A Go function that may fail returns an [outcome]; a function with a pointer
    receiver returns the receiver after the call; a slice sorted in place is
    returned rearranged.  A [math.Uint] is the integer it denotes and every
    operation on it is a call of the [SdkMath] interface, so overflow panics are
    values of the model.  [int64], [int] and [uint64] values wrap with [i64] and
    [u64].  A Go map whose iteration order matters is a parameter: the iteration
    is an argument constrained only to be a permutation of the map's entries, so
    a theorem that quantifies over it says that all nodes agree.  Third-party
    code (the SDK's numbers and bank, bech32, the semantic-version library) is a
    class with its documented laws, and each class has an instance on which the
    witnesses compute.  Errors carry the text the code formats; the wrapping the
    SDK adds around it is left out.  Logging, telemetry and events are left out.

    ** What the theorems show

    - Swaps: a leg moves exactly the input, the emission and the fee and keeps
      the constant product ([Swaps.swapOne_keeps_product]); a double swap keeps
      the pools backed by Asgard, up to the point where its outbound is handed to
      the outbound manager ([Swaps.Swap_double_backed]); the formulas fit
      the depths and are within two units of the exact output
      ([SwapCalc.GetSwapCalc_constant_product], [SwapCalc.CalcSwapSlip_near]).
    - Queue items: sub-swaps spend the deposit evenly and exactly, and the
      item terminates ([Streaming.sub_swaps_spend_deposit],
      [Streaming.sub_swaps_complete]).
    - The advanced queue: when the end of a block returns, the index lists exactly
      the stored swaps, each at its price, with the swap handler, the swapper and
      the liquidity handler behind it ([HandlerProps.EndBlock_keeps_index_exact],
      [LimitIndex.swap_index_exact]); its keys sort as the prices do
      ([LimitIndex.limit_index_orders_prices]), so the search that stops early
      misses nothing ([QueueSearch.discovery_stops_without_loss]); a pass takes
      no swap twice ([QueueProps.FetchQueue_each_once]) and serves them by rank
      ([SwapSort.Sort_serves_by_rank]); only its creator can change a swap
      ([Settle.modify_touches_own_swap]); plans respect the limits of the
      network ([QueueSearch.plan_within_limits]); expiry ends
      ([QueueSearch.expiry_ends]).  The legacy queue handles a swap at most once
      a block ([LegacyQueue.legacy_pick_once]), and the handler, but for legacy
      streaming swaps, mints no synths past the cap
      ([HandlerProps.synth_mint_capped]).
    - Liquidity: the books of a layer-1 pool (not a savers pool) stay balanced
      over any sequence of additions, withdrawals and donations
      ([LiquidityProps.pool_books_balance]);
      a withdrawal takes what it reports, never more than its share in product
      ([LiquidityProps.withdraw_within_share]); units are sold at a fair price
      ([LiquidityProps.add_units_fair]).  The effective bond is the least two
      thirds of the nodes can have ([Helpers.effective_bond_minimal]).
    - Pools: redeem values never exceed the depths, adding one side alone is
      priced at the constant product, synths get their share of the units
      ([Pools]).
    - Supply and configuration: minting respects the supply cap
      ([Keeper.MintToModule_capped]); one vote changes a configuration value
      only to what the active validators decided ([Governance.mimir_handle_decided]),
      and the decision does not depend on map order ([Mimir]).
    - Consensus: the transaction taken has votes of a super-majority
      ([Observed.getConsensusTx_quorum]), quorums of different voters overlap, a
      voter is counted once ([Voters], [Observed]).
    - Bonds: realignment makes the providers add up to the node bond
      ([Nodes.Adjust_realigns]); over every sequence of node transactions what
      the Bond module holds beyond the bonds stays
      ([NodeMsgs.bond_module_backs_bonds]; blocks, which reward and slash, are
      not in the sequence), and slashing the members of a vault never lowers it
      ([SlashProps.slash_keeps_backing]);
      also no two nodes share a key ([NodeMsgs.node_keys_stay_unique]); removing
      low-bond accounts keeps the backing
      ([NodeProps.low_bond_removal_keeps_backing]).
    - Versions: the minimum version to join is the greatest one two thirds of
      the validators support ([NodeProps.min_join_version_greatest]).
    - Vaults: the records and indexes implement a finite map, as long as none is
      deleted by its EdDSA key
      ([VaultStore.vault_store_refines_map]).
    - Outbounds: the outputs add up to what was asked, each within what its
      vault can spend, but for the one that takes what all vaults together lack
      ([OutboundProps.DiscoverOutbounds_pays]); clout is split
      exactly ([OutboundProps.splitClout_exact]); a scheduled outbound is neither
      early nor too late, and is counted while it is unsent and within its signing
      period ([OutboundProps.scheduled_outbound_pending]); its fee leaves the pool and
      Asgard together and reaches the Reserve
      ([TxOutProps.prepare_keeps_backing]); what affiliates take off an outbound
      in DECA is what left Asgard for them ([Affiliates.skim_pays_total]).
    - Gas: the fee multiplier stays in its bounds and falls with the surplus
      ([GasProps.multiplier_falls]), a fresh asset starts at exactly the target
      ([GasProps.fresh_asset_multiplier]), and reimbursing the pools keeps them
      backed ([GasProps.ProcessGas_keeps_backing]).
    - Memos: the memo of an outbound, a swap or any other instruction parses
      back to itself ([MemoRound.memo_roundtrip]); the affiliates of a parsed
      swap are within their caps ([MemoProps.parsed_affiliates_bounded]); a
      number in scientific notation is read exactly ([MemoProps.scientific_exact])
      and the interval and quantity of a streaming swap are rounded as stated
      ([MemoProps.streaming_limit_rounds]).
    - Halting: a mint that leaves the supply above the cap halts everything
      ([Halt.over_cap_halts_network]).
    - Shared types: round trips of assets, chains and ids, conservation of coin
      sums, equality of coins and transactions, bounds of the share functions
      ([Assets], [Chains], [Txs], [Coins], [Shares]).

    ** Fuel and bounds

    Loops are structural on the list they walk.  The one that is not
    ([Shares.magnitude_loop], the number of digits of a [uint64]) runs on 20
    steps, the digits of the largest one, and [Shares.magnitude_loop_spec] shows
    that no smaller number runs out of them.  [VaultStore.get_vault] follows the
    EdDSA index for as many steps as the store has lists: a longer chain would
    repeat an entry, and the Go function would not return.  [GoStr.ipv6_groups]
    reads at most eight groups.  [SwapQueue.rapid_swaps] runs as many iterations
    as the configuration allows, the bound of the Go loop.
    [SwapQueue.expire_items] gets one step more than swaps are stored, and
    [QueueSearch.expiry_ends] shows that no run needs more.  A memo that names
    another memo is parsed again ([MemoParser.ParseMemoWithTHORNames]); every
    nested memo is shorter, so one step more than characters is enough
    ([MemoProps.parse_fuel_enough]).  [OutboundPlan.find_block] looks at
    [TxOutDelayMax] blocks, as the Go loop does.

    ** Not modelled

    The handlers of observed transactions, key generation, the managers of the
    network (rewards included) and of the validators: the handler an outbound on
    THORChain is passed to is a parameter of the outbound manager
    ([TxOutMgr.TxOutEnv]).  The handlers
    of trade and secured assets, RUNEPool, TCY and THORNames are not in this
    repository (only their messages and memos are).  Bifrost, the
    threshold-signature protocols, chain clients, the vendored script engines,
    generated code, queries, migrations, wiring: network I/O or third-party
    code. *)
From Stdlib Require Export ZArith Lia Ascii String.
From stdpp Require Export base strings gmap option sets list.
Open Scope Z_scope.

(** ** Go outcomes

    A Go function either returns normally, returns a non-nil [error], or
    panics (a [math.Uint] that overflows, a division by zero, ...).  An error
    carries the text the source builds it from. *)
Inductive outcome (A : Type) : Type :=
| Ok (a : A)
| Err (e : string)
| Panic.
Arguments Ok {A} a.
Arguments Err {A} e.
Arguments Panic {A}.

(** A Go [error] value: [None] is [nil]. *)
Definition goerr : Type := option string.

#[export] Instance outcome_ret : MRet outcome := fun A a => Ok a.
#[export] Instance outcome_bind : MBind outcome := fun A B f m =>
  match m with
  | Ok a => f a
  | Err e => Err e
  | Panic => Panic
  end.
#[export] Instance outcome_fmap : FMap outcome := fun A B f m =>
  match m with
  | Ok a => Ok (f a)
  | Err e => Err e
  | Panic => Panic
  end.

(** An [if err != nil { return err }] guard. *)
Definition check (e : goerr) : outcome unit :=
  match e with None => Ok tt | Some m => Err m end.

(** [fmt.Errorf("prefix%w", err)]. *)
Definition wrap_err {A} (prefix : string) (m : outcome A) : outcome A :=
  match m with Err e => Err (prefix ++ e)%string | _ => m end.

#[export] Instance outcome_eq_dec {A} `{EqDecision A} : EqDecision (outcome A).
Proof. solve_decision. Defined.

Section outcome_lemmas.
Context {A B : Type}.

Lemma bind_Ok_inv (m : outcome A) (f : A -> outcome B) (b : B) :
  m ≫= f = Ok b -> exists a, m = Ok a /\ f a = Ok b.
Proof. destruct m as [a|e|]; simpl; intros H; try discriminate; eauto. Qed.

Lemma fmap_Ok_inv (m : outcome A) (f : A -> B) (b : B) :
  f <$> m = Ok b -> exists a, m = Ok a /\ f a = b.
Proof. destruct m as [a|e|]; simpl; intros H; try discriminate; simplify_eq; eauto. Qed.

Lemma wrap_err_Ok prefix (m : outcome A) a : wrap_err prefix m = Ok a -> m = Ok a.
Proof. by destruct m. Qed.

Lemma bind_Ok (a : A) (f : A -> outcome B) : (Ok a ≫= f) = f a.
Proof. reflexivity. Qed.
End outcome_lemmas.

(** Splits every hypothesis [m ≫= f = Ok b] into the value of [m] and the
    rest of the run. *)
Ltac ok_inv :=
  repeat match goal with
  | H : _ ≫= _ = Ok _ |- _ =>
      apply bind_Ok_inv in H; destruct H as (? & ? & H)
  | H : _ <$> _ = Ok _ |- _ =>
      apply fmap_Ok_inv in H; destruct H as (? & ? & H)
  | H : wrap_err _ _ = Ok _ |- _ => apply wrap_err_Ok in H
  | H : mret _ = Ok _ |- _ => unfold mret, outcome_ret in H
  | H : Ok _ = Ok _ |- _ => injection H as H; subst
  | H : Err _ = Ok _ |- _ => discriminate H
  | H : Panic = Ok _ |- _ => discriminate H
  | H : (_, _) = (_, _) |- _ => injection H as ?; subst
  end.

(** Turns boolean comparisons on [Z] met in the context into propositions. *)
Ltac z_bool :=
  repeat match goal with
  | H : (_ <? _) = true |- _ => apply Z.ltb_lt in H
  | H : (_ <? _) = false |- _ => apply Z.ltb_ge in H
  | H : (_ <=? _) = true |- _ => apply Z.leb_le in H
  | H : (_ <=? _) = false |- _ => apply Z.leb_gt in H
  | H : (_ =? _) = true |- _ => apply Z.eqb_eq in H
  | H : (_ =? _) = false |- _ => apply Z.eqb_neq in H
  end.

(** Case analysis on the condition of the first [if] of the goal. *)
Ltac case_if :=
  match goal with
  | |- context [if ?b then _ else _] => let E := fresh "E" in destruct b eqn:E
  end.
Ltac case_if_in H :=
  match type of H with
  | context [if ?b then _ else _] => let E := fresh "E" in destruct b eqn:E
  end.

(** ** Fixed-width integers *)

(** Two's complement wrap-around of a 64-bit signed integer ([int64], and
    [int] on the 64-bit platforms the nodes run on). *)
Definition i64 (z : Z) : Z := (z + 2 ^ 63) mod 2 ^ 64 - 2 ^ 63.

(** Wrap-around of a [uint64]. *)
Definition u64 (z : Z) : Z := z mod 2 ^ 64.

Definition is_i64 (z : Z) : Prop := - 2 ^ 63 <= z < 2 ^ 63.
Definition is_u64 (z : Z) : Prop := 0 <= z < 2 ^ 64.

Lemma i64_id z : is_i64 z -> i64 z = z.
Proof. unfold is_i64, i64. intros H. rewrite Z.mod_small; lia. Qed.

Lemma i64_range z : is_i64 (i64 z).
Proof.
  unfold is_i64, i64.
  pose proof (Z.mod_pos_bound (z + 2 ^ 63) (2 ^ 64)). lia.
Qed.

Lemma u64_id z : is_u64 z -> u64 z = z.
Proof. unfold is_u64, u64. intros H. apply Z.mod_small. lia. Qed.

Lemma u64_range z : is_u64 (u64 z).
Proof. unfold is_u64, u64. apply Z.mod_pos_bound. lia. Qed.

(** ** Sums over lists *)
Definition sumZ (l : list Z) : Z := foldr Z.add 0 l.

Lemma sumZ_app l1 l2 : sumZ (l1 ++ l2) = sumZ l1 + sumZ l2.
Proof. induction l1 as [|x l1 IH]; simpl; [done|]. rewrite IH. lia. Qed.

Lemma sumZ_nonneg l : Forall (fun z => 0 <= z) l -> 0 <= sumZ l.
Proof. induction 1; simpl; lia. Qed.

Lemma sumZ_insert l i x y :
  l !! i = Some x -> sumZ (<[i := y]> l) = sumZ l - x + y.
Proof.
  revert i. induction l as [|z l IH]; intros [|i] Hi; simplify_eq/=; [lia|].
  rewrite (IH i Hi). lia.
Qed.

#[export] Instance sumZ_perm : Proper ((≡ₚ) ==> eq) sumZ.
Proof. induction 1; simpl; lia. Qed.

Lemma filter_all {A} (P : A -> Prop) `{!forall x, Decision (P x)} (l : list A) :
  Forall P l -> filter P l = l.
Proof.
  induction 1 as [|x l Hx Hl IH]; [done|]. by rewrite filter_cons_True, IH.
Qed.

(** *** Sums over finite maps *)
Section map_sum.
Context {A : Type} (f : A -> Z).

Definition map_sum (m : gmap string A) : Z := map_fold (fun _ a acc => f a + acc) 0 m.

Lemma map_sum_empty : map_sum ∅ = 0.
Proof. apply map_fold_empty. Qed.

Lemma map_sum_insert_new m i x : m !! i = None -> map_sum (<[i := x]> m) = f x + map_sum m.
Proof. intros Hi. unfold map_sum. rewrite map_fold_insert_L; [done|intros; lia|done]. Qed.

Lemma map_sum_delete m i : map_sum (delete i m) = map_sum m - from_option f 0 (m !! i).
Proof.
  destruct (m !! i) as [x|] eqn:Hi; simpl.
  - rewrite <- (insert_delete_id m i x Hi) at 2.
    rewrite map_sum_insert_new by apply lookup_delete_eq. lia.
  - rewrite delete_id by done. lia.
Qed.

Lemma map_sum_insert m i x :
  map_sum (<[i := x]> m) = map_sum m - from_option f 0 (m !! i) + f x.
Proof.
  rewrite <- insert_delete_eq, map_sum_insert_new by apply lookup_delete_eq.
  rewrite map_sum_delete. lia.
Qed.

Lemma map_sum_nonneg m : map_Forall (fun _ x => 0 <= f x) m -> 0 <= map_sum m.
Proof.
  induction m as [|i x m Hi IH] using map_ind; intros Hall; [by rewrite map_sum_empty|].
  rewrite map_sum_insert_new by done. apply map_Forall_insert in Hall as [Hx Hall]; [|done].
  apply IH in Hall. lia.
Qed.

Lemma map_sum_lookup_le m i x : map_Forall (fun _ y => 0 <= f y) m -> m !! i = Some x ->
  f x <= map_sum m.
Proof.
  intros Hall Hi. pose proof (map_sum_delete m i) as Hd. rewrite Hi in Hd. simpl in Hd.
  pose proof (map_sum_nonneg (delete i m) (map_Forall_delete _ _ _ Hall)). lia.
Qed.
End map_sum.

(** ** Sizes of sets *)
Lemma gset_overlap (X Y N : gset string) : X ⊆ N -> Y ⊆ N ->
  (size X + size Y <= size N + size (X ∩ Y))%nat.
Proof.
  intros HX HY. pose proof (size_union_alt X Y) as Hu.
  pose proof (size_difference_alt Y X) as Hd.
  assert (Hle : (size (X ∪ Y) <= size N)%nat) by (apply subseteq_size; set_solver).
  assert (Hc : Y ∩ X = X ∩ Y).
  { apply set_eq. intros z. rewrite !elem_of_intersection. naive_solver. }
  rewrite Hc in Hd.
  assert (Hi : (size (X ∩ Y) <= size Y)%nat) by (apply subseteq_size; set_solver). lia.
Qed.

Lemma gset_difference_size (X Y : gset string) : (size (X ∖ Y) <= size X)%nat.
Proof. apply subseteq_size. set_solver. Qed.

Lemma gset_of_list_size (l : list string) : (size (list_to_set l : gset string) <= length l)%nat.
Proof.
  induction l as [|a l IH]; [done|]. simpl.
  rewrite size_union_alt, size_singleton.
  pose proof (gset_difference_size (list_to_set l) {[a]}). lia.
Qed.

(** ** Division *)
Lemma div_le_iff a b q : 0 < b -> (q <= a / b <-> q * b <= a).
Proof.
  intros Hb. split; intros H.
  - pose proof (Z.mul_div_le a b Hb). nia.
  - apply Z.div_le_lower_bound; lia.
Qed.

Lemma div_bounds a b : 0 < b -> a / b * b <= a < (a / b + 1) * b.
Proof.
  intros Hb. pose proof (Z.div_mod a b ltac:(lia)).
  pose proof (Z.mod_pos_bound a b Hb). lia.
Qed.

Lemma quot_nonneg a b : 0 <= a -> 0 < b -> Z.quot a b = a / b.
Proof. intros. apply Z.quot_div_nonneg; lia. Qed.

(** ** A hint database for the closing arithmetic of the components *)
Create HintDb go discriminated.
#[export] Hint Resolve i64_range u64_range sumZ_nonneg : go.

(** ** Stable sorting

    [sort.SliceStable] with a strict weak order [less] returns the unique
    stable rearrangement; [sort.Slice] on at most 12 elements is the insertion
    sort below (larger slices leave the order of ties unspecified). *)
Section sorting.
Context {A : Type} (less : A -> A -> bool).

Fixpoint insert_by (x : A) (l : list A) : list A :=
  match l with
  | [] => [x]
  | y :: l' => if less x y then x :: y :: l' else y :: insert_by x l'
  end.

Definition stable_sort (l : list A) : list A :=
  foldl (fun acc x => insert_by x acc) [] l.

(** [l] has no later element strictly below an earlier one. *)
Fixpoint sorted_by (l : list A) : Prop :=
  match l with
  | [] => True
  | x :: l' => Forall (fun y => less y x = false) l' /\ sorted_by l'
  end.

Lemma insert_by_perm x l : insert_by x l ≡ₚ x :: l.
Proof.
  induction l as [|y l IH]; simpl; [done|]. case_if; [done|].
  rewrite IH. apply Permutation_swap.
Qed.

Lemma foldl_insert_perm l acc :
  foldl (fun acc x => insert_by x acc) acc l ≡ₚ acc ++ l.
Proof.
  revert acc. induction l as [|x l IH]; intros acc; simpl.
  - by rewrite app_nil_r.
  - rewrite IH, insert_by_perm. rewrite <- Permutation_middle. done.
Qed.

Lemma stable_sort_perm l : stable_sort l ≡ₚ l.
Proof. apply foldl_insert_perm. Qed.

Lemma stable_sort_length l : length (stable_sort l) = length l.
Proof. apply Permutation_length, stable_sort_perm. Qed.

(** [less] is a strict weak order. *)
Class StrictWeak : Prop := {
  less_irrefl x : less x x = false;
  less_trans x y z : less x y = true -> less y z = true -> less x z = true;
  less_neg_trans x y z : less x y = false -> less y z = false -> less x z = false
}.

Lemma less_asym `{!StrictWeak} x y : less x y = true -> less y x = false.
Proof.
  intros Hl. destruct (less y x) eqn:E; [|done].
  pose proof (less_trans _ _ _ Hl E) as Hx. by rewrite less_irrefl in Hx.
Qed.

Lemma insert_by_sorted `{!StrictWeak} x l : sorted_by l -> sorted_by (insert_by x l).
Proof.
  induction l as [|y l IH]; simpl; [done|]. intros [Hy Hl].
  destruct (less x y) eqn:E; simpl.
  - split; [|done]. constructor; [by apply less_asym|].
    eapply Forall_impl; [exact Hy|]. simpl. intros z Hz.
    destruct (less z x) eqn:Ez; [|done].
    by rewrite (less_trans _ _ _ Ez E) in Hz.
  - split; [|auto]. rewrite insert_by_perm. by constructor.
Qed.

Lemma stable_sort_sorted `{!StrictWeak} l : sorted_by (stable_sort l).
Proof.
  unfold stable_sort.
  enough (forall acc, sorted_by acc ->
    sorted_by (foldl (fun acc x => insert_by x acc) acc l)) as Hgen by (by apply Hgen).
  induction l as [|x l IH]; intros acc Hacc; simpl; [done|].
  by apply IH, insert_by_sorted.
Qed.

Lemma insert_by_last x l :
  Forall (fun y => less x y = false) l -> insert_by x l = l ++ [x].
Proof.
  induction 1 as [|y l Hy Hl IH]; simpl; [done|]. by rewrite Hy, IH.
Qed.

(** Sorting a sorted slice does not move anything. *)
Lemma stable_sort_id l : sorted_by l -> stable_sort l = l.
Proof.
  unfold stable_sort. change l with ([] ++ l) at 1 3. generalize (@nil A) as acc.
  induction l as [|x l IH]; intros acc Hs; simpl; [by rewrite app_nil_r|].
  rewrite insert_by_last.
  - rewrite IH; [by rewrite <- app_assoc|]. by rewrite <- app_assoc.
  - clear IH. induction acc as [|y acc IHa]; simpl in *; [done|].
    destruct Hs as [Hy Hs]. constructor; [|auto].
    rewrite Forall_forall in Hy. apply Hy, elem_of_app. right. by left.
Qed.

Lemma sorted_by_lookup l i j x y :
  sorted_by l -> l !! i = Some x -> l !! j = Some y -> (i < j)%nat -> less y x = false.
Proof.
  revert i j. induction l as [|z l IH]; intros i j Hs Hi Hj Hij; [done|].
  destruct Hs as [Hz Hs]. destruct i as [|i], j as [|j]; simplify_eq/=; try lia.
  - rewrite Forall_forall in Hz. apply Hz, list_elem_of_lookup. eauto.
  - eapply (IH i j); eauto. lia.
Qed.
End sorting.

#[export] Instance Zltb_strict_weak : StrictWeak Z.ltb.
Proof.
  split.
  - apply Z.ltb_irrefl.
  - intros x y z. rewrite !Z.ltb_lt. lia.
  - intros x y z. rewrite !Z.ltb_ge. lia.
Qed.
