(* ===== verification/SdkMath.v ===== *)
(** The interface of the third-party number types: [cosmossdk.io/math].

    The sources use [math.Uint] (aliased [cosmos.Uint]), [math.LegacyDec]
    ([cosmos.Dec]) and [math.Int] ([cosmos.Int]) of the Cosmos SDK, whose code
    is not in the repository.  Their operations are therefore parameters: the
    class [SdkMath] lists the ones the modelled code calls, the class
    [SdkMathOk] their documented behaviour, and the instance [sdk_std] shows
    that the documented behaviour can be met (it is the instance the witnesses
    compute with).

    A [Uint] or [Int] is represented by the integer it denotes, so the
    comparisons [LT], [GT], [GTE], [Equal], [IsZero] are those of [Z].  A [Dec]
    is represented by its value times [10^18]. *)
From S2P Require Import Prelude.

(** [math.Uint] holds at most 256 bits. *)
Definition uint_lim : Z := 2 ^ 256.
Definition is_uint (z : Z) : Prop := 0 <= z < uint_lim.

(** A [LegacyDec] has 18 decimals. *)
Definition dec_one : Z := 10 ^ 18.

Class SdkMath : Type := {
  uint_add : Z -> Z -> outcome Z;          (* Uint.Add *)
  uint_sub : Z -> Z -> outcome Z;          (* Uint.Sub *)
  uint_mul : Z -> Z -> outcome Z;          (* Uint.Mul *)
  uint_quo : Z -> Z -> outcome Z;          (* Uint.Quo *)
  uint_mul_u64 : Z -> Z -> outcome Z;      (* Uint.MulUint64 *)
  uint_quo_u64 : Z -> Z -> outcome Z;      (* Uint.QuoUint64 *)
  uint_of_big : Z -> outcome Z;            (* NewUintFromBigInt *)
  int_of_big : Z -> outcome Z;             (* NewIntFromBigInt *)
  int_add : Z -> Z -> outcome Z;           (* Int.Add *)
  int_sub : Z -> Z -> outcome Z;           (* Int.Sub *)
  dec_of_big : Z -> Z;                     (* LegacyNewDecFromBigInt *)
  dec_add : Z -> Z -> outcome Z;           (* LegacyDec.Add *)
  dec_quo : Z -> Z -> outcome Z;           (* LegacyDec.Quo *)
  dec_mul : Z -> Z -> outcome Z;           (* LegacyDec.Mul *)
  dec_round_int64 : Z -> outcome Z;        (* LegacyDec.RoundInt64 *)
  dec_trunc : Z -> outcome Z;              (* LegacyDec.TruncateInt *)
  dec_round : Z -> outcome Z               (* LegacyDec.RoundInt *)
}.

(** A 256-bit result or a panic. *)
Definition uint_or_panic (z : Z) : outcome Z :=
  if (0 <=? z) && (z <? uint_lim) then Ok z else Panic.

(** The documented behaviour.  [Uint] operations are exact, and panic when the
    result is negative or needs more than 256 bits, or on a division by zero;
    [Quo] rounds towards zero.  [Int] is the signed 256-bit variant.  The [Dec]
    laws say that [Mul] rounds to a nearest number of 18 decimals, that [Quo] is
    off by at most one unit in the last place, that [RoundInt64] rounds to a
    nearest integer, as does [RoundInt], and [TruncateInt] down. *)
Class SdkMathOk (S : SdkMath) : Prop := {
  uint_add_ok a b : is_uint a -> is_uint b -> uint_add a b = uint_or_panic (a + b);
  uint_sub_ok a b : is_uint a -> is_uint b -> uint_sub a b = uint_or_panic (a - b);
  uint_mul_ok a b : is_uint a -> is_uint b -> uint_mul a b = uint_or_panic (a * b);
  uint_quo_ok a b : is_uint a -> is_uint b ->
    uint_quo a b = if b =? 0 then Panic else Ok (a / b);
  uint_mul_u64_ok a n : is_uint a -> is_u64 n -> uint_mul_u64 a n = uint_or_panic (a * n);
  uint_quo_u64_ok a n : is_uint a -> is_u64 n ->
    uint_quo_u64 a n = if n =? 0 then Panic else Ok (a / n);
  uint_of_big_ok z : uint_of_big z = uint_or_panic z;
  int_of_big_ok z : Z.abs z < uint_lim -> int_of_big z = Ok z;
  int_add_ok a b : Z.abs a < uint_lim -> Z.abs b < uint_lim -> Z.abs (a + b) < uint_lim ->
    int_add a b = Ok (a + b);
  int_sub_ok a b : Z.abs a < uint_lim -> Z.abs b < uint_lim -> Z.abs (a - b) < uint_lim ->
    int_sub a b = Ok (a - b);
  dec_of_big_ok z : dec_of_big z = z * dec_one;
  dec_add_ok a b : 0 <= a -> 0 <= b -> a + b < uint_lim * dec_one -> dec_add a b = Ok (a + b);
  dec_quo_ok a b : 0 <= a -> 0 < b -> a < (uint_lim - 2) * b ->
    exists q, dec_quo a b = Ok q /\ 0 <= q /\ Z.abs (q * b - a * dec_one) <= b;
  dec_mul_ok a b : 0 <= a -> 0 <= b -> a * b < (uint_lim - 1) * dec_one * dec_one ->
    exists q, dec_mul a b = Ok q /\ 0 <= q /\ Z.abs (q * dec_one - a * b) <= dec_one;
  dec_round_int64_ok a : 0 <= a -> a < 2 ^ 62 * dec_one ->
    exists r, dec_round_int64 a = Ok r /\ 0 <= r /\ 2 * Z.abs (r * dec_one - a) <= dec_one;
  dec_add_val a b c : 0 <= a -> 0 <= b -> dec_add a b = Ok c -> c = a + b;
  dec_mul_near a b q : 0 <= a -> 0 <= b -> dec_mul a b = Ok q ->
    0 <= q /\ 2 * Z.abs (q * dec_one - a * b) <= dec_one;
  dec_quo_near a b q : 0 <= a -> 0 < b -> dec_quo a b = Ok q ->
    0 <= q /\ Z.abs (q * b - a * dec_one) <= b;
  dec_trunc_val a r : 0 <= a -> dec_trunc a = Ok r -> r = a / dec_one;
  dec_trunc_ok a : 0 <= a -> a < uint_lim * dec_one -> dec_trunc a = Ok (a / dec_one);
  dec_round_near a r : 0 <= a -> dec_round a = Ok r ->
    0 <= r /\ 2 * Z.abs (r * dec_one - a) <= dec_one;
  dec_round_ok a : 0 <= a -> a < uint_lim * dec_one -> exists r, dec_round a = Ok r
}.

(** *** A concrete implementation *)

(** [chopPrecisionAndRound]: divide by [10^18], rounding half to even. *)
Definition chop_round (z : Z) : Z :=
  let q := z / dec_one in
  let r := z mod dec_one in
  if 2 * r <? dec_one then q
  else if dec_one <? 2 * r then q + 1
  else if Z.even q then q else q + 1.

#[export] Instance sdk_std : SdkMath := {
  uint_add a b := uint_or_panic (a + b);
  uint_sub a b := uint_or_panic (a - b);
  uint_mul a b := uint_or_panic (a * b);
  uint_quo a b := if b =? 0 then Panic else Ok (a / b);
  uint_mul_u64 a n := uint_or_panic (a * n);
  uint_quo_u64 a n := if n =? 0 then Panic else Ok (a / n);
  uint_of_big z := uint_or_panic z;
  int_of_big z := if Z.abs z <? uint_lim then Ok z else Panic;
  int_add a b := if Z.abs (a + b) <? uint_lim then Ok (a + b) else Panic;
  int_sub a b := if Z.abs (a - b) <? uint_lim then Ok (a - b) else Panic;
  dec_of_big z := z * dec_one;
  dec_add a b := if a + b <? uint_lim * dec_one then Ok (a + b) else Panic;
  dec_quo a b := if b =? 0 then Panic else Ok (chop_round (a * dec_one * dec_one / b));
  dec_mul a b := Ok (chop_round (a * b));
  dec_round_int64 a := if a <? 2 ^ 63 * dec_one then Ok (chop_round a) else Panic;
  dec_trunc a := Ok (a / dec_one);
  dec_round a := Ok (chop_round a)
}.

Lemma chop_round_near z : 2 * Z.abs (chop_round z * dec_one - z) <= dec_one.
Proof.
  unfold chop_round.
  assert (Hd : 0 < dec_one) by (unfold dec_one; lia).
  pose proof (Z.div_mod z dec_one ltac:(lia)) as Hz.
  pose proof (Z.mod_pos_bound z dec_one Hd) as Hm.
  set (q := z / dec_one) in *. set (r := z mod dec_one) in *.
  set (d := dec_one) in *. clearbody q r d.
  repeat case_if; z_bool; nia.
Qed.

Lemma chop_round_nonneg z : 0 <= z -> 0 <= chop_round z.
Proof.
  intros Hz. unfold chop_round.
  assert (0 <= z / dec_one) by (apply Z.div_pos; unfold dec_one; lia).
  repeat case_if; lia.
Qed.

Lemma sdk_std_dec_quo a b : 0 <= a -> 0 < b ->
  exists q, dec_quo (SdkMath := sdk_std) a b = Ok q /\ 0 <= q /\
    Z.abs (q * b - a * dec_one) <= b.
Proof.
  intros Ha Hb. exists (chop_round (a * dec_one * dec_one / b)).
  pose proof (chop_round_near (a * dec_one * dec_one / b)) as Hn.
  assert (Hd : 2 <= dec_one) by (unfold dec_one; lia).
  pose proof (div_bounds (a * dec_one * dec_one) b Hb) as Hq.
  split; [simpl; destruct (Z.eqb_spec b 0); [lia|done]|].
  split; [apply chop_round_nonneg, Z.div_pos; nia|].
  set (t := a * dec_one * dec_one / b) in *.
  set (c := chop_round t) in *. clearbody t c.
  clear -Hn Hd Hq Ha Hb. set (d := dec_one) in *. clearbody d.
  assert (Hlo : - d <= 2 * (c * d - t) <= d) by lia.
  assert (Hm : (- b - 1) * d <= (c * b - a * d) * d <= b * d + b) by nia.
  apply Z.abs_le. split; nia.
Qed.

#[export] Instance sdk_std_ok : SdkMathOk sdk_std.
Proof.
  split; intros; try reflexivity.
  - simpl. destruct (Z.ltb_spec (Z.abs z) uint_lim); [done|lia].
  - simpl. destruct (Z.ltb_spec (Z.abs (a + b)) uint_lim); [done|lia].
  - simpl. destruct (Z.ltb_spec (Z.abs (a - b)) uint_lim); [done|lia].
  - simpl. destruct (Z.ltb_spec (a + b) (uint_lim * dec_one)); [done|lia].
  - by apply sdk_std_dec_quo.
  - exists (chop_round (a * b)). split; [done|].
    pose proof (chop_round_near (a * b)).
    split; [apply chop_round_nonneg; nia|lia].
  - exists (chop_round a). pose proof (chop_round_near a).
    assert (0 < dec_one) by (unfold dec_one; lia).
    split; [|split; [by apply chop_round_nonneg|done]].
    simpl. destruct (Z.ltb_spec a (2 ^ 63 * dec_one)); [done|lia].
  - match goal with Ha : dec_add _ _ = Ok _ |- _ => simpl in Ha; case_if_in Ha end; by simplify_eq.
  - match goal with Hm : dec_mul _ _ = Ok _ |- _ => simpl in Hm; injection Hm as <- end.
    split; [apply chop_round_nonneg; nia|apply chop_round_near].
  - destruct (sdk_std_dec_quo a b) as (q' & Hq & ? & ?); [done..|].
    match goal with Hd : dec_quo a b = Ok q |- _ => rewrite Hq in Hd; by simplify_eq end.
  - match goal with Ht : dec_trunc _ = Ok _ |- _ => simpl in Ht; by simplify_eq end.
  - match goal with Ht : dec_round _ = Ok _ |- _ => simpl in Ht; injection Ht as <- end.
    split; [by apply chop_round_nonneg|apply chop_round_near].
  - by exists (chop_round a).
Qed.

(** *** Consequences of the laws used by every component *)
Section laws.
Context {S : SdkMath} `{!SdkMathOk S}.

Lemma uint_or_panic_Ok z : is_uint z -> uint_or_panic z = Ok z.
Proof.
  unfold is_uint, uint_or_panic. intros H.
  destruct (Z.leb_spec 0 z), (Z.ltb_spec z uint_lim); simpl; lia || done.
Qed.

Lemma uint_or_panic_Panic z : ~ is_uint z -> uint_or_panic z = Panic.
Proof.
  unfold is_uint, uint_or_panic. intros H.
  destruct (Z.leb_spec 0 z), (Z.ltb_spec z uint_lim); simpl; lia || done.
Qed.

Lemma uint_or_panic_inv z r : uint_or_panic z = Ok r -> r = z /\ is_uint z.
Proof.
  unfold is_uint, uint_or_panic. intros H.
  destruct (Z.leb_spec 0 z), (Z.ltb_spec z uint_lim); simplify_eq/=. lia.
Qed.

(** A result in range is returned. *)
Lemma uint_add_Ok a b : is_uint a -> is_uint b -> is_uint (a + b) -> uint_add a b = Ok (a + b).
Proof. intros. rewrite uint_add_ok by done. by apply uint_or_panic_Ok. Qed.

Lemma uint_mul_Ok a b : is_uint a -> is_uint b -> is_uint (a * b) -> uint_mul a b = Ok (a * b).
Proof. intros. rewrite uint_mul_ok by done. by apply uint_or_panic_Ok. Qed.

Lemma uint_add_inv a b r : is_uint a -> is_uint b -> uint_add a b = Ok r ->
  r = a + b /\ is_uint r.
Proof. intros Ha Hb. rewrite uint_add_ok by done. intros [-> ?]%uint_or_panic_inv. done. Qed.

Lemma uint_sub_inv a b r : is_uint a -> is_uint b -> uint_sub a b = Ok r ->
  r = a - b /\ is_uint r.
Proof. intros Ha Hb. rewrite uint_sub_ok by done. intros [-> ?]%uint_or_panic_inv. done. Qed.

Lemma uint_mul_inv a b r : is_uint a -> is_uint b -> uint_mul a b = Ok r ->
  r = a * b /\ is_uint r.
Proof. intros Ha Hb. rewrite uint_mul_ok by done. intros [-> ?]%uint_or_panic_inv. done. Qed.

Lemma uint_mul_u64_inv a b r : is_uint a -> is_u64 b -> uint_mul_u64 a b = Ok r ->
  r = a * b /\ is_uint r.
Proof. intros Ha Hb. rewrite uint_mul_u64_ok by done. intros [-> ?]%uint_or_panic_inv. done. Qed.

Lemma div_uint a b : is_uint a -> 0 < b -> is_uint (a / b).
Proof.
  unfold is_uint. intros Ha Hb. split; [apply Z.div_pos; lia|].
  pose proof (Z.div_le_upper_bound a b a Hb). nia.
Qed.

Lemma uint_quo_Ok a b : is_uint a -> is_uint b -> b <> 0 -> uint_quo a b = Ok (a / b).
Proof. intros. rewrite uint_quo_ok by done. destruct (Z.eqb_spec b 0); done. Qed.

Lemma uint_quo_u64_Ok a b : is_uint a -> is_u64 b -> b <> 0 -> uint_quo_u64 a b = Ok (a / b).
Proof. intros. rewrite uint_quo_u64_ok by done. destruct (Z.eqb_spec b 0); done. Qed.

Lemma uint_quo_inv a b r : is_uint a -> is_uint b -> uint_quo a b = Ok r ->
  r = a / b /\ 0 < b /\ is_uint r.
Proof.
  intros Ha Hb. rewrite uint_quo_ok by done.
  destruct (Z.eqb_spec b 0); intros; simplify_eq.
  assert (0 < b) by (unfold is_uint in Hb; lia). auto using div_uint.
Qed.

Lemma uint_quo_u64_inv a b r : is_uint a -> is_u64 b -> uint_quo_u64 a b = Ok r ->
  r = a / b /\ 0 < b /\ is_uint r.
Proof.
  intros Ha Hb. rewrite uint_quo_u64_ok by done.
  destruct (Z.eqb_spec b 0); intros; simplify_eq.
  assert (0 < b) by (unfold is_u64 in Hb; lia). auto using div_uint.
Qed.

Lemma uint_of_big_inv z r : uint_of_big z = Ok r -> r = z /\ is_uint r.
Proof. rewrite uint_of_big_ok. intros [-> ?]%uint_or_panic_inv. done. Qed.
End laws.

Lemma is_uint_0 : is_uint 0.
Proof. unfold is_uint, uint_lim. lia. Qed.
Lemma is_uint_1 : is_uint 1.
Proof. unfold is_uint, uint_lim. lia. Qed.
Lemma is_uint_u64 n : is_u64 n -> is_uint n.
Proof. unfold is_u64, is_uint, uint_lim. lia. Qed.

#[export] Hint Resolve is_uint_0 is_uint_1 is_uint_u64 div_uint : go.

(** Side conditions [is_uint _]. *)
Ltac uint_side := solve [eauto with go | unfold is_uint, is_u64, uint_lim in *; lia].

(** Replaces every successful SDK call of the context by its value. *)
Ltac uint_inv :=
  repeat (ok_inv; match goal with
  | H : uint_add ?a ?b = Ok ?r |- _ =>
      apply uint_add_inv in H; [destruct H as [? ?]|uint_side|uint_side]
  | H : uint_sub ?a ?b = Ok ?r |- _ =>
      apply uint_sub_inv in H; [destruct H as [? ?]|uint_side|uint_side]
  | H : uint_mul ?a ?b = Ok ?r |- _ =>
      apply uint_mul_inv in H; [destruct H as [? ?]|uint_side|uint_side]
  | H : uint_quo ?a ?b = Ok ?r |- _ =>
      apply uint_quo_inv in H; [destruct H as (? & ? & ?)|uint_side|uint_side]
  | H : uint_mul_u64 ?a ?b = Ok ?r |- _ =>
      apply uint_mul_u64_inv in H; [destruct H as [? ?]|uint_side|uint_side]
  | H : uint_quo_u64 ?a ?b = Ok ?r |- _ =>
      apply uint_quo_u64_inv in H; [destruct H as (? & ? & ?)|uint_side|uint_side]
  | H : uint_of_big ?a = Ok ?r |- _ =>
      apply uint_of_big_inv in H; destruct H as [? ?]
  end).
