(* ===== verification/GoStr.v ===== *)
(** The parts of Go's [strings] package the sources use, on ASCII strings:
    case mapping, case-insensitive equality, trimming, splitting.

    A Go string is a byte sequence; every string the modelled code handles
    (chain and asset names, transaction hashes, addresses, memo keys) is ASCII,
    which is the domain on which the definitions below are the library's. *)
From S2P Require Import Prelude.

Definition char_in (lo hi : nat) (c : ascii) : bool :=
  let n := nat_of_ascii c in (lo <=? n)%nat && (n <=? hi)%nat.

Definition is_upper (c : ascii) : bool := char_in 65 90 c.
Definition is_lower (c : ascii) : bool := char_in 97 122 c.
Definition is_digit (c : ascii) : bool := char_in 48 57 c.

(** [unicode.IsSpace] on ASCII: tab, newline, vertical tab, form feed,
    carriage return, space. *)
Definition is_space (c : ascii) : bool := char_in 9 13 c || char_in 32 32 c.

Definition upper_ascii (c : ascii) : ascii :=
  if is_lower c then ascii_of_nat (nat_of_ascii c - 32) else c.

Fixpoint str_map (f : ascii -> ascii) (s : string) : string :=
  match s with
  | EmptyString => EmptyString
  | String c s' => String (f c) (str_map f s')
  end.

Fixpoint str_all (p : ascii -> bool) (s : string) : bool :=
  match s with
  | EmptyString => true
  | String c s' => p c && str_all p s'
  end.

(** [strings.ToUpper]. *)
Definition to_upper (s : string) : string := str_map upper_ascii s.

(** [strings.EqualFold]. *)
Definition equal_fold (s t : string) : bool := String.eqb (to_upper s) (to_upper t).

Fixpoint trim_left (s : string) : string :=
  match s with
  | EmptyString => EmptyString
  | String c s' => if is_space c then trim_left s' else s
  end.

Fixpoint trim_right (s : string) : string :=
  match s with
  | EmptyString => EmptyString
  | String c s' =>
      let t := trim_right s' in
      if is_space c && String.eqb t EmptyString then EmptyString else String c t
  end.

(** [strings.TrimSpace]. *)
Definition trim_space (s : string) : string := trim_right (trim_left s).

(** [strings.TrimSpace(s) == ""]. *)
Definition is_blank (s : string) : bool := String.eqb (trim_space s) EmptyString.

(** [strings.SplitN(s, sep, 2)] for a one-character separator. *)
Fixpoint split2 (sep : ascii) (s : string) : string * option string :=
  match s with
  | EmptyString => (EmptyString, None)
  | String c s' =>
      if Ascii.eqb c sep then (EmptyString, Some s')
      else let '(a, b) := split2 sep s' in (String c a, b)
  end.

(** [strings.Split] and [strings.Join]; the separator is one character. *)
Fixpoint split_on (sep : ascii) (s : string) : list string :=
  match s with
  | EmptyString => [EmptyString]
  | String c s' =>
      match split_on sep s' with
      | p :: ps => if Ascii.eqb c sep then EmptyString :: p :: ps else String c p :: ps
      | [] => []
      end
  end.

Fixpoint join (sep : ascii) (ss : list string) : string :=
  match ss with
  | [] => EmptyString
  | [s] => s
  | s :: ss' => (s ++ String sep (join sep ss'))%string
  end.

Definition no_char (c : ascii) (s : string) : bool := str_all (fun d => negb (Ascii.eqb d c)) s.

(** [regexp.MustCompile("[...]").FindString]: the first character in a class. *)
Fixpoint find_char (p : ascii -> bool) (s : string) : option ascii :=
  match s with
  | EmptyString => None
  | String c s' => if p c then Some c else find_char p s'
  end.

(** [len(s)]. *)
Definition str_len (s : string) : Z := Z.of_nat (String.length s).

(** ** [net.ParseIP(s) != nil]

    The first dot, colon or percent sign decides the syntax; an address with a
    zone is not accepted. *)

(** A decimal field: one to three digits, at most 255, no leading zero. *)
Definition digit_of (c : ascii) : Z := Z.of_nat (nat_of_ascii c) - 48.
Fixpoint ipv4_fields (s : string) (fields : nat) (digits : nat) (acc : Z) : bool :=
  match s with
  | EmptyString => (fields =? 3)%nat && negb (digits =? 0)%nat
  | String c s' =>
      if is_digit c then
        if (digits =? 1)%nat && (acc =? 0) then false
        else
          let acc := acc * 10 + digit_of c in
          if 255 <? acc then false else ipv4_fields s' fields (S digits) acc
      else if Ascii.eqb c "." then
        if (digits =? 0)%nat || (fields =? 3)%nat then false else ipv4_fields s' (S fields) 0 0
      else false
  end.
Definition is_ipv4 (s : string) : bool := ipv4_fields s 0 0 0.

(** The next group of an IPv6 address: its hexadecimal digits and the rest. *)
Definition is_hex_digit (c : ascii) : bool :=
  is_digit c || char_in 65 70 c || char_in 97 102 c.
Fixpoint hex_span (s : string) : string * string :=
  match s with
  | String c s' =>
      if is_hex_digit c then let '(a, b) := hex_span s' in (String c a, b) else (EmptyString, s)
  | EmptyString => (EmptyString, EmptyString)
  end.

(** [i] bytes are filled; [ellipsis] tells that [::] was met.  Each step fills
    two bytes, so eight steps are enough. *)
Fixpoint ipv6_groups (fuel : nat) (s : string) (i : nat) (ellipsis : bool) : bool :=
  let fin (i : nat) (ellipsis : bool) (s : string) :=
    String.eqb s "" && (if (i <? 16)%nat then ellipsis else negb ellipsis) in
  match fuel with
  | O => fin i ellipsis s
  | Datatypes.S fuel' =>
      let '(group, rest) := hex_span s in
      let off := String.length group in
      if (off =? 0)%nat || (4 <? off)%nat then false
      else
        match rest with
        | String "." _ =>
            if (negb ellipsis && negb (i =? 12)%nat) || (16 <? i + 4)%nat then false
            else is_ipv4 s && fin (i + 4)%nat ellipsis ""
        | EmptyString => fin (i + 2)%nat ellipsis ""
        | String ":" EmptyString => false
        | String ":" (String ":" s') =>
            if ellipsis then false
            else if String.eqb s' "" then fin (i + 2)%nat true ""
            else ipv6_groups fuel' s' (i + 2) true
        | String ":" s' => ipv6_groups fuel' s' (i + 2) ellipsis
        | _ => false
        end
  end.
Definition is_ipv6 (s : string) : bool :=
  match s with
  | String ":" (String ":" s') => String.eqb s' "" || ipv6_groups 8 s' 0 true
  | _ => ipv6_groups 8 s 0 false
  end.

Definition parse_ip_ok (s : string) : bool :=
  match find_char (fun c => Ascii.eqb c "." || Ascii.eqb c ":" || Ascii.eqb c "%") s with
  | Some "."%char => is_ipv4 s
  | Some ":"%char =>
      match find_char (Ascii.eqb "%") s with Some _ => false | None => is_ipv6 s end
  | _ => false
  end.

Example parse_ip_examples :
  map parse_ip_ok ["192.0.2.1"; "256.1.1.1"; "01.1.1.1"; "1.2.3"; "2001:db8::68"; "::"; "::1";
    "::ffff:192.0.2.1"; "1:2:3:4:5:6:7:8"; "1:2:3:4:5:6:7::"; "1:2:3:4:5:6:7:8::"; "fe80::1%eth0";
    "1:2"; ":::"; "12345::"; "host"]%string =
  [true; false; false; false; true; true; true; true; true; true; false; false; false; false;
   false; false].
Proof. reflexivity. Qed.

(** Go's [<] on strings: byte-wise lexicographic order. *)
Fixpoint str_ltb (s t : string) : bool :=
  match s, t with
  | _, EmptyString => false
  | EmptyString, String _ _ => true
  | String c s', String d t' =>
      let m := nat_of_ascii c in
      let n := nat_of_ascii d in
      (m <? n)%nat || ((m =? n)%nat && str_ltb s' t')
  end.

(** *** Lemmas *)

Lemma char_cases (P : ascii -> Prop) :
  (forall n, (n < 256)%nat -> P (ascii_of_nat n)) -> forall c, P c.
Proof.
  intros H c. rewrite <- (ascii_nat_embedding c). apply H, nat_ascii_bounded.
Qed.

Lemma upper_ascii_idemp c : upper_ascii (upper_ascii c) = upper_ascii c.
Proof. destruct c as [[] [] [] [] [] [] [] []]; reflexivity. Qed.

Lemma to_upper_idemp s : to_upper (to_upper s) = to_upper s.
Proof.
  unfold to_upper. induction s as [|c s IH]; simpl; [done|].
  by rewrite upper_ascii_idemp, IH.
Qed.

Lemma equal_fold_spec s t : equal_fold s t = true <-> to_upper s = to_upper t.
Proof. apply String.eqb_eq. Qed.

Lemma equal_fold_refl s : equal_fold s s = true.
Proof. by apply equal_fold_spec. Qed.

Lemma equal_fold_sym s t : equal_fold s t = equal_fold t s.
Proof. apply String.eqb_sym. Qed.

Lemma equal_fold_upper_l s t : equal_fold (to_upper s) t = equal_fold s t.
Proof. unfold equal_fold. by rewrite to_upper_idemp. Qed.

Lemma equal_fold_upper_r s t : equal_fold s (to_upper t) = equal_fold s t.
Proof. unfold equal_fold. by rewrite to_upper_idemp. Qed.

Lemma upper_ascii_upper c : is_upper c = true -> upper_ascii c = c.
Proof. destruct c as [[] [] [] [] [] [] [] []]; simpl; intros H; done. Qed.

(** On strings without upper-case letters, folding loses nothing. *)
Definition no_upper (s : string) : bool := str_all (fun c => negb (is_upper c)) s.

Definition lower_ascii (c : ascii) : ascii :=
  if is_upper c then ascii_of_nat (nat_of_ascii c + 32) else c.

Lemma lower_upper c : negb (is_upper c) = true -> lower_ascii (upper_ascii c) = c.
Proof. destruct c as [[] [] [] [] [] [] [] []]; simpl; intros H; done. Qed.

Lemma no_upper_inj s t : no_upper s = true -> no_upper t = true -> to_upper s = to_upper t -> s = t.
Proof.
  unfold no_upper, to_upper. revert t.
  induction s as [|c s IH]; intros [|d t]; simpl; intros Hs Ht Heq; try done.
  apply andb_true_iff in Hs as [Hc Hs]. apply andb_true_iff in Ht as [Hd Ht].
  injection Heq as Hcd Heq. f_equal; [|by apply IH].
  by rewrite <- (lower_upper c), <- (lower_upper d), Hcd.
Qed.

Lemma to_upper_length s : String.length (to_upper s) = String.length s.
Proof. unfold to_upper. induction s as [|c s IH]; simpl; [done|]. by rewrite IH. Qed.

Lemma to_upper_app s t : to_upper (s ++ t) = (to_upper s ++ to_upper t)%string.
Proof. unfold to_upper. induction s as [|c s IH]; simpl; [done|]. by rewrite IH. Qed.

Lemma str_all_impl p q s :
  (forall c, p c = true -> q c = true) -> str_all p s = true -> str_all q s = true.
Proof.
  intros H. induction s as [|c s IH]; simpl; [done|].
  intros [Hc Hs]%andb_true_iff. by rewrite (H c Hc), IH.
Qed.

Lemma str_all_map p f s :
  (forall c, p c = true -> p (f c) = true) -> str_all p s = true ->
  str_all p (str_map f s) = true.
Proof.
  intros H. induction s as [|c s IH]; simpl; [done|].
  intros [Hc Hs]%andb_true_iff. by rewrite (H c Hc), IH.
Qed.

Lemma str_all_app p s t : str_all p (s ++ t) = str_all p s && str_all p t.
Proof. induction s as [|c s IH]; simpl; [done|]. by rewrite IH, andb_assoc. Qed.

Lemma to_upper_id s :
  str_all (fun c => negb (is_lower c)) s = true -> to_upper s = s.
Proof.
  unfold to_upper. induction s as [|c s IH]; simpl; [done|].
  intros [Hc Hs]%andb_true_iff. rewrite (IH Hs). unfold upper_ascii.
  by destruct (is_lower c).
Qed.

Lemma to_upper_no_lower s : str_all (fun c => negb (is_lower c)) (to_upper s) = true.
Proof.
  unfold to_upper. induction s as [|c s IH]; simpl; [done|]. rewrite IH, andb_true_r.
  destruct c as [[] [] [] [] [] [] [] []]; reflexivity.
Qed.

Lemma is_blank_all s : is_blank s = str_all is_space s.
Proof.
  unfold is_blank, trim_space. induction s as [|c s IH]; simpl; [done|].
  destruct (is_space c) eqn:E; simpl; [done|]. by rewrite E.
Qed.

Lemma split2_found sep s t :
  str_all (fun c => negb (Ascii.eqb c sep)) s = true ->
  split2 sep (s ++ String sep t) = (s, Some t).
Proof.
  induction s as [|c s IH]; simpl.
  - by rewrite Ascii.eqb_refl.
  - intros [Hc Hs]%andb_true_iff. destruct (Ascii.eqb c sep); [done|]. by rewrite IH.
Qed.

Lemma split2_none sep s :
  str_all (fun c => negb (Ascii.eqb c sep)) s = true -> split2 sep s = (s, None).
Proof.
  induction s as [|c s IH]; simpl; [done|].
  intros [Hc Hs]%andb_true_iff. destruct (Ascii.eqb c sep); [done|]. by rewrite IH.
Qed.

Lemma find_char_app p s c t :
  str_all (fun c => negb (p c)) s = true -> p c = true ->
  find_char p (s ++ String c t) = Some c.
Proof.
  intros Hs Hc. induction s as [|d s IH]; simpl in *.
  - by rewrite Hc.
  - apply andb_true_iff in Hs as [Hd Hs]. destruct (p d); [done|]. auto.
Qed.

Lemma split_on_nonempty sep s : exists p ps, split_on sep s = p :: ps.
Proof.
  induction s as [|c s (p & ps & IH)]; simpl; [by eexists _, _|]. rewrite IH.
  destruct (Ascii.eqb c sep); eauto.
Qed.

Lemma split_on_app sep s t : split_on sep (s ++ String sep t) = (split_on sep s ++ split_on sep t)%list.
Proof.
  induction s as [|c s IH]; simpl.
  - destruct (split_on_nonempty sep t) as (p & ps & ->). by rewrite Ascii.eqb_refl.
  - rewrite IH. destruct (split_on_nonempty sep s) as (p & ps & ->). simpl.
    by destruct (Ascii.eqb c sep).
Qed.

Lemma split_on_none sep s : no_char sep s = true -> split_on sep s = [s].
Proof.
  induction s as [|c s IH]; simpl; [done|]. unfold no_char. simpl.
  intros [Hc%negb_true_iff Hs]%andb_true_iff. by rewrite IH, Hc.
Qed.

Lemma split_join sep ss : ss <> [] -> Forall (fun s => no_char sep s = true) ss ->
  split_on sep (join sep ss) = ss.
Proof.
  induction ss as [|s ss IH]; [done|]. intros _ [Hs Hss]%Forall_cons.
  destruct ss as [|s' ss]; [by apply split_on_none|].
  change (join sep (s :: s' :: ss)) with (s ++ String sep (join sep (s' :: ss)))%string.
  rewrite split_on_app, split_on_none, IH by done. done.
Qed.

(** *** The order on strings *)

Lemma str_ltb_irrefl s : str_ltb s s = false.
Proof.
  induction s as [|c s IH]; simpl; [done|]. by rewrite Nat.ltb_irrefl, Nat.eqb_refl, IH.
Qed.

Lemma str_ltb_trans s t u : str_ltb s t = true -> str_ltb t u = true -> str_ltb s u = true.
Proof.
  revert t u. induction s as [|c s IH]; intros [|d t] [|e u]; simpl; try done.
  rewrite !orb_true_iff, !andb_true_iff, !Nat.ltb_lt, !Nat.eqb_eq.
  intros [H1|[H1 H1']] [H2|[H2 H2']]; try (left; lia). right. split; [lia|eauto].
Qed.

Lemma str_ltb_neg_trans s t u :
  str_ltb s t = false -> str_ltb t u = false -> str_ltb s u = false.
Proof.
  revert t u. induction s as [|c s IH]; intros [|d t] [|e u]; simpl; try done.
  rewrite !orb_false_iff, !andb_false_iff, !Nat.ltb_ge, !Nat.eqb_neq.
  intros [H1 [H1'|H1']] [H2 [H2'|H2']]; split; try lia; try (left; lia). right. eauto.
Qed.

Lemma str_ltb_total s t : str_ltb s t = false -> str_ltb t s = false -> s = t.
Proof.
  revert t. induction s as [|c s IH]; intros [|d t]; simpl; try done.
  rewrite !orb_false_iff, !andb_false_iff, !Nat.ltb_ge, !Nat.eqb_neq.
  intros [H1 [H1'|H1']] [H2 [H2'|H2']]; try lia.
  assert (c = d) as ->.
  { rewrite <- (ascii_nat_embedding c), <- (ascii_nat_embedding d). f_equal. lia. }
  f_equal. auto.
Qed.

#[export] Instance str_ltb_weak : StrictWeak str_ltb.
Proof.
  split.
  - apply str_ltb_irrefl.
  - eauto using str_ltb_trans.
  - eauto using str_ltb_neg_trans.
Qed.

Create Rewrite HintDb go_str.
#[export] Hint Rewrite to_upper_idemp equal_fold_upper_l equal_fold_upper_r to_upper_length : go_str.
