(* ===== verification/Keys.v ===== *)
(** Keys and addresses as strings: the pure parts of [common/pubkey.go] and
    [common/address.go], and the interface of the bech32 and semantic-version
    libraries the node accounts and voters rely on. *)
From S2P Require Import Prelude GoStr.
Local Open Scope string_scope.

(** ** The third-party interface

    A [cosmos.AccAddress] is a byte string.  Its comparison, emptiness test,
    bech32 printer and parser, the bech32 public-key parser and the semantic
    versions are library code, so they are parameters. *)
Abbreviation AccAddress := string (only parsing).

Class SdkKeys : Type := {
  acc_equals : AccAddress -> AccAddress -> bool;        (* AccAddress.Equals *)
  acc_empty : AccAddress -> bool;                       (* AccAddress.Empty *)
  acc_string : AccAddress -> string;                    (* AccAddress.String *)
  acc_from_bech32 : string -> outcome AccAddress;       (* AccAddressFromBech32 *)
  pubkey_from_bech32 : string -> outcome string;        (* GetPubKeyFromBech32 *)
  semver : Type;                                        (* semver.Version *)
  semver_make : string -> semver * goerr;               (* semver.Make *)
  semver_equals : semver -> semver -> bool;             (* Version.Equals *)
  semver_lt : semver -> semver -> bool;                 (* Version.LT *)
  semver_zero : semver;                                 (* Version{} *)
  semver_string : semver -> string;                     (* Version.String *)
  semver_tagged : semver -> bool;                       (* has a Pre or Build part *)
  acc_verify : AccAddress -> bool                       (* VerifyAddressFormat *)
}.

(** [Version.GT], [Version.LTE]: the other comparisons of one ordering. *)
Definition semver_gt {K : SdkKeys} (a b : semver) : bool := semver_lt b a.
Definition semver_lte {K : SdkKeys} (a b : semver) : bool := negb (semver_lt b a).

(** The addresses the SDK accepts have 1 to 255 bytes. *)
Definition valid_acc (a : AccAddress) : Prop := (1 <= String.length a <= 255)%nat.

Class SdkKeysOk (K : SdkKeys) : Prop := {
  acc_equals_ok a b : acc_equals a b = true <-> a = b;
  acc_empty_ok a : acc_empty a = true <-> a = "";
  acc_roundtrip a : valid_acc a -> acc_from_bech32 (acc_string a) = Ok a;
  acc_from_bech32_valid s a : acc_from_bech32 s = Ok a -> valid_acc a;
  semver_equals_refl v : semver_equals v v = true;
  semver_lt_order : StrictWeak semver_lt;
  semver_zero_least v : semver_lt v semver_zero = false
}.
#[export] Existing Instance semver_lt_order.

(** A transparent implementation: an address prints as itself, and public keys
    are the strings that start with [p]. *)
#[export] Instance keys_std : SdkKeys := {
  acc_equals := String.eqb;
  acc_empty a := String.eqb a "";
  acc_string a := a;
  acc_from_bech32 s :=
    if ((1 <=? String.length s) && (String.length s <=? 255))%nat then Ok s
    else Err "invalid address";
  pubkey_from_bech32 s :=
    match s with String "p" _ => Ok s | _ => Err "invalid key" end;
  semver := string;
  semver_make s := (s, None);
  semver_equals := String.eqb;
  semver_lt := str_ltb;
  semver_zero := "";
  semver_string v := v;
  semver_tagged _ := false;
  acc_verify a := ((1 <=? String.length a) && (String.length a <=? 255))%nat
}.

#[export] Instance keys_std_ok : SdkKeysOk keys_std.
Proof.
  split; unfold acc_equals, acc_empty, acc_string, acc_from_bech32, semver_equals, semver_lt, semver_zero, keys_std.
  - apply String.eqb_eq.
  - intros a. apply String.eqb_eq.
  - intros a [H1 H2]. by rewrite (proj2 (Nat.leb_le _ _) H1), (proj2 (Nat.leb_le _ _) H2).
  - intros s a. case_if; intros; simplify_eq.
    apply andb_true_iff in E as [?%Nat.leb_le ?%Nat.leb_le]. by split.
  - intros v. apply String.eqb_refl.
  - apply str_ltb_weak.
  - by intros [|c v].
Qed.

Section key_laws.
Context {K : SdkKeys} `{!SdkKeysOk K}.

Lemma acc_equals_refl a : acc_equals a a = true.
Proof. by apply acc_equals_ok. Qed.

Lemma acc_equals_false a b : acc_equals a b = false <-> a <> b.
Proof. rewrite <- not_true_iff_false. by rewrite acc_equals_ok. Qed.

Lemma acc_equals_decide a b : acc_equals a b = bool_decide (a = b).
Proof.
  case_bool_decide; [by apply acc_equals_ok|by apply acc_equals_false].
Qed.

Lemma acc_empty_false a : acc_empty a = false <-> a <> "".
Proof. rewrite <- not_true_iff_false. by rewrite acc_empty_ok. Qed.

Lemma valid_acc_nonempty a : valid_acc a -> a <> "".
Proof. intros [H _] ->. simpl in H. lia. Qed.
End key_laws.

(** ** common/pubkey.go *)

Abbreviation PubKey := string (only parsing).

Definition EmptyPubKey : PubKey := "".

Definition PubKey_Equals (p pubKey1 : PubKey) : bool := String.eqb p pubKey1.
Definition PubKey_IsEmpty (p : PubKey) : bool := (String.length p =? 0)%nat.
Definition PubKey_String (p : PubKey) : string := p.

Definition NewPubKey {K : SdkKeys} (key : string) : outcome PubKey :=
  if (String.length key =? 0)%nat then Ok EmptyPubKey
  else
    match pubkey_from_bech32 key with
    | Ok _ => Ok key
    | Err e => Err (key ++ " is not bech32 encoded pub key,err : " ++ e)
    | Panic => Panic
    end.

(** The [for ... { pk, err := NewPubKey(s); if err != nil { continue } ... }]
    loops. *)
Fixpoint parse_pubkeys {K : SdkKeys} (keys : list string) : list PubKey :=
  match keys with
  | [] => []
  | k :: keys' =>
      match NewPubKey k with
      | Ok pk => pk :: parse_pubkeys keys'
      | _ => parse_pubkeys keys'
      end
  end.

Fixpoint PubKeys_Valid {K : SdkKeys} (p : list PubKey) : goerr :=
  match p with
  | [] => None
  | pk :: p' =>
      match NewPubKey (PubKey_String pk) with
      | Err e => Some e
      | _ => PubKeys_Valid p'
      end
  end.

Definition PubKeys_Contains (p : list PubKey) (pk : PubKey) : bool :=
  existsb (fun pp => PubKey_Equals pp pk) p.

Definition PubKeys_Equals (p newPks : list PubKey) : bool :=
  if negb (length p =? length newPks)%nat then false
  else
    forallb (fun '(s, d) => PubKey_Equals s d)
      (zip (stable_sort str_ltb p) (stable_sort str_ltb newPks)).

Definition PubKeys_Strings (p : list PubKey) : list string := map PubKey_String p.

Record PubKeySet := mkPubKeySet {
  Secp256k1 : PubKey;
  Ed25519 : PubKey
}.

Definition NewPubKeySet (secp256k1 ed25519 : PubKey) : PubKeySet :=
  mkPubKeySet secp256k1 ed25519.
Definition EmptyPubKeySet : PubKeySet := mkPubKeySet EmptyPubKey EmptyPubKey.

Definition PubKeySet_IsEmpty (p : PubKeySet) : bool :=
  PubKey_IsEmpty (Secp256k1 p) || PubKey_IsEmpty (Ed25519 p).
Definition PubKeySet_Equals (p pks1 : PubKeySet) : bool :=
  PubKey_Equals (Ed25519 p) (Ed25519 pks1) && PubKey_Equals (Secp256k1 p) (Secp256k1 pks1).
Definition PubKeySet_Contains (p : PubKeySet) (pk : PubKey) : bool :=
  PubKey_Equals (Ed25519 p) pk || PubKey_Equals (Secp256k1 p) pk.

(** ** common/address.go *)

Abbreviation Address := string (only parsing).

Definition NoAddress : Address := "".
Definition NoopAddress : Address := "noop".

Definition Address_String (addr : Address) : string := addr.
Definition Address_Equals (addr addr2 : Address) : bool :=
  equal_fold (Address_String addr) (Address_String addr2).
Definition Address_IsEmpty (addr : Address) : bool :=
  String.eqb (trim_space (Address_String addr)) "".
Definition IsNoop (addr : Address) : bool := Address_Equals addr NoopAddress.

(** ** Lemmas *)

(** A list has one sorted rearrangement when the order is total on it. *)
Lemma sorted_by_unique {A} (less : A -> A -> bool) `{!StrictWeak less} l1 l2 :
  (forall x y, x ∈ l1 -> y ∈ l1 -> less x y = false -> less y x = false -> x = y) ->
  l1 ≡ₚ l2 -> sorted_by less l1 -> sorted_by less l2 -> l1 = l2.
Proof.
  revert l2. induction l1 as [|c l1 IH]; intros l2 Ht Hp H1 H2.
  { by apply Permutation_nil_l in Hp. }
  destruct l2 as [|d l2]; [by apply Permutation_nil_r in Hp|].
  destruct H1 as [Hc H1], H2 as [Hd H2].
  assert (Hdin : d ∈ c :: l1) by (rewrite Hp; left).
  assert (c = d) as ->.
  { assert (Hcin : c ∈ d :: l2) by (rewrite <- Hp; left).
    apply elem_of_cons in Hcin as [?|Hcin]; [done|].
    pose proof Hdin as Hdin'. apply elem_of_cons in Hdin' as [?|Hdin']; [done|].
    rewrite Forall_forall in Hc, Hd.
    apply Ht; [left|done|by apply Hd|by apply Hc]. }
  f_equal. apply IH; [|by apply Permutation_cons_inv in Hp|done..].
  intros x y Hx Hy. apply Ht; by right.
Qed.

Lemma sort_strings_perm l1 l2 : l1 ≡ₚ l2 -> stable_sort str_ltb l1 = stable_sort str_ltb l2.
Proof.
  intros Hp. apply (sorted_by_unique str_ltb).
  - intros. by apply str_ltb_total.
  - by rewrite !stable_sort_perm.
  - apply stable_sort_sorted, _.
  - apply stable_sort_sorted, _.
Qed.

Lemma PubKeys_Equals_perm p q : PubKeys_Equals p q = true <-> p ≡ₚ q.
Proof.
  unfold PubKeys_Equals. split.
  - destruct (Nat.eqb_spec (length p) (length q)) as [Hl|]; [|done]. simpl. intros H.
    assert (Hs : stable_sort str_ltb p = stable_sort str_ltb q).
    { assert (Hl' : length (stable_sort str_ltb p) = length (stable_sort str_ltb q))
        by by rewrite !stable_sort_length.
      revert Hl' H. generalize (stable_sort str_ltb p) (stable_sort str_ltb q). clear.
      induction l as [|x l IH]; intros [|y l0] Hl H; simplify_eq/=; [done|].
      apply andb_true_iff in H as [Hx%String.eqb_eq H]. subst. f_equal. by apply IH. }
    rewrite <- (stable_sort_perm str_ltb p), Hs. apply stable_sort_perm.
  - intros Hp. rewrite (Permutation_length Hp), Nat.eqb_refl. simpl.
    rewrite (sort_strings_perm p q Hp).
    generalize (stable_sort str_ltb q). clear. induction l as [|x l IH]; simpl; [done|].
    unfold PubKey_Equals. by rewrite String.eqb_refl.
Qed.

Lemma PubKeys_Contains_spec p pk : PubKeys_Contains p pk = true <-> pk ∈ p.
Proof.
  unfold PubKeys_Contains, PubKey_Equals. rewrite existsb_exists. split.
  - intros (x & Hx & He). apply String.eqb_eq in He. subst. by apply list_elem_of_In.
  - intros H. exists pk. split; [by apply list_elem_of_In|apply String.eqb_refl].
Qed.

Lemma NewPubKey_inv {K : SdkKeys} s pk : NewPubKey s = Ok pk -> pk = s.
Proof.
  unfold NewPubKey. destruct (Nat.eqb_spec (String.length s) 0) as [H|H].
  - destruct s; simpl in *; [by intros [= <-]|lia].
  - destruct (pubkey_from_bech32 s); intros; simplify_eq. done.
Qed.

(** Keys that come out of a parsing loop parse again. *)
Lemma parse_pubkeys_valid {K : SdkKeys} keys : PubKeys_Valid (parse_pubkeys keys) = None.
Proof.
  induction keys as [|k keys IH]; simpl; [done|].
  destruct (NewPubKey k) as [pk| |] eqn:E; try done. simpl.
  unfold PubKey_String. pose proof (NewPubKey_inv _ _ E) as ->. by rewrite E.
Qed.

Lemma parse_pubkeys_all {K : SdkKeys} keys :
  (forall k, k ∈ keys -> NewPubKey k = Ok k) -> parse_pubkeys keys = keys.
Proof.
  induction keys as [|k keys IH]; simpl; [done|]. intros H.
  rewrite (H k) by left. f_equal. apply IH. intros. apply H. by right.
Qed.

Lemma elem_of_parse_pubkeys {K : SdkKeys} keys pk :
  pk ∈ parse_pubkeys keys <-> pk ∈ keys /\ NewPubKey pk = Ok pk.
Proof.
  induction keys as [|k keys IH]; simpl.
  - split; [by intros ?%elem_of_nil|by intros [?%elem_of_nil _]].
  - destruct (NewPubKey k) as [pk'| |] eqn:E; rewrite ?elem_of_cons, IH.
    + pose proof (NewPubKey_inv _ _ E). subst. split.
      * intros [->|[? ?]]; auto.
      * intros [[->|?] ?]; auto.
    + split; [by intros [? ?]; auto|]. intros [[->|?] ?]; [congruence|auto].
    + split; [by intros [? ?]; auto|]. intros [[->|?] ?]; [congruence|auto].
Qed.
