(* ===== verification/Shares.v ===== *)
(** The arithmetic helpers of the node: [common/type_convert.go] (shares and
    saturating subtraction), [common/math.go] (medians and means),
    [common/cosmos/cosmos.go] (rounding, minimum, sums), [common/decimals.go]
    and [common/significant_figures.go]. *)
From S2P Require Import Prelude SdkMath.

(** ** [big.Int] helpers used by the sources *)

(** [new(big.Int).Exp(x, y, nil)]: [1] when [y <= 0]. *)
Definition big_exp (x y : Z) : Z := if y <=? 0 then 1 else x ^ y.

(** [common.One]. *)
Definition One : Z := 10 ^ 8.

Section shares.
Context {S : SdkMath}.

(** *** common/type_convert.go *)

Definition GetUncappedShare (part total allocation : Z) : outcome Z :=
  if (part =? 0) || (total =? 0) || (allocation =? 0) then Ok 0
  else if part =? total then Ok allocation
  else
    let num := allocation * part + Z.shiftr total 1 in
    uint_of_big (Z.quot num total).

Definition GetSafeShare (part total allocation : Z) : outcome Z :=
  let part := if total <=? part then total else part in
  GetUncappedShare part total allocation.

Definition SafeSub (input1 input2 : Z) : outcome Z :=
  if input1 <? input2 then Ok 0 else uint_sub input1 input2.

(** *** common/cosmos/cosmos.go *)

Definition DefaultCoinDecimals : Z := 8.

Definition RoundToDecimal (amt dec : Z) : outcome Z :=
  if negb (dec =? 0) && (dec <? DefaultCoinDecimals) then
    let prec := i64 (DefaultCoinDecimals - dec) in
    if prec =? 0 then Ok amt
    else
      precisionAdjust ← uint_of_big (big_exp 10 prec);
      q ← uint_quo amt precisionAdjust;
      uint_mul q precisionAdjust
  else Ok amt.

Definition SafeUintFromInt64 (i : Z) : Z := if i <? 0 then 0 else u64 i.

Definition MinUint (u1 u2 : Z) : Z := if u1 <? u2 then u1 else u2.

Fixpoint sum_from (sum : Z) (u : list Z) : outcome Z :=
  match u with
  | [] => Ok sum
  | i :: u' => sum' ← uint_add sum i; sum_from sum' u'
  end.

Definition Sum (u : list Z) : outcome Z := sum_from 0 u.

(** *** common/math.go *)

Definition Max (a b : Z) : Z := if b <? a then a else b.
Definition Min (a b : Z) : Z := if a <? b then a else b.
Definition Abs (a : Z) : Z := if a <? 0 then i64 (- a) else a.

(** The slice handed in is sorted in place: its new content is returned next
    to the median. *)
Definition GetMedianUint (vals : list Z) : outcome (Z * list Z) :=
  match vals with
  | [] => Ok (0, vals)
  | _ =>
      let vals := stable_sort Z.ltb vals in
      let n := length vals in
      if Nat.odd n then Ok (nth (n / 2) vals 0, vals)
      else
        s ← uint_add (nth (n / 2 - 1) vals 0) (nth (n / 2) vals 0);
        m ← uint_quo_u64 s 2;
        Ok (m, vals)
  end.

Definition GetMedianInt64 (vals : list Z) : Z * list Z :=
  match vals with
  | [] => (0, vals)
  | [v] => (v, vals)
  | _ =>
      let vals := stable_sort Z.ltb vals in
      let n := length vals in
      if Nat.odd n then (nth (n / 2) vals 0, vals)
      else (Z.quot (i64 (nth (n / 2 - 1) vals 0 + nth (n / 2) vals 0)) 2, vals)
  end.

Fixpoint weighted_total (acc : Z) (vals weights : list Z) : outcome Z :=
  match vals, weights with
  | v :: vals', w :: weights' =>
      p ← uint_mul v w;
      acc' ← uint_add acc p;
      weighted_total acc' vals' weights'
  | _, _ => Ok acc
  end.

Definition WeightedMean (vals weights : list Z) : outcome Z :=
  totalWeight ← Sum weights;
  if totalWeight =? 0 then Err "total weight is zero"
  else if negb (length vals =? length weights)%nat then Panic
  else
    weightedTotal ← weighted_total 0 vals weights;
    uint_quo weightedTotal totalWeight.
End shares.

(** *** common/decimals.go *)

(** [big.Int.Div] by a positive divisor is the floor division. *)
Definition ConvertDecimals (amount fromDecimals toDecimals : Z) : outcome Z :=
  if (fromDecimals <? 0) || (toDecimals <? 0) then Err "decimals must be positive"
  else if fromDecimals =? toDecimals then Ok amount
  else
    let diff := big_exp 10 (Z.abs (fromDecimals - toDecimals)) in
    if toDecimals <? fromDecimals then Ok (amount / diff) else Ok (amount * diff).

(** *** common/significant_figures.go *)

(** The [for temp != 0] loop; a [uint64] has at most 20 digits. *)
Fixpoint magnitude_loop (fuel : nat) (temp magnitude : Z) : Z :=
  match fuel with
  | O => magnitude
  | S fuel' =>
      if temp =? 0 then magnitude
      else magnitude_loop fuel' (temp / 10) (magnitude + 1)
  end.

Definition magnitude_fuel : nat := 20.

(** The [divisor *= 10] loop, in [uint64]. *)
Definition sig_divisor (n : Z) : Z := Nat.iter (Z.to_nat n) (fun d => u64 (d * 10)) 1.

Definition RoundSignificantFigures (number significantDigits : Z) : outcome Z :=
  if number =? 0 then Ok 0
  else
    let magnitude := magnitude_loop magnitude_fuel number 0 in
    if magnitude <=? significantDigits then Ok number
    else
      let divisor := sig_divisor (i64 (magnitude - significantDigits)) in
      if divisor =? 0 then Panic
      else Ok (u64 (number / divisor * divisor)).

(** ** Lemmas *)
Section share_lemmas.
Context {S : SdkMath} `{!SdkMathOk S}.

(** The share of [allocation] a [part] of [total] gets, as a number: rounded
    half up, and [0] when anything is zero. *)
Definition share (part total allocation : Z) : Z :=
  if total =? 0 then 0 else (allocation * part + total / 2) / total.

Lemma share_near part total allocation : 0 < total ->
  2 * Z.abs (share part total allocation * total - allocation * part) <= total.
Proof.
  intros Ht. unfold share. destruct (Z.eqb_spec total 0); [lia|].
  pose proof (div_bounds (allocation * part + total / 2) total Ht).
  pose proof (div_bounds total 2 ltac:(lia)). lia.
Qed.

Lemma share_nonneg part total allocation :
  0 <= part -> 0 <= total -> 0 <= allocation -> 0 <= share part total allocation.
Proof.
  intros. unfold share. destruct (Z.eqb_spec total 0); [lia|].
  apply Z.div_pos; [|lia]. pose proof (Z.div_pos total 2). nia.
Qed.

Lemma share_full total allocation : 0 < total -> share total total allocation = allocation.
Proof.
  intros Ht. unfold share. destruct (Z.eqb_spec total 0); [lia|].
  rewrite Z.div_add_l by lia. rewrite (Z.div_small (total / 2)); [lia|].
  pose proof (div_bounds total 2 ltac:(lia)). lia.
Qed.

Lemma share_mono p q total allocation : 0 <= allocation -> 0 < total -> p <= q ->
  share p total allocation <= share q total allocation.
Proof.
  intros Ha Ht Hpq. unfold share. destruct (Z.eqb_spec total 0); [lia|].
  apply Z.div_le_mono; [lia|]. nia.
Qed.

Lemma share_le part total allocation : 0 <= part <= total -> 0 <= allocation ->
  share part total allocation <= allocation.
Proof.
  intros Hp Ha. destruct (Z.eq_dec total 0) as [->|Hn]; [done|].
  rewrite <- (share_full total allocation) at 2 by lia. apply share_mono; lia.
Qed.

Lemma share_0_l total allocation : 0 <= total -> share 0 total allocation = 0.
Proof.
  intros Ht. unfold share. destruct (Z.eqb_spec total 0); [done|].
  rewrite Z.mul_0_r, Z.add_0_l. apply Z.div_small.
  pose proof (div_bounds total 2 ltac:(lia)). lia.
Qed.

Lemma share_0_r part total : 0 <= total -> share part total 0 = 0.
Proof.
  intros Ht. unfold share. destruct (Z.eqb_spec total 0); [done|].
  rewrite Z.mul_0_l, Z.add_0_l. apply Z.div_small.
  pose proof (div_bounds total 2 ltac:(lia)). lia.
Qed.

(** The code computes [share], and panics exactly when it does not fit. *)
Lemma GetUncappedShare_eq part total allocation :
  is_uint part -> is_uint total -> is_uint allocation ->
  GetUncappedShare part total allocation = uint_or_panic (share part total allocation).
Proof.
  intros Hp Ht Ha. pose proof Hp as [Hp0 _]. pose proof Ht as [Ht0 _].
  unfold GetUncappedShare.
  destruct (Z.eqb_spec part 0) as [->|]; simpl.
  { by rewrite share_0_l, uint_or_panic_Ok by eauto with go. }
  destruct (Z.eqb_spec total 0) as [->|]; simpl.
  { by rewrite uint_or_panic_Ok by eauto with go. }
  destruct (Z.eqb_spec allocation 0) as [->|]; simpl.
  { by rewrite share_0_r, uint_or_panic_Ok by eauto with go. }
  destruct (Z.eqb_spec part total) as [->|].
  { by rewrite share_full, uint_or_panic_Ok by (done || lia). }
  rewrite uint_of_big_ok. f_equal. unfold share.
  destruct (Z.eqb_spec total 0); [done|].
  rewrite Z.shiftr_div_pow2 by lia. change (2 ^ 1) with 2.
  apply quot_nonneg; [|lia]. pose proof (Z.div_pos total 2). unfold is_uint in *. nia.
Qed.

Lemma GetUncappedShare_inv part total allocation r :
  is_uint part -> is_uint total -> is_uint allocation ->
  GetUncappedShare part total allocation = Ok r ->
  r = share part total allocation /\ is_uint r.
Proof.
  intros Hp Ht Ha. rewrite GetUncappedShare_eq by done.
  by intros [-> ?]%uint_or_panic_inv.
Qed.

Lemma GetSafeShare_Ok part total allocation :
  is_uint part -> is_uint total -> is_uint allocation ->
  GetSafeShare part total allocation = Ok (share (Z.min part total) total allocation).
Proof.
  intros Hp Ht Ha. unfold GetSafeShare.
  replace (if total <=? part then total else part) with (Z.min part total)
    by (destruct (Z.leb_spec total part); lia).
  assert (Hm : is_uint (Z.min part total)) by (unfold is_uint in *; lia).
  rewrite GetUncappedShare_eq by done. apply uint_or_panic_Ok.
  unfold is_uint in *. split; [apply share_nonneg; lia|].
  pose proof (share_le (Z.min part total) total allocation). lia.
Qed.

Lemma safe_share_uint part total allocation :
  is_uint part -> is_uint total -> is_uint allocation ->
  is_uint (share (Z.min part total) total allocation).
Proof.
  unfold is_uint. intros. split; [apply share_nonneg; lia|].
  pose proof (share_le (Z.min part total) total allocation). lia.
Qed.

Lemma SafeSub_Ok a b : is_uint a -> is_uint b -> SafeSub a b = Ok (Z.max 0 (a - b)).
Proof.
  intros Ha Hb. unfold SafeSub. destruct (Z.ltb_spec a b).
  - f_equal. lia.
  - rewrite uint_sub_ok by done. rewrite uint_or_panic_Ok by (unfold is_uint in *; lia).
    f_equal. lia.
Qed.

Lemma safe_sub_uint a b : is_uint a -> is_uint b -> is_uint (Z.max 0 (a - b)).
Proof. unfold is_uint. lia. Qed.

Lemma RoundToDecimal_le amt dec r : is_uint amt -> RoundToDecimal amt dec = Ok r ->
  r <= amt /\ 0 <= r.
Proof.
  intros Ha H. unfold RoundToDecimal in H. pose proof Ha as [Ha0 _].
  repeat case_if_in H; simplify_eq; try done. uint_inv. subst.
  match goal with Hp : 0 < ?p |- _ => pose proof (Z.mul_div_le amt p Hp) end.
  unfold is_uint in *. lia.
Qed.

Lemma MinUint_min a b : MinUint a b = Z.min a b.
Proof. unfold MinUint. destruct (Z.ltb_spec a b); lia. Qed.

Lemma sum_from_eq u acc : Forall is_uint u -> is_uint acc ->
  sum_from acc u = uint_or_panic (acc + sumZ u).
Proof.
  intros Hu. revert acc. induction Hu as [|x u Hx Hu IH]; intros acc Hacc; simpl.
  - by rewrite Z.add_0_r, uint_or_panic_Ok.
  - rewrite uint_add_ok by done.
    assert (0 <= sumZ u) by (apply sumZ_nonneg; eapply Forall_impl; [done|]; by intros ? []).
    destruct (decide (is_uint (acc + x))) as [Hs|Hs].
    + rewrite (uint_or_panic_Ok (acc + x)) by done. simpl. rewrite IH by done. f_equal; lia.
    + rewrite !uint_or_panic_Panic; [done| |done]. unfold is_uint in *. lia.
Qed.

Lemma Sum_eq u : Forall is_uint u -> Sum u = uint_or_panic (sumZ u).
Proof. intros. unfold Sum. rewrite sum_from_eq by eauto with go. f_equal; lia. Qed.
End share_lemmas.

#[export] Hint Resolve safe_share_uint safe_sub_uint : go.

Lemma SafeSub_inv {S : SdkMath} `{!SdkMathOk S} a b r : is_uint a -> is_uint b ->
  SafeSub a b = Ok r -> r = Z.max 0 (a - b) /\ is_uint r.
Proof. intros Ha Hb. rewrite SafeSub_Ok by done. intros [= <-]. auto with go. Qed.

Lemma GetSafeShare_inv {S : SdkMath} `{!SdkMathOk S} part total allocation r :
  is_uint part -> is_uint total -> is_uint allocation ->
  GetSafeShare part total allocation = Ok r ->
  r = share (Z.min part total) total allocation /\ is_uint r.
Proof. intros Hp Ht Ha. rewrite GetSafeShare_Ok by done. intros [= <-]. auto with go. Qed.

(** [uint_inv] for the helpers of this file as well. *)
Ltac math_inv :=
  repeat (uint_inv; ok_inv; match goal with
  | H : SafeSub ?a ?b = Ok ?r |- _ =>
      apply SafeSub_inv in H; [destruct H as [? ?]|uint_side|uint_side]
  | H : GetSafeShare ?a ?b ?c = Ok ?r |- _ =>
      apply GetSafeShare_inv in H; [destruct H as [? ?]|uint_side|uint_side|uint_side]
  | H : GetUncappedShare ?a ?b ?c = Ok ?r |- _ =>
      apply GetUncappedShare_inv in H; [destruct H as [? ?]|uint_side|uint_side|uint_side]
  end);
  uint_inv; ok_inv.

(** *** Medians *)
Section median_lemmas.
Lemma filter_take_all (P : Z -> Prop) `{!forall x, Decision (P x)} k l :
  Forall P (take k l) -> (Nat.min k (length l) <= length (filter P l))%nat.
Proof.
  intros HF. rewrite <- (take_drop k l) at 2. rewrite filter_app, length_app.
  rewrite (filter_all P (take k l)) by done.
  rewrite length_take. lia.
Qed.

Lemma filter_drop_all (P : Z -> Prop) `{!forall x, Decision (P x)} k l :
  Forall P (drop k l) -> (length l - k <= length (filter P l))%nat.
Proof.
  intros HF. rewrite <- (take_drop k l) at 2. rewrite filter_app, length_app.
  rewrite (filter_all P (drop k l)) by done.
  rewrite length_drop. lia.
Qed.

Lemma sorted_Z_nth l i j :
  sorted_by Z.ltb l -> (i <= j < length l)%nat -> nth i l 0 <= nth j l 0.
Proof.
  intros Hs Hij. destruct (decide (i = j)) as [->|Hne]; [done|].
  destruct (lookup_lt_is_Some_2 l i ltac:(lia)) as [x Hx].
  destruct (lookup_lt_is_Some_2 l j ltac:(lia)) as [y Hy].
  rewrite (nth_lookup_Some _ _ _ _ Hx), (nth_lookup_Some _ _ _ _ Hy).
  pose proof (sorted_by_lookup _ l i j x y Hs Hx Hy ltac:(lia)) as H.
  z_bool. lia.
Qed.

(** A number [m] between two sorted positions splits the slice. *)
Lemma sorted_Z_count_le l i m :
  sorted_by Z.ltb l -> (i < length l)%nat -> nth i l 0 <= m ->
  (i + 1 <= length (filter (fun v => (v <= m)%Z) l))%nat.
Proof.
  intros Hs Hi Hm. etransitivity; [|apply (filter_take_all (fun v => v <= m) (i + 1))].
  - lia.
  - apply Forall_lookup. intros k x Hk.
    apply lookup_take_Some in Hk as [Hk Hlt].
    rewrite <- (nth_lookup_Some _ _ 0 _ Hk).
    pose proof (sorted_Z_nth l k i Hs ltac:(lia)). lia.
Qed.

Lemma sorted_Z_count_ge l i m :
  sorted_by Z.ltb l -> (i < length l)%nat -> m <= nth i l 0 ->
  (length l - i <= length (filter (fun v => (m <= v)%Z) l))%nat.
Proof.
  intros Hs Hi Hm. apply filter_drop_all.
  apply Forall_lookup. intros k x Hk. rewrite lookup_drop in Hk.
  pose proof (lookup_lt_Some _ _ _ Hk).
  rewrite <- (nth_lookup_Some _ _ 0 _ Hk).
  pose proof (sorted_Z_nth l i (i + k) Hs ltac:(lia)). lia.
Qed.

(** [m] has at least half of [l] on either side. *)
Definition is_median (m : Z) (l : list Z) : Prop :=
  (length l <= 2 * length (filter (fun v => (v <= m)%Z) l))%nat /\
  (length l <= 2 * length (filter (fun v => (m <= v)%Z) l))%nat.

Lemma is_median_perm m l l' : l ≡ₚ l' -> is_median m l -> is_median m l'.
Proof. unfold is_median. intros Hp. by rewrite Hp. Qed.

Lemma odd_median l : sorted_by Z.ltb l -> Nat.odd (length l) = true ->
  is_median (nth (length l / 2) l 0) l.
Proof.
  intros Hs Ho. apply Nat.odd_spec in Ho as [k Hk].
  assert (Hd : (length l / 2 = k)%nat)
    by (rewrite Hk; symmetry; apply (Nat.div_unique _ 2 k 1); lia).
  rewrite Hd. split.
  - pose proof (sorted_Z_count_le l k (nth k l 0) Hs ltac:(lia) ltac:(lia)). lia.
  - pose proof (sorted_Z_count_ge l k (nth k l 0) Hs ltac:(lia) ltac:(lia)). lia.
Qed.

Lemma even_median l m : sorted_by Z.ltb l -> l <> [] -> Nat.odd (length l) = false ->
  nth (length l / 2 - 1) l 0 <= m <= nth (length l / 2) l 0 -> is_median m l.
Proof.
  intros Hs Hne Ho Hm. rewrite <- Nat.negb_even in Ho. apply negb_false_iff in Ho.
  apply Nat.even_spec in Ho as [k Hk].
  assert (Hd : (length l / 2 = k)%nat)
    by (rewrite Hk; symmetry; apply (Nat.div_unique _ 2 k 0); lia).
  rewrite Hd in Hm. assert (k <> 0)%nat by (destruct l; simpl in *; congruence || lia).
  split.
  - pose proof (sorted_Z_count_le l (k - 1) m Hs ltac:(lia) ltac:(lia)). lia.
  - pose proof (sorted_Z_count_ge l k m Hs ltac:(lia) ltac:(lia)). lia.
Qed.

Lemma nth_Forall (P : Z -> Prop) l i : P 0 -> Forall P l -> P (nth i l 0).
Proof. intros H0. revert i. induction l; intros [|i]; inversion 1; simpl; auto. Qed.
End median_lemmas.

(** *** Significant figures *)
Lemma magnitude_loop_spec fuel temp mag :
  0 < temp < 10 ^ Z.of_nat fuel ->
  exists k, magnitude_loop fuel temp mag = mag + k /\ 1 <= k <= Z.of_nat fuel /\
    10 ^ (k - 1) <= temp < 10 ^ k.
Proof.
  revert temp mag. induction fuel as [|fuel IH]; intros temp mag Ht; [simpl in Ht; lia|].
  cbn [magnitude_loop]. destruct (Z.eqb_spec temp 0); [lia|].
  rewrite Nat2Z.inj_succ, Z.pow_succ_r in Ht by lia.
  destruct (Z.ltb_spec temp 10) as [Hlt|Hge].
  - exists 1. rewrite Z.div_small by lia. split; [|simpl; lia].
    destruct fuel; reflexivity.
  - pose proof (div_bounds temp 10 ltac:(lia)) as Hd.
    destruct (IH (temp / 10) (mag + 1)) as (k & -> & Hk & Hp).
    { split; [|apply Z.div_lt_upper_bound; lia]. apply Z.div_str_pos. lia. }
    exists (k + 1). split; [lia|]. split; [lia|].
    replace (k + 1 - 1) with (Z.succ (k - 1)) by lia.
    replace (k + 1) with (Z.succ k) by lia.
    rewrite !Z.pow_succ_r by lia. lia.
Qed.

Lemma sig_divisor_pow n : 0 <= n <= 19 -> sig_divisor n = 10 ^ n.
Proof.
  intros Hn. unfold sig_divisor.
  assert (H : forall k, (k <= 19)%nat ->
    Nat.iter k (fun d => u64 (d * 10)) 1 = 10 ^ Z.of_nat k).
  { induction k as [|k IH]; intros Hk; [done|]. cbn [Nat.iter nat_rect].
    change (nat_rect _ _ _ k) with (Nat.iter k (fun d => u64 (d * 10)) 1).
    rewrite IH, u64_id by lia || (unfold is_u64; split;
      [apply Z.mul_nonneg_nonneg; [apply Z.pow_nonneg|]; lia|];
      pose proof (Z.pow_le_mono_r 10 (Z.of_nat k) 18 ltac:(lia) ltac:(lia)); lia).
    rewrite Nat2Z.inj_succ, Z.pow_succ_r by lia. lia. }
  rewrite H by lia. by rewrite Z2Nat.id by lia.
Qed.

(** ** Properties *)
Section share_properties.
Context {S : SdkMath} `{!SdkMathOk S}.

(** [GetUncappedShare] is exact up to rounding half up: whenever it
    returns, the share times the total is within half a total of
    [allocation * part] (so it is a nearest integer), an exact tie goes up,
    and it panics only when that share needs more than 256 bits. *)
Theorem GetUncappedShare_nearest part total allocation :
  is_uint part -> is_uint total -> is_uint allocation -> 0 < total ->
  (exists r, GetUncappedShare part total allocation = Ok r /\ is_uint r /\
     - total <= 2 * (allocation * part - r * total) < total) \/
  (GetUncappedShare part total allocation = Panic /\
     uint_lim * total <= allocation * part + total).
Proof.
  intros Hp Ht Ha Hpos. rewrite GetUncappedShare_eq by done.
  set (r := share part total allocation).
  assert (Hb : r * total <= allocation * part + total / 2 < (r + 1) * total).
  { unfold r, share. destruct (Z.eqb_spec total 0); [lia|]. apply div_bounds; lia. }
  assert (Hr0 : 0 <= r) by (apply share_nonneg; unfold is_uint in *; lia).
  pose proof (div_bounds total 2 ltac:(lia)).
  destruct (decide (is_uint r)) as [Hr|Hr].
  - left. exists r. rewrite uint_or_panic_Ok by done. split; [done|]. split; [done|lia].
  - right. rewrite uint_or_panic_Panic by done. split; [done|].
    assert (uint_lim <= r) by (unfold is_uint in Hr; lia). nia.
Qed.

(** [GetSafeShare] never panics on [Uint] arguments, never returns more
    than the [allocation] (all of it when [part >= total]), grows with
    [part], and is a nearest integer to the exact share. *)
Theorem GetSafeShare_bounded part part' total allocation :
  is_uint part -> is_uint part' -> is_uint total -> is_uint allocation ->
  exists r r', GetSafeShare part total allocation = Ok r /\
    GetSafeShare part' total allocation = Ok r' /\
    0 <= r <= allocation /\
    (part <= part' -> r <= r') /\
    (0 < total <= part -> r = allocation) /\
    2 * Z.abs (r * total - allocation * Z.min part total) <= total.
Proof.
  intros Hp Hp' Ht Ha. do 2 eexists. rewrite !GetSafeShare_Ok by done.
  split; [done|]. split; [done|]. unfold is_uint in *.
  split; [split; [apply share_nonneg; lia|apply share_le; lia]|].
  destruct (Z.eq_dec total 0) as [->|Hn].
  { unfold share. simpl. lia. }
  split; [intros; apply share_mono; lia|].
  split; [intros; rewrite Z.min_r by lia; apply share_full; lia|].
  apply share_near. lia.
Qed.

(** [RoundToDecimal] keeps at most [dec] of the eight decimals: it rounds
    down to a multiple of [10^(8-dec)], by less than that, is idempotent and
    never panics. *)
Theorem RoundToDecimal_floor amt dec :
  is_uint amt -> 0 <= dec ->
  exists r, RoundToDecimal amt dec = Ok r /\ RoundToDecimal r dec = Ok r /\
    r <= amt /\
    (0 < dec < DefaultCoinDecimals ->
       (10 ^ (8 - dec) | r) /\ amt < r + 10 ^ (8 - dec)) /\
    (dec = 0 \/ DefaultCoinDecimals <= dec -> r = amt).
Proof.
  intros Ha Hd. unfold RoundToDecimal, DefaultCoinDecimals.
  destruct (Z.eqb_spec dec 0) as [->|Hd0]; simpl.
  { exists amt. repeat split; lia. }
  destruct (Z.ltb_spec dec 8) as [Hlt|Hge]; simpl; [|exists amt; repeat split; lia].
  rewrite i64_id by (unfold is_i64; lia).
  destruct (Z.eqb_spec (8 - dec) 0); [lia|].
  unfold big_exp. destruct (Z.leb_spec (8 - dec) 0); [lia|].
  set (p := 10 ^ (8 - dec)).
  assert (Hp : 0 < p <= 10 ^ 7).
  { split; [apply Z.pow_pos_nonneg; lia|]. apply Z.pow_le_mono_r; lia. }
  assert (Hpu : is_uint p) by (unfold is_uint, uint_lim; lia).
  rewrite uint_of_big_ok, uint_or_panic_Ok by done. simpl.
  rewrite (uint_quo_Ok amt p) by (done || lia). simpl.
  pose proof (div_bounds amt p ltac:(lia)).
  assert (Hr : is_uint (amt / p * p))
    by (pose proof (div_uint amt p Ha ltac:(lia)); unfold is_uint in *; nia).
  assert (Hmul : uint_mul (amt / p) p = Ok (amt / p * p)).
  { rewrite uint_mul_ok by (done || (apply div_uint; [done|lia])).
    by rewrite uint_or_panic_Ok. }
  exists (amt / p * p). split; [done|].
  rewrite uint_quo_Ok by (done || lia). simpl. rewrite Z.div_mul by lia.
  split; [done|]. split; [lia|].
  split; [intros _; split; [by exists (amt / p)|lia]|lia].
Qed.

(** [GetMedianUint] returns a median: the slice comes back sorted, as a
    permutation of the input, and at least half of the values lie on either
    side of the result; it only panics when the two middle values overflow. *)
Theorem GetMedianUint_median vals :
  vals <> [] -> Forall (fun v => 0 <= v /\ 2 * v < uint_lim) vals ->
  exists m sorted, GetMedianUint vals = Ok (m, sorted) /\
    sorted ≡ₚ vals /\ sorted_by Z.ltb sorted /\ is_median m vals.
Proof.
  intros Hne Hv. set (sorted := stable_sort Z.ltb vals).
  assert (Hp : sorted ≡ₚ vals) by apply stable_sort_perm.
  assert (Hs : sorted_by Z.ltb sorted) by (apply stable_sort_sorted, _).
  assert (Hv' : Forall (fun v => 0 <= v /\ 2 * v < uint_lim) sorted) by (by rewrite Hp).
  assert (Hl : sorted <> []).
  { intros H. apply Hne. rewrite H in Hp. by apply Permutation_nil. }
  assert (Heq : exists m, GetMedianUint vals = Ok (m, sorted) /\ is_median m sorted).
  { unfold GetMedianUint. destruct vals as [|v vals']; [done|]. fold sorted.
    destruct (Nat.odd (length sorted)) eqn:Eo.
    - eexists. split; [done|]. by apply odd_median.
    - set (a := nth (length sorted / 2 - 1) sorted 0).
      set (b := nth (length sorted / 2) sorted 0).
      assert (Ha : 0 <= a /\ 2 * a < uint_lim) by (apply nth_Forall; [by vm_compute|done]).
      assert (Hb : 0 <= b /\ 2 * b < uint_lim) by (apply nth_Forall; [by vm_compute|done]).
      assert (Hab : a <= b).
      { apply sorted_Z_nth; [done|]. split; [lia|].
        apply Nat.div_lt; [destruct sorted; simpl; [done|lia]|lia]. }
      rewrite uint_add_ok, uint_or_panic_Ok by (unfold is_uint; lia). simpl.
      rewrite uint_quo_u64_Ok by (unfold is_uint, is_u64; lia). simpl.
      eexists. split; [done|]. apply even_median; [done..|].
      pose proof (div_bounds (a + b) 2 ltac:(lia)). unfold a, b in *. lia. }
  destruct Heq as (m & Hm & Hmed). exists m, sorted.
  repeat split; try done; by apply (is_median_perm m sorted vals Hp).
Qed.
End share_properties.

(** [RoundSignificantFigures] keeps the leading [significantDigits] digits
    of a [uint64]: with [k] the number of digits dropped, the result is the
    largest multiple of [10^k] below the number; no divisor overflow and no
    division by zero occurs. *)
Theorem RoundSignificantFigures_spec number digits :
  is_u64 number -> 0 < number -> 1 <= digits -> is_i64 digits ->
  exists r m, RoundSignificantFigures number digits = Ok r /\
    10 ^ (m - 1) <= number < 10 ^ m /\
    r <= number < r + 10 ^ Z.max 0 (m - digits) /\
    (10 ^ Z.max 0 (m - digits) | r).
Proof.
  intros Hn Hpos Hd Hd'. unfold RoundSignificantFigures.
  destruct (Z.eqb_spec number 0); [lia|].
  destruct (magnitude_loop_spec magnitude_fuel number 0) as (k & -> & Hk & Hp).
  { unfold is_u64 in Hn. change (Z.of_nat magnitude_fuel) with 20. lia. }
  rewrite Z.add_0_l. change (Z.of_nat magnitude_fuel) with 20 in Hk.
  destruct (Z.leb_spec k digits) as [Hle|Hgt].
  { exists number, k. rewrite Z.max_l by lia. repeat split; try lia. apply Z.divide_1_l. }
  rewrite i64_id by (unfold is_i64 in *; lia). rewrite sig_divisor_pow by lia.
  assert (Hq : 0 < 10 ^ (k - digits)) by (apply Z.pow_pos_nonneg; lia).
  destruct (Z.eqb_spec (10 ^ (k - digits)) 0); [lia|].
  set (p := 10 ^ (k - digits)) in *.
  pose proof (div_bounds number p Hq).
  assert (0 <= number / p) by (apply Z.div_pos; lia).
  exists (number / p * p), k. rewrite u64_id by (unfold is_u64 in *; nia).
  rewrite (Z.max_r 0 (k - digits)) by lia. fold p.
  split; [done|]. split; [lia|]. split; [lia|]. by exists (number / p).
Qed.

(** [ConvertDecimals] loses nothing when it adds decimals: converting to a
    finer unit and back is the identity; the other way round it truncates, by
    less than one unit of the coarser scale. *)
Theorem ConvertDecimals_roundtrip amount lo hi :
  0 <= lo <= hi ->
  exists up down,
    ConvertDecimals amount lo hi = Ok up /\ ConvertDecimals up hi lo = Ok amount /\
    ConvertDecimals amount hi lo = Ok down /\
    down * 10 ^ (hi - lo) <= amount < (down + 1) * 10 ^ (hi - lo).
Proof.
  intros H. unfold ConvertDecimals, big_exp.
  destruct (Z.ltb_spec lo 0), (Z.ltb_spec hi 0); try lia; simpl.
  rewrite (Z.eqb_sym hi lo), (Z.abs_neq (lo - hi)), (Z.abs_eq (hi - lo)) by lia.
  destruct (Z.eqb_spec lo hi) as [->|Hne].
  { exists amount, amount. rewrite Z.sub_diag. repeat split; lia. }
  replace (- (lo - hi)) with (hi - lo) by lia.
  destruct (Z.leb_spec (hi - lo) 0); [lia|].
  destruct (Z.ltb_spec hi lo); [lia|]. destruct (Z.ltb_spec lo hi); [|lia].
  assert (0 < 10 ^ (hi - lo)) by (apply Z.pow_pos_nonneg; lia).
  do 2 eexists. split; [done|]. rewrite Z.div_mul by lia.
  split; [done|]. split; [done|]. by apply div_bounds.
Qed.

(** *** Witnesses *)
Lemma GetUncappedShare_nearest_witness :
  GetUncappedShare (S := sdk_std) 3 8 100 = Ok 38 /\
  ((exists r, GetUncappedShare (S := sdk_std) 3 8 100 = Ok r /\ is_uint r /\
     - 8 <= 2 * (100 * 3 - r * 8) < 8) \/
   (GetUncappedShare (S := sdk_std) 3 8 100 = Panic /\ uint_lim * 8 <= 100 * 3 + 8)).
Proof. split; [vm_compute; reflexivity|]. apply (GetUncappedShare_nearest 3 8 100); uint_side. Defined.

Lemma GetSafeShare_bounded_witness :
  exists r r', GetSafeShare (S := sdk_std) 3 8 100 = Ok r /\
    GetSafeShare (S := sdk_std) 12 8 100 = Ok r' /\
    0 <= r <= 100 /\ (3 <= 12 -> r <= r') /\ (0 < 8 <= 3 -> r = 100) /\
    2 * Z.abs (r * 8 - 100 * Z.min 3 8) <= 8.
Proof. apply (GetSafeShare_bounded 3 12 8 100); uint_side. Defined.

Lemma RoundToDecimal_floor_witness :
  RoundToDecimal (S := sdk_std) 123456789 6 = Ok 123456700 /\
  exists r, RoundToDecimal (S := sdk_std) 123456789 6 = Ok r /\
    RoundToDecimal (S := sdk_std) r 6 = Ok r /\ r <= 123456789 /\
    (0 < 6 < DefaultCoinDecimals -> (10 ^ (8 - 6) | r) /\ 123456789 < r + 10 ^ (8 - 6)) /\
    (6 = 0 \/ DefaultCoinDecimals <= 6 -> r = 123456789).
Proof. split; [vm_compute; reflexivity|]. apply (RoundToDecimal_floor 123456789 6); [uint_side|lia]. Defined.

Lemma GetMedianUint_median_witness :
  GetMedianUint (S := sdk_std) [7; 1; 4; 2] = Ok (3, [1; 2; 4; 7]) /\
  exists m sorted, GetMedianUint (S := sdk_std) [7; 1; 4; 2] = Ok (m, sorted) /\
    sorted ≡ₚ [7; 1; 4; 2] /\ sorted_by Z.ltb sorted /\ is_median m [7; 1; 4; 2].
Proof.
  split; [vm_compute; reflexivity|]. apply (GetMedianUint_median [7; 1; 4; 2]); [done|].
  repeat constructor; vm_compute; congruence.
Defined.

Lemma RoundSignificantFigures_spec_witness :
  RoundSignificantFigures 18446744073709551615 3 = Ok 18400000000000000000 /\
  exists r m, RoundSignificantFigures 18446744073709551615 3 = Ok r /\
    10 ^ (m - 1) <= 18446744073709551615 < 10 ^ m /\
    r <= 18446744073709551615 < r + 10 ^ Z.max 0 (m - 3) /\ (10 ^ Z.max 0 (m - 3) | r).
Proof.
  split; [vm_compute; reflexivity|].
  apply (RoundSignificantFigures_spec 18446744073709551615 3); unfold is_u64, is_i64; lia.
Defined.

Lemma ConvertDecimals_roundtrip_witness :
  exists up down,
    ConvertDecimals 1234 6 8 = Ok up /\ ConvertDecimals up 8 6 = Ok 1234 /\
    ConvertDecimals 1234 8 6 = Ok down /\
    down * 10 ^ (8 - 6) <= 1234 < (down + 1) * 10 ^ (8 - 6).
Proof. apply (ConvertDecimals_roundtrip 1234 6 8); lia. Defined.
