(* ===== verification/Chains.v ===== *)
(** Chain identifiers: the string part of [common/chain.go].  The per-chain
    tables that mention assets are in [Assets.v]. *)
From S2P Require Import Prelude SdkMath GoStr Shares.

(** A [Chain] is a string; the Go [switch c] statements compare it byte for
    byte, while [Equals] ignores case. *)
Abbreviation Chain := string (only parsing).
Abbreviation Chains := (list string) (only parsing).

Definition EmptyChain : Chain := "".
Definition BSCChain : Chain := "BSC".
Definition ETHChain : Chain := "ETH".
Definition BTCChain : Chain := "BTC".
Definition LTCChain : Chain := "LTC".
Definition BCHChain : Chain := "BCH".
Definition DOGEChain : Chain := "DOGE".
Definition THORChain : Chain := "THOR".
Definition GAIAChain : Chain := "GAIA".
Definition NOBLEChain : Chain := "NOBLE".
Definition AVAXChain : Chain := "AVAX".
Definition BASEChain : Chain := "BASE".
Definition TRONChain : Chain := "TRON".
Definition XRPChain : Chain := "XRP".
Definition SOLChain : Chain := "SOL".
Definition ZECChain : Chain := "ZEC".
Definition XMRChain : Chain := "XMR".
Definition POLChain : Chain := "POL".
Definition SUIChain : Chain := "SUI".
Definition ADAChain : Chain := "ADA".

Definition AllChains : Chains :=
  [BSCChain; ETHChain; BTCChain; LTCChain; BCHChain; DOGEChain; THORChain;
   GAIAChain; NOBLEChain; AVAXChain; BASEChain; TRONChain; XRPChain; SOLChain;
   ZECChain; POLChain].

(** Every chain constant the file declares, [EmptyChain] apart. *)
Definition declared_chains : Chains := AllChains ++ [XMRChain; SUIChain; ADAChain].

(** A Go [switch] on a string: the first case that lists it, else the default. *)
Fixpoint switch {A} (c : string) (cases : list (list string * A)) (default : A) : A :=
  match cases with
  | [] => default
  | (cs, r) :: cases' =>
      if existsb (String.eqb c) cs then r else switch c cases' default
  end.

(** [Chain.Valid]: three to ten upper-case letters. *)
Definition Chain_Valid (c : Chain) : goerr :=
  if str_len c <? 3 then Some "chain id len is less than 3"
  else if 10 <? str_len c then Some "chain id len is more than 10"
  else if negb (str_all is_upper c)
    then Some "chain id can consist only of uppercase letters"
  else None.

Definition NewChain (chainID : string) : outcome Chain :=
  let chain := to_upper chainID in
  _ ← check (Chain_Valid chain);
  Ok chain.

Definition Chain_String (c : Chain) : string := to_upper c.

Definition Chain_Equals (c c2 : Chain) : bool :=
  equal_fold (Chain_String c) (Chain_String c2).

Definition IsTHORChain (c : Chain) : bool := Chain_Equals c THORChain.
Definition IsBSCChain (c : Chain) : bool := Chain_Equals c BSCChain.

Definition GetEVMChains : Chains := [ETHChain; AVAXChain; BSCChain; BASEChain; POLChain].
Definition GetUTXOChains : Chains := [BTCChain; LTCChain; BCHChain; DOGEChain; ZECChain].

Definition IsEVM (c : Chain) : bool := existsb (fun evm => Chain_Equals c evm) GetEVMChains.
Definition IsUTXO (c : Chain) : bool := existsb (fun utxo => Chain_Equals c utxo) GetUTXOChains.

Definition Chain_IsEmpty (c : Chain) : bool := is_blank (Chain_String c).

Inductive SigningAlgo := SigningAlgoSecp256k1 | SigningAlgoEd25519.

Definition GetSigningAlgo (c : Chain) : SigningAlgo :=
  switch c [([SOLChain; SUIChain; ADAChain; XMRChain], SigningAlgoEd25519)]
    SigningAlgoSecp256k1.

Definition GetGasUnits (c : Chain) : string * Z :=
  switch c
    [ ([GAIAChain], ("uatom", 10 ^ 6));
      ([NOBLEChain], ("uusdc", 10 ^ 6));
      ([XRPChain], ("drop", 10 ^ 6));
      ([TRONChain], ("sun", 10 ^ 6));
      ([BTCChain; BCHChain; LTCChain; DOGEChain; ZECChain], ("satsperbyte", 10 ^ 8));
      ([XMRChain], ("piconero", 10 ^ 12));
      ([ETHChain; BSCChain; POLChain], ("gwei", 10 ^ 9));
      ([AVAXChain], ("nAVAX", 10 ^ 9));
      ([BASEChain], ("mwei", 10 ^ 12));
      ([SOLChain], ("lamport", 10 ^ 9));
      ([SUIChain], ("mist", 10 ^ 9));
      ([ADAChain], ("lovelace", 10 ^ 6)) ]
    ("", 1).

Section gas_units.
Context {S : SdkMath}.

Definition NativeGasToThorchain (c : Chain) (native : Z) : outcome Z :=
  let '(_, gasRateUnitsPerOne) := GetGasUnits c in
  m ← uint_mul_u64 native One;
  uint_quo m gasRateUnitsPerOne.

Definition ThorchainToNativeGas (c : Chain) (thorchain : Z) : outcome Z :=
  let '(_, gasRateUnitsPerOne) := GetGasUnits c in
  m ← uint_mul thorchain gasRateUnitsPerOne;
  uint_quo_u64 m One.
End gas_units.

Definition GetGasAssetDecimal (c : Chain) : Z :=
  switch c
    [ ([GAIAChain; NOBLEChain; TRONChain; ADAChain], 6);
      ([XMRChain], 12);
      ([XRPChain], 6);
      ([SOLChain; SUIChain], 9) ]
    DefaultCoinDecimals.

Definition DustThreshold (c : Chain) : Z :=
  switch c
    [ ([BTCChain], 1000);
      ([LTCChain], 100000);
      ([BCHChain], 10000);
      ([ZECChain], 15000);
      ([DOGEChain], 100000000);
      ([ETHChain; BASEChain], 1000);
      ([AVAXChain; POLChain], 100000);
      ([BSCChain], 10000);
      ([GAIAChain], 1000000);
      ([NOBLEChain], 1000000);
      ([XRPChain], One);
      ([SOLChain], 100000);
      ([TRONChain], 10000000);
      ([SUIChain], 1000000);
      ([ADAChain], 10000000) ]
    0.

Definition P2WPKHOutputValue (c : Chain) : Z :=
  switch c
    [ ([BTCChain], 294); ([LTCChain], 2940); ([DOGEChain], 18200000);
      ([BCHChain], 546); ([ZECChain], 2730) ]
    0.

(** constants/constants.go *)
Definition MaxMemoSize : Z := 250.
Definition MaxOpReturnDataSize : Z := 80.
Definition MaxBasisPts : Z := 10000.

Definition MaxMemoLength (c : Chain) : Z :=
  switch c
    [ ([BTCChain; LTCChain; BCHChain; DOGEChain; ZECChain], MaxOpReturnDataSize) ]
    MaxMemoSize.

Definition ApproximateBlockMilliseconds (c : Chain) : Z :=
  switch c
    [ ([BTCChain], 600000); ([LTCChain], 150000); ([BCHChain], 600000);
      ([DOGEChain], 60000); ([ETHChain], 12000); ([AVAXChain], 1000);
      ([BSCChain], 450); ([GAIAChain], 6000); ([THORChain], 6000);
      ([BASEChain], 2000); ([TRONChain], 3000); ([XRPChain], 4000);
      ([NOBLEChain], 1500); ([SOLChain], 400); ([ZECChain], 75000);
      ([XMRChain], 120000); ([POLChain], 2000); ([SUIChain], 250);
      ([ADAChain], 20000) ]
    0.

(** [Chains.Has], [Chains.Distinct] and [Chains.Strings]. *)
Definition Chains_Has (chains : Chains) (c : Chain) : bool :=
  existsb (fun ch => Chain_Equals ch c) chains.

Definition Chains_Distinct (chains : Chains) : Chains :=
  foldl (fun newChains chain =>
    if negb (Chains_Has newChains chain) then newChains ++ [chain] else newChains)
    [] chains.

Definition Chains_Strings (chains : Chains) : list string := map Chain_String chains.

(** [range ... NewChain ...; if err != nil { continue }], the way
    [Vault.GetChains] and [TssVoter.GetChains] read their chain strings. *)
Fixpoint parse_chains (cs : list string) : Chains :=
  match cs with
  | [] => []
  | c :: cs' =>
      match NewChain c with
      | Ok chain => chain :: parse_chains cs'
      | _ => parse_chains cs'
      end
  end.

(** ** Lemmas *)
Lemma Chain_Equals_spec c c2 : Chain_Equals c c2 = true <-> to_upper c = to_upper c2.
Proof.
  unfold Chain_Equals, Chain_String. rewrite equal_fold_spec, !to_upper_idemp. done.
Qed.

Lemma Chain_Equals_refl c : Chain_Equals c c = true.
Proof. by apply Chain_Equals_spec. Qed.

Lemma Chain_Equals_sym c c2 : Chain_Equals c c2 = Chain_Equals c2 c.
Proof. unfold Chain_Equals. apply equal_fold_sym. Qed.

Lemma Chain_Valid_upper c : Chain_Valid c = None -> str_all is_upper c = true.
Proof. unfold Chain_Valid. repeat case_if; try done. by apply negb_false_iff in E1. Qed.

Lemma is_upper_not_lower c : is_upper c = true -> negb (is_lower c) = true.
Proof. destruct c as [[] [] [] [] [] [] [] []]; vm_compute; congruence. Qed.

Lemma str_all_upper_to_upper c : str_all is_upper c = true -> to_upper c = c.
Proof. intros H. apply to_upper_id. by eapply str_all_impl; [apply is_upper_not_lower|]. Qed.

Lemma Chain_Valid_to_upper c : Chain_Valid c = None -> to_upper c = c.
Proof. intros H%Chain_Valid_upper. by apply str_all_upper_to_upper. Qed.

Lemma NewChain_inv s c : NewChain s = Ok c -> c = to_upper s /\ Chain_Valid c = None.
Proof.
  unfold NewChain. intros H. ok_inv. unfold check in *.
  destruct (Chain_Valid (to_upper s)) eqn:E; simplify_eq. done.
Qed.

Lemma NewChain_valid c : Chain_Valid c = None -> NewChain c = Ok c.
Proof.
  intros H. unfold NewChain. by rewrite (Chain_Valid_to_upper c H), H.
Qed.

Lemma switch_default {A} c cases (d : A) :
  Forall (fun p => existsb (String.eqb c) p.1 = false) cases -> switch c cases d = d.
Proof. induction 1 as [|[cs r] l Hc Hl IH]; simpl in *; [done|]. by rewrite Hc. Qed.

(** A table lookup satisfies what its default and all its rows satisfy. *)
Lemma switch_ind {A} (P : A -> Prop) c cases (d : A) :
  P d -> Forall (fun p => P p.2) cases -> P (switch c cases d).
Proof.
  intros Hd. induction 1 as [|[cs r] l Hc Hl IH]; simpl in *; [done|]. by case_if.
Qed.

Lemma GetGasUnits_pow c : exists k, 0 <= k <= 12 /\ (GetGasUnits c).2 = 10 ^ k.
Proof.
  unfold GetGasUnits.
  apply (switch_ind (fun p => exists k, 0 <= k <= 12 /\ p.2 = 10 ^ k)); [by exists 0|].
  repeat constructor; simpl;
    first [exists 6; split; [lia|done] | exists 8; split; [lia|done]
          | exists 9; split; [lia|done] | exists 12; split; [lia|done]].
Qed.

Lemma Chains_Has_In chains c : Chains_Has chains c = true <->
  exists ch, ch ∈ chains /\ to_upper ch = to_upper c.
Proof.
  unfold Chains_Has. rewrite existsb_exists.
  setoid_rewrite Chain_Equals_spec. setoid_rewrite list_elem_of_In. done.
Qed.

(** ** Properties *)

(** [NewChain] normalises: it accepts exactly the strings whose upper-case
    form is three to ten letters, its result prints and re-parses to itself,
    and on parsed chains [Equals] is equality. *)
Theorem NewChain_roundtrip s c s' c' :
  NewChain s = Ok c -> NewChain s' = Ok c' ->
  Chain_Valid c = None /\ Chain_String c = c /\ NewChain (Chain_String c) = Ok c /\
  (Chain_Equals c c' = true <-> c = c').
Proof.
  intros [-> Hv]%NewChain_inv [-> Hv']%NewChain_inv.
  split; [done|]. unfold Chain_String. rewrite !to_upper_idemp.
  split; [done|]. split.
  - by apply NewChain_valid.
  - rewrite Chain_Equals_spec, !to_upper_idemp. done.
Qed.

(** Gas amounts survive the conversion to the chain-independent eight
    decimals and back: nothing is created, less than one unit of the coarser
    scale is lost, and nothing at all is lost on chains whose gas unit has at
    most eight decimals. *)
Theorem gas_units_roundtrip {S : SdkMath} `{!SdkMathOk S} c native thor back :
  is_uint native ->
  NativeGasToThorchain c native = Ok thor -> ThorchainToNativeGas c thor = Ok back ->
  back <= native /\
  (native - back) * One <= (GetGasUnits c).2 + One /\
  ((GetGasUnits c).2 <= One -> back = native).
Proof.
  unfold NativeGasToThorchain, ThorchainToNativeGas.
  destruct (GetGasUnits_pow c) as (k & Hk & Hg).
  destruct (GetGasUnits c) as [u g]. simpl in *. intros Hn Ht Hb.
  assert (Hgp : 0 < g) by (rewrite Hg; apply Z.pow_pos_nonneg; lia).
  assert (Hgu : is_uint g).
  { rewrite Hg. pose proof (Z.pow_le_mono_r 10 k 12). unfold is_uint, uint_lim. lia. }
  assert (is_u64 One) by (unfold is_u64, One; lia).
  revert Hg. generalize dependent g. intros g Ht Hb Hgp Hgu Hg.
  uint_inv. subst thor back. repeat match goal with H : ?x = _ * _ |- _ => subst x end.
  change One with 100000000 in *.
  pose proof (div_bounds (native * 100000000) g Hgp) as Hd1.
  pose proof (div_bounds (native * 100000000 / g * g) 100000000 ltac:(lia)) as Hd2.
  split; [lia|]. split; [lia|]. intros Hle.
  assert (Hdiv : (g | 100000000)).
  { rewrite Hg in *. exists (10 ^ (8 - k)). change 100000000 with (10 ^ 8) in *.
    assert (k <= 8) by (apply (Z.pow_le_mono_r_iff 10); lia).
    rewrite <- Z.pow_add_r by lia. f_equal. lia. }
  destruct Hdiv as [d Hd]. rewrite Hd, Z.mul_assoc, !Z.div_mul by lia.
  rewrite <- Z.mul_assoc, <- Hd. by rewrite Z.div_mul by lia.
Qed.

(** [Chains.Distinct] keeps one representative per chain: no two entries of
    the result are [Equals], and the result has exactly the chains of the
    input, in first-occurrence order. *)
Theorem Chains_Distinct_spec chains :
  NoDup (map to_upper (Chains_Distinct chains)) /\
  sublist (Chains_Distinct chains) chains /\
  forall c, Chains_Has (Chains_Distinct chains) c = Chains_Has chains c.
Proof.
  unfold Chains_Distinct.
  enough (H : forall acc, NoDup (map to_upper acc) ->
    let r := foldl (fun newChains chain =>
      if negb (Chains_Has newChains chain) then newChains ++ [chain] else newChains)
      acc chains in
    NoDup (map to_upper r) /\ (exists suf, r = acc ++ suf /\ sublist suf chains) /\
    forall c, Chains_Has r c = Chains_Has (acc ++ chains) c).
  { destruct (H [] ltac:(constructor)) as (H1 & (suf & Hs & H2) & H3).
    simpl in *. rewrite Hs in *. done. }
  induction chains as [|x l IH]; intros acc Hacc; simpl.
  { split; [done|]. split; [exists []; by rewrite app_nil_r|]. by rewrite app_nil_r. }
  destruct (Chains_Has acc x) eqn:E; simpl.
  - destruct (IH acc Hacc) as (H1 & (suf & Hs & H2) & H3). split; [done|].
    split; [exists suf; split; [done|by constructor]|].
    intros c. rewrite H3. apply eq_iff_eq_true. rewrite !Chains_Has_In.
    apply Chains_Has_In in E as (ch & Hch & Hu). split.
    + intros (d & Hd & Hdc). exists d. set_solver.
    + intros (d & Hd & Hdc). rewrite elem_of_app, elem_of_cons in Hd.
      destruct Hd as [Hd|[->|Hd]]; [exists d; set_solver| |exists d; set_solver].
      exists ch. split; [set_solver|congruence].
  - destruct (IH (acc ++ [x])) as (H1 & (suf & Hs & H2) & H3).
    { rewrite map_app. apply NoDup_app. split; [done|]. split; [|apply NoDup_singleton].
      intros u Hu Hx. apply list_elem_of_singleton in Hx. subst u.
      assert (Chains_Has acc x = true); [|congruence].
      apply Chains_Has_In. apply list_elem_of_fmap in Hu as (ch & ? & ?). eauto. }
    split; [done|]. split.
    + exists (x :: suf). rewrite Hs, <- app_assoc. split; [done|by constructor].
    + intros c. by rewrite H3, <- app_assoc.
Qed.

(** *** Witnesses *)
Lemma NewChain_roundtrip_witness :
  Chain_Valid "BTC" = None /\ Chain_String "BTC" = "BTC" /\
  NewChain (Chain_String "BTC") = Ok "BTC" /\
  (Chain_Equals "BTC" "AVAX" = true <-> "BTC" = "AVAX").
Proof. by apply (NewChain_roundtrip "btc" "BTC" "avax" "AVAX"). Defined.

Lemma gas_units_roundtrip_witness :
  1234567 <= 1234567 /\ (1234567 - 1234567) * One <= (GetGasUnits GAIAChain).2 + One /\
  ((GetGasUnits GAIAChain).2 <= One -> 1234567 = 1234567).
Proof.
  apply (gas_units_roundtrip (S := sdk_std) GAIAChain 1234567 123456700 1234567);
    [uint_side|by vm_compute..].
Defined.
