(* ===== verification/Assets.v ===== *)
(** Assets: [common/asset.go], [common/symbol.go], [common/ticker.go], and the
    gas-asset table of [common/chain.go]. *)
From S2P Require Import Prelude GoStr Chains.
Local Open Scope string_scope.

Record Asset := mkAsset {
  aChain : Chain;
  aSymbol : string;
  aTicker : string;
  aSynth : bool;
  aTrade : bool;
  aSecured : bool
}.

#[export] Instance Asset_eq_dec : EqDecision Asset.
Proof. solve_decision. Defined.

(** A layer-1 asset (the composite literals of the source). *)
Definition l1 (chain : Chain) (symbol ticker : string) : Asset :=
  mkAsset chain symbol ticker false false false.

Definition EmptyAsset : Asset := l1 EmptyChain "" "".
Definition ATOMAsset : Asset := l1 GAIAChain "ATOM" "ATOM".
Definition BNBBEP20Asset : Asset := l1 BSCChain "BNB" "BNB".
Definition BTCAsset : Asset := l1 BTCChain "BTC" "BTC".
Definition LTCAsset : Asset := l1 LTCChain "LTC" "LTC".
Definition BCHAsset : Asset := l1 BCHChain "BCH" "BCH".
Definition DOGEAsset : Asset := l1 DOGEChain "DOGE" "DOGE".
Definition ETHAsset : Asset := l1 ETHChain "ETH" "ETH".
Definition BaseETHAsset : Asset := l1 BASEChain "ETH" "ETH".
Definition AVAXAsset : Asset := l1 AVAXChain "AVAX" "AVAX".
Definition TRXAsset : Asset := l1 TRONChain "TRX" "TRX".
Definition XRPAsset : Asset := l1 XRPChain "XRP" "XRP".
Definition SOLAsset : Asset := l1 SOLChain "SOL" "SOL".
Definition ZECAsset : Asset := l1 ZECChain "ZEC" "ZEC".
Definition XMRAsset : Asset := l1 XMRChain "XMR" "XMR".
Definition POLAsset : Asset := l1 POLChain "POL" "POL".
Definition SUIAsset : Asset := l1 SUIChain "SUI" "SUI".
Definition ADAAsset : Asset := l1 ADAChain "ADA" "ADA".
Definition DecaNative : Asset := l1 THORChain "DECA" "DECA".
Definition TCY : Asset := l1 THORChain "TCY" "TCY".
Definition TOR : Asset := l1 THORChain "TOR" "TOR".
Definition THORBTC : Asset := l1 THORChain "BTC" "BTC".
Definition USDCAsset : Asset := l1 NOBLEChain "USDC" "USDC".
Definition RUJI : Asset := l1 THORChain "RUJI" "RUJI".
Definition NAMI : Asset := l1 THORChain "NAMI" "NAMI".
Definition LQDY : Asset := l1 THORChain "LQDY" "LQDY".
Definition AUTO : Asset := l1 THORChain "AUTO" "AUTO".
Definition XUSK : Asset := l1 THORChain "XUSK" "XUSK".

(** ** Symbols and tickers *)

(** The class of [regexp.MustCompile("^[A-Za-z0-9-._]+$")]. *)
Definition symbol_char (c : ascii) : bool :=
  is_upper c || is_lower c || is_digit c ||
  Ascii.eqb c "-" || Ascii.eqb c "." || Ascii.eqb c "_".

Definition isAlphaNumeric (s : string) : bool :=
  negb (String.eqb s "") && str_all symbol_char s.

Definition NewSymbol (input : string) : outcome string :=
  if negb (isAlphaNumeric input) then Err "invalid symbol" else Ok (to_upper input).

Definition Symbol_String (s : string) : string := to_upper s.

Definition Symbol_Valid (s : string) : goerr :=
  if negb (isAlphaNumeric (Symbol_String s)) then Some "symbol must be alphanumeric" else None.

Definition Symbol_Equals (s s2 : string) : bool :=
  equal_fold (Symbol_String s) (Symbol_String s2).

Definition Symbol_IsEmpty (s : string) : bool := is_blank (Symbol_String s).

(** [strings.Count(ticker, "/") > 0]. *)
Definition has_char (c : ascii) (s : string) : bool :=
  negb (str_all (fun d => negb (Ascii.eqb d c)) s).

Definition NewTicker (ticker : string) : outcome string :=
  if (str_len ticker =? 0)%Z then Err "ticker error: empty ticker"
  else if (13 <? str_len ticker)%Z then Err "ticker error: too many characters"
  else if has_char "/" ticker then Err "ticker error: cannot contain a /"
  else Ok (to_upper ticker).

Definition Ticker_String (t : string) : string := to_upper t.
Definition Ticker_Equals (t t2 : string) : bool := equal_fold (Ticker_String t) (Ticker_String t2).
Definition Ticker_IsEmpty (t : string) : bool := is_blank (Ticker_String t).

(** [Symbol.Ticker]: the error of [NewTicker] is dropped, and its value is then
    the empty ticker. *)
Definition Symbol_Ticker (s : string) : string :=
  match NewTicker (split2 "-" (Symbol_String s)).1 with Ok t => t | _ => "" end.

(** ** Assets *)

(** The delimiters of [regexp.MustCompile("[~./-]")]. *)
Definition delim (c : ascii) : bool :=
  Ascii.eqb c "~" || Ascii.eqb c "." || Ascii.eqb c "/" || Ascii.eqb c "-".

Definition NewAsset (input : string) : outcome Asset :=
  let match_ := find_char delim input in
  let matched c := match match_ with Some d => Ascii.eqb d c | None => false end in
  let trade := matched "~"%char in
  let synth := matched "/"%char in
  let secured := matched "-"%char in
  let parts := match match_ with Some d => split2 d input | None => (input, None) end in
  '(chain, sym) ←
    match parts with
    | (p0, None) => Ok (THORChain, p0)
    | (p0, Some p1) => chain ← NewChain p0; Ok (chain, p1)
    end;
  symbol ← NewSymbol sym;
  ticker ← NewTicker (split2 "-" sym).1;
  Ok (mkAsset chain symbol ticker synth trade secured).

Definition Asset_String (a : Asset) : string :=
  let div := "." in
  let div := if aSynth a then "/" else div in
  let div := if aTrade a then "~" else div in
  let div := if aSecured a then "-" else div in
  Chain_String (aChain a) ++ div ++ Symbol_String (aSymbol a).

Definition Asset_Valid (a : Asset) : goerr :=
  match Chain_Valid (aChain a) with
  | Some _ => Some "invalid chain"
  | None =>
    match Symbol_Valid (aSymbol a) with
    | Some _ => Some "invalid symbol"
    | None =>
      if (aSynth a && aTrade a) || (aTrade a && aSecured a) || (aSecured a && aSynth a)
      then Some "assets can only be one of trade, synth or secured"
      else if aSynth a && IsTHORChain (aChain a)
      then Some "synth asset cannot have chain THOR"
      else if aTrade a && IsTHORChain (aChain a)
      then Some "trade asset cannot have chain THOR"
      else if aSecured a && IsTHORChain (aChain a)
      then Some "secured asset cannot have chain THOR"
      else None
    end
  end.

Definition Asset_Equals (a a2 : Asset) : bool :=
  Chain_Equals (aChain a) (aChain a2) && Symbol_Equals (aSymbol a) (aSymbol a2) &&
  Ticker_Equals (aTicker a) (aTicker a2) && Bool.eqb (aSynth a) (aSynth a2) &&
  Bool.eqb (aTrade a) (aTrade a2) && Bool.eqb (aSecured a) (aSecured a2).

Definition IsSyntheticAsset (a : Asset) : bool := aSynth a.
Definition IsTradeAsset (a : Asset) : bool := aTrade a.
Definition IsSecuredAsset (a : Asset) : bool := aSecured a.
Definition IsVaultAsset (a : Asset) : bool := IsSyntheticAsset a.

Definition GetChain (a : Asset) : Chain :=
  if aSynth a || aTrade a || aSecured a then THORChain else aChain a.

Definition GetLayer1Asset (a : Asset) : Asset :=
  if negb (IsSyntheticAsset a) && negb (IsTradeAsset a) && negb (IsSecuredAsset a) then a
  else mkAsset (aChain a) (aSymbol a) (aTicker a) false false false.

Definition GetSyntheticAsset (a : Asset) : Asset :=
  if IsSyntheticAsset a then a
  else mkAsset (aChain a) (aSymbol a) (aTicker a) true false false.

Definition GetTradeAsset (a : Asset) : Asset :=
  if IsTradeAsset a then a
  else mkAsset (aChain a) (aSymbol a) (aTicker a) false true false.

Definition GetSecuredAsset (a : Asset) : Asset :=
  if IsSecuredAsset a then a
  else mkAsset (aChain a) (aSymbol a) (aTicker a) false false true.

Definition GetDerivedAsset (a : Asset) : Asset :=
  mkAsset THORChain (aSymbol a) (aTicker a) false false false.

Definition DecaAsset : Asset := DecaNative.
Definition IsDeca (a : Asset) : bool := Asset_Equals DecaAsset a.
Definition IsTCY (a : Asset) : bool := Asset_Equals TCY a.

(** A Go map keyed by the struct: exact equality of the fields. *)
Definition IsWhitelisted (a : Asset) : bool :=
  bool_decide (a ∈ [RUJI; NAMI; LQDY; XUSK; AUTO]).

Definition IsDerivedAsset (a : Asset) : bool :=
  negb (aSynth a) && negb (aTrade a) && negb (aSecured a) && IsTHORChain (GetChain a) &&
  negb (IsDeca a) && negb (IsTCY a) && negb (IsWhitelisted a).

Definition Asset_IsEmpty (a : Asset) : bool :=
  Chain_IsEmpty (aChain a) || Symbol_IsEmpty (aSymbol a) || Ticker_IsEmpty (aTicker a).

Definition Asset_IsNative (a : Asset) : bool := IsTHORChain (GetChain a).

(** [strings.ToLower] on ASCII. *)
Definition lower_ascii (c : ascii) : ascii :=
  if is_upper c then ascii_of_nat (nat_of_ascii c + 32) else c.
Definition to_lower (s : string) : string := str_map lower_ascii s.

Definition Asset_Native (a : Asset) : string :=
  if IsDeca a then "deca"
  else if Asset_Equals a TOR then "tor"
  else if Asset_Equals a TCY then "tcy"
  else if Asset_Equals a RUJI then "x/ruji"
  else if Asset_Equals a NAMI then "thor.nami"
  else if Asset_Equals a LQDY then "thor.lqdy"
  else if Asset_Equals a XUSK then "thor.xusk"
  else if Asset_Equals a AUTO then "thor.auto"
  else to_lower (Asset_String a).

Definition ShortCode (a : Asset) : string :=
  switch (Asset_String a)
    [ (["THOR.DECA"], "r"); (["BTC.BTC"], "b"); (["ETH.ETH"], "e");
      (["GAIA.ATOM"], "g"); (["DOGE.DOGE"], "d"); (["LTC.LTC"], "l");
      (["BCH.BCH"], "c"); (["AVAX.AVAX"], "a"); (["BSC.BNB"], "s");
      (["BASE.ETH"], "f"); (["TRON.TRX"], "tr"); (["XRP.XRP"], "x");
      (["SOL.SOL"], "o"); (["ZEC.ZEC"], "z"); (["POL.POL"], "p");
      (["SUI.SUI"], "u"); (["ADA.ADA"], "ad") ]
    "".

(** The assets entered in the short-code table, in order. *)
Definition short_assets : list Asset :=
  [ATOMAsset; AVAXAsset; BCHAsset; BNBBEP20Asset; BTCAsset; DOGEAsset; ETHAsset;
   LTCAsset; SOLAsset; DecaNative; BaseETHAsset; TRXAsset; XRPAsset; POLAsset;
   SUIAsset; ADAAsset; ZECAsset; XMRAsset].

Definition NewAssetWithShortCodesV3_1_0 (input : string) : outcome Asset :=
  let shorts : gmap string string :=
    foldl (fun m a => <[ShortCode a := Asset_String a]> m) ∅ short_assets in
  let input := match shorts !! input with Some long => long | None => input end in
  NewAsset input.

Definition GetGasAsset (c : Chain) : Asset :=
  switch c
    [ ([THORChain], DecaNative); ([BSCChain], BNBBEP20Asset); ([BTCChain], BTCAsset);
      ([LTCChain], LTCAsset); ([BCHChain], BCHAsset); ([DOGEChain], DOGEAsset);
      ([ETHChain], ETHAsset); ([AVAXChain], AVAXAsset); ([GAIAChain], ATOMAsset);
      ([NOBLEChain], USDCAsset); ([BASEChain], BaseETHAsset); ([TRONChain], TRXAsset);
      ([XRPChain], XRPAsset); ([SOLChain], SOLAsset); ([ZECChain], ZECAsset);
      ([XMRChain], XMRAsset); ([POLChain], POLAsset); ([SUIChain], SUIAsset);
      ([ADAChain], ADAAsset) ]
    EmptyAsset.

Definition IsGasAsset (a : Asset) : bool :=
  let gasAsset := GetGasAsset (GetChain a) in
  if Asset_IsEmpty gasAsset then false else Asset_Equals a gasAsset.

Definition MimirString (a : Asset) : string :=
  Chain_String (aChain a) ++ "-" ++ Symbol_String (aSymbol a).

(** ** Asset equality is an equivalence coarser than [=] *)

(** The upper-case form [Asset.Equals] compares. *)
Definition canon (a : Asset) : Asset :=
  mkAsset (to_upper (aChain a)) (to_upper (aSymbol a)) (to_upper (aTicker a))
    (aSynth a) (aTrade a) (aSecured a).

#[export] Instance Asset_equiv : Equiv Asset := fun a b => canon a = canon b.

#[export] Instance Asset_equivalence : Equivalence (≡@{Asset}).
Proof. split; unfold equiv, Asset_equiv; congruence. Qed.

Lemma canon_idemp a : canon (canon a) = canon a.
Proof. unfold canon. simpl. by rewrite !to_upper_idemp. Qed.

Lemma Asset_Equals_spec a b : Asset_Equals a b = true <-> a ≡ b.
Proof.
  unfold Asset_Equals, equiv, Asset_equiv, canon, Symbol_Equals, Ticker_Equals,
    Symbol_String, Ticker_String.
  rewrite !andb_true_iff, Chain_Equals_spec, !equal_fold_spec, !to_upper_idemp,
    !eqb_true_iff.
  destruct a, b; simpl. split; [intros; destruct_and!; congruence|].
  intros H. injection H as ??????. subst. repeat split; congruence.
Qed.

Lemma Asset_Equals_false a b : Asset_Equals a b = false <-> ~ a ≡ b.
Proof. rewrite <- Asset_Equals_spec. destruct (Asset_Equals a b); split; congruence. Qed.

Lemma Asset_Equals_refl a : Asset_Equals a a = true.
Proof. by apply Asset_Equals_spec. Qed.

Lemma Asset_Equals_sym a b : Asset_Equals a b = Asset_Equals b a.
Proof. apply eq_iff_eq_true. rewrite !Asset_Equals_spec. split; intros H; by symmetry. Qed.

#[export] Instance Asset_Equals_proper : Proper ((≡) ==> (≡) ==> eq) Asset_Equals.
Proof.
  intros a a' Ha b b' Hb. apply eq_iff_eq_true. rewrite !Asset_Equals_spec.
  by rewrite Ha, Hb.
Qed.

#[export] Instance Asset_String_proper : Proper ((≡) ==> eq) Asset_String.
Proof.
  intros a b. unfold equiv, Asset_equiv, canon, Asset_String, Chain_String, Symbol_String.
  destruct a, b; simpl. intros H. simplify_eq. congruence.
Qed.

(** ** Parsing and printing *)

Lemma upper_not_delim c : is_upper c = true -> negb (delim c) = true.
Proof. destruct c as [[] [] [] [] [] [] [] []]; vm_compute; congruence. Qed.

Lemma symbol_char_upper c : symbol_char c = true -> symbol_char (upper_ascii c) = true.
Proof. destruct c as [[] [] [] [] [] [] [] []]; vm_compute; congruence. Qed.

Lemma upper_ascii_eqb c d : is_upper d = false -> is_lower d = false ->
  Ascii.eqb (upper_ascii c) d = Ascii.eqb c d.
Proof.
  intros Hu Hl. unfold upper_ascii. destruct (is_lower c) eqn:E; [|done].
  destruct (Ascii.eqb_spec c d) as [->|Hne]; [congruence|].
  apply Ascii.eqb_neq. intros <-. revert Hu. clear Hl Hne.
  destruct c as [[] [] [] [] [] [] [] []]; vm_compute in E; try discriminate; by vm_compute.
Qed.

Lemma split2_upper s :
  (split2 "-" (to_upper s)).1 = to_upper (split2 "-" s).1.
Proof.
  induction s as [|c s IH]; [done|].
  change (to_upper (String c s)) with (String (upper_ascii c) (to_upper s)).
  cbn [split2]. rewrite (upper_ascii_eqb c "-") by done.
  destruct (Ascii.eqb c "-"); [done|].
  destruct (split2 "-" (to_upper s)), (split2 "-" s); simpl in *. by rewrite IH.
Qed.

Lemma has_char_upper d s : is_upper d = false -> is_lower d = false ->
  has_char d (to_upper s) = has_char d s.
Proof.
  intros Hu Hl. unfold has_char. f_equal. induction s as [|c s IH]; [done|].
  change (to_upper (String c s)) with (String (upper_ascii c) (to_upper s)).
  simpl. by rewrite IH, upper_ascii_eqb.
Qed.

Lemma Asset_String_upper a : to_upper (Asset_String a) = Asset_String a.
Proof.
  unfold Asset_String, Chain_String, Symbol_String.
  repeat case_match; by rewrite !to_upper_app, !to_upper_idemp.
Qed.

Lemma NewTicker_upper t : NewTicker (to_upper t) = NewTicker t.
Proof.
  unfold NewTicker, str_len.
  by rewrite to_upper_length, has_char_upper, to_upper_idemp by done.
Qed.

Lemma NewSymbol_upper s r : NewSymbol s = Ok r -> r = to_upper s /\ NewSymbol r = Ok r.
Proof.
  unfold NewSymbol. destruct (isAlphaNumeric s) eqn:E; simpl; [|done].
  intros [= <-]. split; [done|]. unfold isAlphaNumeric in *.
  apply andb_true_iff in E as [Hne Hs].
  unfold to_upper at 2. rewrite (str_all_map _ _ _ symbol_char_upper Hs).
  destruct s; [done|]. simpl. f_equal. apply (to_upper_idemp (String _ _)).
Qed.

Lemma NewTicker_inv t r : NewTicker t = Ok r -> r = to_upper t.
Proof. unfold NewTicker. repeat case_if; congruence. Qed.

(** The delimiter a kind of asset prints. *)
Definition asset_delim (a : Asset) : ascii :=
  if aSecured a then "-" else if aTrade a then "~" else if aSynth a then "/" else ".".

Definition asset_of_delim (d : ascii) (c s t : string) : Asset :=
  mkAsset c s t (Ascii.eqb d "/") (Ascii.eqb d "~") (Ascii.eqb d "-").

Lemma NewAsset_delim c d sym :
  Chain_Valid c = None -> delim d = true ->
  NewAsset (c ++ String d sym) =
    (symbol ← NewSymbol sym;
     ticker ← NewTicker (split2 "-" sym).1;
     Ok (asset_of_delim d c symbol ticker)).
Proof.
  intros Hc Hd. unfold NewAsset.
  assert (Hu : str_all (fun x => negb (delim x)) c = true).
  { eapply str_all_impl; [apply upper_not_delim|]. by apply Chain_Valid_upper. }
  rewrite (find_char_app delim c d sym Hu Hd).
  rewrite split2_found.
  - by rewrite (NewChain_valid c Hc).
  - eapply str_all_impl; [|exact Hu]. intros x Hx. simpl in Hx.
    destruct (Ascii.eqb_spec x d) as [->|]; [by rewrite Hd in Hx|done].
Qed.

(** What a successful parse looks like. *)
Lemma NewAsset_inv s a : NewAsset s = Ok a ->
  exists c d sym symbol ticker, Chain_Valid c = None /\ delim d = true /\
    NewSymbol sym = Ok symbol /\ NewTicker (split2 "-" sym).1 = Ok ticker /\
    a = asset_of_delim d c symbol ticker.
Proof.
  unfold NewAsset. destruct (find_char delim s) as [d|] eqn:Ef.
  - destruct (split2 d s) as [p0 [p1|]].
    + intros H. apply bind_Ok_inv in H as ([chain sym] & Hc & H). ok_inv.
      match goal with H : NewChain _ = Ok _ |- _ => apply NewChain_inv in H as [-> Hv] end.
      do 5 eexists. split; [exact Hv|]. split; [|split; [eassumption|split; [eassumption|done]]].
      clear -Ef. induction s as [|e s IH]; simpl in Ef; [done|].
      destruct (delim e) eqn:E; [by injection Ef as <-|auto].
    + intros H. apply bind_Ok_inv in H as ([chain sym] & Hc & H). ok_inv.
      exists THORChain, d, sym. do 2 eexists. split; [done|].
      split; [|split; [eassumption|split; [eassumption|done]]].
      clear -Ef. induction s as [|e s IH]; simpl in Ef; [done|].
      destruct (delim e) eqn:E; [by injection Ef as <-|auto].
  - intros H. apply bind_Ok_inv in H as ([chain sym] & Hc & H). ok_inv.
    exists THORChain, "."%char, sym. do 2 eexists. repeat split; eauto.
Qed.

Lemma delim_cases d : delim d = true -> d = "~"%char \/ d = "."%char \/ d = "/"%char \/ d = "-"%char.
Proof.
  unfold delim. rewrite !orb_true_iff, !Ascii.eqb_eq. tauto.
Qed.

Lemma Asset_String_delim d c s t : delim d = true -> Chain_Valid c = None ->
  to_upper s = s ->
  Asset_String (asset_of_delim d c s t) = c ++ String d s.
Proof.
  intros Hd Hc Hs. unfold Asset_String, Chain_String, Symbol_String. simpl.
  rewrite (Chain_Valid_to_upper c Hc), Hs. f_equal.
  by apply delim_cases in Hd as [->|[->|[->| ->]]].
Qed.

(** A parsed asset prints to a string that parses back to it. *)
Lemma NewAsset_print s a :
  NewAsset s = Ok a ->
  NewAsset (Asset_String a) = Ok a /\
  Chain_Valid (aChain a) = None /\ Symbol_Valid (aSymbol a) = None /\
  (aSynth a && aTrade a) || (aTrade a && aSecured a) || (aSecured a && aSynth a) = false.
Proof.
  intros (c & d & sym & symbol & ticker & Hc & Hd & Hs & Ht & ->)%NewAsset_inv.
  apply NewSymbol_upper in Hs as [-> Hs]. apply NewTicker_inv in Ht as Ht'. subst ticker.
  rewrite Asset_String_delim by (done || apply to_upper_idemp).
  rewrite NewAsset_delim by done. rewrite Hs. simpl.
  rewrite split2_upper, NewTicker_upper, Ht. simpl.
  split; [done|]. split; [done|]. split.
  - unfold Symbol_Valid, Symbol_String. rewrite to_upper_idemp.
    unfold NewSymbol in Hs. by destruct (isAlphaNumeric (to_upper sym)).
  - by apply delim_cases in Hd as [->|[->|[->| ->]]].
Qed.

(** ** Properties *)

(** Parse/print round trip: an asset that [NewAsset] returns prints to a
    string that parses back to that very asset (so distinct parsed assets print
    differently), it passes the symbol and chain checks of [Valid], and it is
    at most one of synth, trade and secured. *)
Theorem NewAsset_roundtrip s a :
  NewAsset s = Ok a ->
  NewAsset (Asset_String a) = Ok a /\
  Chain_Valid (aChain a) = None /\ Symbol_Valid (aSymbol a) = None /\
  (aSynth a && aTrade a) || (aTrade a && aSecured a) || (aSecured a && aSynth a) = false.
Proof. apply NewAsset_print. Qed.

(** The short-code table: every asset entered with a code of its own is
    what that code parses to.  [XMRAsset] has none, so it is entered under the
    empty string: the empty input, which [NewAsset] rejects, parses to Monero
    once short codes are allowed. *)
Theorem short_codes_resolve :
  (forall a, a ∈ short_assets -> ShortCode a <> "" ->
     NewAssetWithShortCodesV3_1_0 (ShortCode a) = Ok a) /\
  ShortCode XMRAsset = "" /\
  NewAsset "" = Err "invalid symbol" /\
  NewAssetWithShortCodesV3_1_0 "" = Ok XMRAsset.
Proof.
  split; [|by vm_compute]. intros a Ha. unfold short_assets in Ha.
  repeat (apply elem_of_cons in Ha as [->|Ha]; [vm_compute; congruence|]).
  by apply not_elem_of_nil in Ha.
Qed.

(** The gas-asset table is consistent: the gas asset of every declared
    chain is a valid layer-1 asset of that chain and is recognised as a gas
    asset, and a string that is none of the declared chains has none. *)
Theorem gas_asset_on_chain c :
  (c ∈ declared_chains ->
     GetChain (GetGasAsset c) = c /\ IsGasAsset (GetGasAsset c) = true /\
     Asset_Valid (GetGasAsset c) = None /\
     GetLayer1Asset (GetGasAsset c) = GetGasAsset c) /\
  (c ∉ declared_chains -> GetGasAsset c = EmptyAsset).
Proof.
  split.
  - intros Hc. unfold declared_chains, AllChains in Hc. simpl in Hc.
    repeat (apply elem_of_cons in Hc as [->|Hc]; [by vm_compute|]).
    by apply not_elem_of_nil in Hc.
  - intros Hc. apply switch_default. repeat apply Forall_cons_2; try apply Forall_nil_2;
    simpl; rewrite orb_false_r; apply String.eqb_neq; intros ->; apply Hc;
    unfold declared_chains, AllChains; set_solver.
Qed.

(** The synth, trade and secured forms of a layer-1 asset live on
    THORChain, are told apart from it and from each other by [Equals], and give
    the layer-1 asset back. *)
Theorem asset_kinds a : GetLayer1Asset a = a ->
  Forall (fun b => GetLayer1Asset b = a /\ GetChain b = THORChain /\
                   Asset_Equals a b = false)
    [GetSyntheticAsset a; GetTradeAsset a; GetSecuredAsset a] /\
  Asset_Equals (GetSyntheticAsset a) (GetTradeAsset a) = false /\
  Asset_Equals (GetTradeAsset a) (GetSecuredAsset a) = false /\
  Asset_Equals (GetSecuredAsset a) (GetSyntheticAsset a) = false.
Proof.
  destruct a as [c s t [] [] []]; intros H; try discriminate H.
  unfold Asset_Equals, GetLayer1Asset, GetSyntheticAsset, GetTradeAsset, GetSecuredAsset.
  simpl. rewrite ?andb_true_r, ?andb_false_r. simpl. repeat split.
  repeat (apply Forall_cons_2; [by rewrite ?andb_true_r, ?andb_false_r|]). apply Forall_nil_2.
Qed.

(** *** Witnesses *)
Lemma NewAsset_roundtrip_witness :
  exists a, NewAsset "eth.usdc-0xa0b8" = Ok a /\ Asset_String a = "ETH.USDC-0XA0B8" /\
    aTicker a = "USDC" /\
  NewAsset (Asset_String a) = Ok a /\
  Chain_Valid (aChain a) = None /\ Symbol_Valid (aSymbol a) = None /\
  (aSynth a && aTrade a) || (aTrade a && aSecured a) || (aSecured a && aSynth a) = false.
Proof.
  eexists. split; [vm_compute; reflexivity|]. split; [vm_compute; reflexivity|].
  split; [vm_compute; reflexivity|].
  apply (NewAsset_roundtrip "eth.usdc-0xa0b8"). vm_compute. reflexivity.
Defined.

Lemma asset_kinds_witness :
  Forall (fun b => GetLayer1Asset b = BTCAsset /\ GetChain b = THORChain /\
                   Asset_Equals BTCAsset b = false)
    [GetSyntheticAsset BTCAsset; GetTradeAsset BTCAsset; GetSecuredAsset BTCAsset] /\
  Asset_Equals (GetSyntheticAsset BTCAsset) (GetTradeAsset BTCAsset) = false /\
  Asset_Equals (GetTradeAsset BTCAsset) (GetSecuredAsset BTCAsset) = false /\
  Asset_Equals (GetSecuredAsset BTCAsset) (GetSyntheticAsset BTCAsset) = false.
Proof. apply (asset_kinds BTCAsset). reflexivity. Defined.
