(* ===== verification/Coins.v ===== *)
(** Coins and gas: [common/coin.go] and [common/gas.go]. *)
From S2P Require Import Prelude SdkMath GoStr Keys Shares Chains Assets.
Open Scope Z_scope.

Record Coin := mkCoin {
  cAsset : Asset;
  cAmount : Z;
  cDecimals : Z
}.
Abbreviation Coins := (list Coin) (only parsing).
Abbreviation Gas := (list Coin) (only parsing).

Definition NewCoin (asset : Asset) (amount : Z) : Coin := mkCoin asset amount 0.
Definition NoCoin : Coin := NewCoin EmptyAsset 0.

(** [coins[i].Amount = v]. *)
Definition with_amount (c : Coin) (v : Z) : Coin := mkCoin (cAsset c) v (cDecimals c).

(** ** common/coin.go *)

Definition Coin_Equals (c cc : Coin) : bool :=
  Asset_Equals (cAsset c) (cAsset cc) && (cAmount c =? cAmount cc).

Definition Coin_IsEmpty (c : Coin) : bool := Asset_IsEmpty (cAsset c) || (cAmount c =? 0).

Definition Coin_Valid (c : Coin) : goerr :=
  if Asset_IsEmpty (cAsset c) then Some "denom cannot be empty"%string
  else if cAmount c =? 0 then Some "amount cannot be zero"%string
  else None.

Definition Coin_IsNative (c : Coin) : bool := Chain_Equals (GetChain (cAsset c)) THORChain.
Definition Coin_IsDeca (c : Coin) : bool := IsDeca (cAsset c).
Definition Coin_IsTCY (c : Coin) : bool := IsTCY (cAsset c).
Definition WithDecimals (c : Coin) (decimal : Z) : Coin :=
  mkCoin (cAsset c) (cAmount c) decimal.

Fixpoint Coins_Valid (cs : Coins) : goerr :=
  match cs with
  | [] => None
  | c :: cs' => match Coin_Valid c with Some e => Some e | None => Coins_Valid cs' end
  end.

(** The comparison both slices are sorted with. *)
Definition coin_less (c d : Coin) : bool :=
  str_ltb (Asset_String (cAsset c)) (Asset_String (cAsset d)).

(** The final loop of [EqualsEx]: position by position. *)
Fixpoint all_equal (source dest : Coins) : bool :=
  match source, dest with
  | s :: source', d :: dest' => Coin_Equals s d && all_equal source' dest'
  | _, _ => true
  end.

Definition Coins_EqualsEx (cs cs2 : Coins) : bool :=
  if negb (length cs =? length cs2)%nat then false
  else all_equal (stable_sort coin_less cs) (stable_sort coin_less cs2).

Definition Coins_IsEmpty (cs : Coins) : bool := forallb Coin_IsEmpty cs.

Definition Coins_Contains (cs : Coins) (c : Coin) : bool :=
  existsb (fun item => Coin_Equals c item) cs.

Fixpoint Coins_GetCoin (cs : Coins) (asset : Asset) : Coin :=
  match cs with
  | [] => NoCoin
  | item :: cs' =>
      if Asset_Equals asset (cAsset item) then item else Coins_GetCoin cs' asset
  end.

Definition Coins_Distinct (cs : Coins) : Coins :=
  foldl (fun newCoins item =>
    if negb (Coins_Contains newCoins item) then newCoins ++ [item] else newCoins) [] cs.

Definition HasSynthetic (cs : Coins) : bool :=
  existsb (fun c => IsSyntheticAsset (cAsset c)) cs.

Definition Coins_NoneEmpty (cs : Coins) : Coins :=
  List.filter (fun item => negb (Coin_IsEmpty item)) cs.

Section coins.
Context {S : SdkMath}.

(** One pass of the outer loop of [Coins.Add]: the first coin of that asset
    grows, or the coin is appended. *)
Fixpoint add_coin (newCoins : Coins) (c : Coin) : outcome Coins :=
  match newCoins with
  | [] => Ok [c]
  | x :: xs =>
      if negb (Asset_Equals (cAsset x) (cAsset c)) then
        xs' ← add_coin xs c; Ok (x :: xs')
      else
        s ← uint_add (cAmount x) (cAmount c);
        Ok (with_amount x s :: xs)
  end.

Fixpoint Coins_Add (oldCoins addCoins : Coins) : outcome Coins :=
  match addCoins with
  | [] => Ok oldCoins
  | c :: addCoins' => newCoins ← add_coin oldCoins c; Coins_Add newCoins addCoins'
  end.

(** One pass of the outer loop of [Coins.SafeSub]. *)
Fixpoint sub_coin (newCoins : Coins) (c : Coin) : outcome Coins :=
  match newCoins with
  | [] => Ok []
  | x :: xs =>
      if negb (Asset_Equals (cAsset x) (cAsset c)) then
        xs' ← sub_coin xs c; Ok (x :: xs')
      else
        s ← SafeSub (cAmount x) (cAmount c);
        Ok (with_amount x s :: xs)
  end.

Fixpoint Coins_SafeSub (oldCoins subCoins : Coins) : outcome Coins :=
  match subCoins with
  | [] => Ok oldCoins
  | c :: subCoins' => newCoins ← sub_coin oldCoins c; Coins_SafeSub newCoins subCoins'
  end.

(** ** common/gas.go *)

Definition evmTransferFee : Z := 21000.
Definition evmGasPerByte : Z := 68.

Definition GetEVMGasFee (chain : Chain) (gasPrice msgLen : Z) : outcome Gas :=
  gasBytes ← uint_mul_u64 evmGasPerByte msgLen;
  units ← uint_add evmTransferFee gasBytes;
  price ← uint_of_big gasPrice;
  amount ← uint_mul units price;
  Ok [NewCoin (GetGasAsset chain) amount].

(** [layer1Fee] is a [*big.Int]: [None] is the nil pointer. *)
Definition MakeEVMGas (chain : Chain) (gasPrice gas : Z) (layer1Fee : option Z) : outcome Gas :=
  price ← uint_of_big gasPrice;
  unroundedGasAmt ← uint_mul gas price;
  unroundedGasAmt ←
    match layer1Fee with
    | Some fee => f ← uint_of_big fee; uint_add unroundedGasAmt f
    | None => Ok unroundedGasAmt
    end;
  roundedGasAmt ← uint_quo_u64 unroundedGasAmt (10 ^ 10);
  back ← uint_mul_u64 roundedGasAmt (10 ^ 10);
  roundedGasAmt ←
    if (back <? unroundedGasAmt) || (roundedGasAmt =? 0)
    then uint_add roundedGasAmt 1 else Ok roundedGasAmt;
  Ok [NewCoin (GetGasAsset chain) roundedGasAmt].

Definition Gas_Valid (g : Gas) : goerr := Coins_Valid g.
Definition Gas_IsEmpty (g : Gas) : bool := forallb Coin_IsEmpty g.
Definition Gas_Add (gas addCoins : Gas) : outcome Gas := Coins_Add gas addCoins.
Definition Gas_SafeSub (gas subCoins : Gas) : outcome Gas := Coins_SafeSub gas subCoins.

(** The inner loop of [Adds_deprecated]: every coin of that asset grows. *)
Fixpoint adds_inner (g : Gas) (gc2 : Coin) : outcome (Gas * bool) :=
  match g with
  | [] => Ok ([], false)
  | gc1 :: g' =>
      if Asset_Equals (cAsset gc1) (cAsset gc2) then
        s ← uint_add (cAmount gc1) (cAmount gc2);
        '(g'', _) ← adds_inner g' gc2;
        Ok (with_amount gc1 s :: g'', true)
      else
        '(g'', matched) ← adds_inner g' gc2;
        Ok (gc1 :: g'', matched)
  end.

Fixpoint adds_loop (g g2 newGasCoins : Gas) : outcome Gas :=
  match g2 with
  | [] => Ok (g ++ newGasCoins)
  | gc2 :: g2' =>
      '(g', matched) ← adds_inner g gc2;
      adds_loop g' g2' (if (matched : bool) then newGasCoins else newGasCoins ++ [gc2])
  end.

Definition Adds_deprecated (g g2 : Gas) : outcome Gas := adds_loop g g2 [].
End coins.

(** [Gas.Equals] sorts both slices in place before comparing them: the new
    content of the two backing arrays is returned with the answer. *)
Definition Gas_Equals (g gas2 : Gas) : bool * Gas * Gas :=
  if negb (length g =? length gas2)%nat then (false, g, gas2)
  else
    let g := stable_sort coin_less g in
    let gas2 := stable_sort coin_less gas2 in
    (all_equal g gas2, g, gas2).

Definition ToCoins (g : Gas) : Coins := map (fun c => NewCoin (cAsset c) (cAmount c)) g.

Definition Gas_NoneEmpty (g : Gas) : Gas :=
  List.filter (fun item => negb (Coin_IsEmpty item)) g.

(** ** Lemmas *)

#[export] Instance coin_less_weak : StrictWeak coin_less.
Proof.
  split; unfold coin_less; intros.
  - apply str_ltb_irrefl.
  - eauto using str_ltb_trans.
  - eauto using str_ltb_neg_trans.
Qed.

(** The key coins are sorted by. *)
Definition coin_key (c : Coin) : string := Asset_String (cAsset c).

Lemma Coin_Equals_spec c d :
  Coin_Equals c d = true <-> cAsset c ≡ cAsset d /\ cAmount c = cAmount d.
Proof. unfold Coin_Equals. by rewrite andb_true_iff, Asset_Equals_spec, Z.eqb_eq. Qed.

Definition coin_eq (c d : Coin) : Prop := Coin_Equals c d = true.

Lemma coin_eq_key c d : coin_eq c d -> coin_key c = coin_key d.
Proof. intros [H _]%Coin_Equals_spec. unfold coin_key. by rewrite H. Qed.

Lemma all_equal_spec l1 l2 : length l1 = length l2 ->
  (all_equal l1 l2 = true <-> Forall2 coin_eq l1 l2).
Proof.
  revert l2. induction l1 as [|c l1 IH]; intros [|d l2] Hl; simplify_eq/=.
  - split; [constructor|done].
  - rewrite andb_true_iff, IH by done. split.
    + intros [? ?]. by constructor.
    + by inversion 1.
Qed.

Lemma insert_by_Forall2 c d l1 l2 : coin_eq c d -> Forall2 coin_eq l1 l2 ->
  Forall2 coin_eq (insert_by coin_less c l1) (insert_by coin_less d l2).
Proof.
  intros Hc. induction 1 as [|x y l1 l2 Hx Hl IH]; simpl; [by repeat constructor|].
  replace (coin_less d y) with (coin_less c x); [case_if; by repeat constructor|].
  unfold coin_less. change (Asset_String (cAsset ?z)) with (coin_key z).
  by rewrite (coin_eq_key c d Hc), (coin_eq_key x y Hx).
Qed.

Lemma stable_sort_Forall2 l1 l2 : Forall2 coin_eq l1 l2 ->
  Forall2 coin_eq (stable_sort coin_less l1) (stable_sort coin_less l2).
Proof.
  unfold stable_sort. intros H.
  enough (Hgen : forall a1 a2, Forall2 coin_eq a1 a2 -> Forall2 coin_eq
    (foldl (fun acc x => insert_by coin_less x acc) a1 l1)
    (foldl (fun acc x => insert_by coin_less x acc) a2 l2)) by (apply Hgen; constructor).
  induction H as [|x y l1 l2 Hx Hl IH]; intros a1 a2 Ha; simpl; [done|].
  by apply IH, insert_by_Forall2.
Qed.

(** With distinct keys there is only one sorted rearrangement. *)
Lemma sorted_unique l1 l2 : l1 ≡ₚ l2 -> NoDup (map coin_key l1) ->
  sorted_by coin_less l1 -> sorted_by coin_less l2 -> l1 = l2.
Proof.
  revert l2. induction l1 as [|c l1 IH]; intros l2 Hp Hn H1 H2.
  { by apply Permutation_nil_l in Hp. }
  destruct l2 as [|d l2]; [by apply Permutation_nil_r in Hp|].
  destruct H1 as [Hc H1], H2 as [Hd H2]. simpl in Hn. apply NoDup_cons in Hn as [Hn1 Hn].
  assert (c = d) as ->.
  { assert (Hcin : c ∈ d :: l2) by (rewrite <- Hp; left).
    assert (Hdin : d ∈ c :: l1) by (rewrite Hp; left).
    apply elem_of_cons in Hcin as [?|Hcin]; [done|].
    apply elem_of_cons in Hdin as [?|Hdin]; [done|].
    rewrite Forall_forall in Hc, Hd. exfalso. apply Hn1.
    apply list_elem_of_fmap. exists d. split; [|done].
    apply str_ltb_total; [by apply Hd|by apply Hc]. }
  f_equal. apply IH; [by apply Permutation_cons_inv in Hp|done..].
Qed.

(** *** The amount a list of coins holds of an asset *)

Definition amount_if (a : Asset) (c : Coin) : Z :=
  if Asset_Equals (cAsset c) a then cAmount c else 0.

Definition total (a : Asset) (cs : Coins) : Z := sumZ (map (amount_if a) cs).

(** No two coins of the list have the same asset. *)
Definition distinct_assets (cs : Coins) : Prop := NoDup (map (fun c => canon (cAsset c)) cs).

Definition coins_ok (cs : Coins) : Prop := Forall (fun c => is_uint (cAmount c)) cs.

Lemma amount_if_congr a c d : cAsset c ≡ cAsset d -> cAmount c = cAmount d ->
  amount_if a c = amount_if a d.
Proof. intros Ha Hb. unfold amount_if. by rewrite Ha, Hb. Qed.

Lemma total_app a l1 l2 : total a (l1 ++ l2) = total a l1 + total a l2.
Proof. unfold total. by rewrite map_app, sumZ_app. Qed.

Lemma total_nonneg a cs : coins_ok cs -> 0 <= total a cs.
Proof.
  intros H. apply sumZ_nonneg. apply Forall_map. eapply Forall_impl; [exact H|].
  intros c [Hc _]. simpl. unfold amount_if. case_if; lia.
Qed.

Lemma total_absent a cs : canon a ∉ map (fun c => canon (cAsset c)) cs -> total a cs = 0.
Proof.
  unfold total. induction cs as [|c cs IH]; simpl; [done|].
  intros Hn. apply not_elem_of_cons in Hn as [Hn Hn'].
  rewrite IH by done. unfold amount_if.
  destruct (Asset_Equals (cAsset c) a) eqn:E; [|done].
  apply Asset_Equals_spec in E. unfold equiv, Asset_equiv in E. by rewrite E in Hn.
Qed.

Section coin_lemmas.
Context {S : SdkMath} `{!SdkMathOk S}.

Lemma add_coin_spec cs c r : coins_ok cs -> is_uint (cAmount c) -> add_coin cs c = Ok r ->
  coins_ok r /\ (forall a, total a r = total a cs + amount_if a c) /\
  map (fun c => canon (cAsset c)) r =
    map (fun c => canon (cAsset c)) cs ++
    (if bool_decide (canon (cAsset c) ∈ map (fun c => canon (cAsset c)) cs)
     then [] else [canon (cAsset c)]).
Proof.
  intros Hcs Hc. revert r. induction Hcs as [|x cs Hx Hcs IH]; simpl; intros r H.
  - simplify_eq. split; [by constructor|]. split; [intros a; unfold total; simpl; lia|done].
  - destruct (Asset_Equals (cAsset x) (cAsset c)) eqn:E; simpl in H.
    + uint_inv. subst. apply Asset_Equals_spec in E.
      split; [by constructor|]. split.
      * intros a. unfold total. simpl. unfold amount_if at 1 3 5. simpl. rewrite E.
        case_if; lia.
      * unfold equiv, Asset_equiv in E. simpl.
        rewrite E, bool_decide_true by left. by rewrite app_nil_r.
    + ok_inv. destruct (IH _ ltac:(eassumption)) as (H1 & H2 & H3).
      split; [by constructor|]. split.
      * intros a. specialize (H2 a). unfold total in *. simpl. lia.
      * cbn [map]. rewrite H3. cbn [app]. f_equal. f_equal.
        apply Asset_Equals_false in E. unfold equiv, Asset_equiv in E.
        erewrite bool_decide_ext; [done|]. rewrite elem_of_cons.
        split; [by right|]. by intros [?|?]; [congruence|].
Qed.

Lemma sub_coin_spec cs c : coins_ok cs -> is_uint (cAmount c) -> exists r,
  sub_coin cs c = Ok r /\ coins_ok r /\ map cAsset r = map cAsset cs /\
  Forall2 (fun x y => cAmount y <= cAmount x) cs r /\
  (distinct_assets cs -> forall a, total a r = Z.max 0 (total a cs - amount_if a c)).
Proof.
  intros Hcs Hc. induction Hcs as [|x cs Hx Hcs (r & Hr & Hok & Hm & Hle & Ht)]; simpl.
  - exists []. repeat split; try constructor. intros _ a. unfold total; simpl.
    unfold amount_if, is_uint in *. case_if; lia.
  - destruct (Asset_Equals (cAsset x) (cAsset c)) eqn:E; simpl.
    + rewrite SafeSub_Ok by done. simpl. eexists. split; [done|].
      split; [constructor; [by apply safe_sub_uint|done]|]. split; [done|].
      split.
      { constructor; [unfold is_uint in *; simpl; lia|].
        clear. induction cs; by constructor. }
      intros Hd a. unfold distinct_assets in Hd. simpl in Hd.
      apply NoDup_cons in Hd as [Hd _].
      pose proof (total_nonneg a cs Hcs). unfold total in *. simpl.
      unfold amount_if at 1 3 5. simpl. apply Asset_Equals_spec in E. rewrite E.
      destruct (Asset_Equals (cAsset c) a) eqn:Ea; [|lia].
      assert (Hz : total a cs = 0).
      { apply total_absent. apply Asset_Equals_spec in Ea.
        unfold equiv, Asset_equiv in *. by rewrite <- Ea, <- E. }
      unfold total in Hz. lia.
    + rewrite Hr. simpl. eexists. split; [done|]. split; [by constructor|].
      split; [simpl; by rewrite Hm|]. split; [by constructor|].
      intros Hd a. unfold distinct_assets in Hd. simpl in Hd.
      apply NoDup_cons in Hd as [Hd1 Hd]. specialize (Ht Hd a).
      pose proof (total_nonneg a cs Hcs). unfold total in *. simpl. rewrite Ht.
      destruct (Asset_Equals (cAsset x) a) eqn:Ea;
        [|assert (amount_if a x = 0) by (unfold amount_if; by rewrite Ea); lia].
      assert (Asset_Equals (cAsset c) a = false) as Hca.
      { apply Asset_Equals_false. apply Asset_Equals_false in E.
        apply Asset_Equals_spec in Ea. intros Heq. apply E. by rewrite Heq. }
      assert (amount_if a c = 0) by (unfold amount_if; by rewrite Hca).
      assert (amount_if a x = cAmount x) by (unfold amount_if; by rewrite Ea).
      unfold is_uint in *. lia.
Qed.
End coin_lemmas.

(** Folding the two passes over a list of coins. *)
Section coins_folds.
Context {S : SdkMath} `{!SdkMathOk S}.

Lemma Coins_Add_spec add old r : coins_ok old -> coins_ok add -> Coins_Add old add = Ok r ->
  coins_ok r /\ (forall a, total a r = total a old + total a add) /\
  (distinct_assets old -> distinct_assets r).
Proof.
  intros Ho Ha. revert old r Ho. induction Ha as [|c add Hc Ha IH]; simpl; intros old r Ho H.
  - simplify_eq. split; [done|]. split; [intros a; unfold total; simpl; lia|done].
  - ok_inv. match goal with H : add_coin _ _ = Ok _ |- _ =>
      apply add_coin_spec in H as (H1 & H2 & H3); [|done..] end.
    destruct (IH _ _ H1 H) as (H4 & H5 & H6). split; [done|]. split.
    + intros a. rewrite H5, H2. unfold total. simpl. lia.
    + intros Hd. apply H6. unfold distinct_assets in *. rewrite H3.
      case_bool_decide; [by rewrite app_nil_r|].
      apply NoDup_app. split; [done|]. split; [|apply NoDup_singleton].
      intros y Hy Hy'. apply list_elem_of_singleton in Hy'. by subst.
Qed.

Lemma map_canon (l1 l2 : list Coin) : map cAsset l1 = map cAsset l2 ->
  map (fun c => canon (cAsset c)) l1 = map (fun c => canon (cAsset c)) l2.
Proof.
  intros H. rewrite <- (map_map cAsset canon l1), <- (map_map cAsset canon l2). by rewrite H.
Qed.

Lemma Coins_SafeSub_spec sub old : coins_ok old -> coins_ok sub -> exists r,
  Coins_SafeSub old sub = Ok r /\ coins_ok r /\ map cAsset r = map cAsset old /\
  Forall2 (fun x y => cAmount y <= cAmount x) old r /\
  (distinct_assets old -> forall a, total a r = Z.max 0 (total a old - total a sub)).
Proof.
  intros Ho Hs. revert old Ho. induction Hs as [|c sub Hc Hs IH]; simpl; intros old Ho.
  - exists old. split; [done|]. split; [done|]. split; [done|]. split.
    + clear. induction old; by constructor.
    + intros _ a. pose proof (total_nonneg a old Ho). unfold total in *. simpl. lia.
  - destruct (sub_coin_spec old c Ho Hc) as (r & Hr & Hok & Hm & Hle & Ht).
    destruct (IH r Hok) as (r' & Hr' & Hok' & Hm' & Hle' & Ht').
    exists r'. rewrite Hr. simpl. split; [done|]. split; [done|]. split; [congruence|].
    split.
    + clear -Hle Hle'. revert r' Hle'. induction Hle; inversion 1; subst; constructor;
        [lia|auto].
    + intros Hd a. rewrite Ht' by (unfold distinct_assets in *; by rewrite (map_canon _ _ Hm)).
      rewrite Ht by done. pose proof (total_nonneg a sub Hs). unfold total at 4. simpl.
      fold (total a sub). unfold amount_if, is_uint in *. case_if; lia.
Qed.
End coins_folds.

(** ** Properties *)

(** [Coins.Add] conserves value: for every asset, the amount held afterwards
    is the amount held before plus the amount added, and a list that names each
    asset once still does. *)
Theorem Coins_Add_conserves {S : SdkMath} `{!SdkMathOk S} old add r :
  coins_ok old -> coins_ok add -> Coins_Add old add = Ok r ->
  (forall a, total a r = total a old + total a add) /\
  (distinct_assets old -> distinct_assets r).
Proof. intros Ho Ha H. by destruct (Coins_Add_spec add old r Ho Ha H) as (_ & ? & ?). Qed.

(** [Coins.SafeSub] never panics, keeps the assets and their order, only
    lowers amounts, and on a list that names each asset once subtracts exactly,
    stopping at zero; so it undoes [Coins.Add]. *)
Theorem Coins_SafeSub_exact {S : SdkMath} `{!SdkMathOk S} old sub sum :
  coins_ok old -> coins_ok sub -> distinct_assets old ->
  (exists r, Coins_SafeSub old sub = Ok r /\
     map cAsset r = map cAsset old /\
     Forall2 (fun x y => cAmount y <= cAmount x) old r /\
     forall a, total a r = Z.max 0 (total a old - total a sub)) /\
  (Coins_Add old sub = Ok sum ->
     exists r, Coins_SafeSub sum sub = Ok r /\ forall a, total a r = total a old).
Proof.
  intros Ho Hs Hd. split.
  - destruct (Coins_SafeSub_spec sub old Ho Hs) as (r & ? & _ & ? & ? & ?). eauto 10.
  - intros H. destruct (Coins_Add_spec sub old sum Ho Hs H) as (H1 & H2 & H3).
    destruct (Coins_SafeSub_spec sub sum H1 Hs) as (r & ? & _ & _ & _ & Ht).
    exists r. split; [done|]. intros a. rewrite Ht by auto. rewrite H2.
    pose proof (total_nonneg a old Ho). lia.
Qed.

(** [Coins.EqualsEx] compares coin lists as collections: it answers true
    only if one list can be reordered so that the coins are pairwise [Equals],
    and it does answer true then whenever no two coins print the same asset. *)
Theorem Coins_EqualsEx_multiset cs cs2 :
  (Coins_EqualsEx cs cs2 = true ->
     exists cs2', cs2' ≡ₚ cs2 /\ exists cs', cs' ≡ₚ cs /\ Forall2 coin_eq cs' cs2') /\
  (forall cs2', cs2' ≡ₚ cs2 -> Forall2 coin_eq cs cs2' -> NoDup (map coin_key cs) ->
     Coins_EqualsEx cs cs2 = true).
Proof.
  unfold Coins_EqualsEx. split.
  - destruct (Nat.eqb_spec (length cs) (length cs2)) as [Hl|]; [|done]. simpl. intros H.
    apply all_equal_spec in H; [|by rewrite !stable_sort_length].
    eexists. split; [apply (stable_sort_perm coin_less)|].
    eexists. split; [apply (stable_sort_perm coin_less)|]. done.
  - intros cs2' Hp Hf Hn. pose proof (Forall2_length _ _ _ Hf) as Hl.
    assert (Hl2 : length cs = length cs2) by (rewrite Hl; by apply Permutation_length).
    rewrite Hl2, Nat.eqb_refl. simpl.
    apply all_equal_spec; [by rewrite !stable_sort_length|].
    rewrite (sorted_unique (stable_sort coin_less cs2) (stable_sort coin_less cs2')).
    + by apply stable_sort_Forall2.
    + by rewrite !stable_sort_perm.
    + rewrite stable_sort_perm, <- Hp.
      replace (map coin_key cs2') with (map coin_key cs); [done|].
      clear -Hf. induction Hf as [|x y l1 l2 H Hf IH]; simpl; [done|].
      by rewrite IH, (coin_eq_key x y H).
    + apply stable_sort_sorted, _.
    + apply stable_sort_sorted, _.
Qed.

(** [Gas.Equals] sorts its two arguments in place: both come back as sorted
    permutations, the answer is the one [EqualsEx] gives on the lists as coins,
    and asking again on the rearranged lists changes neither the lists nor the
    answer. *)
Theorem Gas_Equals_in_place g gas2 b g' gas2' :
  Gas_Equals g gas2 = (b, g', gas2') ->
  b = Coins_EqualsEx g gas2 /\ g' ≡ₚ g /\ gas2' ≡ₚ gas2 /\
  (length g = length gas2 -> sorted_by coin_less g' /\ sorted_by coin_less gas2') /\
  Gas_Equals g' gas2' = (b, g', gas2').
Proof.
  unfold Gas_Equals, Coins_EqualsEx.
  destruct (Nat.eqb_spec (length g) (length gas2)) as [Hl|Hl]; simpl; intros [= <- <- <-].
  - split; [done|]. split; [apply stable_sort_perm|]. split; [apply stable_sort_perm|].
    split; [by split; apply stable_sort_sorted, _|].
    rewrite !stable_sort_length, Hl, Nat.eqb_refl. simpl.
    by rewrite !(stable_sort_id coin_less (stable_sort _ _)) by apply stable_sort_sorted, _.
  - destruct (Nat.eqb_spec (length g) (length gas2)); [done|]. simpl. done.
Qed.

(** [MakeEVMGas] charges gas in favour of the vault: one positive coin of
    the chain's gas asset, at least the wei cost when read back at eighteen
    decimals, and less than one eight-decimal unit above it, or exactly one
    unit when the cost is zero. *)
Theorem MakeEVMGas_rounds_up {S : SdkMath} `{!SdkMathOk S} chain gasPrice gas layer1Fee r :
  is_u64 gas -> MakeEVMGas chain gasPrice gas layer1Fee = Ok r ->
  let wei := gas * gasPrice + default 0 layer1Fee in
  exists amount, r = [NewCoin (GetGasAsset chain) amount] /\ 0 < amount /\
    wei <= amount * 10 ^ 10 /\
    (0 < wei -> (amount - 1) * 10 ^ 10 < wei) /\ (wei = 0 -> amount = 1).
Proof.
  intros Hg H wei. unfold MakeEVMGas in H. ok_inv.
  assert (Hten : is_u64 (10 ^ 10)) by (unfold is_u64; lia).
  uint_inv.
  match goal with H : match layer1Fee with _ => _ end = Ok ?u |- _ =>
    assert (Hu : u = wei /\ is_uint u) by
      (unfold wei; destruct layer1Fee; simpl; uint_inv; simplify_eq; split; lia || uint_side)
  end.
  destruct Hu as [Hu Hu']. rewrite Hu in *. uint_inv.
  pose proof (div_bounds wei (10 ^ 10) ltac:(lia)) as Hd.
  assert (Hq : is_uint (wei / 10 ^ 10)) by (apply div_uint; [done|lia]).
  match goal with H : (if ?b then _ else _) = Ok ?a |- _ => exists a; destruct b eqn:E end.
  - uint_inv. subst. apply orb_true_iff in E as [E|E]; z_bool;
      (split; [done|]; unfold is_uint in *; split; [lia|]; split; [lia|]; split; lia).
  - ok_inv. subst. apply orb_false_iff in E as [E1 E2]. z_bool.
    split; [done|]. unfold is_uint in *. split; [lia|]. split; [lia|]. split; lia.
Qed.

(** ** The properties at concrete inputs *)

Definition demo_coins : list Coin := [NewCoin BTCAsset 5; NewCoin ETHAsset 7].

Lemma Coins_Add_conserves_witness :
  total BTCAsset [NewCoin BTCAsset 7; NewCoin ETHAsset 7] = 7 /\
  (forall a, total a [NewCoin BTCAsset 7; NewCoin ETHAsset 7] =
     total a demo_coins + total a [NewCoin BTCAsset 2]).
Proof.
  split; [reflexivity|].
  apply (Coins_Add_conserves (S := sdk_std) demo_coins [NewCoin BTCAsset 2]).
  - repeat constructor; simpl; unfold uint_lim; lia.
  - repeat constructor; simpl; unfold uint_lim; lia.
  - vm_compute. reflexivity.
Defined.

Lemma Coins_SafeSub_exact_witness : exists r,
  Coins_SafeSub (S := sdk_std) demo_coins [NewCoin BTCAsset 9] = Ok r /\
  map cAsset r = map cAsset demo_coins /\
  Forall2 (fun x y => cAmount y <= cAmount x) demo_coins r /\
  forall a, total a r = Z.max 0 (total a demo_coins - total a [NewCoin BTCAsset 9]).
Proof.
  refine (proj1 (Coins_SafeSub_exact (S := sdk_std) demo_coins [NewCoin BTCAsset 9] [] _ _ _)).
  - repeat constructor; simpl; unfold uint_lim; lia.
  - repeat constructor; simpl; unfold uint_lim; lia.
  - unfold distinct_assets. apply (bool_decide_unpack _). vm_compute. exact I.
Defined.

Lemma Coins_EqualsEx_multiset_witness :
  Coins_EqualsEx demo_coins (reverse demo_coins) = true.
Proof.
  refine (proj2 (Coins_EqualsEx_multiset demo_coins (reverse demo_coins)) demo_coins _ _ _).
  - symmetry. apply reverse_Permutation.
  - repeat constructor.
  - apply (bool_decide_unpack _). vm_compute. exact I.
Defined.

Lemma Gas_Equals_in_place_witness :
  Gas_Equals (reverse demo_coins) demo_coins = (true, demo_coins, demo_coins) /\
  true = Coins_EqualsEx (reverse demo_coins) demo_coins.
Proof.
  split; [vm_compute; reflexivity|].
  refine (proj1 (Gas_Equals_in_place (reverse demo_coins) demo_coins true demo_coins
    demo_coins _)).
  vm_compute. reflexivity.
Defined.

Lemma MakeEVMGas_rounds_up_witness : exists amount,
  [NewCoin ETHAsset 63001] = [NewCoin (GetGasAsset ETHChain) amount] /\ 0 < amount /\
  21000 * 30000000001 + 5 <= amount * 10 ^ 10 /\
  (0 < 21000 * 30000000001 + 5 -> (amount - 1) * 10 ^ 10 < 21000 * 30000000001 + 5) /\
  (21000 * 30000000001 + 5 = 0 -> amount = 1).
Proof.
  refine (MakeEVMGas_rounds_up (S := sdk_std) ETHChain 30000000001 21000 (Some 5)
    [NewCoin ETHAsset 63001] _ _).
  - unfold is_u64. lia.
  - vm_compute. reflexivity.
Defined.
