(* ===== verification/Bank.v ===== *)
(** The bank module of the Cosmos SDK, as [x/thorchain/keeper/v1/keeper.go]
    uses it: module accounts holding native denominations.

    The bank is third-party code, so it is a parameter: the class [Bank] lists
    the calls, [BankOk] what is documented of them (a call that returns without
    error moved, created or destroyed exactly the coin), and [simple_bank] shows
    that such a bank exists. *)
From S2P Require Import Prelude SdkMath GoStr Keys Shares Chains Assets Coins.
Local Open Scope string_scope.
Local Open Scope Z_scope.

(** A coin of the bank: the denomination is [Asset.Native()]. *)
Class Bank (B : Type) : Type := {
  bank_balance : B -> string -> string -> Z;                       (* GetBalance *)
  bank_supply : B -> string -> Z;                                  (* GetSupply *)
  bank_send : string -> string -> string -> Z -> B -> outcome B;   (* SendCoinsFromModuleToModule *)
  bank_mint : string -> string -> Z -> B -> outcome B;             (* MintCoins *)
  bank_burn : string -> string -> Z -> B -> outcome B              (* BurnCoins *)
}.

(** [moved from to d n who d' bal]: the balance of [who] in [d'] after [n] of [d] moved. *)
Definition moved (from to d : string) (n : Z) (who d' : string) (bal : Z) : Z :=
  if String.eqb d' d then
    bal - (if String.eqb who from then n else 0) + (if String.eqb who to then n else 0)
  else bal.

Lemma moved_from from to d n bal : from <> to -> moved from to d n from d bal = bal - n.
Proof.
  intros Hne. unfold moved. rewrite !String.eqb_refl.
  destruct (String.eqb_spec from to); [done|]. lia.
Qed.

Lemma moved_to from to d n bal : from <> to -> moved from to d n to d bal = bal + n.
Proof.
  intros Hne. unfold moved. rewrite !String.eqb_refl.
  destruct (String.eqb_spec to from); [by subst|]. lia.
Qed.

Class BankOk (B : Type) `{Bank B} : Prop := {
  bank_send_ok b b' from to d n : bank_send from to d n b = Ok b' ->
    (forall who d', bank_balance b' who d' = moved from to d n who d' (bank_balance b who d')) /\
    (forall d', bank_supply b' d' = bank_supply b d');
  bank_mint_ok b b' m d n : bank_mint m d n b = Ok b' ->
    (forall who d', bank_balance b' who d' =
       bank_balance b who d' + (if String.eqb who m && String.eqb d' d then n else 0)) /\
    (forall d', bank_supply b' d' = bank_supply b d' + (if String.eqb d' d then n else 0));
  bank_burn_ok b b' m d n : bank_burn m d n b = Ok b' ->
    (forall who d', bank_balance b' who d' =
       bank_balance b who d' - (if String.eqb who m && String.eqb d' d then n else 0)) /\
    (forall d', bank_supply b' d' = bank_supply b d' - (if String.eqb d' d then n else 0))
}.

(** ** A concrete bank: balances by account and denomination *)
Record SimpleBank := mkSimpleBank {
  sb_balances : gmap (string * string) Z;
  sb_supply : gmap string Z
}.

Definition sb_balance (b : SimpleBank) (who d : string) : Z :=
  default 0 (sb_balances b !! (who, d)).
Definition sb_total (b : SimpleBank) (d : string) : Z := default 0 (sb_supply b !! d).

Definition sb_change (who d : string) (n : Z) (b : SimpleBank) : SimpleBank :=
  mkSimpleBank (<[(who, d) := sb_balance b who d + n]> (sb_balances b)) (sb_supply b).
Definition sb_issue (d : string) (n : Z) (b : SimpleBank) : SimpleBank :=
  mkSimpleBank (sb_balances b) (<[d := sb_total b d + n]> (sb_supply b)).

#[export] Instance simple_bank : Bank SimpleBank := {
  bank_balance := sb_balance;
  bank_supply := sb_total;
  bank_send from to d n b :=
    if (n <=? 0) then Err "invalid coins"
    else if sb_balance b from d <? n then Err "insufficient funds"
    else Ok (sb_change to d n (sb_change from d (- n) b));
  bank_mint m d n b :=
    if (n <=? 0) then Err "invalid coins" else Ok (sb_issue d n (sb_change m d n b));
  bank_burn m d n b :=
    if (n <=? 0) then Err "invalid coins"
    else if sb_balance b m d <? n then Err "insufficient funds"
    else Ok (sb_issue d (- n) (sb_change m d (- n) b))
}.

Lemma sb_change_balance b who d n w d' :
  sb_balance (sb_change who d n b) w d' =
    sb_balance b w d' + (if String.eqb w who && String.eqb d' d then n else 0).
Proof.
  unfold sb_balance, sb_change. simpl.
  destruct (String.eqb_spec w who) as [->|Hw], (String.eqb_spec d' d) as [->|Hd]; simpl;
    [by rewrite lookup_insert_eq|..]; (rewrite lookup_insert_ne by congruence); lia.
Qed.

Lemma sb_issue_supply b d n d' :
  sb_total (sb_issue d n b) d' = sb_total b d' + (if String.eqb d' d then n else 0).
Proof.
  unfold sb_total, sb_issue. simpl.
  destruct (String.eqb_spec d' d) as [->|Hd]; [by rewrite lookup_insert_eq|].
  rewrite lookup_insert_ne by congruence. lia.
Qed.

#[export] Instance simple_bank_ok : BankOk SimpleBank.
Proof.
  split; simpl; intros b b' *; repeat case_if; try done; intros [= <-].
  - split; [|done]. intros who d'. rewrite !sb_change_balance. unfold moved.
    destruct (String.eqb who from), (String.eqb who to), (String.eqb d' d); simpl; lia.
  - split; [|intros d'; apply (sb_issue_supply (sb_change m d n b))].
    intros who d'. apply (sb_change_balance b).
  - split.
    + intros who d'. etrans; [apply (sb_change_balance b m d (- n) who d')|].
      destruct (String.eqb who m && String.eqb d' d); lia.
    + intros d'. rewrite sb_issue_supply. unfold sb_total, sb_change. simpl.
      destruct (String.eqb d' d); lia.
Qed.
