(* ===== verification/Nodes.v ===== *)
(** Node accounts and bond providers: [x/thorchain/types/type_node_account.go],
    [type_jail.go], [type_network.go]. *)
From S2P Require Import Prelude SdkMath GoStr Keys Shares.
Local Open Scope string_scope.
Local Open Scope Z_scope.

(** ** Node status

    The protobuf enum is an [int32]; only the six declared values have a name. *)
Abbreviation NodeStatus := Z (only parsing).

Definition NodeStatus_Unknown : NodeStatus := 0.
Definition NodeStatus_Whitelisted : NodeStatus := 1.
Definition NodeStatus_Standby : NodeStatus := 2.
Definition NodeStatus_Ready : NodeStatus := 3.
Definition NodeStatus_Active : NodeStatus := 4.
Definition NodeStatus_Disabled : NodeStatus := 5.

Definition NodeStatus_name : list (Z * string) :=
  [(0, "Unknown"); (1, "Whitelisted"); (2, "Standby"); (3, "Ready"); (4, "Active");
   (5, "Disabled")].

(** [NodeStatus_value[name]]. *)
Definition NodeStatus_value (name : string) : option Z :=
  fst <$> List.find (fun '(_, n) => String.eqb n name) NodeStatus_name.

(** [strings.Title] on ASCII: upper-cases the letters that begin a word. *)
Fixpoint title_from (in_word : bool) (s : string) : string :=
  match s with
  | EmptyString => EmptyString
  | String c s' =>
      String (if in_word then c else upper_ascii c)
        (title_from (is_upper c || is_lower c || is_digit c || Ascii.eqb c "_"%char) s')
  end.
Definition title (s : string) : string := title_from false s.

Definition getNodeStatus (ps : string) : NodeStatus :=
  match NodeStatus_value (title ps) with
  | Some val => val
  | None => NodeStatus_Unknown
  end.

(** ** Data *)

Record NodeAccount := mkNodeAccount {
  NodeAddress : AccAddress;
  Status : NodeStatus;
  naPubKeySet : PubKeySet;
  ValidatorConsPubKey : string;
  naBond : Z;
  ActiveBlockHeight : Z;
  naBondAddress : Address;
  StatusSince : Z;
  SignerMembership : list string;
  RequestedToLeave : bool;
  ForcedToLeave : bool;
  LeaveScore : Z;
  IPAddress : string;
  naVersion : string;
  naType : Z;
  MissingBlocks : Z;
  Maintenance : bool
}.
Abbreviation NodeAccounts := (list NodeAccount) (only parsing).

(** The assignments the operations make. *)
Definition with_status (m : NodeAccount) (status since active : Z) : NodeAccount :=
  mkNodeAccount (NodeAddress m) status (naPubKeySet m) (ValidatorConsPubKey m) (naBond m)
    active (naBondAddress m) since (SignerMembership m) (RequestedToLeave m)
    (ForcedToLeave m) (LeaveScore m) (IPAddress m) (naVersion m) (naType m)
    (MissingBlocks m) (Maintenance m).
Definition with_membership (m : NodeAccount) (l : list string) : NodeAccount :=
  mkNodeAccount (NodeAddress m) (Status m) (naPubKeySet m) (ValidatorConsPubKey m) (naBond m)
    (ActiveBlockHeight m) (naBondAddress m) (StatusSince m) l (RequestedToLeave m)
    (ForcedToLeave m) (LeaveScore m) (IPAddress m) (naVersion m) (naType m)
    (MissingBlocks m) (Maintenance m).

Record MinJoinLast := mkMinJoinLast {
  LastChangedHeight : Z;
  mjVersion : string
}.

Definition with_naBond (na : NodeAccount) (bond : Z) : NodeAccount :=
  mkNodeAccount (NodeAddress na) (Status na) (naPubKeySet na) (ValidatorConsPubKey na)
    bond (ActiveBlockHeight na) (naBondAddress na) (StatusSince na) (SignerMembership na)
    (RequestedToLeave na) (ForcedToLeave na) (LeaveScore na) (IPAddress na) (naVersion na)
    (naType na) (MissingBlocks na) (Maintenance na).

(** A [BondProvider{}] literal leaves the [Bond] pointer nil; it is only ever
    tested with [IsEmpty], which reads the address, so its bond is left at 0. *)
Record BondProvider := mkBondProvider {
  BondAddress : AccAddress;
  Bond : Z
}.

Record BondProviders := mkBondProviders {
  bpNodeAddress : AccAddress;
  NodeOperatorFee : Z;
  Providers : list BondProvider
}.

Definition with_bond (p : BondProvider) (b : Z) : BondProvider :=
  mkBondProvider (BondAddress p) b.
Definition with_providers (bp : BondProviders) (l : list BondProvider) : BondProviders :=
  mkBondProviders (bpNodeAddress bp) (NodeOperatorFee bp) l.

Definition NewBondProviders (acc : AccAddress) : BondProviders := mkBondProviders acc 0 [].
Definition NewBondProvider (acc : AccAddress) : BondProvider := mkBondProvider acc 0.

(** ** type_jail.go *)
Record Jail := mkJail {
  jlNodeAddress : AccAddress;
  ReleaseHeight : Z;
  Reason : string
}.
Definition NewJail (addr : AccAddress) : Jail := mkJail addr 0 "".
(** [height] is [ctx.BlockHeight()]. *)
Definition IsJailed (m : Jail) (height : Z) : bool := height <? ReleaseHeight m.

(** ** type_network.go *)
Record Network := mkNetwork {
  BondRewardRune : Z;
  TotalBondUnits : Z;
  LPIncomeSplit : Z;
  NodeIncomeSplit : Z;
  OutboundGasSpentRune : Z;
  OutboundGasWithheldRune : Z
}.
Definition NewNetwork : Network := mkNetwork 0 0 0 0 0 0.
Definition CalcNodeRewards {S : SdkMath} (m : Network) (nodeUnits : Z) : outcome Z :=
  GetUncappedShare nodeUnits (TotalBondUnits m) (BondRewardRune m).

(** ** Node accounts *)

Definition UpdateStatus (m : NodeAccount) (status : NodeStatus) (height : Z) : NodeAccount :=
  if Status m =? status then m
  else
    with_status m status height
      (if negb (status =? NodeStatus_Active) then 0 else ActiveBlockHeight m).

Definition NewNodeAccount (nodeAddress : AccAddress) (status : NodeStatus)
    (nodePubKeySet : PubKeySet) (validatorConsPubKey : string) (bond : Z)
    (bondAddress : Address) (height : Z) : NodeAccount :=
  let na := mkNodeAccount nodeAddress NodeStatus_Unknown nodePubKeySet validatorConsPubKey
    bond 0 bondAddress 0 [] false false 0 "" "" 0 0 false in
  UpdateStatus na status height.

(** [int64(math.Max(0, float64(z)))]: [float64] rounds a large integer to 53
    significant bits, ties to even; the conversion back of [2^63] is out of
    range and gives the smallest [int64] (amd64). *)
Definition float64_of (z : Z) : Z :=
  let e := Z.log2 z - 52 in
  if e <=? 0 then z
  else
    let q := Z.shiftr z e in
    let r := z - Z.shiftl q e in
    let half := Z.shiftl 1 (e - 1) in
    let q' := if r <? half then q
              else if half <? r then q + 1
              else if Z.even q then q else q + 1 in
    Z.shiftl q' e.

Definition clamp_slashpoints (z : Z) : Z := i64 (float64_of (Z.max 0 z)).

Definition CalcBondUnits (m : NodeAccount) (height slashpoints : Z) : Z :=
  let slashpoints := clamp_slashpoints slashpoints in
  if (height <? 0) || (ActiveBlockHeight m <? 0) || (slashpoints <? 0) then 0
  else
    let blockCount := i64 (height - i64 (ActiveBlockHeight m + slashpoints)) in
    let blockCount := if blockCount <? 0 then 0 else blockCount in
    u64 blockCount.

Section nodes.
Context {K : SdkKeys}.

Definition NodeAccount_IsEmpty (m : NodeAccount) : bool :=
  acc_empty (NodeAddress m) || (Status m =? NodeStatus_Unknown).

Definition NodeAccount_Valid (m : NodeAccount) : goerr :=
  if acc_empty (NodeAddress m) then Some "node thor address is empty"
  else if Address_IsEmpty (naBondAddress m) then Some "bond address is empty"
  else if Status m =? NodeStatus_Unknown then Some "node status cannot be unknown"
  else None.

Definition GetSignerMembership (m : NodeAccount) : list PubKey :=
  parse_pubkeys (SignerMembership m).

Definition GetVersion (m : NodeAccount) : semver := fst (semver_make (naVersion m)).

Definition NodeAccount_Equals (m n1 : NodeAccount) : bool :=
  acc_equals (NodeAddress m) (NodeAddress n1) &&
  PubKeySet_Equals (naPubKeySet m) (naPubKeySet n1) &&
  String.eqb (ValidatorConsPubKey m) (ValidatorConsPubKey n1) &&
  Address_Equals (naBondAddress m) (naBondAddress n1) &&
  (naBond m =? naBond n1) &&
  semver_equals (GetVersion m) (GetVersion n1).

Definition TryAddSignerPubKey (m : NodeAccount) (key : PubKey) : NodeAccount :=
  if PubKey_IsEmpty key then m
  else if existsb (fun item => PubKey_Equals item key) (GetSignerMembership m) then m
  else with_membership m (SignerMembership m ++ [PubKey_String key]).

(** The index loop: the last match wins. *)
Fixpoint last_index (key : PubKey) (idx : nat) (items : list PubKey) (idxToDelete : option nat) :
    option nat :=
  match items with
  | [] => idxToDelete
  | item :: items' =>
      last_index key (S idx) items'
        (if PubKey_Equals item key then Some idx else idxToDelete)
  end.

Definition TryRemoveSignerPubKey (m : NodeAccount) (key : PubKey) : NodeAccount :=
  if PubKey_IsEmpty key then m
  else
    match last_index key 0 (GetSignerMembership m) None with
    | Some idxToDelete =>
        with_membership m
          (take idxToDelete (SignerMembership m) ++ drop (S idxToDelete) (SignerMembership m))
    | None => m
    end.

Definition NodeAccounts_IsEmpty (nas : NodeAccounts) : bool := (length nas =? 0)%nat.

Definition IsNodeKeys (nas : NodeAccounts) (addr : AccAddress) : bool :=
  existsb (fun na => (Status na =? NodeStatus_Active) && acc_equals addr (NodeAddress na)) nas.

(** [Less] on the two accounts it indexes. *)
Definition node_less (a b : NodeAccount) : bool :=
  if StatusSince a <? StatusSince b then true
  else if StatusSince b <? StatusSince a then false
  else str_ltb (acc_string (NodeAddress a)) (acc_string (NodeAddress b)).

Definition NodeAccounts_Contains (nas : NodeAccounts) (na : NodeAccount) : bool :=
  existsb (fun item => NodeAccount_Equals item na) nas.

Definition GetNodeAddresses (nas : NodeAccounts) : list AccAddress := map NodeAddress nas.

(** ** Bond providers *)

Definition BondProvider_IsEmpty (m : BondProvider) : bool := acc_empty (BondAddress m).

Fixpoint get_provider (providers : list BondProvider) (acc : AccAddress) : BondProvider :=
  match providers with
  | [] => mkBondProvider "" 0
  | provider :: providers' =>
      if acc_equals (BondAddress provider) acc then provider
      else get_provider providers' acc
  end.

Definition BondProviders_Get (bp : BondProviders) (acc : AccAddress) : BondProvider :=
  get_provider (Providers bp) acc.

Definition BondProviders_Has (bp : BondProviders) (acc : AccAddress) : bool :=
  negb (BondProvider_IsEmpty (BondProviders_Get bp acc)).
End nodes.

Section bonds.
Context {S : SdkMath} {K : SdkKeys}.

(** The search loop of [Bond] and [Unbond]: [f] is applied to the bond of the
    first provider with that address. *)
Fixpoint update_provider (f : Z -> outcome Z) (providers : list BondProvider)
    (acc : AccAddress) : outcome (list BondProvider) :=
  match providers with
  | [] => Ok []
  | provider :: providers' =>
      if acc_equals (BondAddress provider) acc then
        b ← f (Bond provider); Ok (with_bond provider b :: providers')
      else
        rest ← update_provider f providers' acc; Ok (provider :: rest)
  end.

Definition BondProviders_Bond (bp : BondProviders) (bond : Z) (acc : AccAddress) :
    outcome BondProviders :=
  l ← update_provider (fun b => uint_add b bond) (Providers bp) acc;
  Ok (with_providers bp l).

Definition BondProviders_Unbond (bp : BondProviders) (bond : Z) (acc : AccAddress) :
    outcome BondProviders :=
  l ← update_provider (fun b => SafeSub b bond) (Providers bp) acc;
  Ok (with_providers bp l).

(** The loop of [Remove] over the providers after the first. *)
Fixpoint remove_provider (providers : list BondProvider) (acc : AccAddress) :
    option (list BondProvider) :=
  match providers with
  | [] => None
  | provider :: providers' =>
      if acc_equals (BondAddress provider) acc && (Bond provider =? 0) then Some providers'
      else cons provider <$> remove_provider providers' acc
  end.

Definition BondProviders_Remove (bp : BondProviders) (acc : AccAddress) :
    bool * BondProviders :=
  match Providers bp with
  | [] => (false, bp)
  | operator :: rest =>
      match remove_provider rest acc with
      | Some rest' => (true, with_providers bp (operator :: rest'))
      | None => (false, bp)
      end
  end.

(** The last loop of [Adjust]: each non-operator bond becomes its share, and
    what is given out leaves the operator's bond. *)
Fixpoint adjust_loop (totalBond nodeBond operatorBond : Z) (rest : list BondProvider) :
    outcome (Z * list BondProvider) :=
  match rest with
  | [] => Ok (operatorBond, [])
  | p :: rest' =>
      share ← GetSafeShare (Bond p) totalBond nodeBond;
      operatorBond ← SafeSub operatorBond share;
      '(operatorBond, rest'') ← adjust_loop totalBond nodeBond operatorBond rest';
      Ok (operatorBond, with_bond p share :: rest'')
  end.

Definition Adjust (bp : BondProviders) (nodeBond : Z) : outcome BondProviders :=
  match Providers bp with
  | [] => Ok bp
  | operator :: rest =>
      totalBond ← Sum (map Bond (Providers bp));
      if totalBond =? nodeBond then Ok bp
      else
        fee ← (if totalBond <? nodeBond then
                 surplus ← SafeSub nodeBond totalBond;
                 GetSafeShare (NodeOperatorFee bp) 10000 surplus
               else Ok 0);
        nodeBond ← SafeSub nodeBond fee;
        '(operatorBond, rest') ← adjust_loop totalBond nodeBond nodeBond rest;
        operatorBond ← uint_add operatorBond fee;
        Ok (with_providers bp (with_bond operator operatorBond :: rest'))
  end.

Definition HasProviderBonded (bp : BondProviders) (opBondAddress : AccAddress) : bool :=
  existsb (fun p => negb (acc_equals (BondAddress p) opBondAddress) && (0 <? Bond p))
    (Providers bp).
End bonds.

(** ** Lemmas *)

Definition bonds (l : list BondProvider) : list Z := map Bond l.
Definition bonds_ok (l : list BondProvider) : Prop := Forall (fun p => is_uint (Bond p)) l.

(** The shares the loop of [Adjust] hands out. *)
Definition new_shares (t N : Z) (l : list BondProvider) : list Z :=
  map (fun p => share (Z.min (Bond p) t) t N) l.

Fixpoint set_bonds (l : list BondProvider) (v : list Z) : list BondProvider :=
  match l, v with
  | p :: l', b :: v' => with_bond p b :: set_bonds l' v'
  | _, _ => []
  end.

Section adjust_lemmas.
Context {S : SdkMath} `{!SdkMathOk S}.

Lemma new_shares_nonneg t N l : bonds_ok l -> is_uint t -> is_uint N ->
  Forall is_uint (new_shares t N l).
Proof.
  intros Hl Ht HN. apply Forall_map. eapply Forall_impl; [exact Hl|].
  intros p Hp. by apply safe_share_uint.
Qed.

Lemma adjust_loop_eq t N l op : bonds_ok l -> is_uint t -> is_uint N -> is_uint op ->
  adjust_loop t N op l =
    Ok (Z.max 0 (op - sumZ (new_shares t N l)), set_bonds l (new_shares t N l)).
Proof.
  intros Hl Ht HN. revert op. induction Hl as [|p l Hp Hl IH]; intros op Hop; simpl.
  - do 2 f_equal. unfold is_uint in Hop. lia.
  - rewrite GetSafeShare_Ok by done. simpl.
    pose proof (safe_share_uint _ _ _ Hp Ht HN) as Hs. rewrite SafeSub_Ok by done. simpl.
    rewrite IH by auto with go. simpl. do 2 f_equal.
    assert (0 <= sumZ (new_shares t N l)).
    { apply sumZ_nonneg. eapply Forall_impl; [by apply new_shares_nonneg|]. by intros ? []. }
    unfold is_uint in *. lia.
Qed.

(** Rounding each share moves their sum by at most half a unit a provider. *)
Lemma new_shares_sum t N l : bonds_ok l -> 0 < t -> sumZ (bonds l) <= t -> is_uint N ->
  2 * Z.abs (sumZ (new_shares t N l) * t - N * sumZ (bonds l)) <= Z.of_nat (length l) * t.
Proof.
  intros Hl Ht Hsum HN. assert (Hle : Forall (fun p => Bond p <= t) l).
  { clear -Hl Hsum. induction Hl as [|p l Hp Hl IH]; simpl in *; [done|].
    assert (0 <= sumZ (bonds l)).
    { apply sumZ_nonneg, Forall_map. eapply Forall_impl; [exact Hl|]. by intros ? []. }
    unfold is_uint in Hp. constructor; [lia|]. apply IH. lia. }
  clear Hsum. induction Hl as [|p l Hp Hl IH]; [simpl; lia|].
  rewrite length_cons, Nat2Z.inj_succ. simpl.
  apply Forall_cons_1 in Hle as [Hp' Hle]. specialize (IH Hle).
  pose proof (share_near (Z.min (Bond p) t) t N Ht) as Hn.
  rewrite Z.min_l in * by done.
  set (s := share (Bond p) t N) in *. set (r := sumZ (new_shares t N l)) in *.
  set (q := sumZ (bonds l)) in *.
  replace ((s + r) * t - N * (Bond p + q)) with ((s * t - N * Bond p) + (r * t - N * q)) by ring.
  lia.
Qed.

Lemma share_grows b t N : 0 <= b <= t -> t <= N -> b <= share (Z.min b t) t N.
Proof.
  intros Hb Ht. rewrite Z.min_l by lia. destruct (Z.eq_dec t 0) as [->|Hn].
  - unfold share. simpl. lia.
  - unfold share. destruct (Z.eqb_spec t 0); [lia|].
    apply Z.div_le_lower_bound; [lia|]. pose proof (Z.div_pos t 2). nia.
Qed.

Lemma share_shrinks b t N : 0 <= b <= t -> 0 <= N <= t -> share (Z.min b t) t N <= b.
Proof.
  intros Hb Ht. rewrite Z.min_l by lia. destruct (Z.eq_dec t 0) as [->|Hn].
  - unfold share. simpl. lia.
  - unfold share. destruct (Z.eqb_spec t 0); [lia|].
    assert ((N * b + t / 2) / t < b + 1); [|lia].
    apply Z.div_lt_upper_bound; [lia|]. pose proof (div_bounds t 2). nia.
Qed.

Lemma new_shares_grow t N l : Forall (fun p => 0 <= Bond p <= t) l -> t <= N ->
  Forall2 (fun p p' => Bond p <= Bond p') l (set_bonds l (new_shares t N l)).
Proof. intros H HN. induction H; simpl; constructor; [by apply share_grows|done]. Qed.

Lemma new_shares_shrink t N l : Forall (fun p => 0 <= Bond p <= t) l -> 0 <= N <= t ->
  Forall2 (fun p p' => Bond p' <= Bond p) l (set_bonds l (new_shares t N l)).
Proof. intros H HN. induction H; simpl; constructor; [by apply share_shrinks|done]. Qed.

Lemma bonds_le l : bonds_ok l -> Forall (fun p => 0 <= Bond p <= sumZ (bonds l)) l.
Proof.
  induction 1 as [|p l Hp Hl IH]; simpl; [done|].
  assert (0 <= sumZ (bonds l)).
  { apply sumZ_nonneg, Forall_map. eapply Forall_impl; [exact Hl|]. by intros ? []. }
  unfold is_uint in Hp. constructor; [lia|]. eapply Forall_impl; [exact IH|]. simpl. lia.
Qed.

Lemma bonds_set_bonds l v : length v = length l -> bonds (set_bonds l v) = v.
Proof.
  revert v. induction l as [|p l IH]; intros [|b v] H; simplify_eq/=; [done|].
  by rewrite IH.
Qed.

Lemma addresses_set_bonds l v : length v = length l ->
  map BondAddress (set_bonds l v) = map BondAddress l.
Proof.
  revert v. induction l as [|p l IH]; intros [|b v] H; simplify_eq/=; [done|].
  by rewrite IH.
Qed.

(** The new total: exact up to rounding, and exact when the operator's bond
    covers the rounding. *)
Lemma adjusted_total t b0 rest N fee : bonds_ok rest -> 0 <= b0 ->
  t = b0 + sumZ (bonds rest) -> 0 <= fee <= Z.max 0 (N - t) -> is_uint t -> is_uint (N - fee) ->
  let s := sumZ (new_shares t (N - fee) rest) in
  let t' := Z.max 0 (N - fee - s) + fee + s in
  let n := Z.of_nat (length rest) in
  N <= t' /\ 2 * t' <= 2 * N + n /\ (n * t <= 2 * Z.min N t * b0 -> t' = N).
Proof.
  intros Hrest Hb0 Ht Hfee Htu HN' s t' n.
  assert (Hs0 : 0 <= s).
  { apply sumZ_nonneg. eapply Forall_impl; [by apply new_shares_nonneg|]. by intros ? []. }
  assert (0 <= sumZ (bonds rest)).
  { apply sumZ_nonneg, Forall_map. eapply Forall_impl; [exact Hrest|]. by intros ? []. }
  pose proof HN' as [HN0 _].
  destruct (Z.eq_dec t 0) as [Hz|Hz].
  { assert (s = 0); [|unfold t', n; split; [lia|]; split; [lia|intros _; lia]]. unfold s, new_shares. rewrite Hz. clear.
    induction rest as [|p rest IH]; simpl; [done|]. by rewrite IH. }
  pose proof (new_shares_sum t (N - fee) rest Hrest ltac:(lia) ltac:(lia) HN') as Hs.
  assert (Hn : 0 <= n) by (unfold n; lia).
  fold s n in Hs. set (b := sumZ (bonds rest)) in *. clearbody s b n.
  assert (Hst : 2 * s * t <= 2 * (N - fee) * b + n * t) by nia.
  unfold t'. split; [lia|]. split; [|intros Hc].
  - assert (2 * s <= 2 * (N - fee) + n); [|lia].
    apply (Zmult_le_reg_r _ _ t); [lia|]. nia.
  - assert (s <= N - fee); [|lia]. assert (Z.min N t <= N - fee) by lia.
    assert (Z.min N t * b0 <= (N - fee) * b0) by nia.
    apply (Zmult_le_reg_r _ _ t); [lia|]. nia.
Qed.

(** The operator's cut of a surplus. *)
Definition operator_fee (bp : BondProviders) (t N : Z) : Z :=
  if t <? N then share (Z.min (NodeOperatorFee bp) 10000) 10000 (N - t) else 0.

Lemma operator_fee_range bp t N : 0 <= NodeOperatorFee bp -> 0 <= t -> 0 <= N ->
  0 <= operator_fee bp t N <= Z.max 0 (N - t).
Proof.
  intros Hf Ht HN. unfold operator_fee. destruct (Z.ltb_spec t N); [|lia].
  split; [apply share_nonneg; lia|].
  etransitivity; [apply share_le; lia|lia].
Qed.

Lemma Adjust_eq bp N op rest : Providers bp = op :: rest ->
  bonds_ok (op :: rest) -> is_uint (sumZ (bonds (op :: rest))) -> is_uint N ->
  is_uint (NodeOperatorFee bp) -> sumZ (bonds (op :: rest)) <> N ->
  let t := sumZ (bonds (op :: rest)) in
  let fee := operator_fee bp t N in
  let v := new_shares t (N - fee) rest in
  Adjust bp N = Ok (with_providers bp
    (with_bond op (Z.max 0 (N - fee - sumZ v) + fee) :: set_bonds rest v)).
Proof.
  intros HP Hok Ht HN Hf Hne t fee v. unfold Adjust. rewrite HP.
  rewrite Sum_eq by (apply Forall_map; eapply Forall_impl; [exact Hok|]; done).
  fold (bonds (op :: rest)). fold t. rewrite uint_or_panic_Ok by done. simpl.
  destruct (Z.eqb_spec t N); [done|].
  pose proof Ht as [Ht0 _]. pose proof HN as [HN0 _]. pose proof Hf as [Hf0 _].
  fold t in Ht0. pose proof (operator_fee_range bp t N Hf0 Ht0 HN0) as Hr. fold fee in Hr.
  assert (Hten : is_uint 10000) by (unfold is_uint, uint_lim; lia).
  assert (Hfee : (if t <? N
    then surplus ← SafeSub N t; GetSafeShare (NodeOperatorFee bp) 10000 surplus
    else Ok 0) = Ok fee).
  { unfold fee, operator_fee. destruct (Z.ltb_spec t N); [|done].
    rewrite SafeSub_Ok by done. simpl. rewrite Z.max_r by lia.
    apply GetSafeShare_Ok; [done..|]. unfold is_uint in *. lia. }
  rewrite Hfee. simpl.
  assert (Hfu : is_uint fee) by (unfold is_uint in *; lia).
  rewrite SafeSub_Ok by done. rewrite Z.max_r by lia. simpl.
  assert (HN' : is_uint (N - fee)) by (unfold is_uint in *; lia).
  apply Forall_cons_1 in Hok as [Hop Hrest].
  rewrite adjust_loop_eq by done. simpl. fold v.
  assert (0 <= sumZ v).
  { apply sumZ_nonneg. eapply Forall_impl; [by apply new_shares_nonneg|]. by intros ? []. }
  rewrite uint_add_ok by (unfold is_uint in *; lia).
  by rewrite uint_or_panic_Ok by (unfold is_uint in *; lia).
Qed.
End adjust_lemmas.

(** *** Signer membership *)
Section membership_lemmas.
Context {K : SdkKeys}.

Lemma last_index_spec key items idx o : last_index key idx items o =
  match last_index key 0 items None with
  | Some i => Some (idx + i)%nat
  | None => o
  end.
Proof.
  revert idx o. induction items as [|x items IH]; intros idx o; simpl; [done|].
  rewrite IH, (IH 1%nat). destruct (last_index key 0 items None) as [i|].
  - f_equal. lia.
  - destruct (PubKey_Equals x key); [f_equal; lia|done].
Qed.

Lemma last_index_Some key items i : last_index key 0 items None = Some i ->
  items !! i = Some key /\ key ∉ drop (S i) items.
Proof.
  revert i. induction items as [|x items IH]; simpl; intros i H; [done|].
  rewrite last_index_spec in H.
  destruct (last_index key 0 items None) as [j|] eqn:E; simplify_eq.
  - destruct (IH j eq_refl) as [? ?]. done.
  - destruct (PubKey_Equals x key) eqn:Ex; simplify_eq. simpl.
    apply String.eqb_eq in Ex. subst. split; [done|]. rewrite drop_0.
    intros Hin. clear IH. revert E. induction items as [|y items IHi]; simpl.
    + by apply elem_of_nil in Hin.
    + rewrite last_index_spec. apply elem_of_cons in Hin as [->|Hin].
      * unfold PubKey_Equals. rewrite String.eqb_refl. by destruct (last_index _ _ _ _).
      * specialize (IHi Hin). by destruct (last_index _ _ _ _).
Qed.

Lemma last_index_None key items : last_index key 0 items None = None <-> key ∉ items.
Proof.
  induction items as [|x items IH]; simpl.
  - split; [intros _; apply not_elem_of_nil|done].
  - rewrite last_index_spec, not_elem_of_cons, <- IH. unfold PubKey_Equals.
    destruct (last_index key 0 items None) as [i|].
    + split; [done|by intros [_ ?]].
    + destruct (String.eqb_spec x key) as [->|Hx].
      * split; [done|by intros [? _]].
      * split; [by intros _; split; [congruence|]|done].
Qed.

Lemma filter_middle (key : string) (a b l : list string) : (a ++ key :: b)%list = l -> NoDup l ->
  (a ++ b)%list = filter (fun k => k <> key) l.
Proof.
  intros <- Hnd. apply NoDup_app in Hnd as (_ & Ha & Hb). apply NoDup_cons in Hb as [Hb _].
  rewrite filter_app, filter_cons_False by (by intros []).
  rewrite !filter_all; [done| |].
  - apply Forall_forall. by intros x Hx ->.
  - apply Forall_forall. intros x Hx ->. apply (Ha key Hx). by left.
Qed.

Lemma GetSignerMembership_Contains m key :
  existsb (fun item => PubKey_Equals item key) (GetSignerMembership m) = true <->
  key ∈ GetSignerMembership m.
Proof. apply PubKeys_Contains_spec. Qed.
End membership_lemmas.

(** ** Properties *)

(** C36. [Adjust] realigns the providers' bonds with the node bond without
    panicking.  It keeps the providers and their order, the new bonds add up to
    the node bond or exceed it by at most half a unit per non-operator provider,
    they add up exactly when the operator's own bond covers that rounding, and a
    surplus lowers no provider's bond while a loss raises none. *)
Theorem Adjust_realigns {S : SdkMath} `{!SdkMathOk S} bp N op rest :
  Providers bp = op :: rest -> bonds_ok (op :: rest) -> is_uint N ->
  is_uint (NodeOperatorFee bp) ->
  let t := sumZ (bonds (op :: rest)) in
  let n := Z.of_nat (length rest) in
  is_uint t ->
  exists bp' op' rest', Adjust bp N = Ok bp' /\ Providers bp' = op' :: rest' /\
    map BondAddress (op' :: rest') = map BondAddress (op :: rest) /\
    (let t' := sumZ (bonds (op' :: rest')) in
     N <= t' /\ 2 * t' <= 2 * N + n /\ (n * t <= 2 * Z.min N t * Bond op -> t' = N)) /\
    (t <= N -> Forall2 (fun p p' => Bond p <= Bond p') rest rest') /\
    (N <= t -> Forall2 (fun p p' => Bond p' <= Bond p) rest rest').
Proof.
  intros HP Hok HN Hf t n Ht. destruct (Z.eq_dec t N) as [He|Hne].
  - exists bp, op, rest. unfold Adjust. rewrite HP.
    rewrite Sum_eq by (apply Forall_map; eapply Forall_impl; [exact Hok|]; done).
    fold (bonds (op :: rest)). fold t. rewrite uint_or_panic_Ok by done. cbn [mbind outcome_bind].
    rewrite (proj2 (Z.eqb_eq t N)) by done. fold t.
    repeat split; try done; try lia; intros _; clear; induction rest; by constructor.
  - pose proof (Adjust_eq bp N op rest HP Hok Ht HN Hf Hne) as HA.
    pose proof Ht as [Ht0 _]. pose proof HN as [HN0 _]. pose proof Hf as [Hf0 _].
    fold t in HA. pose proof (operator_fee_range bp t N Hf0 Ht0 HN0) as Hr.
    set (fee := operator_fee bp t N) in *.
    assert (Hfee0 : N <= t -> fee = 0).
    { intros. unfold fee, operator_fee. destruct (Z.ltb_spec t N); lia. }
    pose proof (bonds_le _ Hok) as Hle. fold t in Hle. apply Forall_cons_1 in Hle as [Hop Hle].
    apply Forall_cons_1 in Hok as [Hopu Hrest].
    assert (HN' : is_uint (N - fee)) by (unfold is_uint in *; lia).
    set (v := new_shares t (N - fee) rest) in *.
    assert (Hlen : length v = length rest) by (unfold v, new_shares; by rewrite length_map).
    do 3 eexists. split; [exact HA|]. split; [done|]. split.
    { simpl. by rewrite addresses_set_bonds. }
    split.
    + cbv zeta. simpl. rewrite bonds_set_bonds by done. cbv zeta in HA.
      apply (adjusted_total t (Bond op) rest N fee); try done; lia.
    + split; intros H; [apply new_shares_grow|apply new_shares_shrink]; done || lia.
Qed.

(** The bond sum is not an invariant when rounding outweighs the operator's
    bond: two providers of one unit each keep it after the node bond fell to
    one. *)
Lemma Adjust_sum_can_exceed :
  let bp := mkBondProviders "n" 0 [mkBondProvider "op" 0; mkBondProvider "a" 1;
                                   mkBondProvider "b" 1] in
  Adjust (S := sdk_std) bp 1 = Ok bp /\ sumZ (bonds (Providers bp)) = 2.
Proof. split; vm_compute; reflexivity. Qed.

(** [CalcBondUnits] of a node is the number of blocks since it became
    active less its slash points, never negative, at most the blocks it was
    active, and zero for a negative height; nothing wraps for heights below
    [2^62] and slash points a [float64] represents exactly. *)
Theorem CalcBondUnits_blocks m height slashpoints :
  Z.abs height < 2 ^ 62 -> Z.abs (ActiveBlockHeight m) < 2 ^ 62 ->
  Z.abs slashpoints < 2 ^ 53 ->
  CalcBondUnits m height slashpoints =
    if (height <? 0) || (ActiveBlockHeight m <? 0) then 0
    else Z.max 0 (height - ActiveBlockHeight m - Z.max 0 slashpoints).
Proof.
  intros Hh Ha Hs. unfold CalcBondUnits.
  assert (Hc : clamp_slashpoints slashpoints = Z.max 0 slashpoints).
  { unfold clamp_slashpoints, float64_of.
    assert (Z.log2 (Z.max 0 slashpoints) - 52 <= 0) as Hl.
    { destruct (Z.le_gt_cases (Z.max 0 slashpoints) 0) as [H|H].
      - rewrite Z.log2_nonpos by lia. lia.
      - assert (Z.log2 (Z.max 0 slashpoints) < 53) by (apply Z.log2_lt_pow2; lia). lia. }
    destruct (Z.leb_spec (Z.log2 (Z.max 0 slashpoints) - 52) 0); [|lia].
    apply i64_id. unfold is_i64. lia. }
  rewrite Hc. destruct (Z.ltb_spec (Z.max 0 slashpoints) 0); [lia|]. rewrite orb_false_r.
  destruct (Z.ltb_spec height 0), (Z.ltb_spec (ActiveBlockHeight m) 0); simpl; try done.
  rewrite (i64_id (ActiveBlockHeight m + _)) by (unfold is_i64; lia).
  rewrite (i64_id (height - _)) by (unfold is_i64; lia).
  set (d := height - (ActiveBlockHeight m + Z.max 0 slashpoints)) in *.
  destruct (Z.ltb_spec d 0); rewrite u64_id by (unfold is_u64; lia); lia.
Qed.

(** Signer membership behaves as a set of keys while every stored entry
    parses: adding a valid key makes it a member and is idempotent, removing it
    deletes exactly that entry, and removing a key just added restores the
    account. *)
Theorem signer_membership_set {K : SdkKeys} m key :
  (forall k, k ∈ SignerMembership m -> NewPubKey k = Ok k) -> NoDup (SignerMembership m) ->
  NewPubKey key = Ok key -> key <> ""%string ->
  let m' := TryAddSignerPubKey m key in
  key ∈ GetSignerMembership m' /\ TryAddSignerPubKey m' key = m' /\
  NoDup (SignerMembership m') /\
  SignerMembership (TryRemoveSignerPubKey m key) =
    filter (fun k => k <> key) (SignerMembership m) /\
  (key ∉ SignerMembership m -> TryRemoveSignerPubKey m' key = m).
Proof.
  intros Hall Hnd Hkey Hne m'.
  assert (Hemp : PubKey_IsEmpty key = false) by (destruct key; done).
  assert (HG : GetSignerMembership m = SignerMembership m) by by apply parse_pubkeys_all.
  assert (HG' : GetSignerMembership m' = SignerMembership m').
  { apply parse_pubkeys_all. intros k. unfold m', TryAddSignerPubKey. rewrite Hemp.
    case_if; [auto|]. simpl. rewrite elem_of_app, list_elem_of_singleton.
    unfold PubKey_String. intros [? | -> ]; auto. }
  assert (Hin : key ∈ GetSignerMembership m').
  { rewrite HG'. unfold m', TryAddSignerPubKey. rewrite Hemp. case_if.
    - apply GetSignerMembership_Contains in E. by rewrite HG in E.
    - simpl. apply elem_of_app. right. by left. }
  split; [done|]. split.
  { unfold TryAddSignerPubKey at 1. rewrite Hemp.
    by rewrite (proj2 (GetSignerMembership_Contains m' key) Hin). }
  split.
  { unfold m', TryAddSignerPubKey. rewrite Hemp. case_if; [done|]. simpl.
    apply NoDup_app. split; [done|]. split; [|apply NoDup_singleton].
    intros k Hk Hk'. apply list_elem_of_singleton in Hk'. subst k.
    assert (key ∈ GetSignerMembership m) as Hc%GetSignerMembership_Contains by by rewrite HG.
    by rewrite Hc in E. }
  split.
  - unfold TryRemoveSignerPubKey. rewrite Hemp, HG.
    destruct (last_index key 0 (SignerMembership m) None) as [i|] eqn:Ei.
    + apply last_index_Some in Ei as [Hi _]. simpl.
      apply filter_middle; [by apply take_drop_middle|done].
    + apply last_index_None in Ei. rewrite filter_all; [done|].
      apply Forall_forall. by intros x Hx ->.
  - intros Hnin. assert (Hm' : m' = with_membership m (SignerMembership m ++ [key])).
    { unfold m', TryAddSignerPubKey. rewrite Hemp. case_if; [|done].
      apply GetSignerMembership_Contains in E. by rewrite HG in E. }
    unfold TryRemoveSignerPubKey. rewrite Hemp, HG', Hm'. simpl.
    assert (Hl : last_index key 0 (SignerMembership m ++ [key]) None =
      Some (length (SignerMembership m))).
    { destruct (last_index key 0 (SignerMembership m ++ [key]) None) as [i|] eqn:Ei.
      - apply last_index_Some in Ei as [Hi _]. apply lookup_app_Some in Hi as [Hi|[Hi Hi']].
        + exfalso. apply Hnin. by apply list_elem_of_lookup_2 in Hi.
        + apply list_lookup_singleton_Some in Hi' as [? _]. f_equal. lia.
      - apply last_index_None in Ei. exfalso. apply Ei, elem_of_app. right. by left. }
    rewrite Hl, take_app_length, drop_ge by (rewrite length_app; simpl; lia).
    rewrite app_nil_r. by destruct m.
Qed.

(** With an entry that does not parse, the index found in the parsed list is
    used on the raw list: removing [pb] deletes [pa]. *)
Lemma TryRemove_wrong_entry (m : NodeAccount) :
  SignerMembership (TryRemoveSignerPubKey (K := keys_std)
    (with_membership m ["x"; "pa"; "pb"]%string) "pb") = ["x"; "pb"]%string.
Proof. reflexivity. Qed.

(** ** The properties at concrete inputs *)

Definition demo_operator : BondProvider := mkBondProvider "op" 100.
Definition demo_delegator : BondProvider := mkBondProvider "a" 50.
Definition demo_providers : BondProviders :=
  mkBondProviders "n" 1000 [demo_operator; demo_delegator].

Lemma Adjust_realigns_witness :
  exists bp' op' rest', Adjust (S := sdk_std) demo_providers 250 = Ok bp' /\
    Providers bp' = op' :: rest' /\
    map BondAddress (op' :: rest') = ["op"; "a"]%string /\
    (let t' := sumZ (bonds (op' :: rest')) in
     250 <= t' /\ 2 * t' <= 2 * 250 + 1 /\ (1 * 150 <= 2 * Z.min 250 150 * 100 -> t' = 250)) /\
    (150 <= 250 -> Forall2 (fun p p' => Bond p <= Bond p') [demo_delegator] rest') /\
    (250 <= 150 -> Forall2 (fun p p' => Bond p' <= Bond p) [demo_delegator] rest').
Proof.
  refine (Adjust_realigns (S := sdk_std) demo_providers 250 demo_operator [demo_delegator]
    _ _ _ _ _).
  - reflexivity.
  - repeat constructor; simpl; unfold uint_lim; lia.
  - unfold is_uint, uint_lim. lia.
  - unfold is_uint, uint_lim. simpl. lia.
  - unfold is_uint, uint_lim. simpl. lia.
Defined.

Definition demo_node : NodeAccount :=
  mkNodeAccount "node" NodeStatus_Active EmptyPubKeySet "" 100 5 "addr" 5 ["pa"; "pb"]%string
    false false 0 "" "1.0.0" 0 0 false.

Lemma CalcBondUnits_blocks_witness :
  CalcBondUnits demo_node 100 20 = Z.max 0 (100 - 5 - Z.max 0 20).
Proof. refine (CalcBondUnits_blocks demo_node 100 20 _ _ _); simpl; lia. Defined.

Lemma signer_membership_set_witness :
  let m' := TryAddSignerPubKey (K := keys_std) demo_node "pc" in
  "pc"%string ∈ GetSignerMembership (K := keys_std) m' /\
  TryAddSignerPubKey (K := keys_std) m' "pc" = m' /\ NoDup (SignerMembership m') /\
  SignerMembership (TryRemoveSignerPubKey (K := keys_std) demo_node "pc") =
    filter (fun k => k <> "pc"%string) ["pa"; "pb"]%string /\
  ("pc"%string ∉ SignerMembership demo_node ->
     TryRemoveSignerPubKey (K := keys_std) m' "pc" = demo_node).
Proof.
  refine (signer_membership_set (K := keys_std) demo_node "pc" _ _ _ _).
  - intros k Hk. simpl in Hk. apply elem_of_cons in Hk as [->|Hk]; [reflexivity|].
    apply list_elem_of_singleton in Hk. subst. reflexivity.
  - apply (bool_decide_unpack _). vm_compute. exact I.
  - reflexivity.
  - discriminate.
Defined.
