(* ===== verification/Txs.v ===== *)
(** Transactions: [common/tx.go], the observed transaction of
    [common/type_observed_tx.go] and the outbound item of
    [x/thorchain/types/type_tx_out.go].

    Comparing two transactions sorts their gas slices in place
    ([Gas.Equals]); the comparisons below return the rearranged operands. *)
From stdpp Require Import pretty.
From S2P Require Import Prelude SdkMath GoStr Keys Shares Chains Assets Coins.
Local Open Scope string_scope.
Local Open Scope Z_scope.

Abbreviation TxID := string (only parsing).

(** [%d]. *)
Definition itoa (z : Z) : string := pretty z.

Definition BlankTxID : TxID :=
  "0000000000000000000000000000000000000000000000000000000000000000".

(** ** Transaction hashes *)

Definition is_hex (c : ascii) : bool :=
  char_in 48 57 c || char_in 65 70 c || char_in 97 102 c.

(** [^[0-9a-fA-F]{64}-[0-9]+$]. *)
Definition regexIsCosmosIndexed (hash : string) : bool :=
  let hex := String.substring 0 64 hash in
  let rest := String.substring 64 (String.length hash - 64) hash in
  str_all is_hex hex && (String.length hex =? 64)%nat &&
  match rest with
  | String "-" digits => negb (String.eqb digits "") && str_all is_digit digits
  | _ => false
  end.

Definition NewTxID (hash : string) : outcome TxID :=
  if (64 <? str_len hash) && regexIsCosmosIndexed hash then Ok hash
  else if str_len hash =? 64 then Ok (to_upper hash)
  else if str_len hash =? 66 then
    if negb (String.prefix "0x" hash) then
      Err ("txid error: must be 66 characters (got " ++ itoa (str_len hash) ++ ")")
    else Ok (to_upper hash)
  else if (str_len hash =? 87) || (str_len hash =? 88) then Ok hash
  else Err ("txid error: must be 64 characters (got " ++ itoa (str_len hash) ++ ")").

Definition TxID_Equals (tx tx2 : TxID) : bool := equal_fold tx tx2.
Definition TxID_IsEmpty (tx : TxID) : bool := is_blank tx.
Definition TxID_IsBlank (tx : TxID) : bool := TxID_Equals tx BlankTxID.

(** [binary.BigEndian.Uint64]. *)
Fixpoint big_endian (acc : Z) (s : string) : Z :=
  match s with
  | EmptyString => acc
  | String c s' => big_endian (Z.lor (Z.shiftl acc 8) (Z.of_nat (nat_of_ascii c))) s'
  end.

Definition MaxInt64 : Z := 2 ^ 63 - 1.

Definition TxID_Int64 (tx : TxID) : outcome Z :=
  if TxID_IsEmpty tx then Ok 0
  else if str_len tx <? 8 then Panic
  else
    let last := String.substring (String.length tx - 8) 8 tx in
    Ok (i64 (Z.land (big_endian 0 last) MaxInt64)).

(** ** Transactions *)

Record Tx := mkTx {
  txID : TxID;
  txChain : Chain;
  txFrom : Address;
  txTo : Address;
  txCoins : Coins;
  txGas : Gas;
  txMemo : string
}.

Definition with_gas (tx : Tx) (g : Gas) : Tx :=
  mkTx (txID tx) (txChain tx) (txFrom tx) (txTo tx) (txCoins tx) g (txMemo tx).

(** The zero value [Tx{}]. *)
Definition EmptyTx : Tx := mkTx "" EmptyChain NoAddress NoAddress [] [] "".

Definition GetRagnarokTx (chain : Chain) (fromAddr toAddr : Address) : Tx :=
  let blankAsset := mkAsset chain "BLANK" "BLANK" false false false in
  mkTx BlankTxID chain fromAddr toAddr [NewCoin blankAsset 1] [NewCoin blankAsset 1] "Ragnarok".

Definition NewTx (txID : TxID) (from to : Address) (coins : Coins) (gas : Gas)
    (memo : string) : Tx :=
  let chain := match coins with
               | coin :: _ => GetChain (cAsset coin)
               | [] => EmptyChain
               end in
  mkTx txID chain from to coins gas memo.

Definition Tx_IsEmpty (tx : Tx) : bool := TxID_IsEmpty (txID tx).

(** The guards [EqualsEx] passes before it compares the gas. *)
Definition equals_before_gas (tx tx2 : Tx) : bool :=
  TxID_Equals (txID tx) (txID tx2) && Chain_Equals (txChain tx) (txChain tx2) &&
  Address_Equals (txFrom tx) (txFrom tx2) && Address_Equals (txTo tx) (txTo tx2) &&
  Coins_EqualsEx (txCoins tx) (txCoins tx2).

Definition Tx_EqualsEx (tx tx2 : Tx) : bool * Tx * Tx :=
  if negb (equals_before_gas tx tx2) then (false, tx, tx2)
  else
    let '(b, g, g2) := Gas_Equals (txGas tx) (txGas tx2) in
    let tx := with_gas tx g in
    let tx2 := with_gas tx2 g2 in
    if negb b then (false, tx, tx2)
    else if negb (equal_fold (txMemo tx) (txMemo tx2)) then (false, tx, tx2)
    else (true, tx, tx2).

Definition Tx_EqualsExIgnoreGas (tx tx2 : Tx) : bool :=
  equals_before_gas tx tx2 && equal_fold (txMemo tx) (txMemo tx2).

Definition Tx_Valid (tx : Tx) : goerr :=
  if TxID_IsEmpty (txID tx) then Some "Tx ID cannot be empty"
  else if Address_IsEmpty (txFrom tx) then Some "from address cannot be empty"
  else if Address_IsEmpty (txTo tx) then Some "to address cannot be empty"
  else if Chain_IsEmpty (txChain tx) then Some "chain cannot be empty"
  else if (length (txCoins tx) =? 0)%nat then Some "must have at least 1 coin"
  else match Coins_Valid (txCoins tx) with Some e => Some e | None =>
  if negb (Chain_Equals (txChain tx) THORChain) && (length (txGas tx) =? 0)%nat
  then Some "must have at least 1 gas coin"
  else match Gas_Valid (txGas tx) with Some e => Some e | None =>
  if MaxMemoSize <? str_len (txMemo tx) then
    Some ("memo must not exceed " ++ itoa MaxMemoSize ++ " bytes: " ++ itoa (str_len (txMemo tx)))
  else None end end.

(** ** Observed transactions *)

(** [Status]: the protobuf enum. *)
Inductive TxStatus := Status_incomplete | Status_done | Status_reverted.

#[export] Instance TxStatus_eq_dec : EqDecision TxStatus.
Proof. solve_decision. Defined.

Record ObservedTx := mkObservedTx {
  otTx : Tx;
  otStatus : TxStatus;
  OutHashes : list string;
  otBlockHeight : Z;
  otSigners : list string;
  ObservedPubKey : PubKey;
  KeysignMs : Z;
  FinaliseHeight : Z;
  otAggregator : string;
  otAggregatorTarget : string;
  otAggregatorTargetLimit : option Z
}.

Definition with_tx (m : ObservedTx) (tx : Tx) : ObservedTx :=
  mkObservedTx tx (otStatus m) (OutHashes m) (otBlockHeight m) (otSigners m)
    (ObservedPubKey m) (KeysignMs m) (FinaliseHeight m) (otAggregator m)
    (otAggregatorTarget m) (otAggregatorTargetLimit m).
Definition with_otStatus (m : ObservedTx) (s : TxStatus) : ObservedTx :=
  mkObservedTx (otTx m) s (OutHashes m) (otBlockHeight m) (otSigners m)
    (ObservedPubKey m) (KeysignMs m) (FinaliseHeight m) (otAggregator m)
    (otAggregatorTarget m) (otAggregatorTargetLimit m).
Definition with_hashes (m : ObservedTx) (l : list string) : ObservedTx :=
  mkObservedTx (otTx m) (otStatus m) l (otBlockHeight m) (otSigners m)
    (ObservedPubKey m) (KeysignMs m) (FinaliseHeight m) (otAggregator m)
    (otAggregatorTarget m) (otAggregatorTargetLimit m).
Definition with_otSigners (m : ObservedTx) (l : list string) : ObservedTx :=
  mkObservedTx (otTx m) (otStatus m) (OutHashes m) (otBlockHeight m) l
    (ObservedPubKey m) (KeysignMs m) (FinaliseHeight m) (otAggregator m)
    (otAggregatorTarget m) (otAggregatorTargetLimit m).

Definition NewObservedTx (tx : Tx) (height : Z) (pk : PubKey) (finalisedHeight : Z) : ObservedTx :=
  mkObservedTx tx Status_incomplete [] height [] pk 0 finalisedHeight "" "" None.

(** [common.ObservedTx{}]. *)
Definition EmptyObservedTx : ObservedTx := NewObservedTx EmptyTx 0 EmptyPubKey 0.

Definition ObservedTx_Valid (m : ObservedTx) : goerr :=
  match Tx_Valid (otTx m) with
  | Some e => Some e
  | None =>
      if otBlockHeight m <=? 0 then Some "block height can't be zero"
      else if PubKey_IsEmpty (ObservedPubKey m) then Some "observed pool pubkey is empty"
      else if FinaliseHeight m <=? 0 then Some "finalise block height can't be zero"
      else None
  end.

Definition ObservedTx_IsEmpty (m : ObservedTx) : bool := Tx_IsEmpty (otTx m).

(** The receiver and the argument are copies; only their gas is shared with
    the caller. *)
Definition ObservedTx_Equals (m tx2 : ObservedTx) : bool * ObservedTx * ObservedTx :=
  let '(b, t, t2) := Tx_EqualsEx (otTx m) (otTx tx2) in
  let m := with_tx m t in
  let tx2 := with_tx tx2 t2 in
  (b && PubKey_Equals (ObservedPubKey m) (ObservedPubKey tx2) &&
   (otBlockHeight m =? otBlockHeight tx2) && (FinaliseHeight m =? FinaliseHeight tx2) &&
   equal_fold (otAggregator m) (otAggregator tx2) &&
   equal_fold (otAggregatorTarget m) (otAggregatorTarget tx2) &&
   (default 0 (otAggregatorTargetLimit m) =? default 0 (otAggregatorTargetLimit tx2)),
   m, tx2).

Definition IsFinal (m : ObservedTx) : bool := FinaliseHeight m =? otBlockHeight m.

Fixpoint GetOutHashes (hashes : list string) : list TxID :=
  match hashes with
  | [] => []
  | o :: hashes' =>
      match NewTxID o with
      | Ok txID => txID :: GetOutHashes hashes'
      | _ => GetOutHashes hashes'
      end
  end.

Definition IsDone (m : ObservedTx) (numOuts : Z) : bool :=
  numOuts <=? Z.of_nat (length (OutHashes m)).

Definition SetDone (m : ObservedTx) (hash : TxID) (numOuts : Z) : ObservedTx :=
  if negb (TxID_Equals hash BlankTxID) &&
     existsb (fun done => TxID_Equals done hash) (GetOutHashes (OutHashes m))
  then m
  else
    let m := with_hashes m (OutHashes m ++ [hash]) in
    if IsDone m numOuts then with_otStatus m Status_done else m.

Section observed.
Context {K : SdkKeys}.

(** The loops that parse a list of signers, skipping the ones that fail. *)
Fixpoint parse_signers (signers : list string) : list AccAddress :=
  match signers with
  | [] => []
  | a :: signers' =>
      match acc_from_bech32 a with
      | Ok addr => addr :: parse_signers signers'
      | _ => parse_signers signers'
      end
  end.

Definition ObservedTx_GetSigners (m : ObservedTx) : list AccAddress :=
  parse_signers (otSigners m).

Definition ObservedTx_HasSigned (m : ObservedTx) (signer : AccAddress) : bool :=
  existsb (fun sign => acc_equals sign signer) (ObservedTx_GetSigners m).

Definition ObservedTx_Sign (m : ObservedTx) (signer : AccAddress) : bool * ObservedTx :=
  if ObservedTx_HasSigned m signer then (false, m)
  else (true, with_otSigners m (otSigners m ++ [acc_string signer])).
End observed.

(** ** Outbound items *)

Record TxOutItem := mkTxOutItem {
  toChain : Chain;
  toToAddress : Address;
  VaultPubKey : PubKey;
  toCoin : Coin;
  toMemo : string;
  OriginalMemo : string;
  MaxGas : Gas;
  GasRate : Z;
  InHash : TxID;
  OutHash : TxID;
  ModuleName : string;
  toAggregator : string;
  toAggregatorTargetAsset : string;
  toAggregatorTargetLimit : option Z;
  CloutSpent : option Z;
  VaultPubKeyEddsa : PubKey
}.

Record TxOut := mkTxOut {
  toHeight : Z;
  TxArray : list TxOutItem
}.

Definition TxOutItem_Valid (m : TxOutItem) : goerr :=
  if Chain_IsEmpty (toChain m) then Some "chain cannot be empty"
  else if TxID_IsEmpty (InHash m) then Some "In Hash cannot be empty"
  else if Address_IsEmpty (toToAddress m) then Some "To address cannot be empty"
  else if PubKey_IsEmpty (VaultPubKey m) then Some "vault pubkey cannot be empty"
  else if GasRate m =? 0 then Some "gas rate is zero"
  else if Asset_IsEmpty (GetGasAsset (toChain m)) then Some "invalid base asset"
  else match Coin_Valid (toCoin m) with
       | Some e => Some e
       | None => Gas_Valid (MaxGas m)
       end.

Definition TxOutItem_Equals (m toi2 : TxOutItem) : bool :=
  Chain_Equals (toChain m) (toChain toi2) && Address_Equals (toToAddress m) (toToAddress toi2) &&
  PubKey_Equals (VaultPubKey m) (VaultPubKey toi2) && Coin_Equals (toCoin m) (toCoin toi2) &&
  TxID_Equals (InHash m) (InHash toi2) && String.eqb (toMemo m) (toMemo toi2) &&
  (GasRate m =? GasRate toi2).

Definition AsgardName : string := "asgard".

Definition GetModuleName (toi : TxOutItem) : string :=
  if String.eqb (ModuleName toi) "" then AsgardName else ModuleName toi.

Definition GetMemo (toi : TxOutItem) : string :=
  if negb (String.eqb (OriginalMemo toi) "") then OriginalMemo toi else toMemo toi.

Definition NewTxOut (height : Z) : TxOut := mkTxOut height [].
Definition TxOut_IsEmpty (m : TxOut) : bool := (length (TxArray m) =? 0)%nat.

Fixpoint items_Valid (l : list TxOutItem) : goerr :=
  match l with
  | [] => None
  | tx :: l' => match TxOutItem_Valid tx with Some e => Some e | None => items_Valid l' end
  end.
Definition TxOut_Valid (m : TxOut) : goerr := items_Valid (TxArray m).

(** ** Lemmas *)

(** *** Equality of transactions *)

(** Coin lists equal up to order, as [EqualsEx] decides it. *)
Definition coins_same (cs cs2 : list Coin) : Prop :=
  Forall2 coin_eq (stable_sort coin_less cs) (stable_sort coin_less cs2).

Lemma coin_eq_refl c : coin_eq c c.
Proof. by apply Coin_Equals_spec. Qed.

Lemma Coins_EqualsEx_same cs cs2 : Coins_EqualsEx cs cs2 = true <-> coins_same cs cs2.
Proof.
  unfold Coins_EqualsEx, coins_same. split.
  - destruct (Nat.eqb_spec (length cs) (length cs2)); [|done].
    apply all_equal_spec. by rewrite !stable_sort_length.
  - intros H. pose proof (Forall2_length _ _ _ H) as Hl. rewrite !stable_sort_length in Hl.
    rewrite Hl, Nat.eqb_refl. simpl. apply all_equal_spec; [|done].
    by rewrite !stable_sort_length.
Qed.

#[export] Instance coin_eq_equiv : Equivalence coin_eq.
Proof.
  split.
  - exact coin_eq_refl.
  - intros c d. unfold coin_eq. rewrite !Coin_Equals_spec. by intros [-> ->].
  - intros x y z. unfold coin_eq. rewrite !Coin_Equals_spec. by intros [-> ->] [-> ->].
Qed.

#[export] Instance coins_same_equiv : Equivalence coins_same.
Proof.
  unfold coins_same. split.
  - intros cs. reflexivity.
  - intros cs cs2 H. by symmetry.
  - intros a b c H1 H2. by etransitivity.
Qed.

(** Two transactions are the same up to letter case, coin order and gas order. *)
Definition tx_same (a b : Tx) : Prop :=
  to_upper (txID a) = to_upper (txID b) /\ to_upper (txChain a) = to_upper (txChain b) /\
  to_upper (txFrom a) = to_upper (txFrom b) /\ to_upper (txTo a) = to_upper (txTo b) /\
  coins_same (txCoins a) (txCoins b) /\ coins_same (txGas a) (txGas b) /\
  to_upper (txMemo a) = to_upper (txMemo b).

#[export] Instance tx_same_equiv : Equivalence tx_same.
Proof.
  unfold tx_same. split.
  - intros a. repeat split; reflexivity.
  - intros a b (?&?&?&?&?&?&?). repeat split; by symmetry.
  - intros a b c (?&?&?&?&?&?&?) (?&?&?&?&?&?&?). repeat split; by etransitivity.
Qed.

Lemma stable_sort_coins_same g : coins_same (stable_sort coin_less g) g.
Proof.
  unfold coins_same. rewrite stable_sort_id; [|apply stable_sort_sorted, _].
  apply Forall_Forall2_diag, Forall_true. apply coin_eq_refl.
Qed.

Lemma Gas_Equals_spec g gas2 b g' gas2' : Gas_Equals g gas2 = (b, g', gas2') ->
  b = Coins_EqualsEx g gas2 /\ g' ≡ₚ g /\ gas2' ≡ₚ gas2 /\
  coins_same g' g /\ coins_same gas2' gas2.
Proof.
  unfold Gas_Equals, Coins_EqualsEx.
  destruct (Nat.eqb_spec (length g) (length gas2)) as [Hl|Hl]; simpl; intros [= <- <- <-].
  - repeat split; apply stable_sort_perm || apply stable_sort_coins_same.
  - repeat split; reflexivity.
Qed.

(** [b] is [a] with its gas slice rearranged. *)
Definition gas_moved (a b : Tx) : Prop :=
  exists g, b = with_gas a g /\ g ≡ₚ txGas a /\ coins_same g (txGas a).

Lemma gas_moved_refl a : gas_moved a a.
Proof. exists (txGas a). by destruct a. Qed.

Lemma gas_moved_trans a b c : gas_moved a b -> gas_moved b c -> gas_moved a c.
Proof.
  intros (g & -> & Hp & Hs) (g' & -> & Hp' & Hs'). exists g'. simpl in *.
  split; [done|]. by split; etransitivity.
Qed.

Lemma gas_moved_same a b : gas_moved a b -> tx_same b a.
Proof. intros (g & -> & Hp & Hs). repeat split; done. Qed.

(** [EqualsEx] decides sameness; its operands come back with their gas moved. *)
Lemma Tx_EqualsEx_spec a b r a' b' : Tx_EqualsEx a b = (r, a', b') ->
  (r = true <-> tx_same a b) /\ gas_moved a a' /\ gas_moved b b'.
Proof.
  intros H. assert (Hr : r = equals_before_gas a b && Coins_EqualsEx (txGas a) (txGas b) &&
    equal_fold (txMemo a) (txMemo b) /\ gas_moved a a' /\ gas_moved b b').
  { unfold Tx_EqualsEx in H. destruct (equals_before_gas a b); simpl in H.
    - destruct (Gas_Equals (txGas a) (txGas b)) as [[bg g] g2] eqn:Eg.
      apply Gas_Equals_spec in Eg as (<- & Hp & Hp2 & Hs & Hs2).
      assert (Hm : gas_moved a (with_gas a g) /\ gas_moved b (with_gas b g2)).
      { split; eexists; by split. }
      destruct bg; simpl in *; [destruct (equal_fold _ _)|]; by simplify_eq/=.
    - simplify_eq. split; [done|]. split; apply gas_moved_refl. }
  destruct Hr as (-> & Hm & Hm2). split; [|done].
  unfold equals_before_gas, TxID_Equals, Address_Equals, tx_same.
  rewrite !andb_true_iff, Chain_Equals_spec, !equal_fold_spec, !Coins_EqualsEx_same. tauto.
Qed.

(** *** Transaction hashes *)
Lemma to_upper_len s : str_len (to_upper s) = str_len s.
Proof. unfold str_len. by rewrite to_upper_length. Qed.

Lemma NewTxID_long s : 64 < str_len s -> regexIsCosmosIndexed s = true -> NewTxID s = Ok s.
Proof. intros H Hr. unfold NewTxID. destruct (Z.ltb_spec 64 (str_len s)); [|lia]. by rewrite Hr. Qed.

Lemma not_indexed_upper_0x s : String.prefix "0x" s = true ->
  String.prefix "0x" (to_upper s) = false /\ regexIsCosmosIndexed (to_upper s) = false.
Proof.
  destruct s as [|c [|d s]]; try done.
  - by destruct c as [[] [] [] [] [] [] [] []].
  - assert (Hp : String.prefix "0x" (String c (String d s)) = true ->
      c = "0"%char /\ d = "x"%char).
    { unfold String.prefix. repeat case_if; naive_solver. }
    intros [-> ->]%Hp. split; [done|].
    unfold regexIsCosmosIndexed. simpl. done.
Qed.

Lemma not_indexed_0x s : String.prefix "0x" s = true -> regexIsCosmosIndexed s = false.
Proof.
  destruct s as [|c [|d s]]; try done.
  - by destruct c as [[] [] [] [] [] [] [] []].
  - assert (Hp : String.prefix "0x" (String c (String d s)) = true ->
      c = "0"%char /\ d = "x"%char).
    { unfold String.prefix. repeat case_if; naive_solver. }
    intros [-> ->]%Hp. unfold regexIsCosmosIndexed. simpl. done.
Qed.

(** What [NewTxID] returns, by the shape of its input. *)
Lemma NewTxID_cases s t : NewTxID s = Ok t ->
  (t = s /\ NewTxID s = Ok s) \/ (str_len s = 64 /\ t = to_upper s) \/
  (str_len s = 66 /\ String.prefix "0x" s = true /\ t = to_upper s).
Proof.
  unfold NewTxID. intros H. repeat case_if_in H; simplify_eq; z_bool; auto.
  right. right. apply negb_false_iff in E2. auto.
Qed.

(** ** Properties *)

(** [NewTxID] only changes letter case, and its result is a fixed point: it
    parses to itself.  The one exception are the 66-character [0x] hashes: the
    prefix is upper-cased too, and [NewTxID] rejects what it returned. *)
Theorem NewTxID_normal s t : NewTxID s = Ok t ->
  TxID_Equals t s = true /\ str_len t = str_len s /\
  (if (str_len s =? 66) && String.prefix "0x" s
   then exists e, NewTxID t = Err e
   else NewTxID t = Ok t).
Proof.
  intros H. pose proof (NewTxID_cases s t H) as Hc.
  assert (Hx : (str_len s =? 66) && String.prefix "0x" s = true -> t = to_upper s).
  { intros [Hl%Z.eqb_eq Hp]%andb_true_iff. unfold NewTxID in H.
    rewrite (not_indexed_0x s Hp), andb_false_r, Hl in H. simpl in H.
    rewrite Hp in H. by simplify_eq/=. }
  assert (Hu : t = s \/ t = to_upper s) by tauto. split; [|split].
  - destruct Hu as [->| ->]; unfold TxID_Equals; [apply equal_fold_refl|].
    rewrite equal_fold_upper_l. apply equal_fold_refl.
  - destruct Hu as [->| ->]; [done|apply to_upper_len].
  - destruct ((str_len s =? 66) && String.prefix "0x" s) eqn:E.
    + rewrite (Hx eq_refl). apply andb_true_iff in E as [El%Z.eqb_eq Ep].
      destruct (not_indexed_upper_0x s Ep) as [Hp Hi].
      unfold NewTxID. rewrite Hi, andb_false_r, to_upper_len, El. simpl. rewrite Hp. eauto.
    + destruct Hc as [[-> ?]|[[Hl ->]|(Hl & Hp & _)]]; [done| |].
      * unfold NewTxID. rewrite to_upper_len, Hl. simpl. by rewrite to_upper_idemp.
      * by rewrite Hp, Hl in E.
Qed.

(** [Tx.EqualsEx] decides equality up to letter case and the order of coins
    and gas, which is an equivalence relation; the comparison leaves both
    transactions as they were but for the order of their gas, so it can be
    repeated with the same answer. *)
Theorem Tx_EqualsEx_equivalence a b r a' b' : Tx_EqualsEx a b = (r, a', b') ->
  (r = true <-> tx_same a b) /\ Equivalence tx_same /\
  with_gas a' (txGas a) = a /\ with_gas b' (txGas b) = b /\
  txGas a' ≡ₚ txGas a /\ txGas b' ≡ₚ txGas b /\
  (Tx_EqualsEx a' b').1.1 = r.
Proof.
  intros H. destruct (Tx_EqualsEx_spec _ _ _ _ _ H) as (Hr & Ha & Hb).
  split; [done|]. split; [apply _|].
  pose proof (gas_moved_same _ _ Ha) as Hsa. pose proof (gas_moved_same _ _ Hb) as Hsb.
  destruct Ha as (g & -> & Hp & _), Hb as (g' & -> & Hp' & _).
  split; [by destruct a|]. split; [by destruct b|]. split; [done|]. split; [done|].
  destruct (Tx_EqualsEx (with_gas a g) (with_gas b g')) as [[r' a''] b''] eqn:E.
  destruct (Tx_EqualsEx_spec _ _ _ _ _ E) as (Hr' & _). simpl.
  apply eq_true_iff_eq. rewrite Hr, Hr', Hsa, Hsb. done.
Qed.

Lemma NewTxID_normal_witness :
  let s := "0xaaaaaaaaaaaaaaaaaaaaaaaaaaaaaaaaaaaaaaaaaaaaaaaaaaaaaaaaaaaaaaaa"%string in
  exists t, NewTxID s = Ok t /\ TxID_Equals t s = true /\ str_len t = str_len s /\
    (if (str_len s =? 66) && String.prefix "0x" s
     then exists e, NewTxID t = Err e else NewTxID t = Ok t).
Proof.
  intros s. eexists. split; [vm_compute; reflexivity|]. apply (NewTxID_normal s).
  vm_compute. reflexivity.
Defined.

Definition demo_tx (coins gas : list Coin) (memo : string) : Tx :=
  mkTx "aa" BTCChain "from" "to" coins gas memo.

Lemma Tx_EqualsEx_equivalence_witness :
  let a := demo_tx demo_coins (reverse demo_coins) "memo" in
  let b := demo_tx (reverse demo_coins) demo_coins "MEMO" in
  (true = true <-> tx_same a b) /\ Equivalence tx_same /\
  with_gas b (txGas a) = demo_tx (reverse demo_coins) (reverse demo_coins) "MEMO".
Proof.
  intros a b. assert (E : Tx_EqualsEx a b = (true, with_gas a demo_coins, b)) by reflexivity.
  destruct (Tx_EqualsEx_equivalence a b true _ _ E) as (H1 & H2 & _). auto.
Defined.
