(* ===== verification/Decimal.v ===== *)
(** Decimal notation: Go's [strconv] readers, what [%d] writes, and zero-padded
    numbers, whose byte-wise order is the order of the numbers.

    [Atoi] and [ParseUint] are the standard library's documented functions on
    base 10 (an optional sign, at least one digit, an error out of range). *)
From stdpp Require Import pretty.
From S2P Require Import Prelude SdkMath GoStr Keys Shares Chains Assets Coins Txs.
Local Open Scope string_scope.
Local Open Scope Z_scope.

(** The number a string of digits denotes, after the digits [acc] stands for. *)
Fixpoint dec_value (acc : Z) (s : string) : Z :=
  match s with
  | EmptyString => acc
  | String c s' => dec_value (10 * acc + digit_of c) s'
  end.

Definition is_digits (s : string) : bool := negb (String.eqb s "") && str_all is_digit s.

Definition Atoi (s : string) : outcome Z :=
  let '(neg, digits) :=
    match s with
    | String "-" s' => (true, s')
    | String "+" s' => (false, s')
    | _ => (false, s)
    end in
  let value := if (neg : bool) then - dec_value 0 digits else dec_value 0 digits in
  if negb (is_digits digits) then Err "invalid syntax"
  else if (value <? - 2 ^ 63) || (2 ^ 63 - 1 <? value) then Err "value out of range"
  else Ok value.

(** [strconv.ParseUint(s, 10, 64)]. *)
Definition ParseUint (s : string) : outcome Z :=
  if negb (is_digits s) then Err "invalid syntax"
  else if 2 ^ 64 - 1 <? dec_value 0 s then Err "value out of range"
  else Ok (dec_value 0 s).

Fixpoint zeros (n : nat) : string :=
  match n with O => "" | S n' => String "0" (zeros n') end.

(** ** What [%d] writes *)

Lemma digit_of_bounds c : is_digit c = true -> 0 <= digit_of c <= 9.
Proof.
  unfold is_digit, char_in, digit_of. rewrite andb_true_iff, !Nat.leb_le. lia.
Qed.

Lemma pretty_N_char_spec x : (x < 10)%N ->
  is_digit (pretty_N_char x) = true /\ digit_of (pretty_N_char x) = Z.of_N x.
Proof.
  intros Hx. assert (x ∈ [0; 1; 2; 3; 4; 5; 6; 7; 8; 9]%N) as Hin by (set_unfold; lia).
  set_unfold. destruct_or? Hin; subst x; done.
Qed.

Lemma pretty_N_go_spec (x : N) s : str_all is_digit s = true ->
  str_all is_digit (pretty_N_go x s) = true /\
  dec_value 0 (pretty_N_go x s) = dec_value (Z.of_N x) s.
Proof.
  revert s. induction (N.lt_wf_0 x) as [x _ IH]; intros s Hs.
  destruct (decide (x = 0)%N) as [->|Hx]; [by rewrite pretty_N_go_0|].
  rewrite pretty_N_go_step by lia.
  destruct (pretty_N_char_spec (x `mod` 10)) as [Hd Hv]; [by apply N.mod_lt|].
  destruct (IH (x `div` 10)%N) with (s := String (pretty_N_char (x `mod` 10)) s)
    as [IH1 IH2]; [by apply N.div_lt; lia|simpl; by rewrite Hd|].
  split; [done|]. rewrite IH2. simpl. rewrite Hv. f_equal.
  rewrite N2Z.inj_div, N2Z.inj_mod. pose proof (Z.div_mod (Z.of_N x) 10). lia.
Qed.

Lemma pretty_N_go_length (n : nat) : forall (x : N) s, Z.of_N x < 10 ^ Z.of_nat n ->
  (String.length (pretty_N_go x s) <= n + String.length s)%nat.
Proof.
  induction n as [|n IH]; intros x s Hx.
  - assert (x = 0)%N as -> by (change (10 ^ Z.of_nat 0) with 1 in Hx; lia). by rewrite pretty_N_go_0.
  - destruct (decide (x = 0)%N) as [->|Hne]; [rewrite pretty_N_go_0; lia|].
    rewrite pretty_N_go_step by lia.
    etrans; [apply IH|simpl; lia].
    rewrite N2Z.inj_div. apply Z.div_lt_upper_bound; [lia|].
    rewrite Nat2Z.inj_succ, Z.pow_succ_r in Hx by lia. lia.
Qed.

Lemma itoa_go z : 0 < z -> itoa z = pretty_N_go (Z.to_N z) "".
Proof. intros Hz. destruct z as [|p|p]; try lia. reflexivity. Qed.

Lemma itoa_digits z : 0 <= z -> str_all is_digit (itoa z) = true /\ dec_value 0 (itoa z) = z.
Proof.
  intros Hz. destruct (decide (z = 0)) as [->|Hne]; [done|]. rewrite itoa_go by lia.
  destruct (pretty_N_go_spec (Z.to_N z) "") as [Hd Hv]; [done|].
  split; [done|]. rewrite Hv. simpl. lia.
Qed.

Lemma itoa_length z n : 0 <= z < 10 ^ Z.of_nat n -> (0 < n)%nat ->
  (String.length (itoa z) <= n)%nat.
Proof.
  intros Hz Hn. destruct (decide (z = 0)) as [->|Hne]; [change (itoa 0) with "0"; simpl; lia|].
  rewrite itoa_go by lia. etrans; [apply (pretty_N_go_length n); rewrite Z2N.id; lia|simpl; lia].
Qed.

Lemma itoa_is_digits z : 0 <= z -> is_digits (itoa z) = true.
Proof.
  intros Hz. unfold is_digits. destruct (itoa_digits z Hz) as [-> _]. rewrite andb_true_r.
  apply negb_true_iff, String.eqb_neq. destruct (decide (z = 0)) as [->|Hne]; [done|].
  intros He. destruct (itoa_digits z Hz) as [_ Hv]. rewrite He in Hv. simpl in Hv. lia.
Qed.

Lemma Atoi_digits s : is_digits s = true -> dec_value 0 s < 2 ^ 63 -> 0 <= dec_value 0 s ->
  Atoi s = Ok (dec_value 0 s).
Proof.
  intros Hd Hlt Hge. unfold Atoi.
  assert (forall c s', s = String c s' -> is_digit c = true) as Hc.
  { intros c s' ->. unfold is_digits in Hd. simpl in Hd. by apply andb_true_iff in Hd as [? _]. }
  assert ((match s with
    | String "-" s' => (true, s') | String "+" s' => (false, s') | _ => (false, s)
    end) = (false, s)) as ->.
  { destruct s as [|[[] [] [] [] [] [] [] []] s]; try done;
      by specialize (Hc _ _ eq_refl). }
  rewrite Hd. simpl. rewrite !(proj2 (Z.ltb_ge _ _)) by lia. done.
Qed.

Lemma Atoi_itoa z : 0 <= z < 2 ^ 63 -> Atoi (itoa z) = Ok z.
Proof.
  intros Hz. destruct (itoa_digits z) as [_ Hv]; [lia|].
  rewrite Atoi_digits; rewrite ?Hv; try lia; [done|]. apply itoa_is_digits. lia.
Qed.

(** ** Zero padding *)

Lemma zeros_length n : String.length (zeros n) = n.
Proof. induction n as [|n IH]; simpl; [done|]. by rewrite IH. Qed.

Lemma zeros_digits n s : str_all is_digit (zeros n ++ s) = str_all is_digit s.
Proof. induction n as [|n IH]; simpl; [done|]. done. Qed.

Lemma zeros_value n s : dec_value 0 (zeros n ++ s) = dec_value 0 s.
Proof. induction n as [|n IH]; simpl; [done|]. done. Qed.

Lemma str_length_app s t : String.length (s ++ t) = (String.length s + String.length t)%nat.
Proof. induction s as [|c s IH]; simpl; [done|]. by rewrite IH. Qed.

Lemma str_app_assoc (s t u : string) : s ++ (t ++ u) = (s ++ t) ++ u.
Proof. induction s as [|c s IH]; [done|]. exact (f_equal (String c) IH). Qed.

Lemma dec_value_bounds s acc : str_all is_digit s = true ->
  acc * 10 ^ Z.of_nat (String.length s) <= dec_value acc s <
  (acc + 1) * 10 ^ Z.of_nat (String.length s).
Proof.
  revert acc. induction s as [|c s IH]; intros acc; simpl String.length; simpl; [intros _; lia|].
  intros [Hc Hs]%andb_true_iff. specialize (IH (10 * acc + digit_of c) Hs).
  apply digit_of_bounds in Hc. rewrite Nat2Z.inj_succ, Z.pow_succ_r by lia.
  assert (0 < 10 ^ Z.of_nat (String.length s)) as Hp by (apply Z.pow_pos_nonneg; lia). nia.
Qed.

(** Digit strings of one length compare byte by byte the way the numbers do. *)
Lemma str_ltb_dec_value s : forall t acc, str_all is_digit s = true -> str_all is_digit t = true ->
  String.length s = String.length t ->
  str_ltb s t = (dec_value acc s <? dec_value acc t).
Proof.
  induction s as [|c s IH]; intros [|d t] acc Hs Ht Hl; simpl in *; try done.
  { symmetry. apply Z.ltb_irrefl. }
  apply andb_true_iff in Hs as [Hc Hs], Ht as [Hd Ht]. injection Hl as Hl.
  pose proof (dec_value_bounds s (10 * acc + digit_of c) Hs) as Bs.
  pose proof (dec_value_bounds t (10 * acc + digit_of d) Ht) as Bt.
  rewrite Hl in Bs. set (P := 10 ^ Z.of_nat (String.length t)) in *.
  assert (0 < P) as HP by (apply Z.pow_pos_nonneg; lia).
  assert ((nat_of_ascii c <? nat_of_ascii d)%nat = (digit_of c <? digit_of d)) as ->.
  { unfold digit_of. destruct (Nat.ltb_spec (nat_of_ascii c) (nat_of_ascii d)), (Z.ltb_spec
      (Z.of_nat (nat_of_ascii c) - 48) (Z.of_nat (nat_of_ascii d) - 48)); lia. }
  assert ((nat_of_ascii c =? nat_of_ascii d)%nat = (digit_of c =? digit_of d)) as ->.
  { unfold digit_of. destruct (Nat.eqb_spec (nat_of_ascii c) (nat_of_ascii d)), (Z.eqb_spec
      (Z.of_nat (nat_of_ascii c) - 48) (Z.of_nat (nat_of_ascii d) - 48)); lia. }
  destruct (Z.ltb_spec (digit_of c) (digit_of d)); simpl.
  { symmetry. apply Z.ltb_lt. nia. }
  destruct (Z.eqb_spec (digit_of c) (digit_of d)) as [He|Hne]; simpl.
  { rewrite <- He. by apply IH. }
  symmetry. apply Z.ltb_ge. nia.
Qed.
