(* ===== verification/GoLib.v ===== *)
(** More of Go's standard library: splitting with a limit ([strings.SplitN]),
    [base64.StdEncoding], and [big.ParseFloat] with the truncation to an integer
    the memo parser applies to it.

    A [big.Float] is what the library keeps: a sign, and zero, an infinity, or a
    mantissa with a binary exponent, rounded to a precision after each
    operation. *)
From S2P Require Import Prelude GoStr Keys Shares Chains Assets Coins Txs Decimal.
Local Open Scope string_scope.
Local Open Scope Z_scope.

(** ** strings *)

(** [strings.SplitN(s, sep, n)] for [n >= 1]. *)
Fixpoint split_n (sep : ascii) (n : nat) (s : string) : list string :=
  match n with
  | O | 1%nat => [s]
  | S n' =>
      match split2 sep s with
      | (a, Some b) => a :: split_n sep n' b
      | (a, None) => [a]
      end
  end.

(** [strings.Contains(s, c)] for one character; [strings.ContainsAny]. *)
Definition contains_char (c : ascii) (s : string) : bool := negb (no_char c s).
Definition contains_any (p : ascii -> bool) (s : string) : bool :=
  match find_char p s with Some _ => true | None => false end.

(** ** encoding/base64 *)

Definition b64_alphabet : string :=
  "ABCDEFGHIJKLMNOPQRSTUVWXYZabcdefghijklmnopqrstuvwxyz0123456789+/".

Definition b64_char (v : Z) : ascii := default "A"%char (String.get (Z.to_nat v) b64_alphabet).

Definition b64_value (c : ascii) : option Z :=
  let n := Z.of_nat (nat_of_ascii c) in
  if is_upper c then Some (n - 65)
  else if is_lower c then Some (n - 71)
  else if is_digit c then Some (n + 4)
  else if Ascii.eqb c "+" then Some 62
  else if Ascii.eqb c "/" then Some 63
  else None.

Definition byte (c : ascii) : Z := Z.of_nat (nat_of_ascii c).
Definition of_byte (z : Z) : ascii := ascii_of_nat (Z.to_nat z).

Fixpoint EncodeToString (s : string) : string :=
  match s with
  | EmptyString => EmptyString
  | String a EmptyString =>
      String (b64_char (byte a / 4)) (String (b64_char (byte a mod 4 * 16)) "==")
  | String a (String b EmptyString) =>
      String (b64_char (byte a / 4))
        (String (b64_char (byte a mod 4 * 16 + byte b / 16))
           (String (b64_char (byte b mod 16 * 4)) "="))
  | String a (String b (String c s')) =>
      String (b64_char (byte a / 4))
        (String (b64_char (byte a mod 4 * 16 + byte b / 16))
           (String (b64_char (byte b mod 16 * 4 + byte c / 64))
              (String (b64_char (byte c mod 64)) (EncodeToString s'))))
  end.

(** Line breaks are skipped wherever they stand. *)
Fixpoint strip_newlines (s : string) : string :=
  match s with
  | EmptyString => EmptyString
  | String c s' =>
      if char_in 10 10 c || char_in 13 13 c then strip_newlines s' else String c (strip_newlines s')
  end.

(** Groups of four; only the last one may be padded. *)
Fixpoint b64_groups (s : string) : option string :=
  match s with
  | EmptyString => Some EmptyString
  | String c0 (String c1 (String c2 (String c3 s'))) =>
      v0 ← b64_value c0;
      v1 ← b64_value c1;
      let a := of_byte (v0 * 4 + v1 / 16) in
      if Ascii.eqb c2 "=" then
        if Ascii.eqb c3 "=" && String.eqb s' "" then Some (String a "") else None
      else
        v2 ← b64_value c2;
        let b := of_byte (v1 mod 16 * 16 + v2 / 4) in
        if Ascii.eqb c3 "=" then
          if String.eqb s' "" then Some (String a (String b "")) else None
        else
          v3 ← b64_value c3;
          rest ← b64_groups s';
          Some (String a (String b (String (of_byte (v2 mod 4 * 64 + v3)) rest)))
  | _ => None
  end.

Definition DecodeString (s : string) : outcome string :=
  match b64_groups (strip_newlines s) with
  | Some b => Ok b
  | None => Err "illegal base64 data"
  end.

Example base64_examples :
  EncodeToString "{}" = "e30=" /\ EncodeToString "abc" = "YWJj" /\ EncodeToString "a" = "YQ==" /\
  DecodeString "e30=" = Ok "{}" /\ DecodeString "YQ==" = Ok "a" /\ DecodeString "YQ=" = Err "illegal base64 data" /\
  DecodeString "YQ==YQ==" = Err "illegal base64 data".
Proof. repeat split. Qed.

(** ** math/big: Float *)

Inductive RoundingMode := ToZero | ToNearestEven.

(** The magnitude: [FFin m e] is [m * 2^e], [m > 0]. *)
Inductive Magnitude := FZero | FInf | FFin (mant exp : Z).

Definition MinExp : Z := - 2 ^ 31.
Definition MaxExp : Z := 2 ^ 31 - 1.

(** [bits.Len]. *)
Definition bitlen (m : Z) : Z := Z.log2 m + 1.

(** The [prec] leading bits of a mantissa. *)
Definition round_mant (prec : Z) (mode : RoundingMode) (m e : Z) : Z * Z :=
  let d := bitlen m - prec in
  if d <=? 0 then (m, e)
  else
    let q := m / 2 ^ d in
    let r := m mod 2 ^ d in
    let up :=
      match mode with
      | ToZero => false
      | ToNearestEven => (2 ^ d <? 2 * r) || ((2 ^ d =? 2 * r) && Z.odd q)
      end in
    ((if up then q + 1 else q), e + d).

(** [setExpAndRound]: out of the exponents' range there is zero or infinity. *)
Definition float_set (prec : Z) (mode : RoundingMode) (m e : Z) : Magnitude :=
  if e + bitlen m <? MinExp then FZero
  else if MaxExp <? e + bitlen m then FInf
  else
    let '(m', e') := round_mant prec mode m e in
    if MaxExp <? e' + bitlen m' then FInf else FFin m' e'.

(** [Mul]; zero times infinity does not occur here. *)
Definition float_mul (prec : Z) (mode : RoundingMode) (x y : Magnitude) : Magnitude :=
  match x, y with
  | FFin m e, FFin m' e' => float_set prec mode (m * m') (e + e')
  | FZero, _ | _, FZero => FZero
  | _, _ => FInf
  end.

(** [Quo] with truncation: enough bits of the quotient, then the leading ones. *)
Definition float_quo (prec : Z) (x y : Magnitude) : Magnitude :=
  match x, y with
  | FFin m e, FFin m' e' =>
      let s := Z.max 0 (prec + 1 + bitlen m' - bitlen m) in
      float_set prec ToZero (m * 2 ^ s / m') (e - e' - s)
  | FZero, _ | _, FInf => FZero
  | _, FZero | FInf, _ => FInf
  end.

(** [pow5]: a table up to [5^27], then squaring, with 64 more bits for the
    squares. *)
Fixpoint pow5_loop (prec : Z) (z f : Magnitude) (n : positive) : Magnitude :=
  match n with
  | xH => float_mul prec ToNearestEven z f
  | xO n' => pow5_loop prec z (float_mul (prec + 64) ToNearestEven f f) n'
  | xI n' =>
      pow5_loop prec (float_mul prec ToNearestEven z f) (float_mul (prec + 64) ToNearestEven f f) n'
  end.
Definition pow5 (prec n : Z) : Magnitude :=
  if n <=? 27 then FFin (5 ^ n) 0
  else
    match n - 27 with
    | Zpos p => pow5_loop prec (FFin (5 ^ 27) 0) (FFin 5 0) p
    | _ => FFin (5 ^ 27) 0
    end.

(** The mantissa: its digits as a number, how many there are, how many follow
    the point, and what is left of the input. *)
Fixpoint scan_mant (s : string) (m : Z) (count : nat) (frac : option nat) : Z * nat * nat * string :=
  match s with
  | String c s' =>
      if Ascii.eqb c "." && match frac with None => true | Some _ => false end
      then scan_mant s' m count (Some O)
      else if is_digit c then scan_mant s' (10 * m + digit_of c) (S count) (option_map S frac)
      else (m, count, default O frac, s)
  | EmptyString => (m, count, default O frac, s)
  end.

Fixpoint digit_span (s : string) : string * string :=
  match s with
  | String c s' =>
      if is_digit c then let '(a, b) := digit_span s' in (String c a, b) else (EmptyString, s)
  | EmptyString => (EmptyString, EmptyString)
  end.

(** [strconv.ParseInt(s, 10, 64)] has the values and errors of [Atoi]. *)
Definition ParseInt (s : string) : outcome Z := Atoi s.

(** The exponent, whether its base is two, and what is left. *)
Definition scan_exponent (s : string) : outcome (Z * bool * string) :=
  let digits (base2 : bool) (s : string) :=
    let '(neg, s) :=
      match s with
      | String "+" s' => (false, s')
      | String "-" s' => (true, s')
      | _ => (false, s)
      end in
    let '(ds, rest) := digit_span s in
    if String.eqb ds "" then Err "number has no digits"
    else
      exp ← ParseInt (if (neg : bool) then String "-" ds else ds);
      Ok (exp, base2, rest) in
  match s with
  | String "e" s' | String "E" s' => digits false s'
  | String "p" s' | String "P" s' => digits true s'
  | _ => Ok (0, false, s)
  end.

Definition float_scan (s : string) : outcome (Magnitude * string) :=
  let '(m, count, fcount, s) := scan_mant s 0 O None in
  if (count =? 0)%nat then Err "number has no digits"
  else
    '(exp, base2, rest) ← scan_exponent s;
    if m =? 0 then Ok (FZero, rest)
    else
      let d := - Z.of_nat fcount in
      let exp5 := if (base2 : bool) then d else i64 (d + exp) in
      let exp2 := i64 (bitlen m + d + exp) in
      if (exp2 <? MinExp) || (MaxExp <? exp2) then Err "exponent overflow"
      else
        let z := FFin m (exp2 - bitlen m) in
        if exp5 =? 0 then Ok (float_set 64 ToZero m (exp2 - bitlen m), rest)
        else if exp5 <? 0 then Ok (float_quo 64 z (pow5 128 (- exp5)), rest)
        else Ok (float_mul 64 ToZero z (pow5 128 exp5), rest).

(** [big.ParseFloat(s, 10, 0, big.ToZero)]: precision 64. *)
Definition ParseFloat (s : string) : outcome (bool * Magnitude) :=
  if existsb (String.eqb s) ["Inf"; "inf"; "+Inf"; "+inf"] then Ok (false, FInf)
  else if existsb (String.eqb s) ["-Inf"; "-inf"] then Ok (true, FInf)
  else if String.eqb s "" then Err "EOF"
  else
    let '(neg, s) :=
      match s with
      | String "+" s' => (false, s')
      | String "-" s' => (true, s')
      | _ => (false, s)
      end in
    '(x, rest) ← float_scan s;
    if String.eqb rest "" then Ok (neg, x) else Err "expected end of string".

(** [f.Int(i)] on an [i] that holds zero: an infinity leaves it. *)
Definition Float_Int (f : bool * Magnitude) : Z :=
  let '(neg, x) := f in
  let v :=
    match x with
    | FFin m e => if 0 <=? e then m * 2 ^ e else m / 2 ^ (- e)
    | _ => 0
    end in
  if (neg : bool) then - v else v.

Definition parse_float_int (s : string) : outcome Z := Float_Int <$> ParseFloat s.

Example parse_float_examples :
  map parse_float_int ["123"; "1e8"; "1.5e3"; "12.99"; ".5"; "5."; "2p3"; "1E+2"; "-7.2"; "1e-3"; "inf"; "00012"] =
  map Ok [123; 100000000; 1500; 12; 0; 5; 16; 100; -7; 0; 0; 12] /\
  parse_float_int "18446744073709551617" = Ok 18446744073709551616 /\
  parse_float_int "1e60" = Ok (10 ^ 60 - 10 ^ 60 mod 2 ^ 136) /\
  parse_float_int "1.2.3" = Err "expected end of string" /\
  parse_float_int "e5" = Err "number has no digits" /\
  parse_float_int "1e" = Err "number has no digits" /\
  parse_float_int "1e900000000" = Ok 0.
Proof. vm_compute. repeat split. Qed.

(** ** Base64 decodes what it encodes *)

Lemma b64_char_spec v : 0 <= v < 64 ->
  Ascii.eqb (b64_char v) "=" = false /\ b64_value (b64_char v) = Some v /\
  char_in 10 10 (b64_char v) || char_in 13 13 (b64_char v) = false /\
  Ascii.eqb (b64_char v) ":" = false /\ Ascii.eqb (b64_char v) "|" = false.
Proof.
  intros Hv. assert (Forall (fun n => let v := Z.of_nat n in
      Ascii.eqb (b64_char v) "=" = false /\ b64_value (b64_char v) = Some v /\
      char_in 10 10 (b64_char v) || char_in 13 13 (b64_char v) = false /\
      Ascii.eqb (b64_char v) ":" = false /\ Ascii.eqb (b64_char v) "|" = false) (seq 0 64)) as Hall.
  { repeat (apply Forall_cons_2; [vm_compute; repeat split|]). apply Forall_nil_2. }
  rewrite Forall_forall in Hall. specialize (Hall (Z.to_nat v)).
  cbv zeta in Hall. rewrite Z2Nat.id in Hall by lia. apply Hall, elem_of_seq. lia.
Qed.

Lemma byte_bounds c : 0 <= byte c < 256.
Proof. unfold byte. pose proof (nat_ascii_bounded c). lia. Qed.

Lemma of_byte_byte z c : z = byte c -> of_byte z = c.
Proof. intros ->. unfold of_byte, byte. by rewrite Nat2Z.id, ascii_nat_embedding. Qed.

(** Induction by groups of three. *)
Lemma string_ind3 (Q : string -> Prop) :
  Q "" -> (forall a, Q (String a "")) -> (forall a b, Q (String a (String b ""))) ->
  (forall a b c s, Q s -> Q (String a (String b (String c s)))) -> forall s, Q s.
Proof.
  intros H0 H1 H2 H3. fix IH 1. intros [|a [|b [|c s] ] ]; [apply H0|apply H1|apply H2|].
  apply H3, IH.
Qed.

(** The four values of a group are below 64. *)
Lemma b64_bounds a b c : 0 <= byte a / 4 < 64 /\ 0 <= byte a mod 4 * 16 + byte b / 16 < 64 /\
  0 <= byte b mod 16 * 4 + byte c / 64 < 64 /\ 0 <= byte c mod 64 < 64 /\
  0 <= byte a mod 4 * 16 < 64 /\ 0 <= byte b mod 16 * 4 < 64.
Proof.
  pose proof (byte_bounds a). pose proof (byte_bounds b). pose proof (byte_bounds c).
  Z.to_euclidean_division_equations. lia.
Qed.

(** The characters of a group: what holds of the alphabet and of the padding. *)
Lemma EncodeToString_all (p : ascii -> bool) s :
  (forall v, 0 <= v < 64 -> p (b64_char v) = true) -> p "="%char = true ->
  str_all p (EncodeToString s) = true.
Proof.
  intros Hp Heq. induction s as [|a|a b|a b c s IH] using string_ind3; cbn [EncodeToString str_all].
  - done.
  - destruct (b64_bounds a a a) as (? & ? & ? & ? & ? & ?). by rewrite !Hp, !Heq by done.
  - destruct (b64_bounds a b b) as (? & ? & ? & ? & ? & ?). by rewrite !Hp, !Heq by done.
  - destruct (b64_bounds a b c) as (? & ? & ? & ? & ? & ?). by rewrite !Hp, IH by done.
Qed.

Lemma strip_newlines_id s :
  str_all (fun c => negb (char_in 10 10 c || char_in 13 13 c)) s = true -> strip_newlines s = s.
Proof.
  induction s as [|c s IH]; simpl; [done|]. intros [Hc%negb_true_iff Hs]%andb_true_iff.
  by rewrite Hc, IH.
Qed.

Lemma b64_groups_encode s : b64_groups (EncodeToString s) = Some s.
Proof.
  induction s as [|a|a b|a b c s IH] using string_ind3; cbn [EncodeToString b64_groups].
  - done.
  - destruct (b64_bounds a a a) as (H0 & _ & _ & _ & H1 & _).
    rewrite (proj1 (proj2 (b64_char_spec _ H0))), (proj1 (proj2 (b64_char_spec _ H1))). simpl.
    f_equal. f_equal. apply of_byte_byte. pose proof (byte_bounds a).
    Z.to_euclidean_division_equations. lia.
  - destruct (b64_bounds a b b) as (H0 & H1 & _ & _ & _ & H2).
    rewrite (proj1 (proj2 (b64_char_spec _ H0))), (proj1 (proj2 (b64_char_spec _ H1))).
    rewrite (proj1 (b64_char_spec _ H2)), (proj1 (proj2 (b64_char_spec _ H2))). cbn [mbind option_bind].
    simpl. pose proof (byte_bounds a). pose proof (byte_bounds b).
    f_equal. f_equal; [|f_equal]; apply of_byte_byte; Z.to_euclidean_division_equations; lia.
  - destruct (b64_bounds a b c) as (H0 & H1 & H2 & H3 & _ & _).
    rewrite (proj1 (proj2 (b64_char_spec _ H0))), (proj1 (proj2 (b64_char_spec _ H1))).
    rewrite (proj1 (b64_char_spec _ H2)), (proj1 (proj2 (b64_char_spec _ H2))).
    rewrite (proj1 (b64_char_spec _ H3)), (proj1 (proj2 (b64_char_spec _ H3))), IH.
    cbn [mbind option_bind]. pose proof (byte_bounds a). pose proof (byte_bounds b).
    pose proof (byte_bounds c).
    f_equal. f_equal; [|f_equal; [|f_equal] ];
      apply of_byte_byte; Z.to_euclidean_division_equations; lia.
Qed.

Lemma DecodeString_EncodeToString s : DecodeString (EncodeToString s) = Ok s.
Proof.
  unfold DecodeString. rewrite strip_newlines_id, b64_groups_encode; [done|].
  apply EncodeToString_all; [|done]. intros v Hv.
  by destruct (b64_char_spec v Hv) as (_ & _ & -> & _).
Qed.
