(* ===== verification/Addresses.v ===== *)
(** Addresses of the chains: [common/address.go], [address_mainnet.go],
    [address_mocknet.go], [common/chain_network.go], and the address prefixes of
    [common/chain.go].

    The decoders of the chains' address formats are library code, so they are
    parameters; what the sources make of their answers is modelled. *)
From S2P Require Import Prelude GoStr Keys Shares Chains Assets Coins Txs Decimal GoLib.
Local Open Scope string_scope.

(** type ChainNetwork *)
Inductive ChainNetwork := TestNet | MainNet | MockNet | StageNet | ChainNet.

#[export] Instance ChainNetwork_eq_dec : EqDecision ChainNetwork.
Proof. solve_decision. Defined.

Definition SoftEquals (net net2 : ChainNetwork) : bool :=
  if bool_decide (net = MainNet) && bool_decide (net2 = MainNet) then true
  else negb (bool_decide (net = MainNet)) && negb (bool_decide (net2 = MainNet)).

(** The parameter sets of the Bitcoin-family libraries, and the kinds of
    address their decoders tell apart. *)
Inductive NetParams := MainNetParams | TestNetParams | RegressionNetParams.
Inductive AddrKind := AddressPubKey | LegacyAddress | OtherAddress.

(** A decoder returns an error as [None]. *)
Class AddressLib : Type := {
  bech32_Decode : string -> option string;            (* the prefix *)
  bech32_DecodeGeneric : string -> option string;
  base58_Decode : string -> option string;
  xrp_Base58CheckDecode : string -> option string;
  eth_IsHexAddress : string -> bool;
  ada_NewAddress : string -> bool;
  zec_DecodeAddress : string -> string -> bool;       (* address, network *)
  btc_DecodeAddress : string -> NetParams -> option AddrKind;
  ltc_DecodeAddress : string -> NetParams -> option AddrKind;
  ltctx_DecodeAddress : string -> NetParams -> option AddrKind;
  bch_DecodeAddress : string -> NetParams -> option AddrKind;
  doge_DecodeAddress : string -> NetParams -> option AddrKind;
  Bech32HRPSegwit : Chain -> NetParams -> string;
  GetBech32AccountAddrPrefix : string;
  CurrentChainNetwork : ChainNetwork                  (* chosen by build tags *)
}.

Section addresses.
Context {L : AddressLib}.

Definition decodes {A} (r : option A) : bool := match r with Some _ => true | None => false end.

(** [prefix, _, _ := bech32.Decode(...)] *)
Definition bech32_prefix (address : string) : string := default "" (bech32_Decode address).

(** ** Formats *)

(** [^[:_A-Za-z0-9]*$] *)
Definition alphaNum_char (c : ascii) : bool :=
  Ascii.eqb c ":" || Ascii.eqb c "_" || is_upper c || is_lower c || is_digit c.

Definition first_byte (s : string) : Z := match s with String c _ => byte c | _ => 0 end.

Definition IsValidXRPAddress (address : string) : bool :=
  match xrp_Base58CheckDecode address with
  | None => false
  | Some decoded => (str_len decoded =? 21)%Z && (first_byte decoded =? 0)%Z
  end.

Definition IsValidTRONAddress (address : string) : bool :=
  if negb (str_len address =? 34)%Z || negb (String.prefix "T" address) then false
  else
    match base58_Decode address with
    | None => false
    | Some decoded => (str_len decoded =? 25)%Z && (first_byte decoded =? 65)%Z
    end.

Definition IsValidSOLAddress (address : string) : bool :=
  match base58_Decode address with
  | None => false
  | Some decoded => (str_len decoded =? 32)%Z
  end.

(** The network of the first prefix an address has. *)
Fixpoint zec_network (prefixes : list (string * string)) (address : string) : option string :=
  match prefixes with
  | [] => None
  | (prefix, network) :: prefixes' =>
      if String.prefix prefix address then Some network else zec_network prefixes' address
  end.

Definition IsValidZECAddress (address : string) : bool :=
  match
    zec_network
      [("t1", "mainnet"); ("t2", "testnet3"); ("t3", "mainnet"); ("tm", "testnet3");
       ("tex1", "mainnet"); ("textest1", "testnet3")] address
  with
  | None => false
  | Some network => zec_DecodeAddress address network
  end.

(** [hex.DecodeString(address[2:])] succeeds. *)
Definition hex_decodes (s : string) : bool := Z.even (str_len s) && str_all is_hex_digit s.

Definition IsValidSUIAddress (address : string) : bool :=
  if negb (str_len address =? 66)%Z || negb (String.prefix "0x" address) then false
  else hex_decodes (String.substring 2 64 address).

Definition IsValidADAAddress (address : string) : bool :=
  if negb (String.prefix "addr1" address) && negb (String.prefix "addr_test1" address) then false
  else ada_NewAddress address.

(** [case *AddressPubKey: default: if err == nil { return }] *)
Definition accepted (r : option AddrKind) : bool :=
  match r with Some AddressPubKey | None => false | Some _ => true end.

(** The two files named [newAddress]: build tags choose one. *)
Definition newAddress_mainnet (address : string) : outcome Address :=
  if accepted (btc_DecodeAddress address MainNetParams) then Ok address
  else if accepted (ltctx_DecodeAddress address MainNetParams) then Ok address
  else if accepted (bch_DecodeAddress address MainNetParams) then Ok address
  else if accepted (doge_DecodeAddress address MainNetParams) then Ok address
  else
    match base58_Decode address with
    | Some res =>
        if (str_len res =? 32)%Z then Ok address
        else Err ("address format not supported: " ++ address)
    | None => Err ("address format not supported: " ++ address)
    end.

Definition newAddress_mocknet (address : string) : outcome Address :=
  if accepted (btc_DecodeAddress address TestNetParams) then Ok address
  else if accepted (ltctx_DecodeAddress address TestNetParams) then Ok address
  else if accepted (bch_DecodeAddress address TestNetParams) then Ok address
  else if accepted (bch_DecodeAddress address RegressionNetParams) then Ok address
  else if accepted (doge_DecodeAddress address TestNetParams) then Ok address
  else if accepted (doge_DecodeAddress address RegressionNetParams) then Ok address
  else
    match base58_Decode address with
    | Some res =>
        if (str_len res =? 32)%Z then Ok address
        else Err ("address format not supported: " ++ address)
    | None => Err ("address format not supported: " ++ address)
    end.

Definition newAddress (address : string) : outcome Address :=
  match CurrentChainNetwork with
  | MockNet => newAddress_mocknet address
  | _ => newAddress_mainnet address
  end.

Definition NewAddress (address : string) : outcome Address :=
  if (str_len address =? 0)%Z then Ok NoAddress
  else if negb (str_all alphaNum_char address) then
    Err ("address format not supported: " ++ address)
  else if IsValidTRONAddress address then Ok address
  else if IsValidADAAddress address then Ok address
  else if eth_IsHexAddress address then Ok address
  else if decodes (bech32_Decode address) then Ok address
  else if IsValidXRPAddress address then Ok address
  else if IsValidSOLAddress address then Ok address
  else if IsValidZECAddress address then Ok address
  else if IsValidSUIAddress address then Ok address
  else newAddress address.

(** [IsValidBCHAddress]: the first network that decodes it decides. *)
Definition IsValidBCHAddress (addr : Address) : bool :=
  match bch_DecodeAddress addr MainNetParams with
  | Some k => match k with LegacyAddress => false | _ => true end
  | None =>
    match bch_DecodeAddress addr TestNetParams with
    | Some k => match k with LegacyAddress => false | _ => true end
    | None =>
      match bch_DecodeAddress addr RegressionNetParams with
      | Some k => match k with LegacyAddress => false | _ => true end
      | None => false
      end
    end
  end.

(** ** Chains of an address *)

Definition one_of (prefix : string) (prefixes : list string) : bool :=
  existsb (String.eqb prefix) prefixes.

Definition Address_IsChain (addr : Address) (chain : Chain) : bool :=
  if IsEVM chain then (str_len addr =? 42)%Z && String.prefix "0x" addr
  else
    switch chain
      [ ([XRPChain], IsValidXRPAddress addr);
        ([TRONChain], IsValidTRONAddress addr);
        ([GAIAChain], String.eqb (bech32_prefix addr) "cosmos");
        ([NOBLEChain], String.eqb (bech32_prefix addr) "noble");
        ([THORChain], one_of (bech32_prefix addr) ["thor"; "tthor"; "sthor"; "cthor"]);
        ([BTCChain],
          (decodes (bech32_Decode addr) && one_of (bech32_prefix addr) ["bc"; "tb"]) ||
          decodes (btc_DecodeAddress addr MainNetParams) ||
          decodes (btc_DecodeAddress addr TestNetParams));
        ([LTCChain],
          (decodes (bech32_DecodeGeneric addr) &&
           one_of (default "" (bech32_DecodeGeneric addr)) ["ltc"; "tltc"; "rltc"]) ||
          decodes (ltc_DecodeAddress addr MainNetParams) ||
          decodes (ltc_DecodeAddress addr TestNetParams));
        ([BCHChain],
          decodes (bch_DecodeAddress addr MainNetParams) ||
          decodes (bch_DecodeAddress addr TestNetParams) ||
          decodes (bch_DecodeAddress addr RegressionNetParams));
        ([DOGEChain],
          decodes (doge_DecodeAddress addr MainNetParams) ||
          decodes (doge_DecodeAddress addr TestNetParams) ||
          decodes (doge_DecodeAddress addr RegressionNetParams));
        ([SOLChain], IsValidSOLAddress addr);
        ([ZECChain], IsValidZECAddress addr);
        ([SUIChain], IsValidSUIAddress addr);
        ([ADAChain], IsValidADAAddress addr) ]
      true.

(** The loop of [GetChain]. *)
Fixpoint first_chain (chains : list Chain) (addr : Address) : Chain :=
  match chains with
  | [] => EmptyChain
  | chain :: chains' =>
      if Address_IsChain addr chain then chain else first_chain chains' addr
  end.
Definition Address_GetChain (addr : Address) : Chain :=
  first_chain
    [ETHChain; THORChain; BTCChain; LTCChain; BCHChain; DOGEChain; GAIAChain; AVAXChain; XRPChain;
     ZECChain; ADAChain] addr.

(** ** Networks of an address *)

(** [mainNetPredicate] *)
Definition mainNetPredicate : ChainNetwork :=
  match CurrentChainNetwork with MockNet => MainNet | n => n end.

(** The decoders tried after the bech32 prefix. *)
Definition network_by_decoding (decode : NetParams -> option AddrKind) : ChainNetwork :=
  if decodes (decode MainNetParams) then mainNetPredicate
  else if decodes (decode TestNetParams) then MockNet
  else if decodes (decode RegressionNetParams) then MockNet
  else CurrentChainNetwork.

Definition GetNetwork (addr : Address) (chain : Chain) : ChainNetwork :=
  let currentNetwork := CurrentChainNetwork in
  if IsEVM chain then currentNetwork
  else
    switch chain
      [ ([THORChain],
          let prefix := bech32_prefix addr in
          if equal_fold prefix "thor" then mainNetPredicate
          else if equal_fold prefix "tthor" then MockNet
          else if equal_fold prefix "sthor" then StageNet
          else if equal_fold prefix "cthor" then ChainNet
          else currentNetwork);
        ([BTCChain],
          switch (bech32_prefix addr)
            [(["bc"], mainNetPredicate); (["bcrt"; "tb"], MockNet)]
            (network_by_decoding (btc_DecodeAddress addr)));
        ([LTCChain],
          switch (default "" (bech32_DecodeGeneric addr))
            [(["ltc"], mainNetPredicate); (["rltc"; "tltc"], MockNet)]
            (network_by_decoding (ltc_DecodeAddress addr)));
        ([BCHChain], network_by_decoding (bch_DecodeAddress addr));
        ([DOGEChain], network_by_decoding (doge_DecodeAddress addr));
        ([SOLChain; SUIChain], currentNetwork);
        ([ZECChain],
          if negb (Address_IsChain addr chain) then currentNetwork
          else
            match
              zec_network
                [("tex1", "main"); ("t1", "main"); ("t3", "main"); ("textest1", "mock");
                 ("tm", "mock"); ("t2", "mock")] addr
            with
            | Some n => if String.eqb n "main" then mainNetPredicate else MockNet
            | None => currentNetwork
            end);
        ([ADAChain],
          if String.prefix "addr1" addr then mainNetPredicate
          else if String.prefix "addr_test1" addr then MockNet
          else currentNetwork) ]
      currentNetwork.

Definition Address_AccAddress {K : SdkKeys} (addr : Address) : outcome AccAddress :=
  acc_from_bech32 (Address_String addr).

(** ** The address prefixes of [common/chain.go] *)
Definition AddressPrefix (c : Chain) (cn : ChainNetwork) : string :=
  if IsEVM c then "0x"
  else
    match cn with
    | MockNet =>
        switch c
          [ ([GAIAChain], "cosmos"); ([NOBLEChain], "noble");
            ([THORChain], GetBech32AccountAddrPrefix);
            ([BTCChain; LTCChain; DOGEChain], Bech32HRPSegwit c RegressionNetParams);
            ([ZECChain], "tm"); ([ADAChain], "addr_test1") ] ""
    | MainNet | StageNet | ChainNet =>
        switch c
          [ ([GAIAChain], "cosmos"); ([NOBLEChain], "noble");
            ([THORChain], GetBech32AccountAddrPrefix);
            ([BTCChain; LTCChain; DOGEChain], Bech32HRPSegwit c MainNetParams);
            ([ZECChain], "t1"); ([ADAChain], "addr1") ] ""
    | TestNet => ""
    end.

Definition IsValidAddress (c : Chain) (addr : Address) : bool :=
  String.prefix (AddressPrefix c CurrentChainNetwork) addr.

(** ** Lemmas *)

(** What a parser accepts it returns unchanged, and it has only the characters
    of the format. *)
Lemma newAddress_id s a : newAddress s = Ok a -> a = s.
Proof.
  unfold newAddress, newAddress_mainnet, newAddress_mocknet.
  repeat case_match; by intros [= ->].
Qed.

Lemma str_len_0 s : (str_len s =? 0)%Z = true -> s = "".
Proof. destruct s; [done|]. intros H. apply Z.eqb_eq in H. unfold str_len in H. simpl in H. lia. Qed.

Lemma NewAddress_id s a : NewAddress s = Ok a -> a = s.
Proof.
  unfold NewAddress. destruct (str_len s =? 0)%Z eqn:Hl.
  { intros [= <-]. by rewrite (str_len_0 s Hl). }
  repeat case_if; try (by intros [= ->]); try done. apply newAddress_id.
Qed.

Lemma NewAddress_chars s a : NewAddress s = Ok a -> str_all alphaNum_char a = true.
Proof.
  intros Hs. rewrite (NewAddress_id s a Hs). revert Hs. unfold NewAddress.
  destruct (str_len s =? 0)%Z eqn:Hl; [by rewrite (str_len_0 s Hl)|].
  by destruct (str_all alphaNum_char s).
Qed.

Lemma NewAddress_idemp s a : NewAddress s = Ok a -> NewAddress a = Ok a.
Proof. intros Hs. by rewrite (NewAddress_id s a Hs) at 1. Qed.

Lemma NewAddress_nil : NewAddress "" = Ok NoAddress.
Proof. done. Qed.
End addresses.

(** A transparent library for computed examples: a bech32 string is a prefix, a
    [1] and data; no other format decodes, and the network is the main one. *)
Definition addr_std : AddressLib := {|
  bech32_Decode s :=
    match split2 "1" s with (p, Some _) => if String.eqb p "" then None else Some p | _ => None end;
  bech32_DecodeGeneric s :=
    match split2 "1" s with (p, Some _) => if String.eqb p "" then None else Some p | _ => None end;
  base58_Decode _ := None;
  xrp_Base58CheckDecode _ := None;
  eth_IsHexAddress s := (str_len s =? 42)%Z && String.prefix "0x" s;
  ada_NewAddress _ := false;
  zec_DecodeAddress _ _ := false;
  btc_DecodeAddress _ _ := None;
  ltc_DecodeAddress _ _ := None;
  ltctx_DecodeAddress _ _ := None;
  bch_DecodeAddress _ _ := None;
  doge_DecodeAddress _ _ := None;
  Bech32HRPSegwit c n :=
    match n with MainNetParams => "bc" | _ => "bcrt" end;
  GetBech32AccountAddrPrefix := "thor";
  CurrentChainNetwork := MainNet
|}.

Example address_examples :
  NewAddress (L := addr_std) "thor1abc" = Ok "thor1abc" /\
  Address_GetChain (L := addr_std) "thor1abc" = THORChain /\
  Address_GetChain (L := addr_std) "bc1xyz" = BTCChain /\
  NewAddress (L := addr_std) "no/slash" = Err "address format not supported: no/slash" /\
  NewAddress (L := addr_std) "plain" = Err "address format not supported: plain".
Proof. repeat split. Qed.
