(* ===== verification/Voters.v ===== *)
(** Voting: the majority thresholds of [x/thorchain/types/types.go] and the
    voters that collect signatures against them: bans, errata, network fees,
    solvency reports, keysign failures and key generation
    ([type_ban.go], [type_errata.go], [type_observed_network_fee_voter.go],
    [type_solvency_voter.go], [type_tss_keysign_fail.go], [type_tss.go]), and
    the quorum attestations of [handler_quorum_helpers.go]. *)
From S2P Require Import Prelude SdkMath GoStr Keys Shares Chains Assets Coins Nodes Txs.
Local Open Scope string_scope.
Local Open Scope Z_scope.

(** ** Majorities (Go [int] arithmetic) *)

Definition SuperMajorityFactor : Z := 3.
Definition SimpleMajorityFactor : Z := 2.

Definition HasSuperMajority (signers total : Z) : bool :=
  if total <? signers then false
  else if signers <=? 0 then false
  else
    let min := Z.quot (i64 (total * 2)) SuperMajorityFactor in
    let min := if 0 <? Z.rem (i64 (total * 2)) SuperMajorityFactor then i64 (min + 1) else min in
    min <=? signers.

Definition HasSimpleMajority (signers total : Z) : bool :=
  if total <? signers then false
  else if signers <=? 0 then false
  else
    let min := Z.quot total SimpleMajorityFactor in
    let min := if 0 <? Z.rem total SimpleMajorityFactor then i64 (min + 1) else min in
    min <=? signers.

Definition HasMinority (signers total : Z) : bool :=
  if total <? signers then false
  else if signers <=? 0 then false
  else
    let min := Z.quot total SuperMajorityFactor in
    let min := if 0 <? Z.rem total SuperMajorityFactor then i64 (min + 1) else min in
    min <=? signers.

(** ** Voters *)

Record BanVoter := mkBanVoter {
  bvNodeAddress : AccAddress;
  bvBlockHeight : Z;
  bvSigners : list string
}.

Record ErrataTxVoter := mkErrataTxVoter {
  evTxID : TxID;
  evChain : Chain;
  evBlockHeight : Z;
  evSigners : list string
}.

Record ObservedNetworkFeeVoter := mkObservedNetworkFeeVoter {
  nfBlockHeight : Z;
  ReportBlockHeight : Z;
  nfChain : Chain;
  nfSigners : list string;
  FeeRate : Z;
  TransactionSize : Z
}.

Record SolvencyVoter := mkSolvencyVoter {
  svId : TxID;
  svChain : Chain;
  svPubKey : PubKey;
  svCoins : Coins;
  svHeight : Z;
  ConsensusBlockHeight : Z;
  svSigners : list string
}.

Record TssKeysignFailVoter := mkTssKeysignFailVoter {
  kfID : string;
  kfHeight : Z;
  kfSigners : list string;
  LastRoundCount : Z
}.

Record TssVoter := mkTssVoter {
  tvID : string;
  PoolPubKey : PubKey;
  tvPubKeys : list string;
  tvBlockHeight : Z;
  tvChains : list string;
  tvSigners : list string;
  MajorityConsensusBlockHeight : Z;
  Secp256K1Signatures : list string;
  PoolPubKeyEddsa : PubKey
}.

Definition NewBanVoter (addr : AccAddress) : BanVoter := mkBanVoter addr 0 [].
Definition NewErrataTxVoter (txID : TxID) (chain : Chain) : ErrataTxVoter :=
  mkErrataTxVoter txID chain 0 [].
Definition NewObservedNetworkFeeVoter (reportBlockHeight : Z) (chain : Chain) :
    ObservedNetworkFeeVoter :=
  mkObservedNetworkFeeVoter 0 reportBlockHeight chain [] 0 0.
Definition NewSolvencyVoter (id : TxID) (chain : Chain) (pubKey : PubKey) (coins : Coins)
    (height : Z) : SolvencyVoter :=
  mkSolvencyVoter id chain pubKey coins height 0 [].
Definition NewTssKeysignFailVoter (id : string) (height : Z) : TssKeysignFailVoter :=
  mkTssKeysignFailVoter id height [] 0.
Definition NewTssVoter (id : string) (pks : list string) (pool poolPubKeyEddsa : PubKey) :
    TssVoter :=
  mkTssVoter id pool pks 0 [] [] 0 [] poolPubKeyEddsa.

(** What the voters share: a list of signers that [Sign] appends to. *)
Class Voter (V : Type) : Type := {
  v_signers : V -> list string;
  v_set_signers : V -> list string -> V
}.
Class VoterOk (V : Type) `{!Voter V} : Prop := {
  v_get_set (m : V) l : v_signers (v_set_signers m l) = l;
  v_set_get (m : V) : v_set_signers m (v_signers m) = m
}.

#[export] Instance BanVoter_voter : Voter BanVoter := {
  v_signers := bvSigners;
  v_set_signers m l := mkBanVoter (bvNodeAddress m) (bvBlockHeight m) l
}.
#[export] Instance ErrataTxVoter_voter : Voter ErrataTxVoter := {
  v_signers := evSigners;
  v_set_signers m l := mkErrataTxVoter (evTxID m) (evChain m) (evBlockHeight m) l
}.
#[export] Instance ObservedNetworkFeeVoter_voter : Voter ObservedNetworkFeeVoter := {
  v_signers := nfSigners;
  v_set_signers m l := mkObservedNetworkFeeVoter (nfBlockHeight m) (ReportBlockHeight m)
    (nfChain m) l (FeeRate m) (TransactionSize m)
}.
#[export] Instance SolvencyVoter_voter : Voter SolvencyVoter := {
  v_signers := svSigners;
  v_set_signers m l := mkSolvencyVoter (svId m) (svChain m) (svPubKey m) (svCoins m)
    (svHeight m) (ConsensusBlockHeight m) l
}.
#[export] Instance TssKeysignFailVoter_voter : Voter TssKeysignFailVoter := {
  v_signers := kfSigners;
  v_set_signers m l := mkTssKeysignFailVoter (kfID m) (kfHeight m) l (LastRoundCount m)
}.
#[export] Instance ObservedTx_voter : Voter ObservedTx := {
  v_signers := otSigners;
  v_set_signers := with_otSigners
}.
#[export] Instance BanVoter_ok : VoterOk BanVoter.
Proof. split; [done|by intros []]. Qed.
#[export] Instance ErrataTxVoter_ok : VoterOk ErrataTxVoter.
Proof. split; [done|by intros []]. Qed.
#[export] Instance ObservedNetworkFeeVoter_ok : VoterOk ObservedNetworkFeeVoter.
Proof. split; [done|by intros []]. Qed.
#[export] Instance SolvencyVoter_ok : VoterOk SolvencyVoter.
Proof. split; [done|by intros []]. Qed.
#[export] Instance TssKeysignFailVoter_ok : VoterOk TssKeysignFailVoter.
Proof. split; [done|by intros []]. Qed.
#[export] Instance ObservedTx_ok : VoterOk ObservedTx.
Proof. split; [done|by intros []]. Qed.

(** [len(l)]. *)
Definition len {A} (l : list A) : Z := Z.of_nat (length l).

Section voters.
Context {K : SdkKeys}.

(** The methods all the voters spell out in the same words. *)
Definition GetSigners {V} `{!Voter V} (m : V) : list AccAddress := parse_signers (v_signers m).

Definition HasSigned {V} `{!Voter V} (m : V) (signer : AccAddress) : bool :=
  existsb (fun sign => acc_equals sign signer) (GetSigners m).

Definition Sign {V} `{!Voter V} (m : V) (signer : AccAddress) : bool * V :=
  if HasSigned m signer then (false, m)
  else (true, v_set_signers m (v_signers m ++ [acc_string signer])%list).

(** The loop that counts the signers that are active nodes. *)
Definition count_node_keys (nas : NodeAccounts) (signers : list AccAddress) : Z :=
  foldl (fun count signer => if IsNodeKeys nas signer then i64 (count + 1) else count) 0 signers.

(** *** Ban *)
Definition BanVoter_Valid (m : BanVoter) : goerr :=
  if acc_empty (bvNodeAddress m) then Some "node address is empty"
  else if bvBlockHeight m <=? 0 then Some "block height cannot be equal to or less than zero"
  else None.
Definition BanVoter_IsEmpty (m : BanVoter) : bool := acc_empty (bvNodeAddress m).
Definition BanVoter_GetSigners (m : BanVoter) : list AccAddress := GetSigners m.
Definition BanVoter_HasSigned (m : BanVoter) signer : bool := HasSigned m signer.
Definition BanVoter_Sign (m : BanVoter) signer : BanVoter :=
  if negb (BanVoter_HasSigned m signer) then (Sign m signer).2 else m.
Definition BanVoter_HasConsensus (m : BanVoter) (nodeAccounts : NodeAccounts) : bool :=
  HasSuperMajority (count_node_keys nodeAccounts (GetSigners m)) (len nodeAccounts).

(** *** Errata *)
Definition ErrataTxVoter_GetSigners (m : ErrataTxVoter) : list AccAddress := GetSigners m.
Definition ErrataTxVoter_HasSigned (m : ErrataTxVoter) signer : bool := HasSigned m signer.
Definition ErrataTxVoter_Sign (m : ErrataTxVoter) signer : bool * ErrataTxVoter := Sign m signer.
Definition ErrataTxVoter_HasConsensus (m : ErrataTxVoter) (nas : NodeAccounts) : bool :=
  HasSuperMajority (count_node_keys nas (GetSigners m)) (len nas).
Definition ErrataTxVoter_Empty (m : ErrataTxVoter) : bool :=
  TxID_IsEmpty (evTxID m) || Chain_IsEmpty (evChain m).

(** *** Network fees *)
Definition ObservedNetworkFeeVoter_ID (m : ObservedNetworkFeeVoter) : string :=
  Chain_String (nfChain m) ++ "-" ++ itoa (ReportBlockHeight m) ++ "-" ++ itoa (FeeRate m) ++
  "-" ++ itoa (TransactionSize m).
Definition ObservedNetworkFeeVoter_GetSigners (m : ObservedNetworkFeeVoter) : list AccAddress :=
  GetSigners m.
Definition ObservedNetworkFeeVoter_HasSigned (m : ObservedNetworkFeeVoter) signer : bool :=
  HasSigned m signer.
Definition ObservedNetworkFeeVoter_Sign (m : ObservedNetworkFeeVoter) signer :
    bool * ObservedNetworkFeeVoter := Sign m signer.
Definition ObservedNetworkFeeVoter_HasConsensus (m : ObservedNetworkFeeVoter)
    (nas : NodeAccounts) : bool :=
  HasSuperMajority (count_node_keys nas (GetSigners m)) (len nas).
Definition ObservedNetworkFeeVoter_IsEmpty (m : ObservedNetworkFeeVoter) : bool :=
  Chain_IsEmpty (nfChain m) && (ReportBlockHeight m =? 0).
Definition ObservedNetworkFeeVoter_String (m : ObservedNetworkFeeVoter) : string :=
  if 0 <? FeeRate m then
    Chain_String (nfChain m) ++ "-" ++ itoa (ReportBlockHeight m) ++ "-" ++ itoa (FeeRate m)
  else Chain_String (nfChain m) ++ "-" ++ itoa (ReportBlockHeight m).

(** *** Solvency *)
Definition SolvencyVoter_GetSigners (m : SolvencyVoter) : list AccAddress := GetSigners m.
Definition SolvencyVoter_HasSigned (m : SolvencyVoter) signer : bool := HasSigned m signer.
Definition SolvencyVoter_Sign (m : SolvencyVoter) signer : bool * SolvencyVoter := Sign m signer.
Definition SolvencyVoter_HasConsensus (m : SolvencyVoter) (nas : NodeAccounts) : bool :=
  HasMinority (count_node_keys nas (GetSigners m)) (len nas).
Definition SolvencyVoter_Empty (m : SolvencyVoter) : bool :=
  TxID_IsEmpty (svId m) || Chain_IsEmpty (svChain m) || (svHeight m <=? 0) ||
  (length (svSigners m) =? 0)%nat.

(** *** Keysign failures *)
Definition TssKeysignFailVoter_GetSigners (m : TssKeysignFailVoter) : list AccAddress :=
  GetSigners m.
Definition TssKeysignFailVoter_HasSigned (m : TssKeysignFailVoter) signer : bool :=
  HasSigned m signer.
Definition TssKeysignFailVoter_Sign (m : TssKeysignFailVoter) signer :
    bool * TssKeysignFailVoter := Sign m signer.
Definition MemberSignerCount (m : TssKeysignFailVoter) (nas : NodeAccounts) : Z :=
  foldl (fun count signer =>
    if existsb (fun item => acc_equals signer (NodeAddress item)) nas
    then i64 (count + 1) else count) 0 (GetSigners m).
Definition TssKeysignFailVoter_HasConsensus (m : TssKeysignFailVoter) (nas : NodeAccounts) : bool :=
  HasSimpleMajority (MemberSignerCount m nas) (len nas).
Definition TssKeysignFailVoter_Empty (m : TssKeysignFailVoter) : bool :=
  (String.length (kfID m) =? 0)%nat || (kfHeight m =? 0).

(** *** Key generation *)
Definition TssVoter_GetChains (m : TssVoter) : Chains := parse_chains (tvChains m).
Definition TssVoter_GetPubKeys (m : TssVoter) : list PubKey := parse_pubkeys (tvPubKeys m).
Definition TssVoter_GetSigners (m : TssVoter) : list AccAddress := parse_signers (tvSigners m).
Definition TssVoter_HasSigned (m : TssVoter) (signer : AccAddress) : bool :=
  existsb (fun sign => acc_equals sign signer) (TssVoter_GetSigners m).

(** [PubKey.GetThorAddress] converts a key with the chain libraries; the voter
    only uses the address it returns, or that it fails. *)
Definition TssVoter_Sign (GetThorAddress : PubKey -> outcome AccAddress) (m : TssVoter)
    (signer : AccAddress) (chains : list string) (secp256k1Signature : string) : bool * TssVoter :=
  if TssVoter_HasSigned m signer then (false, m)
  else if existsb (fun pk => match GetThorAddress pk with
                             | Ok addr => acc_equals addr signer
                             | _ => false
                             end) (TssVoter_GetPubKeys m)
  then (true, mkTssVoter (tvID m) (PoolPubKey m) (tvPubKeys m) (tvBlockHeight m)
          (tvChains m ++ chains)%list (tvSigners m ++ [acc_string signer])%list
          (MajorityConsensusBlockHeight m)
          (if (0 <? String.length secp256k1Signature)%nat
           then (Secp256K1Signatures m ++ [secp256k1Signature])%list
           else Secp256K1Signatures m)
          (PoolPubKeyEddsa m))
  else (false, m).

(** The counting loops fill a Go map. *)
Definition count_map (l : list string) : gmap string Z :=
  foldl (fun counts x => <[x := i64 (default 0 (counts !! x) + 1)]> counts) ∅ l.

(** A Go map is iterated in an unspecified order; [order] is the one taken, a
    permutation of the map's entries. *)
Definition ConsensusChains (m : TssVoter) (order : list (string * Z)) : Chains :=
  stable_sort (fun c d => str_ltb (Chain_String c) (Chain_String d))
    (map fst (List.filter (fun '(_, count) => HasSuperMajority count (len (tvPubKeys m))) order)).

Definition HasCompleteConsensus (m : TssVoter) : bool := len (tvSigners m) =? len (tvPubKeys m).

Definition ConsensusCheckSignature (m : TssVoter) (order : list (string * Z)) : string * bool :=
  match List.find (fun '(_, count) => HasSuperMajority count (len (tvPubKeys m))) order with
  | Some (sig, _) => (sig, true)
  | None => ("", false)
  end.

Definition TssVoter_HasConsensus (m : TssVoter) : bool :=
  HasSuperMajority (len (tvSigners m)) (len (tvPubKeys m)).
Definition TssVoter_IsEmpty (m : TssVoter) : bool :=
  (String.length (tvID m) =? 0)%nat || (String.length (PoolPubKey m) =? 0)%nat ||
  (length (tvPubKeys m) =? 0)%nat.
End voters.

(** ** Quorum attestations *)

(** [None] is a nil pointer in the slice.  The capacity handed to [make] panics
    when it is negative. *)
Record Attestation := mkAttestation {
  attPubKey : string;
  attSignature : string
}.

Fixpoint dedup_loop (seen : gset string) (count maxCount : Z) (atts : list (option Attestation)) :
    list (option Attestation) :=
  match atts with
  | [] => []
  | None :: atts' => dedup_loop seen count maxCount atts'
  | Some att :: atts' =>
      if bool_decide (attPubKey att ∈ seen) then dedup_loop seen count maxCount atts'
      else if maxCount <=? count + 1 then [Some att]
      else Some att :: dedup_loop ({[attPubKey att]} ∪ seen) (count + 1) maxCount atts'
  end.

Definition deduplicateAttestations (attestations : list (option Attestation)) (maxCount : Z) :
    outcome (list (option Attestation)) :=
  if (length attestations =? 0)%nat then Ok attestations
  else if Z.min (len attestations) maxCount <? 0 then Panic
  else Ok (dedup_loop ∅ 0 maxCount attestations).

(** ** Lemmas *)

(** *** Thresholds *)
Lemma ceil_div_spec n d s : 0 <= n < 2 ^ 62 * 2 -> 0 < d < 2 ^ 62 ->
  ((if 0 <? Z.rem n d then i64 (Z.quot n d + 1) else Z.quot n d) <=? s) = (n <=? s * d).
Proof.
  intros Hn Hd. rewrite quot_nonneg, Z.rem_mod_nonneg by lia.
  pose proof (Z.div_mod n d ltac:(lia)). pose proof (Z.mod_pos_bound n d ltac:(lia)).
  assert (0 <= n / d) by (apply Z.div_pos; lia).
  assert (n / d <= n) by (apply Z.div_le_upper_bound; nia).
  apply eq_true_iff_eq. rewrite !Z.leb_le.
  destruct (Z.ltb_spec 0 (n mod d)).
  - assert (n / d < 2 ^ 63 - 1).
    { destruct (Z.eq_dec d 1) as [->|]; [rewrite Z.mod_1_r in *; lia|].
      assert (n / d <= n / 2) by (apply Z.div_le_compat_l; lia).
      pose proof (div_bounds n 2 ltac:(lia)). lia. }
    rewrite i64_id by (unfold is_i64; lia). nia.
  - nia.
Qed.

Lemma HasSuperMajority_spec s t : t < 2 ^ 62 ->
  HasSuperMajority s t = true <-> 0 < s <= t /\ 2 * t <= 3 * s.
Proof.
  intros Ht. unfold HasSuperMajority. destruct (Z.ltb_spec t s); [split; [done|lia]|].
  destruct (Z.leb_spec s 0); [split; [done|lia]|].
  rewrite i64_id by (unfold is_i64; lia). unfold SuperMajorityFactor.
  rewrite ceil_div_spec by lia. rewrite Z.leb_le. lia.
Qed.

Lemma HasSimpleMajority_spec s t : t < 2 ^ 62 ->
  HasSimpleMajority s t = true <-> 0 < s <= t /\ t <= 2 * s.
Proof.
  intros Ht. unfold HasSimpleMajority. destruct (Z.ltb_spec t s); [split; [done|lia]|].
  destruct (Z.leb_spec s 0); [split; [done|lia]|]. unfold SimpleMajorityFactor.
  rewrite ceil_div_spec by lia. rewrite Z.leb_le. lia.
Qed.

Lemma HasMinority_spec s t : t < 2 ^ 62 ->
  HasMinority s t = true <-> 0 < s <= t /\ t <= 3 * s.
Proof.
  intros Ht. unfold HasMinority. destruct (Z.ltb_spec t s); [split; [done|lia]|].
  destruct (Z.leb_spec s 0); [split; [done|lia]|]. unfold SuperMajorityFactor.
  rewrite ceil_div_spec by lia. rewrite Z.leb_le. lia.
Qed.

(** *** Signing *)
Section sign_lemmas.
Context {K : SdkKeys} `{!SdkKeysOk K}.

Lemma existsb_acc_equals l a : existsb (fun sign => acc_equals sign a) l = true <-> a ∈ l.
Proof.
  rewrite existsb_exists. split.
  - intros (x & Hx & He). apply acc_equals_ok in He. subst. by apply list_elem_of_In.
  - intros H. exists a. split; [by apply list_elem_of_In|apply acc_equals_refl].
Qed.

Lemma parse_signers_app l1 l2 : parse_signers (l1 ++ l2) = (parse_signers l1 ++ parse_signers l2)%list.
Proof.
  induction l1 as [|s l1 IH]; simpl; [done|]. destruct (acc_from_bech32 s); simpl; by rewrite ?IH.
Qed.

Lemma parse_signers_string a : valid_acc a -> parse_signers [acc_string a] = [a].
Proof. intros Ha. simpl. by rewrite acc_roundtrip. Qed.

Lemma parse_signers_length l : (length (parse_signers l) <= length l)%nat.
Proof. induction l as [|s l IH]; simpl; [done|]. destruct (acc_from_bech32 s); simpl; lia. Qed.

Context {V : Type} `{!Voter V} `{!VoterOk V}.

Lemma HasSigned_spec (m : V) a : HasSigned m a = true <-> a ∈ GetSigners m.
Proof. apply existsb_acc_equals. Qed.

(** [Sign] appends a new signer and refuses a known one. *)
Lemma Sign_spec (m : V) a : valid_acc a ->
  Sign m a = (bool_decide (a ∉ GetSigners m), (Sign m a).2) /\
  GetSigners (Sign m a).2 =
    if bool_decide (a ∈ GetSigners m) then GetSigners m else (GetSigners m ++ [a])%list.
Proof.
  intros Ha. unfold Sign. destruct (HasSigned m a) eqn:E.
  - apply HasSigned_spec in E. rewrite bool_decide_false by naive_solver.
    by rewrite bool_decide_true.
  - assert (Hn : a ∉ GetSigners m).
    { intros H%HasSigned_spec. by rewrite H in E. }
    rewrite bool_decide_true by done. rewrite bool_decide_false by done. split; [done|].
    unfold GetSigners. simpl. rewrite v_get_set, parse_signers_app.
    by rewrite parse_signers_string.
Qed.
End sign_lemmas.

(** *** Counting the signers that are nodes *)
Section count_lemmas.
Context {K : SdkKeys} `{!SdkKeysOk K}.

Lemma count_loop (P : AccAddress -> bool) l acc :
  0 <= acc -> acc + Z.of_nat (length l) < 2 ^ 62 ->
  foldl (fun count a => if P a then i64 (count + 1) else count) acc l =
    acc + Z.of_nat (length (filter (fun a => P a = true) l)).
Proof.
  revert acc. induction l as [|a l IH]; intros acc Hacc Hl; [simpl; lia|].
  rewrite length_cons in Hl. cbn [foldl]. rewrite filter_cons. destruct (P a) eqn:E.
  - rewrite i64_id by (unfold is_i64; lia). rewrite IH by lia.
    rewrite decide_True by done. rewrite length_cons. lia.
  - rewrite IH by lia. by rewrite decide_False.
Qed.

Definition short {A} (l : list A) : Prop := len l < 2 ^ 61.

Lemma count_node_keys_eq nas l : short l ->
  count_node_keys nas l = len (filter (fun a => IsNodeKeys nas a = true) l).
Proof. intros H. unfold count_node_keys. rewrite count_loop; unfold short, len in *; lia. Qed.

Lemma IsNodeKeys_spec nas a : IsNodeKeys nas a = true <->
  exists na, na ∈ nas /\ Status na = NodeStatus_Active /\ NodeAddress na = a.
Proof.
  unfold IsNodeKeys. rewrite existsb_exists. split.
  - intros (na & Hna & [Hs%Z.eqb_eq He%acc_equals_ok]%andb_true_iff).
    exists na. rewrite list_elem_of_In. auto.
  - intros (na & Hna & Hs & He). exists na. split; [by apply list_elem_of_In|].
    rewrite Hs, <- He. simpl. apply acc_equals_refl.
Qed.

(** The active nodes that signed, as a set. *)
Definition node_signers (nas : list NodeAccount) (l : list AccAddress) : gset string :=
  list_to_set (filter (fun a => IsNodeKeys nas a = true) l).

Lemma node_signers_size nas l : NoDup l ->
  size (node_signers nas l) = length (filter (fun a => IsNodeKeys nas a = true) l).
Proof. intros H. unfold node_signers. by rewrite size_list_to_set by by apply NoDup_filter. Qed.

Lemma node_signers_subseteq nas l :
  node_signers nas l ⊆ list_to_set (GetNodeAddresses nas).
Proof.
  intros a. unfold node_signers. rewrite !elem_of_list_to_set.
  intros [H%IsNodeKeys_spec _]%list_elem_of_filter.
  destruct H as (na & Hna & _ & <-). by apply list_elem_of_fmap_2.
Qed.

Lemma node_addresses_size nas : (size (list_to_set (GetNodeAddresses nas) : gset string) <= length nas)%nat.
Proof.
  etrans; [apply gset_of_list_size|]. unfold GetNodeAddresses. by rewrite length_map.
Qed.

(** Two sets of signers overlap in what exceeds the number of nodes. *)
Lemma node_signers_overlap nas l1 l2 :
  (size (node_signers nas l1) + size (node_signers nas l2) <=
   length nas + size (node_signers nas l1 ∩ node_signers nas l2))%nat.
Proof.
  pose proof (gset_overlap _ _ _ (node_signers_subseteq nas l1) (node_signers_subseteq nas l2)).
  pose proof (node_addresses_size nas). lia.
Qed.
End count_lemmas.

(** *** Counting votes in a map *)
Definition occ (x : string) (l : list string) : Z := len (filter (fun y => y = x) l).

Lemma occ_cons x y l : occ x (y :: l) = (if decide (y = x) then 1 else 0) + occ x l.
Proof. unfold occ, len. rewrite filter_cons. case_decide; simpl; lia. Qed.

Lemma occ_nonneg x l : 0 <= occ x l.
Proof. unfold occ, len. lia. Qed.

Lemma occ_two x y l : x <> y -> occ x l + occ y l <= len l.
Proof.
  intros Hxy. induction l as [|z l IH]; [unfold occ, len; simpl; lia|].
  rewrite !occ_cons. unfold len in *. rewrite length_cons.
  repeat case_decide; subst; try done; lia.
Qed.

Lemma count_map_gen l (m : gmap string Z) x :
  (forall y, 0 <= default 0 (m !! y) < 2 ^ 62 - len l) ->
  foldl (fun counts x => <[x := i64 (default 0 (counts !! x) + 1)]> counts) m l !! x =
    if decide (occ x l = 0) then m !! x else Some (default 0 (m !! x) + occ x l).
Proof.
  revert m. induction l as [|y l IH]; intros m Hm; [done|]. cbn [foldl].
  assert (Hl : len (y :: l) = 1 + len l) by (unfold len; rewrite length_cons; lia).
  pose proof (occ_nonneg x l) as Hocc.
  rewrite IH.
  - rewrite occ_cons. destruct (decide (y = x)) as [->|Hne].
    + rewrite lookup_insert_eq. simpl. pose proof (Hm x).
      rewrite i64_id by (unfold is_i64, len in *; lia).
      rewrite (decide_False (P := 1 + occ x l = 0)) by lia.
      case_decide; f_equal; lia.
    + rewrite lookup_insert_ne by done. rewrite Z.add_0_l. done.
  - intros z. pose proof (Hm y). pose proof (Hm z). rewrite Hl in *.
    destruct (decide (y = z)) as [->|Hne].
    + rewrite lookup_insert_eq. simpl. rewrite i64_id; unfold is_i64, len in *; lia.
    + rewrite lookup_insert_ne by done. lia.
Qed.

Lemma count_map_spec l x c : short l ->
  count_map l !! x = Some c <-> c = occ x l /\ 0 < occ x l.
Proof.
  intros Hl. unfold count_map. rewrite count_map_gen.
  - rewrite lookup_empty. pose proof (occ_nonneg x l). case_decide; simpl.
    + split; [done|lia].
    + split; [intros [= <-]; lia|intros [-> ?]; f_equal; lia].
  - intros y. rewrite lookup_empty. simpl. unfold short, len in *. lia.
Qed.

Lemma count_map_elem l x c : count_map l !! x = Some c -> x ∈ l.
Proof.
  unfold count_map.
  enough (Hgen : forall m : gmap string Z,
    foldl (fun counts x => <[x := i64 (default 0 (counts !! x) + 1)]> counts) m l !! x = Some c ->
    x ∈ l \/ m !! x = Some c).
  { intros H. apply Hgen in H as [H|H]; [done|]. by rewrite lookup_empty in H. }
  induction l as [|y l IH]; intros m H; simpl in H; [by right|].
  apply IH in H as [H|H]; [left; by right|]. destruct (decide (y = x)) as [->|Hne].
  - left. by left.
  - right. by rewrite lookup_insert_ne in H.
Qed.

#[export] Instance chain_order_weak :
  StrictWeak (fun c d : Chain => str_ltb (Chain_String c) (Chain_String d)).
Proof.
  split; intros.
  - apply str_ltb_irrefl.
  - eauto using str_ltb_trans.
  - eauto using str_ltb_neg_trans.
Qed.

Lemma parse_chains_upper cs c : c ∈ parse_chains cs -> Chain_String c = c.
Proof.
  induction cs as [|s cs IH]; simpl; [by intros ?%elem_of_nil|].
  destruct (NewChain s) as [c'| |] eqn:E; [|done..].
  intros [->|H]%elem_of_cons; [|auto].
  apply NewChain_inv in E as [_ Hv]. by apply Chain_Valid_to_upper.
Qed.

(** Iterating the map in any order visits each entry once. *)
Definition map_order (m : gmap string Z) (order : list (string * Z)) : Prop :=
  order ≡ₚ map_to_list m.

Lemma elem_of_map_order m order x c : map_order m order ->
  (x, c) ∈ order <-> m !! x = Some c.
Proof. intros Ho. rewrite Ho. apply elem_of_map_to_list. Qed.

Lemma filter_List {A} (f : A -> bool) l :
  List.filter f l = filter (fun x => f x = true) l.
Proof.
  induction l as [|x l IH]; simpl; [done|]. rewrite filter_cons, IH.
  by destruct (f x); [rewrite decide_True|rewrite decide_False].
Qed.

(** The answers do not depend on the order a Go map is iterated in. *)
Lemma ConsensusChains_order m o1 o2 :
  map_order (count_map (TssVoter_GetChains m)) o1 ->
  map_order (count_map (TssVoter_GetChains m)) o2 ->
  ConsensusChains m o1 = ConsensusChains m o2.
Proof.
  intros H1 H2. unfold ConsensusChains. rewrite !filter_List.
  set (f := fun x : string * Z => (let '(_, count) := x in
    HasSuperMajority count (len (tvPubKeys m))) = true).
  assert (Hp : map fst (filter f o1) ≡ₚ map fst (filter f o2)).
  { apply (fmap_Permutation fst). by rewrite H1, H2. }
  apply (sorted_by_unique (fun c d => str_ltb (Chain_String c) (Chain_String d))).
  - intros c d Hc Hd Hcd Hdc. rewrite stable_sort_perm in Hc, Hd.
    assert (Hup : forall e, e ∈ map fst (filter f o1) -> Chain_String e = e).
    { intros e ((e' & n) & -> & [_ He]%list_elem_of_filter)%list_elem_of_fmap. simpl.
      apply (elem_of_map_order _ _ _ _ H1) in He.
      apply parse_chains_upper with (tvChains m).
      apply count_map_elem in He. done. }
    rewrite <- (Hup c Hc), <- (Hup d Hd). by apply str_ltb_total.
  - by rewrite !stable_sort_perm.
  - apply stable_sort_sorted, _.
  - apply stable_sort_sorted, _.
Qed.

(** *** Key-generation voters as a state machine *)
Section tss.
Context {K : SdkKeys} `{!SdkKeysOk K}.
Variable GetThorAddress : PubKey -> outcome AccAddress.

(** The voters reachable from a fresh one by [Sign]. *)
Inductive tss_reach : TssVoter -> Prop :=
| reach_new id pks pool eddsa : tss_reach (NewTssVoter id pks pool eddsa)
| reach_sign m signer chains sig : tss_reach m -> valid_acc signer ->
    tss_reach (TssVoter_Sign GetThorAddress m signer chains sig).2.

(** Each recorded signer is a distinct address of one of the keys. *)
Definition tss_inv (m : TssVoter) : Prop :=
  (length (Secp256K1Signatures m) <= length (tvSigners m))%nat /\
  length (TssVoter_GetSigners m) = length (tvSigners m) /\
  NoDup (TssVoter_GetSigners m) /\
  (forall a, a ∈ TssVoter_GetSigners m ->
     exists pk, pk ∈ TssVoter_GetPubKeys m /\ GetThorAddress pk = Ok a).

Lemma tss_sign_inv m signer chains sig : tss_inv m -> valid_acc signer ->
  tss_inv (TssVoter_Sign GetThorAddress m signer chains sig).2.
Proof.
  intros (Hs & Hl & Hn & Ha) Hv. unfold TssVoter_Sign.
  destruct (TssVoter_HasSigned m signer) eqn:E; [done|]. case_if; [|done].
  assert (Hnin : signer ∉ TssVoter_GetSigners m).
  { intros H. apply existsb_acc_equals in H. unfold TssVoter_HasSigned in E. by rewrite H in E. }
  apply existsb_exists in E0 as (pk & Hpk & He).
  destruct (GetThorAddress pk) as [addr| |] eqn:Eg; try done.
  apply acc_equals_ok in He. subst addr.
  unfold tss_inv, TssVoter_GetSigners, TssVoter_GetPubKeys in *. simpl.
  rewrite parse_signers_app, parse_signers_string by done. rewrite !length_app. simpl.
  split; [case_if; rewrite ?length_app; simpl; lia|]. split; [lia|].
  split.
  - apply NoDup_app. split; [done|]. split; [|apply NoDup_singleton].
    intros a Ha1 Ha2. apply list_elem_of_singleton in Ha2. by subst.
  - intros a [H|H]%elem_of_app; [auto|]. apply list_elem_of_singleton in H. subst.
    exists pk. split; [by apply list_elem_of_In|done].
Qed.

Lemma tss_reach_inv m : tss_reach m -> tss_inv m.
Proof.
  induction 1 as [| ? ? ? ? ? IH Hv]; [|by apply tss_sign_inv].
  unfold tss_inv, TssVoter_GetSigners. simpl. split; [lia|]. split; [done|].
  split; [apply NoDup_nil_2|by intros a ?%elem_of_nil].
Qed.

Lemma parse_pubkeys_length keys : (length (parse_pubkeys keys) <= length keys)%nat.
Proof. induction keys as [|k keys IH]; simpl; [done|]. destruct (NewPubKey k); simpl; lia. Qed.

(** So there are at most as many signers as keys. *)
Lemma tss_inv_bound m : tss_inv m -> (length (tvSigners m) <= length (tvPubKeys m))%nat.
Proof.
  intros (_ & Hl & Hn & Ha). rewrite <- Hl.
  etransitivity; [|apply (parse_pubkeys_length (tvPubKeys m))].
  set (f := fun pk => match GetThorAddress pk with Ok a => a | _ => ""%string end).
  rewrite <- (length_map f (parse_pubkeys (tvPubKeys m))).
  apply submseteq_length, NoDup_submseteq; [done|].
  intros a Hin. destruct (Ha a Hin) as (pk & Hpk & He). apply list_elem_of_fmap.
  exists pk. unfold f. by rewrite He.
Qed.
End tss.

(** *** Attestations *)
Definition att_keys (l : list (option Attestation)) : list string :=
  omap (fun o => attPubKey <$> o) l.

Lemma dedup_loop_spec seen count maxCount atts : 0 <= count < maxCount ->
  let r := dedup_loop seen count maxCount atts in
  r `sublist_of` atts /\ Forall is_Some r /\ NoDup (att_keys r) /\
  (forall k, k ∈ att_keys r -> k ∉ seen) /\ count + len r <= maxCount /\
  (count + len r < maxCount -> forall k, k ∈ att_keys atts -> k ∈ seen \/ k ∈ att_keys r).
Proof.
  revert seen count. induction atts as [|[att|] atts IH]; intros seen count Hc; simpl.
  - split; [constructor|]. split; [constructor|]. split; [constructor|].
    split; [by intros ? ?%elem_of_nil|]. split; [unfold len; simpl; lia|].
    by intros _ ? ?%elem_of_nil.
  - case_bool_decide as Hin.
    + destruct (IH seen count Hc) as (H1 & H2 & H3 & H4 & H5 & H6).
      split; [by apply sublist_cons|]. do 4 (split; [done|]).
      intros Hlt k [->|Hk]%elem_of_cons; [by left|auto].
    + destruct (Z.leb_spec maxCount (count + 1)).
      * split; [apply sublist_skip, sublist_nil_l|]. split; [by repeat constructor|].
        split; [apply NoDup_singleton|]. split; [by intros k ->%list_elem_of_singleton|].
        unfold len. simpl. split; lia.
      * destruct (IH ({[attPubKey att]} ∪ seen) (count + 1) ltac:(lia))
          as (H1 & H2 & H3 & H4 & H5 & H6).
        assert (Hl : forall A (x : A) l, len (x :: l) = 1 + len l)
          by (intros; unfold len; rewrite length_cons; lia).
        rewrite Hl. split; [by apply sublist_skip|]. split; [by constructor|].
        split; [constructor; [|done]|].
        { intros Hk. apply (H4 _ Hk), elem_of_union_l. by apply elem_of_singleton. }
        split. { intros k [->|Hk]%elem_of_cons; [done|]. intros Hs. by apply (H4 k Hk), elem_of_union_r. }
        split; [lia|]. intros Hlt k [->|Hk]%elem_of_cons; [right; by left|].
        destruct (H6 ltac:(lia) k Hk) as [[->%elem_of_singleton|Hs]%elem_of_union|Hr].
        -- right. by left.
        -- by left.
        -- right. by right.
  - destruct (IH seen count Hc) as (H1 & H2 & H3 & H4 & H5 & H6).
    split; [by apply sublist_cons|]. done.
Qed.

(** ** Properties *)

(** The three thresholds, for every number of nodes below [2^62]: a super
    majority is at least two thirds, a simple majority at least half and a
    minority at least one third, all of a non-empty set of at most all nodes;
    so equality counts, and each threshold implies the next. *)
Theorem majority_thresholds s t : t < 2 ^ 62 ->
  (HasSuperMajority s t = true <-> 0 < s <= t /\ 2 * t <= 3 * s) /\
  (HasSimpleMajority s t = true <-> 0 < s <= t /\ t <= 2 * s) /\
  (HasMinority s t = true <-> 0 < s <= t /\ t <= 3 * s) /\
  (HasSuperMajority s t = true -> HasSimpleMajority s t = true) /\
  (HasSimpleMajority s t = true -> HasMinority s t = true).
Proof.
  intros Ht. pose proof (HasSuperMajority_spec s t Ht) as H1.
  pose proof (HasSimpleMajority_spec s t Ht) as H2. pose proof (HasMinority_spec s t Ht) as H3.
  split; [done|]. split; [done|]. split; [done|]. rewrite H1, H2, H3. split; lia.
Qed.

(** Every voter takes each signer once: [Sign] succeeds exactly for a new
    address, which has signed afterwards, keeps all other signatures, never
    records an address twice and changes nothing when it refuses. *)
Theorem Sign_once {K : SdkKeys} `{!SdkKeysOk K} {V} `{!Voter V} `{!VoterOk V}
    (m : V) (signer : AccAddress) : valid_acc signer ->
  let '(b, m') := Sign m signer in
  (b = true <-> ~ HasSigned m signer = true) /\ HasSigned m' signer = true /\
  (forall a, a <> signer -> HasSigned m' a = HasSigned m a) /\
  (NoDup (GetSigners m) -> NoDup (GetSigners m')) /\
  Sign m' signer = (false, m') /\ (b = false -> m' = m).
Proof.
  intros Hv. destruct (Sign m signer) as [b m'] eqn:E.
  destruct (Sign_spec m signer Hv) as [H1 H2]. rewrite E in H1, H2. simpl in H1, H2.
  injection H1 as Hb.
  assert (Hin : HasSigned m' signer = true).
  { apply HasSigned_spec. rewrite H2. case_bool_decide; [done|]. apply elem_of_app. right. by left. }
  split; [by rewrite Hb, bool_decide_eq_true, HasSigned_spec|]. split; [done|]. split.
  { intros a Ha. apply eq_true_iff_eq. rewrite !HasSigned_spec, H2.
    case_bool_decide; [done|]. rewrite elem_of_app, list_elem_of_singleton. split; [by intros [?|?]|by left]. }
  split.
  { intros Hn. rewrite H2. case_bool_decide; [done|]. apply NoDup_app. split; [done|].
    split; [|apply NoDup_singleton]. intros a Ha Ha'. apply list_elem_of_singleton in Ha'. by subst. }
  split; [unfold Sign; by rewrite Hin|].
  intros ->. unfold Sign in E. by destruct (HasSigned m signer); simplify_eq.
Qed.

(** Quorum intersection: two voters that both reach consensus over the same
    nodes, each with distinct signers, share at least a third of the nodes as
    active signers; so no two conflicting errata or fees are both accepted
    unless that many nodes signed both. *)
Theorem consensus_overlap {K : SdkKeys} `{!SdkKeysOk K} (m1 m2 : ErrataTxVoter) nas :
  short nas -> short (evSigners m1) -> short (evSigners m2) ->
  NoDup (ErrataTxVoter_GetSigners m1) -> NoDup (ErrataTxVoter_GetSigners m2) ->
  ErrataTxVoter_HasConsensus m1 nas = true -> ErrataTxVoter_HasConsensus m2 nas = true ->
  exists both : gset string, len nas <= 3 * Z.of_nat (size both) /\
    forall a, a ∈ both -> ErrataTxVoter_HasSigned m1 a = true /\
      ErrataTxVoter_HasSigned m2 a = true /\ IsNodeKeys nas a = true.
Proof.
  intros Hn Hs1 Hs2 Hd1 Hd2 H1 H2. unfold ErrataTxVoter_HasConsensus, ErrataTxVoter_GetSigners in *.
  pose proof (parse_signers_length (evSigners m1)). pose proof (parse_signers_length (evSigners m2)).
  unfold GetSigners, short, len in *. simpl in *.
  rewrite count_node_keys_eq in H1, H2 by (unfold short, len; lia).
  apply HasSuperMajority_spec in H1, H2; [|lia..]. unfold len in *.
  exists (node_signers nas (parse_signers (evSigners m1)) ∩
          node_signers nas (parse_signers (evSigners m2))). split.
  - pose proof (node_signers_overlap nas (parse_signers (evSigners m1))
      (parse_signers (evSigners m2))) as Ho.
    rewrite !node_signers_size in Ho by done. lia.
  - intros a. unfold node_signers. rewrite elem_of_intersection, !elem_of_list_to_set.
    rewrite !list_elem_of_filter. intros [[Ha Ha1] [_ Ha2]].
    split; [by apply HasSigned_spec|]. split; [by apply HasSigned_spec|done].
Qed.

(** C28. Key generation is deterministic across nodes: on every voter reached by
    signing, the consensus chains and the agreed check signature do not depend
    on the order Go iterates its maps in, there are at most as many signers as
    members, and an agreed signature is one that two thirds of the members sent. *)
Theorem TssVoter_deterministic {K : SdkKeys} `{!SdkKeysOk K}
    (GTA : PubKey -> outcome AccAddress) m (o1 o2 p1 p2 : list (string * Z)) :
  tss_reach GTA m -> short (tvPubKeys m) ->
  map_order (count_map (Secp256K1Signatures m)) o1 ->
  map_order (count_map (Secp256K1Signatures m)) o2 ->
  map_order (count_map (TssVoter_GetChains m)) p1 ->
  map_order (count_map (TssVoter_GetChains m)) p2 ->
  ConsensusCheckSignature m o1 = ConsensusCheckSignature m o2 /\
  ConsensusChains m p1 = ConsensusChains m p2 /\
  len (tvSigners m) <= len (tvPubKeys m) /\
  (forall sig, ConsensusCheckSignature m o1 = (sig, true) ->
     2 * len (tvPubKeys m) <= 3 * occ sig (Secp256K1Signatures m)).
Proof.
  intros Hr Hn Ho1 Ho2 Hp1 Hp2. pose proof (tss_reach_inv GTA m Hr) as Hi.
  pose proof (tss_inv_bound GTA m Hi) as Hb. destruct Hi as (Hs & _).
  assert (Hss : short (Secp256K1Signatures m)) by (unfold short, len in *; lia).
  assert (Hmaj : forall o sig c, map_order (count_map (Secp256K1Signatures m)) o ->
    (sig, c) ∈ o -> HasSuperMajority c (len (tvPubKeys m)) = true ->
    c = occ sig (Secp256K1Signatures m) /\ 2 * len (tvPubKeys m) <= 3 * c /\ 0 < c).
  { intros o sig c Ho Hin Hc. apply (elem_of_map_order _ _ _ _ Ho) in Hin.
    apply count_map_spec in Hin as [-> ?]; [|done].
    apply HasSuperMajority_spec in Hc; [lia|]. unfold short in Hn. lia. }
  assert (Hfind : forall (o : list (string * Z)) sig c, List.find (fun '((_, count) : string * Z) =>
      HasSuperMajority count (len (tvPubKeys m))) o = Some (sig, c) ->
      (sig, c) ∈ o /\ HasSuperMajority c (len (tvPubKeys m)) = true).
  { intros o sig c Hf. apply List.find_some in Hf as [? ?]. by rewrite list_elem_of_In. }
  split; [|split; [by apply ConsensusChains_order|split; [unfold len; lia|]]].
  - unfold ConsensusCheckSignature.
    destruct (List.find _ o1) as [[s1 c1]|] eqn:E1, (List.find _ o2) as [[s2 c2]|] eqn:E2; [| | |done].
    + apply Hfind in E1 as [I1 M1], E2 as [I2 M2].
      destruct (Hmaj _ _ _ Ho1 I1 M1) as (-> & ? & ?), (Hmaj _ _ _ Ho2 I2 M2) as (-> & ? & ?).
      destruct (decide (s1 = s2)) as [->|Hne]; [done|].
      pose proof (occ_two s1 s2 (Secp256K1Signatures m) Hne). unfold len in *. lia.
    + apply Hfind in E1 as [I1 M1]. unfold map_order in *. rewrite Ho1, <- Ho2 in I1.
      apply list_elem_of_In, (List.find_none _ _ E2) in I1. congruence.
    + apply Hfind in E2 as [I2 M2]. unfold map_order in *. rewrite Ho2, <- Ho1 in I2.
      apply list_elem_of_In, (List.find_none _ _ E1) in I2. congruence.
  - intros sig. unfold ConsensusCheckSignature.
    destruct (List.find _ o1) as [[s1 c1]|] eqn:E1; [|done]. intros [= ->].
    apply Hfind in E1 as [I1 M1]. destruct (Hmaj _ _ _ Ho1 I1 M1) as (-> & ? & ?). done.
Qed.

(** Deduplicating attestations against a positive cap never panics: it keeps
    a subsequence of non-nil attestations with pairwise distinct keys, at most
    as many as the cap, and every key when there is room left. *)
Theorem deduplicateAttestations_spec atts maxCount : 0 < maxCount ->
  exists r, deduplicateAttestations atts maxCount = Ok r /\
    r `sublist_of` atts /\ Forall is_Some r /\ NoDup (att_keys r) /\
    (len r <= maxCount) /\
    (len r < maxCount -> forall k, k ∈ att_keys atts <-> k ∈ att_keys r).
Proof.
  intros Hm. unfold deduplicateAttestations.
  destruct (Nat.eqb_spec (length atts) 0) as [Hl|Hl].
  { destruct atts; [|done]. exists []. split; [done|]. split; [constructor|].
    split; [constructor|]. split; [constructor|]. unfold len. simpl. split; [lia|done]. }
  destruct (Z.ltb_spec (Z.min (len atts) maxCount) 0); [unfold len in *; lia|].
  destruct (dedup_loop_spec ∅ 0 maxCount atts ltac:(lia)) as (H1 & H2 & H3 & _ & H5 & H6).
  eexists. split; [done|]. split; [done|]. split; [done|]. split; [done|]. split; [lia|].
  intros Hlt k. split.
  - intros Hk. destruct (H6 ltac:(lia) k Hk) as [?%elem_of_empty|?]; done.
  - unfold att_keys. rewrite !list_elem_of_omap. intros (o & Ho & He). exists o.
    split; [|done]. by eapply elem_of_sublist.
Qed.

(** ** The properties at concrete inputs *)

Definition demo_active (addr : AccAddress) : NodeAccount :=
  NewNodeAccount addr NodeStatus_Active EmptyPubKeySet "" 0 "bond" 1.
Definition demo_nodes : list NodeAccount := map demo_active ["n1"; "n2"; "n3"]%string.

Lemma majority_thresholds_witness :
  (HasSuperMajority 2 3 = true <-> 0 < 2 <= 3 /\ 2 * 3 <= 3 * 2) /\
  HasSuperMajority 2 3 = true.
Proof.
  destruct (majority_thresholds 2 3 ltac:(lia)) as (H & _). split; [exact H|reflexivity].
Defined.

Lemma Sign_once_witness :
  let '(b, m') := Sign (K := keys_std) (NewBanVoter "n1") "n2"%string in
  (b = true <-> ~ HasSigned (K := keys_std) (NewBanVoter "n1") "n2"%string = true) /\
  HasSigned (K := keys_std) m' "n2"%string = true /\
  (forall a, a <> "n2"%string ->
     HasSigned (K := keys_std) m' a = HasSigned (K := keys_std) (NewBanVoter "n1") a) /\
  (NoDup (GetSigners (K := keys_std) (NewBanVoter "n1")) ->
     NoDup (GetSigners (K := keys_std) m')) /\
  Sign (K := keys_std) m' "n2"%string = (false, m') /\ (b = false -> m' = NewBanVoter "n1").
Proof.
  apply (Sign_once (K := keys_std) (NewBanVoter "n1") "n2"%string).
  split; simpl; lia.
Defined.

Definition demo_errata (signers : list string) : ErrataTxVoter :=
  mkErrataTxVoter "tx" BTCChain 1 signers.

Lemma consensus_overlap_witness : exists both : gset string,
  len demo_nodes <= 3 * Z.of_nat (size both) /\
  forall a, a ∈ both ->
    ErrataTxVoter_HasSigned (K := keys_std) (demo_errata ["n1"; "n2"]%string) a = true /\
    ErrataTxVoter_HasSigned (K := keys_std) (demo_errata ["n2"; "n3"]%string) a = true /\
    IsNodeKeys (K := keys_std) demo_nodes a = true.
Proof.
  apply (consensus_overlap (K := keys_std)).
  - reflexivity.
  - reflexivity.
  - reflexivity.
  - apply (bool_decide_unpack _). vm_compute. exact I.
  - apply (bool_decide_unpack _). vm_compute. exact I.
  - vm_compute. reflexivity.
  - vm_compute. reflexivity.
Defined.

Definition demo_tss : TssVoter :=
  (TssVoter_Sign (K := keys_std) (fun pk => Ok pk)
    (NewTssVoter "id" ["p1"; "p2"]%string "pool" "ed") "p1" ["BTC"; "ETH"]%string "sig").2.

Lemma TssVoter_deterministic_witness :
  ConsensusCheckSignature demo_tss [("sig"%string, 1)] =
    ConsensusCheckSignature demo_tss [("sig"%string, 1)] /\
  ConsensusChains demo_tss [("BTC"%string, 1); ("ETH"%string, 1)] =
    ConsensusChains demo_tss [("ETH"%string, 1); ("BTC"%string, 1)] /\
  len (tvSigners demo_tss) <= len (tvPubKeys demo_tss) /\
  (forall sig, ConsensusCheckSignature demo_tss [("sig"%string, 1)] = (sig, true) ->
     2 * len (tvPubKeys demo_tss) <= 3 * occ sig (Secp256K1Signatures demo_tss)).
Proof.
  apply (TssVoter_deterministic (K := keys_std) (fun pk => Ok pk)).
  - unfold demo_tss. apply reach_sign; [apply reach_new|split; simpl; lia].
  - reflexivity.
  - unfold map_order. apply (bool_decide_unpack _). vm_compute. exact I.
  - unfold map_order. apply (bool_decide_unpack _). vm_compute. exact I.
  - unfold map_order. apply (bool_decide_unpack _). vm_compute. exact I.
  - unfold map_order. apply (bool_decide_unpack _). vm_compute. exact I.
Defined.

Lemma deduplicateAttestations_spec_witness :
  let a := Some (mkAttestation "k" "s") in
  exists r, deduplicateAttestations [a; None; a] 2 = Ok r /\
    r `sublist_of` [a; None; a] /\ Forall is_Some r /\ NoDup (att_keys r) /\
    (len r <= 2) /\ (len r < 2 -> forall k, k ∈ att_keys [a; None; a] <-> k ∈ att_keys r).
Proof. intros a. apply (deduplicateAttestations_spec [a; None; a] 2). lia. Defined.
