(* ===== verification/Mimir.v ===== *)
(** Node mimirs: the votes the validators cast on configuration values,
    [x/thorchain/types/type_mimir.go]. *)
From S2P Require Import Prelude SdkMath GoStr Keys Shares Chains Assets Coins Nodes Txs Voters.
Local Open Scope string_scope.
Local Open Scope Z_scope.

Record NodeMimir := mkNodeMimir {
  nmKey : string;
  nmValue : Z;
  nmSigner : AccAddress
}.
Abbreviation NodeMimirs := (list NodeMimir) (only parsing).

Section mimirs.
Context {K : SdkKeys}.

(** [mim.Signer.Equals(acc) && strings.EqualFold(mim.Key, key)]. *)
Definition is_vote (key : string) (acc : AccAddress) (mim : NodeMimir) : bool :=
  acc_equals (nmSigner mim) acc && equal_fold (nmKey mim) key.

Definition NodeMimirs_Has (m : NodeMimirs) (key : string) (acc : AccAddress) : bool :=
  existsb (is_vote key acc) m.

Definition NodeMimirs_Get (m : NodeMimirs) (key : string) (acc : AccAddress) : Z * bool :=
  match List.find (is_vote key acc) m with
  | Some mim => (nmValue mim, true)
  | None => (0, false)
  end.

Fixpoint NodeMimirs_Set (m : NodeMimirs) (key : string) (val : Z) (acc : AccAddress) :
    NodeMimirs :=
  match m with
  | [] => [mkNodeMimir key val acc]
  | mim :: m' =>
      if is_vote key acc mim then mkNodeMimir (nmKey mim) val (nmSigner mim) :: m'
      else mim :: NodeMimirs_Set m' key val acc
  end.

Fixpoint NodeMimirs_Delete (m : NodeMimirs) (key : string) (acc : AccAddress) : NodeMimirs :=
  match m with
  | [] => []
  | mim :: m' => if is_vote key acc mim then m' else mim :: NodeMimirs_Delete m' key acc
  end.

(** ** Counting votes

    The loop that [countActive], [ValueOfEconomic] and [ValueOfOperational]
    share: the votes per value, and the signers that have voted. *)
Definition count_vote (key : string) (active : list AccAddress)
    (st : gmap Z Z * gset string) (mimir : NodeMimir) : gmap Z Z * gset string :=
  let '(counter, voted) := st in
  if negb (equal_fold (nmKey mimir) key) then st
  else if bool_decide (acc_string (nmSigner mimir) ∈ voted) then st
  else if existsb (fun acc => acc_equals acc (nmSigner mimir)) active then
    (<[nmValue mimir := i64 (default 0 (counter !! nmValue mimir) + 1)]> counter,
     {[acc_string (nmSigner mimir)]} ∪ voted)
  else st.

Definition count_votes (m : NodeMimirs) (key : string) (active : list AccAddress) :
    gmap Z Z * gset string :=
  foldl (count_vote key active) (∅, ∅) m.

(** [range counter] visits the entries in an order Go leaves open: [order] maps
    the counter to the sequence visited. *)
Context (order : gmap Z Z -> list (Z * Z)).

Definition countActive (m : NodeMimirs) (key : string) (active : list AccAddress)
    (maj : Z -> Z -> bool) : Z * bool :=
  let '(counter, _) := count_votes m key active in
  match List.find (fun '((_, count) : Z * Z) => maj count (len active)) (order counter) with
  | Some (val, _) => (val, true)
  | None => (0, false)
  end.

Definition NodeMimirs_HasSuperMajority (m : NodeMimirs) (key : string)
    (nas : list AccAddress) : Z * bool := countActive m key nas HasSuperMajority.

Definition NodeMimirs_HasSimpleMajority (m : NodeMimirs) (key : string)
    (nas : list AccAddress) : Z * bool := countActive m key nas HasSimpleMajority.

Definition NodeMimirs_HasMinority (m : NodeMimirs) (key : string)
    (nas : list AccAddress) : Z * bool := (0, false).

(** The value with the most votes, in the order visited. *)
Definition most_voted (st : Z * Z) (e : Z * Z) : Z * Z :=
  let '(mostVotedValue, maxVotes) := st in
  let '(value, count) := e in
  if maxVotes <? count then (value, count) else st.

Definition ValueOfEconomic (m : NodeMimirs) (key : string) (active : list AccAddress) : Z :=
  let '(voteCount, _) := count_votes m key active in
  let '(mostVotedValue, maxVotes) := foldl most_voted (-1, 0) (order voteCount) in
  if i64 (3 * maxVotes) <? i64 (2 * len active) then -1 else mostVotedValue.

Definition most_voted_tie (st : Z * Z * bool) (e : Z * Z) : Z * Z * bool :=
  let '(mostVotedValue, maxVotes, tie) := st in
  let '(value, count) := e in
  if maxVotes <? count then (value, count, false)
  else if count =? maxVotes then (mostVotedValue, maxVotes, true)
  else st.

Definition ValueOfOperational (m : NodeMimirs) (key : string) (minVotes : Z)
    (active : list AccAddress) : Z :=
  let '(voteCount, _) := count_votes m key active in
  let '(mostVotedValue, maxVotes, tie) := foldl most_voted_tie (-1, 0, false) (order voteCount) in
  if tie || (maxVotes <? minVotes) then -1 else mostVotedValue.
End mimirs.

(** ** Lemmas *)
Section mimir_lemmas.
Context {K : SdkKeys} `{!SdkKeysOk K}.

Lemma is_vote_spec key acc mim :
  is_vote key acc mim = true <-> nmSigner mim = acc /\ equal_fold (nmKey mim) key = true.
Proof. unfold is_vote. by rewrite andb_true_iff, acc_equals_ok. Qed.

Lemma Get_app m1 m2 key a : NodeMimirs_Get (m1 ++ m2) key a =
  (if snd (NodeMimirs_Get m1 key a) then NodeMimirs_Get m1 key a
   else NodeMimirs_Get m2 key a).
Proof.
  unfold NodeMimirs_Get. induction m1 as [|x m1 IH]; simpl; [done|].
  destruct (is_vote key a x); [done|]. exact IH.
Qed.

Lemma Get_single mim key a : NodeMimirs_Get [mim] key a =
  (if is_vote key a mim then (nmValue mim, true) else (0, false)).
Proof. unfold NodeMimirs_Get. simpl. by destruct (is_vote key a mim). Qed.

Lemma Get_none m key a : snd (NodeMimirs_Get m key a) = false -> NodeMimirs_Get m key a = (0, false).
Proof. unfold NodeMimirs_Get. by destruct (List.find _ m). Qed.

(** The active signers whose vote for [key] is [v]. *)
Definition voters_for (m : NodeMimirs) (key : string) (active : list AccAddress) (v : Z) :
    gset string :=
  filter (fun a => NodeMimirs_Get m key a = (v, true)) (list_to_set active).

Definition votes (m : NodeMimirs) (key : string) (active : list AccAddress) (v : Z) : Z :=
  Z.of_nat (size (voters_for m key active v)).

Lemma voters_for_active m key active v : voters_for m key active v ⊆ list_to_set active.
Proof. unfold voters_for. set_solver. Qed.

Lemma votes_le m key active v : 0 <= votes m key active v <= len active.
Proof.
  unfold votes, len. pose proof (subseteq_size _ _ (voters_for_active m key active v)).
  pose proof (gset_of_list_size active). lia.
Qed.

(** Two values share no voter. *)
Lemma votes_disjoint m key active v w : v <> w ->
  votes m key active v + votes m key active w <= len active.
Proof.
  intros Hne. unfold votes, len.
  assert (Hu : size (voters_for m key active v ∪ voters_for m key active w) =
    (size (voters_for m key active v) + size (voters_for m key active w))%nat).
  { apply size_union. intros a. unfold voters_for.
    rewrite !elem_of_filter. intros [H1 _] [H2 _]. congruence. }
  rewrite <- Nat2Z.inj_add, <- Hu. apply Nat2Z.inj_le.
  etrans; [apply subseteq_size; apply union_subseteq; split; apply voters_for_active|].
  apply gset_of_list_size.
Qed.

Lemma acc_string_inj a b : valid_acc a -> valid_acc b -> acc_string a = acc_string b -> a = b.
Proof.
  intros Ha Hb H. apply acc_roundtrip in Ha, Hb. rewrite H, Hb in Ha. congruence.
Qed.

(** What the counters say after the votes [m]. *)
Record counted (m : NodeMimirs) (key : string) (active : list AccAddress)
    (st : gmap Z Z * gset string) : Prop := {
  counted_votes v : default 0 (fst st !! v) = votes m key active v;
  counted_pos v c : fst st !! v = Some c -> 0 < c;
  counted_voted a : a ∈ active ->
    acc_string a ∈ snd st <-> snd (NodeMimirs_Get m key a) = true
}.

(** A signer's vote is the first one recorded; later entries change nothing. *)
Lemma voters_for_snoc m key active x v : voters_for (m ++ [x]) key active v =
  (if equal_fold (nmKey x) key && bool_decide (nmSigner x ∈ active) &&
      negb (snd (NodeMimirs_Get m key (nmSigner x))) && (nmValue x =? v)
   then {[nmSigner x]} ∪ voters_for m key active v else voters_for m key active v).
Proof.
  apply set_eq. intros a. unfold voters_for. rewrite elem_of_filter, Get_app, Get_single.
  rewrite elem_of_list_to_set.
  destruct (is_vote key a x) eqn:Ev.
  - apply is_vote_spec in Ev as [<- ->]. simpl.
    destruct (NodeMimirs_Get m key (nmSigner x)) as [w b] eqn:Eg.
    destruct (decide (nmSigner x ∈ active)) as [Ha|Ha].
    + rewrite bool_decide_eq_true_2 by done. destruct b; simpl.
      * rewrite elem_of_filter, elem_of_list_to_set, Eg. naive_solver.
      * destruct (Z.eqb_spec (nmValue x) v) as [->|Hv]; [set_solver|].
        rewrite elem_of_filter, elem_of_list_to_set, Eg. naive_solver.
    + rewrite bool_decide_eq_false_2 by done. simpl.
      rewrite elem_of_filter, elem_of_list_to_set. naive_solver.
  - assert (Hne : equal_fold (nmKey x) key = true -> nmSigner x <> a).
    { intros Hk Ha. assert (is_vote key a x = true) by (apply is_vote_spec; done). congruence. }
    assert (Hg : (if snd (NodeMimirs_Get m key a) then NodeMimirs_Get m key a else (0, false)) =
      NodeMimirs_Get m key a).
    { destruct (snd (NodeMimirs_Get m key a)) eqn:E; [done|]. by rewrite (Get_none _ _ _ E). }
    rewrite Hg. case_if; [|by rewrite elem_of_filter, elem_of_list_to_set].
    rewrite !andb_true_iff in E. destruct E as [[[Hk _] _] _].
    rewrite elem_of_union, elem_of_singleton, elem_of_filter, elem_of_list_to_set.
    specialize (Hne Hk). naive_solver.
Qed.

Lemma Get_snoc m x key a : snd (NodeMimirs_Get (m ++ [x]) key a) =
  snd (NodeMimirs_Get m key a) || is_vote key a x.
Proof.
  rewrite Get_app, Get_single. destruct (snd (NodeMimirs_Get m key a)) eqn:E; [by rewrite E|].
  by destruct (is_vote key a x).
Qed.

Lemma existsb_active active x :
  existsb (fun acc => acc_equals acc x) active = bool_decide (x ∈ active).
Proof.
  apply eq_true_iff_eq. rewrite bool_decide_eq_true, existsb_exists. split.
  - intros (a & Ha & ->%acc_equals_ok). by apply list_elem_of_In.
  - intros Hx%list_elem_of_In. exists x. split; [done|by apply acc_equals_ok].
Qed.

Lemma counted_nil key active : counted [] key active (∅, ∅).
Proof.
  split; simpl; [intros v|intros v c; by rewrite lookup_empty|intros a Ha; set_solver].
  rewrite lookup_empty. unfold votes.
  replace (voters_for [] key active v) with (∅ : gset string); [by rewrite size_empty|].
  symmetry. apply set_eq. intros a. unfold voters_for. rewrite elem_of_filter. set_solver.
Qed.

(** An entry that does not count leaves everything as it was. *)
Lemma counted_skip m x key active st : counted m key active st ->
  equal_fold (nmKey x) key && bool_decide (nmSigner x ∈ active) &&
    negb (snd (NodeMimirs_Get m key (nmSigner x))) = false ->
  counted (m ++ [x]) key active st.
Proof.
  intros [Hv Hp Hd] Hskip. split; [|done|].
  - intros v. rewrite Hv. unfold votes. by rewrite voters_for_snoc, Hskip.
  - intros a Ha. rewrite (Hd a Ha), Get_snoc, orb_true_iff. split; [by left|].
    intros [?|[<- Hk]%is_vote_spec]; [done|]. rewrite Hk, bool_decide_eq_true_2 in Hskip by done.
    simpl in Hskip. by apply negb_false_iff in Hskip.
Qed.

(** An entry that counts is one more vote for its value. *)
Lemma counted_add m x key active counter voted : Forall valid_acc active ->
  len active < 2 ^ 62 -> counted m key active (counter, voted) ->
  equal_fold (nmKey x) key = true -> nmSigner x ∈ active ->
  snd (NodeMimirs_Get m key (nmSigner x)) = false ->
  counted (m ++ [x]) key active
    (<[nmValue x := i64 (default 0 (counter !! nmValue x) + 1)]> counter,
     {[acc_string (nmSigner x)]} ∪ voted).
Proof.
  intros Hact Hlen [Hv Hp Hd] Hk Hs Hg. simpl in *.
  assert (Hvotes : forall v, votes (m ++ [x]) key active v =
    votes m key active v + (if nmValue x =? v then 1 else 0)).
  { intros v. unfold votes. rewrite voters_for_snoc, Hk, Hg, bool_decide_eq_true_2 by done.
    simpl. destruct (nmValue x =? v); [|lia].
    rewrite size_union, size_singleton; [lia|]. intros a. unfold voters_for.
    rewrite elem_of_singleton, elem_of_filter. intros -> [Hg' _]. by rewrite Hg' in Hg. }
  assert (Hi : i64 (default 0 (counter !! nmValue x) + 1) = votes (m ++ [x]) key active (nmValue x)).
  { rewrite Hv, Hvotes, Z.eqb_refl. apply i64_id.
    pose proof (votes_le m key active (nmValue x)). unfold is_i64. lia. }
  rewrite Hi. split; simpl.
  - intros v. destruct (Z.eq_dec (nmValue x) v) as [<-|Hne].
    + by rewrite lookup_insert_eq.
    + rewrite lookup_insert_ne by done. rewrite Hv, Hvotes.
      destruct (Z.eqb_spec (nmValue x) v); [done|lia].
  - intros v c. destruct (Z.eq_dec (nmValue x) v) as [<-|Hne].
    + rewrite lookup_insert_eq, Hvotes, Z.eqb_refl.
      pose proof (votes_le m key active (nmValue x)). intros [= <-]. lia.
    + rewrite lookup_insert_ne by done. apply Hp.
  - intros a Ha. rewrite elem_of_union, elem_of_singleton, (Hd a Ha), Get_snoc, orb_true_iff.
    rewrite is_vote_spec. rewrite Forall_forall in Hact. split.
    + intros [He|?]; [|by left]. right. split; [|done].
      symmetry. apply acc_string_inj; auto.
    + intros [?|[-> _]]; auto.
Qed.

Lemma count_votes_counted m key active : Forall valid_acc active -> len active < 2 ^ 62 ->
  counted m key active (count_votes m key active).
Proof.
  intros Hact Hlen. unfold count_votes.
  induction m as [|x m IH] using rev_ind; [apply counted_nil|].
  rewrite foldl_app. simpl. destruct (foldl _ _ m) as [counter voted]. unfold count_vote.
  pose proof (counted_voted _ _ _ _ IH (nmSigner x)) as Hd. simpl in Hd.
  destruct (equal_fold (nmKey x) key) eqn:Ek; simpl; [|by apply counted_skip; rewrite ?Ek].
  rewrite existsb_active.
  destruct (decide (nmSigner x ∈ active)) as [Ha|Ha].
  - rewrite (bool_decide_eq_true_2 (nmSigner x ∈ active)) by done. case_bool_decide as Hb.
    + apply counted_skip; [done|]. apply Hd in Hb; [|done].
      by rewrite Hb, andb_false_r.
    + apply counted_add; try done. apply not_true_iff_false. by rewrite <- Hd.
  - rewrite (bool_decide_eq_false_2 (nmSigner x ∈ active)) by done.
    assert (counted (m ++ [x]) key active (counter, voted)).
    { apply counted_skip; [done|]. by rewrite bool_decide_eq_false_2, andb_false_r. }
    by case_bool_decide.
Qed.
End mimir_lemmas.

(** ** What does not depend on the order maps are iterated in *)

(** [order] lists the entries of a map, each once. *)
Definition range_order (order : gmap Z Z -> list (Z * Z)) : Prop :=
  forall m, order m ≡ₚ map_to_list m.

Section order_lemmas.
Context {K : SdkKeys} `{!SdkKeysOk K}.
Context (order : gmap Z Z -> list (Z * Z)) (Horder : range_order order).

Lemma elem_of_order (m : gmap Z Z) v c : (v, c) ∈ order m <-> m !! v = Some c.
Proof using Horder. rewrite (Horder m). apply elem_of_map_to_list. Qed.

Lemma counted_entry m key active st v c : counted m key active st ->
  (v, c) ∈ order (fst st) <-> c = votes m key active v /\ 0 < c.
Proof using Horder.
  intros [Hv Hp _]. rewrite elem_of_order. split.
  - intros H. rewrite <- Hv, H. split; [done|]. by eapply Hp.
  - intros [-> Hpos]. rewrite <- Hv in *. destruct (fst st !! v); [done|]. simpl in Hpos. lia.
Qed.

Lemma order_NoDup (m : gmap Z Z) : NoDup (order m).*1.
Proof using Horder. rewrite (Horder m). apply NoDup_fst_map_to_list. Qed.
End order_lemmas.

Lemma most_voted_max o : Forall (fun e => 0 < snd e) o ->
  let '(v, c) := foldl most_voted (-1, 0) o in
  (forall w d, (w, d) ∈ o -> d <= c) /\ ((v, c) = (-1, 0) /\ o = [] \/ (v, c) ∈ o).
Proof.
  induction o as [|[w d] o IH] using rev_ind; intros Hpos; simpl.
  { split; [intros w d H; by apply not_elem_of_nil in H|by left]. }
  apply Forall_app in Hpos as [Hpos Hd]. inversion_clear Hd. simpl in *.
  specialize (IH Hpos). rewrite foldl_app. simpl.
  destruct (foldl _ _ o) as [v c]. simpl. destruct IH as [Hmax Hin].
  destruct (Z.ltb_spec c d).
  - split; [|right; set_solver].
    intros w' d' [H'|[= -> ->]%list_elem_of_singleton]%elem_of_app; [|lia].
    specialize (Hmax _ _ H'). lia.
  - split.
    + intros w' d' [H'|[= -> ->]%list_elem_of_singleton]%elem_of_app; [by eapply Hmax|lia].
    + destruct Hin as [[[= -> ->] ->]|Hin]; [lia|]. right. set_solver.
Qed.

Lemma most_voted_tie_max o : Forall (fun e => 0 < snd e) o -> NoDup o.*1 ->
  let '(v, c, tie) := foldl most_voted_tie (-1, 0, false) o in
  (forall w d, (w, d) ∈ o -> d <= c) /\
  ((v, c, tie) = (-1, 0, false) /\ o = [] \/
   (v, c) ∈ o /\ (tie = true <-> exists w, w <> v /\ (w, c) ∈ o)).
Proof.
  induction o as [|[w d] o IH] using rev_ind; intros Hpos Hnd; simpl.
  { split; [intros w d H; by apply not_elem_of_nil in H|by left]. }
  apply Forall_app in Hpos as [Hpos Hd]. inversion_clear Hd. simpl in *.
  rewrite fmap_app, NoDup_app in Hnd. destruct Hnd as (Hnd & Hfresh & _).
  specialize (IH Hpos Hnd). rewrite foldl_app. simpl.
  destruct (foldl _ _ o) as [[v c] tie]. simpl. destruct IH as [Hmax Hin].
  assert (Hw : forall d', (w, d') ∉ o).
  { intros d' H'. apply (Hfresh w); [|by left]. apply list_elem_of_fmap. by exists (w, d'). }
  destruct (Z.ltb_spec c d); [|destruct (Z.eqb_spec d c)].
  - split; [|right; split; [set_solver|]].
    + intros w' d' [H'|[= -> ->]%list_elem_of_singleton]%elem_of_app; [|lia].
      specialize (Hmax _ _ H'). lia.
    + split; [done|]. intros (w' & Hne & [H'|[= ->]%list_elem_of_singleton]%elem_of_app); [|done].
      specialize (Hmax _ _ H'). lia.
  - split.
    + intros w' d' [H'|[= -> ->]%list_elem_of_singleton]%elem_of_app; [by eapply Hmax|lia].
    + right. destruct Hin as [[[= -> -> ->] ->]|[Hin _]]; [lia|]. split; [set_solver|].
      split; [intros _|done]. exists w. split; [intros ->; by apply (Hw c)|].
      subst. set_solver.
  - split.
    + intros w' d' [H'|[= -> ->]%list_elem_of_singleton]%elem_of_app; [by eapply Hmax|lia].
    + right. destruct Hin as [[[= -> -> ->] ->]|[Hin Htie]]; [lia|]. split; [set_solver|].
      rewrite Htie. split; intros (w' & Hne & H'); exists w'; (split; [done|]); [set_solver|].
      apply elem_of_app in H' as [H'|[= -> ->]%list_elem_of_singleton]; [done|lia].
Qed.

(** No two entries are the same signer's vote for the same key. *)
Definition vote_id (mim : NodeMimir) : AccAddress * string := (nmSigner mim, to_upper (nmKey mim)).
Definition unique_votes (m : NodeMimirs) : Prop := NoDup (map vote_id m).

Section store_lemmas.
Context {K : SdkKeys} `{!SdkKeysOk K}.

Lemma is_vote_id key acc mim : is_vote key acc mim = true <-> vote_id mim = (acc, to_upper key).
Proof. rewrite is_vote_spec, equal_fold_spec. unfold vote_id. split; [intros [<- ->]|intros [= <- ->]]; done. Qed.

Lemma Set_ids m key val acc : map vote_id (NodeMimirs_Set m key val acc) =
  (if NodeMimirs_Has m key acc then map vote_id m
   else map vote_id m ++ [(acc, to_upper key)])%list.
Proof.
  unfold NodeMimirs_Has. induction m as [|x m IH]; simpl; [done|].
  destruct (is_vote key acc x); simpl; [done|]. rewrite IH. by destruct (existsb _ m).
Qed.

Lemma Has_ids m key acc :
  NodeMimirs_Has m key acc = true <-> (acc, to_upper key) ∈ map vote_id m.
Proof.
  unfold NodeMimirs_Has. rewrite existsb_exists, list_elem_of_fmap. split.
  - intros (x & Hx & Hv). exists x. apply is_vote_id in Hv. rewrite <- list_elem_of_In in Hx. done.
  - intros (x & Hv & Hx). exists x. rewrite <- list_elem_of_In, is_vote_id. done.
Qed.

Lemma Get_Has m key acc : snd (NodeMimirs_Get m key acc) = NodeMimirs_Has m key acc.
Proof.
  unfold NodeMimirs_Get, NodeMimirs_Has. induction m as [|x m IH]; simpl; [done|].
  by destruct (is_vote key acc x).
Qed.

Lemma Delete_sublist m key acc : sublist (NodeMimirs_Delete m key acc) m.
Proof.
  induction m as [|x m IH]; simpl; [done|]. destruct (is_vote key acc x).
  - by apply sublist_cons.
  - by apply sublist_skip.
Qed.

(** A vote of someone else, or for another key. *)
Definition other_vote (key acc key' acc' : string) : Prop :=
  acc' <> acc \/ to_upper key' <> to_upper key.

Lemma other_is_vote key acc key' acc' x : other_vote key acc key' acc' ->
  is_vote key acc x = true -> is_vote key' acc' x = false.
Proof.
  intros Ho Hx. apply not_true_iff_false. rewrite is_vote_id in *. rewrite Hx.
  unfold other_vote in Ho. intros [= ??]. naive_solver.
Qed.
End store_lemmas.

(** The two decisions, for any iteration order. *)
Lemma economic_value {K : SdkKeys} `{!SdkKeysOk K} order (m : NodeMimirs) key
    active : range_order order -> Forall valid_acc active -> len active < 2 ^ 60 ->
  let enough v := 0 < votes m key active v /\ 2 * len active <= 3 * votes m key active v in
  (forall v, enough v ->
     NodeMimirs_HasSuperMajority order m key active = (v, true) /\
     ValueOfEconomic order m key active = v) /\
  ((forall v, ~ enough v) ->
     NodeMimirs_HasSuperMajority order m key active = (0, false) /\
     ValueOfEconomic order m key active = -1) /\
  (forall v, NodeMimirs_HasSuperMajority order m key active = (v, true) -> enough v).
Proof.
  intros Ho Hact Hlen enough. unfold NodeMimirs_HasSuperMajority, countActive, ValueOfEconomic.
  pose proof (count_votes_counted m key active Hact ltac:(lia)) as Hc.
  destruct (count_votes m key active) as [counter voted].
  pose proof (fun v c => counted_entry order Ho m key active _ v c Hc) as He. simpl in He.
  assert (Hpos : Forall (fun e => 0 < snd e) (order counter)).
  { apply Forall_forall. intros [v c] [_ Hvc]%He. done. }
  pose proof (most_voted_max _ Hpos) as Hmax.
  destruct (foldl most_voted (-1, 0) (order counter)) as [w d]. destruct Hmax as [Hmax Hw].
  assert (Hwd : 0 <= d <= len active).
  { destruct Hw as [[[= -> ->] _]|[-> _]%He]; [unfold len; lia|apply votes_le]. }
  rewrite !i64_id by (unfold is_i64; lia).
  assert (Hun : forall v v', enough v -> enough v' -> v = v').
  { intros v v' [H1 H2] [H3 H4]. destruct (Z.eq_dec v v') as [|Hne]; [done|].
    pose proof (votes_disjoint m key active v v' Hne). lia. }
  assert (Hmaj : forall v c, (v, c) ∈ order counter ->
    HasSuperMajority c (len active) = true <-> enough v).
  { intros v c [-> Hpv]%He. rewrite HasSuperMajority_spec by lia. unfold enough.
    pose proof (votes_le m key active v). lia. }
  split; [intros v|split; [intros Hv|intros v]].
  - intros Hev. assert (Hin : (v, votes m key active v) ∈ order counter).
    { apply He. destruct Hev. done. }
    split.
    + destruct (List.find _ (order counter)) as [[v' c']|] eqn:Ef.
      * apply find_some in Ef as [Hf1 Hf2]. apply list_elem_of_In in Hf1.
        apply (Hmaj _ _ Hf1) in Hf2. by rewrite (Hun v v').
      * pose proof (find_none _ _ Ef _ (proj1 (list_elem_of_In _ _) Hin)) as Hf. simpl in Hf.
        by rewrite (proj2 (Hmaj _ _ Hin) Hev) in Hf.
    + specialize (Hmax _ _ Hin). destruct Hev as [H1 H2].
      destruct Hw as [[[= -> ->] _]|Hw]; [lia|]. apply He in Hw as [-> _].
      destruct (Z.ltb_spec (3 * votes m key active w) (2 * len active)); [lia|].
      symmetry. apply Hun; [done|]. split; lia.
  - split.
    + destruct (List.find _ (order counter)) as [[v' c']|] eqn:Ef; [|done].
      apply find_some in Ef as [Hf1 Hf2]. apply list_elem_of_In in Hf1.
      apply (Hmaj _ _ Hf1) in Hf2. by destruct (Hv v').
    + destruct Hw as [[[= -> ->] _]|Hw]; [by case_if|]. apply He in Hw as [-> Hpw].
      destruct (Z.ltb_spec (3 * votes m key active w) (2 * len active)); [done|].
      destruct (Hv w). split; lia.
  - destruct (List.find _ (order counter)) as [[v' c']|] eqn:Ef; [|done]. intros [= <-].
    apply find_some in Ef as [Hf1 Hf2]. apply list_elem_of_In in Hf1. by apply (Hmaj _ _ Hf1).
Qed.

Lemma operational_value {K : SdkKeys} `{!SdkKeysOk K} order (m : NodeMimirs) key
    minVotes active : range_order order -> Forall valid_acc active -> len active < 2 ^ 60 ->
  let winner v := 0 < votes m key active v /\
    forall w, w <> v -> votes m key active w < votes m key active v in
  (forall v, winner v -> ValueOfOperational order m key minVotes active =
     if votes m key active v <? minVotes then -1 else v) /\
  ((forall v, ~ winner v) -> ValueOfOperational order m key minVotes active = -1) /\
  (forall v, ValueOfOperational order m key minVotes active = v -> v <> -1 ->
     winner v /\ minVotes <= votes m key active v).
Proof.
  intros Ho Hact Hlen winner. unfold ValueOfOperational.
  pose proof (count_votes_counted m key active Hact ltac:(lia)) as Hc.
  destruct (count_votes m key active) as [counter voted].
  pose proof (fun v c => counted_entry order Ho m key active _ v c Hc) as He. simpl in He.
  assert (Hpos : Forall (fun e => 0 < snd e) (order counter)).
  { apply Forall_forall. intros [v c] [_ Hvc]%He. done. }
  pose proof (most_voted_tie_max _ Hpos (order_NoDup order Ho counter)) as Hmax.
  destruct (foldl most_voted_tie _ (order counter)) as [[w d] tie]. destruct Hmax as [Hmax Hw].
  assert (Hwin : tie = false -> (w, d) <> (-1, 0) -> d = votes m key active w /\ winner w).
  { intros -> Hne0. destruct Hw as [[[= -> ->] _]|[Hw Htie]]; [done|].
    apply He in Hw as [-> Hw0]. split; [done|]. split; [done|]. intros w' Hne.
    destruct (Z.lt_ge_cases (votes m key active w') (votes m key active w)) as [|Hge]; [done|].
    assert (Hin : (w', votes m key active w') ∈ order counter) by (apply He; lia).
    specialize (Hmax _ _ Hin). assert (false = true); [|done]. apply Htie. exists w'.
    split; [done|]. apply He. lia. }
  split; [intros v [Hv0 Hv]|split; [intros Hv|intros v Hr Hne]].
  - assert (Hin : (v, votes m key active v) ∈ order counter) by (by apply He).
    destruct Hw as [[_ Hnil]|[Hw Htie]]; [rewrite Hnil in Hin; by apply not_elem_of_nil in Hin|].
    specialize (Hmax _ _ Hin). apply He in Hw as [-> Hw0].
    assert (w = v) as -> by (destruct (Z.eq_dec w v); [done|]; specialize (Hv w); lia).
    destruct tie; [|done]. destruct (proj1 Htie eq_refl) as (w' & Hne & [Hw' _]%He).
    specialize (Hv w' Hne). lia.
  - destruct tie; [done|]. simpl. destruct (decide ((w, d) = (-1, 0))) as [[= -> ->]|Hne].
    + by case_if.
    + destruct (Hwin eq_refl Hne) as [_ Hw']. by destruct (Hv w).
  - destruct tie; [done|]. simpl in Hr. destruct (Z.ltb_spec d minVotes); [congruence|]. subst v.
    destruct Hwin as [-> Hw']; [done|congruence|done].
Qed.

(** ** Properties *)

(** The votes of the nodes are a map from signer and case-insensitive key to
    a value: [Set] stores the value and keeps every other vote, [Delete] removes
    exactly that vote, and both keep at most one vote per signer and key. *)
Theorem node_mimirs_map {K : SdkKeys} `{!SdkKeysOk K} (m : NodeMimirs) key val acc :
  unique_votes m ->
  unique_votes (NodeMimirs_Set m key val acc) /\
  unique_votes (NodeMimirs_Delete m key acc) /\
  NodeMimirs_Get (NodeMimirs_Set m key val acc) key acc = (val, true) /\
  NodeMimirs_Get (NodeMimirs_Delete m key acc) key acc = (0, false) /\
  (forall key' acc', other_vote key acc key' acc' ->
     NodeMimirs_Get (NodeMimirs_Set m key val acc) key' acc' = NodeMimirs_Get m key' acc' /\
     NodeMimirs_Get (NodeMimirs_Delete m key acc) key' acc' = NodeMimirs_Get m key' acc') /\
  (forall key' acc', NodeMimirs_Has m key' acc' = snd (NodeMimirs_Get m key' acc')).
Proof.
  intros Hu. unfold unique_votes in *. split.
  { rewrite Set_ids. destruct (NodeMimirs_Has m key acc) eqn:E; [done|].
    rewrite NoDup_app. split; [done|]. split; [|apply NoDup_singleton].
    intros i Hi ->%list_elem_of_singleton. apply Has_ids in Hi. congruence. }
  split; [by eapply sublist_NoDup; [done|]; apply fmap_sublist, Delete_sublist|].
  split.
  { clear Hu. unfold NodeMimirs_Get. induction m as [|x m IH]; simpl.
    - by rewrite (proj2 (is_vote_id key acc (mkNodeMimir key val acc)) eq_refl).
    - destruct (is_vote key acc x) eqn:E; simpl; [|by rewrite E].
      rewrite (proj2 (is_vote_id key acc _)); [done|]. by apply is_vote_id in E. }
  split.
  { apply Get_none. rewrite Get_Has. induction m as [|x m IH]; simpl; [done|].
    simpl in Hu. apply NoDup_cons in Hu as [Hx Hu].
    destruct (is_vote key acc x) eqn:E; [|simpl; by rewrite E, IH].
    apply not_true_iff_false. rewrite Has_ids. apply is_vote_id in E. by rewrite <- E. }
  split; [|intros; symmetry; apply Get_Has].
  intros key' acc' Ho. clear Hu. unfold NodeMimirs_Get. split.
  - induction m as [|x m IH]; simpl.
    + rewrite (other_is_vote key acc key' acc' (mkNodeMimir _ _ _)); [done|done|].
      by apply is_vote_id.
    + destruct (is_vote key acc x) eqn:E; simpl; [|by destruct (is_vote key' acc' x)].
      rewrite (other_is_vote key acc key' acc' x) by done.
      rewrite (other_is_vote key acc key' acc' (mkNodeMimir _ _ _)); [done|done|].
      apply is_vote_id. by apply is_vote_id in E.
  - induction m as [|x m IH]; simpl; [done|].
    destruct (is_vote key acc x) eqn:E; simpl; [|by destruct (is_vote key' acc' x)].
    by rewrite (other_is_vote key acc key' acc' x) by done.
Qed.

(** Economic mimirs are decided the same way on every node, whatever the
    order its maps are iterated in: when the votes for [v], one per active
    signer, reach two thirds of the active nodes, both [HasSuperMajority] and
    [ValueOfEconomic] answer [v], and otherwise there is no value. *)
Theorem economic_mimir_deterministic {K : SdkKeys} `{!SdkKeysOk K} order (m : NodeMimirs) key
    active : range_order order -> Forall valid_acc active -> len active < 2 ^ 60 ->
  let enough v := 0 < votes m key active v /\ 2 * len active <= 3 * votes m key active v in
  (forall v, enough v ->
     NodeMimirs_HasSuperMajority order m key active = (v, true) /\
     ValueOfEconomic order m key active = v) /\
  ((forall v, ~ enough v) ->
     NodeMimirs_HasSuperMajority order m key active = (0, false) /\
     ValueOfEconomic order m key active = -1) /\
  (forall v, NodeMimirs_HasSuperMajority order m key active = (v, true) -> enough v).
Proof. apply economic_value. Qed.

(** Operational mimirs too are independent of iteration order: the result is
    the value with strictly the most votes, provided it has at least [minVotes],
    and [-1] when there is no vote, a tie for the most, or too few votes. *)
Theorem operational_mimir_deterministic {K : SdkKeys} `{!SdkKeysOk K} order (m : NodeMimirs) key
    minVotes active : range_order order -> Forall valid_acc active -> len active < 2 ^ 60 ->
  let winner v := 0 < votes m key active v /\
    forall w, w <> v -> votes m key active w < votes m key active v in
  (forall v, winner v -> ValueOfOperational order m key minVotes active =
     if votes m key active v <? minVotes then -1 else v) /\
  ((forall v, ~ winner v) -> ValueOfOperational order m key minVotes active = -1) /\
  (forall v, ValueOfOperational order m key minVotes active = v -> v <> -1 ->
     winner v /\ minVotes <= votes m key active v).
Proof. apply operational_value. Qed.

(** ** The properties at concrete inputs *)

Definition demo_votes : NodeMimirs :=
  [mkNodeMimir "Pause" 1 "a"; mkNodeMimir "PAUSE" 2 "b"; mkNodeMimir "pause" 2 "c";
   mkNodeMimir "PAUSE" 1 "b"; mkNodeMimir "Other" 1 "c"].

(** Two orders a map with entries 1 and 2 may be iterated in. *)
Definition range_up : gmap Z Z -> list (Z * Z) := map_to_list.
Definition range_down (m : gmap Z Z) : list (Z * Z) := reverse (map_to_list m).

Lemma range_up_ok : range_order range_up.
Proof. intros m. done. Qed.
Lemma range_down_ok : range_order range_down.
Proof. intros m. unfold range_down. by rewrite reverse_Permutation. Qed.

(** [HasSimpleMajority] is not deterministic: with half of the nodes for each
    of two values, which one it answers depends on the order the map of votes
    is iterated in. *)
Theorem simple_majority_order_dependent : exists (m : NodeMimirs) active,
  range_order range_up /\ range_order range_down /\
  NodeMimirs_HasSimpleMajority (K := keys_std) range_up m "Pause" active <>
  NodeMimirs_HasSimpleMajority (K := keys_std) range_down m "Pause" active.
Proof.
  exists demo_votes, ["a"; "b"]. split; [apply range_up_ok|]. split; [apply range_down_ok|].
  vm_compute. congruence.
Qed.

Lemma demo_active_valid : Forall valid_acc ["a"; "b"; "c"].
Proof. repeat constructor; simpl; lia. Qed.

Lemma node_mimirs_map_witness :
  NodeMimirs_Get (K := keys_std) (NodeMimirs_Set (K := keys_std)
    [mkNodeMimir "Pause" 1 "a"; mkNodeMimir "PAUSE" 2 "b"] "pause" 7 "b") "Pause" "b" = (7, true).
Proof.
  destruct (node_mimirs_map (K := keys_std)
    [mkNodeMimir "Pause" 1 "a"; mkNodeMimir "PAUSE" 2 "b"] "Pause" 7 "b") as (_ & _ & H & _).
  - apply (bool_decide_unpack _). vm_compute. exact I.
  - vm_compute. vm_compute in H. exact H.
Defined.

Lemma economic_mimir_deterministic_witness :
  ValueOfEconomic (K := keys_std) range_up demo_votes "pause" ["a"; "b"; "c"] = 2 /\
  ValueOfEconomic (K := keys_std) range_down demo_votes "pause" ["a"; "b"; "c"] = 2.
Proof.
  assert (H : forall order, range_order order ->
    ValueOfEconomic (K := keys_std) order demo_votes "pause" ["a"; "b"; "c"] = 2).
  { intros order Ho. refine (proj2 (proj1 (economic_mimir_deterministic (K := keys_std) order
      demo_votes "pause" ["a"; "b"; "c"] Ho demo_active_valid _) 2 _)).
    - vm_compute. reflexivity.
    - vm_compute. split; [reflexivity|congruence]. }
  split; apply H; [apply range_up_ok|apply range_down_ok].
Defined.

Lemma operational_mimir_deterministic_witness :
  ValueOfOperational (K := keys_std) range_up demo_votes "pause" 2 ["a"; "b"; "c"] = 2.
Proof.
  refine (proj1 (operational_mimir_deterministic (K := keys_std) range_up demo_votes "pause" 2
    ["a"; "b"; "c"] range_up_ok demo_active_valid _) 2 _).
  - vm_compute. reflexivity.
  - assert (H2 : votes (K := keys_std) demo_votes "pause" ["a"; "b"; "c"] 2 = 2)
      by (vm_compute; reflexivity).
    rewrite H2. split; [lia|]. intros w Hne.
    pose proof (votes_disjoint (K := keys_std) demo_votes "pause" ["a"; "b"; "c"] w 2 Hne) as Hd.
    rewrite H2 in Hd. unfold len in Hd. simpl in Hd. lia.
Defined.
