(* ===== verification/Observed.v ===== *)
(** The voter of an observed transaction:
    [x/thorchain/types/type_observed_tx.go].

    Comparing transactions sorts gas slices in place, so the operations that
    compare return the voter with its slices rearranged. *)
From S2P Require Import Prelude SdkMath GoStr Keys Shares Chains Assets Coins Nodes Txs Voters.
Local Open Scope string_scope.
Local Open Scope Z_scope.

Record ObservedTxVoter := mkObservedTxVoter {
  ovTxID : TxID;
  ovTx : ObservedTx;
  ovHeight : Z;
  ovTxs : list ObservedTx;
  Actions : list TxOutItem;
  OutTxs : list Tx;
  FinalisedHeight : Z;
  UpdatedVault : bool;
  Reverted : bool;
  OutboundHeight : Z;
  UnfinalizedHeight : Z
}.

Definition with_ovTx (m : ObservedTxVoter) (tx : ObservedTx) : ObservedTxVoter :=
  mkObservedTxVoter (ovTxID m) tx (ovHeight m) (ovTxs m) (Actions m) (OutTxs m)
    (FinalisedHeight m) (UpdatedVault m) (Reverted m) (OutboundHeight m) (UnfinalizedHeight m).
Definition with_ovTxs (m : ObservedTxVoter) (txs : list ObservedTx) : ObservedTxVoter :=
  mkObservedTxVoter (ovTxID m) (ovTx m) (ovHeight m) txs (Actions m) (OutTxs m)
    (FinalisedHeight m) (UpdatedVault m) (Reverted m) (OutboundHeight m) (UnfinalizedHeight m).
Definition with_outTxs (m : ObservedTxVoter) (outs : list Tx) : ObservedTxVoter :=
  mkObservedTxVoter (ovTxID m) (ovTx m) (ovHeight m) (ovTxs m) (Actions m) outs
    (FinalisedHeight m) (UpdatedVault m) (Reverted m) (OutboundHeight m) (UnfinalizedHeight m).
Definition with_reverted (m : ObservedTxVoter) (b : bool) : ObservedTxVoter :=
  mkObservedTxVoter (ovTxID m) (ovTx m) (ovHeight m) (ovTxs m) (Actions m) (OutTxs m)
    (FinalisedHeight m) (UpdatedVault m) b (OutboundHeight m) (UnfinalizedHeight m).

Definition NewObservedTxVoter (txID : TxID) (txs : list ObservedTx) : ObservedTxVoter :=
  mkObservedTxVoter txID EmptyObservedTx 0 txs [] [] 0 false false 0 0.

Fixpoint observed_Valid (txs : list ObservedTx) : goerr :=
  match txs with
  | [] => None
  | tx :: txs' => match ObservedTx_Valid tx with Some e => Some e | None => observed_Valid txs' end
  end.

Definition ObservedTxVoter_Valid (m : ObservedTxVoter) : goerr :=
  if TxID_IsEmpty (ovTxID m) then Some "cannot have an empty tx id"
  else observed_Valid (ovTxs m).

(** ** Outbound transactions *)

Section outbound.
Context {S : SdkMath}.

(** One round of the loop of [matchActionItem]. *)
Definition action_matches (outboundTx : Tx) (toi : TxOutItem) : outcome bool :=
  let matchCoin := Coins_Contains (txCoins outboundTx) (toCoin toi) in
  let asset := GetGasAsset (toChain toi) in
  matchCoin ←
    (if negb matchCoin && Asset_Equals (cAsset (toCoin toi)) asset then
       intendToSpend ← uint_add (cAmount (toCoin toi))
         (cAmount (Coins_GetCoin (ToCoins (MaxGas toi)) asset));
       actualSpend ← uint_add (cAmount (Coins_GetCoin (txCoins outboundTx) asset))
         (cAmount (Coins_GetCoin (ToCoins (txGas outboundTx)) asset));
       Ok (intendToSpend =? actualSpend)
     else Ok matchCoin);
  Ok (equal_fold (GetMemo toi) (txMemo outboundTx) &&
      Address_Equals (toToAddress toi) (txTo outboundTx) &&
      Chain_Equals (toChain toi) (txChain outboundTx) && matchCoin).

Fixpoint match_loop (outboundTx : Tx) (actions : list TxOutItem) : outcome bool :=
  match actions with
  | [] => Ok false
  | toi :: actions' =>
      b ← action_matches outboundTx toi;
      if (b : bool) then Ok true else match_loop outboundTx actions'
  end.

Definition matchActionItem (m : ObservedTxVoter) (outboundTx : Tx) : outcome bool :=
  match_loop outboundTx (Actions m).

Definition AddOutTx (m : ObservedTxVoter) (tx_in : Tx) : outcome (bool * ObservedTxVoter) :=
  matched ← matchActionItem m tx_in;
  if negb matched then Ok (false, m)
  else if negb (TxID_Equals (txID tx_in) BlankTxID) &&
          existsb (fun t => TxID_Equals (txID tx_in) (txID t)) (OutTxs m)
  then Ok (true, m)
  else
    let numOuts := len (Actions m) in
    let m := with_outTxs m (OutTxs m ++ [tx_in]) in
    let m := with_ovTxs m (map (fun t => SetDone t (txID tx_in) numOuts) (ovTxs m)) in
    let m := if negb (ObservedTx_IsEmpty (ovTx m))
             then with_ovTx m (SetDone (ovTx m) (txID tx_in) numOuts) else m in
    Ok (true, m).
End outbound.

Definition ObservedTxVoter_IsDone (m : ObservedTxVoter) : bool :=
  len (Actions m) <=? len (OutTxs m).

(** [for _, item := range m.Txs { item.Status = ... }] assigns to a copy of
    each element, so [m.Txs] stays as it is. *)
Definition setStatus (m : ObservedTxVoter) (toStatus : TxStatus) : ObservedTxVoter :=
  if negb (ObservedTx_IsEmpty (ovTx m))
  then with_ovTx m (with_otStatus (ovTx m) toStatus) else m.

Definition SetReverted (m : ObservedTxVoter) : ObservedTxVoter :=
  with_reverted (setStatus m Status_reverted) true.

Definition ObservedTxVoter_SetDone (m : ObservedTxVoter) : ObservedTxVoter :=
  setStatus m Status_done.

(** ** Votes *)
Section votes.
Context {K : SdkKeys}.

(** The search loop of [Add]: whether the signer already signed an equal
    transaction, the slice and the transaction as the comparisons left them,
    and the last equal index. *)
Fixpoint add_loop (signer : AccAddress) (idx : nat) (txs : list ObservedTx)
    (observedTx : ObservedTx) (votedIdx : option nat) :
    bool * list ObservedTx * ObservedTx * option nat :=
  match txs with
  | [] => (false, [], observedTx, votedIdx)
  | transaction :: txs' =>
      let '(equal, transaction, observedTx) := ObservedTx_Equals transaction observedTx in
      if negb equal then
        let '(signed, txs', observedTx, votedIdx) :=
          add_loop signer (S idx) txs' observedTx votedIdx in
        (signed, transaction :: txs', observedTx, votedIdx)
      else if ObservedTx_HasSigned transaction signer then
        (true, transaction :: txs', observedTx, Some idx)
      else
        let '(signed, txs', observedTx, votedIdx) :=
          add_loop signer (S idx) txs' observedTx (Some idx) in
        (signed, transaction :: txs', observedTx, votedIdx)
  end.

Definition Add (m : ObservedTxVoter) (observedTx : ObservedTx) (signer : AccAddress) :
    bool * ObservedTxVoter :=
  let '(signed, txs, observedTx, votedIdx) := add_loop signer 0 (ovTxs m) observedTx None in
  if (signed : bool) then (false, with_ovTxs m txs)
  else
    match votedIdx with
    | Some i =>
        let '(b, tx) := ObservedTx_Sign (nth i txs EmptyObservedTx) signer in
        (b, with_ovTxs m (<[i := tx]> txs))
    | None =>
        (true, with_ovTxs m (txs ++ [with_otSigners observedTx [acc_string signer]]))
    end.

(** The innermost loop: the addresses of the active nodes among the signers. *)
Definition add_voters (accounts : NodeAccounts) (voters : gset string)
    (signers : list AccAddress) : gset string :=
  foldl (fun voters signer =>
    if negb (bool_decide (acc_string signer ∈ voters)) && IsNodeKeys accounts signer
    then {[acc_string signer]} ∪ voters else voters) voters signers.

(** Comparing [m.Txs[i]] with [m.Txs[j]] may reorder the gas of both. *)
Definition compare_txs (txs : list ObservedTx) (i j : nat) : bool * list ObservedTx :=
  let txFinal := nth i txs EmptyObservedTx in
  let txIn := nth j txs EmptyObservedTx in
  let '(b, t, t2) := Tx_EqualsEx (otTx txFinal) (otTx txIn) in
  (b, <[j := with_tx txIn t2]> (<[i := with_tx txFinal t]> txs)).

Fixpoint voters_loop (accounts : NodeAccounts) (final : bool) (i : nat) (js : list nat)
    (txs : list ObservedTx) (voters : gset string) : list ObservedTx * gset string :=
  match js with
  | [] => (txs, voters)
  | j :: js' =>
      if negb (Bool.eqb (IsFinal (nth j txs EmptyObservedTx)) final) then
        voters_loop accounts final i js' txs voters
      else
        let '(equal, txs) := compare_txs txs i j in
        let voters := if (equal : bool)
          then add_voters accounts voters (ObservedTx_GetSigners (nth j txs EmptyObservedTx))
          else voters in
        voters_loop accounts final i js' txs voters
  end.

Fixpoint consensus_loop (accounts : NodeAccounts) (final : bool) (todo : list nat)
    (txs : list ObservedTx) : ObservedTx * list ObservedTx :=
  match todo with
  | [] => (EmptyObservedTx, txs)
  | i :: todo' =>
      if negb (Bool.eqb (IsFinal (nth i txs EmptyObservedTx)) final) then
        consensus_loop accounts final todo' txs
      else
        let '(txs, voters) := voters_loop accounts final i (seq 0 (length txs)) txs ∅ in
        if HasSuperMajority (Z.of_nat (size voters)) (len accounts)
        then (nth i txs EmptyObservedTx, txs)
        else consensus_loop accounts final todo' txs
  end.

Definition getConsensusTx (m : ObservedTxVoter) (accounts : NodeAccounts) (final : bool) :
    ObservedTx * ObservedTxVoter :=
  let '(tx, txs) := consensus_loop accounts final (seq 0 (length (ovTxs m))) (ovTxs m) in
  (tx, with_ovTxs m txs).

(** The pointer returned is to the stored transaction or to a copy; callers
    read it. *)
Definition GetTx (m : ObservedTxVoter) (nodeAccounts : NodeAccounts) :
    ObservedTx * ObservedTxVoter :=
  if negb (ObservedTx_IsEmpty (ovTx m)) && IsFinal (ovTx m) then (ovTx m, m)
  else
    let '(finalTx, m) := getConsensusTx m nodeAccounts true in
    if negb (ObservedTx_IsEmpty finalTx) then (finalTx, m)
    else
      let '(discoverTx, m) := getConsensusTx m nodeAccounts false in
      if negb (ObservedTx_IsEmpty discoverTx) then (discoverTx, m)
      else (ovTx m, m).

Definition ObservedTxVoter_HasConsensus (m : ObservedTxVoter) (nodeAccounts : NodeAccounts) :
    bool * ObservedTxVoter :=
  let '(consensusTx, m) := GetTx m nodeAccounts in
  (negb (ObservedTx_IsEmpty consensusTx), m).

Definition HasFinalised (m : ObservedTxVoter) (nodeAccounts : NodeAccounts) :
    bool * ObservedTxVoter :=
  let '(finalTx, m) := GetTx m nodeAccounts in
  if ObservedTx_IsEmpty finalTx then (false, m) else (IsFinal finalTx, m).

(** The loops of [GetConsensusSigners]: each signer once, in order. *)
Fixpoint collect_signers (signers : list AccAddress) (acc : list AccAddress)
    (signersMap : gset string) : list AccAddress * gset string :=
  match signers with
  | [] => (acc, signersMap)
  | signer :: signers' =>
      if bool_decide (acc_string signer ∈ signersMap)
      then collect_signers signers' acc signersMap
      else collect_signers signers' (acc ++ [signer]) ({[acc_string signer]} ∪ signersMap)
  end.

Fixpoint consensus_signers_loop (final : bool) (mTx : Tx) (txs : list ObservedTx)
    (acc : list AccAddress) (signersMap : gset string) :
    list AccAddress * Tx * list ObservedTx :=
  match txs with
  | [] => (acc, mTx, [])
  | tx :: txs' =>
      if negb (Bool.eqb (IsFinal tx) final) then
        let '(acc, mTx, txs') := consensus_signers_loop final mTx txs' acc signersMap in
        (acc, mTx, tx :: txs')
      else
        let '(equal, t, mTx) := Tx_EqualsEx (otTx tx) mTx in
        let tx := with_tx tx t in
        let '(acc, signersMap) :=
          if (equal : bool) then collect_signers (ObservedTx_GetSigners tx) acc signersMap
          else (acc, signersMap) in
        let '(acc, mTx, txs') := consensus_signers_loop final mTx txs' acc signersMap in
        (acc, mTx, tx :: txs')
  end.

Definition GetConsensusSigners (m : ObservedTxVoter) : list AccAddress * ObservedTxVoter :=
  if ObservedTx_IsEmpty (ovTx m) then ([], m)
  else
    let '(signers, mTx, txs) :=
      consensus_signers_loop (IsFinal (ovTx m)) (otTx (ovTx m)) (ovTxs m) [] ∅ in
    (signers, with_ovTxs (with_ovTx m (with_tx (ovTx m) mTx)) txs).
End votes.

(** ** Lemmas *)

(** *** Transactions whose gas was rearranged *)
Definition gas_sorted (a b : ObservedTx) : Prop :=
  exists t, gas_moved (otTx a) t /\ b = with_tx a t.

Lemma gas_sorted_refl a : gas_sorted a a.
Proof. exists (otTx a). split; [apply gas_moved_refl|by destruct a]. Qed.

Lemma gas_sorted_trans a b c : gas_sorted a b -> gas_sorted b c -> gas_sorted a c.
Proof.
  intros (t & Ht & ->) (t' & Ht' & ->). exists t'. split; [|done].
  by eapply gas_moved_trans.
Qed.

#[export] Instance gas_sorted_preorder : PreOrder gas_sorted.
Proof. split; [exact gas_sorted_refl|exact gas_sorted_trans]. Qed.

Lemma gas_sorted_same a b : gas_sorted a b -> tx_same (otTx b) (otTx a).
Proof. intros (t & Ht & ->). by apply gas_moved_same. Qed.

Lemma gas_sorted_final a b : gas_sorted a b -> IsFinal b = IsFinal a.
Proof. by intros (t & _ & ->). Qed.

Lemma gas_sorted_signers a b : gas_sorted a b -> otSigners b = otSigners a.
Proof. by intros (t & _ & ->). Qed.

Lemma gas_sorted_insert l i x y : l !! i = Some x -> gas_sorted x y -> Forall2 gas_sorted l (<[i:=y]> l).
Proof.
  revert i. induction l as [|z l IH]; intros [|i] Hi Hm; simplify_eq/=.
  - constructor; [done|]. reflexivity.
  - constructor; [reflexivity|]. by apply IH.
Qed.

Lemma compare_txs_spec txs i j x y b txs' : txs !! i = Some x -> txs !! j = Some y ->
  compare_txs txs i j = (b, txs') ->
  (b = true <-> tx_same (otTx x) (otTx y)) /\ Forall2 gas_sorted txs txs'.
Proof.
  intros Hi Hj. unfold compare_txs.
  rewrite (nth_lookup_Some _ _ _ _ Hi), (nth_lookup_Some _ _ _ _ Hj).
  destruct (Tx_EqualsEx (otTx x) (otTx y)) as [[r t] t2] eqn:E. intros [= <- <-].
  destruct (Tx_EqualsEx_spec _ _ _ _ _ E) as (Hr & Hx & Hy). split; [done|].
  destruct (decide (i = j)) as [->|Hne].
  - rewrite list_insert_insert_eq. simplify_eq. eapply gas_sorted_insert; [done|]. by exists t2.
  - etransitivity; [eapply gas_sorted_insert; [exact Hi|by exists t]|].
    eapply gas_sorted_insert; [|by exists t2]. by rewrite list_lookup_insert_ne.
Qed.

(** *** Equality of observed transactions *)
Definition obs_same (a b : ObservedTx) : Prop :=
  tx_same (otTx a) (otTx b) /\ ObservedPubKey a = ObservedPubKey b /\
  otBlockHeight a = otBlockHeight b /\ FinaliseHeight a = FinaliseHeight b /\
  to_upper (otAggregator a) = to_upper (otAggregator b) /\
  to_upper (otAggregatorTarget a) = to_upper (otAggregatorTarget b) /\
  default 0 (otAggregatorTargetLimit a) = default 0 (otAggregatorTargetLimit b).

#[export] Instance obs_same_equiv : Equivalence obs_same.
Proof.
  unfold obs_same. split.
  - intros a. split; [reflexivity|]. repeat split.
  - intros a b (?&?&?&?&?&?&?). split; [by symmetry|]. repeat split; by symmetry.
  - intros a b c (?&?&?&?&?&?&?) (?&?&?&?&?&?&?). split; [by etransitivity|].
    repeat split; by etransitivity.
Qed.

Lemma gas_sorted_obs_same a b : gas_sorted a b -> obs_same b a.
Proof. intros (t & Ht & ->). split; [by apply gas_moved_same|done]. Qed.

Lemma ObservedTx_Equals_spec a b r a' b' : ObservedTx_Equals a b = (r, a', b') ->
  (r = true <-> obs_same a b) /\ gas_sorted a a' /\ gas_sorted b b'.
Proof.
  unfold ObservedTx_Equals.
  destruct (Tx_EqualsEx (otTx a) (otTx b)) as [[r0 t] t2] eqn:E. intros [= <- <- <-].
  destruct (Tx_EqualsEx_spec _ _ _ _ _ E) as (Hr & Ha & Hb).
  split; [|by split; eexists].
  unfold obs_same, PubKey_Equals. simpl.
  rewrite !andb_true_iff, !equal_fold_spec, !Z.eqb_eq, String.eqb_eq, Hr. tauto.
Qed.

(** *** The search of [Add] *)
Section add_lemmas.
Context {K : SdkKeys} `{!SdkKeysOk K}.

Definition signed_by (signer : AccAddress) (o t : ObservedTx) : Prop :=
  obs_same t o /\ signer ∈ ObservedTx_GetSigners t.

Lemma gas_sorted_signed_by s o a b : gas_sorted a b -> signed_by s o b <-> signed_by s o a.
Proof.
  intros Hm. unfold signed_by, ObservedTx_GetSigners. rewrite (gas_sorted_signers _ _ Hm).
  by rewrite (gas_sorted_obs_same _ _ Hm).
Qed.

Lemma ObservedTx_HasSigned_spec t s : ObservedTx_HasSigned t s = true <-> s ∈ ObservedTx_GetSigners t.
Proof. apply existsb_acc_equals. Qed.

Lemma add_loop_spec signer idx txs o v signed txs' o' v' :
  add_loop signer idx txs o v = (signed, txs', o', v') ->
  Forall2 gas_sorted txs txs' /\ gas_sorted o o' /\
  (signed = true <-> Exists (signed_by signer o) txs) /\
  (signed = false ->
     (v' = v /\ Forall (fun t => ~ obs_same t o) txs) \/
     exists k t, v' = Some (idx + k)%nat /\ txs !! k = Some t /\ obs_same t o).
Proof.
  revert idx o v signed txs' o' v'.
  induction txs as [|t txs IH]; intros idx o v signed txs' o' v' H; simpl in H.
  - simplify_eq. split; [constructor|]. split; [reflexivity|].
    split; [split; [done|by inversion 1]|]. intros _. left. split; [done|constructor].
  - destruct (ObservedTx_Equals t o) as [[e t1] o1] eqn:E.
    destruct (ObservedTx_Equals_spec _ _ _ _ _ E) as (He & Ht & Ho).
    assert (Hob : forall u, obs_same u o1 <-> obs_same u o).
    { intros u. by rewrite (gas_sorted_obs_same _ _ Ho). }
    assert (Hsg : forall u, signed_by signer o1 u <-> signed_by signer o u).
    { intros u. unfold signed_by. by rewrite Hob. }
    destruct e; simpl in H.
    + destruct (ObservedTx_HasSigned t1 signer) eqn:Es.
      * simplify_eq. apply ObservedTx_HasSigned_spec in Es.
        unfold ObservedTx_GetSigners in Es. rewrite (gas_sorted_signers _ _ Ht) in Es.
        split; [constructor; [done|reflexivity]|]. split; [done|]. split; [|done].
        split; [|done]. intros _. left. split; [by apply He|done].
      * destruct (add_loop signer (S idx) txs o1 (Some idx)) as [[[s2 tx2] o2] v2] eqn:Er.
        simplify_eq. destruct (IH _ _ _ _ _ _ _ Er) as (H1 & H2 & H3 & H4).
        split; [by constructor|]. split; [by etransitivity|]. split.
        { rewrite H3, Exists_cons. split.
          - intros Hx. right. eapply Exists_impl; [exact Hx|]. intros u. by rewrite Hsg.
          - intros [[_ Hx]|Hx].
            + exfalso. assert (ObservedTx_HasSigned t1 signer = true); [|congruence].
              apply ObservedTx_HasSigned_spec. unfold ObservedTx_GetSigners.
              by rewrite (gas_sorted_signers _ _ Ht).
            + eapply Exists_impl; [exact Hx|]. intros u. by rewrite Hsg. }
        intros Hs. destruct (H4 Hs) as [[-> _]|(k & u & -> & Hk & Hu)]; right.
        -- exists 0%nat, t. rewrite Nat.add_0_r. split; [done|]. split; [done|]. by apply He.
        -- exists (S k), u. split; [f_equal; lia|]. split; [done|]. by apply Hob.
    + destruct (add_loop signer (S idx) txs o1 v) as [[[s2 tx2] o2] v2] eqn:Er.
      simplify_eq. destruct (IH _ _ _ _ _ _ _ Er) as (H1 & H2 & H3 & H4).
      assert (Hn : ~ obs_same t o) by (intros Hx; apply He in Hx; done).
      split; [by constructor|]. split; [by etransitivity|]. split.
      { rewrite H3, Exists_cons. split.
        - intros Hx. right. eapply Exists_impl; [exact Hx|]. intros u. by rewrite Hsg.
        - intros [[Hx _]|Hx]; [done|]. eapply Exists_impl; [exact Hx|]. intros u. by rewrite Hsg. }
      intros Hs. destruct (H4 Hs) as [[-> Hf]|(k & u & -> & Hk & Hu)].
      * left. split; [done|]. constructor; [done|]. eapply Forall_impl; [exact Hf|].
        intros u. simpl. by rewrite Hob.
      * right. exists (S k), u. split; [f_equal; lia|]. split; [done|]. by apply Hob.
Qed.
End add_lemmas.

Section add_spec.
Context {K : SdkKeys} `{!SdkKeysOk K}.

(** [a] already voted for an observation equal to [o]. *)
Definition already (m : ObservedTxVoter) (o : ObservedTx) (a : AccAddress) : Prop :=
  Exists (signed_by a o) (ovTxs m).

(** Two entries carry the same votes of [a]. *)
Definition votes_eq (a : AccAddress) (t t' : ObservedTx) : Prop :=
  forall o, signed_by a o t' <-> signed_by a o t.

Lemma Exists_votes_eq a o l l' : Forall2 (votes_eq a) l l' ->
  Exists (signed_by a o) l' <-> Exists (signed_by a o) l.
Proof.
  induction 1 as [|x y l l' Hx Hl IH]; [split; by inversion 1|].
  by rewrite !Exists_cons, IH, (Hx o).
Qed.

Lemma Forall2_insert_r {A} (R : A -> A -> Prop) l l' k x y : Forall2 R l l' ->
  l !! k = Some x -> R x y -> Forall2 R l (<[k:=y]> l').
Proof.
  intros H. revert k. induction H as [|a b l l' Ha Hl IH]; intros [|k] Hk Hxy; simplify_eq/=;
    constructor; auto.
Qed.

Lemma gas_sorted_votes_eq a l l' : Forall2 gas_sorted l l' -> Forall2 (votes_eq a) l l'.
Proof. intros H. eapply Forall2_impl; [exact H|]. intros x y Hm o. by apply gas_sorted_signed_by. Qed.

Lemma signed_by_new t signer : valid_acc signer ->
  ObservedTx_GetSigners (with_otSigners t (otSigners t ++ [acc_string signer])) =
    (ObservedTx_GetSigners t ++ [signer])%list.
Proof.
  intros Hv. unfold ObservedTx_GetSigners. simpl.
  by rewrite parse_signers_app, parse_signers_string.
Qed.

Lemma votes_eq_sign a signer t : valid_acc signer -> a <> signer ->
  votes_eq a t (with_otSigners t (otSigners t ++ [acc_string signer])).
Proof.
  intros Hv Ha o. unfold signed_by. rewrite signed_by_new by done.
  rewrite elem_of_app, list_elem_of_singleton. unfold obs_same. simpl.
  split; [by intros [? [?|?]]|by intros [? ?]; auto].
Qed.

Lemma Add_spec m o signer b m' : valid_acc signer -> Add m o signer = (b, m') ->
  (b = true <-> ~ already m o signer) /\ already m' o signer /\
  (forall o' a, a <> signer -> already m' o' a <-> already m o' a) /\
  m' = with_ovTxs m (ovTxs m').
Proof.
  intros Hv H. unfold Add in H.
  destruct (add_loop signer 0 (ovTxs m) o None) as [[[signed txs] o1] v] eqn:E.
  destruct (add_loop_spec _ _ _ _ _ _ _ _ _ E) as (Hm & Ho & Hs & Hn).
  destruct signed.
  - simplify_eq. assert (Hal : already m o signer) by by apply Hs.
    split; [split; [done|intros Hx; by destruct Hx]|]. unfold already. simpl. split.
    { by apply (Exists_votes_eq signer o _ _ (gas_sorted_votes_eq _ _ _ Hm)). }
    split; [|done]. intros o' a _. by apply Exists_votes_eq, gas_sorted_votes_eq.
  - assert (Hna : ~ Exists (signed_by signer o) (ovTxs m)) by (rewrite <- Hs; done).
    destruct (Hn eq_refl) as [[-> Hf]|(k & t & -> & Hk & Ht)].
    + simplify_eq. split; [done|]. unfold already. simpl.
      assert (Hnew : ObservedTx_GetSigners (with_otSigners o1 [acc_string signer]) = [signer]).
      { by apply parse_signers_string. }
      split.
      { apply Exists_app. right. constructor. split; [|rewrite Hnew; by left].
        rewrite <- (gas_sorted_obs_same _ _ Ho). done. }
      split; [|done]. intros o' a Ha. rewrite Exists_app.
      rewrite (Exists_votes_eq a o' _ _ (gas_sorted_votes_eq _ _ _ Hm)).
      split; [intros [?|Hx]; [done|]|by left].
      apply Exists_cons in Hx as [[_ Hx]|Hx]; [|by inversion Hx].
      rewrite Hnew in Hx. by apply list_elem_of_singleton in Hx.
    + simpl in H. destruct (Forall2_lookup_l _ _ _ _ _ Hm Hk) as (t1 & Hk1 & Hm1).
      rewrite (nth_lookup_Some _ _ _ _ Hk1) in H. unfold ObservedTx_Sign in H.
      destruct (ObservedTx_HasSigned t1 signer) eqn:Es.
      { exfalso. apply Hna, Exists_exists. exists t.
        split; [by eapply list_elem_of_lookup_2|]. apply ObservedTx_HasSigned_spec in Es.
        split; [done|]. unfold ObservedTx_GetSigners in *. by rewrite <- (gas_sorted_signers _ _ Hm1). }
      injection H as <- <-. split; [done|]. unfold already. simpl.
      set (t2 := with_otSigners t1 (otSigners t1 ++ [acc_string signer])).
      assert (Hlt : (k < length txs)%nat) by (by eapply lookup_lt_Some).
      split.
      { apply Exists_exists. exists t2. split.
        - apply (list_elem_of_lookup_2 _ k). by apply list_lookup_insert_eq.
        - split; [|unfold t2; rewrite signed_by_new by done; apply elem_of_app; right; by left].
          transitivity t1; [by split|]. rewrite (gas_sorted_obs_same _ _ Hm1). done. }
      split; [|done]. intros o' a Ha.
      assert (Hve : Forall2 (votes_eq a) (ovTxs m) (<[k:=t2]> txs)).
      { apply Forall2_insert_r with (x := t); [by apply gas_sorted_votes_eq|done|].
        intros o2. unfold t2. rewrite (votes_eq_sign a signer t1 Hv Ha o2).
        by apply gas_sorted_signed_by. }
      by apply Exists_votes_eq.
Qed.
End add_spec.

(** *** Consensus *)
Section consensus_lemmas.
Context {K : SdkKeys} `{!SdkKeysOk K}.

Lemma add_voters_spec accounts signers voters s : s ∈ add_voters accounts voters signers <->
  s ∈ voters \/ exists a, a ∈ signers /\ IsNodeKeys accounts a = true /\ acc_string a = s.
Proof.
  unfold add_voters. revert voters. induction signers as [|a signers IH]; intros voters; simpl.
  - split; [by left|]. intros [?|(a & H & _)]; [done|by apply elem_of_nil in H].
  - rewrite IH. setoid_rewrite elem_of_cons.
    case_bool_decide as Hin; destruct (IsNodeKeys accounts a) eqn:Ea; simpl;
      rewrite ?elem_of_union, ?elem_of_singleton.
    + split; [intros [?|(b & ? & ?)]; eauto|].
      intros [?|(b & [->|?] & ? & <-)]; eauto.
    + split; [intros [?|(b & ? & ?)]; eauto|].
      intros [?|(b & [->|?] & ? & <-)]; eauto.
    + split; [intros [[->|?]|(b & ? & ?)]; eauto 6|].
      intros [?|(b & [->|?] & ? & <-)]; eauto.
    + split; [intros [?|(b & ? & ?)]; eauto|].
      intros [?|(b & [->|?] & ? & <-)]; [eauto|congruence|eauto].
Qed.

(** [u] is a vote for the same transaction as [t] with the asked finality, and
    [s] names an active node that signed it. *)
Definition voted (accounts : list NodeAccount) (final : bool) (t u : ObservedTx) (s : string) : Prop :=
  IsFinal u = final /\ tx_same (otTx t) (otTx u) /\
  exists a, a ∈ ObservedTx_GetSigners u /\ IsNodeKeys accounts a = true /\ acc_string a = s.

Lemma voted_gas_sorted accounts final t t' u u' s : gas_sorted t t' -> gas_sorted u u' ->
  voted accounts final t' u' s <-> voted accounts final t u s.
Proof.
  intros Ht Hu. unfold voted, ObservedTx_GetSigners.
  rewrite (gas_sorted_final _ _ Hu), (gas_sorted_signers _ _ Hu).
  by rewrite (gas_sorted_same _ _ Ht), (gas_sorted_same _ _ Hu).
Qed.

Lemma voters_loop_spec accounts final i t js txs V txs' V' :
  txs !! i = Some t -> Forall (fun j => (j < length txs)%nat) js ->
  voters_loop accounts final i js txs V = (txs', V') ->
  Forall2 gas_sorted txs txs' /\
  forall s, s ∈ V' <-> s ∈ V \/ exists j u, j ∈ js /\ txs !! j = Some u /\ voted accounts final t u s.
Proof.
  intros Hi Hjs. revert txs t Hi V txs' V' Hjs.
  induction js as [|j js IH]; intros txs t Hi V txs' V' Hjs H; simpl in H.
  - simplify_eq. split; [reflexivity|]. intros s. split; [by left|].
    intros [?|(j & u & Hj & _)]; [done|by apply elem_of_nil in Hj].
  - apply Forall_cons_1 in Hjs as [Hj Hjs].
    destruct (lookup_lt_is_Some_2 txs j Hj) as [u Hu].
    rewrite (nth_lookup_Some _ _ _ _ Hu) in H.
    destruct (Bool.eqb_spec (IsFinal u) final) as [Hf|Hf]; simpl in H.
    + destruct (compare_txs txs i j) as [equal txs1] eqn:Ec.
      destruct (compare_txs_spec _ _ _ _ _ _ _ Hi Hu Ec) as [He Hm1].
      destruct (Forall2_lookup_l _ _ _ _ _ Hm1 Hi) as (t1 & Hi1 & Ht1).
      destruct (Forall2_lookup_l _ _ _ _ _ Hm1 Hu) as (u1 & Hu1 & Hmu1).
      apply (IH txs1 t1 Hi1) in H as [Hm2 HV]; [|by rewrite <- (Forall2_length _ _ _ Hm1)].
      split; [by etransitivity|]. intros s. rewrite HV. clear HV IH Hm2.
      assert (Htail : (exists k w, k ∈ js /\ txs1 !! k = Some w /\ voted accounts final t1 w s) <->
                      (exists k w, k ∈ js /\ txs !! k = Some w /\ voted accounts final t w s)).
      { split; intros (k & w & Hk & Hw & Hv).
        - destruct (Forall2_lookup_r _ _ _ _ _ Hm1 Hw) as (w0 & Hw0 & Hmw).
          exists k, w0. split; [done|]. split; [done|]. by apply (voted_gas_sorted _ _ t t1 w0 w).
        - destruct (Forall2_lookup_l _ _ _ _ _ Hm1 Hw) as (w0 & Hw0 & Hmw).
          exists k, w0. split; [done|]. split; [done|]. by apply (voted_gas_sorted _ _ t t1 w w0). }
      rewrite Htail. clear Htail.
      assert (Hhere : s ∈ (if equal then add_voters accounts V
          (ObservedTx_GetSigners (nth j txs1 EmptyObservedTx)) else V) <->
        s ∈ V \/ voted accounts final t u s).
      { rewrite (nth_lookup_Some _ _ _ _ Hu1). unfold ObservedTx_GetSigners at 1.
        rewrite (gas_sorted_signers _ _ Hmu1). unfold voted. destruct equal.
        - rewrite add_voters_spec. apply proj1 in He. specialize (He eq_refl).
          fold (ObservedTx_GetSigners u). intuition.
        - assert (~ tx_same (otTx t) (otTx u)) by (intros Hx; apply He in Hx; done).
          intuition. }
      rewrite Hhere. split.
      * intros [[?|Hv]|(k & w & Hk & Hw & Hv)]; [by left| |].
        -- right. exists j, u. split; [by left|]. done.
        -- right. exists k, w. split; [by right|]. done.
      * intros [?|(k & w & Hk & Hw & Hv)]; [by do 2 left|].
        apply elem_of_cons in Hk as [->|Hk]; [left; right; by simplify_eq|]. right. eauto 6.
    + apply (IH txs t Hi) in H as [Hm HV]; [|done]. split; [done|]. intros s. rewrite HV.
      split.
      * intros [?|(k & w & Hk & ?)]; [by left|]. right. exists k, w. split; [by right|done].
      * intros [?|(k & w & Hk & Hw & Hv)]; [by left|]. apply elem_of_cons in Hk as [->|Hk].
        -- destruct Hv as [Hv _]. simplify_eq.
        -- right. eauto 6.
Qed.

(** The nodes that voted for [t]'s transaction, as a set. *)
Definition votes_for (accounts : list NodeAccount) (final : bool) (txs : list ObservedTx)
    (t : ObservedTx) (V : gset string) : Prop :=
  forall s, s ∈ V <-> exists u, u ∈ txs /\ voted accounts final t u s.

Definition has_quorum (accounts : list NodeAccount) (V : gset string) : Prop :=
  HasSuperMajority (Z.of_nat (size V)) (len accounts) = true.

Lemma votes_for_gas_sorted accounts final txs txs' t t' V : Forall2 gas_sorted txs txs' -> gas_sorted t t' ->
  votes_for accounts final txs' t' V <-> votes_for accounts final txs t V.
Proof.
  intros Hm Ht. unfold votes_for.
  enough (Hs : forall s, (exists u, u ∈ txs' /\ voted accounts final t' u s) <->
                         (exists u, u ∈ txs /\ voted accounts final t u s))
    by (by setoid_rewrite Hs).
  intros s. split; intros (u & Hu & Hv).
  - apply list_elem_of_lookup in Hu as [k Hk].
    destruct (Forall2_lookup_r _ _ _ _ _ Hm Hk) as (w & Hw & Hmw).
    exists w. split; [by eapply list_elem_of_lookup_2|]. by apply (voted_gas_sorted _ _ t t' w u).
  - apply list_elem_of_lookup in Hu as [k Hk].
    destruct (Forall2_lookup_l _ _ _ _ _ Hm Hk) as (w & Hw & Hmw).
    exists w. split; [by eapply list_elem_of_lookup_2|]. by apply (voted_gas_sorted _ _ t t' u w).
Qed.

Lemma votes_for_unique accounts final txs t V V' :
  votes_for accounts final txs t V -> votes_for accounts final txs t V' -> V = V'.
Proof. intros H H'. apply set_eq. intros s. by rewrite (H s), (H' s). Qed.

Lemma consensus_loop_spec accounts final todo txs r txs' :
  Forall (fun j => (j < length txs)%nat) todo ->
  consensus_loop accounts final todo txs = (r, txs') ->
  Forall2 gas_sorted txs txs' /\
  ((r = EmptyObservedTx /\ forall i t V, i ∈ todo -> txs !! i = Some t -> IsFinal t = final ->
      votes_for accounts final txs t V -> ~ has_quorum accounts V) \/
   (exists i t V, i ∈ todo /\ txs !! i = Some t /\ gas_sorted t r /\ IsFinal t = final /\
      votes_for accounts final txs t V /\ has_quorum accounts V)).
Proof.
  revert txs r txs'. induction todo as [|i todo IH]; intros txs r txs' Htodo H; simpl in H.
  - simplify_eq. split; [reflexivity|]. left. split; [done|]. by intros i t V ?%elem_of_nil.
  - apply Forall_cons_1 in Htodo as [Hi Htodo].
    destruct (lookup_lt_is_Some_2 txs i Hi) as [t Ht].
    rewrite (nth_lookup_Some _ _ _ _ Ht) in H.
    destruct (Bool.eqb_spec (IsFinal t) final) as [Hf|Hf]; simpl in H.
    + destruct (voters_loop accounts final i (seq 0 (length txs)) txs ∅) as [txs1 V] eqn:Ev.
      apply (voters_loop_spec _ _ _ t) in Ev as [Hm HV]; [|done|].
      2:{ apply Forall_forall. intros j Hj%elem_of_seq. lia. }
      assert (Hvf : votes_for accounts final txs t V).
      { intros s. rewrite HV. split.
        - intros [?%elem_of_empty|(j & u & _ & Hu & Hv)]; [done|].
          exists u. split; [by eapply list_elem_of_lookup_2|done].
        - intros (u & Hu & Hv). right. apply list_elem_of_lookup in Hu as [k Hk].
          exists k, u. split; [|done]. apply elem_of_seq.
          apply lookup_lt_Some in Hk. lia. }
      destruct (HasSuperMajority (Z.of_nat (size V)) (len accounts)) eqn:Eq.
      * simplify_eq. split; [done|]. right.
        destruct (Forall2_lookup_l _ _ _ _ _ Hm Ht) as (t1 & Ht1 & Hmt).
        rewrite (nth_lookup_Some _ _ _ _ Ht1). exists i, t, V. split; [by left|]. done.
      * apply IH in H as [Hm2 H]; [|by rewrite <- (Forall2_length _ _ _ Hm)].
        split; [by etransitivity|]. destruct H as [[-> Hno]|(j & u & W & Hj & Hu & Hr & Hfu & HW & Hq)].
        -- left. split; [done|]. intros j u W Hj Hu Hfu HW.
           apply elem_of_cons in Hj as [->|Hj].
           { simplify_eq. rewrite (votes_for_unique _ _ _ _ _ _ HW Hvf).
             unfold has_quorum. by rewrite Eq. }
           destruct (Forall2_lookup_l _ _ _ _ _ Hm Hu) as (u1 & Hu1 & Hmu).
           apply (Hno j u1 W Hj Hu1); [by rewrite (gas_sorted_final _ _ Hmu)|].
           by apply (votes_for_gas_sorted _ _ _ _ _ _ _ Hm Hmu).
        -- right. destruct (Forall2_lookup_r _ _ _ _ _ Hm Hu) as (u0 & Hu0 & Hmu).
           exists j, u0, W. split; [by right|]. split; [done|]. split; [by etransitivity|].
           split; [by rewrite <- (gas_sorted_final _ _ Hmu)|]. split; [|done].
           by apply (votes_for_gas_sorted _ _ _ _ _ _ _ Hm Hmu).
    + apply IH in H as [Hm2 H]; [|done]. split; [done|].
      destruct H as [[-> Hno]|(j & u & W & Hj & H)].
      * left. split; [done|]. intros j u W Hj Hu Hfu HW.
        apply elem_of_cons in Hj as [->|Hj]; [simplify_eq|eauto].
      * right. exists j, u, W. split; [by right|]. done.
Qed.
End consensus_lemmas.

(** ** Properties *)

(** A node's vote for an observation counts once: [Add] succeeds exactly when
    the signer has not signed an equal observation, records the vote, leaves
    every other signer's votes alone, and refuses the same vote afterwards. *)
Theorem Add_once {K : SdkKeys} `{!SdkKeysOk K} m o signer b m' :
  valid_acc signer -> Add m o signer = (b, m') ->
  (b = true <-> ~ already m o signer) /\ already m' o signer /\
  (forall o' a, a <> signer -> already m' o' a <-> already m o' a) /\
  (exists m'', Add m' o signer = (false, m'')) /\ m' = with_ovTxs m (ovTxs m').
Proof.
  intros Hv H. destruct (Add_spec m o signer b m' Hv H) as (H1 & H2 & H3 & H4).
  split; [done|]. split; [done|]. split; [done|]. split; [|done].
  destruct (Add m' o signer) as [b2 m2] eqn:E. exists m2. f_equal.
  destruct (Add_spec m' o signer b2 m2 Hv E) as (H5 & _).
  destruct b2; [|done]. exfalso. by apply H5.
Qed.

(** C24. [getConsensusTx] decides a quorum: it returns a stored transaction of the
    asked finality whose equals (up to order of coins and gas) were signed by
    two thirds of the nodes, counting each active node once, or the empty
    transaction when no stored one reaches that; the voter only has its gas
    slices reordered. *)
Theorem getConsensusTx_quorum {K : SdkKeys} `{!SdkKeysOk K} m accounts final r m' :
  getConsensusTx m accounts final = (r, m') ->
  Forall2 gas_sorted (ovTxs m) (ovTxs m') /\ m' = with_ovTxs m (ovTxs m') /\
  ((exists t V, t ∈ ovTxs m /\ gas_sorted t r /\ IsFinal t = final /\
      votes_for accounts final (ovTxs m) t V /\ has_quorum accounts V) \/
   (r = EmptyObservedTx /\ forall t V, t ∈ ovTxs m -> IsFinal t = final ->
      votes_for accounts final (ovTxs m) t V -> ~ has_quorum accounts V)).
Proof.
  unfold getConsensusTx. intros H.
  destruct (consensus_loop accounts final (seq 0 (length (ovTxs m))) (ovTxs m)) as [r' txs] eqn:E.
  simplify_eq. apply consensus_loop_spec in E as [Hm Hr].
  2:{ apply Forall_forall. intros j Hj%elem_of_seq. lia. }
  split; [done|]. split; [done|].
  destruct Hr as [[-> Hno]|(i & t & V & _ & Ht & H)].
  - right. split; [done|]. intros t V Hin Hf HV.
    apply list_elem_of_lookup in Hin as [k Hk]. apply (Hno k t V); [|done..].
    apply elem_of_seq. apply lookup_lt_Some in Hk. lia.
  - left. exists t, V. split; [by eapply list_elem_of_lookup_2|done].
Qed.

(** [AddOutTx] records an outbound transaction only if it matches a scheduled
    action, never drops a recorded one, records a non-blank hash once (a second
    call changes nothing), and a voter that is done stays done. *)
Theorem AddOutTx_records {S : SdkMath} m tx b m' : AddOutTx m tx = Ok (b, m') ->
  matchActionItem m tx = Ok b /\ (b = false -> m' = m) /\ Actions m' = Actions m /\
  (OutTxs m' = OutTxs m \/ (b = true /\ OutTxs m' = (OutTxs m ++ [tx])%list)) /\
  (ObservedTxVoter_IsDone m = true -> ObservedTxVoter_IsDone m' = true) /\
  (TxID_IsBlank (txID tx) = false -> AddOutTx m' tx = Ok (b, m')).
Proof.
  unfold AddOutTx. intros H. ok_inv.
  match goal with H : matchActionItem m tx = Ok ?x |- _ => rename H into Hmatch end.
  destruct x; simpl in H.
  - destruct (negb (TxID_Equals (txID tx) BlankTxID) &&
      existsb (fun t => TxID_Equals (txID tx) (txID t)) (OutTxs m)) eqn:E; simpl in H.
    + simplify_eq. repeat split; auto. intros _. rewrite Hmatch. simpl. by rewrite E.
    + injection H as <- Hm'.
      assert (HA : Actions m' = Actions m) by (rewrite <- Hm'; by case_if).
      assert (HO : OutTxs m' = (OutTxs m ++ [tx])%list) by (rewrite <- Hm'; by case_if).
      clear Hm' E.
      split; [done|]. split; [done|]. split; [done|]. split; [by right|].
      split.
      * unfold ObservedTxVoter_IsDone. rewrite HA, HO. unfold len. rewrite length_app.
        rewrite !Z.leb_le. simpl. lia.
      * intros Hb. unfold matchActionItem in *. rewrite HA, Hmatch, HO. simpl.
        unfold TxID_IsBlank in Hb. rewrite Hb. simpl.
        rewrite existsb_app. simpl. unfold TxID_Equals at 2.
        by rewrite equal_fold_refl, orb_true_r.
  - simplify_eq. repeat split; auto. intros _. by rewrite Hmatch.
Qed.

(** ** The properties at concrete inputs *)

Definition demo_obs (signers : list string) : ObservedTx :=
  with_otSigners (NewObservedTx (demo_tx demo_coins demo_coins "memo") 7 "pk" 7) signers.
Definition demo_voter : ObservedTxVoter :=
  NewObservedTxVoter "aa" [demo_obs ["n1"; "n2"]%string].

Lemma Add_once_witness :
  let r := Add (K := keys_std) demo_voter (demo_obs []) "n3"%string in
  r.1 = true /\ already (K := keys_std) r.2 (demo_obs []) "n3"%string /\
  exists m'', Add (K := keys_std) r.2 (demo_obs []) "n3"%string = (false, m'').
Proof.
  intros r. split; [reflexivity|].
  destruct (Add_once (K := keys_std) demo_voter (demo_obs []) "n3"%string r.1 r.2)
    as (_ & H1 & _ & H2 & _); [split; simpl; lia|reflexivity|].
  split; [exact H1|exact H2].
Defined.

Lemma getConsensusTx_quorum_witness :
  let r := getConsensusTx (K := keys_std) demo_voter demo_nodes true in
  ObservedTx_IsEmpty r.1 = false /\
  ((exists t V, t ∈ ovTxs demo_voter /\ gas_sorted t r.1 /\ IsFinal t = true /\
      votes_for (K := keys_std) demo_nodes true (ovTxs demo_voter) t V /\
      has_quorum demo_nodes V) \/
   (r.1 = EmptyObservedTx /\ forall t V, t ∈ ovTxs demo_voter -> IsFinal t = true ->
      votes_for (K := keys_std) demo_nodes true (ovTxs demo_voter) t V ->
      ~ has_quorum demo_nodes V)).
Proof.
  intros r. split; [vm_compute; reflexivity|].
  destruct (getConsensusTx_quorum (K := keys_std) demo_voter demo_nodes true r.1 r.2)
    as (_ & _ & H); [reflexivity|exact H].
Defined.

Definition demo_action : TxOutItem :=
  mkTxOutItem BTCChain "to" "pk" (NewCoin BTCAsset 5) "memo" "" [] 1 "in" "" "" "" "" None None "".
Definition demo_out_voter : ObservedTxVoter :=
  mkObservedTxVoter "aa" (demo_obs []) 1 [demo_obs []] [demo_action] [] 0 false false 0 0.

Lemma AddOutTx_records_witness :
  let tx := demo_tx demo_coins demo_coins "memo" in
  exists m', AddOutTx (S := sdk_std) demo_out_voter tx = Ok (true, m') /\
    ObservedTxVoter_IsDone m' = true /\ AddOutTx (S := sdk_std) m' tx = Ok (true, m').
Proof.
  intros tx. eexists. split; [vm_compute; reflexivity|]. split; [reflexivity|].
  refine (proj2 (proj2 (proj2 (proj2 (proj2
    (AddOutTx_records (S := sdk_std) demo_out_voter tx true _ _))))) _).
  - vm_compute. reflexivity.
  - reflexivity.
Defined.
