(* ===== verification/Pools.v ===== *)
(** Pools, liquidity providers and protocol-owned liquidity:
    [x/thorchain/types/type_pool.go], [type_liquidity_provider.go],
    [type_pol.go], [type_rune_pool.go], and the pool-unit arithmetic of
    [x/thorchain/handler_add_liquidity.go]. *)
From S2P Require Import Prelude SdkMath GoStr Keys Shares Chains Assets Coins Txs.
Local Open Scope string_scope.
Local Open Scope Z_scope.

(** ** Data *)

Abbreviation PoolStatus := Z (only parsing).
Definition PoolStatus_Unknown : PoolStatus := 0.
Definition PoolStatus_Available : PoolStatus := 1.
Definition PoolStatus_Staged : PoolStatus := 2.
Definition PoolStatus_Suspended : PoolStatus := 3.

Definition PoolStatus_name : list (Z * string) :=
  [(0, "UnknownPoolStatus"); (1, "Available"); (2, "Staged"); (3, "Suspended")].

Definition PoolStatus_value (name : string) : option Z :=
  fst <$> List.find (fun '(_, n) => String.eqb n name) PoolStatus_name.

(** [String] of a protobuf enum: its name, or its number. *)
Definition PoolStatus_String (x : PoolStatus) : string :=
  match List.find (fun '(v, _) => v =? x) PoolStatus_name with
  | Some (_, n) => n
  | None => itoa x
  end.

Definition PoolStatus_Valid (x : PoolStatus) : goerr :=
  match PoolStatus_value (PoolStatus_String x) with
  | Some _ => None
  | None => Some "invalid pool status"
  end.

Definition GetPoolStatus (ps : string) : PoolStatus :=
  match PoolStatus_value ps with Some val => val | None => PoolStatus_Suspended end.

Record Pool := mkPool {
  BalanceDeca : Z;
  BalanceAsset : Z;
  plAsset : Asset;
  LPUnits : Z;
  plStatus : PoolStatus;
  plStatusSince : Z;
  plDecimals : Z;
  SynthUnits : Z;
  PendingInboundDeca : Z;
  PendingInboundAsset : Z
}.

Definition with_balances (m : Pool) (deca asset : Z) : Pool :=
  mkPool deca asset (plAsset m) (LPUnits m) (plStatus m) (plStatusSince m) (plDecimals m)
    (SynthUnits m) (PendingInboundDeca m) (PendingInboundAsset m).
Definition with_synth_units (m : Pool) (s : Z) : Pool :=
  mkPool (BalanceDeca m) (BalanceAsset m) (plAsset m) (LPUnits m) (plStatus m)
    (plStatusSince m) (plDecimals m) s (PendingInboundDeca m) (PendingInboundAsset m).
Definition with_lp_units (m : Pool) (u : Z) : Pool :=
  mkPool (BalanceDeca m) (BalanceAsset m) (plAsset m) u (plStatus m)
    (plStatusSince m) (plDecimals m) (SynthUnits m) (PendingInboundDeca m)
    (PendingInboundAsset m).

Definition NewPool : Pool :=
  mkPool 0 0 EmptyAsset 0 PoolStatus_Available 0 0 0 0 0.

Record LiquidityProvider := mkLiquidityProvider {
  lpAsset : Asset;
  DecaAddress : Address;
  AssetAddress : Address;
  LastAddHeight : Z;
  LastWithdrawHeight : Z;
  Units : Z;
  PendingDeca : Z;
  PendingAsset : Z;
  PendingTxID : TxID;
  DecaDepositValue : Z;
  AssetDepositValue : Z
}.

Record ProtocolOwnedLiquidity := mkProtocolOwnedLiquidity {
  polRuneDeposited : Z;
  polRuneWithdrawn : Z
}.

Record DECAPool := mkDECAPool {
  ReserveUnits : Z;
  PoolUnits : Z;
  rpRuneDeposited : Z;
  rpRuneWithdrawn : Z
}.

(** ** type_pool.go *)

Definition IsAvailable (m : Pool) : bool := plStatus m =? PoolStatus_Available.
Definition IsStaged (m : Pool) : bool := plStatus m =? PoolStatus_Staged.
Definition Pool_IsEmpty (m : Pool) : bool := Asset_IsEmpty (plAsset m).
Definition Pool_Valid (m : Pool) : goerr :=
  if Pool_IsEmpty m then Some "pool asset cannot be empty" else None.

(** [is_swap]: the message is a [*MsgSwap]. *)
Definition EnsureValidPoolStatus (m : Pool) (is_swap : bool) : goerr :=
  if plStatus m =? PoolStatus_Available then None
  else if plStatus m =? PoolStatus_Staged then
    if is_swap then Some "pool is in staged status, can't swap" else None
  else if plStatus m =? PoolStatus_Suspended then Some "pool suspended"
  else Some ("unknown pool status," ++ PoolStatus_String (plStatus m)).

Fixpoint Pools_Get (m : list Pool) (asset : Asset) : Pool * bool :=
  match m with
  | [] => (NewPool, false)
  | p :: m' => if Asset_Equals (plAsset p) asset then (p, true) else Pools_Get m' asset
  end.

(** The matching entries are overwritten and the pool is appended as well. *)
Definition Pools_Set (m : list Pool) (pool : Pool) : list Pool :=
  map (fun p => if Asset_Equals (plAsset p) (plAsset pool) then pool else p) m ++ [pool].

Section pools.
Context {S : SdkMath}.

Definition GetPoolUnits (m : Pool) : outcome Z := uint_add (LPUnits m) (SynthUnits m).

Definition CalcUnits (m : Pool) (s : Z) : outcome (Z * Pool) :=
  synth ←
    (if (BalanceAsset m =? 0) || IsSyntheticAsset (plAsset m) then Ok 0
     else
       numerator ← uint_mul (LPUnits m) s;
       twice ← uint_mul_u64 (BalanceAsset m) 2;
       denominator ← SafeSub twice s;
       let denominator := if denominator =? 0 then 1 else denominator in
       uint_quo numerator denominator);
  let m := with_synth_units m synth in
  units ← GetPoolUnits m;
  Ok (units, m).

Definition AssetValueInRune (m : Pool) (amt : Z) : outcome Z :=
  if (BalanceDeca m =? 0) || (BalanceAsset m =? 0) then Ok 0
  else GetUncappedShare (BalanceDeca m) (BalanceAsset m) amt.

Definition RuneReimbursementForAssetWithdrawal (m : Pool) (amt : Z) : outcome Z :=
  if (BalanceDeca m =? 0) || (BalanceAsset m =? 0) then Ok 0
  else
    denom ← SafeSub (BalanceAsset m) amt;
    if denom =? 0 then Ok 0
    else GetUncappedShare (BalanceDeca m) denom amt.

Definition RuneValueInAsset (m : Pool) (amt : Z) : outcome Z :=
  if (BalanceDeca m =? 0) || (BalanceAsset m =? 0) then Ok 0
  else
    assetAmt ← GetUncappedShare (BalanceAsset m) (BalanceDeca m) amt;
    RoundToDecimal assetAmt (plDecimals m).

Definition RuneDisbursementForAssetAdd (m : Pool) (amt : Z) : outcome Z :=
  if (BalanceDeca m =? 0) || (BalanceAsset m =? 0) then Ok 0
  else
    denom ← uint_add (BalanceAsset m) amt;
    GetUncappedShare (BalanceDeca m) denom amt.

Definition AssetDisbursementForDecaAdd (m : Pool) (amt : Z) : outcome Z :=
  if (BalanceDeca m =? 0) || (BalanceAsset m =? 0) then Ok 0
  else
    denom ← uint_add (BalanceDeca m) amt;
    outAmt ← GetUncappedShare (BalanceAsset m) denom amt;
    RoundToDecimal outAmt (plDecimals m).

(** [big.Int.Sqrt] is the integer square root, [big.Int.Quo] truncates. *)
Definition GetLUVI (m : Pool) : outcome Z :=
  balRune ← uint_mul_u64 (BalanceDeca m) (10 ^ 12);
  balAsset ← uint_mul_u64 (BalanceAsset m) (10 ^ 12);
  let num := Z.sqrt (balRune * balAsset) in
  denom ← GetPoolUnits m;
  if denom =? 0 then Ok 0
  else uint_of_big (Z.quot num denom).

(** ** type_liquidity_provider.go *)

Definition assets_do_not_match (a b : Asset) : string :=
  "LP and Pool assets do not match (" ++ Asset_String a ++ ", " ++ Asset_String b ++ ")".

(** The common tail of the redeem values: the pool's units are recalculated on
    the local copy, the provider gets its share of [depth] rounded down. *)
Definition redeem_value (lp : LiquidityProvider) (pool : Pool) (depth synthSupply : Z) :
    outcome Z :=
  let num := Units lp * depth in
  '(_, pool) ← CalcUnits pool synthSupply;
  denom ← GetPoolUnits pool;
  if denom =? 0 then Ok 0
  else uint_of_big (Z.quot num denom).

Definition GetRuneRedeemValue (lp : LiquidityProvider) (pool : Pool) (synthSupply : Z) :
    outcome (goerr * Z) :=
  if negb (Asset_Equals (lpAsset lp) (plAsset pool)) then
    Ok (Some (assets_do_not_match (lpAsset lp) (plAsset pool)), 0)
  else
    v ← redeem_value lp pool (BalanceDeca pool) synthSupply; Ok (None, v).

Definition GetAssetRedeemValue (lp : LiquidityProvider) (pool : Pool) (synthSupply : Z) :
    outcome (goerr * Z) :=
  if negb (Asset_Equals (lpAsset lp) (plAsset pool)) then
    Ok (Some (assets_do_not_match (lpAsset lp) (plAsset pool)), 0)
  else
    v ← redeem_value lp pool (BalanceAsset pool) synthSupply; Ok (None, v).

(** [sqrt (a * 10^8 * (b * 10^8)) / units]. *)
Definition luvi_value (a b units : Z) : outcome Z :=
  a ← uint_mul_u64 a (10 ^ 8);
  b ← uint_mul_u64 b (10 ^ 8);
  let num := Z.sqrt (a * b) in
  if units =? 0 then Ok 0
  else uint_of_big (Z.quot num units).

Definition GetLuviDepositValue (lp : LiquidityProvider) (pool : Pool) : outcome (goerr * Z) :=
  if negb (Asset_Equals (lpAsset lp) (plAsset pool)) then
    Ok (Some (assets_do_not_match (lpAsset lp) (plAsset pool)), 0)
  else
    v ← luvi_value (DecaDepositValue lp) (AssetDepositValue lp) (Units lp); Ok (None, v).

Definition GetLuviRedeemValue (lp : LiquidityProvider) (runeRedeemValue assetRedeemValue : Z) :
    outcome (goerr * Z) :=
  v ← luvi_value runeRedeemValue assetRedeemValue (Units lp); Ok (None, v).

Definition GetSaversAssetRedeemValue (lp : LiquidityProvider) (pool : Pool) : outcome Z :=
  let num := Units lp * BalanceAsset pool in
  let denom := LPUnits pool in
  if denom =? 0 then Ok 0
  else uint_of_big (Z.quot num denom).

(** ** type_pol.go and type_rune_pool.go *)

Definition NewProtocolOwnedLiquidity : ProtocolOwnedLiquidity := mkProtocolOwnedLiquidity 0 0.

Definition POL_CurrentDeposit (pol : ProtocolOwnedLiquidity) : outcome Z :=
  deposited ← int_of_big (polRuneDeposited pol);
  withdrawn ← int_of_big (polRuneWithdrawn pol);
  int_sub deposited withdrawn.

Definition PnL (pol : ProtocolOwnedLiquidity) (value : Z) : outcome Z :=
  deposited ← int_of_big (polRuneDeposited pol);
  withdrawn ← int_of_big (polRuneWithdrawn pol);
  v ← int_of_big value;
  d ← int_sub withdrawn deposited;
  int_add d v.

Definition NewDECAPool : DECAPool := mkDECAPool 0 0 0 0.

Definition DECAPool_CurrentDeposit (rp : DECAPool) : outcome Z :=
  deposited ← int_of_big (rpRuneDeposited rp);
  withdrawn ← int_of_big (rpRuneWithdrawn rp);
  int_sub deposited withdrawn.

Definition TotalUnits (rp : DECAPool) : outcome Z := uint_add (ReserveUnits rp) (PoolUnits rp).

(** ** handler_add_liquidity.go *)

Definition calculateVaultUnits (oldPoolUnits poolAmt addAmt : Z) : outcome (Z * Z) :=
  if oldPoolUnits =? 0 then Ok (addAmt, addAmt)
  else if poolAmt =? 0 then Ok (addAmt, addAmt)
  else if addAmt =? 0 then Ok (oldPoolUnits, 0)
  else
    lpUnits ← GetUncappedShare addAmt poolAmt oldPoolUnits;
    newUnits ← uint_add oldPoolUnits lpUnits;
    Ok (newUnits, lpUnits).
End pools.

Definition LiquidityProvider_Valid (m : LiquidityProvider) : goerr :=
  if LastAddHeight m =? 0 then Some "last add liquidity height cannot be empty"
  else if Address_IsEmpty (AssetAddress m) && Address_IsEmpty (DecaAddress m) then
    Some "asset address and rune address cannot be empty"
  else None.

Definition LP_GetAddress (lp : LiquidityProvider) : Address :=
  if negb (Address_IsEmpty (DecaAddress lp)) then DecaAddress lp else AssetAddress lp.

Definition LP_Key (lp : LiquidityProvider) : string :=
  Asset_String (lpAsset lp) ++ "/" ++ Address_String (LP_GetAddress lp).

(** ** Lemmas *)

Definition pool_ok (m : Pool) : Prop :=
  is_uint (BalanceDeca m) /\ is_uint (BalanceAsset m) /\ is_uint (LPUnits m) /\
  is_uint (SynthUnits m).

Section pool_lemmas.
Context {S : SdkMath} `{!SdkMathOk S}.

(** The synth units of a pool whose synth supply is [s]. *)
Definition synth_units (m : Pool) (s : Z) : Z :=
  if (BalanceAsset m =? 0) || IsSyntheticAsset (plAsset m) then 0
  else LPUnits m * s / Z.max 1 (2 * BalanceAsset m - s).

Lemma CalcUnits_inv m s units m' : pool_ok m -> is_uint s -> CalcUnits m s = Ok (units, m') ->
  m' = with_synth_units m (synth_units m s) /\ units = LPUnits m + synth_units m s /\
  is_uint units /\ pool_ok m' /\ GetPoolUnits m' = Ok units.
Proof.
  intros (HD & HA & HL & HS) Hs H. unfold CalcUnits in H. ok_inv.
  match goal with H : (if (BalanceAsset m =? 0) || _ then _ else _) = Ok ?u |- _ =>
    assert (Hu : u = synth_units m s /\ is_uint u); [|clear H] end.
  { unfold synth_units. case_if_in H0; [by simplify_eq; auto with go|].
    math_inv. subst.
    match goal with H : uint_quo _ ?d = Ok _ |- _ =>
      assert (Hd : d = Z.max 1 (2 * BalanceAsset m - s));
        [destruct (Z.eqb_spec (Z.max 0 (BalanceAsset m * 2 - s)) 0); lia|rewrite Hd in H] end.
    assert (is_uint (Z.max 1 (2 * BalanceAsset m - s))) by (unfold is_uint, uint_lim in *; lia).
    uint_inv. by subst. }
  destruct Hu as [-> Hu]. unfold GetPoolUnits in *. simpl in *. uint_inv. subst.
  split; [done|]. split; [done|]. split; [done|]. split; [done|].
  rewrite uint_add_ok by done. by apply uint_or_panic_Ok.
Qed.

Lemma redeem_value_inv lp pool depth s v units pool' : pool_ok pool -> is_uint s ->
  is_uint (Units lp) -> 0 <= depth ->
  CalcUnits pool s = Ok (units, pool') -> redeem_value lp pool depth s = Ok v ->
  v = (if units =? 0 then 0 else Units lp * depth / units).
Proof.
  intros Hp Hs Hu Hd Hc H. unfold redeem_value in H. rewrite Hc in H. simpl in H.
  destruct (CalcUnits_inv _ _ _ _ Hp Hs Hc) as (_ & _ & [Hu0 _] & _ & Hg).
  rewrite Hg in H. simpl in H. destruct (Z.eqb_spec units 0); [by simplify_eq|].
  uint_inv. subst. apply quot_nonneg; [|lia]. unfold is_uint in *. nia.
Qed.
End pool_lemmas.

(** Shares rounded down do not add up to more than the whole. *)
Lemma floor_shares_le (us : list Z) depth units : 0 <= depth -> 0 < units ->
  Forall (fun u => 0 <= u) us -> sumZ us <= units ->
  sumZ (map (fun u => u * depth / units) us) <= depth.
Proof.
  intros Hd Hu Hus Hsum.
  assert (sumZ (map (fun u => u * depth / units) us) * units <= sumZ us * depth).
  { clear Hsum. induction Hus as [|u us Hu0 Hus IH]; simpl; [lia|].
    pose proof (Z.mul_div_le (u * depth) units Hu). lia. }
  nia.
Qed.

(** ** Properties *)

(** Rune paid out for an asset added, rune charged for an asset withdrawn,
    and asset paid out for rune added keep the product of the pool's depths:
    exactly up to the rounding of the share, and never lower than that in the
    last case, whose result is rounded down to the pool's decimals. *)
Theorem disbursements_keep_product {S : SdkMath} `{!SdkMathOk S} m amt d :
  pool_ok m -> is_uint amt -> 0 < BalanceDeca m -> 0 < BalanceAsset m ->
  let R := BalanceDeca m in let A := BalanceAsset m in
  (RuneDisbursementForAssetAdd m amt = Ok d ->
     2 * Z.abs ((R - d) * (A + amt) - R * A) <= A + amt) /\
  (amt < A -> RuneReimbursementForAssetWithdrawal m amt = Ok d ->
     2 * Z.abs ((R + d) * (A - amt) - R * A) <= A - amt) /\
  (AssetDisbursementForDecaAdd m amt = Ok d ->
     2 * (A * R) <= 2 * ((A - d) * (R + amt)) + (R + amt)).
Proof.
  intros (HD & HA & _) Hamt HR0 HA0. cbv zeta.
  assert (Hz : (BalanceDeca m =? 0) || (BalanceAsset m =? 0) = false).
  { apply orb_false_iff. split; apply Z.eqb_neq; lia. }
  split; [|split].
  - unfold RuneDisbursementForAssetAdd. rewrite Hz. intros H. math_inv. subst.
    pose proof (share_near (BalanceDeca m) (BalanceAsset m + amt) amt
      ltac:(unfold is_uint in *; lia)) as Hn. lia.
  - intros Hlt. unfold RuneReimbursementForAssetWithdrawal. rewrite Hz. intros H. math_inv. subst.
    rewrite Z.max_r in H by lia. destruct (Z.eqb_spec (BalanceAsset m - amt) 0); [lia|].
    assert (is_uint (BalanceAsset m - amt)) by (unfold is_uint in *; lia). math_inv. subst.
    pose proof (share_near (BalanceDeca m) (BalanceAsset m - amt) amt ltac:(lia)) as Hn. lia.
  - unfold AssetDisbursementForDecaAdd. rewrite Hz. intros H. math_inv. subst.
    apply RoundToDecimal_le in H as [Hle H0]; [|done].
    pose proof (share_near (BalanceAsset m) (BalanceDeca m + amt) amt
      ltac:(unfold is_uint in *; lia)) as Hn.
    set (s := share (BalanceAsset m) (BalanceDeca m + amt) amt) in *.
    assert (d * (BalanceDeca m + amt) <= s * (BalanceDeca m + amt)); [|lia].
    apply Z.mul_le_mono_nonneg_r; [unfold is_uint in *; lia|done].
Qed.

(** C30. The pool cannot be over-redeemed: when the providers' units add up to no
    more than the pool's units, the rune and asset redeem values of all of them
    add up to no more than the pool's balances. *)
Theorem redeem_within_balances {S : SdkMath} `{!SdkMathOk S} pool s units pool'
    (lps : list LiquidityProvider) runes assets :
  pool_ok pool -> is_uint s -> Forall (fun lp => is_uint (Units lp)) lps ->
  CalcUnits pool s = Ok (units, pool') -> sumZ (map Units lps) <= units ->
  Forall2 (fun lp v => GetRuneRedeemValue lp pool s = Ok (None, v)) lps runes ->
  Forall2 (fun lp v => GetAssetRedeemValue lp pool s = Ok (None, v)) lps assets ->
  sumZ runes <= BalanceDeca pool /\ sumZ assets <= BalanceAsset pool.
Proof.
  intros Hp Hs Hlps Hc Hsum Hr Ha.
  destruct (CalcUnits_inv _ _ _ _ Hp Hs Hc) as (_ & _ & [Hu0 _] & _ & _).
  pose proof Hp as ([HD _] & [HA _] & _).
  assert (Hgen : forall depth vs, 0 <= depth ->
    Forall2 (fun lp v => redeem_value lp pool depth s = Ok v) lps vs -> sumZ vs <= depth).
  { intros depth vs Hd H.
    assert (Hvs : vs = map (fun lp => if units =? 0 then 0 else Units lp * depth / units) lps).
    { clear -H Hp Hs Hlps Hc Hd SdkMathOk0. induction H as [|lp v lps vs Hv H IH]; [done|].
      apply Forall_cons_1 in Hlps as [Hu Hlps]. simpl.
      rewrite <- (redeem_value_inv _ _ _ _ _ _ _ Hp Hs Hu Hd Hc Hv). by rewrite <- IH. }
    subst vs. destruct (Z.eqb_spec units 0) as [->|Hn].
    - clear -Hd. induction lps; simpl; lia.
    - rewrite <- (map_map Units (fun u => u * depth / units)).
      apply floor_shares_le; try lia. apply Forall_map. eapply Forall_impl; [exact Hlps|].
      by intros ? []. }
  split; apply Hgen; try done.
  - eapply Forall2_impl; [exact Hr|]. intros lp v H. unfold GetRuneRedeemValue in H.
    destruct (Asset_Equals _ _); simpl in H; [|by simplify_eq]. ok_inv. done.
  - eapply Forall2_impl; [exact Ha|]. intros lp v H. unfold GetAssetRedeemValue in H.
    destruct (Asset_Equals _ _); simpl in H; [|by simplify_eq]. ok_inv. done.
Qed.

(** [CalcUnits] only writes the synth units, and they are the largest count
    that gives the synths no more than their share of the pool: with a supply
    [s] below twice the asset depth [A], [s / 2A] of all units. *)
Theorem CalcUnits_synth_share {S : SdkMath} `{!SdkMathOk S} m s units m' :
  pool_ok m -> is_uint s -> CalcUnits m s = Ok (units, m') ->
  m' = with_synth_units m (SynthUnits m') /\ units = LPUnits m + SynthUnits m' /\
  (BalanceAsset m = 0 -> SynthUnits m' = 0) /\
  (IsSyntheticAsset (plAsset m) = false -> s < 2 * BalanceAsset m ->
     SynthUnits m' * (2 * BalanceAsset m) <= s * units /\
     s * (units + 1) < (SynthUnits m' + 1) * (2 * BalanceAsset m)).
Proof.
  intros Hp Hs H. destruct (CalcUnits_inv _ _ _ _ Hp Hs H) as (-> & -> & Hu & _ & _). simpl.
  split; [done|]. split; [done|]. split.
  { intros Hz. unfold synth_units. by rewrite Hz. }
  intros Hn Hlt. unfold synth_units. rewrite Hn, orb_false_r.
  destruct Hs as [Hs0 _]. destruct (Z.eqb_spec (BalanceAsset m) 0); [lia|].
  rewrite Z.max_r by lia.
  pose proof (div_bounds (LPUnits m * s) (2 * BalanceAsset m - s) ltac:(lia)) as Hd.
  set (q := LPUnits m * s / (2 * BalanceAsset m - s)) in *. clearbody q. nia.
Qed.

(** ** The properties at concrete inputs *)

Definition demo_pool : Pool :=
  mkPool 100000 50000 BTCAsset 1000 PoolStatus_Available 1 8 0 0 0.
Definition demo_lp (units : Z) : LiquidityProvider :=
  mkLiquidityProvider BTCAsset "a" "b" 1 1 units 0 0 "" 0 0.

Lemma demo_pool_ok : pool_ok demo_pool.
Proof. unfold pool_ok, is_uint, uint_lim. simpl. lia. Qed.

Lemma disbursements_keep_product_witness :
  RuneDisbursementForAssetAdd (S := sdk_std) demo_pool 333 = Ok 662 /\
  2 * Z.abs ((100000 - 662) * (50000 + 333) - 100000 * 50000) <= 50000 + 333.
Proof.
  split; [vm_compute; reflexivity|].
  refine (proj1 (disbursements_keep_product (S := sdk_std) demo_pool 333 662 demo_pool_ok _ _ _) _).
  - unfold is_uint, uint_lim. lia.
  - simpl. lia.
  - simpl. lia.
  - vm_compute. reflexivity.
Defined.

Lemma redeem_within_balances_witness :
  sumZ [9523; 61904] <= BalanceDeca demo_pool /\ sumZ [4761; 30952] <= BalanceAsset demo_pool.
Proof.
  refine (redeem_within_balances (S := sdk_std) demo_pool 4762 1050
    (with_synth_units demo_pool 50) [demo_lp 100; demo_lp 650] [9523; 61904] [4761; 30952]
    demo_pool_ok _ _ _ _ _ _).
  - unfold is_uint, uint_lim. lia.
  - repeat constructor; simpl; unfold uint_lim; lia.
  - vm_compute. reflexivity.
  - simpl. lia.
  - repeat constructor.
  - repeat constructor.
Defined.

Lemma CalcUnits_synth_share_witness : exists units m',
  CalcUnits (S := sdk_std) demo_pool 4762 = Ok (units, m') /\
  SynthUnits m' * (2 * 50000) <= 4762 * units /\
  4762 * (units + 1) < (SynthUnits m' + 1) * (2 * 50000).
Proof.
  eexists _, _. split; [vm_compute; reflexivity|].
  refine (proj2 (proj2 (proj2 (CalcUnits_synth_share (S := sdk_std) demo_pool 4762 1050
    (with_synth_units demo_pool 50) demo_pool_ok _ _))) _ _).
  - unfold is_uint, uint_lim. lia.
  - vm_compute. reflexivity.
  - reflexivity.
  - simpl. lia.
Defined.
