(* ===== verification/Streaming.v ===== *)
(** Streaming swaps and swapper clout: [x/thorchain/types/type_streaming_swap.go],
    [msg_swap.go], [type_clout.go], and the bookkeeping of a sub-swap in
    [manager_adv_swap_queue_current.go]. *)
From S2P Require Import Prelude SdkMath GoStr Keys Shares Chains Assets Coins Txs.
Local Open Scope string_scope.
Local Open Scope Z_scope.

(** ** type_streaming_swap.go *)

Record StreamingSwap := mkStreamingSwap {
  ssTxID : TxID;
  ssInterval : Z;
  ssQuantity : Z;
  ssCount : Z;
  ssLastHeight : Z;
  ssTradeTarget : Z;
  ssDeposit : Z;
  ssIn : Z;
  ssOut : Z;
  ssFailedSwaps : list Z;
  ssFailedSwapReasons : list string
}.

Definition NewStreamingSwap (hash : TxID) (quan interval target deposit : Z) : StreamingSwap :=
  mkStreamingSwap hash interval quan 0 0 target deposit 0 0 [] [].

Definition StreamingSwap_Valid (m : StreamingSwap) : goerr :=
  if ssQuantity m <? 1 then Some "quantity cannot be less than 1"
  else if ssInterval m <? 1 then Some "interval cannot be less than 1"
  else if ssDeposit m =? 0 then Some "deposit amount cannot be zero"
  else None.

Definition StreamingSwap_IsDone (m : StreamingSwap) : bool := ssQuantity m <=? ssCount m.

(** [uint64] arithmetic: [m.Count+1] wraps. *)
Definition StreamingSwap_IsLastSwap (m : StreamingSwap) : bool :=
  ssQuantity m <=? u64 (ssCount m + 1).

(** ** msg_swap.go *)

Inductive SwapType := SwapType_market | SwapType_limit.
Inductive SwapVersion := SwapVersion_v1 | SwapVersion_v2.

Record SwapState := mkSwapState {
  stInterval : Z;
  stQuantity : Z;
  stTtl : Z;
  stCount : Z;
  stLastHeight : Z;
  stDeposit : Z;
  stWithdrawn : Z;
  stIn : Z;
  stOut : Z;
  stFailedSwaps : list Z;
  stFailedSwapReasons : list string
}.

(** [State] is a pointer that every swap of the advanced queue carries. *)
Record MsgSwap := mkMsgSwap {
  mTx : Tx;
  TargetAsset : Asset;
  Destination : Address;
  TradeTarget : Z;
  AffiliateAddress : Address;
  AffiliateBasisPoints : Z;
  mSigner : AccAddress;
  mAggregator : string;
  AggregatorTargetAddress : string;
  AggregatorTargetLimit : option Z;
  mSwapType : SwapType;
  StreamQuantity : Z;
  StreamInterval : Z;
  InitialBlockHeight : Z;
  State : SwapState;
  mVersion : SwapVersion;
  mIndex : Z
}.

Definition with_state (m : MsgSwap) (s : SwapState) : MsgSwap :=
  mkMsgSwap (mTx m) (TargetAsset m) (Destination m) (TradeTarget m) (AffiliateAddress m)
    (AffiliateBasisPoints m) (mSigner m) (mAggregator m) (AggregatorTargetAddress m)
    (AggregatorTargetLimit m) (mSwapType m) (StreamQuantity m) (StreamInterval m)
    (InitialBlockHeight m) s (mVersion m) (mIndex m).

(** [tx.Coins[0]] panics on a transaction without coins. *)
Definition first_amount (tx : Tx) : outcome Z :=
  match txCoins tx with c :: _ => Ok (cAmount c) | [] => Panic end.

Definition with_amount (tx : Tx) (amount : Z) : Tx :=
  match txCoins tx with
  | c :: cs => mkTx (txID tx) (txChain tx) (txFrom tx) (txTo tx)
      (mkCoin (cAsset c) amount (cDecimals c) :: cs) (txGas tx) (txMemo tx)
  | [] => tx
  end.

Definition NewMsgSwap (tx : Tx) (target : Asset) (destination : Address) (tradeTarget : Z)
    (affAddr : Address) (affPts : Z) (agg aggregatorTargetAddr : string)
    (aggregatorTargetLimit : option Z) (stype : SwapType) (quan interval : Z)
    (version : SwapVersion) (signer : AccAddress) : outcome MsgSwap :=
  deposit ← first_amount tx;
  Ok (mkMsgSwap tx target destination tradeTarget affAddr affPts signer agg
    aggregatorTargetAddr aggregatorTargetLimit stype quan interval 0
    (mkSwapState interval quan 0 0 0 deposit 0 0 0 [] []) version 0).

Definition IsV1 (m : MsgSwap) : bool :=
  match mVersion m with SwapVersion_v1 => true | SwapVersion_v2 => false end.
Definition IsV2 (m : MsgSwap) : bool :=
  match mVersion m with SwapVersion_v1 => false | SwapVersion_v2 => true end.
Definition IsLegacyStreaming (m : MsgSwap) : bool := (0 <? StreamInterval m) && IsV1 m.
Definition IsMarketSwap (m : MsgSwap) : bool :=
  match mSwapType m with SwapType_market => true | SwapType_limit => false end.
Definition IsLimitSwap (m : MsgSwap) : bool :=
  match mSwapType m with SwapType_market => false | SwapType_limit => true end.
Definition IsStreaming (m : MsgSwap) : bool := 1 <? stQuantity (State m).

Definition MsgSwap_IsDone (m : MsgSwap) : bool :=
  match mSwapType m with
  | SwapType_market => stQuantity (State m) <=? stCount (State m)
  | SwapType_limit => stIn (State m) =? stDeposit (State m)
  end.

Definition FailCount (m : MsgSwap) : Z := u64 (Z.of_nat (length (stFailedSwaps (State m)))).
Definition SuccessCount (m : MsgSwap) : Z := u64 (stCount (State m) - FailCount m).

Definition GetStreamingSwap (m : MsgSwap) : outcome StreamingSwap :=
  amount ← first_amount (mTx m);
  Ok (NewStreamingSwap (txID (mTx m)) (StreamQuantity m) (StreamInterval m) (TradeTarget m) amount).

(** ** type_clout.go *)

Record SwapperClout := mkSwapperClout {
  scAddress : Address;
  Score : Z;
  Reclaimed : Z;
  Spent : Z;
  LastSpentHeight : Z;
  LastReclaimHeight : Z
}.

Definition with_score (c : SwapperClout) (v : Z) : SwapperClout :=
  mkSwapperClout (scAddress c) v (Reclaimed c) (Spent c) (LastSpentHeight c) (LastReclaimHeight c).
Definition with_reclaimed (c : SwapperClout) (v : Z) : SwapperClout :=
  mkSwapperClout (scAddress c) (Score c) v (Spent c) (LastSpentHeight c) (LastReclaimHeight c).

Definition NewSwapperClout (addr : Address) : SwapperClout := mkSwapperClout addr 0 0 0 0 0.

(** The guard of the source: the error is returned when the address is not
    empty. *)
Definition SwapperClout_Valid (c : SwapperClout) : goerr :=
  if negb (Address_IsEmpty (scAddress c))
  then Some ("invalid swapper clout address: " ++ scAddress c) else None.

Definition Restore (c : SwapperClout) (height limit : Z) : SwapperClout :=
  if i64 (LastSpentHeight c + limit) <? height then with_reclaimed c (Spent c) else c.

Section streaming.
Context {S : SdkMath}.

Definition DefaultSwapSize (m : StreamingSwap) : outcome Z :=
  if ssQuantity m =? 0 then Ok 0 else uint_quo_u64 (ssDeposit m) (ssQuantity m).

Definition StreamingSwap_NextSize (m : StreamingSwap) : outcome (Z * Z) :=
  swapSize ← DefaultSwapSize m;
  sum ← uint_add (ssIn m) swapSize;
  swapSize ←
    (if (ssDeposit m <? sum) || StreamingSwap_IsLastSwap m
     then SafeSub (ssDeposit m) (ssIn m) else Ok swapSize);
  remainingIn ← SafeSub (ssDeposit m) (ssIn m);
  remainingOut ← SafeSub (ssTradeTarget m) (ssOut m);
  target ← GetSafeShare swapSize remainingIn remainingOut;
  Ok (swapSize, target).

(** [Uint.Mod] by a non-zero divisor, and [Uint.Uint64] of the remainder. *)
Definition MsgSwap_NextSize (m : MsgSwap) : outcome (Z * Z) :=
  let st := State m in
  if stQuantity st =? 0 then Ok (0, 0)
  else
    swapSize ← uint_quo_u64 (stDeposit st) (stQuantity st);
    let remainder := stDeposit st mod stQuantity st in
    swapSize ← (if SuccessCount m <? remainder then uint_add swapSize 1 else Ok swapSize);
    sum ← uint_add (stIn st) swapSize;
    swapSize ←
      (if stDeposit st <? sum then SafeSub (stDeposit st) (stIn st) else Ok swapSize);
    remainingIn ← SafeSub (stDeposit st) (stIn st);
    remainingOut ← SafeSub (TradeTarget m) (stOut st);
    target ← GetSafeShare swapSize remainingIn remainingOut;
    Ok (swapSize, target).

Definition GetTotalAffiliateFee (m : MsgSwap) : outcome Z :=
  amount ← first_amount (mTx m);
  GetSafeShare (AffiliateBasisPoints m) 10000 amount.

Definition Available (c : SwapperClout) : outcome Z :=
  spent ← SafeSub (Spent c) (Reclaimed c);
  SafeSub (Score c) spent.

Definition Claimable (c : SwapperClout) : outcome Z := SafeSub (Spent c) (Reclaimed c).

Definition Reclaim (c : SwapperClout) (value : Z) : outcome SwapperClout :=
  r ← uint_add (Reclaimed c) value;
  Ok (with_reclaimed c (if Spent c <? r then Spent c else r)).

(** ** manager_adv_swap_queue_current.go: the sub-swaps of one queue item *)

(** A successful sub-swap of [size] that emitted [emit] at block [height]. *)
Definition record_success (m : MsgSwap) (size emit height : Z) : outcome MsgSwap :=
  let st := State m in
  in' ← uint_add (stIn st) size;
  out' ← uint_add (stOut st) emit;
  Ok (with_state m (mkSwapState (stInterval st) (stQuantity st) (stTtl st)
    (u64 (stCount st + 1)) height (stDeposit st) (stWithdrawn st) in' out'
    (stFailedSwaps st) (stFailedSwapReasons st))).

Definition record_failure (m : MsgSwap) (reason : string) (height : Z) : MsgSwap :=
  let st := State m in
  with_state m (mkSwapState (stInterval st) (stQuantity st) (stTtl st)
    (u64 (stCount st + 1)) height (stDeposit st) (stWithdrawn st) (stIn st) (stOut st)
    (stFailedSwaps st ++ [stCount st])%list (stFailedSwapReasons st ++ [reason])%list).

(** What the handler is given: the amount of the first coin and the trade
    target are replaced, and restored before the item is saved. *)
Definition sub_message (m : MsgSwap) (size target : Z) : MsgSwap :=
  mkMsgSwap (with_amount (mTx m) size) (TargetAsset m) (Destination m) target
    (AffiliateAddress m) (AffiliateBasisPoints m) (mSigner m) (mAggregator m)
    (AggregatorTargetAddress m) (AggregatorTargetLimit m) (mSwapType m) (StreamQuantity m)
    (StreamInterval m) (InitialBlockHeight m) (State m) (mVersion m) (mIndex m).

(** One pick of the [EndBlock] loop.  [run] is [swapHandler.RunWithEmit] on the
    cached context: it emits an amount or fails.  From the second rapid
    iteration on, a failed market swap is not recorded.  Only the item itself
    is modelled: the pool state [run] commits, the discovery of matching limit
    swaps and the counters are not part of it. *)
Definition attempt (run : MsgSwap -> outcome Z) (iteration height : Z) (m : MsgSwap) :
    outcome MsgSwap :=
  _ ← first_amount (mTx m);
  '(size, target) ← MsgSwap_NextSize m;
  match run (sub_message m size target) with
  | Panic => Panic
  | Err e => Ok (if (0 <? iteration) && IsMarketSwap m then m else record_failure m e height)
  | Ok emit => record_success m size emit height
  end.

(** The attempts the queue makes for one item, over iterations and blocks. *)
Record Attempt := mkAttempt {
  atRun : MsgSwap -> outcome Z;
  atIteration : Z;
  atHeight : Z
}.

Fixpoint run_attempts (l : list Attempt) (m : MsgSwap) : outcome MsgSwap :=
  match l with
  | [] => Ok m
  | a :: l' =>
      m' ← attempt (atRun a) (atIteration a) (atHeight a) m;
      run_attempts l' m'
  end.

(** The quantity [AddSwapQueueItem] stores, given [getMaxSwapQuantity]. *)
Definition cap_quantity (m : MsgSwap) (maxSwapQuantity : Z) : MsgSwap :=
  let st := State m in
  let quantity := if stQuantity st =? 0 then maxSwapQuantity else stQuantity st in
  let quantity := if maxSwapQuantity <? quantity then maxSwapQuantity else quantity in
  with_state m (mkSwapState (stInterval st) quantity (stTtl st) (stCount st) (stLastHeight st)
    (stDeposit st) (stWithdrawn st) (stIn st) (stOut st) (stFailedSwaps st)
    (stFailedSwapReasons st)).

(** ** handler_swap.go and manager_swap_queue_current.go: legacy streaming swaps *)

(** [handleWithEmit] after a successful swap of [size] that emitted [emit]. *)
Definition legacy_success (swp : StreamingSwap) (size emit : Z) : outcome StreamingSwap :=
  in' ← uint_add (ssIn swp) size;
  out' ← uint_add (ssOut swp) emit;
  Ok (mkStreamingSwap (ssTxID swp) (ssInterval swp) (ssQuantity swp) (ssCount swp)
    (ssLastHeight swp) (ssTradeTarget swp) (ssDeposit swp) in' out'
    (ssFailedSwaps swp) (ssFailedSwapReasons swp)).

(** [EndBlock] counts the attempt; [handleErr] is the handler's error. *)
Definition legacy_count (swp : StreamingSwap) (handleErr : goerr) (height : Z) : StreamingSwap :=
  let count := u64 (ssCount swp + 1) in
  let '(failed, reasons) :=
    match handleErr with
    | Some e => ((ssFailedSwaps swp ++ [count])%list, (ssFailedSwapReasons swp ++ [e])%list)
    | None => (ssFailedSwaps swp, ssFailedSwapReasons swp)
    end in
  mkStreamingSwap (ssTxID swp) (ssInterval swp) (ssQuantity swp) count height
    (ssTradeTarget swp) (ssDeposit swp) (ssIn swp) (ssOut swp) failed reasons.

(** One attempt of [EndBlock].  [swap] is the rest of the handler on the
    hijacked amount and target, follow-on handlers included; a failing handler
    leaves the stored record as it was.  The second component is
    [triggerRefund]: nothing has been swapped yet, so the whole deposit goes
    back (and the record is not saved). *)
Definition legacy_attempt (swap : Z -> Z -> outcome Z) (height : Z) (swp : StreamingSwap) :
    outcome (StreamingSwap * bool) :=
  '(size, target) ← StreamingSwap_NextSize swp;
  match swap size target with
  | Panic => Panic
  | Ok emit =>
      swp ← legacy_success swp size emit;
      Ok (legacy_count swp None height, false)
  | Err e => Ok (legacy_count swp (Some e) height, (ssIn swp =? 0) && (ssOut swp =? 0))
  end.
End streaming.

(** ** Lemmas *)

(** What [s] successful sub-swaps of a deposit [D] in [q] parts have spent. *)
Definition spent (D q s : Z) : Z := Z.min D (s * (D / q) + Z.min s (D mod q)).

(** The size of the sub-swap that follows them. *)
Definition part (D q s : Z) : Z := D / q + (if s <? D mod q then 1 else 0).

Lemma spent_full D q s : 0 <= D -> 1 <= q -> q <= s -> spent D q s = D.
Proof.
  intros HD Hq Hs. unfold spent.
  pose proof (Z.div_mod D q ltac:(lia)). pose proof (Z.mod_pos_bound D q ltac:(lia)).
  pose proof (Z.div_pos D q ltac:(lia) ltac:(lia)).
  assert (q * (D / q) <= s * (D / q)) by (apply Z.mul_le_mono_nonneg_r; lia).
  rewrite (Z.min_r s) by lia. apply Z.min_l. lia.
Qed.

Lemma spent_step D q s : 0 <= D -> 1 <= q -> 0 <= s ->
  spent D q (s + 1) = Z.min D (spent D q s + part D q s).
Proof.
  intros HD Hq Hs. unfold spent, part. pose proof (Z.div_pos D q ltac:(lia) ltac:(lia)).
  rewrite Z.mul_add_distr_r, Z.mul_1_l.
  destruct (Z.ltb_spec s (D mod q)); lia.
Qed.

(** No cap applies before the last of the [q] parts. *)
Lemma part_fits D q s : 0 <= D -> 1 <= q -> 0 <= s < q ->
  spent D q s + part D q s <= D /\ spent D q s = s * (D / q) + Z.min s (D mod q).
Proof.
  intros HD Hq Hs. unfold spent, part.
  pose proof (Z.div_mod D q ltac:(lia)). pose proof (Z.mod_pos_bound D q ltac:(lia)).
  pose proof (Z.div_pos D q ltac:(lia) ltac:(lia)).
  assert ((s + 1) * (D / q) <= q * (D / q)) by (apply Z.mul_le_mono_nonneg_r; lia).
  destruct (Z.ltb_spec s (D mod q)); lia.
Qed.

Lemma spent_range D q s : 0 <= D -> 1 <= q -> 0 <= s -> 0 <= spent D q s <= D.
Proof.
  intros HD Hq Hs. unfold spent. pose proof (Z.div_pos D q ltac:(lia) ltac:(lia)).
  pose proof (Z.mod_pos_bound D q ltac:(lia)). split; [|lia].
  assert (0 <= s * (D / q)) by (apply Z.mul_nonneg_nonneg; lia). lia.
Qed.

Lemma part_range D q s : 0 <= D -> 1 <= q -> 0 <= part D q s <= D + 1.
Proof.
  intros HD Hq. unfold part. pose proof (Z.div_pos D q ltac:(lia) ltac:(lia)).
  pose proof (Z.div_le_upper_bound D q D ltac:(lia)).
  destruct (Z.ltb_spec s (D mod q)); nia.
Qed.

Section streaming_lemmas.
Context {S : SdkMath} `{!SdkMathOk S}.

(** The bookkeeping of a queue item after at most [n] recorded attempts. *)
Record item_inv (D q target n : Z) (m : MsgSwap) : Prop := {
  inv_deposit : stDeposit (State m) = D;
  inv_quantity : stQuantity (State m) = q;
  inv_target : TradeTarget m = target;
  inv_out : is_uint (stOut (State m));
  inv_count : Z.of_nat (length (stFailedSwaps (State m))) <= stCount (State m) <= n;
  inv_in : stIn (State m) =
    spent D q (stCount (State m) - Z.of_nat (length (stFailedSwaps (State m))))
}.

Lemma SuccessCount_inv D q target n m : item_inv D q target n m -> n < 2 ^ 64 ->
  SuccessCount m = stCount (State m) - Z.of_nat (length (stFailedSwaps (State m))).
Proof.
  intros [_ _ _ _ Hc _] Hn. unfold SuccessCount, FailCount.
  rewrite (u64_id (Z.of_nat _)) by (unfold is_u64; lia). apply u64_id. unfold is_u64. lia.
Qed.

(** [NextSize] never panics: it is the next part, capped by what is left. *)
Lemma MsgSwap_NextSize_ok D q target n m : item_inv D q target n m -> n < 2 ^ 64 ->
  0 <= D -> 2 * D + 1 < uint_lim -> is_u64 q -> 1 <= q -> is_uint target ->
  let size := Z.min (part D q (SuccessCount m)) (D - stIn (State m)) in
  exists t, MsgSwap_NextSize m = Ok (size, t) /\ 0 <= size /\ 0 <= t <= target /\
    stIn (State m) = spent D q (SuccessCount m) /\ 0 <= SuccessCount m.
Proof.
  intros Hi Hn HD HDl Hq Hq1 Ht. cbv zeta. rewrite (SuccessCount_inv _ _ _ _ _ Hi Hn).
  pose proof Hi as [Hdep Hqu Htar Hout Hc Hin]. rewrite <- (SuccessCount_inv _ _ _ _ _ Hi Hn) in *.
  assert (Hs0 : 0 <= SuccessCount m) by (rewrite (SuccessCount_inv _ _ _ _ _ Hi Hn); lia).
  pose proof (spent_range D q (SuccessCount m) HD Hq1 Hs0) as Hr.
  pose proof (part_range D q (SuccessCount m) HD Hq1) as Hp.
  pose proof (div_uint D q ltac:(unfold is_uint; lia) ltac:(lia)) as Hdq.
  unfold MsgSwap_NextSize. rewrite Hdep, Hqu, Htar. rewrite Hin in *.
  destruct (Z.eqb_spec q 0); [lia|].
  rewrite uint_quo_u64_Ok by (unfold is_uint; lia || done). simpl.
  assert (Hsz : (if SuccessCount m <? D mod q then uint_add (D / q) 1 else Ok (D / q)) =
    Ok (part D q (SuccessCount m))).
  { unfold part in *. destruct (SuccessCount m <? D mod q).
    - rewrite uint_add_ok by auto with go. apply uint_or_panic_Ok. unfold is_uint. lia.
    - by rewrite Z.add_0_r. }
  rewrite Hsz. simpl. set (s := spent D q (SuccessCount m)) in *.
  set (p := part D q (SuccessCount m)) in *.
  rewrite uint_add_ok, uint_or_panic_Ok by (unfold is_uint; lia). simpl.
  assert (Hcap : (if D <? s + p then SafeSub D s else Ok p) = Ok (Z.min p (D - s))).
  { destruct (Z.ltb_spec D (s + p)).
    - rewrite SafeSub_Ok by (unfold is_uint; lia). f_equal. lia.
    - f_equal. lia. }
  rewrite Hcap. simpl.
  rewrite (SafeSub_Ok D s) by (unfold is_uint; lia). simpl.
  rewrite SafeSub_Ok by done. simpl.
  rewrite GetSafeShare_Ok by (unfold is_uint in *; lia). simpl.
  eexists. split; [done|]. split; [lia|]. split; [|done].
  split; [apply share_nonneg; unfold is_uint in *; lia|].
  etrans; [apply share_le; unfold is_uint in *; lia|]. unfold is_uint in *. lia.
Qed.

(** Emissions are [Uint]s. *)
Definition emits_uint (run : MsgSwap -> outcome Z) : Prop :=
  forall m e, run m = Ok e -> is_uint e.

Lemma attempt_inv D q target n m run iteration height m' : item_inv D q target n m ->
  n + 1 < 2 ^ 64 -> 0 <= D -> 2 * D + 1 < uint_lim -> is_u64 q -> 1 <= q -> is_uint target ->
  emits_uint run -> attempt run iteration height m = Ok m' ->
  item_inv D q target (n + 1) m' /\ mTx m' = mTx m.
Proof.
  intros Hi Hn HD HDl Hq Hq1 Ht Hrun H. unfold attempt in H. ok_inv.
  destruct (MsgSwap_NextSize_ok D q target n m Hi ltac:(lia) HD HDl Hq Hq1 Ht)
    as (t & Hnext & Hsz & _ & Hin & Hs0).
  set (size := Z.min (part D q (SuccessCount m)) (D - stIn (State m))) in *.
  rewrite Hnext in *. simplify_eq. rewrite (SuccessCount_inv _ _ _ _ _ Hi ltac:(lia)) in *.
  pose proof (spent_range D q _ HD Hq1 Hs0) as Hr.
  pose proof Hi as [Hdep Hqu Htar Hout Hc _].
  destruct (run _) as [emit|e|] eqn:Erun; [| |done].
  - unfold record_success in H. pose proof (Hrun _ _ Erun).
    assert (is_uint (stIn (State m))) by (unfold is_uint; lia).
    assert (is_uint size) by (unfold is_uint; lia). uint_inv. subst.
    split; [|done]. split; simpl; try done; rewrite u64_id by (unfold is_u64; lia); [lia|].
    rewrite Hin. replace (stCount (State m) + 1 - _) with
      (stCount (State m) - Z.of_nat (length (stFailedSwaps (State m))) + 1) by lia.
    rewrite spent_step by lia. unfold size.
    rewrite (SuccessCount_inv _ _ _ _ _ Hi ltac:(lia)), Hin. lia.
  - simplify_eq. destruct ((0 <? iteration) && IsMarketSwap m).
    + split; [|done]. split; try done. lia.
    + split; [|done]. split; simpl; try done; rewrite u64_id by (unfold is_u64; lia);
        rewrite length_app; simpl; [lia|]. rewrite Hin. f_equal. lia.
Qed.
End streaming_lemmas.

Section queue_lemmas.
Context {S : SdkMath} `{!SdkMathOk S}.
Context (D q target : Z).
Context (HD : 0 <= D) (HDl : 2 * D + 1 < uint_lim).
Context (Hq : is_u64 q) (Hq1 : 1 <= q) (Ht : is_uint target).

Lemma run_attempts_inv l n m m' : item_inv D q target n m ->
  n + Z.of_nat (length l) < 2 ^ 64 -> Forall (fun a => emits_uint (atRun a)) l ->
  run_attempts l m = Ok m' -> item_inv D q target (n + Z.of_nat (length l)) m'.
Proof.
  intros Hi Hn Hl. revert n m Hi Hn.
  induction Hl as [|a l Ha Hl IH]; intros n m Hi Hn Hrun;
    cbn [length run_attempts] in *; rewrite ?Nat2Z.inj_succ in *.
  - simplify_eq. by rewrite Z.add_0_r.
  - ok_inv. destruct (attempt_inv D q target n m (atRun a) (atIteration a) (atHeight a) x)
      as [Hi' _]; try done; [lia|].
    replace (n + Z.succ _) with (n + 1 + Z.of_nat (length l)) by lia.
    apply (IH (n + 1) x); [done|lia|done].
Qed.

(** A successful handler moves the item forward without a failure. *)
Lemma attempt_succeeds n m run iteration height e x : item_inv D q target n m ->
  n + 1 < 2 ^ 64 -> first_amount (mTx m) = Ok x ->
  (forall m, run m = Ok e) -> is_uint e -> is_uint (stOut (State m) + e) ->
  exists m', attempt run iteration height m = Ok m' /\
    item_inv D q target (n + 1) m' /\ mTx m' = mTx m /\
    stOut (State m') = stOut (State m) + e /\
    stFailedSwaps (State m') = stFailedSwaps (State m) /\
    stCount (State m') = stCount (State m) + 1.
Proof.
  intros Hi Hn Hx Hrun He Hout.
  destruct (MsgSwap_NextSize_ok D q target n m Hi ltac:(lia) HD HDl Hq Hq1 Ht)
    as (t & Hnext & Hsz & _ & Hin & Hs0).
  set (size := Z.min (part D q (SuccessCount m)) (D - stIn (State m))) in *.
  assert (Ha : exists m', attempt run iteration height m = Ok m' /\
    stOut (State m') = stOut (State m) + e /\
    stFailedSwaps (State m') = stFailedSwaps (State m) /\
    stCount (State m') = u64 (stCount (State m) + 1)).
  { unfold attempt. rewrite Hx. simpl. rewrite Hnext. simpl. rewrite Hrun.
    unfold record_success. pose proof (spent_range D q _ HD Hq1 Hs0).
    destruct Hi as [_ _ _ Ho _ _].
    rewrite (uint_add_ok (stIn (State m)) size), uint_or_panic_Ok by (unfold is_uint; lia).
    simpl. rewrite uint_add_ok, uint_or_panic_Ok by done. simpl. eauto. }
  destruct Ha as (m' & Ha & Ho & Hf & Hc). exists m'.
  assert (Hu : emits_uint run) by (intros m0 e0; rewrite Hrun; by intros [= <-]).
  destruct (attempt_inv D q target n m run iteration height m' Hi Hn HD HDl Hq Hq1 Ht Hu Ha).
  destruct Hi as [_ _ _ _ Hcn _]. rewrite u64_id in Hc by (unfold is_u64; lia). done.
Qed.

Lemma run_attempts_succeed l n m x emax : item_inv D q target n m ->
  n + Z.of_nat (length l) < 2 ^ 64 -> first_amount (mTx m) = Ok x ->
  Forall (fun a => exists e, 0 <= e <= emax /\ forall m, atRun a m = Ok e) l ->
  stOut (State m) + Z.of_nat (length l) * emax < uint_lim ->
  exists m', run_attempts l m = Ok m' /\ item_inv D q target (n + Z.of_nat (length l)) m' /\
    stFailedSwaps (State m') = stFailedSwaps (State m) /\
    stCount (State m') = stCount (State m) + Z.of_nat (length l).
Proof.
  intros Hi Hn Hx Hl. revert n m Hi Hn Hx.
  induction Hl as [|a l (e & He & Ha) Hl IH]; intros n m Hi Hn Hx Hout;
    cbn [length run_attempts] in *; rewrite ?Nat2Z.inj_succ in *.
  - exists m. rewrite !Z.add_0_r. done.
  - pose proof Hi as [_ _ _ [Ho0 _] _ _].
    assert (0 <= Z.of_nat (length l) * emax) by (apply Z.mul_nonneg_nonneg; lia).
    destruct (attempt_succeeds n m (atRun a) (atIteration a) (atHeight a) e x)
      as (m1 & H1 & Hi1 & Htx & Ho1 & Hf1 & Hc1); try done; try (unfold is_uint; lia).
    rewrite H1. simpl. destruct (IH (n + 1) m1) as (m' & Hm' & Hi' & Hf' & Hc');
      try done; try lia; [by rewrite Htx|].
    exists m'. split; [done|]. rewrite Hf', Hc', Hf1, Hc1.
    replace (n + Z.succ _) with (n + 1 + Z.of_nat (length l)) by lia.
    split; [done|]. split; [done|lia].
Qed.
End queue_lemmas.

Lemma item_inv_init {S : SdkMath} tx target dest tt aff pts agg aggt lim stype quan interval
    version signer m0 maxQ :
  NewMsgSwap tx target dest tt aff pts agg aggt lim stype quan interval version signer = Ok m0 ->
  0 <= stDeposit (State m0) -> 1 <= stQuantity (State (cap_quantity m0 maxQ)) ->
  item_inv (stDeposit (State m0)) (stQuantity (State (cap_quantity m0 maxQ))) tt 0
    (cap_quantity m0 maxQ) /\
  mTx (cap_quantity m0 maxQ) = tx /\ first_amount tx = Ok (stDeposit (State m0)) /\
  stFailedSwaps (State (cap_quantity m0 maxQ)) = [] /\
  stCount (State (cap_quantity m0 maxQ)) = 0 /\ stOut (State (cap_quantity m0 maxQ)) = 0.
Proof.
  intros H HD Hq. unfold NewMsgSwap in H. ok_inv. simpl in *.
  split; [|split; [|split]]; try done. split; simpl; try done.
  pose proof (spent_range x _ 0 HD Hq ltac:(lia)). unfold spent in *.
  pose proof (Z.mod_pos_bound x _ (Z.lt_le_trans 0 1 _ eq_refl Hq)). simpl in *. lia.
Qed.

(** The size of the next legacy sub-swap. *)
Definition legacy_size (swp : StreamingSwap) : Z :=
  if StreamingSwap_IsLastSwap swp then ssDeposit swp - ssIn swp
  else Z.min (if ssQuantity swp =? 0 then 0 else ssDeposit swp / ssQuantity swp)
             (ssDeposit swp - ssIn swp).

Record streaming_ok (swp : StreamingSwap) : Prop := {
  ok_in : 0 <= ssIn swp <= ssDeposit swp;
  ok_deposit : 2 * ssDeposit swp < uint_lim;
  ok_quantity : is_u64 (ssQuantity swp);
  ok_out : is_uint (ssOut swp);
  ok_target : is_uint (ssTradeTarget swp)
}.

Lemma DefaultSwapSize_Ok {S : SdkMath} `{!SdkMathOk S} swp : streaming_ok swp ->
  let size := if ssQuantity swp =? 0 then 0 else ssDeposit swp / ssQuantity swp in
  DefaultSwapSize swp = Ok size /\ 0 <= size <= ssDeposit swp.
Proof.
  intros [Hin HD Hq _ _]. cbv zeta. unfold DefaultSwapSize.
  destruct (Z.eqb_spec (ssQuantity swp) 0); [split; [done|lia]|].
  assert (0 < ssQuantity swp) by (unfold is_u64 in Hq; lia).
  rewrite uint_quo_u64_Ok by (done || unfold is_uint; lia). split; [done|].
  split; [apply Z.div_pos; lia|]. apply Z.div_le_upper_bound; nia.
Qed.

Lemma StreamingSwap_NextSize_ok {S : SdkMath} `{!SdkMathOk S} swp : streaming_ok swp ->
  exists t, StreamingSwap_NextSize swp = Ok (legacy_size swp, t) /\
    0 <= legacy_size swp <= ssDeposit swp - ssIn swp /\ 0 <= t <= ssTradeTarget swp.
Proof.
  intros Hok. destruct (DefaultSwapSize_Ok swp Hok) as [Hsize Hr].
  pose proof Hok as [Hin HD Hq Ho Ht]. unfold StreamingSwap_NextSize, legacy_size.
  rewrite Hsize. simpl. set (d := if ssQuantity swp =? 0 then _ else _) in *.
  rewrite (uint_add_ok (ssIn swp) d), uint_or_panic_Ok by (unfold is_uint; lia). simpl.
  set (size := if StreamingSwap_IsLastSwap swp then _ else _).
  assert (Hcap : (if (ssDeposit swp <? ssIn swp + d) || StreamingSwap_IsLastSwap swp
    then SafeSub (ssDeposit swp) (ssIn swp) else Ok d) = Ok size).
  { unfold size. rewrite SafeSub_Ok by (unfold is_uint; lia).
    destruct (StreamingSwap_IsLastSwap swp); rewrite ?orb_true_r, ?orb_false_r; [f_equal; lia|].
    destruct (Z.ltb_spec (ssDeposit swp) (ssIn swp + d)); f_equal; lia. }
  assert (Hs : 0 <= size <= ssDeposit swp - ssIn swp).
  { unfold size. destruct (StreamingSwap_IsLastSwap swp); lia. }
  rewrite Hcap. simpl.
  rewrite (SafeSub_Ok (ssDeposit swp)) by (unfold is_uint; lia). simpl.
  rewrite SafeSub_Ok by done. simpl.
  rewrite GetSafeShare_Ok by (unfold is_uint in *; lia). simpl.
  eexists. split; [done|]. split; [done|].
  split; [apply share_nonneg; unfold is_uint in *; lia|].
  etrans; [apply share_le; unfold is_uint in *; lia|]. unfold is_uint in *. lia.
Qed.

(** ** Properties *)

(** C15. The sub-swaps of a queue item never spend more than its deposit and
    spend it evenly: whatever succeeds or fails, after [s] successful sub-swaps
    of [q] exactly [s * (D / q) + min s (D mod q)] is spent (all of [D] once
    [s] reaches [q]), attempts are either successes or recorded failures, and
    the next size never panics: it is [D / q], plus one for the first
    [D mod q] sub-swaps, and [0] after the last. *)
Theorem sub_swaps_spend_deposit {S : SdkMath} `{!SdkMathOk S} tx target dest tt aff pts agg
    aggt lim stype quan interval version signer m0 maxQ l m :
  NewMsgSwap tx target dest tt aff pts agg aggt lim stype quan interval version signer = Ok m0 ->
  let m1 := cap_quantity m0 maxQ in
  let D := stDeposit (State m1) in let q := stQuantity (State m1) in
  0 <= D -> 2 * D + 1 < uint_lim -> is_u64 q -> 1 <= q -> is_uint tt ->
  Z.of_nat (length l) < 2 ^ 64 -> Forall (fun a => emits_uint (atRun a)) l ->
  run_attempts l m1 = Ok m ->
  let s := SuccessCount m in
  0 <= s /\ s + FailCount m = stCount (State m) /\
  stIn (State m) = Z.min D (s * (D / q) + Z.min s (D mod q)) /\
  (q <= s -> stIn (State m) = D) /\
  exists size t, MsgSwap_NextSize m = Ok (size, t) /\ 0 <= t <= tt /\
    (s < q -> size = D / q + if s <? D mod q then 1 else 0) /\
    (q <= s -> size = 0).
Proof.
  intros Hnew m1 D q HD HDl Hq Hq1 Ht Hl Hem Hrun s.
  destruct (item_inv_init tx target dest tt aff pts agg aggt lim stype quan interval version
    signer m0 maxQ Hnew HD Hq1) as (Hi & _).
  fold m1 in Hi, Hrun. change (stDeposit (State m0)) with D in Hi. fold q in Hi.
  pose proof (run_attempts_inv D q tt HD HDl Hq Hq1 Ht l 0 m1 m Hi Hl Hem Hrun) as Hm.
  destruct (MsgSwap_NextSize_ok D q tt _ m Hm Hl HD HDl Hq Hq1 Ht)
    as (t & Hnext & Hsz & Htt & Hin & Hs0). fold s in Hnext, Hsz, Hin, Hs0.
  split; [done|]. split.
  { unfold s. rewrite (SuccessCount_inv _ _ _ _ _ Hm Hl). destruct Hm as [_ _ _ _ Hc _].
    unfold FailCount. rewrite u64_id by (unfold is_u64; lia). lia. }
  split; [done|]. split; [intros; rewrite Hin; by apply spent_full|].
  eexists _, t. split; [exact Hnext|]. split; [done|]. rewrite Hin. split; intros Hs.
  - pose proof (part_fits D q s HD Hq1 ltac:(lia)) as [Hp _].
    change (D / q + _) with (part D q s). lia.
  - rewrite spent_full by done. pose proof (part_range D q s HD Hq1). lia.
Qed.

(** C34. Progress: when the handler succeeds on each of [q] attempts (with
    emissions that do not overflow together) no attempt panics, the whole
    deposit is swapped, nothing is recorded as failed and the item is done,
    whether it is a market or a limit swap. *)
Theorem sub_swaps_complete {S : SdkMath} `{!SdkMathOk S} tx target dest tt aff pts agg
    aggt lim stype quan interval version signer m0 maxQ l emax :
  NewMsgSwap tx target dest tt aff pts agg aggt lim stype quan interval version signer = Ok m0 ->
  let m1 := cap_quantity m0 maxQ in
  let D := stDeposit (State m1) in let q := stQuantity (State m1) in
  0 <= D -> 2 * D + 1 < uint_lim -> is_u64 q -> 1 <= q -> is_uint tt ->
  Z.of_nat (length l) = q -> q * emax < uint_lim ->
  Forall (fun a => exists e, 0 <= e <= emax /\ forall m, atRun a m = Ok e) l ->
  exists m, run_attempts l m1 = Ok m /\ stIn (State m) = D /\ stFailedSwaps (State m) = [] /\
    stCount (State m) = q /\ MsgSwap_IsDone m = true.
Proof.
  intros Hnew m1 D q HD HDl Hq Hq1 Ht Hl Hem Hruns.
  destruct (item_inv_init tx target dest tt aff pts agg aggt lim stype quan interval version
    signer m0 maxQ Hnew HD Hq1) as (Hi & Htx & Hfirst & Hf & Hc & Ho).
  fold m1 in Hi, Htx, Hf, Hc, Ho. change (stDeposit (State m0)) with D in Hi, Hfirst.
  fold q in Hi. unfold is_u64 in Hq.
  destruct (run_attempts_succeed D q tt HD HDl Hq Hq1 Ht l 0 m1 D emax Hi) as
    (m & Hm & Him & Hfm & Hcm); [lia|by rewrite Htx|done|rewrite Ho; lia|].
  rewrite Hf in Hfm. rewrite Hc, Z.add_0_l, Hl in Hcm. exists m. split; [done|].
  assert (Hin : stIn (State m) = D).
  { destruct Him as [_ _ _ _ _ ->]. rewrite Hfm, Hcm. apply spent_full; simpl; lia. }
  split; [done|]. split; [done|]. split; [done|].
  unfold MsgSwap_IsDone. destruct Him as [-> -> _ _ _ _]. rewrite Hcm, Hin.
  destruct (mSwapType m); [apply Z.leb_refl|apply Z.eqb_refl].
Qed.

(** A legacy streaming swap never spends more than its deposit: an attempt
    panics only when the handler does or the emissions overflow; a success
    spends the next part, the last one everything that is left; a failure spends
    nothing, and refunds the whole deposit exactly when nothing was swapped
    yet.  The bounds hold again afterwards. *)
Theorem legacy_attempt_spends {S : SdkMath} `{!SdkMathOk S} swap height swp :
  streaming_ok swp -> (forall size t e, swap size t = Ok e -> is_uint e) ->
  exists size t, StreamingSwap_NextSize swp = Ok (size, t) /\ 0 <= t <= ssTradeTarget swp /\
    match swap size t with
    | Panic => legacy_attempt swap height swp = Panic
    | Err e => exists swp', legacy_attempt swap height swp =
          Ok (swp', (ssIn swp =? 0) && (ssOut swp =? 0)) /\
        streaming_ok swp' /\ ssIn swp' = ssIn swp /\ ssOut swp' = ssOut swp /\
        ssDeposit swp' = ssDeposit swp /\ ssCount swp' = u64 (ssCount swp + 1)
    | Ok emit => uint_lim <= ssOut swp + emit /\ legacy_attempt swap height swp = Panic \/
        exists swp', legacy_attempt swap height swp = Ok (swp', false) /\
        streaming_ok swp' /\ ssIn swp' = ssIn swp + size /\ ssOut swp' = ssOut swp + emit /\
        ssDeposit swp' = ssDeposit swp /\ ssCount swp' = u64 (ssCount swp + 1) /\
        (StreamingSwap_IsLastSwap swp = true ->
           StreamingSwap_IsDone swp' = true /\ ssIn swp' = ssDeposit swp)
    end.
Proof.
  intros Hok Hemit. destruct (StreamingSwap_NextSize_ok swp Hok) as (t & Hnext & Hs & Ht).
  exists (legacy_size swp), t. split; [done|]. split; [done|].
  unfold legacy_attempt, legacy_success. rewrite Hnext. simpl.
  pose proof Hok as [Hin HD Hq Ho Htar].
  destruct (swap (legacy_size swp) t) as [emit|e|] eqn:E; [| |done].
  - apply Hemit in E.
    rewrite (uint_add_ok (ssIn swp)), uint_or_panic_Ok by (unfold is_uint; lia). simpl.
    rewrite uint_add_ok by done. destruct (decide (is_uint (ssOut swp + emit))) as [Hu|Hu].
    + rewrite uint_or_panic_Ok by done. right. eexists. split; [simpl; done|].
      split; [by split; simpl; try done; lia|]. simpl.
      split; [done|]. split; [done|]. split; [done|]. split; [done|]. intros Hlast.
      unfold legacy_size. rewrite Hlast. split; [|lia]. done.
    + left. rewrite uint_or_panic_Panic by done. unfold is_uint in *. split; [lia|done].
  - eexists. split; [done|]. split; [by split|]. done.
Qed.

(** Clout: [Reclaim] returns at most what was spent, so it never lowers the
    available clout, never makes more than [Score] available, and reduces the
    claimable amount by the value reclaimed; [Restore] after more than [limit]
    idle blocks makes the whole score available again. *)
Theorem clout_accounting {S : SdkMath} `{!SdkMathOk S} c value c' height limit :
  is_uint (Score c) -> is_uint (Spent c) -> is_uint (Reclaimed c) -> is_uint value ->
  Reclaimed c <= Spent c -> Reclaim c value = Ok c' ->
  is_i64 (LastSpentHeight c + limit) ->
  exists a a' k k', Available c = Ok a /\ Available c' = Ok a' /\
    Claimable c = Ok k /\ Claimable c' = Ok k' /\
    Reclaimed c' <= Spent c' /\ 0 <= a <= a' /\ a' <= Score c /\
    k' = k - Z.min k value /\
    (LastSpentHeight c + limit < height ->
       Available (Restore c height limit) = Ok (Score c) /\
       Claimable (Restore c height limit) = Ok 0).
Proof.
  intros Hsc Hsp Hre Hv Hle H Hi. unfold Reclaim in H. uint_inv. subst.
  set (r' := if Spent c <? Reclaimed c + value then Spent c else Reclaimed c + value).
  assert (Hr' : r' = Z.min (Spent c) (Reclaimed c + value)).
  { unfold r'. destruct (Z.ltb_spec (Spent c) (Reclaimed c + value)); lia. }
  assert (is_uint r') by (unfold is_uint in *; lia). clearbody r'.
  unfold Available, Claimable. simpl.
  rewrite (SafeSub_Ok (Spent c) (Reclaimed c)), (SafeSub_Ok (Spent c) r') by done. simpl.
  rewrite !SafeSub_Ok by auto with go.
  do 4 eexists. split; [done|]. split; [done|]. split; [done|]. split; [done|].
  unfold is_uint in *. split; [lia|]. split; [lia|]. split; [lia|]. split; [lia|].
  intros Hh. unfold Restore. rewrite i64_id by done.
  destruct (Z.ltb_spec (LastSpentHeight c + limit) height); [|lia]. simpl.
  rewrite (SafeSub_Ok (Spent c) (Spent c)) by done. simpl.
  rewrite SafeSub_Ok by (unfold is_uint; lia). split; f_equal; lia.
Qed.

(** ** The properties at concrete inputs *)

Definition demo_swap_tx (amount : Z) : Tx :=
  mkTx "" BTCChain "a" "b" [mkCoin BTCAsset amount 0] [] "=:ETH.ETH".
Definition demo_swap (amount q : Z) : outcome MsgSwap :=
  NewMsgSwap (demo_swap_tx amount) ETHAsset "b" 1000 "" 0 "" "" None SwapType_market q 1
    SwapVersion_v2 "".
Definition demo_attempt (emit : outcome Z) : Attempt := mkAttempt (fun _ => emit) 0 7.
Definition demo_item : MsgSwap :=
  mkMsgSwap (demo_swap_tx 9) ETHAsset "b" 1000 "" 0 "" "" "" None SwapType_market 5 1 0
    (mkSwapState 1 5 0 0 0 9 0 0 0 [] []) SwapVersion_v2 0.
Definition demo_swp : StreamingSwap := mkStreamingSwap "" 1 3 2 5 100 10 6 60 [] [].
Definition demo_clout : SwapperClout := mkSwapperClout "x" 100 10 70 5 5.

(** The example of the comment in [NextSize]: nine sats in five parts. *)
Example split_nine : forall m,
  run_attempts (S := sdk_std) [] (cap_quantity demo_item 100) = Ok m ->
  MsgSwap_NextSize (S := sdk_std) m = Ok (2, 222).
Proof. intros m [= <-]. vm_compute. reflexivity. Qed.

Lemma demo_emits e : is_uint e -> emits_uint (fun _ => Ok e).
Proof. intros He m e'. by intros [= <-]. Qed.

Lemma demo_emits_err e : emits_uint (fun _ => Err e).
Proof. intros m e'. done. Qed.

Definition demo_attempts : list Attempt :=
  [demo_attempt (Ok 50); demo_attempt (Err "slip"); demo_attempt (Ok 60)].
Definition demo_q : Z := stQuantity (State (cap_quantity demo_item 100)).
Definition demo_D : Z := stDeposit (State (cap_quantity demo_item 100)).

Ltac demo_side := solve [vm_compute; done | split; vm_compute; congruence].

Lemma demo_attempts_emit : Forall (fun a => emits_uint (atRun a)) demo_attempts.
Proof.
  unfold demo_attempts. repeat (apply Forall_cons; split); simpl; try apply Forall_nil;
    try done; first [apply demo_emits_err | apply demo_emits; demo_side].
Qed.

Lemma sub_swaps_spend_deposit_witness : exists m,
  run_attempts (S := sdk_std) demo_attempts (cap_quantity demo_item 100) = Ok m /\
  stIn (State m) = Z.min demo_D
    (SuccessCount m * (demo_D / demo_q) + Z.min (SuccessCount m) (demo_D mod demo_q)).
Proof.
  destruct (run_attempts (S := sdk_std) demo_attempts (cap_quantity demo_item 100))
    as [m|e|] eqn:E; [|exfalso; vm_compute in E; discriminate E..].
  exists m. split; [reflexivity|].
  refine (proj1 (proj2 (proj2 (sub_swaps_spend_deposit (S := sdk_std) (demo_swap_tx 9) ETHAsset
    "b" 1000 "" 0 "" "" None SwapType_market 5 1 SwapVersion_v2 "" demo_item 100
    demo_attempts m eq_refl _ _ _ _ _ _ demo_attempts_emit E)))); demo_side.
Defined.

Lemma sub_swaps_complete_witness : exists m,
  run_attempts (S := sdk_std) (repeat (demo_attempt (Ok 50)) 5) (cap_quantity demo_item 100) = Ok m /\
  stIn (State m) = demo_D /\ stFailedSwaps (State m) = [] /\ stCount (State m) = demo_q /\
  MsgSwap_IsDone m = true.
Proof.
  refine (sub_swaps_complete (S := sdk_std) (demo_swap_tx 9) ETHAsset
    "b" 1000 "" 0 "" "" None SwapType_market 5 1 SwapVersion_v2 "" demo_item 100
    (repeat (demo_attempt (Ok 50)) 5) 50 eq_refl _ _ _ _ _ eq_refl _ _); try demo_side.
  repeat constructor; exists 50; split; done || lia.
Defined.

Lemma legacy_attempt_spends_witness : exists size t,
  StreamingSwap_NextSize (S := sdk_std) demo_swp = Ok (size, t) /\ 0 <= t <= 100 /\ size = 4.
Proof.
  destruct (legacy_attempt_spends (S := sdk_std) (fun _ _ => Ok 40) 6 demo_swp)
    as (size & t & Hn & Ht & _).
  - split; simpl; unfold is_uint, is_u64, uint_lim; lia.
  - intros _ _ e [= <-]. unfold is_uint, uint_lim. lia.
  - exists size, t. split; [exact Hn|]. split; [exact Ht|].
    vm_compute in Hn. injection Hn as <- _. reflexivity.
Defined.

Lemma clout_accounting_witness : exists a a',
  Reclaim (S := sdk_std) demo_clout 20 = Ok (with_reclaimed demo_clout 30) /\
  Available (S := sdk_std) demo_clout = Ok a /\
  Available (S := sdk_std) (with_reclaimed demo_clout 30) = Ok a' /\ 0 <= a <= a'.
Proof.
  destruct (clout_accounting (S := sdk_std) demo_clout 20
    (with_reclaimed demo_clout 30) 10 3) as (a & a' & k & k' & Ha & Ha' & _ & _ & _ & Hle & _);
    try demo_side.
  exists a, a'. split; [vm_compute; reflexivity|]. auto.
Defined.
