(* ===== verification/MemoTypes.v ===== *)
(** Memos: the types of [x/thorchain/memo/], the tables of transaction types,
    the constructors, the accessors of the [Memo] interface, and what each memo
    prints; and the THORNames a memo may carry ([types/type_thorname.go]). *)
From S2P Require Import Prelude SdkMath GoStr Keys Shares Chains Assets Coins Nodes Txs.
From S2P Require Import Decimal GoLib Addresses Streaming.
Local Open Scope string_scope.
Local Open Scope Z_scope.

(** ** Transaction types *)

Inductive TxType :=
| TxUnknown | TxAdd | TxWithdraw | TxSwap | TxLimitSwap | TxModifyLimitSwap | TxOutbound | TxDonate
| TxBond | TxUnbond | TxLeave | TxReserve | TxRefund | TxMigrate | TxRagnarok | TxNoOp | TxConsolidate
| TxTHORName | TxTradeAccountDeposit | TxTradeAccountWithdrawal | TxSecuredAssetDeposit
| TxSecuredAssetWithdraw | TxDecaPoolDeposit | TxDecaPoolWithdraw | TxExec | TxSwitch
| TxReferenceWriteMemo | TxReferenceReadMemo | TxTCYClaim | TxTCYStake | TxTCYUnstake | TxMaint
| TxRebond | TxOperatorRotate.

#[export] Instance TxType_eq_dec : EqDecision TxType.
Proof. solve_decision. Defined.

Definition stringToTxTypeMap : list (list string * TxType) :=
  [ (["add"; "+"], TxAdd); (["withdraw"; "wd"; "-"], TxWithdraw); (["swap"; "s"; "="], TxSwap);
    (["=<"], TxLimitSwap); (["m=<"], TxModifyLimitSwap); (["out"], TxOutbound);
    (["donate"; "d"], TxDonate); (["bond"], TxBond); (["unbond"], TxUnbond); (["rebond"], TxRebond);
    (["leave"], TxLeave); (["reserve"], TxReserve); (["refund"], TxRefund); (["migrate"], TxMigrate);
    (["ragnarok"], TxRagnarok); (["noop"], TxNoOp); (["consolidate"], TxConsolidate);
    (["name"; "n"; "~"], TxTHORName); (["reference"], TxReferenceWriteMemo);
    (["r"], TxReferenceReadMemo); (["trade+"], TxTradeAccountDeposit);
    (["trade-"], TxTradeAccountWithdrawal); (["secure+"], TxSecuredAssetDeposit);
    (["secure-"], TxSecuredAssetWithdraw); (["pool+"], TxDecaPoolDeposit);
    (["pool-"], TxDecaPoolWithdraw); (["x"; "exec"], TxExec); (["switch"], TxSwitch);
    (["tcy"], TxTCYClaim); (["tcy+"], TxTCYStake); (["tcy-"], TxTCYUnstake); (["maint"], TxMaint);
    (["operator"], TxOperatorRotate) ].

(** [tx.String()], a lookup in [txToStringMap]: the empty string for a type that
    is not there. *)
Definition TxType_String (tx : TxType) : string :=
  match tx with
  | TxAdd => "add" | TxWithdraw => "withdraw" | TxSwap => "swap" | TxLimitSwap => "=<"
  | TxModifyLimitSwap => "m=<" | TxOutbound => "out" | TxRefund => "refund" | TxDonate => "donate"
  | TxBond => "bond" | TxUnbond => "unbond" | TxRebond => "rebond" | TxLeave => "leave"
  | TxReserve => "reserve" | TxMigrate => "migrate" | TxRagnarok => "ragnarok" | TxNoOp => "noop"
  | TxConsolidate => "consolidate" | TxTHORName => "thorname" | TxReferenceWriteMemo => "reference"
  | TxReferenceReadMemo => "r" | TxTradeAccountDeposit => "trade+"
  | TxTradeAccountWithdrawal => "trade-" | TxSecuredAssetDeposit => "secure+"
  | TxSecuredAssetWithdraw => "secure-" | TxExec => "x" | TxSwitch => "switch" | TxTCYClaim => "tcy"
  | TxTCYStake => "tcy+" | TxTCYUnstake => "tcy-" | TxMaint => "maint"
  | TxUnknown | TxDecaPoolDeposit | TxDecaPoolWithdraw | TxOperatorRotate => ""
  end.

Definition StringToTxType (s : string) : outcome TxType :=
  switch (to_lower s) (map (fun '(names, t) => (names, Ok t)) stringToTxTypeMap)
    (Err ("invalid tx type: " ++ s)).

Definition IsInbound (tx : TxType) : bool :=
  match tx with
  | TxAdd | TxWithdraw | TxTradeAccountDeposit | TxTradeAccountWithdrawal | TxDecaPoolDeposit
  | TxDecaPoolWithdraw | TxSecuredAssetDeposit | TxSecuredAssetWithdraw | TxReferenceWriteMemo
  | TxReferenceReadMemo | TxSwap | TxLimitSwap | TxModifyLimitSwap | TxDonate | TxBond | TxUnbond
  | TxRebond | TxLeave | TxMaint | TxReserve | TxNoOp | TxTHORName | TxExec | TxSwitch | TxTCYClaim
  | TxTCYStake | TxTCYUnstake | TxOperatorRotate => true
  | _ => false
  end.

Definition IsOutbound (tx : TxType) : bool :=
  match tx with TxOutbound | TxRefund | TxRagnarok => true | _ => false end.
Definition IsOutboundMemoless (tx : TxType) : bool :=
  match tx with TxOutbound | TxRefund => true | _ => false end.
Definition IsInternal (tx : TxType) : bool :=
  match tx with TxMigrate | TxConsolidate => true | _ => false end.
Definition HasOutbound (tx : TxType) : bool :=
  match tx with
  | TxAdd | TxBond | TxTradeAccountDeposit | TxSecuredAssetDeposit | TxDecaPoolDeposit | TxDonate
  | TxReserve | TxMigrate | TxMaint | TxRagnarok => false
  | _ => true
  end.
Definition TxType_IsEmpty (tx : TxType) : bool := bool_decide (tx = TxUnknown).
Definition TxType_Equals (tx tx2 : TxType) : bool := bool_decide (tx = tx2).

(** ** THORNames *)

Record THORNameAlias := mkTHORNameAlias { tnaChain : Chain; tnaAddress : Address }.

Record THORName := mkTHORName {
  tnName : string;
  tnExpireBlockHeight : Z;
  tnOwner : AccAddress;
  tnPreferredAsset : Asset;
  tnAliases : list THORNameAlias;
  tnPreferredAssetOutboundFeeMultiplier : Z
}.

Definition NewTHORName (name : string) (exp : Z) (aliases : list THORNameAlias) : THORName :=
  mkTHORName name exp "" EmptyAsset aliases 0.

Fixpoint aliases_valid (aliases : list THORNameAlias) : goerr :=
  match aliases with
  | [] => None
  | a :: aliases' =>
      if Chain_IsEmpty (tnaChain a) then Some "chain can't be empty"
      else if Address_IsEmpty (tnaAddress a) then Some "address cannot be empty"
      else aliases_valid aliases'
  end.
Definition THORName_Valid (m : THORName) : goerr :=
  if String.eqb (tnName m) "" then Some "name can't be empty"
  else
    match tnAliases m with
    | [] => Some "aliases can't be empty"
    | aliases => aliases_valid aliases
    end.

Fixpoint find_alias (aliases : list THORNameAlias) (chain : Chain) : Address :=
  match aliases with
  | [] => NoAddress
  | a :: aliases' =>
      if Chain_Equals (tnaChain a) chain then tnaAddress a else find_alias aliases' chain
  end.
Definition GetAlias (m : THORName) (chain : Chain) : Address := find_alias (tnAliases m) chain.

Fixpoint set_alias (aliases : list THORNameAlias) (chain : Chain) (addr : Address) :
    list THORNameAlias :=
  match aliases with
  | [] => [mkTHORNameAlias chain addr]
  | a :: aliases' =>
      if Chain_Equals (tnaChain a) chain then mkTHORNameAlias (tnaChain a) addr :: aliases'
      else a :: set_alias aliases' chain addr
  end.
Definition SetAlias (m : THORName) (chain : Chain) (addr : Address) : THORName :=
  mkTHORName (tnName m) (tnExpireBlockHeight m) (tnOwner m) (tnPreferredAsset m)
    (set_alias (tnAliases m) chain addr) (tnPreferredAssetOutboundFeeMultiplier m).

Definition THORName_Key (m : THORName) : string := EncodeToString (to_lower (tnName m)).

Definition CanReceiveAffiliateFee {K : SdkKeys} (m : THORName) : bool :=
  if acc_empty (tnOwner m) then false
  else if Asset_IsEmpty (tnPreferredAsset m) then negb (Address_IsEmpty (GetAlias m THORChain))
  else negb (Address_IsEmpty (GetAlias m (GetChain (tnPreferredAsset m)))).

(** ** Memos *)

(** type MemoBase *)
Record MemoBase := mkMemoBase { mbTxType : TxType; mbAsset : Asset }.

Record AddLiquidityMemo := mkAddLiquidityMemo {
  amBase : MemoBase;
  amAddress : Address;
  amAffiliateAddress : Address;
  amAffiliateBasisPoints : Z
}.

Record SwapMemo := mkSwapMemo {
  smBase : MemoBase;
  smDestination : Address;
  smSlipLimit : Z;
  smAffiliateAddress : Address;
  smAffiliateBasisPoints : Z;
  smDexAggregator : string;
  smDexTargetAddress : string;
  smDexTargetLimit : option Z;
  smSwapType : SwapType;
  smStreamInterval : Z;
  smStreamQuantity : Z;
  smAffiliateTHORName : option THORName;
  smRefundAddress : Address;
  smAffiliates : list string;
  smAffiliatesBasisPoints : list Z
}.

Record ManageTHORNameMemo := mkManageTHORNameMemo {
  mnBase : MemoBase;
  mnName : string;
  mnChain : Chain;
  mnAddress : Address;
  mnPreferredAsset : Asset;
  mnExpire : Z;
  mnOwner : AccAddress;
  mnPreferredAssetOutboundFeeMultiplier : Z
}.

(** The structs that implement the interface [Memo].  A nil [AccAddress] is the
    empty one; a [cosmos.Uint] that a constructor does not set is [None]. *)
Inductive Memo :=
| MBase (b : MemoBase)
| MLeave (b : MemoBase) (NodeAddress : AccAddress)
| MDonate (b : MemoBase)
| MAddLiquidity (m : AddLiquidityMemo)
| MWithdrawLiquidity (b : MemoBase) (Amount : Z) (WithdrawalAsset : Asset)
| MDecaPoolDeposit (b : MemoBase)
| MDecaPoolWithdraw (b : MemoBase) (BasisPoints : Z) (AffiliateAddress : Address)
    (AffiliateBasisPoints : Z) (AffiliateTHORName : option THORName)
| MSwap (m : SwapMemo)
| MModifyLimitSwap (b : MemoBase) (Source Target : Coin) (ModifiedTargetAmount : Z)
| MOutbound (b : MemoBase) (id : TxID)
| MRefund (b : MemoBase) (id : TxID)
| MBond (b : MemoBase) (NodeAddress BondProviderAddress : AccAddress) (NodeOperatorFee : Z)
| MUnbond (b : MemoBase) (NodeAddress : AccAddress) (Amount : Z) (BondProviderAddress : AccAddress)
| MRebond (b : MemoBase) (NodeAddress NewBondProviderAddress : AccAddress) (Amount : Z)
| MReserve (b : MemoBase)
| MMigrate (b : MemoBase) (BlockHeight : Z)
| MRagnarok (b : MemoBase) (BlockHeight : Z)
| MNoOp (b : MemoBase) (Action : string)
| MConsolidate (b : MemoBase)
| MManageTHORName (m : ManageTHORNameMemo)
| MReferenceWrite (b : MemoBase) (asset : Asset) (memo : string)
| MReferenceRead (b : MemoBase) (Reference : string)
| MTradeAccountDeposit (b : MemoBase) (addr : AccAddress)
| MTradeAccountWithdrawal (b : MemoBase) (addr : Address) (Amount : option Z)
| MSecuredAssetDeposit (b : MemoBase) (addr : AccAddress)
| MSecuredAssetWithdraw (b : MemoBase) (addr : Address) (Amount : option Z)
| MExec (b : MemoBase) (ContractAddress : AccAddress) (Msg : string)
| MSwitch (b : MemoBase) (addr : AccAddress)
| MTCYClaim (b : MemoBase) (addr : Address)
| MTCYStake (b : MemoBase)
| MTCYUnstake (b : MemoBase) (BasisPoints : Z)
| MMaint (b : MemoBase) (NodeAddress : AccAddress)
| MOperatorRotate (b : MemoBase) (OperatorAddress : AccAddress).

(** [MemoBase{TxType: t}] and [MemoBase{TxType: t, Asset: a}] *)
Definition base (t : TxType) : MemoBase := mkMemoBase t EmptyAsset.

Definition EmptyMemo : Memo := MBase (base TxUnknown).

(** ** Constructors *)

Definition NewAddLiquidityMemo (asset : Asset) (addr affAddr : Address) (affPts : Z) :
    AddLiquidityMemo :=
  mkAddLiquidityMemo (mkMemoBase TxAdd asset) addr affAddr affPts.
Definition NewWithdrawLiquidityMemo (asset : Asset) (amt : Z) (withdrawalAsset : Asset) : Memo :=
  MWithdrawLiquidity (mkMemoBase TxWithdraw asset) amt withdrawalAsset.
Definition NewDecaPoolDepositMemo : Memo := MDecaPoolDeposit (base TxDecaPoolDeposit).
Definition NewModifyLimitSwapMemo (source target : Coin) (mod_ : Z) : Memo :=
  MModifyLimitSwap (base TxModifyLimitSwap) source target mod_.
Definition NewOutboundMemo (txID : TxID) : Memo := MOutbound (base TxOutbound) txID.
Definition NewRefundMemo (txID : TxID) : Memo := MRefund (base TxRefund) txID.
Definition NewBondMemo (addr additional : AccAddress) (operatorFee : Z) : Memo :=
  MBond (base TxBond) addr additional operatorFee.
Definition NewUnbondMemo (addr additional : AccAddress) (amt : Z) : Memo :=
  MUnbond (base TxUnbond) addr amt additional.
Definition NewRebondMemo (nodeAddress newProvider : AccAddress) (amount : Z) : Memo :=
  MRebond (base TxRebond) nodeAddress newProvider amount.
Definition NewLeaveMemo (addr : AccAddress) : Memo := MLeave (base TxLeave) addr.
Definition NewMaintMemo (addr : AccAddress) : Memo := MMaint (base TxMaint) addr.
Definition NewMigrateMemo (blockHeight : Z) : Memo := MMigrate (base TxMigrate) blockHeight.
Definition NewRagnarokMemo (blockHeight : Z) : Memo := MRagnarok (base TxRagnarok) blockHeight.
Definition NewNoOpMemo (action : string) : Memo := MNoOp (base TxNoOp) action.
Definition NewConsolidateMemo : Memo := MConsolidate (base TxConsolidate).
Definition NewManageTHORNameMemo (name : string) (chain : Chain) (addr : Address) (expire : Z)
    (asset : Asset) (owner : AccAddress) (multiplier : Z) : Memo :=
  MManageTHORName (mkManageTHORNameMemo (base TxTHORName) name chain addr asset expire owner multiplier).
Definition NewReferenceWriteMemo (asset : Asset) (memo : string) : Memo :=
  MReferenceWrite (base TxReferenceWriteMemo) asset memo.
Definition NewReferenceReadMemo (ref : string) : Memo := MReferenceRead (base TxReferenceReadMemo) ref.
Definition NewTradeAccountDepositMemo (addr : AccAddress) : Memo :=
  MTradeAccountDeposit (base TxTradeAccountDeposit) addr.
Definition NewTradeAccountWithdrawalMemo (addr : Address) : Memo :=
  MTradeAccountWithdrawal (base TxTradeAccountWithdrawal) addr None.
Definition NewSecuredAssetDepositMemo (addr : AccAddress) : Memo :=
  MSecuredAssetDeposit (base TxSecuredAssetDeposit) addr.
Definition NewSecuredAssetWithdrawMemo (addr : Address) : Memo :=
  MSecuredAssetWithdraw (base TxSecuredAssetWithdraw) addr None.
Definition NewExecMemo (contract : AccAddress) (msg : string) : Memo := MExec (base TxExec) contract msg.
Definition NewSwitchMemo (addr : AccAddress) : Memo := MSwitch (base TxSwitch) addr.
Definition NewTCYClaimMemo (address : Address) : Memo := MTCYClaim (base TxTCYClaim) address.
Definition NewTCYStakeMemo : Memo := MTCYStake (base TxTCYStake).
Definition NewTCYUnstakeMemo (basisPoints : Z) : Memo := MTCYUnstake (base TxTCYUnstake) basisPoints.
Definition NewOperatorRotateMemo (operatorAddr : AccAddress) : Memo :=
  MOperatorRotate (base TxOperatorRotate) operatorAddr.

Section memos.
Context {K : SdkKeys}.

(** [if !tn.Owner.Empty() { mem.AffiliateTHORName = &tn }] *)
Definition owned (tn : THORName) : option THORName :=
  if acc_empty (tnOwner tn) then None else Some tn.

Definition NewDecaPoolWithdrawMemo (basisPoints : Z) (affAddr : Address) (affBps : Z) (tn : THORName) :
    Memo :=
  MDecaPoolWithdraw (base TxDecaPoolWithdraw) basisPoints affAddr affBps (owned tn).

Definition NewSwapMemo (asset : Asset) (dest : Address) (slip : Z) (affAddr : Address) (affPts : Z)
    (dexAgg dexTargetAddress : string) (dexTargetLimit : Z) (swapType : SwapType) (quan interval : Z)
    (tn : THORName) (refundAddress : Address) (affiliates : list string)
    (affiliatesFeeBps : list Z) : SwapMemo :=
  mkSwapMemo (mkMemoBase TxSwap asset) dest slip affAddr affPts dexAgg dexTargetAddress
    (if dexTargetLimit =? 0 then None else Some dexTargetLimit) swapType interval quan (owned tn)
    refundAddress affiliates affiliatesFeeBps.

(** ** Printing *)

(** [strings.Join(args, ":")]; [args[:last]] is [take]. *)
Definition join_colon (args : list string) : string := join ":" args.

Definition AddLiquidityMemo_String (m : AddLiquidityMemo) : string :=
  let txType :=
    if TxType_Equals (mbTxType (amBase m)) TxAdd then "+" else TxType_String (mbTxType (amBase m)) in
  let args :=
    [txType; Asset_String (mbAsset (amBase m)); amAddress m; amAffiliateAddress m;
     itoa (amAffiliateBasisPoints m)] in
  let last := if negb (Address_IsEmpty (amAddress m)) then 3%nat else 2%nat in
  let last := if negb (Address_IsEmpty (amAffiliateAddress m)) then 5%nat else last in
  join_colon (take last args).

Definition SwapMemo_string (short : bool) (m : SwapMemo) : string :=
  let b := smBase m in
  let streaming := (0 <? smStreamInterval m) || (1 <? smStreamQuantity m) in
  let slipLimit := if smSlipLimit m =? 0 then "" else itoa (smSlipLimit m) in
  let slipLimit :=
    if streaming then
      itoa (smSlipLimit m) ++ "/" ++ itoa (smStreamInterval m) ++ "/" ++ itoa (smStreamQuantity m)
    else slipLimit in
  let txType := if TxType_Equals (mbTxType b) TxSwap then "=" else TxType_String (mbTxType b) in
  let assetString :=
    if short && negb (String.eqb (ShortCode (mbAsset b)) "") then ShortCode (mbAsset b)
    else Asset_String (mbAsset b) in
  let destString :=
    if negb (Address_IsEmpty (smRefundAddress m))
    then smDestination m ++ "/" ++ smRefundAddress m else smDestination m in
  let affString := join "/" (smAffiliates m) in
  let affBpsString := join "/" (map itoa (smAffiliatesBasisPoints m)) in
  let args :=
    [txType; assetString; destString; slipLimit; affString; affBpsString; smDexAggregator m;
     smDexTargetAddress m] in
  let last := 3%nat in
  let last := if negb (smSlipLimit m =? 0) || streaming then 4%nat else last in
  let last := match smAffiliates m with [] => last | _ => 6%nat end in
  let last := if negb (String.eqb (smDexAggregator m) "") then 8%nat else last in
  let '(args, last) :=
    match smDexTargetLimit m with
    | Some limit => if limit =? 0 then (args, last) else ((args ++ [itoa limit])%list, 9%nat)
    | None => (args, last)
    end in
  join_colon (take last args).

Definition SwapMemo_String (m : SwapMemo) : string := SwapMemo_string false m.
Definition SwapMemo_ShortString (m : SwapMemo) : string := SwapMemo_string true m.

(** The method [String] of each struct; the ones that have none inherit that of
    [MemoBase]. *)
Definition Memo_String (m : Memo) : string :=
  match m with
  | MDonate b => "DONATE:" ++ Asset_String (mbAsset b)
  | MAddLiquidity m => AddLiquidityMemo_String m
  | MDecaPoolDeposit _ => "pool+"
  | MDecaPoolWithdraw _ bps aff affBps _ =>
      join_colon [TxType_String TxDecaPoolWithdraw; itoa bps; aff; itoa affBps]
  | MSwap m => SwapMemo_String m
  | MOutbound _ id => "OUT:" ++ id
  | MRefund _ id => "REFUND:" ++ id
  | MMigrate _ h => "MIGRATE:" ++ itoa h
  | MRagnarok _ h => "RAGNAROK:" ++ itoa h
  | MNoOp _ action => if String.eqb action "" then "noop" else "noop:" ++ action
  | MConsolidate _ => "consolidate"
  | MExec _ contract msg =>
      join_colon [TxType_String TxExec; acc_string contract; EncodeToString msg]
  | MMaint _ addr => "maint:" ++ acc_string addr
  | _ => ""
  end.

(** [CreateMemo] of a [ReferenceReadMemo] *)
Definition ReferenceRead_CreateMemo (ref : string) : string :=
  TxType_String TxReferenceReadMemo ++ ":" ++ ref.
End memos.

(** ** Accessors of the interface *)

Definition memo_base (m : Memo) : MemoBase :=
  match m with
  | MBase b | MLeave b _ | MDonate b | MWithdrawLiquidity b _ _ | MDecaPoolDeposit b
  | MDecaPoolWithdraw b _ _ _ _ | MModifyLimitSwap b _ _ _ | MOutbound b _ | MRefund b _ | MBond b _ _ _
  | MUnbond b _ _ _ | MRebond b _ _ _ | MReserve b | MMigrate b _ | MRagnarok b _ | MNoOp b _
  | MConsolidate b | MReferenceWrite b _ _ | MReferenceRead b _ | MTradeAccountDeposit b _
  | MTradeAccountWithdrawal b _ _ | MSecuredAssetDeposit b _ | MSecuredAssetWithdraw b _ _ | MExec b _ _
  | MSwitch b _ | MTCYClaim b _ | MTCYStake b | MTCYUnstake b _ | MMaint b _ | MOperatorRotate b _ => b
  | MAddLiquidity m => amBase m
  | MSwap m => smBase m
  | MManageTHORName m => mnBase m
  end.

Definition GetType (m : Memo) : TxType := mbTxType (memo_base m).
Definition Memo_IsType (m : Memo) (tx : TxType) : bool := TxType_Equals (GetType m) tx.
Definition Memo_IsInbound (m : Memo) : bool := IsInbound (GetType m).
Definition Memo_IsOutbound (m : Memo) : bool := IsOutbound (GetType m).
Definition Memo_IsInternal (m : Memo) : bool := IsInternal (GetType m).
Definition Memo_IsEmpty (m : Memo) : bool := TxType_IsEmpty (GetType m).

Definition Memo_GetAsset (m : Memo) : Asset :=
  match m with MReferenceWrite _ asset _ => asset | _ => mbAsset (memo_base m) end.
Definition GetAmount (m : Memo) : option Z :=
  match m with
  | MWithdrawLiquidity _ amt _ | MUnbond _ _ amt _ | MRebond _ _ _ amt => Some amt
  | MTradeAccountWithdrawal _ _ amt | MSecuredAssetWithdraw _ _ amt => amt
  | _ => Some 0
  end.
Definition GetDestination (m : Memo) : Address :=
  match m with MAddLiquidity m => amAddress m | MSwap m => smDestination m | _ => "" end.
Definition GetSlipLimit (m : Memo) : Z := match m with MSwap m => smSlipLimit m | _ => 0 end.
Definition GetTxID (m : Memo) : TxID :=
  match m with MOutbound _ id | MRefund _ id => id | _ => "" end.
Definition GetAccAddress (m : Memo) : AccAddress :=
  match m with
  | MLeave _ a | MMaint _ a | MBond _ a _ _ | MUnbond _ a _ _ | MTradeAccountDeposit _ a
  | MSecuredAssetDeposit _ a | MExec _ a _ | MSwitch _ a => a
  | _ => ""
  end.
Definition GetBlockHeight (m : Memo) : Z :=
  match m with MMigrate _ h | MRagnarok _ h => h | _ => 0 end.
Definition GetDexAggregator (m : Memo) : string :=
  match m with MSwap m => smDexAggregator m | _ => "" end.
Definition GetDexTargetAddress (m : Memo) : string :=
  match m with MSwap m => smDexTargetAddress m | _ => "" end.
Definition GetDexTargetLimit (m : Memo) : option Z :=
  match m with MSwap m => smDexTargetLimit m | _ => None end.
Definition GetAffiliateTHORName (m : Memo) : option THORName :=
  match m with
  | MSwap m => smAffiliateTHORName m
  | MDecaPoolWithdraw _ _ _ _ tn => tn
  | _ => None
  end.
Definition GetRefundAddress (m : Memo) : Address :=
  match m with MSwap m => smRefundAddress m | _ => NoAddress end.
Definition GetAffiliates (m : Memo) : list string :=
  match m with MSwap m => smAffiliates m | _ => [] end.
Definition GetAffiliatesBasisPoints (m : Memo) : list Z :=
  match m with MSwap m => smAffiliatesBasisPoints m | _ => [] end.
Definition Memo_GetAddress (m : Memo) : Address :=
  match m with
  | MTradeAccountWithdrawal _ a _ | MSecuredAssetWithdraw _ a _ | MTCYClaim _ a => a
  | MManageTHORName m => mnAddress m
  | _ => NoAddress
  end.
