(* ===== verification/SwapSort.v ===== *)
(** The order of the swaps of a block, [x/thorchain/manager_swap_queue.go]: the
    ranking by liquidity fee and slip, and the bookkeeping of trading pairs.

    The main results: sorting returns the same items, in the order of the sum
    of their two ranks and then of their hashes; an item with both a higher fee
    and a higher slip than another is served first. *)
From S2P Require Import Prelude SdkMath GoStr Keys Shares Chains Assets Coins Txs Streaming.
Local Open Scope string_scope.
Local Open Scope Z_scope.

Record swapItem := mkSwapItem {
  siIndex : Z;
  siMsg : MsgSwap;
  siFee : Z;
  siSlip : Z
}.

Definition GetHash (item : swapItem) : TxID := txID (mTx (siMsg item)).
Definition HasItem (items : list swapItem) (hash : TxID) : bool :=
  existsb (fun item => TxID_Equals (GetHash item) hash) items.

(** [itemKey]: a Go struct used as a map key, compared field by field. *)
Definition itemKey (item : swapItem) : TxID * Z := (GetHash item, siIndex item).

Record score := mkScore { scMsg : MsgSwap; scScore : Z; scIndex : Z }.
Definition scoreKey (s : score) : TxID * Z := (txID (mTx (scMsg s)), scIndex s).
Definition add_score (s : score) (n : Z) : score := mkScore (scMsg s) (scScore s + n) (scIndex s).

Definition by_fee (x y : swapItem) : bool := siFee y <? siFee x.
Definition by_slip (x y : swapItem) : bool := siSlip y <? siSlip x.
Definition by_hash (x y : score) : bool := str_ltb (txID (mTx (scMsg x))) (txID (mTx (scMsg y))).
Definition by_score (x y : score) : bool := scScore x <? scScore y.

(** [scoreIdx]: a later item with the same key overwrites an earlier one. *)
Definition score_index (byFee : list swapItem) : gmap (TxID * Z) nat :=
  foldl (fun m e => <[itemKey (snd e) := fst e]> m) ∅ (imap pair byFee).

(** The loop that adds the position in [bySlip]. *)
Definition add_slip_scores (scoreIdx : gmap (TxID * Z) nat) (scores : list score)
    (bySlip : list (nat * swapItem)) : list score :=
  foldl (fun scores e =>
    match scoreIdx !! itemKey (snd e) with
    | Some j => alter (fun s => add_score s (Z.of_nat (fst e))) j scores
    | None => scores
    end) scores bySlip.

Definition item_map (items : list swapItem) : gmap (TxID * Z) swapItem :=
  foldl (fun m item => <[itemKey item := item]> m) ∅ items.

(** [sorted[i] = itemMap[key]]; every score comes from an item, so the lookup
    succeeds. *)
Definition Sort (items : list swapItem) : list swapItem :=
  let byFee := stable_sort by_fee items in
  let bySlip := stable_sort by_slip items in
  let scores := imap (fun i item => mkScore (siMsg item) (Z.of_nat i) (siIndex item)) byFee in
  let scores := add_slip_scores (score_index byFee) scores (imap pair bySlip) in
  let scores := stable_sort by_score (stable_sort by_hash scores) in
  omap (fun s => item_map items !! scoreKey s) scores.

(** [getTodoNum] of both queue managers: half of the queue, at least
    [minSwapsPerBlock] and at most [maxSwapsPerBlock]. *)
Definition getTodoNum (queueLen minSwapsPerBlock maxSwapsPerBlock : Z) : Z :=
  let todo := Z.quot queueLen 2 in
  let todo :=
    if todo <? minSwapsPerBlock then
      if queueLen <? minSwapsPerBlock then queueLen else minSwapsPerBlock
    else todo in
  if maxSwapsPerBlock <? todo then maxSwapsPerBlock else todo.

(** ** Trading pairs *)

Record tradePair := mkTradePair { tpSource : Asset; tpTarget : Asset }.

Definition genTradePair (s t : Asset) : tradePair := mkTradePair s t.
Definition tradePair_String (pair : tradePair) : string :=
  Asset_String (tpSource pair) ++ ">" ++ Asset_String (tpTarget pair).
Definition HasRune (pair : tradePair) : bool := IsDeca (tpSource pair) || IsDeca (tpTarget pair).
Definition tradePair_Equals (pair p : tradePair) : bool :=
  Asset_Equals (tpSource pair) (tpSource p) && Asset_Equals (tpTarget pair) (tpTarget p).

Definition tradePairs_Append (p : list tradePair) (pair : tradePair) : list tradePair :=
  if existsb (fun existing => tradePair_Equals existing pair) p then p else (p ++ [pair])%list.

(** [comp]: the pairs a finished [trade] may have moved the price of. *)
Definition counter_pair (trade pair : tradePair) : bool :=
  if IsDeca (tpSource trade) then Asset_Equals (tpSource pair) (tpTarget trade)
  else if IsDeca (tpTarget trade) then Asset_Equals (tpTarget pair) (tpSource trade)
  else Asset_Equals (tpSource pair) (tpTarget trade) ||
       Asset_Equals (tpTarget pair) (tpSource trade).

Definition findMatchingTrades (p : list tradePair) (trade : tradePair) (pairs : list tradePair) :
    list tradePair :=
  foldl (fun p pair => if counter_pair trade pair then tradePairs_Append p pair else p) p pairs.

(** ** Sorting *)

#[export] Instance by_fee_weak : StrictWeak by_fee.
Proof. split; unfold by_fee; intros; lia. Qed.
#[export] Instance by_slip_weak : StrictWeak by_slip.
Proof. split; unfold by_slip; intros; lia. Qed.

Lemma insert_by_map {A C} (f : A -> C) (less : C -> C -> bool) x l :
  insert_by less (f x) (map f l) = map f (insert_by (fun a b => less (f a) (f b)) x l).
Proof. induction l as [|y l IH]; simpl; [done|]. case_match; simpl; by rewrite ?IH. Qed.

Lemma stable_sort_map {A C} (f : A -> C) (less : C -> C -> bool) l :
  stable_sort less (map f l) = map f (stable_sort (fun a b => less (f a) (f b)) l).
Proof.
  unfold stable_sort. change (@nil C) with (map f []). generalize (@nil A) as acc.
  induction l as [|x l IH]; intros acc; simpl; [done|]. by rewrite insert_by_map, IH.
Qed.

(** The position of an item in a list. *)
Definition position (l : list swapItem) (item : swapItem) : Z :=
  match list_find (fun x => itemKey x = itemKey item) l with
  | Some (i, _) => Z.of_nat i
  | None => 0
  end.

Section sort.
Context (items : list swapItem).
Hypothesis distinct : NoDup (map itemKey items).

Lemma perm_distinct l : l ≡ₚ items -> NoDup (map itemKey l).
Proof. intros Hp. by rewrite Hp. Qed.

Lemma key_inj l x y : l ≡ₚ items -> x ∈ l -> y ∈ l -> itemKey x = itemKey y -> x = y.
Proof.
  intros Hp Hx Hy He. apply list_elem_of_lookup in Hx as [i Hi], Hy as [j Hj].
  assert (i = j) as ->; [|congruence].
  pose proof (perm_distinct l Hp) as Hnd.
  eapply (NoDup_lookup _ _ _ (itemKey x) Hnd); rewrite list_lookup_fmap.
  - by rewrite Hi.
  - by rewrite Hj, He.
Qed.

Lemma position_lookup l i x : l ≡ₚ items -> l !! i = Some x -> position l x = Z.of_nat i.
Proof.
  intros Hp Hi. unfold position.
  assert (list_find (fun y => itemKey y = itemKey x) l = Some (i, x)) as ->; [|done].
  apply list_find_Some. split; [done|]. split; [done|]. intros j y Hj Hji He.
  assert (y = x) as -> by (eapply key_inj; eauto using list_elem_of_lookup_2).
  pose proof (perm_distinct l Hp) as Hnd. assert (j = i); [|lia].
  eapply (NoDup_lookup _ _ _ (itemKey x) Hnd); rewrite list_lookup_fmap; [by rewrite Hj|by rewrite Hi].
Qed.

(** The rank of an item: its places by fee and by slip. *)
Definition rank_sum (item : swapItem) : Z :=
  position (stable_sort by_fee items) item + position (stable_sort by_slip items) item.

Lemma foldl_insert_lookup {E A} (f : E -> TxID * Z) (g : E -> A) (L : list E) (m : gmap (TxID * Z) A) e :
  NoDup (map f L) -> e ∈ L -> foldl (fun m e => <[f e := g e]> m) m L !! f e = Some (g e).
Proof.
  assert (forall (L : list E) (m : gmap (TxID * Z) A) k, k ∉ map f L -> foldl (fun m e => <[f e := g e]> m) m L !! k = m !! k) as Hout.
  { clear. intros L. induction L as [|e L IH]; intros m k Hk; simpl; [done|].
    simpl in Hk. apply not_elem_of_cons in Hk as [Hne Hk]. rewrite IH by done.
    by rewrite lookup_insert_ne. }
  revert m. induction L as [|e' L IH]; intros m Hnd He; [by apply not_elem_of_nil in He|].
  simpl in *. apply NoDup_cons in Hnd as [Hn Hnd]. apply elem_of_cons in He as [->|He]; [|by apply IH].
  rewrite Hout by done. apply lookup_insert_eq.
Qed.

Lemma imap_pair_keys (l : list swapItem) :
  map (fun e => itemKey (snd e)) (imap pair l) = map itemKey l.
Proof.
  apply list_eq. intros i. rewrite !list_lookup_fmap, list_lookup_imap. by destruct (l !! i).
Qed.

Lemma score_index_lookup l i x : l ≡ₚ items -> l !! i = Some x ->
  score_index l !! itemKey x = Some i.
Proof.
  intros Hp Hi. unfold score_index.
  change (itemKey x) with ((fun e : nat * swapItem => itemKey (snd e)) (i, x)).
  change (Some i) with (Some (fst (i, x))).
  apply (foldl_insert_lookup (fun e : nat * swapItem => itemKey (snd e)) fst).
  - rewrite imap_pair_keys. by apply perm_distinct.
  - apply list_elem_of_lookup. exists i. by rewrite list_lookup_imap, Hi.
Qed.

Lemma add_slip_lookup idx L : forall scores j,
  add_slip_scores idx scores L !! j =
    (fun s => add_score s (sumZ (map (fun e : nat * swapItem =>
       if decide (idx !! itemKey (snd e) = Some j) then Z.of_nat (fst e) else 0) L)))
    <$> scores !! j.
Proof.
  induction L as [|e L IH]; intros scores j; unfold add_slip_scores in *; simpl.
  - destruct (scores !! j) as [s|]; simpl; [|done]. unfold add_score. destruct s; simpl.
    by rewrite Z.add_0_r.
  - rewrite IH. destruct (idx !! itemKey (snd e)) as [i|] eqn:E.
    + destruct (decide (i = j)) as [->|Hne].
      * rewrite list_lookup_alter_eq, decide_True by done.
        destruct (scores !! j); simpl; [|done]. unfold add_score. simpl. do 2 f_equal. lia.
      * rewrite list_lookup_alter_ne, decide_False by (done || congruence).
        destruct (scores !! j); simpl; [|done]. by rewrite Z.add_0_l.
    + rewrite decide_False by done. destruct (scores !! j); simpl; [|done]. by rewrite Z.add_0_l.
Qed.

Lemma sumZ_single {E} (g : E -> Z) L : forall i e, L !! i = Some e ->
  (forall i' e', L !! i' = Some e' -> i' <> i -> g e' = 0) -> sumZ (map g L) = g e.
Proof.
  induction L as [|x L IH]; intros i e Hi H0; [done|]. destruct i as [|i]; simpl in *.
  - injection Hi as ->. assert (sumZ (map g L) = 0) as ->; [|lia].
    assert (forall i' e', L !! i' = Some e' -> g e' = 0) as Hz.
    { intros i' e' Hl. by apply (H0 (S i') e'). }
    clear -Hz. induction L as [|y L IH]; simpl; [done|].
    rewrite (Hz 0%nat y) by done. rewrite IH; [done|]. intros i' e'. apply (Hz (S i') e').
  - rewrite (IH i e Hi); [rewrite (H0 0%nat x); [lia|done|done]|].
    intros i' e' Hl Hne. apply (H0 (S i') e' Hl). lia.
Qed.

(** The scores after both loops. *)
Definition scored (x : swapItem) : score := mkScore (siMsg x) (rank_sum x) (siIndex x).

Lemma scores_spec :
  let byFee := stable_sort by_fee items in
  add_slip_scores (score_index byFee)
    (imap (fun i item => mkScore (siMsg item) (Z.of_nat i) (siIndex item)) byFee)
    (imap pair (stable_sort by_slip items)) = map scored byFee.
Proof.
  intros byFee. apply list_eq. intros j. rewrite add_slip_lookup, list_lookup_imap, list_lookup_fmap.
  pose proof (stable_sort_perm by_fee items : byFee ≡ₚ items) as Hpf. pose proof (stable_sort_perm by_slip items) as Hps.
  destruct (byFee !! j) as [x|] eqn:Hj; simpl; [|done]. f_equal. unfold scored, add_score, rank_sum.
  simpl. fold byFee. f_equal. rewrite (position_lookup byFee j x Hpf Hj). f_equal.
  assert (x ∈ stable_sort by_slip items) as Hx.
  { rewrite Hps, <- Hpf. by eapply list_elem_of_lookup_2. }
  apply list_elem_of_lookup in Hx as [i Hi]. rewrite (position_lookup _ i x Hps Hi).
  erewrite (sumZ_single _ _ i (i, x)).
  - simpl. by rewrite (score_index_lookup byFee j x Hpf Hj), decide_True.
  - by rewrite list_lookup_imap, Hi.
  - intros i' [n y]. rewrite list_lookup_imap. destruct (_ !! i') as [y'|] eqn:Hy; [|done].
    simpl. intros [= <- <-] Hne. apply decide_False. intros He.
    assert (y' ∈ byFee) as Hyf.
    { rewrite Hpf, <- Hps. by eapply list_elem_of_lookup_2. }
    apply list_elem_of_lookup in Hyf as [j' Hj'].
    rewrite (score_index_lookup byFee j' y' Hpf Hj') in He. injection He as ->.
    rewrite Hj in Hj'. injection Hj' as <-.
    assert (Z.of_nat i' = Z.of_nat i); [|lia].
    by rewrite <- (position_lookup _ i' x Hps Hy), (position_lookup _ i x Hps Hi).
Qed.

Lemma item_map_lookup x : x ∈ items -> item_map items !! scoreKey (scored x) = Some x.
Proof.
  intros Hx. change (scoreKey (scored x)) with (itemKey x). unfold item_map.
  by apply (foldl_insert_lookup itemKey (fun x => x)).
Qed.

Definition by_rank (x y : swapItem) : bool := rank_sum x <? rank_sum y.
Definition by_item_hash (x y : swapItem) : bool := str_ltb (GetHash x) (GetHash y).

#[export] Instance by_rank_weak : StrictWeak by_rank.
Proof. split; unfold by_rank; intros; lia. Qed.
#[export] Instance by_item_hash_weak : StrictWeak by_item_hash.
Proof.
  split; unfold by_item_hash; intros.
  - apply str_ltb_irrefl.
  - eauto using str_ltb_trans.
  - eauto using str_ltb_neg_trans.
Qed.

(** Sorting is three stable sorts of the items themselves. *)
Lemma Sort_items :
  Sort items = stable_sort by_rank (stable_sort by_item_hash (stable_sort by_fee items)).
Proof.
  unfold Sort. rewrite scores_spec.
  rewrite (stable_sort_map scored by_hash), (stable_sort_map scored by_score).
  change (fun a b => by_hash (scored a) (scored b)) with by_item_hash.
  change (fun a b => by_score (scored a) (scored b)) with by_rank.
  assert (forall l, (forall x, x ∈ l -> x ∈ items) ->
    omap (fun s => item_map items !! scoreKey s) (map scored l) = l) as Hid.
  { intros l. induction l as [|x l IH]; intros Hl; [done|]. simpl.
    rewrite item_map_lookup by (apply Hl; by left). f_equal. apply IH. intros y Hy. apply Hl.
    by right. }
  apply Hid. intros x. by rewrite !stable_sort_perm.
Qed.
End sort.

(** Two stable sorts in a row are one sort by the later key, then the earlier. *)
Definition lex {A} (less1 less2 : A -> A -> bool) (x y : A) : bool :=
  less2 x y || (negb (less2 y x) && less1 x y).

#[export] Instance lex_weak {A} (less1 less2 : A -> A -> bool) `{!StrictWeak less1, !StrictWeak less2} :
  StrictWeak (lex less1 less2).
Proof.
  split; unfold lex.
  - intros x. by rewrite (less_irrefl less2), (less_irrefl less1).
  - intros x y z. rewrite !orb_true_iff, !andb_true_iff, !negb_true_iff.
    intros [Hxy|[Hyx Hxy] ] [Hyz|[Hzy Hyz] ].
    + left. by eapply (less_trans less2).
    + left. destruct (less2 x z) eqn:E; [done|].
      by rewrite (less_neg_trans less2 x z y E Hzy) in Hxy.
    + left. destruct (less2 x z) eqn:E; [done|].
      by rewrite (less_neg_trans less2 y x z Hyx E) in Hyz.
    + right. split; [by eapply (less_neg_trans less2)|by eapply (less_trans less1)].
  - intros x y z. rewrite !orb_false_iff, !andb_false_iff, !negb_false_iff.
    intros [Hxy [Hyx|Hxy'] ] [Hyz [Hzy|Hyz'] ]; (split; [by eapply (less_neg_trans less2)|]).
    + left. by eapply (less_trans less2).
    + left. destruct (less2 z x) eqn:E; [done|].
      by rewrite (less_neg_trans less2 y z x Hyz E) in Hyx.
    + left. destruct (less2 z x) eqn:E; [done|].
      by rewrite (less_neg_trans less2 z x y E Hxy) in Hzy.
    + right. by eapply (less_neg_trans less1).
Qed.

Lemma insert_by_lex {A} (less1 less2 : A -> A -> bool) x l :
  Forall (fun y => less1 x y = false) l -> insert_by less2 x l = insert_by (lex less1 less2) x l.
Proof.
  induction 1 as [|y l Hy Hl IH]; simpl; [done|].
  assert (lex less1 less2 x y = less2 x y) as ->
    by (unfold lex; by rewrite Hy, andb_false_r, orb_false_r).
  by rewrite IH.
Qed.

Lemma stable_sort_lex {A} (less1 less2 : A -> A -> bool) l : sorted_by less1 l ->
  stable_sort less2 l = stable_sort (lex less1 less2) l.
Proof.
  intros Hs. unfold stable_sort.
  enough (forall acc, (forall x y, x ∈ l -> y ∈ acc -> less1 x y = false) ->
    foldl (fun acc x => insert_by less2 x acc) acc l =
    foldl (fun acc x => insert_by (lex less1 less2) x acc) acc l) as Hgen.
  { apply Hgen. intros x y _ Hy. by apply not_elem_of_nil in Hy. }
  induction l as [|x l IH]; intros acc Hacc; simpl; [done|]. destruct Hs as [Hx Hs].
  rewrite (insert_by_lex less1 less2).
  - apply IH; [done|]. intros y z Hy. rewrite insert_by_perm, elem_of_cons. intros [->|Hz].
    + rewrite Forall_forall in Hx. by apply Hx.
    + apply Hacc; [by right|done].
  - apply Forall_forall. intros y Hy. apply Hacc; [by left|done].
Qed.

Definition comes_before {A} (l : list A) (x y : A) : Prop :=
  exists i j, l !! i = Some x /\ l !! j = Some y /\ (i < j)%nat.

(** In a sorted list a strictly smaller element comes first. *)
Lemma sorted_before {A} (less : A -> A -> bool) `{!StrictWeak less} l x y :
  sorted_by less l -> x ∈ l -> y ∈ l -> less x y = true -> comes_before l x y.
Proof.
  intros Hs [i Hi]%list_elem_of_lookup [j Hj]%list_elem_of_lookup Hl. exists i, j.
  split_and!; [done..|]. destruct (decide (i < j)%nat) as [|Hn]; [done|]. exfalso.
  destruct (decide (i = j)) as [->|Hne].
  - rewrite Hi in Hj. injection Hj as ->. by rewrite (less_irrefl less) in Hl.
  - pose proof (sorted_by_lookup _ _ _ _ _ _ Hs Hj Hi) as Hx. rewrite Hx in Hl; [done|lia].
Qed.

(** The order of service, as one comparison: the sum of the ranks, then the
    hash, then the fee. *)
Definition served_before (items : list swapItem) : swapItem -> swapItem -> bool :=
  lex (lex by_fee by_item_hash) (by_rank items).

(** C23. Sorting the swaps of a block neither loses nor repeats one: the result
    is a permutation of the items, ordered by the sum of the rank by fee and
    the rank by slip, then by transaction hash, then by fee; and an item with a
    higher fee and a higher slip than another is always served before it. *)
Theorem Sort_serves_by_rank items : NoDup (map itemKey items) ->
  Sort items ≡ₚ items /\ sorted_by (served_before items) (Sort items) /\
  forall a b, a ∈ items -> b ∈ items -> siFee b < siFee a -> siSlip b < siSlip a ->
    comes_before (Sort items) a b.
Proof.
  intros Hnd. pose proof (stable_sort_perm by_fee items) as Hpf.
  pose proof (stable_sort_perm by_slip items) as Hps.
  assert (Sort items ≡ₚ items) as Hp by (rewrite Sort_items by done; by rewrite !stable_sort_perm).
  assert (sorted_by (served_before items) (Sort items)) as Hs.
  { rewrite Sort_items by done.
    rewrite (stable_sort_lex by_fee by_item_hash), (stable_sort_lex (lex by_fee by_item_hash) (by_rank items)).
    - apply stable_sort_sorted, _.
    - apply stable_sort_sorted, _.
    - apply stable_sort_sorted, _. }
  split; [done|]. split; [done|]. intros a b Ha Hb Hfee Hslip.
  apply (sorted_before (served_before items)); rewrite ?Hp; try done.
  unfold served_before, lex at 1. apply orb_true_iff. left. unfold by_rank, rank_sum.
  assert (forall less l, l ≡ₚ items -> StrictWeak less -> sorted_by less l -> less a b = true ->
    position l a < position l b) as Hpos.
  { intros less l Hpl Hw Hsl Hless.
    destruct (sorted_before less l a b) as (i & j & Hi & Hj & Hij); rewrite ?Hpl; try done.
    rewrite (position_lookup items Hnd l i a Hpl Hi), (position_lookup items Hnd l j b Hpl Hj). lia. }
  pose proof (Hpos by_fee _ Hpf _ (stable_sort_sorted by_fee items) ltac:(unfold by_fee; lia)).
  pose proof (Hpos by_slip _ Hps _ (stable_sort_sorted by_slip items) ltac:(unfold by_slip; lia)).
  lia.
Qed.

(** ** The number of swaps of a block, and the pairs to look at again *)

(** The number of swaps taken from a queue of [len] is between 0 and the
    length, never above the maximum, and (when the maximum allows) at least
    half of the queue and at least the minimum or the whole queue; a non-empty
    queue always progresses. *)
Theorem getTodoNum_bounds len lo hi : 0 <= len -> 0 <= lo -> 0 <= hi ->
  let n := getTodoNum len lo hi in
  0 <= n <= len /\ n <= hi /\
  (n < hi -> len / 2 <= n /\ Z.min len lo <= n) /\ (0 < len -> 0 < lo -> 0 < hi -> 0 < n).
Proof.
  intros Hl Hlo Hhi. unfold getTodoNum. rewrite quot_nonneg by lia.
  pose proof (Z.div_mod len 2). pose proof (Z.mod_pos_bound len 2).
  repeat case_match; lia.
Qed.

(** [q] is in the list, up to the equality of assets. *)
Definition pair_in (p : list tradePair) (q : tradePair) : bool :=
  existsb (fun x => tradePair_Equals x q) p.

Definition pairs_distinct (p : list tradePair) : Prop :=
  forall i j x y, p !! i = Some x -> p !! j = Some y -> tradePair_Equals x y = true -> i = j.

Lemma tradePair_Equals_sym x y : tradePair_Equals x y = tradePair_Equals y x.
Proof. unfold tradePair_Equals. by rewrite (Asset_Equals_sym (tpSource x)), (Asset_Equals_sym (tpTarget x)). Qed.

Lemma tradePair_Equals_trans x y q : tradePair_Equals x y = true ->
  tradePair_Equals x q = tradePair_Equals y q.
Proof.
  unfold tradePair_Equals. intros [Hs Ht]%andb_true_iff.
  apply Asset_Equals_spec in Hs, Ht. by rewrite Hs, Ht.
Qed.

Lemma Append_in p x q : pair_in (tradePairs_Append p x) q = pair_in p q || tradePair_Equals x q.
Proof.
  unfold tradePairs_Append. destruct (existsb _ p) eqn:E.
  - destruct (tradePair_Equals x q) eqn:Ex; [|by rewrite orb_false_r]. rewrite orb_true_r.
    unfold pair_in. apply existsb_exists in E as (y & Hy & He). apply existsb_exists.
    exists y. split; [done|]. by rewrite (tradePair_Equals_trans y x).
  - unfold pair_in. rewrite existsb_app. simpl. by rewrite orb_false_r.
Qed.

Lemma Append_distinct p x : pairs_distinct p -> pairs_distinct (tradePairs_Append p x).
Proof.
  unfold tradePairs_Append. intros Hd. destruct (existsb _ p) eqn:E; [done|].
  assert (forall i y, p !! i = Some y -> tradePair_Equals y x = false) as Hx.
  { intros i y Hy. apply not_true_iff_false. intros He. apply not_true_iff_false in E. apply E.
    apply existsb_exists. exists y. split; [|done].
    by apply list_elem_of_In, (list_elem_of_lookup_2 _ i). }
  intros i j y z. rewrite !lookup_snoc_Some. intros [ [Hi Hy]|[-> ->] ] [ [Hj Hz]|[-> ->] ] He.
  - eauto.
  - by rewrite (Hx i y Hy) in He.
  - by rewrite tradePair_Equals_sym, (Hx j z Hz) in He.
  - done.
Qed.

Lemma findMatching_in p trade pairs q : pair_in (findMatchingTrades p trade pairs) q =
  pair_in p q || existsb (fun x => counter_pair trade x && tradePair_Equals x q) pairs.
Proof.
  unfold findMatchingTrades. revert p. induction pairs as [|x pairs IH]; intros p; simpl.
  - by rewrite orb_false_r.
  - rewrite IH. destruct (counter_pair trade x); simpl; [|done]. by rewrite Append_in, orb_assoc.
Qed.

Lemma findMatching_distinct p trade pairs : pairs_distinct p ->
  pairs_distinct (findMatchingTrades p trade pairs).
Proof.
  unfold findMatchingTrades. revert p. induction pairs as [|x pairs IH]; intros p Hd; simpl; [done|].
  apply IH. case_match; [by apply Append_distinct|done].
Qed.

Lemma findMatching_Forall (P : tradePair -> Prop) p trade pairs : Forall P p -> Forall P pairs ->
  Forall P (findMatchingTrades p trade pairs).
Proof.
  unfold findMatchingTrades. intros Hp Hps. revert p Hp.
  induction Hps as [|x pairs Hx Hps IH]; intros p Hp; simpl; [done|].
  apply IH. case_match; [|done]. unfold tradePairs_Append. case_match; [done|].
  apply Forall_app. by split; [|constructor].
Qed.

(** After a swap of [trade], the list of pairs to look at again holds what
    it held before and exactly the pairs that trade against [trade], each pair
    once. *)
Theorem findMatchingTrades_adds_counter_pairs p trade pairs :
  let r := findMatchingTrades p trade pairs in
  (forall q, pair_in r q =
     pair_in p q || existsb (fun x => counter_pair trade x && tradePair_Equals x q) pairs) /\
  (pairs_distinct p -> pairs_distinct r).
Proof. split; [intros q; apply findMatching_in|apply findMatching_distinct]. Qed.

(** ** The properties at concrete inputs *)

Definition demo_sort_item (hash : string) (fee slip : Z) : swapItem :=
  mkSwapItem 0 (mkMsgSwap (mkTx hash BTCChain "a" "b" [] [] "") ETHAsset "b" 0 "" 0 "" "" "" None
    SwapType_market 1 0 0 (mkSwapState 0 1 0 0 0 0 0 0 0 [] []) SwapVersion_v2 0) fee slip.
Definition demo_sort_items : list swapItem :=
  [demo_sort_item "cc" 1 5; demo_sort_item "bb" 7 9; demo_sort_item "aa" 5 1].

Example demo_sorted : map GetHash (Sort demo_sort_items) = ["bb"; "aa"; "cc"].
Proof. vm_compute. reflexivity. Qed.

Lemma Sort_serves_by_rank_witness :
  Sort demo_sort_items ≡ₚ demo_sort_items /\
  comes_before (Sort demo_sort_items) (demo_sort_item "bb" 7 9) (demo_sort_item "cc" 1 5).
Proof.
  destruct (Sort_serves_by_rank demo_sort_items) as (Hp & _ & Hb).
  - apply (bool_decide_unpack _). by vm_compute.
  - split; [exact Hp|]. apply Hb; [| |by vm_compute|by vm_compute].
    + right. left.
    + left.
Defined.

Lemma getTodoNum_bounds_witness :
  0 <= getTodoNum 7 10 100 <= 7 /\ getTodoNum 7 10 100 <= 100 /\
  (getTodoNum 7 10 100 < 100 -> 7 / 2 <= getTodoNum 7 10 100 /\ Z.min 7 10 <= getTodoNum 7 10 100) /\
  (0 < 7 -> 0 < 10 -> 0 < 100 -> 0 < getTodoNum 7 10 100).
Proof. apply (getTodoNum_bounds 7 10 100); lia. Defined.
