(* ===== verification/SwapCalc.v ===== *)
(** The constant-product formulas of a swap:
    [x/thorchain/swap_current.go], [CalcAssetEmission] to [GetSwapCalc]. *)
From S2P Require Import Prelude SdkMath GoStr Keys Shares Chains.
Local Open Scope Z_scope.

Section swap_calc.
Context {S : SdkMath}.

(** [x * X * Y / (x + X)^2] *)
Definition CalcAssetEmission (X x Y : Z) : outcome Z :=
  n ← uint_mul x X;
  numerator ← uint_mul n Y;
  d ← uint_add x X;
  denominator ← uint_mul d d;
  if denominator =? 0 then Ok 0 else uint_quo numerator denominator.

(** [x * Y / (x + X) - fee] *)
Definition CalcMaxAssetEmission (X x Y fee : Z) : outcome Z :=
  numerator ← uint_mul x Y;
  denominator ← uint_add x X;
  if denominator =? 0 then Ok 0
  else
    q ← uint_quo numerator denominator;
    SafeSub q fee.

(** [x^2 * Y / (x + X)^2] *)
Definition CalcLiquidityFee (X x Y : Z) : outcome Z :=
  n ← uint_mul x x;
  numerator ← uint_mul n Y;
  d ← uint_add x X;
  denominator ← uint_mul d d;
  if denominator =? 0 then Ok 0 else uint_quo numerator denominator.

(** [minSlip * (x * Y) / (x + X)] *)
Definition CalcMinLiquidityFee (X x Y minSlipBps : Z) : outcome Z :=
  p ← uint_mul x Y;
  numerator ← GetSafeShare minSlipBps MaxBasisPts p;
  denominator ← uint_add x X;
  if denominator =? 0 then Ok 0 else uint_quo numerator denominator.

(** [x / (x + X)] in basis points, in decimals. *)
Definition CalcSwapSlip (Xi xi : Z) : outcome Z :=
  let xD := dec_of_big xi in
  let XD := dec_of_big Xi in
  let dec10k := dec_of_big 10000 in
  denD ← dec_add xD XD;
  if denD =? 0 then Ok 0
  else
    swapSlipD ← dec_quo xD denD;
    swapSlip ← dec_mul swapSlipD dec10k;
    r ← dec_round_int64 swapSlip;
    Ok (u64 r).

(** Emission, liquidity fee and slip. *)
Definition GetSwapCalc (X x Y slipBps minSlipBps : Z) : outcome (Z * Z * Z) :=
  if slipBps <? minSlipBps then
    liquidityFee ← CalcMinLiquidityFee X x Y minSlipBps;
    emitAssets ← CalcMaxAssetEmission X x Y liquidityFee;
    Ok (emitAssets, liquidityFee, minSlipBps)
  else
    liquidityFee ← CalcLiquidityFee X x Y;
    emitAssets ← CalcAssetEmission X x Y;
    Ok (emitAssets, liquidityFee, slipBps).
End swap_calc.

(** ** Lemmas *)

(** The whole output of a constant-product swap, before the fee. *)
Definition gross (X x Y : Z) : Z := x * Y / (x + X).

Lemma gross_bounds X x Y : 0 <= X -> 0 <= x -> 0 < x + X -> 0 <= Y ->
  0 <= gross X x Y /\ (0 < X -> 0 < Y -> gross X x Y < Y) /\
  X * Y <= (X + x) * (Y - gross X x Y).
Proof.
  intros HX Hx Hd HY. unfold gross.
  pose proof (div_bounds (x * Y) (x + X) Hd) as Hb.
  set (g := x * Y / (x + X)) in *.
  assert (0 <= g) by (apply Z.div_pos; nia). clearbody g.
  split; [done|]. split; [intros; nia|nia].
Qed.

(** Splitting it at [X : x] loses at most one unit. *)
Lemma split_gross X x Y : 0 <= X -> 0 <= x -> 0 < x + X -> 0 <= Y ->
  let d := (x + X) * (x + X) in
  x * X * Y / d + x * x * Y / d <= gross X x Y <= x * X * Y / d + x * x * Y / d + 1.
Proof.
  intros HX Hx Hd HY d. unfold gross.
  assert (Hdd : 0 < d) by (unfold d; nia).
  pose proof (div_bounds (x * X * Y) d Hdd) as H1.
  pose proof (div_bounds (x * x * Y) d Hdd) as H2.
  assert (Hsum : x * X * Y + x * x * Y = x * Y * (x + X)) by ring.
  set (e := x * X * Y / d) in *. set (f := x * x * Y / d) in *. clearbody e f.
  split.
  - apply Z.div_le_lower_bound; [done|]. unfold d in *. nia.
  - assert (x * Y / (x + X) < e + f + 2); [|lia].
    apply Z.div_lt_upper_bound; [done|]. unfold d in *. nia.
Qed.

Section swap_lemmas.
Context {S : SdkMath} `{!SdkMathOk S}.

Lemma CalcAssetEmission_inv X x Y e : is_uint X -> is_uint x -> is_uint Y -> 0 < x + X ->
  CalcAssetEmission X x Y = Ok e -> e = x * X * Y / ((x + X) * (x + X)) /\ is_uint e.
Proof.
  intros HX Hx HY Hd H. unfold CalcAssetEmission in H. uint_inv. subst.
  destruct (Z.eqb_spec ((x + X) * (x + X)) 0); [nia|]. uint_inv. subst. done.
Qed.

Lemma CalcLiquidityFee_inv X x Y f : is_uint X -> is_uint x -> is_uint Y -> 0 < x + X ->
  CalcLiquidityFee X x Y = Ok f -> f = x * x * Y / ((x + X) * (x + X)) /\ is_uint f.
Proof.
  intros HX Hx HY Hd H. unfold CalcLiquidityFee in H. uint_inv. subst.
  destruct (Z.eqb_spec ((x + X) * (x + X)) 0); [nia|]. uint_inv. subst. done.
Qed.

Lemma CalcMinLiquidityFee_inv X x Y m f : is_uint X -> is_uint x -> is_uint Y -> is_uint m ->
  0 < x + X -> CalcMinLiquidityFee X x Y m = Ok f ->
  f = share (Z.min m MaxBasisPts) MaxBasisPts (x * Y) / (x + X) /\ is_uint f /\
  f <= gross X x Y.
Proof.
  intros HX Hx HY Hm Hd H. unfold CalcMinLiquidityFee in H.
  assert (is_uint MaxBasisPts) by (vm_compute; split; congruence).
  math_inv. subst. destruct (Z.eqb_spec (x + X) 0); [lia|]. uint_inv. subst.
  split; [done|]. split; [done|]. unfold gross, is_uint in *. apply Z.div_le_mono; [lia|].
  apply share_le; [|lia]. unfold MaxBasisPts. lia.
Qed.

Lemma CalcMaxAssetEmission_inv X x Y f e : is_uint X -> is_uint x -> is_uint Y -> is_uint f ->
  0 < x + X -> CalcMaxAssetEmission X x Y f = Ok e -> e = Z.max 0 (gross X x Y - f) /\ is_uint e.
Proof.
  intros HX Hx HY Hf Hd H. unfold CalcMaxAssetEmission in H. uint_inv. subst.
  destruct (Z.eqb_spec (x + X) 0); [lia|]. math_inv. subst. done.
Qed.

(** Emission and fee together, on both branches. *)
Lemma GetSwapCalc_inv X x Y slip m e f s : is_uint X -> is_uint x -> is_uint Y -> is_uint m ->
  0 < x + X -> GetSwapCalc X x Y slip m = Ok (e, f, s) ->
  is_uint e /\ is_uint f /\ s = Z.max slip m /\
  e + f <= gross X x Y <= e + f + 1 /\
  (slip < m -> e + f = gross X x Y).
Proof.
  intros HX Hx HY Hm Hd H. unfold GetSwapCalc in H. case_if_in H; z_bool; ok_inv.
  - match goal with Hf : CalcMinLiquidityFee _ _ _ _ = Ok _ |- _ =>
      apply CalcMinLiquidityFee_inv in Hf as (_ & Hfu & Hfl); [|done..] end.
    match goal with He : CalcMaxAssetEmission _ _ _ _ = Ok _ |- _ =>
      apply CalcMaxAssetEmission_inv in He as [-> Heu]; [|done..] end.
    repeat split; try done; try lia; apply Heu || apply Hfu.
  - match goal with Hf : CalcLiquidityFee _ _ _ = Ok _ |- _ =>
      apply CalcLiquidityFee_inv in Hf as [-> Hfu]; [|done..] end.
    match goal with He : CalcAssetEmission _ _ _ = Ok _ |- _ =>
      apply CalcAssetEmission_inv in He as [-> Heu]; [|done..] end.
    pose proof (split_gross X x Y ltac:(apply HX) ltac:(apply Hx) Hd ltac:(apply HY)) as Hs.
    cbv zeta in Hs. split; [done|]. split; [done|]. split; [lia|]. split; [lia|lia].
Qed.
End swap_lemmas.

(** Depths below [2^84] keep every intermediate product within 256 bits. *)
Record in_range (X x Y : Z) : Prop := {
  rg_X : is_uint X; rg_x : is_uint x; rg_Y : is_uint Y; rg_sum : is_uint (x + X);
  rg_xX : is_uint (x * X); rg_xx : is_uint (x * x); rg_xY : is_uint (x * Y);
  rg_sq : is_uint ((x + X) * (x + X));
  rg_xXY : is_uint (x * X * Y); rg_xxY : is_uint (x * x * Y)
}.

Lemma small_product a b n m : 0 <= a < 2 ^ n -> 0 <= b < 2 ^ m -> 0 <= n -> 0 <= m ->
  0 <= a * b < 2 ^ (n + m).
Proof. intros. rewrite Z.pow_add_r by done. nia. Qed.

Lemma small_uint z n : 0 <= z < 2 ^ n -> n <= 256 -> is_uint z.
Proof.
  intros Hz Hn. unfold is_uint, uint_lim.
  pose proof (Z.pow_le_mono_r 2 n 256 ltac:(lia) Hn). lia.
Qed.

Lemma in_range_small X x Y : 0 <= X < 2 ^ 84 -> 0 <= x < 2 ^ 84 -> 0 <= Y < 2 ^ 84 ->
  in_range X x Y.
Proof.
  intros HX Hx HY.
  pose proof (small_product x X 84 84 Hx HX ltac:(lia) ltac:(lia)) as HxX.
  pose proof (small_product x x 84 84 Hx Hx ltac:(lia) ltac:(lia)) as Hxx.
  pose proof (small_product x Y 84 84 Hx HY ltac:(lia) ltac:(lia)) as HxY.
  assert (Hs : 0 <= x + X < 2 ^ 85) by lia.
  pose proof (small_product _ _ 85 85 Hs Hs ltac:(lia) ltac:(lia)) as Hsq.
  pose proof (small_product _ _ (84 + 84) 84 HxX HY ltac:(lia) ltac:(lia)).
  pose proof (small_product _ _ (84 + 84) 84 Hxx HY ltac:(lia) ltac:(lia)).
  split; eapply small_uint; try eassumption; discriminate.
Qed.

Lemma GetSwapCalc_total {S : SdkMath} `{!SdkMathOk S} X x Y slip minSlip :
  in_range X x Y -> is_uint minSlip ->
  exists e f s, GetSwapCalc X x Y slip minSlip = Ok (e, f, s).
Proof.
  intros [HX Hx HY Hs HxX Hxx HxY Hsq HxXY HxxY] Hm.
  assert (HM : is_uint MaxBasisPts) by (vm_compute; split; congruence).
  pose proof (safe_share_uint minSlip MaxBasisPts (x * Y) Hm HM HxY) as Hsh.
  unfold GetSwapCalc, CalcMinLiquidityFee, CalcMaxAssetEmission, CalcLiquidityFee,
    CalcAssetEmission.
  rewrite (uint_mul_Ok x X), (uint_mul_Ok x Y), (uint_mul_Ok x x), (uint_add_Ok x X) by done.
  simpl. rewrite (uint_mul_Ok (x + X) (x + X)), (uint_mul_Ok (x * X) Y), (uint_mul_Ok (x * x) Y)
    by done.
  simpl. rewrite GetSafeShare_Ok by done. simpl.
  assert (Hq : forall n d, is_uint n -> is_uint d -> exists q,
    (if d =? 0 then Ok 0 else uint_quo n d) = Ok q /\ is_uint q).
  { intros n d Hn Hd. destruct (Z.eqb_spec d 0); [exists 0; auto with go|].
    rewrite uint_quo_Ok by done. eexists. split; [done|]. apply div_uint; [done|].
    unfold is_uint in Hd. lia. }
  destruct (slip <? minSlip).
  - destruct (Hq _ _ Hsh Hs) as (f & -> & Hf). simpl.
    destruct (Z.eqb_spec (x + X) 0); [simpl; eauto|].
    rewrite uint_quo_Ok by done. simpl. rewrite SafeSub_Ok; [simpl; eauto| |done].
    apply div_uint; [done|]. unfold is_uint in Hs. lia.
  - destruct (Hq _ _ HxxY Hsq) as (f & -> & _). simpl.
    destruct (Hq _ _ HxXY Hsq) as (e & -> & _). simpl. eauto.
Qed.

(** ** Properties *)

(** C29. A swap of [x] into a pool of depths [X] and [Y] never panics on depths
    below [2^84]; emission and fee together are less than [Y], never lower the
    product of the depths, and are within two units of [x * Y / (x + X)]; the
    slip charged is the larger of the pool's and the configured minimum. *)
Theorem GetSwapCalc_constant_product {S : SdkMath} `{!SdkMathOk S} X x Y slip minSlip :
  0 < X < 2 ^ 84 -> 0 <= x < 2 ^ 84 -> 0 < Y < 2 ^ 84 -> is_uint minSlip ->
  exists e f s, GetSwapCalc X x Y slip minSlip = Ok (e, f, s) /\
    0 <= e /\ 0 <= f /\ e + f < Y /\
    X * Y <= (X + x) * (Y - (e + f)) /\
    (e + f) * (x + X) <= x * Y < (e + f + 2) * (x + X) /\
    s = Z.max slip minSlip.
Proof.
  intros HX Hx HY Hm.
  pose proof (in_range_small X x Y ltac:(lia) Hx ltac:(lia)) as Hrange.
  pose proof (GetSwapCalc_total X x Y slip minSlip Hrange Hm) as Hok.
  destruct Hrange as [HXu Hxu HYu _ _ _ _ _ _ _].
  destruct Hok as (e & f & s & Hok). exists e, f, s. split; [done|].
  destruct (GetSwapCalc_inv X x Y slip minSlip e f s HXu Hxu HYu Hm ltac:(lia) Hok)
    as ([He _] & [Hf _] & -> & Hg & _).
  pose proof (gross_bounds X x Y ltac:(lia) ltac:(lia) ltac:(lia) ltac:(lia)) as (_ & Hlt & Hk).
  pose proof (div_bounds (x * Y) (x + X) ltac:(lia)) as Hb.
  change (x * Y / (x + X)) with (gross X x Y) in Hb. set (g := gross X x Y) in *. clearbody g.
  split; [done|]. split; [done|]. split; [lia|]. split; [nia|]. split; [|done]. nia.
Qed.

(** The slip of a swap is [x / (x + X)] in basis points, to the nearest one:
    at most 10000, and off by half a basis point plus the rounding of two
    18-digit decimals. *)
Theorem CalcSwapSlip_near {S : SdkMath} `{!SdkMathOk S} X x :
  0 <= X -> 0 <= x -> 0 < x + X < uint_lim ->
  exists r, CalcSwapSlip X x = Ok r /\ 0 <= r <= 10000 /\
    2 * dec_one * Z.abs (r * (x + X) - 10000 * x) <= (x + X) * (dec_one + 20002).
Proof.
  intros HX Hx Hd. unfold CalcSwapSlip. rewrite !dec_of_big_ok.
  assert (H1 : dec_one = 10 ^ 18) by done. set (d := dec_one) in *. clearbody d.
  assert (Hd1 : 0 < d) by lia.
  rewrite dec_add_ok by (change (10 ^ 18) with dec_one in H1; subst d; nia). simpl.
  destruct (Z.eqb_spec (x * d + X * d) 0); [nia|].
  destruct (dec_quo_ok (x * d) (x * d + X * d)) as (q & -> & Hq0 & Hq);
    [nia|nia|unfold uint_lim; nia|]. simpl.
  change dec_one with (10 ^ 18) in *. rewrite <- H1 in *.
  replace (x * d + X * d) with ((x + X) * d) in * by ring.
  set (w := x + X) in *.
  assert (Hq' : Z.abs (q * w - x * d) <= w).
  { assert (Z.abs ((q * w - x * d) * d) <= w * d); [|nia].
    replace ((q * w - x * d) * d) with (q * (w * d) - x * d * d) by ring. lia. }
  assert (Hqle : q <= d + 1) by nia.
  destruct (dec_mul_ok q (10000 * d)) as (s & -> & Hs0 & Hs); [lia|nia| |].
  { change dec_one with (10 ^ 18). rewrite <- H1. unfold uint_lim. nia. }
  simpl. change dec_one with (10 ^ 18) in Hs. rewrite <- H1 in Hs.
  assert (Hs' : Z.abs (s - 10000 * q) <= 1) by nia.
  destruct (dec_round_int64_ok s) as (r & -> & Hr0 & Hr); [lia| |].
  { change dec_one with (10 ^ 18). rewrite <- H1. lia. }
  simpl. change dec_one with (10 ^ 18) in Hr. rewrite <- H1 in Hr.
  assert (Hrle : r <= 10000) by nia.
  exists r. rewrite u64_id by (unfold is_u64; lia). split; [done|]. split; [lia|].
  assert (Z.abs ((r * d - s) * w) * 2 <= d * w) by nia.
  assert (Z.abs ((s - 10000 * q) * w) <= w) by nia.
  assert (Heq : d * (r * w - 10000 * x) =
    (r * d - s) * w + (s - 10000 * q) * w + 10000 * (q * w - x * d)) by ring.
  lia.
Qed.

(** ** The properties at concrete inputs *)

Lemma GetSwapCalc_constant_product_witness : exists e f s,
  GetSwapCalc (S := sdk_std) 100000 5000 80000 476 0 = Ok (e, f, s) /\
  0 <= e /\ 0 <= f /\ e + f < 80000 /\
  100000 * 80000 <= (100000 + 5000) * (80000 - (e + f)) /\
  (e + f) * (5000 + 100000) <= 5000 * 80000 < (e + f + 2) * (5000 + 100000) /\
  s = Z.max 476 0.
Proof.
  apply (GetSwapCalc_constant_product (S := sdk_std) 100000 5000 80000 476 0);
    [lia|lia|lia|unfold is_uint, uint_lim; lia].
Defined.

Lemma CalcSwapSlip_near_witness : exists r,
  CalcSwapSlip (S := sdk_std) 100000 5000 = Ok r /\ 0 <= r <= 10000 /\
  2 * dec_one * Z.abs (r * (5000 + 100000) - 10000 * 5000) <= (5000 + 100000) * (dec_one + 20002).
Proof. apply (CalcSwapSlip_near (S := sdk_std) 100000 5000); unfold uint_lim; lia. Defined.
