(* ===== verification/Vaults.v ===== *)
(** Vaults: [x/thorchain/types/type_vault.go] and [type_chain_contract.go], the
    coins the threshold-signature groups hold. *)
From S2P Require Import Prelude SdkMath GoStr Keys Shares Chains Assets Coins Txs.
Local Open Scope string_scope.
Local Open Scope Z_scope.

Abbreviation VaultType := Z (only parsing).
Definition VaultType_UnknownVault : VaultType := 0.
Definition VaultType_AsgardVault : VaultType := 1.

Abbreviation VaultStatus := Z (only parsing).
Definition VaultStatus_InactiveVault : VaultStatus := 0.
Definition VaultStatus_ActiveVault : VaultStatus := 1.
Definition VaultStatus_RetiringVault : VaultStatus := 2.
Definition VaultStatus_InitVault : VaultStatus := 3.

Record ChainContract := mkChainContract {
  ccChain : Chain;
  ccRouter : Address
}.

Definition NewChainContract (chain : Chain) (router : Address) : ChainContract :=
  mkChainContract chain router.
Definition ChainContract_IsEmpty (m : ChainContract) : bool :=
  Chain_IsEmpty (ccChain m) || Address_IsEmpty (ccRouter m).

Record Vault := mkVault {
  vBlockHeight : Z;
  vPubKey : PubKey;
  vCoins : Coins;
  vType : VaultType;
  vStatus : VaultStatus;
  vStatusSince : Z;
  vMembership : list string;
  vChains : list string;
  InboundTxCount : Z;
  OutboundTxCount : Z;
  PendingTxBlockHeights : list Z;
  Routers : list ChainContract;
  Frozen : list string;
  PubKeyEddsa : PubKey
}.

Definition with_vcoins (m : Vault) (cs : Coins) (chains : list string) : Vault :=
  mkVault (vBlockHeight m) (vPubKey m) cs (vType m) (vStatus m) (vStatusSince m) (vMembership m)
    chains (InboundTxCount m) (OutboundTxCount m) (PendingTxBlockHeights m) (Routers m)
    (Frozen m) (PubKeyEddsa m).
Definition with_vstatus (m : Vault) (s : VaultStatus) (height : Z) : Vault :=
  mkVault (vBlockHeight m) (vPubKey m) (vCoins m) (vType m) s height (vMembership m)
    (vChains m) (InboundTxCount m) (OutboundTxCount m) (PendingTxBlockHeights m) (Routers m)
    (Frozen m) (PubKeyEddsa m).
Definition with_pending_heights (m : Vault) (l : list Z) : Vault :=
  mkVault (vBlockHeight m) (vPubKey m) (vCoins m) (vType m) (vStatus m) (vStatusSince m)
    (vMembership m) (vChains m) (InboundTxCount m) (OutboundTxCount m) l (Routers m)
    (Frozen m) (PubKeyEddsa m).
Definition with_routers (m : Vault) (l : list ChainContract) : Vault :=
  mkVault (vBlockHeight m) (vPubKey m) (vCoins m) (vType m) (vStatus m) (vStatusSince m)
    (vMembership m) (vChains m) (InboundTxCount m) (OutboundTxCount m)
    (PendingTxBlockHeights m) l (Frozen m) (PubKeyEddsa m).

Definition NewVault (height : Z) (status : VaultStatus) (vtype : VaultType) (pk : PubKey)
    (chains : list string) (routers : list ChainContract) : Vault :=
  mkVault height pk [] vtype status height [] chains 0 0 [] routers [] "".
(** The zero value [Vault{}]. *)
Definition EmptyVault : Vault := mkVault 0 "" [] 0 0 0 [] [] 0 0 [] [] [] "".

Definition Vault_GetChains (m : Vault) : Chains := parse_chains (vChains m).

Definition IsType (m : Vault) (vtype : VaultType) : bool := vType m =? vtype.
Definition IsAsgard (m : Vault) : bool := IsType m VaultType_AsgardVault.
Definition Vault_IsActive (m : Vault) : bool := vStatus m =? VaultStatus_ActiveVault.
Definition IsRetiring (m : Vault) : bool := vStatus m =? VaultStatus_RetiringVault.
Definition Vault_IsEmpty (m : Vault) : bool := PubKey_IsEmpty (vPubKey m).
Definition Vault_Valid (m : Vault) : goerr :=
  if PubKey_IsEmpty (vPubKey m) then Some "pubkey cannot be empty" else None.
Definition Vault_UpdateStatus (m : Vault) (s : VaultStatus) (height : Z) : Vault :=
  with_vstatus m s height.

Definition HasFunds (m : Vault) : bool :=
  existsb (fun coin => negb (Coin_IsDeca coin) && negb (cAmount coin =? 0)) (vCoins m).
Definition HasFundsForChain (m : Vault) (chain : Chain) : bool :=
  existsb (fun coin => Chain_Equals (GetChain (cAsset coin)) chain && negb (cAmount coin =? 0))
    (vCoins m).
Definition CoinLength (m : Vault) : Z :=
  Z.of_nat (length (List.filter (fun coin => negb (cAmount coin =? 0)) (vCoins m))).
Definition CoinLengthByChain (m : Vault) (c : Chain) : Z :=
  Z.of_nat (length (List.filter (fun coin =>
    Chain_Equals (GetChain (cAsset coin)) c && negb (cAmount coin =? 0)) (vCoins m))).

Fixpoint find_coin (cs : Coins) (asset : Asset) : Coin :=
  match cs with
  | [] => NewCoin asset 0
  | coin :: cs' => if Asset_Equals (cAsset coin) asset then coin else find_coin cs' asset
  end.
Definition Vault_GetCoin (m : Vault) (asset : Asset) : Coin := find_coin (vCoins m) asset.
Definition HasAsset (m : Vault) (asset : Asset) : bool :=
  negb (cAmount (Vault_GetCoin m asset) =? 0).

Definition GetContract (v : Vault) (chain : Chain) : ChainContract :=
  default (mkChainContract "" "")
    (List.find (fun item => Chain_Equals (ccChain item) chain) (Routers v)).
Definition UpdateContract (v : Vault) (chainContract : ChainContract) : Vault :=
  let same item := Chain_Equals (ccChain item) (ccChain chainContract) in
  if existsb same (Routers v)
  then with_routers v (map (fun item => if same item then chainContract else item) (Routers v))
  else with_routers v (Routers v ++ [chainContract])%list.

(** [period] is [SigningTransactionPeriod]; the differences are [int64]. *)
Definition AppendPendingTxBlockHeights (m : Vault) (blockHeight period : Z) : Vault :=
  with_pending_heights m (blockHeight ::
    List.filter (fun item => i64 (blockHeight - item) <=? period) (PendingTxBlockHeights m)).
Fixpoint remove_first (h : Z) (l : list Z) : list Z :=
  match l with
  | [] => []
  | x :: l' => if x =? h then l' else x :: remove_first h l'
  end.
Definition RemovePendingTxBlockHeights (m : Vault) (blockHeight : Z) : Vault :=
  with_pending_heights m (remove_first blockHeight (PendingTxBlockHeights m)).
Definition LenPendingTxBlockHeights (m : Vault) (currentBlockHeight maxBlocks : Z) : Z :=
  Z.of_nat (length (List.filter (fun item => i64 (currentBlockHeight - item) <=? maxBlocks)
    (PendingTxBlockHeights m))).

Definition AlgoPubKey (m : Vault) (chain : Chain) : outcome PubKey :=
  match GetSigningAlgo chain with
  | SigningAlgoSecp256k1 => Ok (vPubKey m)
  | SigningAlgoEd25519 =>
      if PubKey_IsEmpty (PubKeyEddsa m) then Err "vault has no eddsa public key"
      else Ok (PubKeyEddsa m)
  end.

Section vaults.
Context {S : SdkMath} {K : SdkKeys}.

Definition Vault_GetMembership (m : Vault) : list PubKey := parse_pubkeys (vMembership m).
Definition Vault_Contains (m : Vault) (pubkey : PubKey) : bool :=
  PubKeys_Contains (Vault_GetMembership m) pubkey.
Definition MembershipEquals (m : Vault) (pks : list PubKey) : bool :=
  if negb (length (vMembership m) =? length pks)%nat then false
  else forallb (Vault_Contains m) pks.

Definition addFund (m : Vault) (coin : Coin) : outcome Vault :=
  coins ← add_coin (vCoins m) coin;
  let chain := GetChain (cAsset coin) in
  Ok (with_vcoins m coins
    (if existsb (fun ycoin => Asset_Equals (cAsset ycoin) (cAsset coin)) (vCoins m) then vChains m
     else if Chains_Has (Vault_GetChains m) chain then vChains m
     else (vChains m ++ [Chain_String chain])%list)).
Fixpoint AddFunds (m : Vault) (coins : Coins) : outcome Vault :=
  match coins with
  | [] => Ok m
  | coin :: coins' => m ← addFund m coin; AddFunds m coins'
  end.

Definition subFund (m : Vault) (coin : Coin) : outcome Vault :=
  coins ← sub_coin (vCoins m) coin; Ok (with_vcoins m coins (vChains m)).
Fixpoint SubFunds (m : Vault) (coins : Coins) : outcome Vault :=
  match coins with
  | [] => Ok m
  | coin :: coins' => m ← subFund m coin; SubFunds m coins'
  end.

(** Only an outbound of this vault that has not been sent yet is deducted. *)
Definition outstanding (m : Vault) (item : TxOutItem) : bool :=
  PubKey_Equals (VaultPubKey item) (vPubKey m) && TxID_IsEmpty (OutHash item).
(** An unset [gasCoin] is the empty coin, whose asset no vault coin has. *)
Definition outbound_gas (item : TxOutItem) : Coin :=
  if Gas_IsEmpty (MaxGas item) then NoCoin
  else Coins_GetCoin (ToCoins (MaxGas item)) (GetGasAsset (toChain item)).
Fixpoint deduct_outbound (coin gasCoin : Coin) (cs : Coins) : outcome Coins :=
  match cs with
  | [] => Ok []
  | c :: cs' =>
      n ← (if Asset_Equals (cAsset c) (cAsset coin) then SafeSub (cAmount c) (cAmount coin)
           else Ok (cAmount c));
      n ← (if Asset_Equals (cAsset c) (cAsset gasCoin) then SafeSub n (cAmount gasCoin)
           else Ok n);
      rest ← deduct_outbound coin gasCoin cs';
      Ok (with_amount c n :: rest)
  end.
Fixpoint DeductVaultPendingOutbounds (m : Vault) (pendingOutbounds : list TxOutItem) :
    outcome Vault :=
  match pendingOutbounds with
  | [] => Ok m
  | item :: items =>
      if outstanding m item then
        cs ← deduct_outbound (toCoin item) (outbound_gas item) (vCoins m);
        DeductVaultPendingOutbounds (with_vcoins m cs (vChains m)) items
      else DeductVaultPendingOutbounds m items
  end.
End vaults.

(** *** Lists of vaults *)
Abbreviation Vaults := (list Vault) (only parsing).

Definition more_of (asset : Asset) (v w : Vault) : bool :=
  cAmount (Vault_GetCoin w asset) <? cAmount (Vault_GetCoin v asset).
Definition SortBy (vs : Vaults) (sortBy : Asset) : Vaults := stable_sort (more_of sortBy) vs.
Definition Vaults_Has (vs : Vaults) (target : Coin) : Vaults :=
  List.filter (fun v => cAmount target <=? cAmount (Vault_GetCoin v (cAsset target))) vs.

(** The selection loop: an empty candidate is always replaced. *)
Definition select (better : Vault -> Vault -> bool) (vs : Vaults) : Vault :=
  match vs with
  | [v] => v
  | _ => foldl (fun vault v => if Vault_IsEmpty vault || better v vault then v else vault)
           EmptyVault vs
  end.
Definition SelectByMinCoin (vs : Vaults) (asset : Asset) : Vault :=
  select (fun v w => more_of asset w v) vs.
Definition SelectByMaxCoin (vs : Vaults) (asset : Asset) : Vault := select (more_of asset) vs.

(** ** Lemmas *)
Section vault_lemmas.
Context {S : SdkMath} `{!SdkMathOk S}.

(** What an outbound takes of an asset: its coin and its gas. *)
Definition takes (a : Asset) (item : TxOutItem) : Z :=
  amount_if a (toCoin item) + amount_if a (outbound_gas item).
(** What the outstanding outbounds of the vault take of an asset. *)
Definition owed (m : Vault) (a : Asset) (items : list TxOutItem) : Z :=
  sumZ (map (takes a) (List.filter (outstanding m) items)).
Definition outbounds_ok (items : list TxOutItem) : Prop :=
  Forall (fun i => is_uint (cAmount (toCoin i)) /\ is_uint (cAmount (outbound_gas i))) items.
Definition less (f : Asset -> Z) (cs : Coins) : Coins :=
  map (fun c => with_amount c (Z.max 0 (cAmount c - f (cAsset c)))) cs.

Lemma amount_if_nonneg a c : is_uint (cAmount c) -> 0 <= amount_if a c.
Proof using. unfold amount_if, is_uint. case_if; lia. Qed.

Lemma less_ok f cs : (forall a, 0 <= f a) -> coins_ok cs -> coins_ok (less f cs).
Proof using.
  intros Hf Hcs. unfold less, coins_ok in *. apply Forall_map. eapply Forall_impl; [exact Hcs|].
  intros c Hc. specialize (Hf (cAsset c)). unfold is_uint in *. simpl. lia.
Qed.

(** Two saturating subtractions in a row take the sum. *)
Lemma less_less f g cs : (forall a, 0 <= g a) ->
  less g (less f cs) = less (fun a => f a + g a) cs.
Proof using.
  intros Hg. unfold less. rewrite map_map. apply map_ext. intros [a n d].
  unfold with_amount. simpl. specialize (Hg a). f_equal. lia.
Qed.

Lemma deduct_outbound_eq coin gas cs : coins_ok cs -> is_uint (cAmount coin) ->
  is_uint (cAmount gas) ->
  deduct_outbound coin gas cs =
    Ok (less (fun a => amount_if a coin + amount_if a gas) cs).
Proof using SdkMathOk0.
  intros Hcs Hc Hg. induction Hcs as [|c cs Hx Hcs IH]; simpl; [done|].
  assert (H1 : (if Asset_Equals (cAsset c) (cAsset coin) then SafeSub (cAmount c) (cAmount coin)
    else Ok (cAmount c)) = Ok (Z.max 0 (cAmount c - amount_if (cAsset c) coin))).
  { unfold amount_if. rewrite (Asset_Equals_sym (cAsset coin)).
    case_if; [by apply SafeSub_Ok|]. f_equal. unfold is_uint in Hx. lia. }
  rewrite H1. simpl. set (n := Z.max 0 _) in *.
  assert (Hn : is_uint n) by (pose proof (amount_if_nonneg (cAsset c) coin Hc);
    unfold n, is_uint in *; lia).
  assert (H2 : (if Asset_Equals (cAsset c) (cAsset gas) then SafeSub n (cAmount gas)
    else Ok n) = Ok (Z.max 0 (n - amount_if (cAsset c) gas))).
  { unfold amount_if. rewrite (Asset_Equals_sym (cAsset gas)).
    case_if; [by apply SafeSub_Ok|]. f_equal. unfold is_uint in Hn. lia. }
  rewrite H2. simpl. rewrite IH. simpl. unfold n. do 3 f_equal.
  pose proof (amount_if_nonneg (cAsset c) gas Hg). lia.
Qed.
End vault_lemmas.

(** ** Properties *)

(** Deducting pending outbounds leaves every coin of the vault with its
    amount less everything the vault's outstanding outbounds take of that
    asset (their coins and their gas), zero when they take more; outbounds of
    other vaults and sent ones take nothing, and nothing else changes. *)
Theorem DeductVaultPendingOutbounds_exact {S : SdkMath} `{!SdkMathOk S} m items :
  coins_ok (vCoins m) -> outbounds_ok items ->
  DeductVaultPendingOutbounds m items =
    Ok (with_vcoins m (less (fun a => owed m a items) (vCoins m)) (vChains m)).
Proof.
  intros Hm Hitems. revert m Hm.
  induction Hitems as [|i items [Hc Hg] Hitems IH]; intros m Hm; simpl.
  - unfold owed, less. simpl. destruct m. unfold with_vcoins. simpl in *. do 2 f_equal.
    symmetry. transitivity (map id vCoins0); [|apply map_id].
    apply map_ext_in. intros c Hin. unfold coins_ok in Hm.
    rewrite List.Forall_forall in Hm. specialize (Hm c Hin). destruct c as [a n d].
    unfold with_amount, is_uint in *. simpl in *. f_equal. lia.
  - unfold owed. simpl. destruct (outstanding m i); simpl; [|by apply IH].
    rewrite deduct_outbound_eq by done. simpl.
    pose proof (fun a => amount_if_nonneg a (toCoin i) Hc) as Hc0.
    pose proof (fun a => amount_if_nonneg a (outbound_gas i) Hg) as Hg0.
    rewrite IH.
    + unfold with_vcoins at 1. simpl. do 2 f_equal. rewrite less_less; [done|].
      intros a. apply sumZ_nonneg, Forall_map, List.Forall_forall. intros j Hj.
      apply List.filter_In in Hj as [Hj _]. rewrite List.Forall_forall in Hitems.
      destruct (Hitems j Hj) as [H1 H2]. unfold takes.
      pose proof (amount_if_nonneg a _ H1). pose proof (amount_if_nonneg a _ H2). lia.
    + apply less_ok; [|done]. intros a. specialize (Hc0 a). specialize (Hg0 a). lia.
Qed.

(** ** The properties at concrete inputs *)

Definition demo_vault : Vault :=
  with_vcoins (NewVault 1 VaultStatus_ActiveVault VaultType_AsgardVault "pk" ["BTC"] [])
    [NewCoin BTCAsset 1000; NewCoin ETHAsset 50] ["BTC"; "ETH"].
Definition demo_outbound (pk : PubKey) (coin : Coin) (gas : Gas) (out : TxID) : TxOutItem :=
  mkTxOutItem (GetChain (cAsset coin)) "to" pk coin "" "" gas 1 "in" out "" "" "" None None "".
Definition demo_outbounds : list TxOutItem :=
  [demo_outbound "pk" (NewCoin BTCAsset 300) [NewCoin BTCAsset 20] "";
   demo_outbound "other" (NewCoin BTCAsset 300) [] "";
   demo_outbound "pk" (NewCoin ETHAsset 70) [] "";
   demo_outbound "pk" (NewCoin BTCAsset 300) [] "sent"].

Lemma DeductVaultPendingOutbounds_exact_witness : exists m,
  DeductVaultPendingOutbounds (S := sdk_std) demo_vault demo_outbounds = Ok m /\
  vCoins m = [NewCoin BTCAsset 680; NewCoin ETHAsset 0].
Proof.
  eexists. split.
  - apply (DeductVaultPendingOutbounds_exact (S := sdk_std) demo_vault demo_outbounds);
      repeat constructor; unfold is_uint, uint_lim; simpl; lia.
  - vm_compute. reflexivity.
Defined.
