(* ===== verification/Keeper.v ===== *)
(** The keeper, [x/thorchain/keeper/v1]: the key-value records the modelled
    handlers read and write, configuration, module accounts, minting and
    burning.

    A record is kept as the value the code marshals (the codec is third-party
    code that is assumed to decode what it encoded, so the error branches of
    [Unmarshal] do not occur), one finite map per record type, under the key
    [GetKey] builds from its prefix. *)
From S2P Require Import Prelude SdkMath GoStr Keys Shares Chains Assets Coins Bank Nodes Txs.
From S2P Require Import Voters Mimir Observed Pools Streaming Vaults.
Local Open Scope string_scope.
Local Open Scope Z_scope.

(** [prefix] followed by a slash and the upper-cased key. *)
Definition GetKey (prefix key : string) : string := prefix ++ "/" ++ to_upper key.

Definition prefixPool : string := "pool/".
Definition prefixTotalLiquidityFee : string := "total_liquidity_fee/".
Definition prefixPoolLiquidityFee : string := "pool_liquidity_fee/".
Definition prefixRollingPoolLiquidityFee : string := "rolling_pool_liquidity_fee/".
Definition prefixPoolSwapSlip : string := "pool_swap_slip/".
Definition prefixNodeAccount : string := "node_account/".
Definition prefixSwapperClout : string := "sclout/".
Definition prefixRagnarokPoolHeight : string := "ragnarokPool/".
Definition prefixNodeSlashPoints : string := "slash/".
Definition prefixMimir : string := "mimir/".
Definition prefixNodeMimir : string := "nodemimir/".
Definition prefixLiquidityProvider : string := "lp/".
Definition prefixRagnarokHeight : string := "ragnarokHeight/".
Definition prefixSwapQueueItem : string := "swapitem/".
Definition prefixStreamingSwap : string := "stream/".
Definition prefixBondProviders : string := "bond_providers/".
Definition prefixVault : string := "vault/".
Definition prefixVaultAsgardIndex : string := "vault_asgard_index/".
Definition prefixVaultAsgardEDDSAIndex : string := "vault_asgard_eddsa_index/".
Definition prefixNodeJail : string := "jail/".
Definition prefixBanVoter : string := "ban/".
Definition prefixNodePauseChain : string := "node_pause_chain/".
Definition prefixMinJoinLast : string := "minjoinlast/".
Definition prefixTxOut : string := "txout/".
Definition prefixVolume : string := "volume/".
Definition prefixObservedTxIn : string := "observed_tx_in/".

Definition ModuleName : string := "thorchain".
Definition ReserveName : string := "reserve".
Definition AsgardName : string := "asgard".
Definition BondName : string := "bond".
Definition TCYClaimingName : string := "tcy_claim".

(** type_volume.go *)
Record Volume := mkVolume {
  volAsset : Asset;
  TotalRune : Z;
  TotalAsset : Z;
  ChangeRune : Z;
  ChangeAsset : Z;
  LastBucket : Z
}.

Definition NewVolume (asset : Asset) : Volume :=
  mkVolume (GetLayer1Asset asset) 0 0 0 0 (-1).

(** A decoded [Uint] is never nil. *)
Definition Volume_Valid (m : Volume) : goerr :=
  if Asset_IsEmpty (volAsset m) then Some "asset is empty" else None.

(** types/type_network_fee.go *)
Record NetworkFee := mkNetworkFee {
  netChain : Chain;
  netTransactionSize : Z;
  TransactionFeeRate : Z
}.
Definition NewNetworkFee (chain : Chain) (transactionSize transactionFeeRate : Z) : NetworkFee :=
  mkNetworkFee chain transactionSize transactionFeeRate.
Definition NetworkFee_Valid (m : NetworkFee) : goerr :=
  if Chain_IsEmpty (netChain m) then Some "chain can't be empty"
  else if netTransactionSize m <=? 0 then
    Some ("transaction size can't be zero or negative: " ++ itoa (netTransactionSize m))
  else if TransactionFeeRate m <=? 0 then Some "transaction fee rate can't be zero"
  else None.

(** [kInts] holds the [ProtoInt64] and [ProtoUint64] records; [kHeight] is
    [ctx.BlockHeight()]. *)
Record KVStore (B : Type) := mkKVStore {
  kInts : gmap string Z;
  kStrings : gmap string (list string);
  kNodeMimirs : gmap string NodeMimirs;
  kNodeAccounts : gmap string NodeAccount;
  kBondProviders : gmap string BondProviders;
  kJails : gmap string Jail;
  kBanVoters : gmap string BanVoter;
  kPools : gmap string Pool;
  kClout : gmap string SwapperClout;
  kVolumes : gmap string Volume;
  kLPs : gmap string LiquidityProvider;
  kPOL : option ProtocolOwnedLiquidity;
  kNetwork : option Network;
  kSwapQueue : gmap string MsgSwap;
  kAdvSwapQueue : gmap string MsgSwap;
  kStreaming : gmap string StreamingSwap;
  kVaults : gmap string Vault;
  kTxOuts : gmap string TxOut;
  kMinJoinLast : option MinJoinLast;
  kTxInVoters : gmap string ObservedTxVoter;
  kTxOutVoters : gmap string ObservedTxVoter;
  kNetworkFees : gmap string NetworkFee;
  kNetworkFeeVoters : gmap string ObservedNetworkFeeVoter;
  kSolvencyVoters : gmap string SolvencyVoter;
  kErrataVoters : gmap string ErrataTxVoter;
  kTssVoters : gmap string TssVoter;
  kKeysignFailVoters : gmap string TssKeysignFailVoter;
  kBank : B;
  kHeight : Z
}.
Arguments mkKVStore {B}.
Arguments kInts {B}.
Arguments kStrings {B}.
Arguments kNodeMimirs {B}.
Arguments kNodeAccounts {B}.
Arguments kBondProviders {B}.
Arguments kJails {B}.
Arguments kBanVoters {B}.
Arguments kPools {B}.
Arguments kClout {B}.
Arguments kVolumes {B}.
Arguments kLPs {B}.
Arguments kPOL {B}.
Arguments kNetwork {B}.
Arguments kSwapQueue {B}.
Arguments kAdvSwapQueue {B}.
Arguments kStreaming {B}.
Arguments kVaults {B}.
Arguments kTxOuts {B}.
Arguments kMinJoinLast {B}.
Arguments kTxInVoters {B}.
Arguments kTxOutVoters {B}.
Arguments kNetworkFees {B}.
Arguments kNetworkFeeVoters {B}.
Arguments kSolvencyVoters {B}.
Arguments kErrataVoters {B}.
Arguments kTssVoters {B}.
Arguments kKeysignFailVoters {B}.
Arguments kBank {B}.
Arguments kHeight {B}.

Section keeper.
Context {B : Type} `{Bank B} {K : SdkKeys} {S : SdkMath}.
Abbreviation Store := (KVStore B) (only parsing).

Definition with_ints (k : Store) (m : gmap string Z) : Store :=
  mkKVStore m (kStrings k) (kNodeMimirs k) (kNodeAccounts k) (kBondProviders k) (kJails k)
  (kBanVoters k) (kPools k) (kClout k) (kVolumes k) (kLPs k) (kPOL k) (kNetwork k)
  (kSwapQueue k) (kAdvSwapQueue k) (kStreaming k) (kVaults k) (kTxOuts k) (kMinJoinLast k)
  (kTxInVoters k) (kTxOutVoters k) (kNetworkFees k) (kNetworkFeeVoters k) (kSolvencyVoters k)
  (kErrataVoters k) (kTssVoters k) (kKeysignFailVoters k) (kBank k) (kHeight k).
Definition with_strings (k : Store) (m : gmap string (list string)) : Store :=
  mkKVStore (kInts k) m (kNodeMimirs k) (kNodeAccounts k) (kBondProviders k) (kJails k)
  (kBanVoters k) (kPools k) (kClout k) (kVolumes k) (kLPs k) (kPOL k) (kNetwork k)
  (kSwapQueue k) (kAdvSwapQueue k) (kStreaming k) (kVaults k) (kTxOuts k) (kMinJoinLast k)
  (kTxInVoters k) (kTxOutVoters k) (kNetworkFees k) (kNetworkFeeVoters k) (kSolvencyVoters k)
  (kErrataVoters k) (kTssVoters k) (kKeysignFailVoters k) (kBank k) (kHeight k).
Definition with_node_mimirs (k : Store) (m : gmap string NodeMimirs) : Store :=
  mkKVStore (kInts k) (kStrings k) m (kNodeAccounts k) (kBondProviders k) (kJails k)
  (kBanVoters k) (kPools k) (kClout k) (kVolumes k) (kLPs k) (kPOL k) (kNetwork k)
  (kSwapQueue k) (kAdvSwapQueue k) (kStreaming k) (kVaults k) (kTxOuts k) (kMinJoinLast k)
  (kTxInVoters k) (kTxOutVoters k) (kNetworkFees k) (kNetworkFeeVoters k) (kSolvencyVoters k)
  (kErrataVoters k) (kTssVoters k) (kKeysignFailVoters k) (kBank k) (kHeight k).
Definition with_node_accounts (k : Store) (m : gmap string NodeAccount) : Store :=
  mkKVStore (kInts k) (kStrings k) (kNodeMimirs k) m (kBondProviders k) (kJails k)
  (kBanVoters k) (kPools k) (kClout k) (kVolumes k) (kLPs k) (kPOL k) (kNetwork k)
  (kSwapQueue k) (kAdvSwapQueue k) (kStreaming k) (kVaults k) (kTxOuts k) (kMinJoinLast k)
  (kTxInVoters k) (kTxOutVoters k) (kNetworkFees k) (kNetworkFeeVoters k) (kSolvencyVoters k)
  (kErrataVoters k) (kTssVoters k) (kKeysignFailVoters k) (kBank k) (kHeight k).
Definition with_bond_providers (k : Store) (m : gmap string BondProviders) : Store :=
  mkKVStore (kInts k) (kStrings k) (kNodeMimirs k) (kNodeAccounts k) m (kJails k)
  (kBanVoters k) (kPools k) (kClout k) (kVolumes k) (kLPs k) (kPOL k) (kNetwork k)
  (kSwapQueue k) (kAdvSwapQueue k) (kStreaming k) (kVaults k) (kTxOuts k) (kMinJoinLast k)
  (kTxInVoters k) (kTxOutVoters k) (kNetworkFees k) (kNetworkFeeVoters k) (kSolvencyVoters k)
  (kErrataVoters k) (kTssVoters k) (kKeysignFailVoters k) (kBank k) (kHeight k).
Definition with_jails (k : Store) (m : gmap string Jail) : Store :=
  mkKVStore (kInts k) (kStrings k) (kNodeMimirs k) (kNodeAccounts k) (kBondProviders k) m
  (kBanVoters k) (kPools k) (kClout k) (kVolumes k) (kLPs k) (kPOL k) (kNetwork k)
  (kSwapQueue k) (kAdvSwapQueue k) (kStreaming k) (kVaults k) (kTxOuts k) (kMinJoinLast k)
  (kTxInVoters k) (kTxOutVoters k) (kNetworkFees k) (kNetworkFeeVoters k) (kSolvencyVoters k)
  (kErrataVoters k) (kTssVoters k) (kKeysignFailVoters k) (kBank k) (kHeight k).
Definition with_ban_voters (k : Store) (m : gmap string BanVoter) : Store :=
  mkKVStore (kInts k) (kStrings k) (kNodeMimirs k) (kNodeAccounts k) (kBondProviders k)
  (kJails k) m (kPools k) (kClout k) (kVolumes k) (kLPs k) (kPOL k) (kNetwork k) (kSwapQueue k)
  (kAdvSwapQueue k) (kStreaming k) (kVaults k) (kTxOuts k) (kMinJoinLast k) (kTxInVoters k)
  (kTxOutVoters k) (kNetworkFees k) (kNetworkFeeVoters k) (kSolvencyVoters k) (kErrataVoters k)
  (kTssVoters k) (kKeysignFailVoters k) (kBank k) (kHeight k).
Definition with_pools (k : Store) (m : gmap string Pool) : Store :=
  mkKVStore (kInts k) (kStrings k) (kNodeMimirs k) (kNodeAccounts k) (kBondProviders k)
  (kJails k) (kBanVoters k) m (kClout k) (kVolumes k) (kLPs k) (kPOL k) (kNetwork k)
  (kSwapQueue k) (kAdvSwapQueue k) (kStreaming k) (kVaults k) (kTxOuts k) (kMinJoinLast k)
  (kTxInVoters k) (kTxOutVoters k) (kNetworkFees k) (kNetworkFeeVoters k) (kSolvencyVoters k)
  (kErrataVoters k) (kTssVoters k) (kKeysignFailVoters k) (kBank k) (kHeight k).
Definition with_clout (k : Store) (m : gmap string SwapperClout) : Store :=
  mkKVStore (kInts k) (kStrings k) (kNodeMimirs k) (kNodeAccounts k) (kBondProviders k)
  (kJails k) (kBanVoters k) (kPools k) m (kVolumes k) (kLPs k) (kPOL k) (kNetwork k)
  (kSwapQueue k) (kAdvSwapQueue k) (kStreaming k) (kVaults k) (kTxOuts k) (kMinJoinLast k)
  (kTxInVoters k) (kTxOutVoters k) (kNetworkFees k) (kNetworkFeeVoters k) (kSolvencyVoters k)
  (kErrataVoters k) (kTssVoters k) (kKeysignFailVoters k) (kBank k) (kHeight k).
Definition with_volumes (k : Store) (m : gmap string Volume) : Store :=
  mkKVStore (kInts k) (kStrings k) (kNodeMimirs k) (kNodeAccounts k) (kBondProviders k)
  (kJails k) (kBanVoters k) (kPools k) (kClout k) m (kLPs k) (kPOL k) (kNetwork k)
  (kSwapQueue k) (kAdvSwapQueue k) (kStreaming k) (kVaults k) (kTxOuts k) (kMinJoinLast k)
  (kTxInVoters k) (kTxOutVoters k) (kNetworkFees k) (kNetworkFeeVoters k) (kSolvencyVoters k)
  (kErrataVoters k) (kTssVoters k) (kKeysignFailVoters k) (kBank k) (kHeight k).
Definition with_lps (k : Store) (m : gmap string LiquidityProvider) : Store :=
  mkKVStore (kInts k) (kStrings k) (kNodeMimirs k) (kNodeAccounts k) (kBondProviders k)
  (kJails k) (kBanVoters k) (kPools k) (kClout k) (kVolumes k) m (kPOL k) (kNetwork k)
  (kSwapQueue k) (kAdvSwapQueue k) (kStreaming k) (kVaults k) (kTxOuts k) (kMinJoinLast k)
  (kTxInVoters k) (kTxOutVoters k) (kNetworkFees k) (kNetworkFeeVoters k) (kSolvencyVoters k)
  (kErrataVoters k) (kTssVoters k) (kKeysignFailVoters k) (kBank k) (kHeight k).
Definition with_pol (k : Store) (m : option ProtocolOwnedLiquidity) : Store :=
  mkKVStore (kInts k) (kStrings k) (kNodeMimirs k) (kNodeAccounts k) (kBondProviders k)
  (kJails k) (kBanVoters k) (kPools k) (kClout k) (kVolumes k) (kLPs k) m (kNetwork k)
  (kSwapQueue k) (kAdvSwapQueue k) (kStreaming k) (kVaults k) (kTxOuts k) (kMinJoinLast k)
  (kTxInVoters k) (kTxOutVoters k) (kNetworkFees k) (kNetworkFeeVoters k) (kSolvencyVoters k)
  (kErrataVoters k) (kTssVoters k) (kKeysignFailVoters k) (kBank k) (kHeight k).
Definition with_network (k : Store) (m : option Network) : Store :=
  mkKVStore (kInts k) (kStrings k) (kNodeMimirs k) (kNodeAccounts k) (kBondProviders k)
  (kJails k) (kBanVoters k) (kPools k) (kClout k) (kVolumes k) (kLPs k) (kPOL k) m
  (kSwapQueue k) (kAdvSwapQueue k) (kStreaming k) (kVaults k) (kTxOuts k) (kMinJoinLast k)
  (kTxInVoters k) (kTxOutVoters k) (kNetworkFees k) (kNetworkFeeVoters k) (kSolvencyVoters k)
  (kErrataVoters k) (kTssVoters k) (kKeysignFailVoters k) (kBank k) (kHeight k).
Definition with_swap_queue (k : Store) (m : gmap string MsgSwap) : Store :=
  mkKVStore (kInts k) (kStrings k) (kNodeMimirs k) (kNodeAccounts k) (kBondProviders k)
  (kJails k) (kBanVoters k) (kPools k) (kClout k) (kVolumes k) (kLPs k) (kPOL k) (kNetwork k) m
  (kAdvSwapQueue k) (kStreaming k) (kVaults k) (kTxOuts k) (kMinJoinLast k) (kTxInVoters k)
  (kTxOutVoters k) (kNetworkFees k) (kNetworkFeeVoters k) (kSolvencyVoters k) (kErrataVoters k)
  (kTssVoters k) (kKeysignFailVoters k) (kBank k) (kHeight k).
Definition with_adv_swap_queue (k : Store) (m : gmap string MsgSwap) : Store :=
  mkKVStore (kInts k) (kStrings k) (kNodeMimirs k) (kNodeAccounts k) (kBondProviders k)
  (kJails k) (kBanVoters k) (kPools k) (kClout k) (kVolumes k) (kLPs k) (kPOL k) (kNetwork k)
  (kSwapQueue k) m (kStreaming k) (kVaults k) (kTxOuts k) (kMinJoinLast k) (kTxInVoters k)
  (kTxOutVoters k) (kNetworkFees k) (kNetworkFeeVoters k) (kSolvencyVoters k) (kErrataVoters k)
  (kTssVoters k) (kKeysignFailVoters k) (kBank k) (kHeight k).
Definition with_streaming (k : Store) (m : gmap string StreamingSwap) : Store :=
  mkKVStore (kInts k) (kStrings k) (kNodeMimirs k) (kNodeAccounts k) (kBondProviders k)
  (kJails k) (kBanVoters k) (kPools k) (kClout k) (kVolumes k) (kLPs k) (kPOL k) (kNetwork k)
  (kSwapQueue k) (kAdvSwapQueue k) m (kVaults k) (kTxOuts k) (kMinJoinLast k) (kTxInVoters k)
  (kTxOutVoters k) (kNetworkFees k) (kNetworkFeeVoters k) (kSolvencyVoters k) (kErrataVoters k)
  (kTssVoters k) (kKeysignFailVoters k) (kBank k) (kHeight k).
Definition with_vaults (k : Store) (m : gmap string Vault) : Store :=
  mkKVStore (kInts k) (kStrings k) (kNodeMimirs k) (kNodeAccounts k) (kBondProviders k)
  (kJails k) (kBanVoters k) (kPools k) (kClout k) (kVolumes k) (kLPs k) (kPOL k) (kNetwork k)
  (kSwapQueue k) (kAdvSwapQueue k) (kStreaming k) m (kTxOuts k) (kMinJoinLast k)
  (kTxInVoters k) (kTxOutVoters k) (kNetworkFees k) (kNetworkFeeVoters k) (kSolvencyVoters k)
  (kErrataVoters k) (kTssVoters k) (kKeysignFailVoters k) (kBank k) (kHeight k).
Definition with_tx_outs (k : Store) (m : gmap string TxOut) : Store :=
  mkKVStore (kInts k) (kStrings k) (kNodeMimirs k) (kNodeAccounts k) (kBondProviders k)
  (kJails k) (kBanVoters k) (kPools k) (kClout k) (kVolumes k) (kLPs k) (kPOL k) (kNetwork k)
  (kSwapQueue k) (kAdvSwapQueue k) (kStreaming k) (kVaults k) m (kMinJoinLast k)
  (kTxInVoters k) (kTxOutVoters k) (kNetworkFees k) (kNetworkFeeVoters k) (kSolvencyVoters k)
  (kErrataVoters k) (kTssVoters k) (kKeysignFailVoters k) (kBank k) (kHeight k).
Definition with_min_join_last (k : Store) (m : option MinJoinLast) : Store :=
  mkKVStore (kInts k) (kStrings k) (kNodeMimirs k) (kNodeAccounts k) (kBondProviders k)
  (kJails k) (kBanVoters k) (kPools k) (kClout k) (kVolumes k) (kLPs k) (kPOL k) (kNetwork k)
  (kSwapQueue k) (kAdvSwapQueue k) (kStreaming k) (kVaults k) (kTxOuts k) m (kTxInVoters k)
  (kTxOutVoters k) (kNetworkFees k) (kNetworkFeeVoters k) (kSolvencyVoters k) (kErrataVoters k)
  (kTssVoters k) (kKeysignFailVoters k) (kBank k) (kHeight k).
Definition with_tx_in_voters (k : Store) (m : gmap string ObservedTxVoter) : Store :=
  mkKVStore (kInts k) (kStrings k) (kNodeMimirs k) (kNodeAccounts k) (kBondProviders k)
  (kJails k) (kBanVoters k) (kPools k) (kClout k) (kVolumes k) (kLPs k) (kPOL k) (kNetwork k)
  (kSwapQueue k) (kAdvSwapQueue k) (kStreaming k) (kVaults k) (kTxOuts k) (kMinJoinLast k) m
  (kTxOutVoters k) (kNetworkFees k) (kNetworkFeeVoters k) (kSolvencyVoters k) (kErrataVoters k)
  (kTssVoters k) (kKeysignFailVoters k) (kBank k) (kHeight k).
Definition with_tx_out_voters (k : Store) (m : gmap string ObservedTxVoter) : Store :=
  mkKVStore (kInts k) (kStrings k) (kNodeMimirs k) (kNodeAccounts k) (kBondProviders k)
  (kJails k) (kBanVoters k) (kPools k) (kClout k) (kVolumes k) (kLPs k) (kPOL k) (kNetwork k)
  (kSwapQueue k) (kAdvSwapQueue k) (kStreaming k) (kVaults k) (kTxOuts k) (kMinJoinLast k)
  (kTxInVoters k) m (kNetworkFees k) (kNetworkFeeVoters k) (kSolvencyVoters k)
  (kErrataVoters k) (kTssVoters k) (kKeysignFailVoters k) (kBank k) (kHeight k).
Definition with_network_fees (k : Store) (m : gmap string NetworkFee) : Store :=
  mkKVStore (kInts k) (kStrings k) (kNodeMimirs k) (kNodeAccounts k) (kBondProviders k)
  (kJails k) (kBanVoters k) (kPools k) (kClout k) (kVolumes k) (kLPs k) (kPOL k) (kNetwork k)
  (kSwapQueue k) (kAdvSwapQueue k) (kStreaming k) (kVaults k) (kTxOuts k) (kMinJoinLast k)
  (kTxInVoters k) (kTxOutVoters k) m (kNetworkFeeVoters k) (kSolvencyVoters k)
  (kErrataVoters k) (kTssVoters k) (kKeysignFailVoters k) (kBank k) (kHeight k).
Definition with_network_fee_voters (k : Store) (m : gmap string ObservedNetworkFeeVoter) : Store :=
  mkKVStore (kInts k) (kStrings k) (kNodeMimirs k) (kNodeAccounts k) (kBondProviders k)
  (kJails k) (kBanVoters k) (kPools k) (kClout k) (kVolumes k) (kLPs k) (kPOL k) (kNetwork k)
  (kSwapQueue k) (kAdvSwapQueue k) (kStreaming k) (kVaults k) (kTxOuts k) (kMinJoinLast k)
  (kTxInVoters k) (kTxOutVoters k) (kNetworkFees k) m (kSolvencyVoters k) (kErrataVoters k)
  (kTssVoters k) (kKeysignFailVoters k) (kBank k) (kHeight k).
Definition with_solvency_voters (k : Store) (m : gmap string SolvencyVoter) : Store :=
  mkKVStore (kInts k) (kStrings k) (kNodeMimirs k) (kNodeAccounts k) (kBondProviders k)
  (kJails k) (kBanVoters k) (kPools k) (kClout k) (kVolumes k) (kLPs k) (kPOL k) (kNetwork k)
  (kSwapQueue k) (kAdvSwapQueue k) (kStreaming k) (kVaults k) (kTxOuts k) (kMinJoinLast k)
  (kTxInVoters k) (kTxOutVoters k) (kNetworkFees k) (kNetworkFeeVoters k) m (kErrataVoters k)
  (kTssVoters k) (kKeysignFailVoters k) (kBank k) (kHeight k).
Definition with_errata_voters (k : Store) (m : gmap string ErrataTxVoter) : Store :=
  mkKVStore (kInts k) (kStrings k) (kNodeMimirs k) (kNodeAccounts k) (kBondProviders k)
  (kJails k) (kBanVoters k) (kPools k) (kClout k) (kVolumes k) (kLPs k) (kPOL k) (kNetwork k)
  (kSwapQueue k) (kAdvSwapQueue k) (kStreaming k) (kVaults k) (kTxOuts k) (kMinJoinLast k)
  (kTxInVoters k) (kTxOutVoters k) (kNetworkFees k) (kNetworkFeeVoters k) (kSolvencyVoters k) m
  (kTssVoters k) (kKeysignFailVoters k) (kBank k) (kHeight k).
Definition with_tss_voters (k : Store) (m : gmap string TssVoter) : Store :=
  mkKVStore (kInts k) (kStrings k) (kNodeMimirs k) (kNodeAccounts k) (kBondProviders k)
  (kJails k) (kBanVoters k) (kPools k) (kClout k) (kVolumes k) (kLPs k) (kPOL k) (kNetwork k)
  (kSwapQueue k) (kAdvSwapQueue k) (kStreaming k) (kVaults k) (kTxOuts k) (kMinJoinLast k)
  (kTxInVoters k) (kTxOutVoters k) (kNetworkFees k) (kNetworkFeeVoters k) (kSolvencyVoters k)
  (kErrataVoters k) m (kKeysignFailVoters k) (kBank k) (kHeight k).
Definition with_keysign_fail_voters (k : Store) (m : gmap string TssKeysignFailVoter) : Store :=
  mkKVStore (kInts k) (kStrings k) (kNodeMimirs k) (kNodeAccounts k) (kBondProviders k)
  (kJails k) (kBanVoters k) (kPools k) (kClout k) (kVolumes k) (kLPs k) (kPOL k) (kNetwork k)
  (kSwapQueue k) (kAdvSwapQueue k) (kStreaming k) (kVaults k) (kTxOuts k) (kMinJoinLast k)
  (kTxInVoters k) (kTxOutVoters k) (kNetworkFees k) (kNetworkFeeVoters k) (kSolvencyVoters k)
  (kErrataVoters k) (kTssVoters k) m (kBank k) (kHeight k).
Definition with_bank (k : Store) (m : B) : Store :=
  mkKVStore (kInts k) (kStrings k) (kNodeMimirs k) (kNodeAccounts k) (kBondProviders k)
  (kJails k) (kBanVoters k) (kPools k) (kClout k) (kVolumes k) (kLPs k) (kPOL k) (kNetwork k)
  (kSwapQueue k) (kAdvSwapQueue k) (kStreaming k) (kVaults k) (kTxOuts k) (kMinJoinLast k)
  (kTxInVoters k) (kTxOutVoters k) (kNetworkFees k) (kNetworkFeeVoters k) (kSolvencyVoters k)
  (kErrataVoters k) (kTssVoters k) (kKeysignFailVoters k) m (kHeight k).
Definition with_height (k : Store) (m : Z) : Store :=
  mkKVStore (kInts k) (kStrings k) (kNodeMimirs k) (kNodeAccounts k) (kBondProviders k)
  (kJails k) (kBanVoters k) (kPools k) (kClout k) (kVolumes k) (kLPs k) (kPOL k) (kNetwork k)
  (kSwapQueue k) (kAdvSwapQueue k) (kStreaming k) (kVaults k) (kTxOuts k) (kMinJoinLast k)
  (kTxInVoters k) (kTxOutVoters k) (kNetworkFees k) (kNetworkFeeVoters k) (kSolvencyVoters k)
  (kErrataVoters k) (kTssVoters k) (kKeysignFailVoters k) (kBank k) m.

(** The store before the first block, over a bank. *)
Definition empty_store (b : B) (height : Z) : Store :=
  mkKVStore ∅ ∅ ∅ ∅ ∅ ∅ ∅ ∅ ∅ ∅ ∅ None None ∅ ∅ ∅ ∅ ∅ None ∅ ∅ ∅ ∅ ∅ ∅ ∅ ∅ b height.

(** *** keeper.go: integer records.  [default] is the record's value when the
    key is absent. *)
Definition setInt64 (k : Store) (key : string) (record : Z) : Store :=
  with_ints k (<[key := record]> (kInts k)).
Definition setUint64 (k : Store) (key : string) (record : Z) : Store :=
  with_ints k (<[key := record]> (kInts k)).
Definition getInt64 (k : Store) (key : string) (record : Z) : Z := default record (kInts k !! key).
Definition getUint64 (k : Store) (key : string) (record : Z) : Z := default record (kInts k !! key).
Definition del (k : Store) (key : string) : Store := with_ints k (delete key (kInts k)).

Definition setStrings (k : Store) (key : string) (record : list string) : Store :=
  match record with
  | [] => with_strings k (delete key (kStrings k))
  | _ => with_strings k (<[key := record]> (kStrings k))
  end.
Definition getStrings (k : Store) (key : string) : option (list string) := kStrings k !! key.

(** *** keeper_mimir.go, keeper_mimir_mainnet.go, keeper_config.go *)
Definition SetMimir (k : Store) (key : string) (value : Z) : Store :=
  setInt64 k (GetKey prefixMimir key) value.
Definition GetMimir (k : Store) (key : string) : Z := getInt64 k (GetKey prefixMimir key) (-1).
Definition DeleteMimir (k : Store) (key : string) : Store := del k (GetKey prefixMimir key).

Definition GetNodeMimirs (k : Store) (key : string) : NodeMimirs :=
  default [] (kNodeMimirs k !! GetKey prefixNodeMimir (to_upper key)).

Definition SetNodeMimir (k : Store) (key : string) (value : Z) (acc : AccAddress) : Store :=
  let key := to_upper key in
  let kvkey := GetKey prefixNodeMimir key in
  let record := NodeMimirs_Set (GetNodeMimirs k key) key value acc in
  let record := if value <? 0 then NodeMimirs_Delete record key acc else record in
  match record with
  | [] => with_node_mimirs k (delete kvkey (kNodeMimirs k))
  | _ => with_node_mimirs k (<[kvkey := record]> (kNodeMimirs k))
  end.

Definition DeleteNodeMimirs (k : Store) (key : string) : Store :=
  with_node_mimirs k (delete (GetKey prefixNodeMimir key) (kNodeMimirs k)).

(** [constant] is the value compiled into [constants]. *)
Definition GetConfigInt64 (k : Store) (key : string) (constant : Z) : Z :=
  let val := GetMimir k key in
  if val <? 0 then constant else val.

(** *** keeper_node_account.go *)
Definition GetNodeAccount (k : Store) (addr : AccAddress) : NodeAccount :=
  default (NewNodeAccount addr NodeStatus_Unknown EmptyPubKeySet "" 0 "" (kHeight k))
    (kNodeAccounts k !! GetKey prefixNodeAccount (acc_string addr)).

Definition ResetNodeAccountSlashPoints (k : Store) (addr : AccAddress) : Store :=
  del k (GetKey prefixNodeSlashPoints (acc_string addr)).

Definition with_active_height (na : NodeAccount) (h : Z) : NodeAccount :=
  mkNodeAccount (NodeAddress na) (Status na) (naPubKeySet na) (ValidatorConsPubKey na)
    (naBond na) h (naBondAddress na) (StatusSince na) (SignerMembership na)
    (RequestedToLeave na) (ForcedToLeave na) (LeaveScore na) (IPAddress na) (naVersion na)
    (naType na) (MissingBlocks na) (Maintenance na).

Definition SetNodeAccount (k : Store) (na : NodeAccount) : Store :=
  if NodeAccount_IsEmpty na then k
  else
    let '(k, na) :=
      if (Status na =? NodeStatus_Active) && (ActiveBlockHeight na =? 0)
      then (ResetNodeAccountSlashPoints k (NodeAddress na), with_active_height na (kHeight k))
      else (k, na) in
    with_node_accounts k
      (<[GetKey prefixNodeAccount (acc_string (NodeAddress na)) := na]> (kNodeAccounts k)).

Definition GetBondProviders (k : Store) (addr : AccAddress) : BondProviders :=
  default (NewBondProviders addr)
    (kBondProviders k !! GetKey prefixBondProviders (acc_string addr)).
Definition SetBondProviders (k : Store) (record : BondProviders) : Store :=
  with_bond_providers k
    (<[GetKey prefixBondProviders (acc_string (bpNodeAddress record)) := record]>
       (kBondProviders k)).

(** *** keeper_pool.go *)
Definition PoolExist (k : Store) (asset : Asset) : bool :=
  bool_decide (is_Some (kPools k !! GetKey prefixPool (Asset_String asset))).
Definition GetPool (k : Store) (asset : Asset) : Pool :=
  default NewPool (kPools k !! GetKey prefixPool (Asset_String asset)).
Definition SetPool (k : Store) (pool : Pool) : outcome Store :=
  if Asset_IsEmpty (plAsset pool) then Err "cannot save a pool with an empty asset"
  else Ok (with_pools k
    (<[GetKey prefixPool (Asset_String (plAsset pool)) := pool]> (kPools k))).

(** An iterator visits the records in the order of their keys. *)
Definition by_key {A} (x y : string * A) : bool := str_ltb (fst x) (fst y).
Definition iterate {A} (m : gmap string A) : list A :=
  map snd (stable_sort by_key (map_to_list m)).

Definition GetPools (k : Store) : list Pool := iterate (kPools k).

(** *** keeper_volume.go: [GetVolume] fails when there is no record. *)
Definition GetVolume (k : Store) (pool : Asset) : option Volume :=
  kVolumes k !! GetKey prefixVolume (Asset_String (GetLayer1Asset pool)).
Definition SetVolume (k : Store) (volume : Volume) : outcome Store :=
  _ ← check (Volume_Valid volume);
  Ok (with_volumes k
    (<[GetKey prefixVolume (Asset_String (volAsset volume)) := volume]> (kVolumes k))).

(** *** keeper_clout.go *)
Definition SetSwapperClout (k : Store) (record : SwapperClout) : Store :=
  with_clout k (<[GetKey prefixSwapperClout (Address_String (scAddress record)) := record]>
    (kClout k)).
Definition GetSwapperClout (k : Store) (addr : Address) : SwapperClout :=
  if Address_IsEmpty addr then NewSwapperClout addr
  else default (NewSwapperClout addr)
    (kClout k !! GetKey prefixSwapperClout (Address_String addr)).

(** *** keeper_ragnarok.go, keeper_liquidity_provider.go

    [coin.Amount.Uint64()] panics on an amount of more than 64 bits. *)
Definition GetPoolRagnarokStart (k : Store) (asset : Asset) : Z :=
  getInt64 k (GetKey prefixRagnarokPoolHeight (Asset_String asset)) 0.

Definition GetTotalSupply (k : Store) (asset : Asset) : outcome Z :=
  if 0 <? GetPoolRagnarokStart k (GetLayer1Asset asset) then Ok 0
  else
    let amount := bank_supply (kBank k) (Asset_Native asset) in
    if (0 <=? amount) && (amount <? 2 ^ 64) then Ok amount else Panic.

Definition GetRagnarokBlockHeight (k : Store) : Z :=
  getInt64 k (GetKey prefixRagnarokHeight "") 0.
Definition RagnarokInProgress (k : Store) : bool := 0 <? GetRagnarokBlockHeight k.

(** [thor] tells a THORChain address ([Address.IsChain]). *)
Definition GetLiquidityProvider (k : Store) (thor : Address -> bool) (asset : Asset)
    (addr : Address) : LiquidityProvider :=
  let record :=
    if thor addr then mkLiquidityProvider asset addr "" 0 0 0 0 0 "" 0 0
    else mkLiquidityProvider asset "" addr 0 0 0 0 0 "" 0 0 in
  default record (kLPs k !! GetKey prefixLiquidityProvider (LP_Key record)).
Definition SetLiquidityProvider (k : Store) (lp : LiquidityProvider) : Store :=
  with_lps k (<[GetKey prefixLiquidityProvider (LP_Key lp) := lp]> (kLPs k)).
Definition RemoveLiquidityProvider (k : Store) (lp : LiquidityProvider) : Store :=
  with_lps k (delete (GetKey prefixLiquidityProvider (LP_Key lp)) (kLPs k)).

(** *** keeper_network.go *)
Definition GetPOL (k : Store) : ProtocolOwnedLiquidity := default NewProtocolOwnedLiquidity (kPOL k).
Definition SetPOL (k : Store) (data : ProtocolOwnedLiquidity) : Store := with_pol k (Some data).

(** *** keeper_swap_queue.go, keeper_streaming_swap.go *)
Definition formatSwapQueueItemKey (txID : TxID) (i : Z) : string := txID ++ "-" ++ itoa i.
Definition SetSwapQueueItem (k : Store) (msg : MsgSwap) (i : Z) : Store :=
  with_swap_queue k
    (<[GetKey prefixSwapQueueItem (formatSwapQueueItemKey (txID (mTx msg)) i) := msg]>
       (kSwapQueue k)).
Definition HasSwapQueueItem (k : Store) (txID : TxID) (i : Z) : bool :=
  bool_decide (is_Some (kSwapQueue k !!
    GetKey prefixSwapQueueItem (formatSwapQueueItemKey txID i))).
Definition RemoveSwapQueueItem (k : Store) (txID : TxID) (i : Z) : Store :=
  with_swap_queue k
    (delete (GetKey prefixSwapQueueItem (formatSwapQueueItemKey txID i)) (kSwapQueue k)).

(** *** keeper_txin.go *)
Definition GetObservedTxInVoter (k : Store) (hash : TxID) : ObservedTxVoter :=
  default (NewObservedTxVoter hash []) (kTxInVoters k !! GetKey prefixObservedTxIn hash).
Definition SetObservedTxInVoter (k : Store) (tx : ObservedTxVoter) : Store :=
  with_tx_in_voters k (<[GetKey prefixObservedTxIn (ovTxID tx) := tx]> (kTxInVoters k)).

Definition GetStreamingSwap (k : Store) (hash : TxID) : StreamingSwap :=
  default (NewStreamingSwap hash 0 0 0 0) (kStreaming k !! GetKey prefixStreamingSwap hash).
Definition StreamingSwapExists (k : Store) (hash : TxID) : bool :=
  bool_decide (is_Some (kStreaming k !! GetKey prefixStreamingSwap hash)).
Definition SetStreamingSwap (k : Store) (swp : StreamingSwap) : Store :=
  match StreamingSwap_Valid swp with
  | Some _ => k
  | None => with_streaming k (<[GetKey prefixStreamingSwap (ssTxID swp) := swp]> (kStreaming k))
  end.
Definition RemoveStreamingSwap (k : Store) (hash : TxID) : Store :=
  with_streaming k (delete (GetKey prefixStreamingSwap hash) (kStreaming k)).

(** *** keeper_liquidity_fees.go

    [Uint64] panics on a total of more than 64 bits. *)
Definition uint64_or_panic (z : Z) : outcome Z :=
  if (0 <=? z) && (z <? 2 ^ 64) then Ok z else Panic.

Definition GetTotalLiquidityFees (k : Store) (height : Z) : Z :=
  getUint64 k (GetKey prefixTotalLiquidityFee (itoa height)) 0.
Definition GetPoolLiquidityFees (k : Store) (height : Z) (asset : Asset) : Z :=
  getUint64 k (GetKey prefixPoolLiquidityFee (itoa height ++ "-" ++ Asset_String asset)) 0.
Definition GetRollingPoolLiquidityFee (k : Store) (asset : Asset) : Z :=
  getUint64 k (GetKey prefixRollingPoolLiquidityFee (Asset_String asset)) 0.

Definition AddToLiquidityFees (k : Store) (asset : Asset) (fee : Z) : outcome Store :=
  let currentHeight := u64 (kHeight k) in
  let totalFees := GetTotalLiquidityFees k currentHeight in
  let poolFees := GetPoolLiquidityFees k currentHeight asset in
  totalFees ← uint_add totalFees fee;
  poolFees ← uint_add poolFees fee;
  totalFees ← uint64_or_panic totalFees;
  let k := setUint64 k (GetKey prefixTotalLiquidityFee (itoa currentHeight)) totalFees in
  poolFees ← uint64_or_panic poolFees;
  let k := setUint64 k
    (GetKey prefixPoolLiquidityFee (itoa currentHeight ++ "-" ++ Asset_String asset)) poolFees in
  let currentValue := GetRollingPoolLiquidityFee k asset in
  fee ← uint64_or_panic fee;
  Ok (setUint64 k (GetKey prefixRollingPoolLiquidityFee (Asset_String asset))
    (u64 (currentValue + fee))).

(** *** keeper_swap_slip.go *)
Definition GetPoolSwapSlip (k : Store) (height : Z) (asset : Asset) : Z :=
  getInt64 k (GetKey prefixPoolSwapSlip (itoa height ++ "-" ++ Asset_String asset)) 0.

(** [Int64] panics on a total that is not an [int64]. *)
Definition AddToSwapSlip (k : Store) (asset : Asset) (amt : Z) : outcome Store :=
  poolSlip ← int_add (GetPoolSwapSlip k (kHeight k) asset) amt;
  if (- 2 ^ 63 <=? poolSlip) && (poolSlip <? 2 ^ 63)
  then Ok (setInt64 k
    (GetKey prefixPoolSwapSlip (itoa (kHeight k) ++ "-" ++ Asset_String asset)) poolSlip)
  else Panic.

(** *** keeper.go: module accounts.  The callers modelled here pass one coin. *)
Definition SendFromModuleToModule (k : Store) (from to : string) (coin : Coin) : outcome Store :=
  b ← bank_send from to (Asset_Native (cAsset coin)) (cAmount coin) (kBank k);
  Ok (with_bank k b).

(** An account is named after its address; no account has the name of a module,
    since the bank refuses to pay the address of one ([BlockedAddresses]). *)
Definition account_name (a : AccAddress) : string := "acct:" ++ acc_string a.
Definition SendFromModuleToAccount (k : Store) (from : string) (to : AccAddress) (coin : Coin) :
    outcome Store :=
  b ← bank_send from (account_name to) (Asset_Native (cAsset coin)) (cAmount coin) (kBank k);
  Ok (with_bank k b).

Definition SendFromAccountToModule (k : Store) (from : AccAddress) (to : string) (coin : Coin) :
    outcome Store :=
  b ← bank_send (account_name from) to (Asset_Native (cAsset coin)) (cAmount coin) (kBank k);
  Ok (with_bank k b).

(** [Coin.Native]: the denomination and the amount. *)
Definition Coin_Native (c : Coin) : outcome (string * Z) :=
  if negb (Coin_IsNative c) then Err "coin is not on thorchain"
  else Ok (Asset_Native (cAsset c), cAmount c).

Definition BurnFromModule (k : Store) (module : string) (coin : Coin) : outcome Store :=
  '(d, n) ← wrap_err "fail to parse coins: " (Coin_Native coin);
  b ← wrap_err "fail to burn assets: " (bank_burn module d n (kBank k));
  Ok (with_bank k b).

Definition HaltEverything (k : Store) : Store :=
  SetMimir (SetMimir (SetMimir (SetMimir k "HaltTrading" 1) "HaltChainGlobal" 1) "PauseLP" 1)
    "HaltTHORChain" 1.

(** The coin left to mint after the circuit breaker, and the state after the
    Reserve lent the rest. *)
Definition circuit_breaker (k : Store) (module : string) (coin : Coin) :
    outcome (Store * Coin) :=
  let maxAmt := GetMimir k "MaxDecaSupply" in
  if Coin_IsDeca coin && (0 <? maxAmt) then
    currentSupply ← GetTotalSupply k DecaAsset;
    availableSupply ← SafeSub (u64 maxAmt) currentSupply;
    if availableSupply <? cAmount coin then
      borrowReserveAmt ← SafeSub (cAmount coin) availableSupply;
      amount ← SafeSub (cAmount coin) borrowReserveAmt;
      k ← SendFromModuleToModule k ReserveName module (NewCoin DecaAsset borrowReserveAmt);
      Ok (k, mkCoin (cAsset coin) amount (cDecimals coin))
    else Ok (k, coin)
  else Ok (k, coin).

Definition MintToModule (k : Store) (module : string) (coin : Coin) : outcome Store :=
  '(k, coin) ← circuit_breaker k module coin;
  if cAmount coin =? 0 then Ok k
  else
    '(d, n) ← wrap_err "fail to parse coins: " (Coin_Native coin);
    b ← wrap_err "fail to mint assets: " (bank_mint module d n (kBank k));
    let k := with_bank k b in
    let coin2 := bank_supply (kBank k) (Asset_Native DecaAsset) in
    let maxAmt := GetMimir k "MaxDecaSupply" in
    if (0 <? maxAmt) && (maxAmt <? coin2) then Ok (HaltEverything k) else Ok k.
End keeper.

(** ** Lemmas *)

(** Two keys of the same prefix are the same record exactly when they agree up
    to case. *)
Lemma string_app_inj (p s t : string) : (p ++ s = p ++ t)%string -> s = t.
Proof. induction p as [|c p IH]; simpl; [done|]. intros [= H]. auto. Qed.

Lemma GetKey_inj p k1 k2 : GetKey p k1 = GetKey p k2 <-> to_upper k1 = to_upper k2.
Proof.
  unfold GetKey. split; [|by intros ->]. intros H%string_app_inj. by injection H.
Qed.

Section keeper_lemmas.
Context {B : Type} `{Bank B} `{!BankOk B} {K : SdkKeys} {S : SdkMath} `{!SdkMathOk S}.

Lemma GetMimir_SetMimir (k : KVStore B) key key' v :
  GetMimir (SetMimir k key v) key' = (if equal_fold key key' then v else GetMimir k key').
Proof.
  unfold GetMimir, SetMimir, getInt64, setInt64. simpl.
  destruct (equal_fold key key') eqn:E.
  - apply equal_fold_spec in E. rewrite (proj2 (GetKey_inj prefixMimir key key') E).
    by rewrite lookup_insert_eq.
  - rewrite lookup_insert_ne; [done|]. rewrite GetKey_inj. intros Hk%equal_fold_spec. congruence.
Qed.

Lemma Asset_Native_deca a : IsDeca a = true -> Asset_Native a = "deca".
Proof. unfold Asset_Native. by intros ->. Qed.

(** Balances and supplies of the native coin. *)
Definition deca_of (k : KVStore B) (module : string) : Z := bank_balance (kBank k) module "deca".
Definition deca_supply (k : KVStore B) : Z := bank_supply (kBank k) "deca".

Lemma GetTotalSupply_inv k asset n : GetPoolRagnarokStart k (GetLayer1Asset asset) <= 0 ->
  GetTotalSupply k asset = Ok n ->
  n = bank_supply (kBank k) (Asset_Native asset) /\ is_u64 n.
Proof.
  unfold GetTotalSupply, is_u64. intros Hr Hn.
  destruct (Z.ltb_spec 0 (GetPoolRagnarokStart k (GetLayer1Asset asset))); [lia|].
  case_if_in Hn; [|done]. simplify_eq. apply andb_true_iff in E as [? ?]. z_bool. lia.
Qed.

(** What the circuit breaker leaves to mint, and what the Reserve lent. *)
Lemma circuit_breaker_spec k module coin k1 c1 : module <> ReserveName ->
  Coin_IsDeca coin = true -> is_uint (cAmount coin) -> is_i64 (GetMimir k "MaxDecaSupply") ->
  GetPoolRagnarokStart k DecaAsset <= 0 -> circuit_breaker k module coin = Ok (k1, c1) ->
  let cap := GetMimir k "MaxDecaSupply" in
  cAsset c1 = cAsset coin /\ 0 <= cAmount c1 <= cAmount coin /\ kInts k1 = kInts k /\
  deca_of k1 module = deca_of k module + (cAmount coin - cAmount c1) /\
  deca_of k1 ReserveName = deca_of k ReserveName - (cAmount coin - cAmount c1) /\
  deca_supply k1 = deca_supply k /\
  (cap <= 0 -> cAmount c1 = cAmount coin) /\
  (0 < cap -> deca_supply k + cAmount c1 <= Z.max (deca_supply k) cap).
Proof using BankOk0 SdkMathOk0.
  intros Hm Hd Ha Hcap Hrag Hc. unfold circuit_breaker in Hc. rewrite Hd in Hc. simpl in Hc.
  destruct (Z.ltb_spec 0 (GetMimir k "MaxDecaSupply")) as [Hpos|Hneg].
  2:{ simplify_eq. unfold is_uint in Ha. repeat split; lia. }
  ok_inv. match goal with Hs : GetTotalSupply _ _ = Ok _ |- _ =>
    apply GetTotalSupply_inv in Hs; [destruct Hs as [-> Hsu]|exact Hrag] end.
  change (bank_supply (kBank k) (Asset_Native DecaAsset)) with (deca_supply k) in *.
  rewrite u64_id in * by (unfold is_i64, is_u64 in *; lia).
  assert (Hcu : is_uint (GetMimir k "MaxDecaSupply")) by (unfold is_uint, is_i64, uint_lim in *; lia).
  apply is_uint_u64 in Hsu. math_inv. subst. unfold is_uint in Ha.
  case_if_in Hc; z_bool.
  - math_inv. subst. unfold SendFromModuleToModule in *. ok_inv.
    match goal with Hb : bank_send _ _ _ _ _ = Ok _ |- _ =>
      destruct (bank_send_ok _ _ _ _ _ _ Hb) as [Hbal Hsup] end.
    unfold deca_of, deca_supply, NewCoin in *. cbn [cAsset cAmount kBank kInts with_bank] in *.
    rewrite !Hbal, Hsup. unfold moved.
    change (Asset_Native DecaAsset) with "deca". rewrite !String.eqb_refl.
    rewrite (proj2 (String.eqb_neq module ReserveName)) by done.
    rewrite (proj2 (String.eqb_neq ReserveName module)) by done.
    repeat split; lia.
  - simplify_eq. repeat split; lia.
Qed.
End keeper_lemmas.

(** ** Properties *)

(** C18. Minting DECA never takes the supply above [MaxDecaSupply]: the module
    gets exactly the amount asked for, of which only what the cap leaves is
    minted and the rest is borrowed from the Reserve; nothing is halted unless
    the supply was above the cap already. *)
Theorem MintToModule_capped {B} `{Bank B} `{!BankOk B} {S : SdkMath} `{!SdkMathOk S}
    (k k' : KVStore B) module coin :
  module <> ReserveName -> Coin_IsDeca coin = true -> is_uint (cAmount coin) ->
  let cap := GetMimir k "MaxDecaSupply" in
  is_i64 cap -> GetPoolRagnarokStart k DecaAsset <= 0 ->
  MintToModule k module coin = Ok k' ->
  deca_of k' module = deca_of k module + cAmount coin /\
  (exists minted borrowed, 0 <= minted /\ 0 <= borrowed /\ minted + borrowed = cAmount coin /\
     deca_supply k' = deca_supply k + minted /\
     deca_of k' ReserveName = deca_of k ReserveName - borrowed /\
     (cap <= 0 -> borrowed = 0)) /\
  (0 < cap -> deca_supply k' <= Z.max (deca_supply k) cap) /\
  (deca_supply k <= cap \/ cap <= 0 -> kInts k' = kInts k).
Proof.
  intros Hm Hd Ha cap Hcap Hrag Hmint. subst cap. unfold MintToModule in Hmint. ok_inv.
  match goal with Hc : circuit_breaker _ _ _ = Ok ?p |- _ => destruct p as [k1 c1];
    destruct (circuit_breaker_spec k module coin k1 c1 Hm Hd Ha Hcap Hrag Hc)
      as (Has & Hamt & Hints & Hmod & Hres & Hsup & Hnocap & Hle); clear Hc end.
  assert (Hcap1 : GetMimir k1 "MaxDecaSupply" = GetMimir k "MaxDecaSupply")
    by (unfold GetMimir, getInt64; by rewrite Hints).
  destruct (Z.eqb_spec (cAmount c1) 0) as [H0|H0].
  { simplify_eq. split; [lia|]. split; [|split; [lia|done]].
    exists 0, (cAmount coin). repeat split; lia. }
  ok_inv. match goal with Hn : Coin_Native c1 = Ok ?p |- _ => unfold Coin_Native in Hn;
    case_if_in Hn; [done|]; simplify_eq end.
  ok_inv. match goal with Hb : bank_mint _ _ _ _ = Ok ?b |- _ =>
    destruct (bank_mint_ok _ _ _ _ _ Hb) as [Hbal Hsupb]; rename b into bk end.
  rewrite Has, (Asset_Native_deca _ Hd) in Hbal, Hsupb.
  set (k2 := with_bank k1 bk) in *.
  change (GetMimir k2 "MaxDecaSupply") with (GetMimir k1 "MaxDecaSupply") in Hmint.
  change (bank_supply (kBank k2) (Asset_Native DecaAsset)) with (deca_supply k2) in Hmint.
  rewrite Hcap1 in Hmint. set (cap := GetMimir k "MaxDecaSupply") in *. clearbody cap.
  assert (Hk2 : deca_of k2 module = deca_of k module + cAmount coin /\
    deca_of k2 ReserveName = deca_of k ReserveName - (cAmount coin - cAmount c1) /\
    deca_supply k2 = deca_supply k + cAmount c1).
  { unfold deca_of, deca_supply in *. simpl. rewrite !Hbal, Hsupb, !String.eqb_refl.
    rewrite (proj2 (String.eqb_neq ReserveName module)) by done. simpl. lia. }
  destruct Hk2 as (Hb1 & Hb2 & Hb3).
  assert (Hfinal : deca_of k' module = deca_of k2 module /\
    deca_of k' ReserveName = deca_of k2 ReserveName /\ deca_supply k' = deca_supply k2 /\
    (deca_supply k <= cap \/ cap <= 0 -> kInts k' = kInts k)).
  { destruct (Z.ltb_spec 0 cap), (Z.ltb_spec cap (deca_supply k2)); simplify_eq/=; try done.
    split; [done|]. split; [done|]. split; [done|]. lia. }
  destruct Hfinal as (-> & -> & -> & Hi). split; [done|].
  split; [|split; [lia|done]]. exists (cAmount c1), (cAmount coin - cAmount c1). lia.
Qed.

(** ** The properties at concrete inputs *)

Definition demo_bank : SimpleBank :=
  mkSimpleBank {[("reserve", "deca") := 500; ("asgard", "deca") := 20]} {["deca" := 990]}.
Definition demo_store : KVStore SimpleBank :=
  SetMimir (empty_store demo_bank 7) "MaxDecaSupply" 1000.

Lemma MintToModule_capped_witness : exists k',
  MintToModule (S := sdk_std) demo_store ModuleName (NewCoin DecaAsset 25) = Ok k' /\
  deca_of k' ModuleName = 25 /\ deca_supply k' = 1000 /\ deca_of k' ReserveName = 485.
Proof.
  eexists. split; [vm_compute; reflexivity|].
  match goal with |- deca_of ?k ModuleName = _ /\ _ => set (k' := k) end.
  destruct (MintToModule_capped (S := sdk_std) demo_store k' ModuleName (NewCoin DecaAsset 25))
    as (H1 & _ & H2 & _).
  - discriminate.
  - vm_compute. reflexivity.
  - split; vm_compute; congruence.
  - split; vm_compute; congruence.
  - vm_compute. congruence.
  - vm_compute. reflexivity.
  - split; [rewrite H1; vm_compute; reflexivity|]. split; vm_compute; reflexivity.
Defined.
