(* ===== verification/MemoParser.v ===== *)
(** The memo parser of [x/thorchain/memo/]: [memo_parser.go], [memo.go] and the
    [Parse...] method of each memo type.

    A [*parser] is threaded through a state monad: a step takes the parser and
    returns a value with the parser after it, or panics.  A method that returns
    [(Memo, error)] returns both, since some callers look at the memo although
    the error is not nil. *)
From S2P Require Import Prelude SdkMath GoStr Keys Shares Chains Assets Coins Bank Nodes Txs.
From S2P Require Import Decimal GoLib Addresses Voters Observed Mimir Pools Streaming MemoTypes.
From S2P Require Import Vaults Keeper.
Local Open Scope string_scope.
Local Open Scope Z_scope.

(** The table of short codes is looked up, not unfolded. *)
#[global] Arguments NewAssetWithShortCodesV3_1_0 : simpl never.

(** ** The third-party number readers *)
Class MemoLib : Type := {
  sdk_ParseUint : string -> outcome Z;                  (* cosmos.ParseUint *)
  sdk_ParseCoins : string -> outcome (list (string * Z)) (* cosmos.ParseCoins: denom, amount *)
}.

(** A parsed [Uint] fits 256 bits, the reader inverts the printer, and there is no
    number in an empty string. *)
Class MemoLibOk (P : MemoLib) : Prop := {
  sdk_ParseUint_empty : exists e, sdk_ParseUint "" = Err e;
  sdk_ParseUint_range s z : sdk_ParseUint s = Ok z -> is_uint z;
  sdk_ParseUint_itoa z : is_uint z -> sdk_ParseUint (itoa z) = Ok z
}.

(** Decimal digits; one coin, its amount before its denom. *)
Definition memo_lib_std : MemoLib := {|
  sdk_ParseUint s :=
    if is_digits s then
      if dec_value 0 s <? uint_lim then Ok (dec_value 0 s) else Err "out of range"
    else Err "cannot convert to big.Int";
  sdk_ParseCoins s :=
    let '(amount, denom) := digit_span s in
    if String.eqb amount "" || String.eqb denom "" then Err "invalid decimal coin expression"
    else Ok [(denom, dec_value 0 amount)]
|}.

Lemma dec_value_nonneg acc s : 0 <= acc -> str_all is_digit s = true -> 0 <= dec_value acc s.
Proof.
  revert acc. induction s as [|c s IH]; intros acc Hacc; simpl; [done|].
  intros [Hc Hs]%andb_true_iff. apply IH; [|done]. pose proof (digit_of_bounds c Hc). lia.
Qed.

#[export] Instance memo_lib_std_ok : MemoLibOk memo_lib_std.
Proof.
  split; simpl.
  - by eexists.
  - intros s z. destruct (is_digits s) eqn:Hd; [|done].
    unfold is_digits in Hd. apply andb_true_iff in Hd as [_ Hd].
    pose proof (dec_value_nonneg 0 s ltac:(lia) Hd).
    destruct (Z.ltb_spec (dec_value 0 s) uint_lim); [|done]. intros [= <-]. split; lia.
  - intros z [Hz1 Hz2]. rewrite (itoa_is_digits z Hz1), (proj2 (itoa_digits z Hz1)).
    destruct (Z.ltb_spec z uint_lim); [done|lia].
Qed.

(** ** The parser and its monad *)

Record parser (B : Type) := mkParser {
  pMemo : string;
  pTxType : TxType;
  pKeeper : option (KVStore B);        (* the context with the keeper, or nil *)
  pParts : list string;
  pErrs : list string;
  pRequired : Z
}.
Arguments mkParser {B}.
Arguments pMemo {B}.
Arguments pTxType {B}.
Arguments pKeeper {B}.
Arguments pParts {B}.
Arguments pErrs {B}.
Arguments pRequired {B}.

Definition M (B A : Type) : Type := parser B -> outcome (A * parser B).

#[export] Instance M_ret B : MRet (M B) := fun A a p => Ok (a, p).
#[export] Instance M_bind B : MBind (M B) := fun A A' f m p =>
  match m p with
  | Ok (a, p') => f a p'
  | Err e => Err e
  | Panic => Panic
  end.

Section parser.
Context {B : Type} `{Bank B} {K : SdkKeys} {S : SdkMath} {L : AddressLib} {P : MemoLib}.
(** [GetConfigInt64] reads a Mimir value or a constant. *)
Context (constants : string -> Z).
Abbreviation M := (M B) (only parsing).

Definition panic {A} : M A := fun _ => Panic.
Definition gets {A} (f : parser B -> A) : M A := fun p => Ok (f p, p).

Definition incRequired (required : bool) : M unit := fun p =>
  Ok (tt, mkParser (pMemo p) (pTxType p) (pKeeper p) (pParts p) (pErrs p)
            (if required then pRequired p + 1 else pRequired p)).

Definition addErr (err : string) : M unit := fun p =>
  Ok (tt, mkParser (pMemo p) (pTxType p) (pKeeper p) (pParts p) (pErrs p ++ [err]) (pRequired p)).

Definition add_err_if (b : bool) (err : string) : M unit := if b then addErr err else mret tt.

(** [if required || s != "" { p.addErr(...) }] *)
Definition complain (required : bool) (s err : string) : M unit :=
  add_err_if (required || negb (String.eqb s "")) err.

(** A call that may return an error, which is reported unless the field is empty
    and optional, and replaced by a default. *)
Definition or_def {A} (required : bool) (s : string) (r : outcome A) (msg : string -> string)
    (def : A) : M A :=
  match r with
  | Ok v => mret v
  | Err e => _ ← complain required s (msg e); mret def
  | Panic => panic
  end.

Definition cannot_parse (s what e : string) : string :=
  "cannot parse '" ++ s ++ "' as " ++ what ++ ": " ++ e.

Definition hasMinParams (count : Z) : M unit := fun p =>
  add_err_if (Z.of_nat (length (pParts p)) <? count)
    ("not enough parameters: " ++ itoa (Z.of_nat (length (pParts p))) ++ "/" ++ itoa count) p.

(** [p.Error()] *)
Definition newline : string := String (ascii_of_nat 10) "".
Definition Error : M goerr :=
  required ← gets pRequired;
  _ ← hasMinParams (required + 1);
  errs ← gets pErrs;
  memo ← gets pMemo;
  mret (match errs with
        | [] => None
        | _ => Some ("MEMO: " ++ memo ++ newline ++ "PARSE FAILURE(S): " ++ join "-" errs)
        end).

Definition get (idx : nat) : M string := gets (fun p => default "" (pParts p !! idx)).

Definition getSubIndex (idx subIdx : nat) : M string :=
  gets (fun p =>
    match pParts p !! idx with
    | None => ""
    | Some part => default "" (split_on "/" part !! subIdx)
    end).

(** ** Getters *)

Definition getInt64 (idx : nat) (required : bool) (def : Z) : M Z :=
  _ ← incRequired required;
  s ← get idx;
  or_def required s (ParseInt s) (cannot_parse s "an int64") def.

Definition getUint (idx : nat) (required : bool) (def : Z) : M Z :=
  _ ← incRequired required;
  s ← get idx;
  or_def required s (sdk_ParseUint s) (cannot_parse s "an uint") def.

(** The multiplier [10^exp], by repeated multiplication. *)
Fixpoint pow10_loop (n : nat) (multiplier : Z) : outcome Z :=
  match n with
  | O => Ok multiplier
  | Datatypes.S n' => multiplier ← uint_mul_u64 multiplier 10; pow10_loop n' multiplier
  end.

Definition maxExponent : Z := 77.
Definition maxUint256 : Z := 2 ^ 256 - 1.

(** Coefficient and exponent of a string with an [e]. *)
Definition scientific (s : string) : outcome Z :=
  match split_on "e" (to_lower s) with
  | [c; x] =>
      coeff ← wrap_err ("cannot parse coefficient '" ++ c ++ "' in scientific notation: ")
                (sdk_ParseUint c);
      exp ← wrap_err ("cannot parse exponent '" ++ x ++ "' in scientific notation: ") (ParseInt x);
      if exp <? 0 then Err ("the memo parser does not support fractional values: " ++ s)
      else if maxExponent <? exp then
        Err ("exponent " ++ itoa exp ++ " exceeds maximum allowed value of 77: " ++ s)
      else
        multiplier ← pow10_loop (Z.to_nat exp) 1;
        bound ← uint_quo maxUint256 multiplier;
        if negb (coeff =? 0) && (bound <? coeff) then
          Err ("coefficient " ++ itoa coeff ++ " would cause overflow when multiplied by 10^"
               ++ itoa exp ++ ": " ++ s)
        else uint_mul coeff multiplier
  | _ => Err ("cannot parse '" ++ s ++ "' as scientific notation")
  end.

Definition getUintWithScientificNotation (idx : nat) (required : bool) (def : Z) : M Z :=
  _ ← incRequired required;
  s ← get idx;
  if String.eqb s "" then
    _ ← add_err_if required "required index idx value is empty";
    mret def
  else if contains_char "e" s || contains_char "E" s then
    or_def required s (scientific s) (fun e => e) def
  else or_def required s (sdk_ParseUint s) (cannot_parse s "an uint") def.

Definition getUintWithMaxValue (idx : nat) (required : bool) (def max : Z) : M Z :=
  value ← getUint idx required def;
  if max <? value then
    s ← get idx;
    _ ← complain required s (s ++ " cannot exceed '" ++ itoa max ++ "'");
    mret max
  else mret value.

Definition getAccAddress (idx : nat) (required : bool) (def : AccAddress) : M AccAddress :=
  _ ← incRequired required;
  s ← get idx;
  or_def required s (acc_from_bech32 s) (cannot_parse s "an AccAddress") def.

Definition getAddress (idx : nat) (required : bool) (def : Address) : M Address :=
  _ ← incRequired required;
  s ← get idx;
  or_def required s (NewAddress s) (cannot_parse s "an Address") def.

Definition getThorAddress (idx : nat) (required : bool) (def : Address) : M Address :=
  _ ← incRequired required;
  s ← get idx;
  match NewAddress s with
  | Ok value =>
      if negb (Address_IsChain value THORChain) && required then
        _ ← addErr (cannot_parse s "a THOR Address" "nil"); mret def
      else mret value
  | Err e => _ ← complain required s (cannot_parse s "an Address" e); mret def
  | Panic => panic
  end.

(** memo.go: [FetchAddress] *)
Definition FetchAddress (name : string) (chain : Chain) : outcome Address :=
  match NewAddress name with
  | Ok addr => Ok addr
  | Err _ => Err (name ++ " is not recognizable")
  | Panic => Panic
  end.

Definition getAddressWithKeeper (idx : nat) (required : bool) (def : Address) (chain : Chain) :
    M Address :=
  _ ← incRequired required;
  keeper ← gets pKeeper;
  match keeper with
  | None => getAddress idx required NoAddress
  | Some _ =>
      s ← get idx;
      or_def required s (FetchAddress s chain) (cannot_parse s "an Address") NoAddress
  end.

Definition getAddressFromString (val : string) (chain : Chain) (required : bool) : M Address :=
  or_def required val (FetchAddress val chain) (cannot_parse val "an Address") NoAddress.

Definition getString (idx : nat) (required : bool) (def : string) : M string :=
  _ ← incRequired required;
  value ← get idx;
  if String.eqb value "" then
    _ ← add_err_if required ("cannot parse '" ++ value ++ "' as a string");
    mret def
  else mret value.

Definition getStringArrayBySeparator (idx : nat) (required : bool) (separator : ascii) :
    M (list string) :=
  _ ← incRequired required;
  value ← get idx;
  mret (if String.eqb value "" then [] else split_on separator value).

(** The loop of [getUintArrayBySeparator]: one bad number empties the result. *)
Fixpoint parse_uints (required : bool) (strs : list string) (result : list Z) : M (list Z) :=
  match strs with
  | [] => mret result
  | str :: strs' =>
      match sdk_ParseUint str with
      | Ok u => parse_uints required strs' (result ++ [u])
      | Err e => _ ← complain required str (cannot_parse str "an uint" e); mret []
      | Panic => panic
      end
  end.
Definition getUintArrayBySeparator (idx : nat) (required : bool) (separator : ascii) : M (list Z) :=
  _ ← incRequired required;
  value ← get idx;
  if String.eqb value "" then mret []
  else parse_uints required (split_on separator value) [].

Definition getAddressAndRefundAddressWithKeeper (idx : nat) (required : bool) (def : Address)
    (chain : Chain) : M (Address * Address) :=
  _ ← incRequired required;
  addresses ← get idx;
  keeper ← gets pKeeper;
  '(destination, refundAddress) ←
    (if contains_char "/" addresses then
       match split_n "/" 2 addresses with
       | [dest; refund] =>
           destination ←
             match keeper with
             | None => or_def required dest (NewAddress dest) (cannot_parse dest "an Address") NoAddress
             | Some _ => getAddressFromString dest chain required
             end;
           mret (destination, match NewAddress refund with Ok a => a | _ => NoAddress end)
       | _ => mret (NoAddress, NoAddress)
       end
     else
       destination ← getAddressWithKeeper idx false NoAddress chain;
       mret (destination, NoAddress));
  _ ← add_err_if (Address_IsEmpty destination && negb (Address_IsEmpty refundAddress))
        "refund address is set but destination address is empty";
  mret (destination, refundAddress).

Definition getChain (idx : nat) (required : bool) (def : Chain) : M Chain :=
  _ ← incRequired required;
  s ← get idx;
  or_def required s (NewChain s) (cannot_parse s "a chain") def.

(** An empty field that may be empty keeps the value of the failed call. *)
Definition getAsset (idx : nat) (required : bool) (def : Asset) : M Asset :=
  _ ← incRequired required;
  s ← get idx;
  match NewAssetWithShortCodesV3_1_0 s with
  | Ok value => mret value
  | Err e =>
      if required || negb (String.eqb s "")
      then _ ← addErr (cannot_parse s "an asset" e); mret def
      else mret EmptyAsset
  | Panic => panic
  end.

(** common/coin.go: [ParseCoin] *)
Definition ParseCoin (coinStr : string) : outcome Coin :=
  match split_on " " coinStr with
  | [a; s] =>
      amount ← wrap_err ("invalid coin string: " ++ coinStr ++ ": ") (sdk_ParseUint a);
      asset ← wrap_err ("invalid coin string: " ++ coinStr ++ ": ") (NewAsset s);
      Ok (NewCoin asset amount)
  | _ => Err ("invalid coin string: " ++ coinStr)
  end.

(** The two notations of [getCoin]. *)
Definition special_coin (coinStr : string) : outcome Coin :=
  let '(digits, rest) := digit_span coinStr in
  if String.eqb digits "" || String.eqb rest "" then
    Err ("cannot parse '" ++ coinStr ++ "' as coin: invalid format")
  else wrap_err ("cannot parse '" ++ coinStr ++ "' as coin: ") (ParseCoin (digits ++ " " ++ rest)).

Definition plain_coin (coinStr : string) : outcome Coin :=
  coins ← wrap_err ("cannot parse '" ++ coinStr ++ "' as coins: ") (sdk_ParseCoins coinStr);
  match coins with
  | [(denom, amount)] =>
      asset ← wrap_err ("cannot parse denom '" ++ denom ++ "' as asset: ")
                (NewAssetWithShortCodesV3_1_0 denom);
      amount ← uint_of_big amount;
      Ok (NewCoin asset amount)
  | _ => Err ("expected exactly one coin, got " ++ itoa (Z.of_nat (length coins)))
  end.

Definition getCoin (idx : nat) (required : bool) (def : Coin) : M Coin :=
  _ ← incRequired required;
  coinStr ← get idx;
  or_def required coinStr
    (if contains_any (fun c => Ascii.eqb c "~" || Ascii.eqb c "/" || Ascii.eqb c "-") coinStr
     then special_coin coinStr else plain_coin coinStr)
    (fun e => e) def.

Definition getTxID (idx : nat) (required : bool) (def : TxID) : M TxID :=
  _ ← incRequired required;
  s ← get idx;
  or_def required s (NewTxID s) (cannot_parse s "tx hash") def.

Definition getTHORName (idx : nat) (required : bool) (def : THORName) (subIndex : Z) : M THORName :=
  _ ← incRequired required;
  mret def.

Definition getBase64Bytes (idx : nat) (required : bool) (def : string) : M string :=
  _ ← incRequired required;
  s ← get idx;
  or_def required s (DecodeString s) (cannot_parse s "a base64 string") def.

(** memo.go: [parseTradeTarget] *)
Definition parseTradeTarget (limit : string) : outcome Z :=
  i ← parse_float_int limit;
  uint_of_big i.

(** ** Parsing each type *)

(** [return m, p.Error()]; [return m, err]; [return m, nil]. *)
Definition done (m : Memo) : M (Memo * goerr) := err ← Error; mret (m, err).
Definition failed (m : Memo) (err : string) : M (Memo * goerr) := mret (m, Some err).
Definition clean (m : Memo) : M (Memo * goerr) := mret (m, None).

Definition ParseLeaveMemo : M (Memo * goerr) :=
  addr ← getAccAddress 1 true "";
  done (NewLeaveMemo addr).

Definition ParseDonateMemo : M (Memo * goerr) :=
  asset ← getAsset 1 true EmptyAsset;
  done (MDonate (mkMemoBase TxDonate asset)).

(** A struct literal with no field: the zero amounts stand for [Uint{}]. *)
Definition zero_add : AddLiquidityMemo := mkAddLiquidityMemo (base TxUnknown) "" "" 0.
Definition zero_swap : SwapMemo :=
  mkSwapMemo (base TxUnknown) "" 0 "" 0 "" "" None SwapType_market 0 0 None "" [] [].

(** [common.NewAddress] without a keeper, [FetchAddress] with one. *)
Definition address_with (keeper : option (KVStore B)) (s : string) (chain : Chain) : outcome Address :=
  match keeper with None => NewAddress s | Some _ => FetchAddress s chain end.

(** [len(parts[i]) > 0] *)
Definition has_part (parts : list string) (i : nat) : bool :=
  match parts !! i with Some s => negb (String.eqb s "") | None => false end.
Definition part (parts : list string) (i : nat) : string := default "" (parts !! i).

Definition ParseAddLiquidityMemoV1 (keeper : option (KVStore B)) (asset : Asset)
    (parts : list string) : outcome AddLiquidityMemo :=
  addr ← (if has_part parts 2 then address_with keeper (part parts 2) (aChain asset) else Ok NoAddress);
  '(affAddr, affPts) ←
    (if (4 <? length parts)%nat && has_part parts 3 && has_part parts 4 then
       affAddr ← address_with keeper (part parts 3) THORChain;
       affPts ← ParseUint (part parts 4);
       Ok (affAddr, affPts)
     else Ok (NoAddress, 0));
  Ok (NewAddLiquidityMemo asset addr affAddr affPts).

Definition ParseAddLiquidityMemo : M (Memo * goerr) :=
  keeper ← gets pKeeper;
  match keeper with
  | None =>
      asset ← getAsset 1 true EmptyAsset;
      parts ← gets pParts;
      match ParseAddLiquidityMemoV1 None asset parts with
      | Ok m => clean (MAddLiquidity m)
      | Err e => failed (MAddLiquidity zero_add) e
      | Panic => panic
      end
  | Some _ =>
      asset ← getAsset 1 true EmptyAsset;
      addr ← getAddressWithKeeper 2 false NoAddress (aChain asset);
      let affChain :=
        if IsSyntheticAsset asset then GetChain (GetLayer1Asset asset) else THORChain in
      affAddr ← getAddressWithKeeper 3 false NoAddress affChain;
      affPts ← getUintWithMaxValue 4 false 0 MaxBasisPts;
      done (MAddLiquidity (NewAddLiquidityMemo asset addr affAddr affPts))
  end.

(** [types.MaxWithdrawBasisPoints] *)
Definition max_withdraw : Z := 10000.

Definition ParseWithdrawLiquidityMemo : M (Memo * goerr) :=
  asset ← getAsset 1 true EmptyAsset;
  withdrawalBasisPts ← getUintWithMaxValue 2 false max_withdraw max_withdraw;
  withdrawalAsset ← getAsset 3 false EmptyAsset;
  done (NewWithdrawLiquidityMemo asset withdrawalBasisPts withdrawalAsset).

Definition ParseDecaPoolDepositMemo : M (Memo * goerr) := clean NewDecaPoolDepositMemo.

Definition ParseDecaPoolWithdrawMemo : M (Memo * goerr) :=
  basisPoints ← getUint 1 true 0;
  affiliateAddress ← getAddressWithKeeper 2 false NoAddress THORChain;
  tn ← getTHORName 2 false (NewTHORName "" 0 []) (-1);
  affiliateBasisPoints ← getUintWithMaxValue 3 false 0 MaxBasisPts;
  done (NewDecaPoolWithdrawMemo basisPoints affiliateAddress affiliateBasisPoints tn).

(** *** Swaps *)

(** [limit/interval/quantity]; an empty part is zero. *)
Definition parse_stream (s : string) : outcome (Z * Z * Z) :=
  let parts := map (fun part => if String.eqb part "" then "0" else part) (split_n "/" 3 s) in
  slip ← wrap_err ("swap price limit:" ++ part parts 0 ++ " is invalid: ")
           (parseTradeTarget (part parts 0));
  streamInterval ←
    (if (1 <? length parts)%nat
     then wrap_err ("failed to parse stream frequency: " ++ part parts 1 ++ ": ")
            (ParseUint (part parts 1))
     else Ok 0);
  streamQuantity ←
    (if (2 <? length parts)%nat
     then wrap_err ("failed to parse stream quantity: " ++ part parts 2 ++ ": ")
            (ParseUint (part parts 2))
     else Ok 0);
  Ok (slip, streamInterval, streamQuantity).

(** The price limit with the streaming parameters: an error value ends the
    method. *)
Definition get_limits : M (outcome (Z * Z * Z)) :=
  s ← get 3;
  if contains_char "/" s then mret (parse_stream s)
  else slip ← getUintWithScientificNotation 3 false 0; mret (Ok (slip, 0, 0)).

(** The affiliates and their fees: one fee stands for all. *)
Definition get_affiliates : M (list string * list Z) :=
  affiliates ← getStringArrayBySeparator 4 false "/";
  affFeeBps ← getUintArrayBySeparator 5 false "/";
  affFeeBps ←
    (if (length affFeeBps =? 1)%nat && (1 <? length affiliates)%nat then
       fee ← getUintWithMaxValue 5 false 0 MaxBasisPts;
       mret (replicate (length affiliates) fee)
     else mret affFeeBps);
  mret (affiliates, affFeeBps).

Fixpoint total_bps (bps : list Z) (total : Z) : outcome Z :=
  match bps with
  | [] => Ok total
  | b :: bps' => total ← uint_add total b; total_bps bps' total
  end.

(** The checks on them. *)
Definition check_affiliates (k : KVStore B) (affiliates : list string) (affFeeBps : list Z) :
    outcome Z :=
  if negb (length affiliates =? length affFeeBps)%nat then
    Err "affiliate thornames and affiliate fee bps count mismatch"
  else
    let maxAffiliates :=
      GetConfigInt64 k "MultipleAffiliatesMaxCount" (constants "MultipleAffiliatesMaxCount") in
    let maxAffiliates := if maxAffiliates <? 0 then 0 else maxAffiliates in
    if maxAffiliates <? Z.of_nat (length affiliates) then
      Err ("maximum allowed affiliates is " ++ itoa maxAffiliates)
    else
      totalAffBps ← total_bps affFeeBps 0;
      if MaxBasisPts <? totalAffBps then
        Err "total affiliate fee basis points can't be more than 10000"
      else Ok totalAffBps.

Definition ParseSwapMemoV1 (keeper : option (KVStore B)) (asset : Asset) (parts : list string) :
    outcome SwapMemo :=
  if (length parts <? 2)%nat then Err "not enough parameters"
  else
    destination ←
      (if has_part parts 2 then address_with keeper (part parts 2) (aChain asset) else Ok NoAddress);
    slip ←
      (if has_part parts 3 then
         match sdk_ParseUint (part parts 3) with
         | Err _ => Err ("swap price limit:" ++ part parts 3 ++ " is invalid")
         | r => r
         end
       else Ok 0);
    '(affAddr, affPts) ←
      (if (5 <? length parts)%nat && has_part parts 4 && has_part parts 5 then
         affAddr ← address_with keeper (part parts 4) THORChain;
         affPts ← ParseUint (part parts 5);
         Ok (affAddr, affPts)
       else Ok (NoAddress, 0));
    Ok (NewSwapMemo asset destination slip affAddr affPts "" "" 0 SwapType_market 0 0
          (NewTHORName "" 0 []) "" [] []).

(** The address of the first affiliate, for the validation of the message. *)
Definition affiliate_address (affiliates : list string) (totalAffBps : Z) : M Address :=
  match affiliates with
  | affiliate :: _ =>
      if totalAffBps =? 0 then mret NoAddress else getAddressFromString affiliate THORChain false
  | [] => mret NoAddress
  end.

Definition swap_type (name : string) (slip : Z) : SwapType :=
  if equal_fold name (TxType_String TxLimitSwap) && negb (slip =? 0)
  then SwapType_limit else SwapType_market.

(** [ParseSwapMemo] with a keeper, in two stages: up to the checks of the
    affiliates, and the rest. *)
Definition finish_swap (asset : Asset) (destination refundAddress : Address) (limits : Z * Z * Z)
    (affiliates : list string) (affFeeBps : list Z) (totalAffBps : Z) : M (Memo * goerr) :=
  let '(slip, streamInterval, streamQuantity) := limits in
  name ← get 0;
  affAddr ← affiliate_address affiliates totalAffBps;
  tn ← getTHORName 4 false (NewTHORName "" 0 []) (-1);
  dexAgg ← get 6;
  dexTargetAddress ← get 7;
  dexTargetLimit ← getUintWithScientificNotation 8 false 0;
  done (MSwap (NewSwapMemo asset destination slip affAddr totalAffBps dexAgg dexTargetAddress
                 dexTargetLimit (swap_type name slip) streamQuantity streamInterval tn refundAddress
                 affiliates affFeeBps)).

Definition swap_with_keeper (k : KVStore B) : M (Memo * goerr) :=
  asset ← getAsset 1 true EmptyAsset;
  '(destination, refundAddress) ←
    getAddressAndRefundAddressWithKeeper 2 false NoAddress (aChain asset);
  limits ← get_limits;
  match limits with
  | Panic => panic
  | Err e => failed (MSwap zero_swap) e
  | Ok limits =>
      '(affiliates, affFeeBps) ← get_affiliates;
      match check_affiliates k affiliates affFeeBps with
      | Panic => panic
      | Err e => failed (MSwap zero_swap) e
      | Ok totalAffBps =>
          finish_swap asset destination refundAddress limits affiliates affFeeBps totalAffBps
      end
  end.

Definition ParseSwapMemo : M (Memo * goerr) :=
  keeper ← gets pKeeper;
  match keeper with
  | None =>
      asset ← getAsset 1 true EmptyAsset;
      parts ← gets pParts;
      match ParseSwapMemoV1 None asset parts with
      | Ok m => clean (MSwap m)
      | Err e => failed (MSwap zero_swap) e
      | Panic => panic
      end
  | Some k => swap_with_keeper k
  end.

Definition ParseModifyLimitSwap : M (Memo * goerr) :=
  source ← getCoin 1 true NoCoin;
  target ← getCoin 2 true NoCoin;
  mod_ ← getUint 3 true 0;
  done (NewModifyLimitSwapMemo source target mod_).

(** *** The others *)

Definition ParseOutboundMemo : M (Memo * goerr) :=
  txID ← getTxID 1 true BlankTxID;
  done (NewOutboundMemo txID).

Definition ParseRefundMemo : M (Memo * goerr) :=
  txID ← getTxID 1 true BlankTxID;
  done (NewRefundMemo txID).

Definition ParseBondMemo : M (Memo * goerr) :=
  addr ← getAccAddress 1 true "";
  additional ← getAccAddress 2 false "";
  operatorFee ← getInt64 3 false (-1);
  done (NewBondMemo addr additional operatorFee).

Definition ParseUnbondMemo : M (Memo * goerr) :=
  addr ← getAccAddress 1 true "";
  amt ← getUint 2 true 0;
  additional ← getAccAddress 3 false "";
  done (NewUnbondMemo addr additional amt).

Definition ParseRebondMemo : M (Memo * goerr) :=
  nodeAddress ← getAccAddress 1 true "";
  newProvider ← getAccAddress 2 true "";
  amount ← getUint 3 false 0;
  done (NewRebondMemo nodeAddress newProvider amount).

Definition ParseReserveMemo : M (Memo * goerr) := clean (MReserve (base TxReserve)).

Definition ParseMigrateMemo : M (Memo * goerr) :=
  blockHeight ← getInt64 1 true 0;
  done (NewMigrateMemo blockHeight).

Definition ParseRagnarokMemo : M (Memo * goerr) :=
  blockHeight ← getInt64 1 true 0;
  done (NewRagnarokMemo blockHeight).

Definition ParseNoOpMemo : M (Memo * goerr) :=
  action ← get 1;
  done (NewNoOpMemo action).

Definition ParseConsolidateMemo : M (Memo * goerr) := clean NewConsolidateMemo.

Definition ParseManageTHORNameMemo : M (Memo * goerr) :=
  chain ← getChain 2 true EmptyChain;
  addr ← getAddress 3 true NoAddress;
  owner ← getAccAddress 4 false "";
  preferredAsset ← getAsset 5 false EmptyAsset;
  expire ← getInt64 6 false 0;
  multiplier ← getInt64 7 false (-1);
  name ← get 1;
  done (NewManageTHORNameMemo name chain addr expire preferredAsset owner multiplier).

(** The embedded memo must parse: [embedded] is the parser with THORNames. *)
Definition ParseReferenceWriteMemo (embedded : string -> Memo * goerr) : M (Memo * goerr) :=
  asset ← getAsset 1 true EmptyAsset;
  parts ← gets pParts;
  full ← gets pMemo;
  let memo := if (2 <? length parts)%nat then part (split_n ":" 3 full) 2 else "" in
  let zero := MReferenceWrite (base TxUnknown) EmptyAsset "" in
  if String.eqb memo "" then failed zero "memo cannot be blank"
  else
    match (embedded memo).2 with
    | Some e => failed zero ("embedded memo is invalid: " ++ e)
    | None => done (NewReferenceWriteMemo asset memo)
    end.

Definition ParseReferenceReadMemo : M (Memo * goerr) :=
  parts ← gets pParts;
  match parts with
  | _ :: p1 :: _ =>
      _ ← add_err_if (String.eqb p1 "") "reference parameter is required when ':' is present";
      ref ← getString 1 true "";
      done (NewReferenceReadMemo ref)
  | _ => done (NewReferenceReadMemo "")
  end.

Definition ParseTradeAccountDeposit : M (Memo * goerr) :=
  addr ← getAccAddress 1 true "";
  done (NewTradeAccountDepositMemo addr).

Definition ParseTradeAccountWithdrawal : M (Memo * goerr) :=
  addr ← getAddress 1 true NoAddress;
  done (NewTradeAccountWithdrawalMemo addr).

Definition ParseSecuredAssetDeposit : M (Memo * goerr) :=
  addr ← getAccAddress 1 true "";
  done (NewSecuredAssetDepositMemo addr).

Definition ParseSecuredAssetWithdraw : M (Memo * goerr) :=
  addr ← getAddress 1 true NoAddress;
  done (NewSecuredAssetWithdrawMemo addr).

Definition ParseExecMemo : M (Memo * goerr) :=
  contract ← getAccAddress 1 true "";
  msg ← getBase64Bytes 2 true "";
  done (NewExecMemo contract msg).

Definition ParseSwitch : M (Memo * goerr) :=
  addr ← getAccAddress 1 true "";
  done (NewSwitchMemo addr).

Definition ParseTCYClaimMemo : M (Memo * goerr) :=
  address ← getThorAddress 1 true NoAddress;
  done (NewTCYClaimMemo address).

Definition ParseTCYStakeMemo : M (Memo * goerr) := done NewTCYStakeMemo.

Definition ParseTCYUnstakeMemo : M (Memo * goerr) :=
  bps ← getUint 1 true 0;
  done (NewTCYUnstakeMemo bps).

Definition ParseMaintMemo : M (Memo * goerr) :=
  addr ← getAccAddress 1 true "";
  done (NewMaintMemo addr).

Definition ParseOperatorRotate : M (Memo * goerr) :=
  operatorAddr ← getAccAddress 1 true "";
  done (NewOperatorRotateMemo operatorAddr).

(** ** The parser *)

Definition parse_by_type (embedded : string -> Memo * goerr) : M (Memo * goerr) :=
  t ← gets pTxType;
  match t with
  | TxLeave => ParseLeaveMemo
  | TxDonate => ParseDonateMemo
  | TxAdd => ParseAddLiquidityMemo
  | TxWithdraw => ParseWithdrawLiquidityMemo
  | TxDecaPoolDeposit => ParseDecaPoolDepositMemo
  | TxDecaPoolWithdraw => ParseDecaPoolWithdrawMemo
  | TxSwap | TxLimitSwap => ParseSwapMemo
  | TxModifyLimitSwap => ParseModifyLimitSwap
  | TxOutbound => ParseOutboundMemo
  | TxRefund => ParseRefundMemo
  | TxBond => ParseBondMemo
  | TxUnbond => ParseUnbondMemo
  | TxRebond => ParseRebondMemo
  | TxReserve => ParseReserveMemo
  | TxMigrate => ParseMigrateMemo
  | TxRagnarok => ParseRagnarokMemo
  | TxNoOp => ParseNoOpMemo
  | TxConsolidate => ParseConsolidateMemo
  | TxTHORName => ParseManageTHORNameMemo
  | TxReferenceWriteMemo => ParseReferenceWriteMemo embedded
  | TxReferenceReadMemo => ParseReferenceReadMemo
  | TxTradeAccountDeposit => ParseTradeAccountDeposit
  | TxTradeAccountWithdrawal => ParseTradeAccountWithdrawal
  | TxSecuredAssetDeposit => ParseSecuredAssetDeposit
  | TxSecuredAssetWithdraw => ParseSecuredAssetWithdraw
  | TxExec => ParseExecMemo
  | TxSwitch => ParseSwitch
  | TxTCYClaim => ParseTCYClaimMemo
  | TxTCYStake => ParseTCYStakeMemo
  | TxTCYUnstake => ParseTCYUnstakeMemo
  | TxMaint => ParseMaintMemo
  | TxOperatorRotate => ParseOperatorRotate
  | TxUnknown => failed EmptyMemo ("TxType not supported: " ++ TxType_String t)
  end.

(** [parse]: without an error, the deferred function asks for the errors again. *)
Definition parse (embedded : string -> Memo * goerr) : M (Memo * goerr) :=
  '(mem, err) ← parse_by_type embedded;
  match err with
  | Some _ => mret (mem, err)
  | None => err ← Error; mret (mem, err)
  end.

Definition newParser (keeper : option (KVStore B)) (memo : string) : outcome (parser B) :=
  if String.eqb memo "" then Err "memo can't be empty"
  else
    let memo := part (split_on "|" memo) 0 in
    let parts := split_on ":" memo in
    memoType ← StringToTxType (part parts 0);
    Ok (mkParser memo memoType keeper parts [] 0).

Definition panicked (memo : string) : Memo * goerr :=
  (EmptyMemo, Some ("panicked parsing memo(" ++ memo ++ ")")).

(** The body of both entry points: a panic is recovered into an error. *)
Definition run_parser (keeper : option (KVStore B)) (embedded : string -> Memo * goerr)
    (memo : string) : Memo * goerr :=
  match newParser keeper memo with
  | Err e => (EmptyMemo, Some e)
  | Panic => panicked memo
  | Ok p =>
      match parse embedded p with
      | Ok (r, _) => r
      | Err e => (EmptyMemo, Some e)
      | Panic => panicked memo
      end
  end.

(** A reference memo embeds another one, which is shorter. *)
Fixpoint parse_fuel (n : nat) (k : KVStore B) (memo : string) : Memo * goerr :=
  match n with
  | O => (EmptyMemo, Some "out of fuel")
  | Datatypes.S n' => run_parser (Some k) (parse_fuel n' k) memo
  end.
Definition ParseMemoWithTHORNames (k : KVStore B) (memo : string) : Memo * goerr :=
  parse_fuel (Datatypes.S (String.length memo)) k memo.

(** Without a keeper the parse of an embedded memo dereferences nil. *)
Definition ParseMemo (memo : string) : Memo * goerr := run_parser None panicked memo.
End parser.
