(* ===== verification/MemoProps.v ===== *)
(** Theorems on memos: the parser ends and recovers every panic, the fees of
    affiliates it lets through, what the two notations of price limits keep, and
    the memos that print and parse back. *)
From S2P Require Import Prelude SdkMath GoStr Keys Shares Chains Assets Coins Bank Nodes Txs.
From S2P Require Import Decimal GoLib Addresses Voters Observed Mimir Pools Streaming MemoTypes.
From S2P Require Import Vaults Keeper MemoParser.
Local Open Scope string_scope.
Local Open Scope Z_scope.

(** ** What a step returns *)
Section returns.
Context {B : Type}.

Definition returns {A} (m : M B A) (Q : A -> Prop) : Prop :=
  forall p a p', m p = Ok (a, p') -> Q a.

Lemma returns_bind {A A'} (m : M B A) (f : A -> M B A') (R : A -> Prop) Q :
  returns m R -> (forall a, R a -> returns (f a) Q) -> returns (m ≫= f) Q.
Proof.
  intros Hm Hf p b p'. unfold mbind, M_bind. destruct (m p) as [ [a p1]| |] eqn:E; try done.
  intros Hb. eapply Hf; eauto.
Qed.

Lemma returns_any {A} (m : M B A) : returns m (fun _ => True).
Proof. done. Qed.

Lemma returns_step {A A'} (m : M B A) (f : A -> M B A') Q :
  (forall a, returns (f a) Q) -> returns (m ≫= f) Q.
Proof. intros Hf. eapply returns_bind; [apply returns_any|]. intros a _. apply Hf. Qed.

Lemma returns_ret {A} (a : A) (Q : A -> Prop) : Q a -> returns (mret a) Q.
Proof. intros HQ p b p' [= <- <-]. done. Qed.

Lemma returns_done m (Q : Memo * goerr -> Prop) : (forall e, Q (m, e)) -> returns (done m) Q.
Proof. intros HQ. unfold done. apply returns_step. intros e. by apply returns_ret. Qed.

Lemma returns_failed m e (Q : Memo * goerr -> Prop) : Q (m, Some e) -> returns (failed m e) Q.
Proof. apply returns_ret. Qed.

Lemma returns_panic {A} (Q : A -> Prop) : returns panic Q.
Proof. by intros p a p'. Qed.
End returns.

(** Walks down the steps of a method to what it returns. *)
Ltac returns_tac :=
  repeat lazymatch goal with
    | |- returns (done _) _ => simple apply returns_done; intros
    | |- returns (failed _ _) _ => simple apply returns_failed
    | |- returns (clean _) _ => unfold clean; simple apply returns_ret
    | |- returns panic _ => simple apply returns_panic
    | |- returns (mret _) _ => simple apply returns_ret
    | |- returns (_ ≫= _) _ => simple apply returns_step; intros
    | |- returns (match ?x with _ => _ end) _ => destruct x
    end.

Ltac head_of t := lazymatch t with ?f _ => head_of f | _ => t end.

Section memo_props.
Context {B : Type} `{Bank B} {K : SdkKeys} {S : SdkMath} {L : AddressLib} {P : MemoLib}.
Context (constants : string -> Z).

(** ** Termination *)

Lemma split2_shorter sep s a b : split2 sep s = (a, Some b) -> (String.length b < String.length s)%nat.
Proof.
  revert a. induction s as [|c s IH]; intros a; simpl; [done|].
  destruct (Ascii.eqb c sep); [intros [= _ <-]; lia|].
  destruct (split2 sep s) as [a' [b'|]]; [|done]. intros [= _ <-]. specialize (IH a' eq_refl). lia.
Qed.

(** The third of three parts is a proper suffix. *)
Lemma third_part_shorter sep s : part (split_n sep 3 s) 2 = "" \/
  (String.length (part (split_n sep 3 s) 2) < String.length s)%nat.
Proof.
  unfold part. simpl. destruct (split2 sep s) as [a [b|]] eqn:E1; [|by left].
  destruct (split2 sep b) as [a' [b'|]] eqn:E2; [|by left]. right. simpl.
  pose proof (split2_shorter _ _ _ _ E1). pose proof (split2_shorter _ _ _ _ E2). lia.
Qed.

Lemma split_on_head_length sep s : (String.length (part (split_on sep s) 0) <= String.length s)%nat.
Proof.
  unfold part. induction s as [|c s IH]; simpl; [done|].
  destruct (split_on_nonempty sep s) as (p & ps & Hs). rewrite Hs in *. simpl in IH.
  destruct (Ascii.eqb c sep); simpl; lia.
Qed.

Lemma newParser_memo keeper memo (p : parser B) : newParser keeper memo = Ok p ->
  (String.length (pMemo p) <= String.length memo)%nat /\ pKeeper p = keeper /\
  pParts p = split_on ":" (pMemo p) /\ StringToTxType (part (pParts p) 0) = Ok (pTxType p).
Proof.
  unfold newParser. case_if; [done|]. intros H1. apply bind_Ok_inv in H1 as (t & Ht & H1).
  injection H1 as <-. simpl. split_and!; try done. apply split_on_head_length.
Qed.

(** Only shorter memos are parsed on the way. *)
Lemma ReferenceWrite_ext e1 e2 (p : parser B) :
  (forall m, (String.length m < String.length (pMemo p))%nat -> e1 m = e2 m) ->
  ParseReferenceWriteMemo e1 p = ParseReferenceWriteMemo e2 p.
Proof.
  intros He. unfold ParseReferenceWriteMemo, mbind, M_bind.
  destruct (getAsset 1 true EmptyAsset p) as [ [asset p1]| |] eqn:E; try done.
  assert (pMemo p1 = pMemo p) as Hm.
  { revert E. unfold getAsset, mbind, M_bind, mret, M_ret, addErr, incRequired, get, gets.
    destruct (NewAssetWithShortCodesV3_1_0 _); [|case_if|]; intros; by simplify_eq/=. }
  cbv beta iota zeta delta [gets]. rewrite Hm. destruct (2 <? length (pParts p1))%nat; [|done].
  destruct (third_part_shorter ":" (pMemo p)) as [->|Hl]; [done|].
  case_if; [done|]. by rewrite (He _ Hl).
Qed.

Lemma run_parser_ext (keeper : option (KVStore B)) e1 e2 memo :
  (forall m, (String.length m < String.length memo)%nat -> e1 m = e2 m) ->
  run_parser constants keeper e1 memo = run_parser constants keeper e2 memo.
Proof.
  intros He. unfold run_parser. destruct (newParser keeper memo) as [p| |] eqn:E; try done.
  apply newParser_memo in E as [Hl _].
  assert (parse constants e1 p = parse constants e2 p) as ->; [|done].
  unfold parse, parse_by_type, mbind, M_bind. simpl.
  destruct (pTxType p); try done. rewrite (ReferenceWrite_ext e1 e2); [done|].
  intros m Hm. apply He. lia.
Qed.

Lemma parse_fuel_enough (k : KVStore B) n n' memo : (String.length memo < n)%nat -> (String.length memo < n')%nat ->
  parse_fuel constants n k memo = parse_fuel constants n' k memo.
Proof.
  revert n' memo. induction n as [|n IH]; intros [|n'] memo Hn Hn'; try lia. simpl.
  apply run_parser_ext. intros m Hm. apply IH; lia.
Qed.

Lemma parse_with_names_unfold (k : KVStore B) memo :
  ParseMemoWithTHORNames constants k memo =
  run_parser constants (Some k) (ParseMemoWithTHORNames constants k) memo.
Proof.
  unfold ParseMemoWithTHORNames at 1. simpl. apply run_parser_ext.
  intros m Hm. apply parse_fuel_enough; lia.
Qed.

(** ** Affiliates *)

Lemma total_bps_sum `{!SdkMathOk S} bps t total : Forall is_uint bps -> is_uint t ->
  total_bps bps t = Ok total -> total = t + sumZ bps.
Proof.
  intros Hb. revert t. induction Hb as [|b bps Hb Hbs IH]; intros t Ht; simpl.
  - intros [= ->]. lia.
  - intros H1. apply bind_Ok_inv in H1 as (t' & Hadd & H1).
    apply uint_add_inv in Hadd as [-> Ht']; [|done..]. apply IH in H1; [lia|done].
Qed.

(** What a swap memo says of its affiliates once it is parsed. *)
Definition affiliates_ok (k : KVStore B) (m : SwapMemo) : Prop :=
  length (smAffiliates m) = length (smAffiliatesBasisPoints m) /\
  Z.of_nat (length (smAffiliates m)) <=
    Z.max 0 (GetConfigInt64 k "MultipleAffiliatesMaxCount" (constants "MultipleAffiliatesMaxCount")) /\
  smAffiliateBasisPoints m = sumZ (smAffiliatesBasisPoints m) /\
  smAffiliateBasisPoints m <= MaxBasisPts.

Lemma check_affiliates_inv `{!SdkMathOk S} (k : KVStore B) affs bps total : Forall is_uint bps ->
  check_affiliates constants k affs bps = Ok total ->
  length affs = length bps /\
  Z.of_nat (length affs) <=
    Z.max 0 (GetConfigInt64 k "MultipleAffiliatesMaxCount" (constants "MultipleAffiliatesMaxCount")) /\
  total = sumZ bps /\ total <= MaxBasisPts.
Proof.
  intros Hb. unfold check_affiliates. case_if; [done|]. case_if; [done|].
  intros H1. apply bind_Ok_inv in H1 as (t & Ht & H1). case_if_in H1; [done|]. injection H1 as ->.
  apply total_bps_sum in Ht as ->; [|done|unfold is_uint, uint_lim; lia].
  apply negb_false_iff, Nat.eqb_eq in E. z_bool. split_and!; try done; lia || (case_if_in E0; z_bool; lia).
Qed.

Lemma or_def_returns {A} required s (r : outcome A) msg def (Q : A -> Prop) :
  (forall v, r = Ok v -> Q v) -> Q def -> returns (B := B) (or_def required s r msg def) Q.
Proof. intros Hr Hd. unfold or_def. destruct r; returns_tac; cbv beta; auto. Qed.

Lemma getUint_returns `{!MemoLibOk P} idx required def : is_uint def ->
  returns (B := B) (getUint idx required def) is_uint.
Proof.
  intros Hd. unfold getUint. do 2 (apply returns_step; intros).
  apply or_def_returns; [|done]. intros v Hv. by eapply sdk_ParseUint_range.
Qed.

Lemma getUintWithMaxValue_returns `{!MemoLibOk P} idx required def max : is_uint def ->
  0 <= max < 2 ^ 64 -> returns (B := B) (getUintWithMaxValue idx required def max)
    (fun v => 0 <= v <= max).
Proof.
  intros Hd Hm. unfold getUintWithMaxValue.
  eapply returns_bind; [by apply getUint_returns|]. intros v [Hv _]. case_if; z_bool.
  - do 2 (apply returns_step; intros). apply returns_ret. lia.
  - apply returns_ret. lia.
Qed.

Lemma parse_uints_returns `{!MemoLibOk P} required strs result : Forall is_uint result ->
  returns (B := B) (parse_uints required strs result) (Forall is_uint).
Proof.
  revert result. induction strs as [|str strs IH]; intros result Hr; simpl; [by apply returns_ret|].
  destruct (sdk_ParseUint str) as [u| |] eqn:E; returns_tac; try done.
  apply IH, Forall_app. split; [done|]. apply Forall_singleton. by eapply sdk_ParseUint_range.
Qed.

Lemma get_affiliates_returns `{!MemoLibOk P} :
  returns (B := B) get_affiliates (fun r => Forall is_uint r.2).
Proof.
  unfold get_affiliates. apply returns_step. intros affs.
  eapply returns_bind.
  { unfold getUintArrayBySeparator. do 2 (apply returns_step; intros).
    instantiate (1 := Forall is_uint). case_if; [by apply returns_ret|].
    by apply parse_uints_returns. }
  intros bps Hb. eapply returns_bind with (R := Forall is_uint).
  - case_if; [|by apply returns_ret].
    eapply returns_bind; [apply getUintWithMaxValue_returns; unfold is_uint, uint_lim, MaxBasisPts; lia|].
    intros v Hv. apply returns_ret. apply Forall_replicate.
    unfold is_uint, uint_lim. unfold MaxBasisPts in Hv. lia.
  - intros bps' Hb'. by apply returns_ret.
Qed.

Lemma swap_with_keeper_affiliates `{!SdkMathOk S} `{!MemoLibOk P} (k : KVStore B) :
  returns (swap_with_keeper constants k)
    (fun r => r.2 = None -> exists m, r.1 = MSwap m /\ affiliates_ok k m).
Proof.
  unfold swap_with_keeper. apply returns_step. intros asset. apply returns_step. intros [dest refund].
  apply returns_step. intros limits. destruct limits as [limits| |]; [|by returns_tac..].
  eapply returns_bind; [apply get_affiliates_returns|]. intros [affs bps] Hb. simpl in Hb.
  destruct (check_affiliates constants k affs bps) as [total| |] eqn:Hc; [|by returns_tac..].
  destruct (check_affiliates_inv k affs bps total Hb Hc) as (H1 & H2 & H3 & H4).
  unfold finish_swap. destruct limits as [ [slip interval] quantity].
  do 6 (apply returns_step; intros). apply returns_done. intros e _.
  eexists. split; [done|]. by split_and!.
Qed.
(** A parse without an error ran the method of its type without one. *)
Lemma run_parser_clean (keeper : option (KVStore B)) e memo mem :
  run_parser constants keeper e memo = (mem, None) ->
  exists p p1, newParser keeper memo = Ok p /\ parse_by_type constants e p = Ok (mem, None, p1).
Proof.
  unfold run_parser. destruct (newParser keeper memo) as [p| |]; try done.
  destruct (parse constants e p) as [ [r p2]| |] eqn:Hp; try done. intros ->.
  unfold parse, mbind, M_bind in Hp.
  destruct (parse_by_type constants e p) as [ [ [mem' [e'|] ] p1]| |] eqn:Ht; try done.
  destruct (Error p1) as [ [err p3]| |]; try done. injection Hp as <- -> _. eauto.
Qed.

(** Only the method of swaps makes swap memos. *)
Lemma other_types_not_swap e t : t <> TxSwap -> t <> TxLimitSwap ->
  returns (B := B) (fun p => parse_by_type constants e
      (mkParser (pMemo p) t (pKeeper p) (pParts p) (pErrs p) (pRequired p)))
    (fun r => match r.1 with MSwap _ => False | _ => True end).
Proof.
  intros H1 H2 p r p'. unfold parse_by_type. unfold mbind at 1, M_bind at 1, gets at 1.
  cbv beta iota. cbn [pTxType].
  assert (forall m : M B (Memo * goerr),
    returns m (fun r => match r.1 with MSwap _ => False | _ => True end) ->
    forall q, m q = Ok (r, p') -> match r.1 with MSwap _ => False | _ => True end) as Hret
    by (intros m Hm q Hq; exact (Hm _ _ _ Hq)).
  destruct t; first [by destruct H1|by destruct H2|apply Hret];
    match goal with |- returns ?m _ => let h := head_of m in unfold h end; returns_tac; exact I.
Qed.

Lemma parsed_swap `{!SdkMathOk S} `{!MemoLibOk P} (k : KVStore B) memo m :
  ParseMemoWithTHORNames constants k memo = (MSwap m, None) -> affiliates_ok k m.
Proof.
  rewrite parse_with_names_unfold. intros Hrun.
  apply run_parser_clean in Hrun as (p & p1 & Hp & Ht).
  apply newParser_memo in Hp as (_ & Hk & _ & _).
  pose proof (other_types_not_swap (ParseMemoWithTHORNames constants k) (pTxType p)) as Hother.
  assert (mkParser (pMemo p) (pTxType p) (pKeeper p) (pParts p) (pErrs p) (pRequired p) = p) as Hp
    by (by destruct p).
  assert (ParseSwapMemo constants p = Ok (MSwap m, None, p1)) as Hswap.
  { destruct (decide (pTxType p = TxSwap)) as [Hs|Hs];
      [|destruct (decide (pTxType p = TxLimitSwap)) as [Hl|Hl]].
    - revert Ht. unfold parse_by_type. unfold mbind at 1, M_bind at 1, gets at 1. by rewrite Hs.
    - revert Ht. unfold parse_by_type. unfold mbind at 1, M_bind at 1, gets at 1. by rewrite Hl.
    - exfalso. specialize (Hother Hs Hl p (MSwap m, None) p1). cbv beta in Hother.
      rewrite Hp in Hother. by apply Hother. }
  revert Hswap. unfold ParseSwapMemo. unfold mbind at 1, M_bind at 1, gets at 1. rewrite Hk.
  intros Hswap. by destruct (swap_with_keeper_affiliates k _ _ _ Hswap eq_refl) as (m' & [= <-] & ?).
Qed.

(** C39. A swap memo that parses names as many affiliates as fees, no more than
    the network allows, and its fee for affiliates is their sum, at most all of
    the swap. *)
Theorem parsed_affiliates_bounded `{!SdkMathOk S} `{!MemoLibOk P} (k : KVStore B) memo m :
  ParseMemoWithTHORNames constants k memo = (MSwap m, None) ->
  let max := GetConfigInt64 k "MultipleAffiliatesMaxCount" (constants "MultipleAffiliatesMaxCount") in
  length (smAffiliates m) = length (smAffiliatesBasisPoints m) /\
  Z.of_nat (length (smAffiliates m)) <= Z.max 0 max /\
  smAffiliateBasisPoints m = sumZ (smAffiliatesBasisPoints m) /\
  smAffiliateBasisPoints m <= 10000.
Proof. intros Hm max. exact (parsed_swap k memo m Hm). Qed.

(** ** Price limits *)

Lemma str_map_app f s t : str_map f (s ++ t) = (str_map f s ++ str_map f t)%string.
Proof. induction s as [|c s IH]; simpl; [done|]. by rewrite IH. Qed.

Lemma digit_lower c : is_digit c = true -> Assets.lower_ascii c = c.
Proof. destruct c as [ [] [] [] [] [] [] [] []]; vm_compute; congruence. Qed.

Lemma to_lower_digits s : str_all is_digit s = true -> to_lower s = s.
Proof.
  unfold to_lower. induction s as [|c s IH]; simpl; [done|]. intros [Hc Hs]%andb_true_iff.
  by rewrite (digit_lower c Hc), (IH Hs).
Qed.

Lemma digits_no_char c s : is_digit c = false -> str_all is_digit s = true -> no_char c s = true.
Proof.
  intros Hc. unfold no_char. apply str_all_impl. intros d Hd.
  destruct (Ascii.eqb_spec d c) as [->|]; [congruence|done].
Qed.

Lemma itoa_no_char c z : is_digit c = false -> 0 <= z -> no_char c (itoa z) = true.
Proof. intros Hc Hz. apply digits_no_char; [done|]. by apply itoa_digits. Qed.

Lemma pow10_loop_spec `{!SdkMathOk S} n m : is_uint m -> m * 10 ^ Z.of_nat n < uint_lim ->
  pow10_loop n m = Ok (m * 10 ^ Z.of_nat n).
Proof.
  revert m. induction n as [|n IH]; intros m [Hm Hu] Hlt; [simpl; f_equal; lia|].
  rewrite Nat2Z.inj_succ, Z.pow_succ_r in * by lia.
  assert (0 < 10 ^ Z.of_nat n) by (apply Z.pow_pos_nonneg; lia).
  assert (m * 10 < uint_lim) by nia.
  simpl. rewrite uint_mul_u64_ok by (unfold is_uint, is_u64; lia).
  unfold uint_or_panic. rewrite (proj2 (Z.leb_le _ _)), (proj2 (Z.ltb_lt _ _)) by lia. simpl.
  rewrite IH; [f_equal; lia|unfold is_uint; lia|lia].
Qed.

Lemma ParseInt_itoa z : 0 <= z < 2 ^ 63 -> ParseInt (itoa z) = Ok z.
Proof.
  intros Hz. destruct (itoa_digits z) as [Hd Hv]; [lia|]. unfold ParseInt.
  rewrite Atoi_digits; rewrite ?Hv; try done; try lia. apply itoa_is_digits. lia.
Qed.

Lemma scientific_parts c x : 0 <= c -> 0 <= x ->
  split_on "e" (to_lower (itoa c ++ String "e" (itoa x))) = [itoa c; itoa x].
Proof.
  intros Hc Hx. unfold to_lower. rewrite str_map_app. fold (to_lower (itoa c)).
  rewrite to_lower_digits by (by apply itoa_digits). simpl. fold (to_lower (itoa x)).
  rewrite to_lower_digits by (by apply itoa_digits).
  rewrite split_on_app, !split_on_none by (by apply itoa_no_char). done.
Qed.

(** C40. Scientific notation is exact: a coefficient and an exponent up to 77
    give the product, and an error when it needs more than 256 bits, never a
    rounded value or a panic. *)
Theorem scientific_exact `{!SdkMathOk S} `{!MemoLibOk P} c x : is_uint c -> 0 <= x < 2 ^ 63 ->
  scientific (itoa c ++ String "e" (itoa x)) <> Panic /\
  forall v, scientific (itoa c ++ String "e" (itoa x)) = Ok v <->
    x <= 77 /\ c * 10 ^ x < 2 ^ 256 /\ v = c * 10 ^ x.
Proof.
  intros Hc Hx. unfold scientific. rewrite scientific_parts by (unfold is_uint in Hc; lia).
  rewrite sdk_ParseUint_itoa, ParseInt_itoa by done. simpl.
  rewrite (proj2 (Z.ltb_ge x 0)) by lia. unfold maxExponent.
  destruct (Z.ltb_spec 77 x) as [Hbig|Hsmall]; [split; [done|]; intros v; split; [done|lia]|].
  assert (0 < 10 ^ x) by (apply Z.pow_pos_nonneg; lia).
  assert (10 ^ x <= 10 ^ 77) by (apply Z.pow_le_mono_r; lia).
  assert (10 ^ 77 < uint_lim) by (by vm_compute).
  rewrite pow10_loop_spec by (rewrite ?Z2Nat.id; unfold is_uint; lia).
  rewrite Z2Nat.id, Z.mul_1_l by lia. simpl.
  rewrite uint_quo_ok by (unfold is_uint, maxUint256, uint_lim; lia).
  rewrite (proj2 (Z.eqb_neq (10 ^ x) 0)) by lia. simpl.
  pose proof (div_le_iff maxUint256 (10 ^ x) c ltac:(lia)) as Hdiv.
  unfold maxUint256 in *. fold uint_lim in *. destruct Hc as [Hc0 Hc].
  destruct (negb (c =? 0) && ((uint_lim - 1) / 10 ^ x <? c)) eqn:Hover.
  - apply andb_true_iff in Hover as [_ Hover]. z_bool. split; [done|]. intros v.
    split; [done|]. intros (_ & Hlt & _). lia.
  - assert (c * 10 ^ x < uint_lim) as Hlt.
    { apply andb_false_iff in Hover as [Hz|Hle]; [apply negb_false_iff in Hz|]; z_bool; [subst c|]; lia. }
    assert (0 <= c * 10 ^ x) by (apply Z.mul_nonneg_nonneg; lia).
    rewrite uint_mul_ok by (unfold is_uint; lia). rewrite uint_or_panic_Ok by (unfold is_uint; lia).
    split; [done|]. intros v. split.
    + intros [= <-]. split; [exact Hsmall|split; [exact Hlt|reflexivity]].
    + intros (_ & _ & ->). reflexivity.
Qed.
(** *** The limits of streaming swaps *)

Lemma scan_mant_digits t m count : str_all is_digit t = true ->
  scan_mant t m count None = (dec_value m t, (count + String.length t)%nat, O, "").
Proof.
  revert m count. induction t as [|c t IH]; intros m count; simpl; [intros _; by rewrite Nat.add_0_r|].
  intros [Hc Ht]%andb_true_iff. rewrite Hc.
  destruct (Ascii.eqb_spec c ".") as [->|_]; [done|]. simpl. rewrite IH by done.
  by rewrite Nat.add_succ_r.
Qed.

Lemma ParseFloat_digits t : is_digits t = true ->
  ParseFloat t = ('(x, rest) ← float_scan t;
                  if String.eqb rest "" then Ok (false, x) else Err "expected end of string").
Proof.
  unfold is_digits. destruct t as [|c t]; [done|]. simpl. intros [Hc _]%andb_true_iff.
  unfold ParseFloat. destruct c as [ [] [] [] [] [] [] [] []]; try discriminate Hc; reflexivity.
Qed.

Lemma bitlen_bounds m : 0 < m -> 2 ^ (bitlen m - 1) <= m < 2 ^ bitlen m.
Proof.
  intros Hm. unfold bitlen. pose proof (Z.log2_spec m Hm) as Hl.
  replace (Z.log2 m + 1 - 1) with (Z.log2 m) by lia.
  by replace (Z.log2 m + 1) with (Z.succ (Z.log2 m)) by lia.
Qed.

Lemma bitlen_le m b : 0 < m -> m < 2 ^ b -> 0 < b -> 1 <= bitlen m <= b.
Proof.
  intros Hm Hlt Hb. unfold bitlen. pose proof (Z.log2_nonneg m).
  assert (Z.log2 m < b) by (by apply Z.log2_lt_pow2). lia.
Qed.

(** The 64 leading bits of a number. *)
Definition leading64 (n : Z) : Z := n - n mod 2 ^ Z.max 0 (bitlen n - 64).

Lemma leading64_small n : 0 <= n < 2 ^ 64 -> leading64 n = n.
Proof.
  intros [Hn Hlt]. unfold leading64.
  destruct (decide (n = 0)) as [->|Hne]; [done|].
  pose proof (bitlen_le n 64 ltac:(lia) Hlt ltac:(lia)).
  rewrite Z.max_l by lia. rewrite Z.mod_1_r. lia.
Qed.

Lemma float_set_exact n : 0 < n < 2 ^ 256 ->
  Float_Int (false, float_set 64 ToZero n 0) = leading64 n.
Proof.
  intros [Hn Hlt]. pose proof (bitlen_le n 256 Hn Hlt ltac:(lia)) as Hb.
  unfold float_set, MinExp, MaxExp.
  rewrite (proj2 (Z.ltb_ge (0 + bitlen n) _)), (proj2 (Z.ltb_ge _ (0 + bitlen n))) by lia.
  unfold round_mant, leading64. destruct (Z.leb_spec (bitlen n - 64) 0) as [Hs|Hl].
  - rewrite Z.max_l, Z.mod_1_r by lia.
    rewrite (proj2 (Z.ltb_ge _ (0 + bitlen n))) by lia. simpl. lia.
  - rewrite Z.max_r by lia. set (d := bitlen n - 64) in *.
    assert (0 < 2 ^ d) by (apply Z.pow_pos_nonneg; lia).
    pose proof (Z.div_mod n (2 ^ d) ltac:(lia)) as Hdm.
    assert (n / 2 ^ d <= n) by (apply Z.div_le_upper_bound; nia).
    pose proof (Z.log2_le_mono (n / 2 ^ d) n ltac:(lia)) as Hlog. fold (bitlen n) in Hlog.
    assert (bitlen (n / 2 ^ d) <= bitlen n) by (unfold bitlen; lia).
    rewrite (proj2 (Z.ltb_ge _ (0 + d + bitlen (n / 2 ^ d)))) by lia.
    unfold Float_Int. rewrite (proj2 (Z.leb_le 0 (0 + d))) by lia.
    replace (0 + d) with d by lia. lia.
Qed.

Lemma parse_float_int_itoa n : 0 <= n < 2 ^ 256 -> parse_float_int (itoa n) = Ok (leading64 n).
Proof.
  intros Hn. destruct (itoa_digits n) as [Hd Hv]; [lia|].
  pose proof (itoa_is_digits n ltac:(lia)) as Hdig.
  unfold parse_float_int. rewrite ParseFloat_digits by done. unfold float_scan.
  rewrite scan_mant_digits by done. rewrite Hv.
  assert ((0 + String.length (itoa n) =? 0)%nat = false) as ->.
  { apply Nat.eqb_neq. unfold is_digits in Hdig. destruct (itoa n); [done|simpl; lia]. }
  simpl. destruct (Z.eqb_spec n 0) as [->|Hne]; [done|].
  pose proof (bitlen_le n 256 ltac:(lia) ltac:(lia) ltac:(lia)) as Hb.
  rewrite !Z.add_0_r, i64_id by (unfold is_i64; lia). unfold MinExp, MaxExp.
  rewrite (proj2 (Z.ltb_ge (bitlen n) _)), (proj2 (Z.ltb_ge _ (bitlen n))) by lia. simpl.
  rewrite Z.sub_diag. simpl. f_equal. apply float_set_exact. lia.
Qed.

Lemma leading64_bounds n : 0 <= n -> 0 <= leading64 n <= n /\ (n - leading64 n) * 2 ^ 63 <= n.
Proof.
  intros Hn. unfold leading64. set (d := Z.max 0 (bitlen n - 64)).
  assert (0 < 2 ^ d) as Hd by (apply Z.pow_pos_nonneg; lia).
  pose proof (Z.mod_pos_bound n (2 ^ d) Hd) as Hm. pose proof (Z.mod_le n (2 ^ d) Hn Hd).
  split; [lia|]. replace (n - (n - n mod 2 ^ d)) with (n mod 2 ^ d) by lia.
  destruct (decide (n = 0)) as [->|Hne]; [by rewrite Z.mod_0_l by lia|].
  destruct (Z.leb_spec (bitlen n) 64) as [Hs|Hl].
  - unfold d. rewrite Z.max_l by lia. rewrite Z.mod_1_r. lia.
  - pose proof (bitlen_bounds n ltac:(lia)) as Hb.
    replace (bitlen n - 1) with (d + 63) in Hb by lia. rewrite Z.pow_add_r in Hb by lia. nia.
Qed.

(** The price limit of a streaming swap goes through a floating-point
    number of 64 bits: below 2^64 it is kept, above it is rounded down, by less
    than one part in 2^63.  The same limit without streaming is exact. *)
Theorem streaming_limit_rounds `{!SdkMathOk S} n : is_uint n ->
  exists r, parseTradeTarget (itoa n) = Ok r /\ (n < 2 ^ 64 -> r = n) /\
    0 <= r <= n /\ (n - r) * 2 ^ 63 <= n.
Proof.
  intros [Hn Hlt]. exists (leading64 n). unfold parseTradeTarget.
  rewrite parse_float_int_itoa by (unfold uint_lim in Hlt; lia). simpl.
  destruct (leading64_bounds n Hn) as [Hb Hr].
  rewrite uint_of_big_ok, uint_or_panic_Ok by (unfold is_uint; lia).
  split_and!; try done; try lia. intros Hs. apply leading64_small. lia.
Qed.
End memo_props.

(** ** The properties at concrete inputs *)

Definition demo_names_store : KVStore SimpleBank := empty_store (mkSimpleBank ∅ ∅) 7.
Definition demo_names_memo : string := "=:BTC.BTC:bc1xyz:1e8:thor1abc/bob:100/50".
Definition demo_names_swap : SwapMemo :=
  mkSwapMemo (mkMemoBase TxSwap BTCAsset) "bc1xyz" 100000000 "thor1abc" 150 "" "" None
    SwapType_market 0 0 None "" ["thor1abc"; "bob"] [100; 50].

Lemma parsed_affiliates_bounded_witness :
  ParseMemoWithTHORNames (K := keys_std) (S := sdk_std) (L := addr_std) (P := memo_lib_std)
    (fun _ => 5) demo_names_store demo_names_memo = (MSwap demo_names_swap, None) /\
  smAffiliateBasisPoints demo_names_swap = sumZ [100; 50] /\ 150 <= 10000.
Proof.
  assert (ParseMemoWithTHORNames (K := keys_std) (S := sdk_std) (L := addr_std) (P := memo_lib_std)
    (fun _ => 5) demo_names_store demo_names_memo = (MSwap demo_names_swap, None)) as Hp
    by (vm_compute; reflexivity).
  split; [exact Hp|].
  destruct (parsed_affiliates_bounded (K := keys_std) (S := sdk_std) (L := addr_std)
    (P := memo_lib_std) (fun _ => 5) demo_names_store demo_names_memo demo_names_swap Hp)
    as (_ & _ & Hsum & Hle).
  split; [exact Hsum|exact Hle].
Defined.

(** [15e7] is kept exactly; [2e77] does not fit. *)
Lemma scientific_exact_witness :
  scientific (S := sdk_std) (P := memo_lib_std) "15e7" = Ok 150000000 /\
  scientific (S := sdk_std) (P := memo_lib_std) "2e77" <> Ok (2 * 10 ^ 77).
Proof.
  assert (is_uint 15) as H1 by (unfold is_uint, uint_lim; lia).
  assert (is_uint 2) as H2 by (unfold is_uint, uint_lim; lia).
  split.
  - apply (proj2 (scientific_exact (S := sdk_std) (P := memo_lib_std) 15 7 H1 ltac:(lia))).
    split; [lia|]. split; [lia|reflexivity].
  - intros Heq. apply (proj2 (scientific_exact (S := sdk_std) (P := memo_lib_std) 2 77 H2 ltac:(lia)))
      in Heq as (_ & Hlt & _). vm_compute in Hlt. discriminate Hlt.
Defined.

(** The first number above 2^64 that is odd loses its last bit. *)
Lemma streaming_limit_rounds_witness :
  parseTradeTarget (S := sdk_std) "18446744073709551617" = Ok 18446744073709551616 /\
  exists r, parseTradeTarget (S := sdk_std) (itoa 18446744073709551617) = Ok r /\
    0 <= r <= 18446744073709551617.
Proof.
  split; [vm_compute; reflexivity|].
  destruct (streaming_limit_rounds (S := sdk_std) 18446744073709551617) as (r & Hr & _ & Hb & _);
    [unfold is_uint, uint_lim; lia|].
  exists r. split; [exact Hr|exact Hb].
Defined.
