(* ===== verification/MemoRound.v ===== *)
(** Memos that print and parse back: outbound, refund, migration, ragnarok,
    donation, maintenance, execution, liquidity and swap memos. *)
From S2P Require Import Prelude SdkMath GoStr Keys Shares Chains Assets Coins Bank Nodes Txs.
From S2P Require Import Decimal GoLib Addresses Voters Observed Mimir Pools Streaming MemoTypes.
From S2P Require Import Vaults Keeper MemoParser MemoProps.
Local Open Scope string_scope.
Local Open Scope Z_scope.

(** A string that can stand between two colons. *)
Definition plain (s : string) : bool := no_char ":" s && no_char "|" s.

(** ** Strings *)

Lemma plain_app s t : plain (s ++ t) = plain s && plain t.
Proof.
  unfold plain, no_char. rewrite !str_all_app.
  repeat match goal with |- context [str_all ?f ?u] => destruct (str_all f u) end; done.
Qed.

Lemma plain_alnum (p : ascii -> bool) s : (forall c, p c = true -> c <> ":"%char /\ c <> "|"%char) ->
  str_all p s = true -> plain s = true.
Proof.
  intros Hp Hs. unfold plain, no_char. apply andb_true_iff.
  split; (eapply str_all_impl; [|exact Hs]); intros c [H1 H2]%Hp;
    by apply negb_true_iff, Ascii.eqb_neq.
Qed.

Lemma plain_digits s : str_all is_digit s = true -> plain s = true.
Proof.
  apply plain_alnum. intros c Hc. by split; intros ->.
Qed.

Lemma plain_itoa z : 0 <= z -> plain (itoa z) = true.
Proof. intros Hz. apply plain_digits. by apply itoa_digits. Qed.

Lemma itoa_nonempty z : 0 <= z -> itoa z <> "".
Proof.
  intros Hz Hn. pose proof (itoa_is_digits z Hz) as Hd. by rewrite Hn in Hd.
Qed.

Lemma plain_join ss : Forall (fun s => plain s = true) ss -> no_char "|" (join ":" ss) = true.
Proof.
  induction 1 as [|s ss Hs Hss IH]; [done|]. apply andb_true_iff in Hs as [_ Hs].
  destruct ss as [|s' ss]; [done|].
  change (join ":" (s :: s' :: ss)) with (s ++ String ":" (join ":" (s' :: ss))).
  unfold no_char in *. rewrite str_all_app, Hs. simpl in *. done.
Qed.

Lemma no_char_slash_join ss : Forall (fun s => plain s = true) ss ->
  plain (join "/" ss) = true.
Proof.
  induction 1 as [|s ss Hs Hss IH]; [done|]. destruct ss as [|s' ss]; [done|].
  change (join "/" (s :: s' :: ss)) with (s ++ String "/" (join "/" (s' :: ss))).
  rewrite plain_app, Hs. done.
Qed.

(** ** Assets and addresses in a memo *)

Definition parsed_asset (a : Asset) : Prop := exists s, NewAsset s = Ok a.

(** The keys of the short-code table have no delimiter. *)
Lemma short_code_no_delim s : find_char delim s <> None -> NewAssetWithShortCodesV3_1_0 s = NewAsset s.
Proof.
  intros Hs. unfold NewAssetWithShortCodesV3_1_0.
  set (shorts := foldl _ _ _).
  assert (map_Forall (fun k (_ : string) => find_char delim k = None) shorts) as Hall
    by (apply (bool_decide_unpack _); vm_compute; exact I).
  destruct (shorts !! s) as [long|] eqn:Hl; [|done]. by specialize (Hall s long Hl).
Qed.

Lemma symbol_char_plain c : symbol_char c = true -> c <> ":"%char /\ c <> "|"%char.
Proof. intros Hc. by split; intros ->. Qed.

Lemma upper_plain c : is_upper c = true -> c <> ":"%char /\ c <> "|"%char.
Proof. intros Hc. by split; intros ->. Qed.

Lemma parsed_asset_print a : parsed_asset a ->
  NewAssetWithShortCodesV3_1_0 (Asset_String a) = Ok a /\ plain (Asset_String a) = true.
Proof.
  intros [s Hs]. destruct (NewAsset_print s a Hs) as [Hp _].
  apply NewAsset_inv in Hs as (c & d & sym & symbol & ticker & Hc & Hd & Hsym & _ & ->).
  apply NewSymbol_upper in Hsym as Hu. destruct Hu as [-> Hsym'].
  rewrite Asset_String_delim in * by (done || apply to_upper_idemp). split.
  - rewrite short_code_no_delim; [done|].
    rewrite (find_char_app delim c d); [done| |done].
    eapply str_all_impl; [apply upper_not_delim|]. by apply Chain_Valid_upper.
  - rewrite plain_app, (plain_alnum is_upper); [|apply upper_plain|by apply Chain_Valid_upper].
    assert (plain (to_upper sym) = true) as Hps.
    { apply (plain_alnum symbol_char); [apply symbol_char_plain|].
      revert Hsym'. unfold NewSymbol, isAlphaNumeric.
      destruct (str_all symbol_char (to_upper sym)); [done|]. by rewrite andb_false_r. }
    change (String d (to_upper sym)) with (String d "" ++ to_upper sym).
    rewrite plain_app, Hps. by apply delim_cases in Hd as [->|[->|[->| ->] ] ].
Qed.

Section round.
Context {B : Type} `{Bank B} {K : SdkKeys} {S : SdkMath} {L : AddressLib} {P : MemoLib}.
Context (constants : string -> Z).

(** An address that parses and has no colon (some Bitcoin Cash ones do). *)
Definition memo_address (a : Address) : Prop := NewAddress a = Ok a /\ no_char ":" a = true.

Lemma alphaNum_not c : alphaNum_char c = true -> c <> "|"%char /\ c <> "/"%char /\ is_space c = false.
Proof. destruct c as [ [] [] [] [] [] [] [] []]; vm_compute; intros Hc; try discriminate Hc; done. Qed.

Lemma memo_address_plain a : memo_address a -> plain a = true /\ no_char "/" a = true.
Proof.
  intros [Ha Hc]. apply NewAddress_chars in Ha. unfold plain. rewrite Hc. simpl.
  split; (eapply str_all_impl; [|exact Ha]); intros c (H1 & H2 & _)%alphaNum_not;
    by apply negb_true_iff, Ascii.eqb_neq.
Qed.

Lemma memo_address_empty a : memo_address a -> Address_IsEmpty a = String.eqb a "".
Proof.
  intros [Ha _]. apply NewAddress_chars in Ha. unfold Address_IsEmpty, Address_String.
  fold (is_blank a). rewrite is_blank_all. destruct a as [|c a]; [done|]. simpl in *.
  apply andb_true_iff in Ha as [Hc _]. apply alphaNum_not in Hc as (_ & _ & ->). done.
Qed.

Lemma memo_address_nil : memo_address "".
Proof. done. Qed.

(** ** Steps that report nothing *)

Definition field (p : parser B) (i : nat) : string := default "" (pParts p !! i).

(** The parser after a step that reported nothing: more fields may be required. *)
Definition bump (r : bool) (p : parser B) : parser B :=
  mkParser (pMemo p) (pTxType p) (pKeeper p) (pParts p) (pErrs p)
    (if r then pRequired p + 1 else pRequired p).

Lemma bind_step {A A'} (m : M B A) (f : A -> M B A') p a p' :
  m p = Ok (a, p') -> (m ≫= f) p = f a p'.
Proof. intros Hm. unfold mbind, M_bind. by rewrite Hm. Qed.

Lemma bump_false p : bump false p = p.
Proof. by destruct p. Qed.

Lemma get_step p i : get i p = Ok (field p i, p).
Proof. done. Qed.

Lemma getInt64_step p i req def v : ParseInt (field p i) = Ok v ->
  getInt64 i req def p = Ok (v, bump req p).
Proof. intros Hv. unfold getInt64, mbind, M_bind, gets. simpl. fold (field p i). by rewrite Hv. Qed.

Lemma getAccAddress_step p i req def v : acc_from_bech32 (field p i) = Ok v ->
  getAccAddress i req def p = Ok (v, bump req p).
Proof. intros Hv. unfold getAccAddress, mbind, M_bind, gets. simpl. fold (field p i). by rewrite Hv. Qed.

Lemma getTxID_step p i req def v : NewTxID (field p i) = Ok v ->
  getTxID i req def p = Ok (v, bump req p).
Proof.
  intros Hv. unfold getTxID, mbind, M_bind, gets. cbn [incRequired get gets or_def].
  cbv beta iota. unfold get, gets. cbn [pParts]. fold (field p i). by rewrite Hv.
Qed.

Lemma getBase64Bytes_step p i req def v : DecodeString (field p i) = Ok v ->
  getBase64Bytes i req def p = Ok (v, bump req p).
Proof.
  intros Hv. unfold getBase64Bytes, mbind, M_bind, incRequired, get, gets. cbn [pParts].
  fold (field p i). by rewrite Hv.
Qed.

Lemma getAsset_step p i req def v : NewAssetWithShortCodesV3_1_0 (field p i) = Ok v ->
  getAsset i req def p = Ok (v, bump req p).
Proof.
  intros Hv. unfold getAsset, mbind, M_bind, incRequired, get, gets. cbn [pParts].
  fold (field p i). by rewrite Hv.
Qed.

Lemma getAddressWithKeeper_step p i def chain k : pKeeper p = Some k ->
  NewAddress (field p i) = Ok (field p i) ->
  getAddressWithKeeper i false def chain p = Ok (field p i, p).
Proof.
  intros Hk Ha. transitivity (Ok (field p i, bump false p)); [|by rewrite bump_false].
  unfold getAddressWithKeeper, mbind, M_bind, incRequired, get, gets, FetchAddress.
  cbn [pParts pKeeper]. rewrite Hk. cbn [pParts pKeeper]. fold (field p i). rewrite Ha. unfold bump. by rewrite Hk.
Qed.

(** A number printed, or a field left empty for a default. *)
Definition number_field (s : string) (z def : Z) : Prop :=
  (s = itoa z /\ is_uint z) \/ (s = "" /\ z = def).

Lemma getUint_step `{!MemoLibOk P} p i def z : number_field (field p i) z def ->
  getUint i false def p = Ok (z, p).
Proof.
  intros Hz. transitivity (Ok (z, bump false p)); [|by rewrite bump_false].
  unfold getUint, mbind, M_bind, incRequired, get, gets. cbn [pParts]. fold (field p i).
  destruct Hz as [ [-> Hu]|[-> ->] ].
  - by rewrite sdk_ParseUint_itoa.
  - destruct sdk_ParseUint_empty as [e ->]. done.
Qed.

Lemma getUintWithMaxValue_step `{!MemoLibOk P} p i def max z : number_field (field p i) z def ->
  z <= max -> getUintWithMaxValue i false def max p = Ok (z, p).
Proof.
  intros Hz Hm. unfold getUintWithMaxValue. rewrite (bind_step _ _ _ _ _ (getUint_step p i def z Hz)).
  by rewrite (proj2 (Z.ltb_ge max z)).
Qed.

Lemma getUintWithScientificNotation_step `{!MemoLibOk P} p i def z :
  number_field (field p i) z def -> getUintWithScientificNotation i false def p = Ok (z, p).
Proof.
  intros Hz. transitivity (Ok (z, bump false p)); [|by rewrite bump_false].
  unfold getUintWithScientificNotation, mbind, M_bind, incRequired, get, gets. cbn [pParts].
  fold (field p i). destruct Hz as [ [-> Hu]|[-> ->] ]; [|done].
  rewrite (proj2 (String.eqb_neq _ _)) by (apply itoa_nonempty, Hu).
  unfold contains_char. rewrite !itoa_no_char by (done || apply Hu). simpl.
  by rewrite sdk_ParseUint_itoa.
Qed.

(** ** From a method to the whole parser *)

Lemma Error_quiet (p : parser B) : pErrs p = [] -> pRequired p + 1 <= Z.of_nat (length (pParts p)) ->
  Error p = Ok (None, p).
Proof.
  intros He Hr. unfold Error, mbind, M_bind, gets, hasMinParams.
  rewrite (proj2 (Z.ltb_ge _ _)) by done. simpl. by rewrite He.
Qed.

(** No error reported, and at least the fields required. *)
Definition quiet (p : parser B) : Prop :=
  pErrs p = [] /\ pRequired p + 1 <= Z.of_nat (length (pParts p)).

Lemma done_quiet m (p : parser B) : quiet p -> done m p = Ok (m, None, p).
Proof. intros [He Hr]. unfold done. by rewrite (bind_step _ _ _ _ _ (Error_quiet p He Hr)). Qed.

Lemma run_parser_quiet (keeper : option (KVStore B)) e parts t m p1 :
  parts <> [] -> Forall (fun s => plain s = true) parts -> join_colon parts <> "" ->
  StringToTxType (part parts 0) = Ok t ->
  parse_by_type constants e (mkParser (join_colon parts) t keeper parts [] 0) = Ok (m, None, p1) ->
  quiet p1 ->
  run_parser constants keeper e (join_colon parts) = (m, None).
Proof.
  intros Hne Hplain Hj Ht Hrun [He Hr]. unfold run_parser, newParser.
  rewrite (proj2 (String.eqb_neq _ _)) by done.
  assert (part (split_on "|" (join_colon parts)) 0 = join_colon parts) as ->.
  { unfold part. rewrite split_on_none by (by apply plain_join). done. }
  assert (split_on ":" (join_colon parts) = parts) as ->.
  { apply split_join; [done|]. eapply Forall_impl; [exact Hplain|].
    intros s Hs. by apply andb_true_iff in Hs as [Hs _]. }
  rewrite Ht. simpl. unfold parse. rewrite (bind_step _ _ _ _ _ Hrun).
  by rewrite (bind_step _ _ _ _ _ (Error_quiet p1 He Hr)).
Qed.

(** ** The simple memos *)

Definition printable (m : Memo) : Prop :=
  match m with
  | MOutbound b id => b = base TxOutbound /\ NewTxID id = Ok id /\ plain id = true
  | MRefund b id => b = base TxRefund /\ NewTxID id = Ok id /\ plain id = true
  | MMigrate b h => b = base TxMigrate /\ 0 <= h < 2 ^ 63
  | MRagnarok b h => b = base TxRagnarok /\ 0 <= h < 2 ^ 63
  | MNoOp b action => b = base TxNoOp /\ plain action = true
  | MConsolidate b => b = base TxConsolidate
  | MDonate b => mbTxType b = TxDonate /\ parsed_asset (mbAsset b)
  | MDecaPoolDeposit b => b = base TxDecaPoolDeposit
  | MMaint b addr => b = base TxMaint /\ valid_acc addr /\ plain (acc_string addr) = true
  | MExec b addr _ => b = base TxExec /\ valid_acc addr /\ plain (acc_string addr) = true
  | _ => False
  end.

Lemma type_step {A} (f : TxType -> M B A) p t : pTxType p = t -> (gets pTxType ≫= f) p = f t p.
Proof. intros <-. reflexivity. Qed.

(** A memo whose method reads one required field. *)
Lemma one_getter {A} (name s : string) (e : string -> Memo * goerr) (k : option (KVStore B)) t
    (g : M B A) (mk : A -> Memo) v :
  let p0 := mkParser (join_colon [name; s]) t k [name; s] [] 0 in
  plain name = true -> name <> "" -> plain s = true -> StringToTxType name = Ok t ->
  parse_by_type constants e p0 = (x ← g; done (mk x)) p0 ->
  g p0 = Ok (v, bump true p0) ->
  run_parser constants k e (join_colon [name; s]) = (mk v, None).
Proof.
  intros p0 Hn Hne Hs Ht Htype Hg.
  eapply (run_parser_quiet k e [name; s] t (mk v) (bump true p0)); try done.
  - by repeat constructor.
  - unfold join_colon. simpl. by destruct name.
  - unfold p0 in Htype. rewrite Htype, (bind_step _ _ _ _ _ Hg). by apply done_quiet.
Qed.

Lemma printable_parses `{!SdkKeysOk K} (k : KVStore B) e m : printable m ->
  run_parser constants (Some k) e (Memo_String m) = (m, None).
Proof.
  destruct m; simpl; try done.
  - intros [Hb Ha]. destruct b as [t a]; simpl in *; subst t.
    destruct (parsed_asset_print a Ha) as [Hp Hpl].
    by apply (one_getter "DONATE" (Asset_String a) e _ TxDonate (getAsset 1 true EmptyAsset)
      (fun a => MDonate (mkMemoBase TxDonate a)) a), getAsset_step.
  - by intros ->.
  - intros (-> & Hid & Hpl).
    by apply (one_getter "OUT" id e _ TxOutbound (getTxID 1 true BlankTxID) NewOutboundMemo id),
      getTxID_step.
  - intros (-> & Hid & Hpl).
    by apply (one_getter "REFUND" id e _ TxRefund (getTxID 1 true BlankTxID) NewRefundMemo id),
      getTxID_step.
  - intros (-> & Hh).
    apply (one_getter "MIGRATE" (itoa BlockHeight) e _ TxMigrate (getInt64 1 true 0)
      NewMigrateMemo BlockHeight); try done; [apply plain_itoa; lia|by apply getInt64_step, ParseInt_itoa].
  - intros (-> & Hh).
    apply (one_getter "RAGNAROK" (itoa BlockHeight) e _ TxRagnarok (getInt64 1 true 0)
      NewRagnarokMemo BlockHeight); try done; [apply plain_itoa; lia|by apply getInt64_step, ParseInt_itoa].
  - intros (-> & Ha). destruct (String.eqb_spec Action "") as [->|Hne]; [done|].
    eapply (run_parser_quiet _ e ["noop"; Action] TxNoOp); [done|by repeat constructor|done..| |].
    { unfold parse_by_type. rewrite type_step with (t := TxNoOp) by done.
    unfold ParseNoOpMemo. rewrite (bind_step _ _ _ _ _ (get_step _ 1)). by apply done_quiet. }
    done.
  - by intros ->.
  - intros (-> & Ha & Hpl).
    eapply (run_parser_quiet _ e ["x"; acc_string ContractAddress; EncodeToString Msg] TxExec);
      [done| |done..| |].
    + repeat constructor; try done. unfold plain, no_char.
      rewrite !EncodeToString_all; try done; intros v Hv;
        destruct (b64_char_spec v Hv) as (_ & _ & _ & Hc & Hb); by rewrite ?Hc, ?Hb.
    + unfold parse_by_type. rewrite type_step with (t := TxExec) by done.
      unfold ParseExecMemo. erewrite bind_step by (by apply getAccAddress_step, acc_roundtrip).
      erewrite bind_step by (by apply getBase64Bytes_step, DecodeString_EncodeToString).
      by apply done_quiet.
    + done.
  - intros (-> & Ha & Hpl).
    by apply (one_getter "maint" (acc_string NodeAddress) e _ TxMaint (getAccAddress 1 true "")
      NewMaintMemo NodeAddress), getAccAddress_step, acc_roundtrip.
Qed.

(** ** Swap memos *)

Lemma join_nonempty sep ss : ss <> [] -> Forall (fun s => s <> "") ss -> join sep ss <> "".
Proof.
  intros Hne Hall. destruct Hall as [|s ss Hs _]; [done|]. destruct s as [|c s]; [done|].
  by destruct ss.
Qed.

Lemma getAddresses_step p i def chain k dest refund : pKeeper p = Some k ->
  memo_address dest -> memo_address refund -> (refund <> "" -> dest <> "") ->
  field p i = (if String.eqb refund "" then dest else dest ++ "/" ++ refund) ->
  getAddressAndRefundAddressWithKeeper i false def chain p = Ok (dest, refund, p).
Proof.
  intros Hk Hd Hr Hdr Hf. destruct (memo_address_plain dest Hd) as [_ Hslash].
  transitivity (Ok (dest, refund, bump false p)); [|by rewrite bump_false].
  unfold getAddressAndRefundAddressWithKeeper.
  assert (forall A (f : unit -> M B A), (incRequired false ≫= f) p = f tt (bump false p)) as Hinc by done.
  rewrite Hinc, bump_false. rewrite (bind_step _ _ _ _ _ (get_step p i)).
  erewrite bind_step by reflexivity. rewrite Hk.
  assert (Address_IsEmpty dest && negb (Address_IsEmpty refund) = false) as Hempty.
  { rewrite !memo_address_empty by done. destruct (String.eqb_spec refund ""), (String.eqb_spec dest "");
      try done. subst dest. by destruct Hdr. }
  rewrite Hf. destruct (String.eqb_spec refund "") as [->|Hne].
  - unfold contains_char. rewrite Hslash. cbn [negb].
    assert (getAddressWithKeeper i false NoAddress chain p = Ok (dest, p)) as Hget.
    { rewrite <- Hf. apply (getAddressWithKeeper_step p i NoAddress chain k Hk). rewrite Hf. apply Hd. }
    erewrite bind_step by (rewrite (bind_step _ _ _ _ _ Hget); reflexivity).
    cbv beta iota. change NoAddress with "". by rewrite Hempty.
  - unfold contains_char, no_char. rewrite str_all_app. simpl. rewrite andb_false_r. simpl.
    change (dest ++ "/" ++ refund) with (dest ++ String "/" refund).
    rewrite split2_found by exact Hslash. simpl.
    assert (getAddressFromString dest chain false p = Ok (dest, p)) as Hget.
    { unfold getAddressFromString, FetchAddress. by rewrite (proj1 Hd). }
    erewrite bind_step by (rewrite (bind_step _ _ _ _ _ Hget), (proj1 Hr); reflexivity).
    cbv beta iota. by rewrite Hempty.
Qed.

(** Limits: exact up to 256 bits, up to 64 bits with streaming parameters. *)
Lemma get_limits_step `{!SdkMathOk S} `{!MemoLibOk P} p (streaming : bool) slip interval quantity :
  is_uint slip -> is_u64 interval -> is_u64 quantity ->
  (if streaming then slip < 2 ^ 64 else interval = 0 /\ quantity = 0) ->
  field p 3 =
    (if streaming then itoa slip ++ "/" ++ itoa interval ++ "/" ++ itoa quantity
     else if slip =? 0 then "" else itoa slip) ->
  get_limits p = Ok (Ok (slip, interval, quantity), p).
Proof.
  intros Hs Hi Hq Hst Hf. unfold get_limits. rewrite (bind_step _ _ _ _ _ (get_step p 3)), Hf.
  unfold is_u64 in Hi, Hq. destruct Hs as [Hs0 Hs]. destruct streaming.
  - assert (no_char "/" (itoa slip) = true /\ no_char "/" (itoa interval) = true) as [H1 H2]
      by (split; apply itoa_no_char; done || lia).
    assert (contains_char "/" (itoa slip ++ "/" ++ itoa interval ++ "/" ++ itoa quantity) = true) as ->.
    { unfold contains_char, no_char. rewrite str_all_app. simpl. by rewrite andb_false_r. }
    assert (split_n "/" 3 (itoa slip ++ "/" ++ itoa interval ++ "/" ++ itoa quantity)
      = [itoa slip; itoa interval; itoa quantity]) as Hsplit.
    { change (itoa slip ++ "/" ++ itoa interval ++ "/" ++ itoa quantity) with
        (itoa slip ++ String "/" (itoa interval ++ String "/" (itoa quantity))).
      simpl. rewrite split2_found by done. by rewrite split2_found by done. }
    unfold parse_stream. rewrite Hsplit. simpl.
    rewrite !(proj2 (String.eqb_neq _ _)) by (apply itoa_nonempty; lia).
    unfold part. simpl. unfold parseTradeTarget.
    rewrite parse_float_int_itoa by lia. simpl.
    rewrite leading64_small, uint_of_big_ok, uint_or_panic_Ok by (unfold is_uint; lia). simpl.
    assert (forall z, 0 <= z < 2 ^ 64 -> ParseUint (itoa z) = Ok z) as Hp.
    { intros z Hz. unfold ParseUint. rewrite itoa_is_digits, (proj2 (itoa_digits z ltac:(lia))) by lia.
      simpl. by rewrite (proj2 (Z.ltb_ge _ _)) by lia. }
    by rewrite !Hp by lia.
  - destruct Hst as [-> ->].
    assert (contains_char "/" (if slip =? 0 then "" else itoa slip) = false) as ->.
    { unfold contains_char. destruct (slip =? 0); [done|]. by rewrite itoa_no_char. }
    erewrite bind_step; [reflexivity|].
    apply getUintWithScientificNotation_step. rewrite Hf. unfold number_field.
    destruct (Z.eqb_spec slip 0) as [->|]; [by right|by left].
Qed.

Lemma parse_uints_itoa `{!MemoLibOk P} required bps result (p : parser B) : Forall is_uint bps ->
  parse_uints required (map itoa bps) result p = Ok ((result ++ bps)%list, p).
Proof.
  intros Hb. revert result. induction Hb as [|b bps Hb Hbs IH]; intros result; simpl.
  - by rewrite app_nil_r.
  - rewrite sdk_ParseUint_itoa by done. rewrite IH. by rewrite <- app_assoc.
Qed.

Definition affiliate_name (s : string) : Prop :=
  s <> "" /\ plain s = true /\ no_char "/" s = true.

Lemma get_affiliates_step `{!MemoLibOk P} p affs bps : Forall affiliate_name affs ->
  Forall is_uint bps -> length affs = length bps ->
  field p 4 = join "/" affs -> field p 5 = join "/" (map itoa bps) ->
  get_affiliates p = Ok (affs, bps, p).
Proof.
  intros Ha Hb Hl H4 H5. unfold get_affiliates.
  assert (getStringArrayBySeparator 4 false "/" p = Ok (affs, p)) as Hstep.
  { transitivity (Ok (affs, bump false p)); [|by rewrite bump_false].
    unfold getStringArrayBySeparator, mbind, M_bind, incRequired, get, gets. cbn [pParts].
    fold (field p 4). rewrite H4. destruct affs as [|a affs]; [done|].
    rewrite (proj2 (String.eqb_neq _ _)).
    - rewrite split_join; [done|done|]. eapply Forall_impl; [exact Ha|]. by intros s (_ & _ & Hs).
    - apply join_nonempty; [done|]. eapply Forall_impl; [exact Ha|]. by intros s (Hs & _). }
  rewrite (bind_step _ _ _ _ _ Hstep). clear Hstep.
  assert (getUintArrayBySeparator 5 false "/" p = Ok (bps, p)) as Hstep.
  { transitivity (Ok (bps, bump false p)); [|by rewrite bump_false].
    unfold getUintArrayBySeparator, mbind, M_bind, incRequired, get, gets. cbn [pParts].
    fold (field p 5). rewrite H5. destruct bps as [|b bps]; [done|].
    rewrite (proj2 (String.eqb_neq _ _)).
    - rewrite split_join; [|done|]; [by rewrite parse_uints_itoa|].
      apply Forall_map. eapply Forall_impl; [exact Hb|]. intros z [Hz _]. by apply itoa_no_char.
    - apply join_nonempty; [done|]. apply Forall_map. eapply Forall_impl; [exact Hb|].
      intros z [Hz _]. by apply itoa_nonempty. }
  rewrite (bind_step _ _ _ _ _ Hstep), Hl.
  assert ((length bps =? 1)%nat && (1 <? length bps)%nat = false) as ->.
  { destruct (Nat.eqb_spec (length bps) 1) as [->|]; done. }
  done.
Qed.

Lemma total_bps_ok `{!SdkMathOk S} bps t : Forall (fun b => 0 <= b) bps -> 0 <= t ->
  t + sumZ bps < uint_lim -> total_bps bps t = Ok (t + sumZ bps).
Proof.
  intros Hb. revert t. induction Hb as [|b bps Hb Hbs IH]; intros t Ht Hlt; simpl in *; [f_equal; lia|].
  pose proof (sumZ_nonneg bps Hbs).
  rewrite uint_add_ok, uint_or_panic_Ok by (unfold is_uint; lia). simpl.
  rewrite IH by lia. f_equal. lia.
Qed.

Definition swap_streaming (m : SwapMemo) : bool :=
  (0 <? smStreamInterval m) || (1 <? smStreamQuantity m).

(** The affiliate address of a memo: that of its first affiliate, if it is paid. *)
Definition first_affiliate (m : SwapMemo) : Address :=
  match smAffiliates m with
  | a :: _ => if smAffiliateBasisPoints m =? 0 then NoAddress else a
  | [] => NoAddress
  end.

(** The market swap memos a node can hold and print: every field within what
    the notation can say. *)
Record printable_swap (k : KVStore B) (m : SwapMemo) : Prop := {
  ps_type : mbTxType (smBase m) = TxSwap;
  ps_asset : parsed_asset (mbAsset (smBase m));
  ps_dest : memo_address (smDestination m);
  ps_refund : memo_address (smRefundAddress m);
  ps_refund_dest : smRefundAddress m <> "" -> smDestination m <> "";
  ps_slip : is_uint (smSlipLimit m);
  ps_interval : is_u64 (smStreamInterval m);
  ps_quantity : is_u64 (smStreamQuantity m);
  ps_streaming : if swap_streaming m then smSlipLimit m < 2 ^ 64
                 else smStreamInterval m = 0 /\ smStreamQuantity m = 0;
  ps_swap_type : smSwapType m = SwapType_market;
  ps_affiliates : Forall affiliate_name (smAffiliates m);
  ps_bps : Forall is_uint (smAffiliatesBasisPoints m);
  ps_ok : affiliates_ok constants k m;
  ps_affiliate : smAffiliateAddress m = first_affiliate m /\ NewAddress (first_affiliate m) = Ok (first_affiliate m);
  ps_dex : plain (smDexAggregator m) = true /\ plain (smDexTargetAddress m) = true /\
           (smDexAggregator m = "" -> smDexTargetAddress m = "");
  ps_limit : match smDexTargetLimit m with None => True | Some l => 0 < l /\ is_uint l end;
  ps_name : smAffiliateTHORName m = None
}.

(** All the fields a swap memo can have; the printer leaves out an empty tail. *)
Definition swap_fields (m : SwapMemo) : list string :=
  [ "="; Asset_String (mbAsset (smBase m));
    if String.eqb (smRefundAddress m) "" then smDestination m
    else smDestination m ++ "/" ++ smRefundAddress m;
    if swap_streaming m then
      itoa (smSlipLimit m) ++ "/" ++ itoa (smStreamInterval m) ++ "/" ++ itoa (smStreamQuantity m)
    else if smSlipLimit m =? 0 then "" else itoa (smSlipLimit m);
    join "/" (smAffiliates m); join "/" (map itoa (smAffiliatesBasisPoints m));
    smDexAggregator m; smDexTargetAddress m;
    match smDexTargetLimit m with Some l => itoa l | None => "" end ].

Lemma swap_print k m : printable_swap k m ->
  exists n, (3 <= n <= 9)%nat /\ SwapMemo_String m = join_colon (take n (swap_fields m)) /\
    forall i, (n <= i)%nat -> default "" (swap_fields m !! i) = "".
Proof.
  intros Hm. unfold SwapMemo_String, SwapMemo_string. rewrite (ps_type _ _ Hm).
  rewrite (memo_address_empty _ (ps_refund _ _ Hm)).
  fold (swap_streaming m). cbn [andb].
  assert (TxType_Equals TxSwap TxSwap = true) as -> by done.
  set (args := [_; _; _; _; _; _; _; _]).
  assert (swap_fields m = (args ++ [match smDexTargetLimit m with Some l => itoa l | None => "" end])%list)
    as Hfields.
  { unfold swap_fields, args. simpl. by destruct (String.eqb (smRefundAddress m) ""). }
  destruct (smDexTargetLimit m) as [l|] eqn:Hl.
  { pose proof (ps_limit _ _ Hm) as Hlim. rewrite Hl in Hlim. destruct Hlim as [Hl0 _].
    rewrite (proj2 (Z.eqb_neq l 0)) by lia.
    exists 9%nat. split; [lia|]. split; [by rewrite Hfields|].
    intros i Hi. rewrite lookup_ge_None_2; [done|]. rewrite Hfields. simpl. lia. }
  set (last := if negb (String.eqb (smDexAggregator m) "") then 8%nat else _).
  exists last. assert (3 <= last <= 8)%nat as Hlast by (unfold last; repeat case_match; lia).
  split; [lia|]. split.
  { rewrite Hfields, take_app_le; [done|]. unfold args. simpl. lia. }
  destruct (ps_dex _ _ Hm) as (_ & _ & Hdex). destruct (ps_ok _ _ Hm) as [Hlen _].
  assert (smDexAggregator m = "" \/ last = 8%nat) as Hd.
  { unfold last. destruct (String.eqb_spec (smDexAggregator m) ""); [by left|by right]. }
  assert (smAffiliates m = [] \/ (6 <= last)%nat) as Ha.
  { unfold last. destruct (smAffiliates m); [by left|]. right. case_match; lia. }
  assert ((if swap_streaming m then false else smSlipLimit m =? 0) = true \/ (4 <= last)%nat) as Hs.
  { unfold last. destruct (smSlipLimit m =? 0), (swap_streaming m); simpl; try (by left);
      right; repeat case_match; lia. }
  intros i Hi. rewrite Hfields. unfold args.
  do 3 (destruct i as [|i]; [lia|]).
  destruct i as [|i]; [simpl|].
  { destruct Hs as [Hs|]; [|lia]. fold (swap_streaming m).
    destruct (swap_streaming m); [done|]. by rewrite Hs. }
  destruct i as [|[|i]]; [simpl..|].
  { destruct Ha as [-> |]; [done|lia]. }
  { destruct Ha as [Ha|]; [|lia]. rewrite Ha in Hlen. by destruct (smAffiliatesBasisPoints m). }
  destruct i as [|[|[|i]]]; [simpl..|]; [|destruct Hd as [Hd|]; [by apply Hdex|lia]|done|done].
  destruct Hd as [->|]; [done|lia].
Qed.

Lemma swap_fields_plain k m : printable_swap k m ->
  Forall (fun s => plain s = true) (swap_fields m).
Proof.
  intros Hm. destruct (memo_address_plain _ (ps_dest _ _ Hm)) as [Hd _].
  destruct (memo_address_plain _ (ps_refund _ _ Hm)) as [Hr _].
  pose proof (ps_slip _ _ Hm) as [Hs _]. pose proof (ps_interval _ _ Hm) as [Hi _].
  pose proof (ps_quantity _ _ Hm) as [Hq _]. destruct (ps_dex _ _ Hm) as (Hx & Hy & _).
  unfold swap_fields. repeat apply Forall_cons_2; try apply Forall_nil_2; try done.
  - apply parsed_asset_print, (ps_asset _ _ Hm).
  - case_if; [done|]. change ("/" ++ smRefundAddress m) with (String "/" "" ++ smRefundAddress m).
    by rewrite !plain_app, Hd, Hr.
  - destruct (swap_streaming m).
    + rewrite !plain_app, !plain_itoa by done. done.
    + destruct (smSlipLimit m =? 0); [done|]. by apply plain_itoa.
  - apply no_char_slash_join. eapply Forall_impl; [apply (ps_affiliates _ _ Hm)|]. by intros s (_ & Hp & _).
  - apply no_char_slash_join, Forall_map. eapply Forall_impl; [apply (ps_bps _ _ Hm)|].
    intros z [Hz _]. by apply plain_itoa.
  - pose proof (ps_limit _ _ Hm) as Hl. destruct (smDexTargetLimit m) as [l|]; [|done].
    apply plain_itoa. lia.
Qed.

Lemma check_affiliates_ok `{!SdkMathOk S} k m : printable_swap k m ->
  check_affiliates constants k (smAffiliates m) (smAffiliatesBasisPoints m) =
    Ok (smAffiliateBasisPoints m).
Proof.
  intros Hm. destruct (ps_ok _ _ Hm) as (Hl & Hmax & Hsum & Htot). unfold check_affiliates.
  rewrite Hl, Nat.eqb_refl. simpl. rewrite Hl in Hmax.
  assert (forall x, (if x <? 0 then 0 else x) = Z.max 0 x) as -> by (intros x; case_if; z_bool; lia).
  rewrite (proj2 (Z.ltb_ge _ _)) by exact Hmax.
  pose proof (ps_bps _ _ Hm) as Hb.
  rewrite total_bps_ok; [..|lia|].
  - simpl. rewrite Z.add_0_l, <- Hsum. by rewrite (proj2 (Z.ltb_ge _ _)).
  - eapply Forall_impl; [exact Hb|]. by intros z [Hz _].
  - unfold MaxBasisPts in Htot. unfold uint_lim. lia.
Qed.

Lemma affiliate_address_step k m (p : parser B) : printable_swap k m ->
  affiliate_address (smAffiliates m) (smAffiliateBasisPoints m) p = Ok (smAffiliateAddress m, p).
Proof.
  intros Hm. destruct (ps_affiliate _ _ Hm) as [-> Ha]. revert Ha.
  unfold affiliate_address, first_affiliate. destruct (smAffiliates m) as [|a affs]; [done|].
  destruct (smAffiliateBasisPoints m =? 0); [done|]. intros Ha.
  unfold getAddressFromString, FetchAddress. by rewrite Ha.
Qed.

Lemma finish_swap_step `{!SdkKeysOk K} `{!MemoLibOk P} k m (p : parser B) : printable_swap k m ->
  quiet p -> (forall i, field p i = default "" (swap_fields m !! i)) ->
  finish_swap (mbAsset (smBase m)) (smDestination m) (smRefundAddress m)
    (smSlipLimit m, smStreamInterval m, smStreamQuantity m) (smAffiliates m)
    (smAffiliatesBasisPoints m) (smAffiliateBasisPoints m) p = Ok (MSwap m, None, p).
Proof.
  intros Hm Hq Hf. unfold finish_swap. rewrite (bind_step _ _ _ _ _ (get_step p 0)).
  rewrite (bind_step _ _ _ _ _ (affiliate_address_step k m p Hm)).
  assert (getTHORName 4 false (NewTHORName "" 0 []) (-1) p = Ok (NewTHORName "" 0 [], p)) as Hn
    by (transitivity (Ok (NewTHORName "" 0 [], bump false p)); [done|by rewrite bump_false]).
  rewrite (bind_step _ _ _ _ _ Hn), (bind_step _ _ _ _ _ (get_step p 6)),
    (bind_step _ _ _ _ _ (get_step p 7)).
  pose proof (ps_limit _ _ Hm) as Hlim.
  erewrite bind_step; [|apply (getUintWithScientificNotation_step p 8 0 (default 0 (smDexTargetLimit m)))].
  - rewrite done_quiet by done. rewrite !Hf. unfold swap_fields. simpl.
    unfold NewSwapMemo, owned, NewTHORName. cbn [tnOwner].
    rewrite (proj2 (acc_empty_ok "")) by done.
    assert (swap_type "=" (smSlipLimit m) = SwapType_market) as -> by done.
    assert ((if default 0 (smDexTargetLimit m) =? 0 then None else Some (default 0 (smDexTargetLimit m)))
      = smDexTargetLimit m) as ->.
    { destruct (smDexTargetLimit m) as [l|]; [|done]. simpl. by rewrite (proj2 (Z.eqb_neq l 0)) by lia. }
    pose proof (ps_type _ _ Hm). pose proof (ps_swap_type _ _ Hm). pose proof (ps_name _ _ Hm).
    destruct m as [ [t a] ]. simpl in *. by subst.
  - rewrite Hf. unfold swap_fields. simpl. unfold number_field.
    destruct (smDexTargetLimit m) as [l|]; [left; by destruct Hlim|by right].
Qed.

Lemma swap_parses `{!SdkKeysOk K} `{!SdkMathOk S} `{!MemoLibOk P} (k : KVStore B) e m :
  printable_swap k m -> run_parser constants (Some k) e (SwapMemo_String m) = (MSwap m, None).
Proof.
  intros Hm. destruct (swap_print k m Hm) as (n & Hn & -> & Htail).
  set (parts := take n (swap_fields m)).
  assert (forall i, default "" (parts !! i) = default "" (swap_fields m !! i)) as Hparts.
  { intros i. unfold parts. destruct (decide (i < n)%nat) as [Hi|Hi].
    - by rewrite lookup_take_lt.
    - rewrite lookup_take_ge by lia. by rewrite Htail by lia. }
  assert (length parts = n) as Hlen by (unfold parts; rewrite length_take; simpl; lia).
  assert (exists tl, parts = "=" :: tl) as [tl Htl].
  { unfold parts, swap_fields. destruct n as [|n]; [lia|]. simpl. eauto. }
  set (p0 := mkParser (join_colon parts) TxSwap (Some k) parts [] 0).
  eapply (run_parser_quiet _ e parts TxSwap (MSwap m) (bump true p0)).
  - by rewrite Htl.
  - apply Forall_take. by apply (swap_fields_plain k).
  - rewrite Htl. unfold join_colon. by destruct tl.
  - unfold part. by rewrite Hparts.
  - unfold parse_by_type. rewrite type_step with (t := TxSwap) by done. unfold ParseSwapMemo.
    erewrite bind_step by reflexivity. cbn [pKeeper]. unfold swap_with_keeper. fold p0.
    assert (forall i, field (bump true p0) i = default "" (swap_fields m !! i)) as Hf by exact Hparts.
    erewrite bind_step; [|apply getAsset_step; rewrite <- (proj1 (parsed_asset_print _ (ps_asset _ _ Hm)));
      f_equal; exact (Hparts 1%nat)].
    erewrite bind_step; [|apply (getAddresses_step _ 2 NoAddress _ k (smDestination m) (smRefundAddress m));
      [done|apply (ps_dest _ _ Hm)|apply (ps_refund _ _ Hm)|apply (ps_refund_dest _ _ Hm)|apply (Hf 2%nat)] ].
    cbv beta iota.
    erewrite bind_step; [|apply (get_limits_step _ (swap_streaming m) (smSlipLimit m)
      (smStreamInterval m) (smStreamQuantity m)); [apply (ps_slip _ _ Hm)|apply (ps_interval _ _ Hm)|
      apply (ps_quantity _ _ Hm)|apply (ps_streaming _ _ Hm)|apply (Hf 3%nat)] ].
    cbv beta iota.
    erewrite bind_step; [|apply (get_affiliates_step _ (smAffiliates m) (smAffiliatesBasisPoints m));
      [apply (ps_affiliates _ _ Hm)|apply (ps_bps _ _ Hm)|apply (ps_ok _ _ Hm)|apply (Hf 4%nat)|apply (Hf 5%nat)] ].
    cbv beta iota. rewrite (check_affiliates_ok k m Hm). cbv beta iota.
    apply (finish_swap_step k m); [done| |exact Hf]. split; [done|]. simpl. lia.
  - split; [done|]. simpl. lia.
Qed.

(** ** Liquidity memos *)

Record printable_add (m : AddLiquidityMemo) : Prop := {
  pa_type : mbTxType (amBase m) = TxAdd;
  pa_asset : parsed_asset (mbAsset (amBase m));
  pa_address : memo_address (amAddress m);
  pa_affiliate : memo_address (amAffiliateAddress m);
  pa_bps : 0 <= amAffiliateBasisPoints m <= 10000;
  pa_none : amAffiliateAddress m = "" -> amAffiliateBasisPoints m = 0
}.

Definition add_fields (m : AddLiquidityMemo) : list string :=
  ["+"; Asset_String (mbAsset (amBase m)); amAddress m; amAffiliateAddress m;
   if String.eqb (amAffiliateAddress m) "" then "" else itoa (amAffiliateBasisPoints m)].

Lemma add_print m : printable_add m ->
  exists n, (2 <= n <= 5)%nat /\ AddLiquidityMemo_String m = join_colon (take n (add_fields m)) /\
    forall i, (n <= i)%nat -> default "" (add_fields m !! i) = "".
Proof.
  intros Hm. unfold AddLiquidityMemo_String. rewrite (pa_type _ Hm).
  assert (TxType_Equals TxAdd TxAdd = true) as -> by done.
  rewrite !memo_address_empty by apply Hm. unfold add_fields.
  destruct (String.eqb_spec (amAffiliateAddress m) "") as [Ha|Ha].
  - destruct (String.eqb_spec (amAddress m) "") as [Hd|Hd]; simpl;
      [exists 2%nat|exists 3%nat]; (split; [lia|]); (split; [done|]); rewrite ?Ha, ?Hd;
      intros i Hi; do 5 (destruct i as [|i]; [done || lia|]); done.
  - exists 5%nat. split; [lia|]. split; [by destruct (String.eqb (amAddress m) "")|].
    intros i Hi. do 5 (destruct i as [|i]; [lia|]). done.
Qed.

Lemma add_parses `{!MemoLibOk P} (k : KVStore B) e m : printable_add m ->
  run_parser constants (Some k) e (AddLiquidityMemo_String m) = (MAddLiquidity m, None).
Proof.
  intros Hm. destruct (add_print m Hm) as (n & Hn & -> & Htail).
  destruct (parsed_asset_print _ (pa_asset _ Hm)) as [Hasset Hpl].
  destruct (memo_address_plain _ (pa_address _ Hm)) as [Hd _].
  destruct (memo_address_plain _ (pa_affiliate _ Hm)) as [Ha _]. pose proof (pa_bps _ Hm) as Hb.
  set (parts := take n (add_fields m)).
  assert (forall i, default "" (parts !! i) = default "" (add_fields m !! i)) as Hparts.
  { intros i. unfold parts. destruct (decide (i < n)%nat) as [Hi|Hi].
    - by rewrite lookup_take_lt.
    - rewrite lookup_take_ge by lia. by rewrite Htail by lia. }
  assert (length parts = n) as Hlen by (unfold parts; rewrite length_take; simpl; lia).
  assert (exists tl, parts = "+" :: tl) as [tl Htl].
  { unfold parts, add_fields. destruct n as [|n]; [lia|]. simpl. eauto. }
  set (p0 := mkParser (join_colon parts) TxAdd (Some k) parts [] 0).
  assert (quiet (bump true p0)) as Hq by (split; [done|simpl; lia]).
  eapply (run_parser_quiet _ e parts TxAdd _ (bump true p0)); [rewrite Htl; discriminate| | | | |exact Hq].
  - apply Forall_take. unfold add_fields. repeat apply Forall_cons_2; try apply Forall_nil_2; try done.
    case_if; [done|]. apply plain_itoa. lia.
  - rewrite Htl. unfold join_colon. by destruct tl.
  - unfold part. by rewrite Hparts.
  - unfold parse_by_type. rewrite type_step with (t := TxAdd) by done. unfold ParseAddLiquidityMemo.
    erewrite bind_step by reflexivity. cbn [pKeeper]. fold p0.
    assert (forall i, field (bump true p0) i = default "" (add_fields m !! i)) as Hf by exact Hparts.
    erewrite bind_step; [|apply getAsset_step; rewrite <- Hasset; f_equal; exact (Hparts 1%nat)].
    erewrite bind_step; [|apply (getAddressWithKeeper_step _ 2 NoAddress _ k);
      [done|rewrite (Hf 2%nat); apply (pa_address _ Hm)] ].
    erewrite bind_step; [|apply (getAddressWithKeeper_step _ 3 NoAddress _ k);
      [done|rewrite (Hf 3%nat); apply (pa_affiliate _ Hm)] ].
    erewrite bind_step; [|apply (getUintWithMaxValue_step _ 4 0 MaxBasisPts (amAffiliateBasisPoints m))].
    + rewrite done_quiet by done. rewrite !Hf. unfold NewAddLiquidityMemo. simpl.
      pose proof (pa_type _ Hm) as Ht. destruct m as [ [t a] ]. simpl in *. by rewrite Ht.
    + rewrite (Hf 4%nat). simpl. unfold number_field.
      destruct (String.eqb_spec (amAffiliateAddress m) "") as [He|];
        [right; by rewrite (pa_none _ Hm He)|left]. split; [done|]. unfold is_uint, uint_lim. lia.
    + unfold MaxBasisPts. lia.
Qed.

(** ** The property *)

Definition printable_memo (k : KVStore B) (m : Memo) : Prop :=
  match m with
  | MSwap m => printable_swap k m
  | MAddLiquidity m => printable_add m
  | _ => printable m
  end.

(** C10. Printing and parsing are inverse on the memos the network sends itself and
    its users: outbound, refund, migration, ragnarok, donation, maintenance,
    execution, liquidity and market swap memos, streaming parameters, affiliates,
    refund address and aggregator included. *)
Theorem memo_roundtrip `{!SdkKeysOk K} `{!SdkMathOk S} `{!MemoLibOk P} (k : KVStore B) m :
  printable_memo k m -> ParseMemoWithTHORNames constants k (Memo_String m) = (m, None).
Proof.
  rewrite parse_with_names_unfold. intros Hm.
  destruct m; try (apply printable_parses; exact Hm); [by apply add_parses|by apply swap_parses].
Qed.
End round.

(** ** What does not come back *)

Section examples.
Context {B : Type} `{Bank B}.
Definition demo_parse (k : KVStore B) (memo : string) : Memo * goerr :=
  ParseMemoWithTHORNames (K := keys_std) (S := sdk_std) (L := addr_std) (P := memo_lib_std)
    (fun _ => 5) k memo.
End examples.

Definition demo_memo_store : KVStore SimpleBank := empty_store (mkSimpleBank ∅ ∅) 7.

(** A limit swap prints as a market swap: [NewSwapMemo] drops the type. *)
Example limit_swap_prints_market :
  exists m, demo_parse demo_memo_store "=<:BTC.BTC:bc1xyz:100" = (MSwap m, None) /\
    smSwapType m = SwapType_limit /\ SwapMemo_String m = "=:BTC.BTC:bc1xyz:100" /\
    exists m', demo_parse demo_memo_store (SwapMemo_String m) = (MSwap m', None) /\
      smSwapType m' = SwapType_market.
Proof.
  eexists. split; [vm_compute; reflexivity|]. split; [reflexivity|]. split; [vm_compute; reflexivity|].
  eexists. split; [vm_compute; reflexivity|]. reflexivity.
Qed.

(** A withdrawal from the pool of reserves prints without a type. *)
Example pool_withdraw_prints_no_type :
  exists m, demo_parse demo_memo_store "pool-:100" = (m, None) /\
    Memo_String (K := keys_std) m = ":100::0" /\
    demo_parse demo_memo_store (Memo_String (K := keys_std) m) = (EmptyMemo, Some "invalid tx type: ").
Proof. eexists. split; [vm_compute; reflexivity|]. by split. Qed.

(** An empty asset field is Monero. *)
Example empty_asset_is_monero :
  exists m, demo_parse demo_memo_store "=::thor1abc" = (MSwap m, None) /\
    mbAsset (smBase m) = XMRAsset.
Proof. eexists. split; vm_compute; reflexivity. Qed.

(** ** The properties at concrete inputs *)

Definition demo_swap_memo : SwapMemo :=
  mkSwapMemo (mkMemoBase TxSwap BTCAsset) "bc1xyz" 100000000 "thor1abc" 30 "agg" "0xTokEn" (Some 5)
    SwapType_market 3 10 None "thor1back" ["thor1abc"; "bob"] [10; 20].

Lemma demo_swap_printable :
  printable_swap (L := addr_std) (fun _ => 5) demo_memo_store demo_swap_memo.
Proof.
  split; try done.
  - exists "BTC.BTC". vm_compute. reflexivity.
  - repeat constructor; done.
  - repeat constructor; unfold uint_lim; lia.
Qed.

Lemma memo_roundtrip_witness :
  Memo_String (K := keys_std) (MSwap demo_swap_memo) =
    "=:BTC.BTC:bc1xyz/thor1back:100000000/3/10:thor1abc/bob:10/20:agg:0xTokEn:5" /\
  demo_parse demo_memo_store (Memo_String (K := keys_std) (MSwap demo_swap_memo)) =
    (MSwap demo_swap_memo, None).
Proof.
  split; [vm_compute; reflexivity|].
  apply (memo_roundtrip (K := keys_std) (S := sdk_std) (L := addr_std) (P := memo_lib_std)
    (fun _ => 5) demo_memo_store (MSwap demo_swap_memo)), demo_swap_printable.
Defined.
