(* ===== verification/LimitIndex.v ===== *)
(** The advanced swap queue in the store,
    [x/thorchain/keeper/v1/keeper_adv_swap_queue.go]: the items, the index of
    the market swaps, the price-ordered index of the limit swaps of each pair,
    and the expiry lists of the limit swaps.

    The main results: the keys of the limit index sort the way the prices do,
    the price is recovered from a key, and the index lists exactly the stored
    items, each under its own price, whatever the queue does. *)
From S2P Require Import Prelude SdkMath GoStr Keys Shares Chains Assets Coins Bank Nodes Txs.
From S2P Require Import Decimal Voters Mimir Pools Streaming Vaults Keeper.
Local Open Scope string_scope.
Local Open Scope Z_scope.

Definition prefixAdvSwapQueueItem : string := "aq/".
Definition prefixAdvSwapQueueLimitIndex : string := "aqlim/".
Definition prefixAdvSwapQueueMarketIndex : string := "aqmark/".
Definition prefixAdvSwapQueueTTL : string := "aqttl/".

Definition ratioLength : Z := 18.

(** [rewriteRatio]: pad to [length] characters, or keep the first [length]. *)
Definition rewriteRatio (length : Z) (str : string) : string :=
  if str_len str <? length then zeros (Z.to_nat (length - str_len str)) ++ str
  else if length <? str_len str then String.substring 0 (Z.to_nat length) str
  else str.

(** [removeString]: the last element replaces the removed one. *)
Definition removeString (a : list string) (i : Z) : list string :=
  if (Z.of_nat (length a) - 1 <? i) || (i <? 0) then a
  else match last a with
       | Some z => take (length a - 1) (<[Z.to_nat i := z]> a)
       | None => a
       end.

(** [strings.LastIndex(rec, "-")], the parts around it. *)
Fixpoint split_last (sep : ascii) (s : string) : option (string * string) :=
  match s with
  | EmptyString => None
  | String c s' =>
      match split_last sep s' with
      | Some (l, r) => Some (String c l, r)
      | None => if Ascii.eqb c sep then Some ("", s') else None
      end
  end.

(** One record of an index list, "txID-index". *)
Definition parse_index_record (rec : string) : option (TxID * Z) :=
  match split_last "-" rec with
  | None => None
  | Some (hash, i) =>
      if String.eqb hash "" || String.eqb i "" then None
      else match NewTxID hash, Atoi i with
           | Ok hash, Ok i => Some (hash, i)
           | _, _ => None
           end
  end.

(** The first index of [record] equal to [idStr] under case folding. *)
Fixpoint find_fold (idStr : string) (record : list string) : option nat :=
  match record with
  | [] => None
  | r :: record => if equal_fold r idStr then Some O else option_map S (find_fold idStr record)
  end.

Definition swap_item_id (msg : MsgSwap) : string := formatSwapQueueItemKey (txID (mTx msg)) (mIndex msg).

(** The items of the message the market index is read with, [MsgSwap{SwapType: MarketSwap}]. *)
Definition market_probe : MsgSwap :=
  mkMsgSwap EmptyTx EmptyAsset "" 0 "" 0 "" "" "" None SwapType_market 0 0 0
    (mkSwapState 0 0 0 0 0 0 0 0 0 [] []) SwapVersion_v1 0.

Section limit_index.
Context {B : Type} `{Bank B} {S : SdkMath}.
Abbreviation Store := (KVStore B) (only parsing).

Definition getRatio (input output : Z) : outcome string :=
  if output =? 0 then Ok "0"
  else
    scaled ← uint_mul_u64 input 100000000;
    q ← uint_quo scaled output;
    Ok (itoa q).

Definition limit_index_prefix (source target : Asset) : string :=
  GetKey prefixAdvSwapQueueLimitIndex
    (Asset_String (GetLayer1Asset source) ++ ">" ++ Asset_String (GetLayer1Asset target) ++ "/").

(** [Coins[0]] of a limit swap without coins panics. *)
Definition getAdvSwapQueueIndexKey (msg : MsgSwap) : outcome string :=
  match mSwapType msg with
  | SwapType_market => Ok (GetKey prefixAdvSwapQueueMarketIndex "")
  | SwapType_limit =>
      match txCoins (mTx msg) with
      | [] => Panic
      | coin :: _ =>
          r ← getRatio (cAmount coin) (TradeTarget msg);
          Ok (GetKey prefixAdvSwapQueueLimitIndex
            (Asset_String (GetLayer1Asset (cAsset coin)) ++ ">" ++
             Asset_String (GetLayer1Asset (TargetAsset msg)) ++ "/" ++
             rewriteRatio ratioLength r ++ "/"))
      end
  end.

(** ** The index *)

Definition index_record (k : Store) (key : string) : list string := default [] (getStrings k key).

Definition HasAdvSwapQueueIndex (k : Store) (msg : MsgSwap) : outcome bool :=
  key ← getAdvSwapQueueIndexKey msg;
  Ok (existsb (equal_fold (swap_item_id msg)) (index_record k key)).

Definition SetAdvSwapQueueIndex (k : Store) (msg : MsgSwap) : outcome Store :=
  ok ← HasAdvSwapQueueIndex k msg;
  if (ok : bool) then Ok k
  else
    key ← getAdvSwapQueueIndexKey msg;
    Ok (setStrings k key (index_record k key ++ [swap_item_id msg])%list).

Definition GetAdvSwapQueueIndex (k : Store) (msg : MsgSwap) : outcome (list (TxID * Z)) :=
  key ← getAdvSwapQueueIndexKey msg;
  Ok (omap parse_index_record (index_record k key)).

Definition RemoveAdvSwapQueueIndex (k : Store) (msg : MsgSwap) : outcome Store :=
  match txCoins (mTx msg) with
  | [] => Err "cannot remove swap queue index: msg has no coins"
  | _ :: _ =>
      key ← getAdvSwapQueueIndexKey msg;
      let record := index_record k key in
      let found := find_fold (swap_item_id msg) record in
      let record := match found with
        | Some i => removeString record (Z.of_nat i)
        | None => record
        end in
      match record, found with
      | [], _ => Ok (with_strings k (delete key (kStrings k)))
      | _ :: _, Some _ => Ok (setStrings k key record)
      | _ :: _, None => Ok k
      end
  end.

(** The records of one pair, as the reverse prefix iterator visits them: the
    greatest key first.  A market swap has no iterator. *)
Definition GetAdvSwapQueueIndexIterator (k : Store) (swapType : SwapType) (source target : Asset) :
    list (string * list string) :=
  match swapType with
  | SwapType_limit =>
      rev (stable_sort by_key
        (List.filter (fun e => String.prefix (limit_index_prefix source target) (fst e))
          (map_to_list (kStrings k))))
  | SwapType_market => []
  end.

(** ** The items *)

Definition adv_item_key (txID : TxID) (index : Z) : string :=
  GetKey prefixAdvSwapQueueItem (formatSwapQueueItemKey txID index).

Definition SetAdvSwapQueueItem (k : Store) (msg : MsgSwap) : outcome Store :=
  if negb (length (txCoins (mTx msg)) =? 1)%nat
  then Err ("incorrect number of coins in transaction (" ++
            itoa (Z.of_nat (length (txCoins (mTx msg)))) ++ ")")
  else if TxID_IsEmpty (txID (mTx msg)) then Err "invalid tx hash"
  else
    k ← SetAdvSwapQueueIndex k msg;
    Ok (with_adv_swap_queue k
      (<[adv_item_key (txID (mTx msg)) (mIndex msg) := msg]> (kAdvSwapQueue k))).

Definition GetAdvSwapQueueItem (k : Store) (txID : TxID) (index : Z) : outcome MsgSwap :=
  match kAdvSwapQueue k !! adv_item_key txID index with
  | Some msg => Ok msg
  | None => Err "not found"
  end.

Definition HasAdvSwapQueueItem (k : Store) (txID : TxID) (index : Z) : bool :=
  bool_decide (is_Some (kAdvSwapQueue k !! adv_item_key txID index)).

(** [GetAdvSwapQueueItemIterator] with the decoded values. *)
Definition GetAdvSwapQueueItemIterator (k : Store) : list MsgSwap := iterate (kAdvSwapQueue k).

(** The item is deleted whatever happens to the index; the error is returned. *)
Definition RemoveAdvSwapQueueItem (k : Store) (txID : TxID) (index : Z) : outcome (Store * goerr) :=
  '(k, e) ← match GetAdvSwapQueueItem k txID index with
    | Ok msg =>
        match RemoveAdvSwapQueueIndex k msg with
        | Ok k => Ok (k, None)
        | Err e => Ok (k, Some e)
        | Panic => Panic
        end
    | Err e => Ok (k, Some e)
    | Panic => Panic
    end;
  Ok (with_adv_swap_queue k (delete (adv_item_key txID index) (kAdvSwapQueue k)), e).

(** ** The expiry lists *)

Definition ttl_key (blockHeight : Z) : string := GetKey prefixAdvSwapQueueTTL (itoa blockHeight).
Definition invalid_height (blockHeight : Z) : string := "invalid block height: " ++ itoa blockHeight.

Definition SetLimitSwapTTL (k : Store) (blockHeight : Z) (txHashes : list TxID) : outcome Store :=
  if blockHeight <=? 0 then Err (invalid_height blockHeight)
  else Ok (setStrings k (ttl_key blockHeight) txHashes).

Definition parse_hash (s : string) : option TxID :=
  match NewTxID s with Ok h => Some h | _ => None end.

Definition GetLimitSwapTTL (k : Store) (blockHeight : Z) : outcome (list TxID) :=
  if blockHeight <=? 0 then Err (invalid_height blockHeight)
  else Ok (omap parse_hash (index_record k (ttl_key blockHeight))).

Definition RemoveLimitSwapTTL (k : Store) (blockHeight : Z) : Store :=
  if blockHeight <=? 0 then k
  else with_strings k (delete (ttl_key blockHeight) (kStrings k)).

Definition AddToLimitSwapTTL (k : Store) (blockHeight : Z) (txHash : TxID) : outcome Store :=
  if blockHeight <=? 0 then Err (invalid_height blockHeight)
  else
    existingHashes ← wrap_err "fail to get existing TTL list: " (GetLimitSwapTTL k blockHeight);
    if existsb (fun existing => TxID_Equals existing txHash) existingHashes then Ok k
    else SetLimitSwapTTL k blockHeight (existingHashes ++ [txHash])%list.
End limit_index.

(** ** Keys and prices *)

Definition limit_price (input output : Z) : Z :=
  if output =? 0 then 0 else input * 100000000 / output.

Lemma str_ltb_app p s t : str_ltb (p ++ s) (p ++ t) = str_ltb s t.
Proof. induction p as [|c p IH]; simpl; [done|]. by rewrite Nat.ltb_irrefl, Nat.eqb_refl, IH. Qed.

Lemma str_ltb_app_suffix s : forall t u, String.length s = String.length t ->
  str_ltb (s ++ u) (t ++ u) = str_ltb s t.
Proof.
  induction s as [|c s IH]; intros [|d t] u Hl; simpl in *; try done.
  - apply str_ltb_irrefl.
  - injection Hl as Hl. by rewrite IH.
Qed.

Lemma to_upper_digits s : str_all is_digit s = true -> to_upper s = s.
Proof.
  intros Hs. apply to_upper_id. eapply str_all_impl; [|exact Hs].
  intros c. unfold is_digit, is_lower, char_in. rewrite negb_true_iff, andb_true_iff, andb_false_iff,
    !Nat.leb_le, !Nat.leb_gt. lia.
Qed.

(** A price below [10^18] fills its eighteen characters exactly. *)
Lemma rewriteRatio_padded r : 0 <= r < 10 ^ 18 ->
  str_all is_digit (rewriteRatio ratioLength (itoa r)) = true /\
  String.length (rewriteRatio ratioLength (itoa r)) = 18%nat /\
  dec_value 0 (rewriteRatio ratioLength (itoa r)) = r.
Proof.
  intros Hr. destruct (itoa_digits r) as [Hd Hv]; [lia|].
  pose proof (itoa_length r 18 ltac:(lia) ltac:(lia)) as Hl.
  unfold rewriteRatio, ratioLength, str_len.
  destruct (Z.ltb_spec (Z.of_nat (String.length (itoa r))) 18).
  - rewrite zeros_digits, zeros_value, str_length_app, zeros_length. repeat split; [done|lia|done].
  - rewrite (proj2 (Z.ltb_ge _ _)) by lia. repeat split; [done|lia|done].
Qed.

Section limit_keys.
Context {S : SdkMath} `{!SdkMathOk S}.

Lemma getRatio_inv input output r : is_uint input -> is_uint output ->
  getRatio input output = Ok r -> r = itoa (limit_price input output) /\
  0 <= limit_price input output.
Proof.
  intros Hi Ho. unfold getRatio, limit_price. destruct (Z.eqb_spec output 0) as [->|Hne].
  - intros [= <-]. split; [done|lia].
  - intros (scaled & Hs & Hr)%bind_Ok_inv. apply bind_Ok_inv in Hr as (q & Hq & [= <-]).
    apply uint_mul_u64_inv in Hs as [-> Hs]; [|done|unfold is_u64; lia].
    apply uint_quo_inv in Hq as (-> & _ & Hq); [|done..]. split; [done|apply Hq].
Qed.

(** A limit swap as the queue holds it, of one pair and with a price that fits
    its key. *)
Record limit_msg (source target : Asset) (price : Z) (msg : MsgSwap) : Prop := {
  lm_type : mSwapType msg = SwapType_limit;
  lm_coin : exists amount decimals cs,
    txCoins (mTx msg) = mkCoin source amount decimals :: cs /\ is_uint amount /\
    limit_price amount (TradeTarget msg) = price;
  lm_target : TargetAsset msg = target;
  lm_uint : is_uint (TradeTarget msg);
  lm_fits : price < 10 ^ 18
}.

Lemma limit_key source target price msg key : limit_msg source target price msg ->
  getAdvSwapQueueIndexKey msg = Ok key ->
  0 <= price /\
  key = limit_index_prefix source target ++ (rewriteRatio ratioLength (itoa price) ++ "/").
Proof.
  intros [Ht (amount & d & cs & Hc & Ha & Hp) Htg Hu Hf] Hk.
  unfold getAdvSwapQueueIndexKey in Hk. rewrite Ht, Hc in Hk. simpl in Hk.
  apply bind_Ok_inv in Hk as (r & Hr & [= <-]).
  apply getRatio_inv in Hr as [-> Hge]; [|done..]. rewrite Hp in Hge. split; [done|].
  rewrite Hp, Htg. destruct (rewriteRatio_padded price) as (Hd & _ & _); [lia|].
  unfold limit_index_prefix, GetKey. rewrite !to_upper_app, (to_upper_digits _ Hd).
  change (to_upper "/") with "/". rewrite <- !str_app_assoc. done.
Qed.

Lemma price_key_order (prefix : string) p1 p2 : 0 <= p1 < 10 ^ 18 -> 0 <= p2 < 10 ^ 18 ->
  str_ltb (prefix ++ (rewriteRatio ratioLength (itoa p1) ++ "/"))
          (prefix ++ (rewriteRatio ratioLength (itoa p2) ++ "/")) = (p1 <? p2).
Proof.
  intros (D1 & L1 & V1)%rewriteRatio_padded (D2 & L2 & V2)%rewriteRatio_padded.
  rewrite str_ltb_app, str_ltb_app_suffix by congruence.
  by rewrite (str_ltb_dec_value _ _ 0 D1 D2), V1, V2 by congruence.
Qed.

(** C20. Two limit swaps of one trading pair are ordered by their index keys, as
    byte strings, exactly as their prices (source amount per unit of target,
    scaled by 10^8) are ordered as numbers, as long as the prices have at most
    the eighteen digits of the key; equal prices share a key. *)
Theorem limit_index_orders_prices source target p1 p2 m1 m2 k1 k2 :
  limit_msg source target p1 m1 -> limit_msg source target p2 m2 ->
  getAdvSwapQueueIndexKey m1 = Ok k1 -> getAdvSwapQueueIndexKey m2 = Ok k2 ->
  str_ltb k1 k2 = (p1 <? p2) /\ (k1 = k2 <-> p1 = p2).
Proof.
  intros H1 H2 Hk1 Hk2. pose proof (lm_fits _ _ _ _ H1). pose proof (lm_fits _ _ _ _ H2).
  destruct (limit_key _ _ _ _ _ H1 Hk1) as [G1 ->], (limit_key _ _ _ _ _ H2 Hk2) as [G2 ->].
  rewrite price_key_order by lia. split; [done|]. split; [|by intros ->]. intros He.
  pose proof (price_key_order (limit_index_prefix source target) p1 p2) as O12.
  pose proof (price_key_order (limit_index_prefix source target) p2 p1) as O21.
  rewrite He, str_ltb_irrefl in O12. rewrite He, str_ltb_irrefl in O21. lia.
Qed.
End limit_keys.

(** ** The records of the index *)

Lemma split_last_none sep s :
  str_all (fun c => negb (Ascii.eqb c sep)) s = true -> split_last sep s = None.
Proof.
  induction s as [|c s IH]; simpl; [done|]. intros [Hc Hs]%andb_true_iff.
  rewrite IH by done. by destruct (Ascii.eqb c sep).
Qed.

Lemma split_last_found sep s t : str_all (fun c => negb (Ascii.eqb c sep)) t = true ->
  split_last sep (s ++ String sep t) = Some (s, t).
Proof.
  intros Ht. induction s as [|c s IH]; simpl.
  - by rewrite split_last_none, Ascii.eqb_refl.
  - by rewrite IH.
Qed.

Lemma digits_no_hyphen s : str_all is_digit s = true ->
  str_all (fun c => negb (Ascii.eqb c "-")) s = true.
Proof.
  apply str_all_impl. intros c. unfold is_digit, char_in.
  destruct (Ascii.eqb_spec c "-") as [->|]; done.
Qed.

(** Transaction hashes as [NewTxID] returns them, and an index of 32 bits. *)
Definition canonical_id (msg : MsgSwap) : Prop :=
  NewTxID (txID (mTx msg)) = Ok (txID (mTx msg)) /\ 0 <= mIndex msg < 2 ^ 32.

Lemma parse_swap_item_id msg : canonical_id msg ->
  parse_index_record (swap_item_id msg) = Some (txID (mTx msg), mIndex msg).
Proof.
  intros [Hid Hi]. unfold parse_index_record, swap_item_id, formatSwapQueueItemKey.
  destruct (itoa_digits (mIndex msg)) as [Hd _]; [lia|].
  change ("-" ++ itoa (mIndex msg)) with (String "-" (itoa (mIndex msg))).
  rewrite split_last_found by (by apply digits_no_hyphen).
  pose proof (itoa_is_digits (mIndex msg) ltac:(lia)) as He. unfold is_digits in He.
  apply andb_true_iff in He as [He%negb_true_iff _]. rewrite He, orb_false_r.
  destruct (String.eqb_spec (txID (mTx msg)) "") as [Hb|]; [by rewrite Hb in Hid|].
  rewrite Hid, Atoi_itoa by lia. done.
Qed.

Lemma prefix_app p s : String.prefix p (p ++ s) = true.
Proof. induction p as [|c p IH]; simpl; [by destruct s|]. destruct (ascii_dec c c); done. Qed.

(** The keys of the two indexes. *)
Definition is_index_key (key : string) : bool :=
  String.prefix (prefixAdvSwapQueueMarketIndex ++ "/") key ||
  String.prefix (prefixAdvSwapQueueLimitIndex ++ "/") key.

Lemma GetKey_prefix prefix key : String.prefix (prefix ++ "/") (GetKey prefix key) = true.
Proof. unfold GetKey. rewrite str_app_assoc. apply prefix_app. Qed.

Lemma index_key_is_index {S : SdkMath} msg key : getAdvSwapQueueIndexKey msg = Ok key ->
  is_index_key key = true.
Proof.
  unfold getAdvSwapQueueIndexKey, is_index_key. destruct (mSwapType msg).
  - by intros [= <-].
  - destruct (txCoins (mTx msg)); [done|]. intros (r & _ & [= <-])%bind_Ok_inv.
    by rewrite GetKey_prefix, orb_true_r.
Qed.

Lemma ttl_key_not_index h : is_index_key (ttl_key h) = false.
Proof. done. Qed.

Lemma fold_item_key r r' : equal_fold r r' = true <->
  GetKey prefixAdvSwapQueueItem r = GetKey prefixAdvSwapQueueItem r'.
Proof.
  rewrite equal_fold_spec. unfold GetKey. split; [by intros ->|].
  unfold prefixAdvSwapQueueItem. simpl. intros He. by injection He as He.
Qed.

Lemma find_fold_none id l : find_fold id l = None <-> Forall (fun r => equal_fold r id = false) l.
Proof.
  induction l as [|r l IH]; simpl; [by split|]. rewrite Forall_cons.
  destruct (equal_fold r id); simpl; [split; [done|by intros [? _]]|].
  destruct (find_fold id l); simpl.
  - split; [done|]. intros [_ Hl]. by apply IH in Hl.
  - split; [|done]. intros _. split; [done|by apply IH].
Qed.

Lemma find_fold_some id l i : find_fold id l = Some i ->
  exists r, l !! i = Some r /\ equal_fold r id = true.
Proof.
  revert i. induction l as [|r l IH]; intros i; simpl; [done|].
  destruct (equal_fold r id) eqn:E; [intros [= <-]; simpl; eauto|].
  destruct (find_fold id l) as [j|]; simpl; [intros [= <-]; apply (IH j eq_refl)|done].
Qed.

(** [removeString] takes out the element at [i], changing the order only. *)
Lemma removeString_perm l i x : l !! i = Some x ->
  x :: removeString l (Z.of_nat i) ≡ₚ l.
Proof.
  intros Hi. pose proof (lookup_lt_Some _ _ _ Hi) as Hlt. unfold removeString.
  rewrite (proj2 (Z.ltb_ge _ _)), (proj2 (Z.ltb_ge _ _)) by lia. simpl. rewrite Nat2Z.id.
  destruct (last l) as [z|] eqn:El; [|by apply last_None in El as ->].
  apply last_Some in El as (l' & ->). rewrite length_app in *. simpl in *.
  replace (length l' + 1 - 1)%nat with (length l') by lia.
  destruct (decide (i < length l')%nat) as [Hil|Hil].
  - rewrite lookup_app_l in Hi by done. rewrite insert_app_l by done.
    rewrite take_app_length' by (by rewrite length_insert).
    rewrite <- (Permutation_cons_append l' z), insert_take_drop by done.
    rewrite <- (take_drop_middle l' i x Hi) at 3.
    rewrite <- !Permutation_middle. apply Permutation_swap.
  - assert (i = length l') as -> by lia. rewrite lookup_app_r, Nat.sub_diag in Hi by done.
    simplify_eq/=. rewrite insert_app_r_alt, Nat.sub_diag by done. simpl.
    rewrite take_app_length. by rewrite Permutation_app_comm.
Qed.

Lemma removeString_elem l i x : NoDup l -> l !! i = Some x ->
  NoDup (removeString l (Z.of_nat i)) /\
  forall r, r ∈ removeString l (Z.of_nat i) <-> r ∈ l /\ r <> x.
Proof.
  intros Hnd Hi. pose proof (removeString_perm _ _ _ Hi) as Hp.
  assert (NoDup (x :: removeString l (Z.of_nat i))) as Hnd' by (by rewrite Hp).
  apply NoDup_cons in Hnd' as [Hx Hnd']. split; [done|].
  assert (forall r, r ∈ l <-> r ∈ x :: removeString l (Z.of_nat i)) as Hin
    by (intros r; by rewrite Hp).
  intros r. rewrite Hin, elem_of_cons. split.
  - intros Hr. split; [by right|]. by intros ->.
  - intros [ [->|Hr] Hne]; done.
Qed.

(** ** The index lists exactly the stored items *)

Section queue_invariant.
Context {B : Type} `{Bank B} {S : SdkMath}.
Abbreviation Store := (KVStore B) (only parsing).
Implicit Types k : Store.

Lemma with_strings_id k : with_strings k (kStrings k) = k.
Proof. by destruct k. Qed.

Lemma setStrings_with k key l : exists m, setStrings k key l = with_strings k m.
Proof. unfold setStrings. destruct l; eauto. Qed.

Lemma setStrings_record k key l key' :
  index_record (setStrings k key l) key' = if decide (key' = key) then l else index_record k key'.
Proof.
  unfold index_record, getStrings, setStrings.
  destruct l; simpl; case_decide; subst; by simplify_map_eq.
Qed.

Lemma SetIndex_spec k msg k' : SetAdvSwapQueueIndex k msg = Ok k' ->
  exists key, getAdvSwapQueueIndexKey msg = Ok key /\ (exists m, k' = with_strings k m) /\
  forall key', index_record k' key' =
    if decide (key' = key) then
      if existsb (equal_fold (swap_item_id msg)) (index_record k key) then index_record k key
      else (index_record k key ++ [swap_item_id msg])%list
    else index_record k key'.
Proof.
  unfold SetAdvSwapQueueIndex, HasAdvSwapQueueIndex. intros (ok & Hok & Hk)%bind_Ok_inv.
  apply bind_Ok_inv in Hok as (key & Hkey & [= <-]). exists key. split; [done|].
  destruct (existsb _ _) eqn:E.
  - injection Hk as <-. split; [exists (kStrings k); by rewrite with_strings_id|].
    intros key'. by case_decide; subst.
  - rewrite Hkey in Hk. simpl in Hk. injection Hk as <-. split; [apply setStrings_with|].
    intros key'. by rewrite setStrings_record.
Qed.

Lemma RemoveIndex_spec k msg k' : RemoveAdvSwapQueueIndex k msg = Ok k' ->
  exists key, getAdvSwapQueueIndexKey msg = Ok key /\ (exists m, k' = with_strings k m) /\
  forall key', index_record k' key' =
    if decide (key' = key) then
      match find_fold (swap_item_id msg) (index_record k key) with
      | Some i => removeString (index_record k key) (Z.of_nat i)
      | None => index_record k key
      end
    else index_record k key'.
Proof.
  unfold RemoveAdvSwapQueueIndex. destruct (txCoins (mTx msg)); [done|].
  intros (key & Hkey & Hk)%bind_Ok_inv. exists key. split; [done|].
  assert (forall l, setStrings k key l = k' -> (exists m, k' = with_strings k m) /\
    forall key', index_record k' key' = if decide (key' = key) then l else index_record k key') as Hset.
  { intros rec <-. split; [apply setStrings_with|]. intros key'. apply setStrings_record. }
  destruct (find_fold _ _) as [i|].
  - apply Hset. destruct (removeString _ _); injection Hk as <-; done.
  - destruct (index_record k key) eqn:E.
    + apply Hset. injection Hk as <-. done.
    + injection Hk as <-. split; [exists (kStrings k); by rewrite with_strings_id|].
      intros key'. by case_decide; subst.
Qed.

Definition listed k (msg : MsgSwap) : Prop :=
  exists key, getAdvSwapQueueIndexKey msg = Ok key /\ swap_item_id msg ∈ index_record k key.

(** One coin, and a place in the index: the price does not overflow. *)
Definition one_coin (msg : MsgSwap) : Prop :=
  length (txCoins (mTx msg)) = 1%nat /\ exists key, getAdvSwapQueueIndexKey msg = Ok key.

(** The item under the key [hole], if any, is in the store but in no list. *)
Record queue_ok (hole : option string) k : Prop := {
  qo_items K msg : kAdvSwapQueue k !! K = Some msg ->
    K = adv_item_key (txID (mTx msg)) (mIndex msg) /\ canonical_id msg /\
    one_coin msg /\ (hole <> Some K -> listed k msg);
  qo_nodup key : is_index_key key = true -> NoDup (index_record k key);
  qo_back key r : is_index_key key = true -> r ∈ index_record k key ->
    exists msg, kAdvSwapQueue k !! GetKey prefixAdvSwapQueueItem r = Some msg /\
      swap_item_id msg = r /\ getAdvSwapQueueIndexKey msg = Ok key /\
      hole <> Some (GetKey prefixAdvSwapQueueItem r)
}.

(** An item that is not stored, or is the hole, is in no list. *)
Lemma unlisted hole k id key : queue_ok hole k ->
  (kAdvSwapQueue k !! GetKey prefixAdvSwapQueueItem id = None \/
   hole = Some (GetKey prefixAdvSwapQueueItem id)) ->
  is_index_key key = true -> Forall (fun r => equal_fold r id = false) (index_record k key).
Proof.
  intros Hok Hid Hkey. apply Forall_forall. intros r Hr. apply not_true_iff_false. intros He.
  apply fold_item_key in He. destruct (qo_back _ _ Hok key r Hkey Hr) as (m & Hm & _ & _ & Hh).
  rewrite He in Hm, Hh. destruct Hid as [Hn|Hn]; congruence.
Qed.

Lemma existsb_fold_unlisted id l : Forall (fun r => equal_fold r id = false) l ->
  existsb (equal_fold id) l = false.
Proof.
  induction 1 as [|r l Hr Hl IH]; simpl; [done|]. by rewrite equal_fold_sym, Hr.
Qed.

(** Saving an item that is in no list lists it. *)
Lemma set_unlisted_ok hole k msg k' : queue_ok hole k -> canonical_id msg ->
  let K := adv_item_key (txID (mTx msg)) (mIndex msg) in
  hole = Some K \/ (hole = None /\ kAdvSwapQueue k !! K = None) ->
  SetAdvSwapQueueItem k msg = Ok k' -> queue_ok None k'.
Proof.
  intros Hok Hid K Hfree Hset. unfold SetAdvSwapQueueItem in Hset.
  destruct (Nat.eqb_spec (length (txCoins (mTx msg))) 1) as [Hc|]; [|done]. simpl in Hset.
  destruct (TxID_IsEmpty _); [done|]. apply bind_Ok_inv in Hset as (k1 & H1 & [= <-]).
  apply SetIndex_spec in H1 as (key & Hkey & [strs ->] & Hrec).
  pose proof (index_key_is_index _ _ Hkey) as Hik.
  assert (forall key', is_index_key key' = true ->
    Forall (fun r => equal_fold r (swap_item_id msg) = false) (index_record k key')) as Hun.
  { intros key' Hk'. eapply unlisted; [exact Hok| |exact Hk'].
    destruct Hfree as [->|[_ Hn]]; [by right|by left]. }
  rewrite existsb_fold_unlisted in Hrec by auto.
  set (k1 := with_strings k strs) in *.
  assert (forall key' r, is_index_key key' = true -> r ∈ index_record k key' ->
    GetKey prefixAdvSwapQueueItem r <> K) as Hne.
  { intros key' r Hk' Hr He. specialize (Hun key' Hk'). rewrite Forall_forall in Hun.
    specialize (Hun r Hr). apply not_true_iff_false in Hun. apply Hun, fold_item_key. done. }
  split; simpl.
  - intros K' m. rewrite lookup_insert_Some. intros [[<- <-]|[HK Hm]].
    + split_and!; [done|done|by split; [|exists key]|]. intros _. exists key. split; [done|].
      change (swap_item_id msg ∈ index_record k1 key).
      rewrite Hrec, decide_True by done. apply elem_of_app. right. by left.
    + destruct (qo_items _ _ Hok _ _ Hm) as (? & ? & ? & Hl). split_and!; [done..|].
      intros _. destruct Hl as (key' & Hkey' & Hin).
      { destruct Hfree as [->|[-> _]]; [|done]. intros [= He]. by apply HK. }
      exists key'. split; [done|]. change (swap_item_id m ∈ index_record k1 key').
      rewrite Hrec. case_decide; subst; [|done]. apply elem_of_app. by left.
  - intros key' Hk'. change (NoDup (index_record k1 key')). rewrite Hrec.
    pose proof (qo_nodup _ _ Hok key' Hk') as Hnd. case_decide; subst; [|done].
    apply NoDup_app. split_and!; [done| |apply NoDup_singleton].
    intros r Hr ->%list_elem_of_singleton. by apply (Hne key (swap_item_id msg) Hk' Hr).
  - intros key' r Hk' Hr. change (r ∈ index_record k1 key') in Hr.
    assert (r ∈ index_record k key' \/ (key' = key /\ r = swap_item_id msg)) as [Hr'| [-> ->] ].
    { rewrite Hrec in Hr. case_decide; subst; [|by left].
      apply elem_of_app in Hr as [?|?%list_elem_of_singleton]; auto. }
    + destruct (qo_back _ _ Hok key' r Hk' Hr') as (m & Hm & ? & ? & _).
      exists m. split_and!; [|done..]. rewrite lookup_insert_ne; [done|].
      intros He. by apply (Hne key' r Hk' Hr').
    + exists msg. split_and!; [|done..]. apply lookup_insert_eq.
Qed.

(** Two messages for one queue item: the same transaction, target and limit,
    so the same place in the index, whatever their states. *)
Lemma with_state_index msg st :
  getAdvSwapQueueIndexKey (with_state msg st) = getAdvSwapQueueIndexKey msg /\
  swap_item_id (with_state msg st) = swap_item_id msg.
Proof. done. Qed.

(** Saving a listed item again, after a sub-swap changed its state. *)
Lemma set_state_ok k msg st k' : queue_ok None k ->
  kAdvSwapQueue k !! adv_item_key (txID (mTx msg)) (mIndex msg) = Some msg ->
  SetAdvSwapQueueItem k (with_state msg st) = Ok k' -> queue_ok None k'.
Proof.
  intros Hok Hm Hset. unfold SetAdvSwapQueueItem in Hset. simpl in Hset.
  destruct (qo_items _ _ Hok _ _ Hm) as (_ & Hid & [Hc ?] & Hl). rewrite Hc in Hset. simpl in Hset.
  destruct (TxID_IsEmpty _); [done|]. apply bind_Ok_inv in Hset as (k1 & H1 & [= <-]).
  destruct (Hl ltac:(done)) as (key & Hkey & Hin).
  apply SetIndex_spec in H1 as (key' & Hkey' & [strs ->] & Hrec). cbn in Hkey'.
  change (getAdvSwapQueueIndexKey (with_state msg st)) with (getAdvSwapQueueIndexKey msg) in Hkey'.
  rewrite Hkey in Hkey'. injection Hkey' as <-. change (swap_item_id (with_state msg st)) with (swap_item_id msg) in Hrec.
  assert (existsb (equal_fold (swap_item_id msg)) (index_record k key) = true) as He.
  { apply existsb_exists. exists (swap_item_id msg).
    split; [by apply list_elem_of_In|apply equal_fold_refl]. }
  rewrite He in Hrec. set (k1 := with_strings k strs) in *.
  assert (forall key', index_record k1 key' = index_record k key') as Hsame.
  { intros key'. rewrite Hrec. by case_decide; subst. }
  split; simpl.
  - intros K m. rewrite lookup_insert_Some. intros [[<- <-]|[_ HK]].
    + split_and!; [done..|]. intros _. exists key. split; [done|]. by rewrite <- Hsame in Hin.
    + destruct (qo_items _ _ Hok _ _ HK) as (? & ? & ? & Hl'). split_and!; [done..|].
      intros _. destruct (Hl' ltac:(done)) as (key' & ? & Hin'). exists key'. split; [done|].
      by rewrite <- Hsame in Hin'.
  - intros key' Hk'. change (NoDup (index_record k1 key')). rewrite Hsame. by apply Hok.
  - intros key' r Hk' Hr. change (r ∈ index_record k1 key') in Hr. rewrite Hsame in Hr.
    destruct (qo_back _ _ Hok key' r Hk' Hr) as (m & Hm' & Hr' & Hkm & _).
    destruct (decide (GetKey prefixAdvSwapQueueItem r = adv_item_key (txID (mTx msg)) (mIndex msg)))
      as [He'|Hne].
    + exists (with_state msg st). rewrite He' in *. simplify_eq. split_and!; [|done..].
      apply lookup_insert_eq.
    + exists m. split_and!; [|done..]. by rewrite lookup_insert_ne.
Qed.

(** Taking a stored item out of the index leaves it as the hole. *)
Lemma remove_index_ok hole k msg st k' : queue_ok hole k ->
  kAdvSwapQueue k !! adv_item_key (txID (mTx msg)) (mIndex msg) = Some msg ->
  hole = None \/ hole = Some (adv_item_key (txID (mTx msg)) (mIndex msg)) ->
  RemoveAdvSwapQueueIndex k (with_state msg st) = Ok k' ->
  kAdvSwapQueue k' = kAdvSwapQueue k /\
  queue_ok (Some (adv_item_key (txID (mTx msg)) (mIndex msg))) k'.
Proof.
  intros Hok Hm Hhole Hrem. destruct (qo_items _ _ Hok _ _ Hm) as (_ & _ & _ & Hl).
  set (K := adv_item_key (txID (mTx msg)) (mIndex msg)) in *.
  apply RemoveIndex_spec in Hrem as (key & Hkey & [strs ->] & Hrec). split; [done|].
  change (getAdvSwapQueueIndexKey (with_state msg st)) with (getAdvSwapQueueIndexKey msg) in Hkey.
  change (swap_item_id (with_state msg st)) with (swap_item_id msg) in Hrec.
  pose proof (index_key_is_index _ _ Hkey) as Hik.
  set (k1 := with_strings k strs) in *.
  (* the records of every list, before: those after, and the removed one *)
  assert (forall key', is_index_key key' = true ->
    NoDup (index_record k1 key') /\
    forall r, r ∈ index_record k1 key' <->
      r ∈ index_record k key' /\ GetKey prefixAdvSwapQueueItem r <> K) as Hall.
  { intros key' Hk'. pose proof (qo_nodup _ _ Hok key' Hk') as Hnd.
    assert (forall r, r ∈ index_record k key' -> GetKey prefixAdvSwapQueueItem r = K ->
      key' = key /\ r = swap_item_id msg) as Hone.
    { intros r Hr He. destruct (qo_back _ _ Hok key' r Hk' Hr) as (m & Hm' & Hr' & Hkm & _).
      rewrite He, Hm in Hm'. injection Hm' as <-. rewrite Hkey in Hkm. by injection Hkm. }
    rewrite Hrec. case_decide as Hd; subst; [|split; [done|intros r; split; [|by intros [? _]]];
      intros Hr; split; [done|intros He; by destruct (Hone r Hr He)] ].
    destruct (find_fold _ _) as [i|] eqn:Ef.
    - apply find_fold_some in Ef as (r0 & Hi & He0).
      apply fold_item_key in He0. change (GetKey prefixAdvSwapQueueItem (swap_item_id msg)) with K in He0.
      destruct (Hone r0 (list_elem_of_lookup_2 _ _ _ Hi) He0) as [_ ->].
      destruct (removeString_elem _ _ _ Hnd Hi) as [Hnd' Hin']. split; [done|].
      intros r. rewrite Hin'. split; intros [Hr Hne]; (split; [done|]).
      + intros He. by destruct (Hone r Hr He).
      + intros ->. by apply Hne.
    - apply find_fold_none in Ef. rewrite Forall_forall in Ef. split; [done|].
      intros r. split; [|by intros [? _]]. intros Hr. split; [done|]. intros He.
      apply (fold_item_key r (swap_item_id msg)) in He. by rewrite Ef in He. }
  split.
  - intros K' m HK. destruct (qo_items _ _ Hok _ _ HK) as (HK' & ? & ? & Hl').
    split_and!; [done..|]. intros Hne. destruct Hl' as (key' & Hkey' & Hin).
    { destruct Hhole as [->| ->]; [done|]. congruence. }
    exists key'. split; [done|]. apply Hall; [by eapply index_key_is_index|].
    split; [done|]. change (GetKey prefixAdvSwapQueueItem (swap_item_id m)) with
      (adv_item_key (txID (mTx m)) (mIndex m)). congruence.
  - intros key' Hk'. by apply Hall.
  - intros key' r Hk' [Hr Hne]%Hall; [|done].
    destruct (qo_back _ _ Hok key' r Hk' Hr) as (m & ? & ? & ? & _).
    exists m. split_and!; [done..|]. congruence.
Qed.

(** Deleting the hole, or an absent item, closes the invariant. *)
Lemma delete_item_ok K hole k : queue_ok hole k ->
  hole = Some K \/ (hole = None /\ kAdvSwapQueue k !! K = None) ->
  queue_ok None (with_adv_swap_queue k (delete K (kAdvSwapQueue k))).
Proof.
  intros Hok HK. split; simpl.
  - intros K' m [Hne Hm]%lookup_delete_Some.
    destruct (qo_items _ _ Hok _ _ Hm) as (? & ? & ? & Hl). split_and!; [done..|].
    intros _. apply Hl. destruct HK as [->|[-> _] ]; congruence.
  - apply Hok.
  - intros key r Hk Hr. destruct (qo_back _ _ Hok key r Hk Hr) as (m & Hm & ? & ? & Hh).
    exists m. split_and!; [|done..]. apply lookup_delete_Some. split; [|done].
    intros He. rewrite He in HK. destruct HK as [HK|[_ HK] ]; congruence.
Qed.

Lemma item_key_of k hole id i msg : queue_ok hole k ->
  GetAdvSwapQueueItem k id i = Ok msg ->
  adv_item_key id i = adv_item_key (txID (mTx msg)) (mIndex msg) /\
  kAdvSwapQueue k !! adv_item_key (txID (mTx msg)) (mIndex msg) = Some msg.
Proof.
  intros Hok. unfold GetAdvSwapQueueItem. destruct (_ !! _) as [m|] eqn:Hm; [|done].
  intros [= ->]. destruct (qo_items _ _ Hok _ _ Hm) as (<- & _). done.
Qed.

Lemma with_state_id msg : with_state msg (State msg) = msg.
Proof. by destruct msg. Qed.

(** [RemoveAdvSwapQueueItem] closes the invariant, also after the index entry
    has already been removed. *)
Lemma remove_item_ok hole k id i k' e : queue_ok hole k ->
  hole = None \/ hole = Some (adv_item_key id i) ->
  RemoveAdvSwapQueueItem k id i = Ok (k', e) -> queue_ok None k'.
Proof.
  intros Hok Hhole. unfold RemoveAdvSwapQueueItem.
  destruct (GetAdvSwapQueueItem k id i) as [msg|er|] eqn:Hg; simpl; [| |done].
  - destruct (item_key_of _ _ _ _ _ Hok Hg) as [HK Hm].
    destruct (RemoveAdvSwapQueueIndex k msg) as [k1|er|] eqn:Hr; simpl; [| |done].
    + intros [= <- <-]. rewrite <- (with_state_id msg) in Hr.
      rewrite HK in *. destruct (remove_index_ok _ _ _ _ _ Hok Hm Hhole Hr) as [_ Hok1].
      eapply delete_item_ok; [exact Hok1|]. by left.
    + (* a listed item has a coin and an index key *)
      exfalso. destruct (qo_items _ _ Hok _ _ Hm) as (_ & _ & [Hc [key Hkey] ] & _).
      unfold RemoveAdvSwapQueueIndex in Hr. destruct (txCoins (mTx msg)); [done|].
      rewrite Hkey in Hr. simpl in Hr. repeat case_match; done.
  - intros [= <- <-]. eapply delete_item_ok; [exact Hok|].
    destruct Hhole as [->| ->]; [|by left]. right. split; [done|].
    unfold GetAdvSwapQueueItem in Hg. by destruct (_ !! _).
Qed.

(** Taking an item out for good, the end of [settleSwap]: the index entry,
    then the item; errors are logged. *)
Definition remove_settled k (msg : MsgSwap) : outcome Store :=
  k1 ← match RemoveAdvSwapQueueIndex k msg with
    | Ok k1 => Ok k1
    | Err _ => Ok k
    | Panic => Panic
    end;
  '(k2, _) ← RemoveAdvSwapQueueItem k1 (txID (mTx msg)) (mIndex msg);
  Ok k2.

Definition with_target (msg : MsgSwap) (target : Z) : MsgSwap :=
  mkMsgSwap (mTx msg) (TargetAsset msg) (Destination msg) target (AffiliateAddress msg)
    (AffiliateBasisPoints msg) (mSigner msg) (mAggregator msg) (AggregatorTargetAddress msg)
    (AggregatorTargetLimit msg) (mSwapType msg) (StreamQuantity msg) (StreamInterval msg)
    (InitialBlockHeight msg) (State msg) (mVersion msg) (mIndex msg).

(** [modifyLimitSwap] of handler_modify_limit_swap.go. *)
Definition modifyLimitSwap k (msgSwap : MsgSwap) (newTargetAmount : Z) : outcome Store :=
  k ← RemoveAdvSwapQueueIndex k msgSwap;
  SetAdvSwapQueueItem k (with_target msgSwap newTargetAmount).

(** Everything that writes the queue's part of the store: a new swap, a swap
    saved after a sub-swap, a limit changed, a swap settled or removed, the
    expiry lists, and steps that leave the queue alone. *)
Inductive queue_step : Store -> Store -> Prop :=
| queue_add k msg k' :
    canonical_id msg -> HasAdvSwapQueueItem k (txID (mTx msg)) (mIndex msg) = false ->
    SetAdvSwapQueueItem k msg = Ok k' -> queue_step k k'
| queue_save k id i msg st k' :
    GetAdvSwapQueueItem k id i = Ok msg ->
    SetAdvSwapQueueItem k (with_state msg st) = Ok k' -> queue_step k k'
| queue_modify k id i msg target k' :
    GetAdvSwapQueueItem k id i = Ok msg ->
    modifyLimitSwap k msg target = Ok k' -> queue_step k k'
| queue_settle k id i msg st k' :
    GetAdvSwapQueueItem k id i = Ok msg ->
    remove_settled k (with_state msg st) = Ok k' -> queue_step k k'
| queue_remove k id i k' e :
    RemoveAdvSwapQueueItem k id i = Ok (k', e) -> queue_step k k'
| queue_set_ttl k h ids k' : SetLimitSwapTTL k h ids = Ok k' -> queue_step k k'
| queue_add_ttl k h id k' : AddToLimitSwapTTL k h id = Ok k' -> queue_step k k'
| queue_remove_ttl k h : queue_step k (RemoveLimitSwapTTL k h)
| queue_other k k' :
    kAdvSwapQueue k' = kAdvSwapQueue k ->
    (forall key, is_index_key key = true -> index_record k' key = index_record k key) ->
    queue_step k k'.

Lemma frame_ok k k' : queue_ok None k -> kAdvSwapQueue k' = kAdvSwapQueue k ->
  (forall key, is_index_key key = true -> index_record k' key = index_record k key) ->
  queue_ok None k'.
Proof.
  intros Hok Ha Hr. split.
  - intros K msg. rewrite Ha. intros HK. destruct (qo_items _ _ Hok _ _ HK) as (? & ? & ? & Hl).
    split_and!; [done..|]. intros Hh. destruct (Hl Hh) as (key & Hkey & Hin).
    exists key. split; [done|]. rewrite Hr; [done|]. by eapply index_key_is_index.
  - intros key Hk. rewrite Hr by done. by apply Hok.
  - intros key r Hk. rewrite Hr, Ha by done. by apply Hok.
Qed.

Lemma ttl_frame k h l : queue_ok None k -> queue_ok None (setStrings k (ttl_key h) l).
Proof.
  intros Hok. destruct (setStrings_with k (ttl_key h) l) as [m Hm].
  eapply frame_ok; [done|by rewrite Hm|]. intros key Hk. rewrite setStrings_record.
  case_decide; subst; [|done]. by rewrite ttl_key_not_index in Hk.
Qed.

Lemma settled_ok k id i msg st k' : queue_ok None k -> GetAdvSwapQueueItem k id i = Ok msg ->
  remove_settled k (with_state msg st) = Ok k' -> queue_ok None k'.
Proof.
  intros Hok Hg. destruct (item_key_of _ _ _ _ _ Hok Hg) as [_ Hm]. unfold remove_settled.
  intros (k1 & H1 & Hrest)%bind_Ok_inv. apply bind_Ok_inv in Hrest as ([k2 e] & H2 & [= <-]).
  change (txID (mTx (with_state msg st))) with (txID (mTx msg)) in H2.
  change (mIndex (with_state msg st)) with (mIndex msg) in H2.
  destruct (RemoveAdvSwapQueueIndex k _) as [k1'|er|] eqn:Hr; simplify_eq/=.
  - destruct (remove_index_ok _ _ _ _ _ Hok Hm ltac:(by left) Hr) as [_ Hok1].
    eapply remove_item_ok; [exact Hok1| |exact H2]. by right.
  - eapply remove_item_ok; [exact Hok| |exact H2]. by left.
Qed.

Lemma modify_ok k id i msg target k' : queue_ok None k -> GetAdvSwapQueueItem k id i = Ok msg ->
  modifyLimitSwap k msg target = Ok k' -> queue_ok None k'.
Proof.
  intros Hok Hg. destruct (item_key_of _ _ _ _ _ Hok Hg) as [_ Hm]. unfold modifyLimitSwap.
  intros (k1 & H1 & H2)%bind_Ok_inv. rewrite <- (with_state_id msg) in H1.
  destruct (remove_index_ok _ _ _ _ _ Hok Hm ltac:(by left) H1) as [_ Hok1].
  eapply set_unlisted_ok; [exact Hok1| | |exact H2]; [|by left].
  by destruct (qo_items _ _ Hok _ _ Hm) as (_ & ? & _).
Qed.

Lemma queue_step_ok k k' : queue_step k k' -> queue_ok None k -> queue_ok None k'.
Proof.
  intros Hs Hok. destruct Hs.
  - eapply set_unlisted_ok; [exact Hok|done| |done]. right. split; [done|].
    unfold HasAdvSwapQueueItem in *. case_bool_decide as Hn; [done|]. by apply eq_None_not_Some.
  - destruct (item_key_of _ _ _ _ _ Hok H0) as [_ Hm]. by eapply set_state_ok.
  - by eapply modify_ok.
  - by eapply settled_ok.
  - eapply remove_item_ok; [exact Hok| |done]. by left.
  - unfold SetLimitSwapTTL in *. case_match; [done|]. simplify_eq. by apply ttl_frame.
  - unfold AddToLimitSwapTTL in *. case_match; [done|]. apply bind_Ok_inv in H0 as (l & _ & H0).
    case_match; [by simplify_eq|]. unfold SetLimitSwapTTL in H0. case_match; [done|].
    simplify_eq. by apply ttl_frame.
  - unfold RemoveLimitSwapTTL. case_match; [done|]. by apply (ttl_frame k h []).
  - by eapply frame_ok.
Qed.

(** No queue yet: the store of a new chain. *)
Definition queue_empty k : Prop :=
  kAdvSwapQueue k = ∅ /\ forall key, is_index_key key = true -> index_record k key = [].

Lemma queue_reachable_ok k0 k : queue_empty k0 -> rtc queue_step k0 k -> queue_ok None k.
Proof.
  intros [Ha Hr] Hrtc. assert (queue_ok None k0) as Hok.
  { split.
    - intros K msg. rewrite Ha. by rewrite lookup_empty.
    - intros key Hk. rewrite Hr by done. constructor.
    - intros key r Hk. rewrite Hr by done. by intros ?%not_elem_of_nil. }
  clear Ha Hr. induction Hrtc; [done|]. eauto using queue_step_ok.
Qed.

Lemma NoDup_omap_inj {A C} (f : A -> option C) (l : list A) :
  (forall x y c, x ∈ l -> y ∈ l -> f x = Some c -> f y = Some c -> x = y) ->
  NoDup l -> NoDup (omap f l).
Proof.
  intros Hinj Hnd. induction Hnd as [|x l Hx Hnd IH]; [constructor|]. simpl.
  assert (NoDup (omap f l)) as Hl.
  { apply IH. intros y z c Hy Hz. apply Hinj; by right. }
  destruct (f x) as [c|] eqn:E; [|done]. apply NoDup_cons. split; [|done].
  intros (y & Hy & Hf)%list_elem_of_omap. apply Hx.
  rewrite (Hinj x y c); [done|by left|by right|done|done].
Qed.

(** What reading the index at one place returns. *)
Lemma index_listing k probe key l : queue_ok None k ->
  getAdvSwapQueueIndexKey probe = Ok key -> GetAdvSwapQueueIndex k probe = Ok l ->
  NoDup l /\
  forall id i, (id, i) ∈ l <->
    exists msg, GetAdvSwapQueueItem k id i = Ok msg /\
      txID (mTx msg) = id /\ mIndex msg = i /\ getAdvSwapQueueIndexKey msg = Ok key.
Proof.
  intros Hok Hkey Hl.
  unfold GetAdvSwapQueueIndex in Hl. rewrite Hkey in Hl. simpl in Hl. injection Hl as <-.
  pose proof (index_key_is_index _ _ Hkey) as Hik.
  assert (forall r p, r ∈ index_record k key -> parse_index_record r = Some p ->
    exists msg, GetAdvSwapQueueItem k p.1 p.2 = Ok msg /\ swap_item_id msg = r /\
      p = (txID (mTx msg), mIndex msg) /\ getAdvSwapQueueIndexKey msg = Ok key) as Hrec.
  { intros r p Hr Hp. destruct (qo_back _ _ Hok key r Hik Hr) as (msg & Hm & <- & Hmk & _).
    destruct (qo_items _ _ Hok _ _ Hm) as (_ & Hid & _).
    rewrite parse_swap_item_id in Hp by done. injection Hp as <-. exists msg. simpl.
    split_and!; [|done..]. unfold GetAdvSwapQueueItem, adv_item_key.
    unfold swap_item_id in Hm. by rewrite Hm. }
  split.
  - apply NoDup_omap_inj; [|by apply Hok]. intros x y p Hx Hy Hpx Hpy.
    destruct (Hrec x p Hx Hpx) as (m1 & _ & <- & -> & _).
    destruct (Hrec y _ Hy Hpy) as (m2 & _ & <- & Heq & _).
    unfold swap_item_id. by injection Heq as -> ->.
  - intros id i. rewrite list_elem_of_omap. split.
    + intros (r & Hr & Hp). destruct (Hrec r _ Hr Hp) as (msg & ? & _ & [= -> ->] & ?). eauto.
    + intros (msg & Hg & <- & <- & Hmk). destruct (item_key_of _ _ _ _ _ Hok Hg) as [_ Hm].
      destruct (qo_items _ _ Hok _ _ Hm) as (_ & Hid & _ & Hlist).
      destruct (Hlist ltac:(done)) as (key' & Hkey' & Hin). rewrite Hmk in Hkey'.
      injection Hkey' as <-. exists (swap_item_id msg). split; [done|]. by apply parse_swap_item_id.
Qed.

(** C9. Whatever sequence of additions, saves, limit changes, settlements and
    removals the queue goes through from an empty store, reading the index at
    a message's place returns, without repetition, exactly the hash and index
    of every stored item whose place it is: a limit swap is listed under its
    current price and nowhere else, and no entry is stale. *)
Theorem swap_index_exact k0 k probe key l :
  queue_empty k0 -> rtc queue_step k0 k ->
  getAdvSwapQueueIndexKey probe = Ok key -> GetAdvSwapQueueIndex k probe = Ok l ->
  NoDup l /\
  forall id i, (id, i) ∈ l <->
    exists msg, GetAdvSwapQueueItem k id i = Ok msg /\
      txID (mTx msg) = id /\ mIndex msg = i /\ getAdvSwapQueueIndexKey msg = Ok key.
Proof. intros H0 Hrtc. by apply index_listing, (queue_reachable_ok k0). Qed.
End queue_invariant.

(** ** The properties at concrete inputs *)

Definition demo_hash : TxID := "AAAAAAAABBBBBBBBCCCCCCCCDDDDDDDDAAAAAAAABBBBBBBBCCCCCCCCDDDDDDDD".
Definition demo_limit (index amount target : Z) : MsgSwap :=
  mkMsgSwap (mkTx demo_hash BTCChain "a" "b" [mkCoin BTCAsset amount 0] [mkCoin BTCAsset 1 0] "=<:ETH.ETH") ETHAsset "b"
    target "" 0 "s" "" "" None SwapType_limit 1 0 5
    (mkSwapState 0 1 0 0 0 amount 0 0 0 [] []) SwapVersion_v2 index.

Lemma demo_limit_msg index amount target : is_uint amount -> is_uint target ->
  limit_price amount target < 10 ^ 18 ->
  limit_msg BTCAsset ETHAsset (limit_price amount target) (demo_limit index amount target).
Proof. intros Ha Ht Hp. split; [done| |done|done|done]. by eexists amount, 0, []. Qed.

Lemma limit_index_orders_prices_witness :
  let p1 := limit_price 3 400 in let p2 := limit_price 50 2 in
  exists k1 k2, getAdvSwapQueueIndexKey (demo_limit 0 3 400) = Ok k1 /\
    getAdvSwapQueueIndexKey (demo_limit 1 50 2) = Ok k2 /\
    str_ltb k1 k2 = (p1 <? p2) /\ (k1 = k2 <-> p1 = p2).
Proof.
  intros p1 p2. eexists _, _. split; [vm_compute; reflexivity|]. split; [vm_compute; reflexivity|].
  apply (limit_index_orders_prices BTCAsset ETHAsset p1 p2 (demo_limit 0 3 400) (demo_limit 1 50 2)).
  - apply demo_limit_msg; unfold is_uint; vm_compute; split; congruence || reflexivity.
  - apply demo_limit_msg; unfold is_uint; vm_compute; split; congruence || reflexivity.
  - vm_compute. reflexivity.
  - vm_compute. reflexivity.
Defined.

(** Beyond eighteen digits the key keeps the leading digits only, and a higher
    price can sort below a lower one: the price is scaled by 10^8, so the
    limit is a ratio of 10^10, not the 10^12 ("1 trillion to 1") that the
    comment on [ratioLength] gives. *)
Example long_prices_misordered : exists k1 k2,
  getAdvSwapQueueIndexKey (demo_limit 0 (2 * 10 ^ 9) 1) = Ok k1 /\
  getAdvSwapQueueIndexKey (demo_limit 0 (10 ^ 10) 1) = Ok k2 /\
  str_ltb k2 k1 = true.
Proof. eexists _, _. split; [vm_compute; reflexivity|]. split; vm_compute; reflexivity. Qed.

Definition demo_queue_0 : KVStore SimpleBank := empty_store demo_bank 7.
Definition ok_or {A} (d : A) (m : outcome A) : A := match m with Ok a => a | _ => d end.
Definition demo_queue_1 := ok_or demo_queue_0 (SetAdvSwapQueueItem demo_queue_0 (demo_limit 0 3 400)).
Definition demo_queue_2 := ok_or demo_queue_0 (SetAdvSwapQueueItem demo_queue_1 (demo_limit 1 6 800)).
Definition demo_queue_3 := ok_or demo_queue_0 (modifyLimitSwap demo_queue_2 (demo_limit 0 3 400) 100).

Lemma demo_queue_steps : rtc queue_step demo_queue_0 demo_queue_3.
Proof.
  eapply rtc_l with demo_queue_1.
  { apply (queue_add _ (demo_limit 0 3 400)); [by split; vm_compute| |]; vm_compute; reflexivity. }
  eapply rtc_l with demo_queue_2.
  { apply (queue_add _ (demo_limit 1 6 800)); [by split; vm_compute| |]; vm_compute; reflexivity. }
  apply rtc_once.
  apply (queue_modify _ demo_hash 0 (demo_limit 0 3 400) 100); vm_compute; reflexivity.
Qed.

Lemma swap_index_exact_witness :
  GetAdvSwapQueueIndex demo_queue_3 (demo_limit 7 3 100) = Ok [(demo_hash, 0)] /\
  NoDup [(demo_hash, 0)] /\
  (exists msg, GetAdvSwapQueueItem demo_queue_3 demo_hash 0 = Ok msg /\ TradeTarget msg = 100).
Proof.
  split; [vm_compute; reflexivity|]. split; [|eexists; split; vm_compute; reflexivity].
  apply (swap_index_exact demo_queue_0 demo_queue_3 (demo_limit 7 3 100)
    (ok_or "" (getAdvSwapQueueIndexKey (demo_limit 7 3 100)))).
  - split; reflexivity.
  - exact demo_queue_steps.
  - vm_compute. reflexivity.
  - vm_compute. reflexivity.
Defined.
