(* ===== verification/Halt.v ===== *)
(** Halting: [x/thorchain/keeper/v1/keeper_halt.go], the configuration values
    that stop trading, chains and liquidity actions, and [IsRagnarok] of
    [keeper_ragnarok.go]. *)
From S2P Require Import Prelude SdkMath GoStr Keys Shares Chains Assets Coins Bank Nodes Txs.
From S2P Require Import Mimir Pools Streaming Keeper.
Local Open Scope string_scope.
Local Open Scope Z_scope.

(** The messages [IsTradingHalt] distinguishes; of an add-liquidity message it
    reads the asset. *)
Inductive TradeMsg : Type :=
| SwapMsg (m : MsgSwap)
| AddLiquidityMsg (asset : Asset)
| OtherMsg.

Section halt.
Context {B : Type} `{Bank B}.
Abbreviation Store := (KVStore B) (only parsing).

(** A height from which something is halted. *)
Definition halted_from (k : Store) (key : string) : bool :=
  let v := GetMimir k key in (0 <? v) && (v <=? kHeight k).

(** Gas assets of the chains are checked too; [range] runs over the assets
    given. *)
Definition IsRagnarok (k : Store) (assets : list Asset) : bool :=
  let '(checked, _) :=
    foldl (fun '(acc, seen) a =>
      let gasAsset := GetGasAsset (GetChain a) in
      if negb (Asset_Equals a gasAsset) && negb (existsb (String.eqb (MimirString gasAsset)) seen)
      then ((acc ++ [gasAsset])%list, MimirString gasAsset :: seen)
      else (acc, seen)) (assets, []) assets in
  existsb (fun a => 0 <? GetMimir k ("RAGNAROK-" ++ MimirString a)) checked.

Definition IsGlobalTradingHalted (k : Store) : bool :=
  RagnarokInProgress k || halted_from k "HaltTrading".

Definition IsChainHalted (k : Store) (chain : Chain) : bool :=
  halted_from k "HaltChainGlobal" ||
  (kHeight k <=? GetMimir k "NodePauseChainGlobal") ||
  halted_from k ("Halt" ++ Chain_String chain ++ "Chain") ||
  halted_from k ("SolvencyHalt" ++ Chain_String chain ++ "Chain").

Definition IsChainTradingHalted (k : Store) (chain : Chain) : bool :=
  halted_from k ("Halt" ++ Chain_String chain ++ "Trading") || IsChainHalted k chain.

Definition IsLPPaused (k : Store) (chain : Chain) : bool :=
  halted_from k "PauseLP" || halted_from k ("PauseLP" ++ Chain_String chain).

Definition IsPoolDepositPaused (k : Store) (asset : Asset) : bool :=
  0 <? GetMimir k ("PauseLPDeposit-" ++ MimirString asset).

Definition IsTCYTradingHalted (k : Store) : bool :=
  halted_from k "HaltTCYTrading" || IsGlobalTradingHalted k || IsChainHalted k THORChain.

(** The assets whose Ragnarok halts the message. *)
Definition halt_assets (msg : TradeMsg) : list Asset :=
  match msg with
  | SwapMsg m =>
      match txCoins (mTx m) with
      | [] => []
      | c :: _ =>
          let source := cAsset c in
          if IsSyntheticAsset source && Asset_Equals (TargetAsset m) (GetLayer1Asset source)
          then [] else [source; TargetAsset m]
      end
  | AddLiquidityMsg asset => [asset]
  | OtherMsg => []
  end.

Definition IsTradingHalt (k : Store) (msg : TradeMsg) : bool :=
  match msg with
  | SwapMsg m =>
      match txCoins (mTx m) with
      | [] => IsGlobalTradingHalted k
      | c :: _ =>
          if IsRagnarok k (halt_assets msg) then true
          else
            let sourceAsset := cAsset c in
            let source := aChain (GetLayer1Asset sourceAsset) in
            let target := aChain (GetLayer1Asset (TargetAsset m)) in
            if IsTCY sourceAsset then IsTCYTradingHalted k || IsChainTradingHalted k target
            else if IsTCY (TargetAsset m) then
              IsTCYTradingHalted k || IsChainTradingHalted k source
            else IsChainTradingHalted k source || IsChainTradingHalted k target ||
                 IsGlobalTradingHalted k
      end
  | AddLiquidityMsg asset =>
      if IsRagnarok k (halt_assets msg) then true
      else if IsTCY asset then IsTCYTradingHalted k
      else IsChainTradingHalted k (aChain asset) || IsGlobalTradingHalted k
  | OtherMsg => if IsRagnarok k (halt_assets msg) then true else IsGlobalTradingHalted k
  end.
End halt.

(** ** Lemmas *)
Section halt_lemmas.
Context {B : Type} `{Bank B} `{!BankOk B} {S : SdkMath} `{!SdkMathOk S}.

Lemma halted_from_one (k : KVStore B) key : GetMimir k key = 1 -> 1 <= kHeight k ->
  halted_from k key = true.
Proof using. intros Hm Hh. unfold halted_from. rewrite Hm. by apply Z.leb_le in Hh. Qed.

(** The settings [HaltEverything] writes. *)
Definition halt_keys : list string := ["HaltTrading"; "HaltChainGlobal"; "PauseLP"; "HaltTHORChain"].

Lemma HaltEverything_mimirs (k : KVStore B) key :
  In key halt_keys -> GetMimir (HaltEverything k) key = 1.
Proof using.
  intros Hin. unfold HaltEverything, halt_keys in *. simpl in Hin.
  repeat (destruct Hin as [<-|Hin]); try done; by rewrite !GetMimir_SetMimir.
Qed.

(** They halt from block 1 on for as long as they stay. *)
Lemma halt_keys_halt (k : KVStore B) : 1 <= kHeight k -> (forall key, In key halt_keys -> GetMimir k key = 1) ->
  IsGlobalTradingHalted k = true /\ (forall chain, IsChainHalted k chain = true) /\
  (forall chain, IsLPPaused k chain = true).
Proof using.
  intros Hh Hm. unfold IsGlobalTradingHalted, IsChainHalted, IsLPPaused.
  rewrite !halted_from_one; try (by apply Hm; unfold halt_keys; simpl; auto); auto.
  by rewrite orb_true_r.
Qed.

(** A global halt stops every message. *)
Lemma IsTradingHalt_global (k : KVStore B) msg : IsGlobalTradingHalted k = true ->
  IsTradingHalt k msg = true.
Proof using.
  intros Hg. unfold IsTradingHalt, IsTCYTradingHalted. rewrite Hg.
  destruct msg as [m|a|]; [destruct (txCoins (mTx m)); [done|]|..];
    repeat case_if; by rewrite ?orb_true_r.
Qed.

(** A mint that changes a supply either leaves DECA within its cap or has
    halted everything. *)
Lemma MintToModule_over_cap (k k' : KVStore B) module coin :
  MintToModule k module coin = Ok k' ->
  (exists d, bank_supply (kBank k') d <> bank_supply (kBank k) d) ->
  0 < GetMimir k "MaxDecaSupply" < deca_supply k' ->
  exists k0, k' = HaltEverything k0 /\ kHeight k' = kHeight k.
Proof using BankOk0.
  intros Hmint [d Hd] [Hcap Hover]. unfold MintToModule in Hmint.
  apply bind_Ok_inv in Hmint as ([k1 c1] & Hbr & Hmint).
  assert (Hk1 : (forall d, bank_supply (kBank k1) d = bank_supply (kBank k) d) /\
    GetMimir k1 "MaxDecaSupply" = GetMimir k "MaxDecaSupply" /\ kHeight k1 = kHeight k).
  { unfold circuit_breaker in Hbr. case_if_in Hbr; [|by simplify_eq].
    apply bind_Ok_inv in Hbr as (cs & _ & Hbr). apply bind_Ok_inv in Hbr as (av & _ & Hbr).
    case_if_in Hbr; [|by simplify_eq]. ok_inv.
    match goal with Hs : SendFromModuleToModule _ _ _ _ = _ |- _ =>
      unfold SendFromModuleToModule in Hs; ok_inv end.
    match goal with Hs : bank_send _ _ _ _ _ = Ok _ |- _ => apply bank_send_ok in Hs as [_ Hs] end.
    done. }
  destruct Hk1 as (Hsup & Hm & Hh). case_if_in Hmint; [simplify_eq; by destruct (Hd (Hsup d))|].
  apply bind_Ok_inv in Hmint as ([dn n] & _ & Hmint).
  apply bind_Ok_inv in Hmint as (b & _ & Hmint).
  unfold deca_supply in Hover. change (Asset_Native DecaAsset) with "deca" in Hmint.
  change (GetMimir (with_bank k1 b) "MaxDecaSupply") with (GetMimir k1 "MaxDecaSupply") in Hmint.
  rewrite Hm in Hmint. case_if_in Hmint; simplify_eq; [by exists (with_bank k1 b)|].
  apply andb_false_iff in E0. simpl in *. destruct E0; z_bool; lia.
Qed.
End halt_lemmas.

(** ** Properties *)

(** C37. The supply circuit breaker stops the network: once a mint has changed a
    supply and left more DECA than the cap, trading is halted for every message,
    every chain is halted and liquidity actions are paused, in the store after
    the mint and in every later one in which the four settings it wrote are the
    same.  A mint that changes no supply (of DECA that is all borrowed from the
    Reserve, or of nothing) halts nothing, even with the supply over the cap. *)
Theorem over_cap_halts_network {B} `{Bank B} `{!BankOk B} {S : SdkMath} (k k' k2 : KVStore B)
    module coin :
  1 <= kHeight k -> MintToModule k module coin = Ok k' ->
  (exists d, bank_supply (kBank k') d <> bank_supply (kBank k) d) ->
  0 < GetMimir k "MaxDecaSupply" < deca_supply k' ->
  kHeight k' <= kHeight k2 -> (forall key, In key halt_keys -> GetMimir k2 key = GetMimir k' key) ->
  (forall msg, IsTradingHalt k2 msg = true) /\
  (forall chain, IsChainHalted k2 chain = true) /\
  (forall chain, IsLPPaused k2 chain = true).
Proof.
  intros Hh Hmint Hsup Hover Hlater Hkeys.
  destruct (MintToModule_over_cap k k' module coin Hmint Hsup Hover) as (k0 & -> & Hk).
  destruct (halt_keys_halt k2) as (Hg & Hc & Hl); [lia| |].
  { intros key Hin. rewrite Hkeys by done. by apply HaltEverything_mimirs. }
  split; [|done]. intros msg. by apply IsTradingHalt_global.
Qed.

(** ** The properties at concrete inputs *)

Definition demo_over_store : KVStore SimpleBank :=
  SetMimir (empty_store (mkSimpleBank ∅ {["deca" := 1200]}) 7) "MaxDecaSupply" 1000.

Lemma over_cap_halts_network_witness : exists k',
  MintToModule (S := sdk_std) demo_over_store ModuleName (NewCoin (GetSyntheticAsset BTCAsset) 5)
    = Ok k' /\
  IsTradingHalt (with_height k' 1000) OtherMsg = true /\
  IsChainHalted (with_height k' 1000) BTCChain = true /\ IsLPPaused (with_height k' 1000) BTCChain = true.
Proof.
  eexists. split; [vm_compute; reflexivity|].
  match goal with |- IsTradingHalt (with_height ?k _) _ = _ /\ _ => set (k' := k) end.
  destruct (over_cap_halts_network (S := sdk_std) demo_over_store k' (with_height k' 1000) ModuleName
    (NewCoin (GetSyntheticAsset BTCAsset) 5)) as (H1 & H2 & H3).
  - discriminate.
  - vm_compute. reflexivity.
  - exists "btc/btc". vm_compute. discriminate.
  - split; vm_compute; reflexivity.
  - vm_compute. discriminate.
  - intros key _. reflexivity.
  - split; [apply H1|]. split; [apply H2|apply H3].
Defined.
