(* ===== verification/VaultStore.v ===== *)
(** The vaults in the store: [x/thorchain/keeper/v1/keeper_vault.go], with the
    index of Asgard vaults and the index from EdDSA to ECDSA keys. *)
From S2P Require Import Prelude SdkMath GoStr Keys Shares Chains Assets Coins Bank Vaults Keeper.
Local Open Scope string_scope.
Local Open Scope Z_scope.

Section vault_store.
Context {B : Type} {K : SdkKeys}.
Abbreviation Store := (KVStore B) (only parsing).

Definition asgard_index_key : string := GetKey prefixVaultAsgardIndex "".
Definition eddsa_key (pk : PubKey) : string := GetKey prefixVaultAsgardEDDSAIndex (PubKey_String pk).
Definition vault_key (pk : PubKey) : string := GetKey prefixVault (PubKey_String pk).

Fixpoint parse_index (l : list string) : outcome (list PubKey) :=
  match l with
  | [] => Ok []
  | s :: l' => pk ← NewPubKey s; pks ← parse_index l'; Ok (pk :: pks)
  end.
Definition getAsgardIndex (k : Store) : outcome (list PubKey) :=
  parse_index (default [] (getStrings k asgard_index_key)).

Definition addAsgardIndex (k : Store) (pubkey : PubKey) : outcome Store :=
  pks ← getAsgardIndex k;
  if existsb (fun pk => PubKey_Equals pk pubkey) pks then Ok k
  else Ok (setStrings k asgard_index_key (PubKeys_Strings (pks ++ [pubkey]))).

Definition addAsgardEDDSAIndex (k : Store) (pubKeyEDDSA pubkeyECDSA : PubKey) : Store :=
  setStrings k (eddsa_key pubKeyEDDSA) [PubKey_String pubkeyECDSA].

(** [record[0]]: a stored list is never empty. *)
Definition getAsgardEDDSAIndex (k : Store) (pubKeyEDDSA : PubKey) : outcome PubKey :=
  match getStrings k (eddsa_key pubKeyEDDSA) with
  | None => Ok EmptyPubKey
  | Some [] => Panic
  | Some (s :: _) => Ok s
  end.

Definition RemoveFromAsgardIndex (k : Store) (pubkey : PubKey) : outcome Store :=
  pks ← getAsgardIndex k;
  Ok (setStrings k asgard_index_key
    (PubKeys_Strings (List.filter (fun pk => negb (PubKey_Equals pk pubkey)) pks))).

Definition SetVault (k : Store) (vault : Vault) : outcome Store :=
  k ← (if IsAsgard vault then
         k ← addAsgardIndex k (vPubKey vault);
         if negb (PubKey_IsEmpty (PubKeyEddsa vault))
         then Ok (addAsgardEDDSAIndex k (PubKeyEddsa vault) (vPubKey vault)) else Ok k
       else Ok k);
  Ok (with_vaults k (<[vault_key (vPubKey vault) := vault]> (kVaults k))).

Definition has_vault (k : Store) (pk : PubKey) : bool :=
  bool_decide (is_Some (kVaults k !! vault_key pk)).
Definition VaultExists (k : Store) (pk : PubKey) : outcome bool :=
  eddsaPubKey ← getAsgardEDDSAIndex k pk;
  Ok (has_vault k pk || negb (PubKey_IsEmpty eddsaPubKey)).

(** The fields a stored vault may lack. *)
Definition complete_vault (k : Store) (pk : PubKey) (v : Vault) : Vault :=
  mkVault (if vBlockHeight v =? 0 then kHeight k else vBlockHeight v)
    (if PubKey_IsEmpty (vPubKey v) then pk else vPubKey v)
    (vCoins v) (vType v) (vStatus v) (vStatusSince v) (vMembership v) (vChains v)
    (InboundTxCount v) (OutboundTxCount v) (PendingTxBlockHeights v) (Routers v) (Frozen v)
    (PubKeyEddsa v).

(** The lookup by the EdDSA index calls [GetVault] again.  A chain of entries
    longer than the index repeats one, and the call never returns: the stack
    overflows. *)
Fixpoint get_vault (fuel : nat) (k : Store) (pk : PubKey) : outcome Vault :=
  match kVaults k !! vault_key pk with
  | Some v => Ok (complete_vault k pk v)
  | None =>
      ecdsaPubKey ← getAsgardEDDSAIndex k pk;
      if negb (PubKey_IsEmpty ecdsaPubKey) then
        match fuel with
        | O => Panic
        | Datatypes.S fuel' => get_vault fuel' k ecdsaPubKey
        end
      else Err ("vault with pubkey(" ++ pk ++ ") doesn't exist")
  end.
Definition GetVault (k : Store) (pk : PubKey) : outcome Vault :=
  get_vault (size (kStrings k)) k pk.

Fixpoint asgard_vaults (k : Store) (pks : list PubKey) : outcome Vaults :=
  match pks with
  | [] => Ok []
  | pk :: pks' =>
      vault ← GetVault k pk;
      rest ← asgard_vaults k pks';
      Ok (if IsAsgard vault then vault :: rest else rest)
  end.
Definition GetAsgardVaults (k : Store) : outcome Vaults :=
  pks ← getAsgardIndex k; asgard_vaults k pks.
Definition GetAsgardVaultsByStatus (k : Store) (status : VaultStatus) : outcome Vaults :=
  all ← GetAsgardVaults k;
  Ok (List.filter (fun vault => vStatus vault =? status) all).

Definition HasValidVaultPools (k : Store) : bool := existsb HasFunds (iterate (kVaults k)).

(** Every error of [GetVault] is a vault that is not found; an error of
    [RemoveFromAsgardIndex] is only logged. *)
Definition DeleteVault (k : Store) (pubkey : PubKey) : outcome Store :=
  match GetVault k pubkey with
  | Panic => Panic
  | Err _ => Ok k
  | Ok vault =>
      if HasFunds vault then Err "unable to delete vault: it still contains funds"
      else
        k ← (if IsAsgard vault then
               match RemoveFromAsgardIndex k pubkey with
               | Ok k' => Ok k'
               | Err _ => Ok k
               | Panic => Panic
               end
             else Ok k);
        Ok (with_vaults k (delete (vault_key (vPubKey vault)) (kVaults k)))
  end.
End vault_store.

(** ** The store as a finite map

    What the component promises its callers: a map from public keys to vaults.
    A vault keeps its type; it is dropped by the key it was saved under, and a
    key that is dropped in vain is no EdDSA key of a vault saved before
    ([delete_by_eddsa_key_dangles] below shows why). *)
Inductive VaultOp : Type :=
| SaveVault (v : Vault)
| DropVault (pk : PubKey).

(** The keys of vaults: printed bech32, which is lower case. *)
Definition good_key {K : SdkKeys} (pk : PubKey) : Prop :=
  no_upper pk = true /\ NewPubKey pk = Ok pk /\ PubKey_IsEmpty pk = false.

Inductive spec_op {K : SdkKeys} (E : list PubKey) :
  gmap PubKey Vault -> VaultOp -> gmap PubKey Vault -> Prop :=
| spec_save a v : good_key (vPubKey v) ->
    (forall w, a !! vPubKey v = Some w -> vType w = vType v) ->
    spec_op E a (SaveVault v) (<[vPubKey v := v]> a)
| spec_drop a pk v : a !! pk = Some v -> HasFunds v = false ->
    spec_op E a (DropVault pk) (delete pk a)
| spec_keep a pk v : a !! pk = Some v -> HasFunds v = true -> spec_op E a (DropVault pk) a
| spec_absent a pk : good_key pk -> a !! pk = None -> Forall (fun e => to_upper e <> to_upper pk) E ->
    spec_op E a (DropVault pk) a.

(** The EdDSA keys of the vaults saved so far. *)
Definition eddsa_seen (E : list PubKey) (op : VaultOp) : list PubKey :=
  match op with SaveVault v => PubKeyEddsa v :: E | DropVault _ => E end.

Inductive spec_ops {K : SdkKeys} : list PubKey ->
  gmap PubKey Vault -> list VaultOp -> gmap PubKey Vault -> Prop :=
| spec_nil E a : spec_ops E a [] a
| spec_cons E a op a1 ops a2 : spec_op E a op a1 -> spec_ops (eddsa_seen E op) a1 ops a2 ->
    spec_ops E a (op :: ops) a2.

Section vault_store_ops.
Context {B : Type} {K : SdkKeys}.

(** A caller logs the error of a vault it cannot delete. *)
Definition apply_op (k : KVStore B) (op : VaultOp) : outcome (KVStore B) :=
  match op with
  | SaveVault v => SetVault k v
  | DropVault pk => match DeleteVault k pk with Err _ => Ok k | r => r end
  end.
Fixpoint apply_ops (k : KVStore B) (ops : list VaultOp) : outcome (KVStore B) :=
  match ops with
  | [] => Ok k
  | op :: ops' => k ← apply_op k op; apply_ops k ops'
  end.

Definition index (k : KVStore B) : list string := default [] (getStrings k asgard_index_key).

(** The records of the store represent the map: each vault is under its own
    key, and the index lists the Asgard vaults once. *)
Record refines (k : KVStore B) (a : gmap PubKey Vault) : Prop := {
  rf_nodup : NoDup (index k);
  rf_index s : s ∈ index k <-> exists v, a !! s = Some v /\ IsAsgard v = true;
  rf_abs s v : a !! s = Some v ->
    vPubKey v = s /\ good_key s /\ kVaults k !! vault_key s = Some v;
  rf_conc key v : kVaults k !! key = Some v ->
    key = vault_key (vPubKey v) /\ a !! vPubKey v = Some v
}.

(** Only EdDSA keys that were saved are in the second index. *)
Definition eddsa_from (E : list PubKey) (k : KVStore B) : Prop :=
  forall pk, is_Some (getStrings k (eddsa_key pk)) -> Exists (fun e => to_upper e = to_upper pk) E.
End vault_store_ops.

(** ** Lemmas *)
Section vault_store_lemmas.
Context {B : Type} {K : SdkKeys}.

Lemma index_setStrings (k : KVStore B) l : index (setStrings k asgard_index_key l) = l.
Proof.
  unfold index, getStrings, setStrings. destruct l as [|s l]; simpl.
  - by rewrite lookup_delete_eq.
  - by rewrite lookup_insert_eq.
Qed.

Lemma index_eddsa (k : KVStore B) e pk : index (addAsgardEDDSAIndex k e pk) = index k.
Proof.
  unfold index, getStrings, addAsgardEDDSAIndex, setStrings. simpl.
  rewrite lookup_insert_ne; [done|]. unfold eddsa_key, asgard_index_key, GetKey. by simpl.
Qed.

Lemma vaults_setStrings (k : KVStore B) key l :
  kVaults (setStrings k key l) = kVaults k /\ kHeight (setStrings k key l) = kHeight k.
Proof. by destruct l. Qed.

Lemma vault_key_inj s t : good_key s -> good_key t -> vault_key s = vault_key t -> s = t.
Proof. intros [Hs _] [Ht _] Heq%GetKey_inj. by apply no_upper_inj. Qed.

Lemma parse_index_ok l : Forall good_key l -> parse_index l = Ok l.
Proof.
  induction 1 as [|s l (Hu & Hs & He) Hl IH]; simpl; [done|]. by rewrite Hs, IH.
Qed.

Lemma getAsgardIndex_ok (k : KVStore B) a : refines k a -> getAsgardIndex k = Ok (index k).
Proof.
  intros Hk. apply parse_index_ok, Forall_forall. intros s Hs.
  apply (rf_index k a Hk) in Hs as (v & Hv & _).
  by destruct (rf_abs k a Hk s v Hv) as (_ & ? & _).
Qed.

Lemma existsb_key l pk : existsb (fun p => PubKey_Equals p pk) l = bool_decide (pk ∈ l).
Proof.
  apply eq_true_iff_eq. rewrite bool_decide_eq_true. apply PubKeys_Contains_spec.
Qed.

Lemma SetVault_spec (k : KVStore B) a v : refines k a -> exists k', SetVault k v = Ok k' /\
  kVaults k' = <[vault_key (vPubKey v) := v]> (kVaults k) /\ kHeight k' = kHeight k /\
  index k' = (index k ++ (if IsAsgard v && negb (bool_decide (vPubKey v ∈ index k))
                          then [vPubKey v] else []))%list.
Proof.
  intros Hk. unfold SetVault. destruct (IsAsgard v); simpl.
  2:{ eexists. repeat split. by rewrite app_nil_r. }
  unfold addAsgardIndex. rewrite (getAsgardIndex_ok k a) by done. simpl. rewrite existsb_key.
  assert (Hadd : exists k1, (if bool_decide (vPubKey v ∈ index k) then Ok k
    else Ok (setStrings k asgard_index_key (PubKeys_Strings (index k ++ [vPubKey v])%list))) = Ok k1 /\
    kVaults k1 = kVaults k /\ kHeight k1 = kHeight k /\
    index k1 = (index k ++ (if negb (bool_decide (vPubKey v ∈ index k))
                            then [vPubKey v] else []))%list).
  { case_bool_decide; eexists; (split; [reflexivity|]); cbn [negb].
    - by rewrite app_nil_r.
    - split; [apply vaults_setStrings|]. split; [apply vaults_setStrings|].
      rewrite index_setStrings. unfold PubKeys_Strings, PubKey_String. by rewrite map_id. }
  destruct Hadd as (k1 & -> & Hv1 & Hh1 & Hi1). simpl.
  destruct (PubKey_IsEmpty (PubKeyEddsa v)); eexists; (split; [reflexivity|]);
    cbn [kVaults kHeight with_vaults]; (split; [by rewrite <- Hv1|]); (split; [done|]).
  - done.
  - rewrite <- Hi1, <- (index_eddsa k1 (PubKeyEddsa v) (vPubKey v)). done.
Qed.

Lemma SetVault_refines (k : KVStore B) a v : refines k a -> good_key (vPubKey v) ->
  (forall w, a !! vPubKey v = Some w -> vType w = vType v) ->
  exists k', SetVault k v = Ok k' /\ refines k' (<[vPubKey v := v]> a) /\ kHeight k' = kHeight k.
Proof.
  intros Hk Hg Ht. destruct (SetVault_spec k a v Hk) as (k' & Hset & Hv & Hh & Hi).
  exists k'. split; [done|]. split; [|done].
  set (extra := if IsAsgard v && _ then _ else _) in Hi.
  assert (Hextra : forall s, s ∈ extra <-> s = vPubKey v /\ IsAsgard v = true /\ s ∉ index k).
  { unfold extra. intros s. rewrite <- (bool_decide_eq_false (_ ∈ _)).
    destruct (IsAsgard v), (bool_decide (vPubKey v ∈ index k)) eqn:E; simpl;
      rewrite ?elem_of_nil, ?list_elem_of_singleton; naive_solver congruence. }
  assert (Hsame : IsAsgard v = true -> forall w, a !! vPubKey v = Some w -> IsAsgard w = true).
  { unfold IsAsgard, IsType. intros Ha w Hw. by rewrite (Ht w Hw). }
  split.
  - rewrite Hi. apply NoDup_app. split; [by apply (rf_nodup k a)|]. split.
    + intros s Hs Hs'. by apply Hextra in Hs' as (_ & _ & ?).
    + unfold extra. case_if; [apply NoDup_singleton|apply NoDup_nil_2].
  - intros s. rewrite Hi, elem_of_app, Hextra, (rf_index k a Hk).
    destruct (decide (s = vPubKey v)) as [->|Hne];
      [rewrite lookup_insert_eq|rewrite lookup_insert_ne by done; naive_solver].
    split.
    + intros [(w & Hw & Hwa)|(_ & Ha & _)]; exists v; (split; [done|]); [|done].
      revert Hwa. unfold IsAsgard, IsType. by rewrite (Ht w Hw).
    + intros (w & [= <-] & Ha). destruct (a !! vPubKey v) as [w|] eqn:Ew.
      * left. exists w. split; [done|by apply Hsame].
      * right. split; [done|]. split; [done|].
        by intros (w & Hw & _).
  - intros s w Hw. rewrite Hv. apply lookup_insert_Some in Hw as [ [<- <-] | [Hne Hw] ].
    + by rewrite lookup_insert_eq.
    + destruct (rf_abs k a Hk s w Hw) as (H1 & H2 & H3). split; [done|]. split; [done|].
      rewrite lookup_insert_ne; [done|]. intros Heq. by apply vault_key_inj in Heq.
  - intros key w Hw. rewrite Hv in Hw. apply lookup_insert_Some in Hw as [ [<- <-] | [Hne Hw] ].
    + by rewrite lookup_insert_eq.
    + destruct (rf_conc k a Hk key w Hw) as [H1 H2]. split; [done|].
      rewrite lookup_insert_ne; [done|]. congruence.
Qed.

Lemma GetVault_refines (k : KVStore B) a s v : refines k a -> a !! s = Some v ->
  GetVault k s = Ok (complete_vault k s v).
Proof.
  intros Hk Hs. destruct (rf_abs k a Hk s v Hs) as (_ & _ & Hv). unfold GetVault.
  destruct (size (kStrings k)); simpl; by rewrite Hv.
Qed.

Lemma complete_key (k : KVStore B) a s v : refines k a -> a !! s = Some v ->
  vPubKey (complete_vault k s v) = s.
Proof.
  intros Hk Hs. destruct (rf_abs k a Hk s v Hs) as (<- & _ & _). simpl. by case_if.
Qed.

Lemma DeleteVault_refines (k : KVStore B) a s v : refines k a -> a !! s = Some v ->
  HasFunds v = false ->
  exists k', DeleteVault k s = Ok k' /\ refines k' (delete s a) /\ kHeight k' = kHeight k.
Proof.
  intros Hk Hs Hf. unfold DeleteVault. rewrite (GetVault_refines k a s v) by done.
  rewrite (complete_key k a) by done.
  change (HasFunds (complete_vault k s v)) with (HasFunds v).
  change (IsAsgard (complete_vault k s v)) with (IsAsgard v). rewrite Hf.
  set (kept := List.filter (fun pk => negb (PubKey_Equals pk s)) (index k)).
  assert (Hkept : forall t, t ∈ kept <-> t ∈ index k /\ t <> s).
  { intros t. unfold kept. rewrite list_elem_of_In, List.filter_In, <- list_elem_of_In.
    unfold PubKey_Equals. by rewrite negb_true_iff, String.eqb_neq. }
  assert (Hrem : exists k1, (if IsAsgard v then match RemoveFromAsgardIndex k s with
      | Ok k' => Ok k' | Err _ => Ok k | Panic => Panic end else Ok k) = Ok k1 /\
    kVaults k1 = kVaults k /\ kHeight k1 = kHeight k /\ NoDup (index k1) /\
    forall t, t ∈ index k1 <-> t ∈ index k /\ t <> s).
  { unfold RemoveFromAsgardIndex. rewrite (getAsgardIndex_ok k a) by done. simpl.
    destruct (IsAsgard v) eqn:Ea; eexists; (split; [reflexivity|]).
    - split; [apply vaults_setStrings|]. split; [apply vaults_setStrings|].
      rewrite index_setStrings. unfold PubKeys_Strings, PubKey_String. rewrite map_id.
      split; [|exact Hkept]. apply NoDup_ListNoDup, List.NoDup_filter, NoDup_ListNoDup.
      by apply (rf_nodup k a).
    - split; [done|]. split; [done|]. split; [by apply (rf_nodup k a)|].
      intros t. split; [|by intros [? _]]. intros Hin. split; [done|]. intros ->.
      apply (rf_index k a Hk) in Hin as (w & Hw & Hwa). congruence. }
  destruct Hrem as (k1 & -> & Hv1 & Hh1 & Hn1 & Hi1). simpl.
  eexists. split; [reflexivity|]. split; [|done]. split.
  - exact Hn1.
  - intros t. etrans; [exact (Hi1 t)|]. rewrite (rf_index k a Hk).
    setoid_rewrite lookup_delete_Some. naive_solver.
  - intros t w [Hne Hw]%lookup_delete_Some. destruct (rf_abs k a Hk t w Hw) as (H1 & H2 & H3).
    split; [done|]. split; [done|]. simpl. rewrite Hv1, lookup_delete_ne; [done|].
    intros Heq. apply vault_key_inj in Heq; [done| |done]. by apply (rf_abs k a Hk s v).
  - intros key w Hw. simpl in Hw. rewrite Hv1 in Hw. apply lookup_delete_Some in Hw as [Hne Hw].
    destruct (rf_conc k a Hk key w Hw) as [H1 H2]. split; [done|].
    rewrite lookup_delete_ne; [done|]. congruence.
Qed.

Lemma DeleteVault_funded (k : KVStore B) a s v : refines k a -> a !! s = Some v ->
  HasFunds v = true -> DeleteVault k s = Err "unable to delete vault: it still contains funds".
Proof.
  intros Hk Hs Hf. unfold DeleteVault. rewrite (GetVault_refines k a s v) by done.
  change (HasFunds (complete_vault k s v)) with (HasFunds v). by rewrite Hf.
Qed.

Lemma eddsa_from_index E (k : KVStore B) l : eddsa_from E k -> eddsa_from E (setStrings k asgard_index_key l).
Proof.
  intros HE pk Hpk. apply HE. revert Hpk. unfold getStrings, setStrings.
  destruct l; simpl; [rewrite lookup_delete_ne|rewrite lookup_insert_ne]; done.
Qed.

Lemma eddsa_from_add E (k : KVStore B) e pk : eddsa_from E k -> eddsa_from (e :: E) (addAsgardEDDSAIndex k e pk).
Proof.
  intros HE p Hp. destruct (decide (to_upper e = to_upper p)) as [He|Hne]; [by left|]. right. apply HE.
  revert Hp. unfold getStrings, addAsgardEDDSAIndex, setStrings. simpl.
  rewrite lookup_insert_ne; [done|]. intros Heq%GetKey_inj. done.
Qed.

Lemma eddsa_from_cons E (k : KVStore B) e : eddsa_from E k -> eddsa_from (e :: E) k.
Proof. intros HE p Hp. right. by apply HE. Qed.

Lemma addAsgardIndex_eddsa E (k k' : KVStore B) pk : eddsa_from E k -> addAsgardIndex k pk = Ok k' ->
  eddsa_from E k'.
Proof.
  unfold addAsgardIndex. intros HE Hk. apply bind_Ok_inv in Hk as (pks & _ & Hk).
  case_if_in Hk; simplify_eq; [done|by apply eddsa_from_index].
Qed.

Lemma apply_op_eddsa E (k k' : KVStore B) op : eddsa_from E k -> apply_op k op = Ok k' ->
  eddsa_from (eddsa_seen E op) k'.
Proof.
  intros HE. destruct op as [v|pk]; simpl.
  - unfold SetVault. intros Hs. apply bind_Ok_inv in Hs as (k1 & Hk1 & Hs). injection Hs as <-.
    change (eddsa_from (PubKeyEddsa v :: E) k1).
    case_if_in Hk1; [|injection Hk1 as <-; by apply eddsa_from_cons].
    apply bind_Ok_inv in Hk1 as (k2 & Hk2 & Hk1). apply (addAsgardIndex_eddsa E) in Hk2; [|done].
    case_if_in Hk1; injection Hk1 as <-; auto using eddsa_from_add, eddsa_from_cons.
  - unfold DeleteVault. intros Hd. destruct (GetVault k pk) as [v| |]; [|by simplify_eq..].
    case_if_in Hd; [by simplify_eq|]. 
    assert (Hx : forall k1, (if IsAsgard v then match RemoveFromAsgardIndex k pk with
      | Ok k' => Ok k' | Err _ => Ok k | Panic => Panic end else Ok k) = Ok k1 -> eddsa_from E k1).
    { intros k1 Hk1. case_if_in Hk1; [|by simplify_eq].
      destruct (RemoveFromAsgardIndex k pk) as [k2| |] eqn:Hr; simplify_eq; [|done].
      unfold RemoveFromAsgardIndex in Hr. ok_inv. by apply eddsa_from_index. }
    destruct (if IsAsgard v then _ else _) as [k1| |]; simpl in Hd; simplify_eq; [|done].
    exact (Hx k1 eq_refl).
Qed.

Lemma vault_absent (k : KVStore B) a pk : refines k a -> good_key pk -> a !! pk = None ->
  kVaults k !! vault_key pk = None.
Proof.
  intros Hk Hg Hpk. destruct (kVaults k !! vault_key pk) as [v|] eqn:Hv; [|done].
  destruct (rf_conc k a Hk _ v Hv) as [Heq Hav].
  apply vault_key_inj in Heq; [congruence|done|]. by destruct (rf_abs k a Hk _ v Hav) as (_ & ? & _).
Qed.

Lemma DeleteVault_absent E (k : KVStore B) a pk : refines k a -> eddsa_from E k -> good_key pk ->
  a !! pk = None -> Forall (fun e => to_upper e <> to_upper pk) E -> DeleteVault k pk = Ok k.
Proof.
  intros Hk HE Hg Hpk Hne. pose proof (vault_absent k a pk Hk Hg Hpk) as Hv.
  assert (Hs : getStrings k (eddsa_key pk) = None).
  { destruct (getStrings k (eddsa_key pk)) eqn:Hs; [|done].
    destruct (proj1 (Exists_exists _ _) (HE pk ltac:(by rewrite Hs))) as (e & Hin & He).
    rewrite Forall_forall in Hne. by destruct (Hne e Hin). }
  unfold DeleteVault, GetVault. destruct (size (kStrings k)); simpl; rewrite Hv;
    unfold getAsgardEDDSAIndex; by rewrite Hs.
Qed.

Lemma apply_op_refines E (k : KVStore B) a op a' : refines k a -> eddsa_from E k -> spec_op E a op a' ->
  exists k', apply_op k op = Ok k' /\ refines k' a' /\ kHeight k' = kHeight k.
Proof.
  intros Hk HE Hop. destruct Hop as [a v Hg Ht|a pk v Hv Hf|a pk v Hv Hf|a pk Hg Hpk Hne]; simpl.
  - by apply SetVault_refines.
  - destruct (DeleteVault_refines k a pk v Hk Hv Hf) as (k' & -> & Hk'). by exists k'.
  - rewrite (DeleteVault_funded k a pk v) by done. by exists k.
  - rewrite (DeleteVault_absent E k a pk) by done. by exists k.
Qed.

Lemma apply_ops_refines E (k : KVStore B) a ops a' : refines k a -> eddsa_from E k -> spec_ops E a ops a' ->
  exists k', apply_ops k ops = Ok k' /\ refines k' a' /\ kHeight k' = kHeight k.
Proof.
  intros Hk HE Hops. revert k Hk HE. induction Hops as [E a|E a op a1 ops a2 Hop Hops IH]; intros k Hk HE; simpl.
  - by exists k.
  - destruct (apply_op_refines E k a op a1 Hk HE Hop) as (k1 & Hop1 & Hk1 & Hh1). rewrite Hop1. simpl.
    destruct (IH k1 Hk1 (apply_op_eddsa E k k1 op HE Hop1)) as (k2 & Hr & Hk2 & Hh2).
    exists k2. by rewrite Hh2, Hh1.
Qed.

Lemma asgard_vaults_refines (k : KVStore B) a l : refines k a -> (forall s, s ∈ l -> s ∈ index k) ->
  exists vs, asgard_vaults k l = Ok vs /\ map vPubKey vs = l /\
    forall v, v ∈ vs -> exists w, a !! vPubKey v = Some w /\ IsAsgard w = true /\
      v = complete_vault k (vPubKey v) w.
Proof.
  intros Hk. induction l as [|s l IH]; intros Hl; simpl.
  { exists []. split; [done|]. split; [done|]. by intros v ?%elem_of_nil. }
  destruct (IH ltac:(intros; apply Hl; by right)) as (vs & -> & Hkeys & Hvs).
  destruct (proj1 (rf_index k a Hk s) (Hl s ltac:(by left))) as (w & Hw & Ha).
  rewrite (GetVault_refines k a s w) by done. simpl.
  change (IsAsgard (complete_vault k s w)) with (IsAsgard w). rewrite Ha.
  eexists. split; [reflexivity|]. pose proof (complete_key k a s w Hk Hw) as Hc. split.
  - simpl. f_equal; [exact Hc|done].
  - intros v [->|Hin]%elem_of_cons; [|by apply Hvs]. exists w. by rewrite Hc.
Qed.
End vault_store_lemmas.

(** ** Properties *)

(** C13. The vault records implement a map from public keys to vaults: on every
    run the map allows, saving and deleting vaults succeeds, each vault of the
    map is found by its key, a key that is not in the map has no record, and
    [GetAsgardVaults] returns exactly the Asgard vaults of the map, each once.
    The map allows saving a vault under a valid lower-case key, with the type it
    had, and deleting any such key, stored or not, but for an EdDSA key of a
    vault saved earlier: deleting by that key breaks the store
    ([delete_by_eddsa_key_dangles]). *)
Theorem vault_store_refines_map {B} {K : SdkKeys} (b : B) h ops a :
  spec_ops [] ∅ ops a ->
  exists k, apply_ops (empty_store b h) ops = Ok k /\ kHeight k = h /\
    (forall pk v, a !! pk = Some v -> GetVault k pk = Ok (complete_vault k pk v)) /\
    (forall pk, good_key pk -> a !! pk = None -> has_vault k pk = false) /\
    exists vs, GetAsgardVaults k = Ok vs /\ NoDup (map vPubKey vs) /\
      forall v, v ∈ vs <-> exists pk w, a !! pk = Some w /\ IsAsgard w = true /\
        v = complete_vault k pk w.
Proof.
  intros Hops.
  assert (H0 : refines (empty_store b h) (∅ : gmap PubKey Vault)).
  { split; [apply NoDup_nil_2|..]; [|naive_solver..]. intros s.
    split; [by intros ?%elem_of_nil|naive_solver]. }
  assert (HE : eddsa_from [] (empty_store b h)).
  { intros pk [l Hl]. unfold getStrings in Hl. simpl in Hl. by rewrite lookup_empty in Hl. }
  destruct (apply_ops_refines _ _ _ _ _ H0 HE Hops) as (k & Hrun & Hk & Hh). exists k.
  split; [done|]. split; [done|]. split; [intros; by apply (GetVault_refines k a)|]. split.
  - intros pk Hg Hpk. unfold has_vault. by rewrite (vault_absent k a pk Hk Hg Hpk).
  - destruct (asgard_vaults_refines k a (index k) Hk ltac:(done)) as (vs & Hvs & Hkeys & Hin).
    exists vs. unfold GetAsgardVaults. rewrite (getAsgardIndex_ok k a) by done.
    split; [done|]. split; [rewrite Hkeys; by apply (rf_nodup k a)|]. intros v. split.
    + intros Hv. destruct (Hin v Hv) as (w & Hw & Ha & He). by exists (vPubKey v), w.
    + intros (pk & w & Hw & Ha & ->). assert (Hpk : pk ∈ index k) by (apply (rf_index k a Hk); eauto).
      rewrite <- Hkeys in Hpk. apply list_elem_of_In, in_map_iff in Hpk as (v & <- & Hv).
      apply list_elem_of_In in Hv. destruct (Hin v Hv) as (w' & Hw' & _ & He).
      by rewrite Hw in Hw'; injection Hw' as ->; rewrite <- He.
Qed.

(** ** The properties at concrete inputs *)

Definition demo_asgard (pk eddsa : PubKey) : Vault :=
  mkVault 1 pk [] VaultType_AsgardVault VaultStatus_ActiveVault 1 [] ["BTC"] 0 0 [] [] [] eddsa.
Definition demo_vault_ops : list VaultOp :=
  [SaveVault (demo_asgard "pa" "pe"); SaveVault (demo_asgard "pb" "");
   SaveVault (demo_asgard "pa" "pe"); DropVault "pb"; DropVault "pb"].

Lemma vault_store_refines_map_witness : exists k : KVStore SimpleBank,
  apply_ops (empty_store demo_bank 7) demo_vault_ops = Ok k /\
  GetAsgardVaults k = Ok [demo_asgard "pa" "pe"] /\
  GetVault k "pa" = Ok (complete_vault k "pa" (demo_asgard "pa" "pe")).
Proof.
  destruct (vault_store_refines_map demo_bank 7 demo_vault_ops
    (delete "pb" (<["pa" := demo_asgard "pa" "pe"]> (<["pb" := demo_asgard "pb" ""]>
      (<["pa" := demo_asgard "pa" "pe"]> ∅))))) as (k & Hrun & _ & Hget & _).
  - unfold demo_vault_ops.
    eapply spec_cons; [apply spec_save; [by vm_compute|done]|].
    eapply spec_cons; [apply spec_save; [by vm_compute|by vm_compute]|].
    eapply spec_cons; [apply spec_save; [by vm_compute|]|].
    { intros w Hw. vm_compute in Hw. by injection Hw as <-. }
    eapply spec_cons; [by eapply spec_drop; [vm_compute|]|].
    eapply spec_cons; [|apply spec_nil]. apply spec_absent; [by vm_compute|by vm_compute|].
    repeat constructor; vm_compute; congruence.
  - exists k. split; [exact Hrun|]. split; [|by apply Hget].
    vm_compute in Hrun. injection Hrun as <-. by vm_compute.
Defined.

(** Deleting a vault by its EdDSA key leaves its ECDSA key in the Asgard index:
    [RemoveFromAsgardIndex] is given the key the caller used, not the key of
    the vault.  Listing the Asgard vaults then fails, and the EdDSA entry still
    makes [VaultExists] hold. *)
Lemma delete_by_eddsa_key_dangles : exists k : KVStore SimpleBank,
  apply_ops (empty_store demo_bank 7) [SaveVault (demo_asgard "pa" "pe"); DropVault "pe"] = Ok k /\
  (exists e, GetAsgardVaults k = Err e) /\ VaultExists k "pe" = Ok true.
Proof. eexists. split; [vm_compute; reflexivity|]. split; [eexists|]; by vm_compute. Qed.
