(* ===== verification/NodeStore.v ===== *)
(** Node accounts in the store: [keeper_node_account.go], [keeper_version.go]
    and [keeper_ban.go] of [x/thorchain/keeper/v1/], and the signer checks of
    [x/thorchain/helpers.go]. *)
From S2P Require Import Prelude SdkMath GoStr Keys Shares Chains Assets Coins Bank Nodes Txs.
From S2P Require Import Voters Mimir Pools Streaming Keeper.
Local Open Scope string_scope.
Local Open Scope Z_scope.

Definition NodeType_TypeValidator : Z := 0.
Definition NodeType_TypeVault : Z := 1.

Section node_store.
Context {B : Type} `{Bank B} {K : SdkKeys} {S : SdkMath}.
Abbreviation Store := (KVStore B) (only parsing).

(** *** Listing *)
Definition ListValidatorsWithBond (k : Store) : NodeAccounts :=
  List.filter (fun na => (naType na =? NodeType_TypeValidator) && negb (naBond na =? 0))
    (iterate (kNodeAccounts k)).
Definition ListValidatorsByStatus (k : Store) (status : NodeStatus) : NodeAccounts :=
  List.filter (fun na => (naType na =? NodeType_TypeValidator) && (Status na =? status))
    (iterate (kNodeAccounts k)).
Definition ListActiveValidators (k : Store) : NodeAccounts :=
  ListValidatorsByStatus k NodeStatus_Active.
Definition TotalActiveValidators (k : Store) : Z := len (ListActiveValidators k).

Definition signedByActiveNodeAccount (k : Store) (signer : AccAddress) : goerr :=
  let nodeAccount := GetNodeAccount k signer in
  if NodeAccount_IsEmpty nodeAccount then
    Some ("node account is unexpectedly empty: " ++ acc_string signer)
  else if negb (Status nodeAccount =? NodeStatus_Active) then
    Some ("node account " ++ acc_string signer ++ " not active")
  else if negb (naType nodeAccount =? NodeType_TypeValidator) then
    Some ("node account " ++ acc_string signer ++ " must be a validator")
  else None.

(** [asgard] is the address of the Asgard module, which signs too. *)
Definition isSignedByActiveNodeAccounts (k : Store) (asgard : AccAddress)
    (signers : list AccAddress) : bool :=
  match signers with
  | [] => false
  | _ => forallb (fun signer =>
      acc_equals signer asgard ||
      match signedByActiveNodeAccount k signer with None => true | Some _ => false end) signers
  end.

(** [to_address] is [PubKey.GetThorAddress], a hash of the key. *)
Definition GetNodeAccountByPubKey (k : Store) (to_address : PubKey -> outcome AccAddress)
    (pk : PubKey) : outcome NodeAccount :=
  addr ← to_address pk; Ok (GetNodeAccount k addr).

Definition EnsureNodeKeysUnique (k : Store) (consensusPubKey : string) (pubKeys : PubKeySet) :
    goerr :=
  if is_blank consensusPubKey then Some "Validator Consensus Key cannot be empty"
  else if PubKeySet_IsEmpty pubKeys then Some "PubKeySet cannot be empty"
  else
    match List.find (fun na => String.eqb (ValidatorConsPubKey na) consensusPubKey ||
        PubKeySet_Contains (naPubKeySet na) (Secp256k1 pubKeys) ||
        PubKeySet_Contains (naPubKeySet na) (Ed25519 pubKeys)) (iterate (kNodeAccounts k)) with
    | Some na => Some "already exist"
    | None => None
    end.

(** *** Slash points and jail *)
Definition GetNodeAccountSlashPoints (k : Store) (addr : AccAddress) : Z :=
  getInt64 k (GetKey prefixNodeSlashPoints (acc_string addr)) 0.
Definition SetNodeAccountSlashPoints (k : Store) (addr : AccAddress) (pts : Z) : Store :=
  setInt64 k (GetKey prefixNodeSlashPoints (acc_string addr)) (if pts <? 0 then 0 else pts).
Definition IncNodeAccountSlashPoints (k : Store) (addr : AccAddress) (pts : Z) : Store :=
  SetNodeAccountSlashPoints k addr (i64 (GetNodeAccountSlashPoints k addr + pts)).
Definition DecNodeAccountSlashPoints (k : Store) (addr : AccAddress) (pts : Z) : Store :=
  SetNodeAccountSlashPoints k addr (i64 (GetNodeAccountSlashPoints k addr - pts)).

Definition GetNodeAccountJail (k : Store) (addr : AccAddress) : Jail :=
  default (NewJail addr) (kJails k !! GetKey prefixNodeJail (acc_string addr)).
Definition set_jail (k : Store) (addr : AccAddress) (jail : Jail) : Store :=
  with_jails k (<[GetKey prefixNodeJail (acc_string addr) := jail]> (kJails k)).
Definition SetNodeAccountJail (k : Store) (addr : AccAddress) (height : Z) (reason : string) :
    Store :=
  let jail := GetNodeAccountJail k addr in
  if height <? ReleaseHeight jail then k
  else set_jail k addr (mkJail (jlNodeAddress jail) height reason).
Definition ReleaseNodeAccountFromJail (k : Store) (addr : AccAddress) : Store :=
  set_jail k addr (mkJail (jlNodeAddress (GetNodeAccountJail k addr)) (kHeight k) "").

(** *** Bans and pauses *)
Definition GetBanVoter (k : Store) (addr : AccAddress) : BanVoter :=
  default (NewBanVoter addr) (kBanVoters k !! GetKey prefixBanVoter (acc_string addr)).
Definition SetBanVoter (k : Store) (ban : BanVoter) : Store :=
  with_ban_voters k
    (<[GetKey prefixBanVoter (acc_string (bvNodeAddress ban)) := ban]> (kBanVoters k)).

Definition GetNodePauseChain (k : Store) (acc : AccAddress) : Z :=
  getInt64 k (GetKey prefixNodePauseChain (acc_string acc)) (-1).
Definition SetNodePauseChain (k : Store) (acc : AccAddress) : Store :=
  setInt64 k (GetKey prefixNodePauseChain (acc_string acc)) (kHeight k).

(** *** The minimum version to join *)
Fixpoint count_version (na : NodeAccount) (vCount : list (semver * Z)) : list (semver * Z) :=
  match vCount with
  | [] => []
  | (v, c) :: rest =>
      (v, if semver_lte v (GetVersion na) then i64 (c + 1) else c) :: count_version na rest
  end.
Definition add_version (vCount : list (semver * Z)) (na : NodeAccount) : list (semver * Z) :=
  let exist := existsb (fun item => String.eqb (semver_string (fst item)) (naVersion na)) vCount in
  let vCount := if exist then vCount else (vCount ++ [(GetVersion na, 0)])%list in
  count_version na vCount.
Definition version_less (a b : NodeAccount) : bool := semver_lt (GetVersion a) (GetVersion b).

Definition min_join_version (nodes : NodeAccounts) : semver :=
  let vCount := foldl add_version [] (stable_sort version_less nodes) in
  foldl (fun version info =>
      if negb (HasSuperMajority (snd info) (len nodes)) then version
      else if semver_gt (fst info) version then fst info else version)
    semver_zero (stable_sort (fun x y => semver_gt (fst x) (fst y)) vCount).
Definition GetMinJoinVersion (k : Store) : semver := min_join_version (ListActiveValidators k).

(** The stored record, or the current value with height 0 when there is none. *)
Definition GetMinJoinLast (k : Store) : outcome (semver * Z) :=
  let minJoinLast := default (mkMinJoinLast 0 "") (kMinJoinLast k) in
  version ← (if String.eqb (mjVersion minJoinLast) "" then Ok semver_zero
             else match semver_make (mjVersion minJoinLast) with
                  | (v, None) => Ok v
                  | (_, Some _) => Panic
                  end);
  let lastHeight := LastChangedHeight minJoinLast in
  if semver_equals version semver_zero || (lastHeight <=? 0) then Ok (GetMinJoinVersion k, 0)
  else Ok (version, lastHeight).

Definition SetMinJoinLast (k : Store) : outcome Store :=
  let minJoinVersion := GetMinJoinVersion k in
  '(minJoinLast, lastHeight) ← GetMinJoinLast k;
  if negb (semver_equals minJoinVersion minJoinLast) || (lastHeight <=? 0)
  then Ok (with_min_join_last k (Some (mkMinJoinLast (kHeight k) (semver_string minJoinVersion))))
  else Ok k.

Definition GetLowestActiveVersion (k : Store) (SWVersion : semver) : semver :=
  match ListActiveValidators k with
  | [] => SWVersion
  | n :: nodes =>
      foldl (fun version na => if semver_lt (GetVersion na) version then GetVersion na else version)
        (GetVersion n) (n :: nodes)
  end.

(** *** Fees taken from a bond

    [fee] is [GetNativeTxFee]. *)
Definition DeductNativeTxFeeFromBond (k : Store) (fee : Z) (nodeAddr : AccAddress) :
    outcome Store :=
  if fee =? 0 then Ok k
  else
    let na := GetNodeAccount k nodeAddr in
    if naBond na <? fee then Err "not enound bond for fee"
    else
      bond ← SafeSub (naBond na) fee;
      let k := SetNodeAccount k (with_naBond na bond) in
      SendFromModuleToModule k BondName ReserveName (NewCoin DecaAsset fee).

(** *** Removing accounts with next to no bond

    The function keeps what it did before an error: it returns the state with
    the error. *)

(** Paying the providers: the state, the total paid and whether a payment failed. *)
Fixpoint pay_providers (k : Store) (providers : list BondProvider) (totalSent : Z)
    (sendFailed : bool) : outcome (Store * Z * bool) :=
  match providers with
  | [] => Ok (k, totalSent, sendFailed)
  | provider :: rest =>
      if (Bond provider =? 0) || acc_empty (BondAddress provider) then
        pay_providers k rest totalSent sendFailed
      else
        match SendFromModuleToAccount k BondName (BondAddress provider)
                (NewCoin DecaAsset (Bond provider)) with
        | Ok k => total ← uint_add totalSent (Bond provider); pay_providers k rest total sendFailed
        | Err _ => pay_providers k rest totalSent true
        | Panic => Panic
        end
  end.

(** One account of the iteration: the state, whether its key is to be removed,
    and the error that stops the iteration. *)
Definition remove_low_bond (k : Store) (na : NodeAccount) : outcome (Store * bool * goerr) :=
  if (naType na =? NodeType_TypeVault) || (Status na =? NodeStatus_Active) then Ok (k, false, None)
  else if negb ((naType na =? NodeType_TypeValidator) && (naBond na <=? One)) then
    Ok (k, false, None)
  else if naBond na =? 0 then Ok (k, true, None)
  else
    let bps := GetBondProviders k (NodeAddress na) in
    match acc_from_bech32 (Address_String (naBondAddress na)) with
    | Panic => Panic
    | Err _ => Ok (k, false, Some ("fail to parse bond address(" ++ naBondAddress na ++ ")"))
    | Ok to =>
        match Providers bps with
        | [] =>
            match SendFromModuleToAccount k BondName to (NewCoin DecaAsset (naBond na)) with
            | Ok k => Ok (k, true, None)
            | Err _ => Ok (k, false, None)
            | Panic => Panic
            end
        | _ =>
            bps ← Adjust bps (naBond na);
            '(k, totalSent, sendFailed) ← pay_providers k (Providers bps) 0 false;
            if naBond na <? totalSent then
              Ok (k, false, Some "total bond returned greater than node bond")
            else if (sendFailed : bool) then
              bond ← uint_sub (naBond na) totalSent;
              Ok (SetNodeAccount k (with_naBond na bond), false, None)
            else
              Ok (with_bond_providers k
                    (delete (GetKey prefixBondProviders (acc_string (NodeAddress na)))
                       (kBondProviders k)), true, None)
        end
    end.

Fixpoint low_bond_loop (k : Store) (nas : list (string * NodeAccount)) (lowBond : list string) :
    outcome (Store * list string * goerr) :=
  match nas with
  | [] => Ok (k, lowBond, None)
  | (key, na) :: rest =>
      '(k, low, err) ← remove_low_bond k na;
      match err with
      | Some e => Ok (k, lowBond, Some e)
      | None => low_bond_loop k rest (if (low : bool) then (lowBond ++ [key])%list else lowBond)
      end
  end.

(** The accounts in the order of the iterator. *)
Definition iterate_keys {A} (m : gmap string A) : list (string * A) :=
  stable_sort by_key (map_to_list m).

Definition RemoveLowBondValidatorAccounts (k : Store) : outcome (Store * goerr) :=
  '(k, lowBond, err) ← low_bond_loop k (iterate_keys (kNodeAccounts k)) [];
  match err with
  | Some e => Ok (k, Some e)
  | None =>
      Ok (with_node_accounts k
            (foldl (fun m key => delete key m) (kNodeAccounts k) lowBond), None)
  end.
End node_store.

(** ** Lemmas *)

Definition node_key {K : SdkKeys} (addr : AccAddress) : string :=
  GetKey prefixNodeAccount (acc_string addr).

Section node_store_lemmas.
Context {B : Type} `{Bank B} `{!BankOk B} {K : SdkKeys} {S : SdkMath} `{!SdkMathOk S}.

(** The bonds of all node accounts, and what the Bond module holds beyond them. *)
Definition bond_total (k : KVStore B) : Z := map_sum naBond (kNodeAccounts k).
Definition bond_gap (k : KVStore B) : Z := deca_of k BondName - bond_total k.

Lemma elem_of_iterate {A} (m : gmap string A) x : x ∈ iterate m -> exists key, m !! key = Some x.
Proof using.
  unfold iterate. intros Hx. apply list_elem_of_In, in_map_iff in Hx as ([key y] & <- & Hin).
  apply list_elem_of_In in Hin. rewrite stable_sort_perm in Hin.
  apply elem_of_map_to_list in Hin. by exists key.
Qed.

(** Node accounts are stored under their own address and are not empty; bonds
    are [Uint]s. *)
Record nodes_ok (k : KVStore B) : Prop := {
  no_account key na : kNodeAccounts k !! key = Some na ->
    key = node_key (NodeAddress na) /\ NodeAccount_IsEmpty na = false /\ is_uint (naBond na);
  no_providers key bp : kBondProviders k !! key = Some bp ->
    bonds_ok (Providers bp) /\ is_uint (NodeOperatorFee bp)
}.

(** The keys of an account, and of what is stored under a key. *)
Definition account_keys (na : NodeAccount) : PubKeySet * string :=
  (naPubKeySet na, ValidatorConsPubKey na).
Definition keys_at (k : KVStore B) (key : string) : PubKeySet * string :=
  from_option account_keys (EmptyPubKeySet, "") (kNodeAccounts k !! key).

(** [na] is the account of its address, or the empty one. *)
Record node_at (k : KVStore B) (na : NodeAccount) : Prop := {
  na_uint : is_uint (naBond na);
  na_bond : from_option naBond 0 (kNodeAccounts k !! node_key (NodeAddress na)) = naBond na;
  na_empty : NodeAccount_IsEmpty na = true -> naBond na = 0;
  na_keys : keys_at k (node_key (NodeAddress na)) = account_keys na
}.

Lemma GetNodeAccount_at (k : KVStore B) addr : nodes_ok k -> node_at k (GetNodeAccount k addr).
Proof using.
  intros Hk. unfold GetNodeAccount. fold (node_key addr).
  destruct (kNodeAccounts k !! node_key addr) as [na|] eqn:Hna; simpl.
  - destruct (no_account k Hk _ _ Hna) as (Hkey & He & Hu).
    split; [done| |congruence|]; unfold keys_at; by rewrite <- Hkey, Hna.
  - split; simpl; [unfold is_uint, uint_lim; lia| |done|]; unfold keys_at; by rewrite Hna.
Qed.

Lemma GetNodeAccount_key (k : KVStore B) addr : nodes_ok k ->
  node_key (NodeAddress (GetNodeAccount k addr)) = node_key addr.
Proof using.
  intros Hk. unfold GetNodeAccount. fold (node_key addr).
  destruct (kNodeAccounts k !! node_key addr) as [na|] eqn:Hna; simpl; [|done].
  by destruct (no_account k Hk _ _ Hna) as (<- & _).
Qed.

Lemma GetBondProviders_ok (k : KVStore B) addr : nodes_ok k ->
  bonds_ok (Providers (GetBondProviders k addr)) /\
  is_uint (NodeOperatorFee (GetBondProviders k addr)).
Proof using.
  intros Hk. unfold GetBondProviders.
  destruct (kBondProviders k !! _) as [bp|] eqn:Hbp; simpl.
  - by apply (no_providers k Hk _ _ Hbp).
  - split; [by constructor|unfold is_uint, uint_lim; lia].
Qed.

Lemma SetNodeAccount_bank (k : KVStore B) na :
  kBank (SetNodeAccount k na) = kBank k /\
  kBondProviders (SetNodeAccount k na) = kBondProviders k /\
  kHeight (SetNodeAccount k na) = kHeight k.
Proof using.
  unfold SetNodeAccount. destruct (NodeAccount_IsEmpty na); [done|].
  by destruct (_ && _).
Qed.

Lemma SetNodeAccount_accounts (k : KVStore B) na : NodeAccount_IsEmpty na = false -> exists na',
  kNodeAccounts (SetNodeAccount k na) = <[node_key (NodeAddress na) := na']> (kNodeAccounts k) /\
  naBond na' = naBond na /\ NodeAddress na' = NodeAddress na /\ Status na' = Status na /\
  account_keys na' = account_keys na.
Proof using.
  intros He. unfold SetNodeAccount. rewrite He.
  destruct (_ && _); eexists; (split; [reflexivity|done]).
Qed.

(** Writing back an account with a new bond changes the total by the
    difference. *)
Lemma SetNodeAccount_ok (k : KVStore B) na na' : nodes_ok k -> node_at k na ->
  NodeAddress na' = NodeAddress na -> is_uint (naBond na') ->
  (NodeAccount_IsEmpty na' = true -> naBond na' = 0 /\ naBond na = 0) ->
  nodes_ok (SetNodeAccount k na') /\
  (account_keys na' = account_keys na -> node_at (SetNodeAccount k na') na') /\
  bond_gap (SetNodeAccount k na') = bond_gap k - (naBond na' - naBond na).
Proof using.
  intros Hk [Hu Hb He Hkeys] Ha Hu' Hz. destruct (SetNodeAccount_bank k na') as (Hbank & Hprov & _).
  unfold bond_gap, bond_total, deca_of. rewrite Hbank.
  destruct (NodeAccount_IsEmpty na') eqn:He'.
  - destruct (Hz eq_refl) as [Hz1 Hz2].
    assert (Hid : SetNodeAccount k na' = k) by (unfold SetNodeAccount; by rewrite He').
    rewrite Hid. split; [done|]. split; [|lia].
    intros Hsame. split; [done| |done|]; rewrite Ha, ?Hb; [lia|by rewrite Hsame].
  - destruct (SetNodeAccount_accounts k na' He') as (na2 & Hacc & Hb2 & Ha2 & Hs2 & Hk2).
    assert (He2 : NodeAccount_IsEmpty na2 = false)
      by (unfold NodeAccount_IsEmpty in *; by rewrite Ha2, Hs2).
    split; [|split].
    + split; [|rewrite Hprov; apply (no_providers k Hk)].
      intros key x. rewrite Hacc. intros [ [<- <-] | [_ Hx] ]%lookup_insert_Some.
      * by rewrite Ha2, Hb2.
      * by apply (no_account k Hk).
    + intros _. split; [done| |congruence|]; unfold keys_at; by rewrite Hacc, lookup_insert_eq.
    + rewrite Hacc, map_sum_insert, Ha, Hb, Hb2. lia.
Qed.

Definition same_keys (k k' : KVStore B) : Prop := forall key, keys_at k' key = keys_at k key.

Lemma same_keys_accounts (k k' : KVStore B) : kNodeAccounts k' = kNodeAccounts k -> same_keys k k'.
Proof using. intros Ha key. unfold keys_at. by rewrite Ha. Qed.

Lemma same_keys_trans (k1 k2 k3 : KVStore B) : same_keys k1 k2 -> same_keys k2 k3 -> same_keys k1 k3.
Proof using. intros H1 H2 key. by rewrite H2, H1. Qed.

(** Writing back an account with the same keys changes no keys. *)
Lemma SetNodeAccount_keys (k : KVStore B) na na' : node_at k na ->
  NodeAddress na' = NodeAddress na -> account_keys na' = account_keys na ->
  same_keys k (SetNodeAccount k na').
Proof using.
  intros Hna Ha Hk key. destruct (NodeAccount_IsEmpty na') eqn:He.
  { unfold SetNodeAccount. by rewrite He. }
  destruct (SetNodeAccount_accounts k na' He) as (na2 & Hacc & _ & _ & _ & Hk2).
  unfold keys_at at 1. rewrite Hacc, Ha.
  destruct (decide (node_key (NodeAddress na) = key)) as [<-|Hne].
  - rewrite lookup_insert_eq. simpl. rewrite Hk2, Hk. symmetry. apply (na_keys k na Hna).
  - by rewrite lookup_insert_ne.
Qed.

Lemma SetBondProviders_ok (k : KVStore B) bp : nodes_ok k -> bonds_ok (Providers bp) ->
  is_uint (NodeOperatorFee bp) ->
  nodes_ok (SetBondProviders k bp) /\ bond_gap (SetBondProviders k bp) = bond_gap k.
Proof using.
  intros Hk Hb Hf. split; [|done]. split; [apply (no_account k Hk)|].
  intros key x Hx. simpl in Hx. apply lookup_insert_Some in Hx as [ [_ <-] | [_ Hx] ]; [done|].
  by apply (no_providers k Hk _ _ Hx).
Qed.

(** Moving coins changes the gap by what the Bond module gives or gets. *)
Lemma bond_gap_bank (k : KVStore B) b : nodes_ok k ->
  nodes_ok (with_bank k b) /\
  bond_gap (with_bank k b) = bond_gap k + (bank_balance b BondName "deca" - deca_of k BondName).
Proof using.
  intros [Hk Hp]. split; [by split|]. unfold bond_gap, deca_of, bond_total. simpl. lia.
Qed.

Lemma account_name_ne addr : account_name addr <> BondName.
Proof using. by unfold account_name. Qed.

Lemma send_from_bond_ok (k : KVStore B) to amt k' : nodes_ok k ->
  SendFromModuleToAccount k BondName to (NewCoin DecaAsset amt) = Ok k' ->
  nodes_ok k' /\ bond_gap k' = bond_gap k - amt /\
  kNodeAccounts k' = kNodeAccounts k /\ kBondProviders k' = kBondProviders k /\
  kHeight k' = kHeight k.
Proof using BankOk0.
  intros Hk Hs. unfold SendFromModuleToAccount in Hs. ok_inv.
  match goal with Hb : bank_send _ _ _ _ _ = Ok ?b |- _ =>
    destruct (bank_send_ok _ _ _ _ _ _ Hb) as [Hbal _]; destruct (bond_gap_bank k b Hk) as [? ->]
  end.
  split; [done|]. split; [|done]. rewrite Hbal. unfold deca_of.
  change (Asset_Native (cAsset (NewCoin DecaAsset amt))) with "deca". rewrite moved_from; [simpl; lia|].
  apply not_eq_sym, account_name_ne.
Qed.

Lemma bond_to_reserve_ok (k : KVStore B) amt k' : nodes_ok k ->
  SendFromModuleToModule k BondName ReserveName (NewCoin DecaAsset amt) = Ok k' ->
  nodes_ok k' /\ bond_gap k' = bond_gap k - amt /\
  kNodeAccounts k' = kNodeAccounts k /\ kBondProviders k' = kBondProviders k.
Proof using BankOk0.
  intros Hk Hs. unfold SendFromModuleToModule in Hs. ok_inv.
  match goal with Hb : bank_send _ _ _ _ _ = Ok ?b |- _ =>
    destruct (bank_send_ok _ _ _ _ _ _ Hb) as [Hbal _]; destruct (bond_gap_bank k b Hk) as [? ->]
  end.
  split; [done|]. split; [|done]. rewrite Hbal. unfold deca_of.
  change (Asset_Native (cAsset (NewCoin DecaAsset amt))) with "deca".
  rewrite moved_from by done. simpl. lia.
Qed.

Lemma node_at_frame (k k' : KVStore B) na : kNodeAccounts k' = kNodeAccounts k -> node_at k na -> node_at k' na.
Proof using. intros Heq [? ? ? ?]. split; [done|by rewrite Heq|done|]. unfold keys_at. by rewrite Heq. Qed.

(** The native fee leaves the bond and the module together. *)
Lemma DeductNativeTxFeeFromBond_ok (k : KVStore B) fee addr k' : nodes_ok k -> is_uint fee ->
  DeductNativeTxFeeFromBond k fee addr = Ok k' ->
  nodes_ok k' /\ bond_gap k' = bond_gap k /\ same_keys k k'.
Proof using BankOk0 SdkMathOk0.
  intros Hk Hf Hd. unfold DeductNativeTxFeeFromBond in Hd.
  case_if_in Hd; [by simplify_eq|]. case_if_in Hd; [done|]. z_bool.
  apply bind_Ok_inv in Hd as (bond & Hbond & Hd).
  pose proof (GetNodeAccount_at k addr Hk) as Hna. set (na := GetNodeAccount k addr) in *.
  destruct (na_uint k na Hna) as [Hu1 Hu2].
  rewrite SafeSub_Ok in Hbond by (done || exact (na_uint k na Hna)). injection Hbond as <-.
  rewrite Z.max_r in Hd by lia. unfold is_uint in Hf.
  destruct (SetNodeAccount_ok k na (with_naBond na (naBond na - fee)) Hk Hna) as (Hk1 & _ & Hg1).
  - done.
  - unfold is_uint. simpl. lia.
  - intros He. pose proof (na_empty k na Hna He). simpl. lia.
  - destruct (bond_to_reserve_ok _ _ _ Hk1 Hd) as (Hk2 & Hg2 & Ha2 & _). split; [done|].
    split; [rewrite Hg2, Hg1; simpl; lia|]. eapply same_keys_trans; [|by apply same_keys_accounts].
    by apply (SetNodeAccount_keys k na).
Qed.
End node_store_lemmas.
