(* ===== verification/Swaps.v ===== *)
(** The swapper, [x/thorchain/swap_current.go]: one leg of a swap against a
    pool ([swapOne]) and the whole swap ([Swap]), with the minimum slip of
    [helpers.go] and the anchors of [keeper_anchors.go]. *)
From S2P Require Import Prelude SdkMath GoStr Keys Shares Chains Assets Coins Bank Nodes Txs.
From S2P Require Import Voters Mimir Pools Streaming SwapCalc Keeper.
Local Open Scope string_scope.
Local Open Scope Z_scope.

(** type_events.pb.go *)
Record EventSwap := mkEventSwap {
  evPool : Asset;
  evSwapTarget : Z;
  evSwapSlip : Z;
  evLiquidityFee : Z;
  evLiquidityFeeInRune : Z;
  evInTx : Tx;
  evOutTxs : Tx;
  evEmitAsset : Coin;
  evSynthUnits : Z;
  evStreamingSwapQuantity : Z;
  evStreamingSwapCount : Z;
  evPoolSlip : Z
}.

Definition NewEventSwap (pool : Asset) (swapTarget fee swapSlip liquidityFeeInRune : Z) (inTx : Tx)
    (emitAsset : Coin) (synthUnits : Z) : EventSwap :=
  mkEventSwap pool swapTarget swapSlip fee liquidityFeeInRune inTx (mkTx "" "" "" "" [] [] "")
    emitAsset synthUnits 0 0 0.

Definition with_slip (e : EventSwap) (poolSlip : Z) : EventSwap :=
  mkEventSwap (evPool e) (evSwapTarget e) (evSwapSlip e) (evLiquidityFee e) (evLiquidityFeeInRune e)
    (evInTx e) (evOutTxs e) (evEmitAsset e) (evSynthUnits e) (evStreamingSwapQuantity e)
    (evStreamingSwapCount e) poolSlip.

(** The sub-swap number written into an event of [Swap]. *)
Definition label_event (swp : StreamingSwap) (e : EventSwap) : EventSwap :=
  let '(quantity, count) :=
    if evStreamingSwapQuantity e <? ssQuantity swp then (ssQuantity swp, u64 (ssCount swp + 1))
    else (1, 1) in
  mkEventSwap (evPool e) (evSwapTarget e) (evSwapSlip e) (evLiquidityFee e) (evLiquidityFeeInRune e)
    (evInTx e) (evOutTxs e) (evEmitAsset e) (evSynthUnits e) quantity count (evPoolSlip e).

(** What the swapper gets from components outside the model. *)
Record SwapEnv (St : Type) := mkSwapEnv {
  envSpawnDerivedAsset : Asset -> St -> St;          (* NetworkMgr().SpawnDerivedAsset *)
  envAssetOutboundFee : Asset -> option Z;           (* GasMgr().GetAssetOutboundFee *)
  envIsChain : Address -> Chain -> bool;             (* Address.IsChain *)
  envTryAddTxOutItem : TxOutItem -> Z -> St -> outcome (bool * St);  (* TxOutStore() *)
  envSimulation : bool;                              (* isSimulationMode(ctx) *)
  envConstant : string -> Z                          (* the compiled-in constants *)
}.
Arguments mkSwapEnv {St}.
Arguments envSpawnDerivedAsset {St}.
Arguments envAssetOutboundFee {St}.
Arguments envIsChain {St}.
Arguments envTryAddTxOutItem {St}.
Arguments envSimulation {St}.
Arguments envConstant {St}.

Definition replace_char (from to : ascii) (s : string) : string :=
  str_map (fun c => if Ascii.eqb c from then to else c) s.

(** [validateMessage]; [Coins[0]] exists on a valid transaction. *)
Definition validateMessage (tx : Tx) (target : Asset) (destination : Address) : goerr :=
  match Tx_Valid tx with
  | Some e => Some e
  | None =>
      if Asset_IsEmpty target then Some "target is empty"
      else if Address_IsEmpty destination then Some "destination is empty"
      else
        let source := match txCoins tx with c :: _ => cAsset c | [] => EmptyAsset end in
        if IsTradeAsset source && negb (IsTradeAsset target) && negb (IsDeca target) then
          Some "swaps from trade asset to L1 incur slip, use trade-"
        else if IsTradeAsset target && negb (IsTradeAsset source) && negb (IsDeca source) then
          Some "swaps from L1 to trade asset incur slip, use trade+"
        else None
  end.

Section swapper.
Context {B : Type} `{Bank B} {S : SdkMath}.
Context (env : SwapEnv (KVStore B)).
Abbreviation Store := (KVStore B) (only parsing).

(** A configuration value by name. *)
Definition config (k : Store) (name : string) : Z := GetConfigInt64 k name (envConstant env name).

(** *** keeper_anchors.go *)
Definition GetAnchors (k : Store) (asset : Asset) : list Asset :=
  if Asset_Equals asset TOR then
    map plAsset (List.filter (fun pool =>
      0 <? GetMimir k (replace_char "." "-" ("TorAnchor-" ++ Asset_String (plAsset pool))))
      (GetPools k))
  else [GetLayer1Asset asset].

(** *** helpers.go *)
Definition isStableToStable (k : Store) (source target : Asset) : bool :=
  let anchors := GetAnchors k TOR in
  existsb (fun anchor => Asset_Equals anchor (GetLayer1Asset source)) anchors &&
  existsb (fun anchor => Asset_Equals anchor (GetLayer1Asset target)) anchors.

Definition getMinSlipBps (k : Store) (asset : Asset) (stableOverride : bool) : Z :=
  let stableBps := config k "StableSlipMinBps" in
  if stableOverride && (0 <? stableBps) then SafeUintFromInt64 stableBps
  else
    let ref :=
      if IsSyntheticAsset asset then "SynthSlipMinBps"
      else if IsTradeAsset asset then "TradeAccountsSlipMinBps"
      else if IsDerivedAsset asset then "DerivedSlipMinBps"
      else if IsSecuredAsset asset then "SecuredAssetSlipMinBps"
      else "L1SlipMinBps" in
    SafeUintFromInt64 (config k ref).

(** *** The stages of [swapOne] *)

(** The pool's depths on the side of the source and of the target, with the
    virtual depth of synths. *)
Definition swap_depths (pool : Pool) (source target : Asset) (synthVirtualDepthMult : Z) :
    outcome (Z * Z) :=
  let '(X, Y) :=
    if IsDeca source then (BalanceDeca pool, BalanceAsset pool)
    else (BalanceAsset pool, BalanceDeca pool) in
  if IsSyntheticAsset source || IsSyntheticAsset target then
    X ← GetUncappedShare (u64 synthVirtualDepthMult) 10000 X;
    Y ← GetUncappedShare (u64 synthVirtualDepthMult) 10000 Y;
    Ok (X, Y)
  else Ok (X, Y).

(** A failing burn is only logged: the coins stay in the module. *)
Definition burn_input (k : Store) (pool : Pool) (source : Asset) (coin : Coin) : outcome Store :=
  if IsSyntheticAsset source || IsDerivedAsset (plAsset pool) then
    k ← SendFromModuleToModule k AsgardName ModuleName coin;
    match BurnFromModule k ModuleName coin with
    | Ok k' => Ok k'
    | Err _ => Ok k
    | Panic => Panic
    end
  else Ok k.

Definition mint_output (k : Store) (pool : Pool) (target : Asset) (emitAssets : Z) : outcome Store :=
  if (IsSyntheticAsset target || IsDerivedAsset (plAsset pool)) && negb (emitAssets =? 0) then
    let mintCoin := NewCoin target emitAssets in
    k ← MintToModule k ModuleName mintCoin;
    SendFromModuleToModule k ModuleName AsgardName mintCoin
  else Ok k.

(** The depths after the swap: a synth leaves the asset depth alone. *)
Definition swap_balances (pool : Pool) (source target : Asset) (x emitAssets : Z) : outcome Pool :=
  if IsDeca source then
    deca ← uint_add (BalanceDeca pool) x;
    asset ← (if negb (IsSyntheticAsset target) then SafeSub (BalanceAsset pool) emitAssets
             else Ok (BalanceAsset pool));
    Ok (with_balances pool deca asset)
  else
    deca ← SafeSub (BalanceDeca pool) emitAssets;
    asset ← (if negb (IsSyntheticAsset source) then uint_add (BalanceAsset pool) x
             else Ok (BalanceAsset pool));
    Ok (with_balances pool deca asset).

(** The fee in DECA: for a target other than DECA, what the pool pays for the
    fee added back on the asset side; the momentary deduction is undone. *)
Definition fee_in_deca (pool : Pool) (target : Asset) (fee : Z) : outcome (Z * Pool) :=
  if IsDeca target then Ok (fee, pool)
  else
    less ← SafeSub (BalanceAsset pool) fee;
    let pool := with_balances pool (BalanceDeca pool) less in
    d ← RuneDisbursementForAssetAdd pool fee;
    more ← uint_add (BalanceAsset pool) fee;
    Ok (d, with_balances pool (BalanceDeca pool) more).

(** The fee leaves the pool for the Reserve, or for the TCY stakers; the slip is
    added to the pool's. *)
Definition collect_fee (k : Store) (pool : Pool) (fee poolSlip : Z) : outcome (Store * Pool) :=
  if negb (IsDerivedAsset (plAsset pool)) then
    '(k, pool) ←
      (if negb (fee =? 0) then
         deca ← SafeSub (BalanceDeca pool) fee;
         let pool := with_balances pool deca (BalanceAsset pool) in
         let targetModule := if IsTCY (plAsset pool) then TCYClaimingName else ReserveName in
         k ← SendFromModuleToModule k AsgardName targetModule (NewCoin DecaAsset fee);
         k ← (if negb (IsTCY (plAsset pool)) then
                wrap_err "fail to add to liquidity fees: " (AddToLiquidityFees k (plAsset pool) fee)
              else Ok k);
         Ok (k, pool)
       else Ok (k, pool));
    k ← wrap_err "fail to add to swap slip: " (AddToSwapSlip k (plAsset pool) (i64 poolSlip));
    Ok (k, pool)
  else Ok (k, pool).

(** Half of the fee is clout of the sender, the rest of the recipient. *)
Definition add_clout (k : Store) (fromAddress destination : Address) (fee : Z) : outcome Store :=
  half ← uint_quo_u64 fee 2;
  '(k, availableClout) ←
    (if Address_IsEmpty fromAddress then Ok (k, fee)
     else
       let clout := GetSwapperClout k fromAddress in
       score ← uint_add (Score clout) half;
       rest ← SafeSub fee half;
       Ok (SetSwapperClout k (with_score clout score), rest));
  if Address_IsEmpty destination then Ok k
  else
    let clout := GetSwapperClout k destination in
    score ← uint_add (Score clout) availableClout;
    Ok (SetSwapperClout k (with_score clout score)).

(** The checks between loading the pool and computing the swap. *)
Definition load_pool (k : Store) (source poolAsset : Asset) : outcome Pool :=
  if negb (PoolExist k poolAsset) then
    Err ("pool " ++ Asset_String poolAsset ++ " doesn't exist")
  else
    let pool := GetPool k poolAsset in
    if IsSyntheticAsset (plAsset pool) then
      Err ("dev error: swapping with a vault(" ++ Asset_String (plAsset pool) ++ ") is not allowed")
    else
      synthSupply ← GetTotalSupply k (GetSyntheticAsset (plAsset pool));
      '(_, pool) ← CalcUnits pool synthSupply;
      if negb (IsSyntheticAsset source) && negb (IsAvailable pool) then
        Err ("pool(" ++ Asset_String (plAsset pool) ++ ") is not available")
      else Ok pool.

Definition swapOne (k : Store) (tx : Tx) (target : Asset) (destination : Address)
    (swapTarget synthVirtualDepthMult : Z) (stableOverride : bool) :
    outcome (Store * Z * EventSwap) :=
  match txCoins tx with
  | [] => Panic
  | coin :: _ =>
    let source := cAsset coin in
    let x := cAmount coin in
    let minSlipAsset := if IsDeca source then target else source in
    let poolAsset := GetLayer1Asset minSlipAsset in
    let k := if IsDerivedAsset poolAsset then envSpawnDerivedAsset env poolAsset k else k in
    pool ← load_pool k source poolAsset;
    '(X, Y) ← swap_depths pool source target synthVirtualDepthMult;
    if x =? 0 then Err "fail swap, invalid amount"
    else if (X =? 0) || (Y =? 0) then Err "fail swap, invalid balance"
    else
      swapSlipBps ← CalcSwapSlip X x;
      let minSlipBps := getMinSlipBps k minSlipAsset stableOverride in
      '(emitAssets, liquidityFee, swapSlip) ← GetSwapCalc X x Y swapSlipBps minSlipBps;
      emitAssets ← RoundToDecimal emitAssets (plDecimals pool);
      if Y <=? emitAssets then Err "fail swap, not enough balance"
      else
        k ← burn_input k pool source coin;
        k ← mint_output k pool target emitAssets;
        pool ← swap_balances pool source target x emitAssets;
        pool ←
          (if IsSyntheticAsset source || IsSyntheticAsset target then
             synthSupply ← GetTotalSupply k (GetSyntheticAsset (plAsset pool));
             '(_, pool) ← CalcUnits pool synthSupply;
             Ok pool
           else Ok pool);
        '(feeInRune, pool) ← fee_in_deca pool target liquidityFee;
        '(k, pool) ← collect_fee k pool feeInRune swapSlipBps;
        k ← (match SetPool k pool with Err _ => Err "fail to set pool" | r => r end);
        k ← add_clout k (txFrom tx) destination feeInRune;
        let inTx := mkTx (txID tx) (txChain tx) (txFrom tx) (txTo tx) [NewCoin source x]
          (txGas tx) (txMemo tx) in
        Ok (k, emitAssets,
            with_slip (NewEventSwap poolAsset swapTarget liquidityFee swapSlip feeInRune inTx
              (NewCoin target emitAssets) 0) swapSlipBps)
  end.

(** *** The whole swap *)

(** [AdvSwapQueueEnabled]: the mode is not "disabled". *)
Definition AdvSwapQueueEnabled (k : Store) : bool := negb (config k "EnableAdvSwapQueue" =? 0).

(** The amount compared with the limit: the outbound fee of a foreign target is
    deducted, a streaming swap bearing its part of it. *)
Definition limit_amount (swp : StreamingSwap) (target : Asset) (assetAmount : Z) : outcome Z :=
  if negb (Asset_IsNative target) then
    match envAssetOutboundFee env target with
    | Some outboundFee =>
        if outboundFee =? 0 then Ok assetAmount
        else
          feeToDeduct ← (if 0 <? ssQuantity swp then uint_quo_u64 outboundFee (ssQuantity swp)
                         else Ok outboundFee);
          SafeSub assetAmount feeToDeduct
    | None => Ok assetAmount
    end
  else Ok assetAmount.

(** The volume of one event; a record that cannot be saved is only logged. *)
Definition add_volume (k : Store) (evt : EventSwap) : outcome Store :=
  inAmount ← first_amount (evInTx evt);
  let volume := default (NewVolume (evPool evt)) (GetVolume k (evPool evt)) in
  volume ←
    (if Asset_Equals (GetLayer1Asset (cAsset (evEmitAsset evt))) (evPool evt) then
       a ← uint_add (ChangeAsset volume) (cAmount (evEmitAsset evt));
       r ← uint_add (ChangeRune volume) inAmount;
       Ok (mkVolume (volAsset volume) (TotalRune volume) (TotalAsset volume) r a
         (LastBucket volume))
     else
       a ← uint_add (ChangeAsset volume) inAmount;
       r ← uint_add (ChangeRune volume) (cAmount (evEmitAsset evt));
       Ok (mkVolume (volAsset volume) (TotalRune volume) (TotalAsset volume) r a
         (LastBucket volume)));
  match SetVolume k volume with Err _ => Ok k | r => r end.

Fixpoint add_volumes (k : Store) (evts : list EventSwap) : outcome Store :=
  match evts with
  | [] => Ok k
  | e :: evts' => k ← add_volume k e; add_volumes k evts'
  end.

(** The outbound of a swap that no queue manages. *)
Definition swap_outbound (k : Store) (tx : Tx) (target : Asset) (destination : Address)
    (assetAmount swapTarget : Z) (dexAgg dexAggTargetAsset : string) (dexAggLimit : option Z)
    (swp : StreamingSwap) : outcome Store :=
  if IsNoop destination then Ok k
  else if (match StreamingSwap_Valid swp with None => true | Some _ => false end) ||
          (AdvSwapQueueEnabled k && negb (envSimulation env)) then Ok k
  else
    let toi := mkTxOutItem (GetChain target) destination "" (NewCoin target assetAmount) "" "" []
      0 (txID tx) "" "" dexAgg dexAggTargetAsset dexAggLimit None "" in
    '(ok, k) ← wrap_err "fail to add outbound tx: " (envTryAddTxOutItem env toi swapTarget k);
    if negb ok then Err "prepare outbound tx not successful" else Ok k.

(** The part of [Swap] before the legs. *)
Definition swap_guards (k : Store) (tx : Tx) (target : Asset) (destination : Address) : goerr :=
  match validateMessage tx target destination with
  | Some e => Some e
  | None =>
      let source := match txCoins tx with c :: _ => cAsset c | [] => EmptyAsset end in
      let burnHeight := config k "BurnSynths" in
      let mintHeight := config k "MintSynths" in
      if IsSyntheticAsset source && (0 <? burnHeight) && (burnHeight <? kHeight k) then
        Some "burning synthetics has been disabled"
      else if IsSyntheticAsset target && (0 <? mintHeight) && (mintHeight <? kHeight k) then
        Some "minting synthetics has been disabled"
      else if negb (IsNoop destination) && negb (envIsChain env destination (GetChain target)) then
        Some ("destination address is not a valid " ++ GetChain target ++ " address")
      else if Asset_Equals source target then
        Some ("cannot swap from " ++ Asset_String source ++ " --> " ++ Asset_String target ++
          ", assets match")
      else None
  end.

(** The one or two legs: from the source to DECA, and from there to the target. *)
Definition swap_legs (k : Store) (tx : Tx) (target : Asset) (destination : Address)
    (swapTarget synthVirtualDepthMult : Z) : outcome (Store * Z * list EventSwap) :=
  let source := match txCoins tx with c :: _ => cAsset c | [] => EmptyAsset end in
  let isDoubleSwap := negb (IsDeca source) && negb (IsDeca target) in
  let stableSwap := isDoubleSwap && isStableToStable k source target in
  if isDoubleSwap then
    '(k, amt, evt1) ← swapOne k tx DecaAsset destination 0 synthVirtualDepthMult stableSwap;
    let tx := mkTx (txID tx) (txChain tx) (txFrom tx) (txTo tx) [NewCoin DecaAsset amt] []
      (txMemo tx) in
    '(k, assetAmount, evt2) ←
      swapOne k tx target destination swapTarget synthVirtualDepthMult stableSwap;
    Ok (k, assetAmount, [evt1; evt2])
  else
    '(k, assetAmount, evt) ←
      swapOne k tx target destination swapTarget synthVirtualDepthMult stableSwap;
    Ok (k, assetAmount, [evt]).

(** [Swap]: the new state, the amount emitted and the events. *)
Definition Swap (k : Store) (tx : Tx) (target : Asset) (destination : Address)
    (swapTarget : Z) (dexAgg dexAggTargetAsset : string) (dexAggLimit : option Z)
    (swp : StreamingSwap) (synthVirtualDepthMult : Z) : outcome (Store * Z * list EventSwap) :=
  _ ← check (swap_guards k tx target destination);
  '(k, assetAmount, evts) ← swap_legs k tx target destination swapTarget synthVirtualDepthMult;
  checkAmount ← (if swapTarget =? 0 then Ok assetAmount else limit_amount swp target assetAmount);
  if negb (swapTarget =? 0) && (checkAmount <? swapTarget) then
    Err ("emit asset " ++ itoa checkAmount ++ " less than price limit " ++ itoa swapTarget)
  else if assetAmount =? 0 then Err "zero emit asset"
  else
    let evts := map (label_event swp) evts in
    k ← add_volumes k evts;
    k ← swap_outbound k tx target destination assetAmount swapTarget dexAgg dexAggTargetAsset
          dexAggLimit swp;
    Ok (k, assetAmount, evts).
End swapper.

(** ** Lemmas on the stages *)
Section swap_stages.
Context {B : Type} `{Bank B} `{!BankOk B} {S : SdkMath} `{!SdkMathOk S}.

Lemma getMinSlipBps_uint (env : SwapEnv (KVStore B)) k asset so : is_uint (getMinSlipBps env k asset so).
Proof using.
  apply is_uint_u64. unfold getMinSlipBps.
  repeat case_if; unfold SafeUintFromInt64; case_if; auto with go; unfold is_u64; lia.
Qed.

Lemma GetTotalSupply_uint (k : KVStore B) asset n : GetTotalSupply k asset = Ok n -> is_uint n.
Proof.
  unfold GetTotalSupply. intros Hn. case_if_in Hn; [simplify_eq; auto with go|].
  case_if_in Hn; [|done]. simplify_eq. apply andb_true_iff in E0 as [? ?]. z_bool.
  apply is_uint_u64. split; lia.
Qed.

Lemma load_pool_inv (k : KVStore B) source a pool : pool_ok (GetPool k a) ->
  load_pool k source a = Ok pool ->
  BalanceDeca pool = BalanceDeca (GetPool k a) /\ BalanceAsset pool = BalanceAsset (GetPool k a) /\
  plAsset pool = plAsset (GetPool k a) /\ pool_ok pool.
Proof using SdkMathOk0.
  intros Hok Hl. unfold load_pool in Hl. repeat (case_if_in Hl; [done|]). ok_inv.
  match goal with Hc : CalcUnits _ _ = Ok ?p |- _ => destruct p as [u p'];
    apply CalcUnits_inv in Hc as (-> & _ & _ & Hp & _); [|done|by eapply GetTotalSupply_uint] end.
  case_if_in Hl; [done|]. by simplify_eq.
Qed.

Lemma swap_balances_inv pool source target x e pool' : pool_ok pool -> is_uint x -> is_uint e ->
  IsSyntheticAsset source = false -> IsSyntheticAsset target = false ->
  swap_balances pool source target x e = Ok pool' ->
  pool' = (if IsDeca source
           then with_balances pool (BalanceDeca pool + x) (Z.max 0 (BalanceAsset pool - e))
           else with_balances pool (Z.max 0 (BalanceDeca pool - e)) (BalanceAsset pool + x)) /\
  pool_ok pool'.
Proof using SdkMathOk0.
  intros (HD & HA & HL & HS) Hx He Hs Ht Hb. unfold swap_balances in Hb. rewrite Hs, Ht in Hb.
  simpl in Hb. destruct (IsDeca source); math_inv; subst; split; done.
Qed.

(** The fee in DECA, for a fee that fits the asset depth. *)
Lemma fee_in_deca_inv pool target f d pool' : pool_ok pool -> is_uint f ->
  (IsDeca target = false -> f < BalanceAsset pool) ->
  fee_in_deca pool target f = Ok (d, pool') ->
  pool' = pool /\ is_uint d /\
  (IsDeca target = true -> d = f) /\
  (IsDeca target = false -> d <= BalanceDeca pool /\
     2 * (d * BalanceAsset pool) <= 2 * (BalanceDeca pool * f) + BalanceAsset pool).
Proof using SdkMathOk0.
  intros (HD & HA & HL & HS) Hf Hlt Hfee. unfold fee_in_deca in Hfee.
  destruct (IsDeca target); [by simplify_eq|]. specialize (Hlt eq_refl). math_inv. subst.
  assert (HAA : Z.max 0 (BalanceAsset pool - f) + f = BalanceAsset pool) by lia.
  match goal with Hd : RuneDisbursementForAssetAdd _ _ = Ok ?r |- _ =>
    assert (Hr : is_uint r /\ r <= BalanceDeca pool /\
      2 * (r * BalanceAsset pool) <= 2 * (BalanceDeca pool * f) + BalanceAsset pool) end.
  { match goal with Hd : RuneDisbursementForAssetAdd _ _ = Ok ?r |- _ =>
      unfold RuneDisbursementForAssetAdd in Hd; simpl in Hd; case_if_in Hd end.
    - simplify_eq. split; [auto with go|]. unfold is_uint in *. nia.
    - math_inv. rewrite HAA in *. subst.
      unfold is_uint in *.
      pose proof (share_near (BalanceDeca pool) (BalanceAsset pool) f ltac:(lia)) as Hn.
      split; [done|]. split; [|lia].
      assert (share (BalanceDeca pool) (BalanceAsset pool) f * BalanceAsset pool <
        (BalanceDeca pool + 1) * BalanceAsset pool); [nia|nia]. }
  destruct Hr as (Hr1 & Hr2 & Hr3). simpl in *. rewrite HAA. split; [by destruct pool|].
  split; [done|]. split; [done|]. done.
Qed.

Lemma AddToLiquidityFees_frame (k k' : KVStore B) a fee : AddToLiquidityFees k a fee = Ok k' ->
  kPools k' = kPools k /\ kBank k' = kBank k.
Proof using. intros Ha. unfold AddToLiquidityFees in Ha. ok_inv. done. Qed.

Lemma AddToSwapSlip_frame (k k' : KVStore B) a amt : AddToSwapSlip k a amt = Ok k' ->
  kPools k' = kPools k /\ kBank k' = kBank k.
Proof using. intros Ha. unfold AddToSwapSlip in Ha. ok_inv. case_if_in Ha; by simplify_eq. Qed.

Lemma add_clout_frame (k k' : KVStore B) a1 a2 fee : add_clout k a1 a2 fee = Ok k' ->
  kPools k' = kPools k /\ kBank k' = kBank k.
Proof using.
  intros Ha. unfold add_clout in Ha. ok_inv.
  match goal with p : (KVStore B * Z)%type |- _ => destruct p as [k1 c] end.
  assert (Hk1 : kPools k1 = kPools k /\ kBank k1 = kBank k).
  { match goal with Hc : (if Address_IsEmpty a1 then _ else _) = _ |- _ => case_if_in Hc; ok_inv end;
      by simplify_eq. }
  case_if_in Ha; ok_inv; done.
Qed.

(** The module the liquidity fee goes to. *)
Definition fee_module (pool : Pool) : string :=
  if IsTCY (plAsset pool) then TCYClaimingName else ReserveName.

Lemma fee_module_asgard pool : AsgardName <> fee_module pool.
Proof using. unfold fee_module. by case_if. Qed.

Lemma collect_fee_inv (k k' : KVStore B) pool pool' fee slip : pool_ok pool -> is_uint fee ->
  IsDerivedAsset (plAsset pool) = false -> collect_fee k pool fee slip = Ok (k', pool') ->
  pool' = with_balances pool (Z.max 0 (BalanceDeca pool - fee)) (BalanceAsset pool) /\
  kPools k' = kPools k /\
  (forall who, deca_of k' who = moved AsgardName (fee_module pool) "deca" fee who "deca"
     (deca_of k who)) /\
  deca_supply k' = deca_supply k.
Proof using BankOk0 SdkMathOk0.
  intros (HD & _) Hf Hder Hc. unfold collect_fee in Hc. rewrite Hder in Hc. simpl in Hc. ok_inv.
  match goal with p : (KVStore B * Pool)%type |- _ => destruct p as [k1 p1] end. ok_inv.
  match goal with Hs : AddToSwapSlip _ _ _ = Ok _ |- _ =>
    apply AddToSwapSlip_frame in Hs as [Hp2 Hb2] end.
  assert (H1 : pool' = with_balances pool (Z.max 0 (BalanceDeca pool - fee)) (BalanceAsset pool) /\
    kPools k1 = kPools k /\
    (forall who, deca_of k1 who = moved AsgardName (fee_module pool) "deca" fee who "deca"
       (deca_of k who)) /\ deca_supply k1 = deca_supply k).
  { match goal with He : (if negb (fee =? 0) then _ else _) = _ |- _ => rename He into Hfee end.
    destruct (Z.eqb_spec fee 0) as [->|Hne]; simpl in Hfee.
    - simplify_eq. split; [|split; [done|split; [|done]]].
      + rewrite Z.sub_0_r, Z.max_r by (unfold is_uint in HD; lia). by destruct pool'.
      + intros who. unfold moved. repeat case_if; lia.
    - ok_inv. math_inv. subst. split; [done|].
      match goal with Hl : (if negb (IsTCY _) then _ else _) = Ok k1 |- _ => rename Hl into Hliq end.
      match goal with Hs : SendFromModuleToModule _ _ _ _ = Ok ?kx |- _ =>
        rename Hs into Hsend; rename kx into ks end.
      assert (Hk : kPools k1 = kPools ks /\ kBank k1 = kBank ks).
      { case_if_in Hliq; [|by simplify_eq]. ok_inv. by apply AddToLiquidityFees_frame in Hliq. }
      unfold SendFromModuleToModule in Hsend. ok_inv.
      match goal with Hs : bank_send _ _ _ _ _ = Ok _ |- _ =>
        destruct (bank_send_ok _ _ _ _ _ _ Hs) as [Hbal Hsup] end.
      destruct Hk as [Hk1 Hk2]. split; [by rewrite Hk1|].
      unfold deca_of, deca_supply. rewrite Hk2. simpl. split; [|apply Hsup].
      intros who. apply Hbal. }
  destruct H1 as (-> & Hp1 & Hd1 & Hs1). split; [done|]. split; [by rewrite Hp2|].
  unfold deca_of, deca_supply in *. rewrite Hb2. done.
Qed.
End swap_stages.

(** ** A layer-1 leg *)

(** The pool a coin is swapped against. *)
Definition leg_pool (source target : Asset) : Asset :=
  GetLayer1Asset (if IsDeca source then target else source).

(** A leg between DECA and a plain asset whose pool is stored under its own
    asset. *)
Record plain_leg {B} (k : KVStore B) (source target : Asset) : Prop := {
  leg_deca : IsDeca source = negb (IsDeca target);
  leg_source : IsSyntheticAsset source = false;
  leg_target : IsSyntheticAsset target = false;
  leg_derived : IsDerivedAsset (leg_pool source target) = false;
  leg_ok : pool_ok (GetPool k (leg_pool source target));
  leg_key : to_upper (Asset_String (plAsset (GetPool k (leg_pool source target)))) =
    to_upper (Asset_String (leg_pool source target));
  leg_pool_derived : IsDerivedAsset (plAsset (GetPool k (leg_pool source target))) = false
}.

Section plain_legs.
Context {B : Type} `{Bank B} `{!BankOk B} {S : SdkMath} `{!SdkMathOk S}.
Context (env : SwapEnv (KVStore B)).

Lemma GetPool_SetPool (k k' : KVStore B) pool a :
  to_upper (Asset_String (plAsset pool)) = to_upper (Asset_String a) ->
  SetPool k pool = Ok k' -> GetPool k' a = pool /\ kBank k' = kBank k /\
  (forall b, to_upper (Asset_String b) <> to_upper (Asset_String a) -> GetPool k' b = GetPool k b).
Proof using.
  intros Hk Hs. unfold SetPool in Hs. case_if_in Hs; [done|]. simplify_eq.
  unfold GetPool. simpl. split; [|split; [done|]].
  - by rewrite (proj2 (GetKey_inj prefixPool _ _) Hk), lookup_insert_eq.
  - intros b Hb. rewrite lookup_insert_ne; [done|]. rewrite GetKey_inj, Hk. congruence.
Qed.

(** The depths on the side of the source and of the target. *)
Definition side_in (p : Pool) (source : Asset) : Z :=
  if IsDeca source then BalanceDeca p else BalanceAsset p.
Definition side_out (p : Pool) (source : Asset) : Z :=
  if IsDeca source then BalanceAsset p else BalanceDeca p.

(** The stages of a plain leg: nothing is burnt or minted, and emission and fee
    share the gross output. *)
Lemma plain_leg_stages (k k' : KVStore B) tx coin rest target dest st mult so emit evt :
  txCoins tx = coin :: rest -> plain_leg k (cAsset coin) target -> is_uint (cAmount coin) ->
  swapOne env k tx target dest st mult so = Ok (k', emit, evt) ->
  let x := cAmount coin in let source := cAsset coin in
  let p := GetPool k (leg_pool source target) in
  exists p0 p1 p2 p3 k1 k2 f,
    BalanceDeca p0 = BalanceDeca p /\ BalanceAsset p0 = BalanceAsset p /\
    plAsset p0 = plAsset p /\ pool_ok p0 /\
    0 < x /\ 0 < side_in p source /\ 0 < side_out p source /\
    is_uint emit /\ is_uint f /\ emit + f <= gross (side_in p source) x (side_out p source) /\
    swap_balances p0 source target x emit = Ok p1 /\
    fee_in_deca p1 target f = Ok (evLiquidityFeeInRune evt, p2) /\
    collect_fee k p2 (evLiquidityFeeInRune evt) (evPoolSlip evt) = Ok (k1, p3) /\
    SetPool k1 p3 = Ok k2 /\
    add_clout k2 (txFrom tx) dest (evLiquidityFeeInRune evt) = Ok k'.
Proof using SdkMathOk0.
  intros Htx Hleg Hx Hrun. cbv zeta. unfold swapOne in Hrun. rewrite Htx in Hrun. cbv zeta in Hrun.
  destruct Hleg as [Hdeca Hsrc Htgt Hder Hok Hkey Hpder]. unfold leg_pool in *.
  set (source := cAsset coin) in *. set (x := cAmount coin) in *.
  set (a := GetLayer1Asset (if IsDeca source then target else source)) in *.
  rewrite Hder in Hrun. apply bind_Ok_inv in Hrun as (p0 & Hload & Hrun).
  destruct (load_pool_inv k source a p0 Hok Hload) as (HbD & HbA & Hpa & Hp0).
  unfold swap_depths in Hrun. rewrite Hsrc, Htgt in Hrun. simpl in Hrun.
  assert (Hside : (if IsDeca source then (BalanceDeca p0, BalanceAsset p0)
    else (BalanceAsset p0, BalanceDeca p0)) =
    (side_in (GetPool k a) source, side_out (GetPool k a) source)).
  { unfold side_in, side_out. rewrite HbD, HbA. by destruct (IsDeca source). }
  rewrite Hside in Hrun. simpl in Hrun.
  set (X := side_in (GetPool k a) source) in *. set (Y := side_out (GetPool k a) source) in *.
  assert (HXY : is_uint X /\ is_uint Y).
  { unfold X, Y, side_in, side_out. destruct Hok as (? & ? & _). by destruct (IsDeca source). }
  destruct HXY as [HX HY]. clearbody X Y.
  destruct (Z.eqb_spec x 0); [done|]. destruct ((X =? 0) || (Y =? 0)) eqn:EXY; [done|].
  apply orb_false_iff in EXY as [? ?]. z_bool.
  assert (Hpos : 0 < x /\ 0 < X /\ 0 < Y) by (unfold is_uint in *; lia).
  apply bind_Ok_inv in Hrun as (slip & Hslip & Hrun).
  apply bind_Ok_inv in Hrun as ([[e0 f] s] & Hcalc & Hrun).
  apply bind_Ok_inv in Hrun as (e & He & Hrun). case_if_in Hrun; [done|].
  pose proof (getMinSlipBps_uint env k (if IsDeca source then target else source) so) as Hmin.
  destruct (GetSwapCalc_inv X x Y slip _ e0 f s HX Hx HY Hmin ltac:(lia) Hcalc)
    as (Hu0 & Hf & _ & Hg & _).
  pose proof (RoundToDecimal_le e0 _ e Hu0 He) as Hle.
  unfold burn_input, mint_output in Hrun. rewrite Hsrc, Htgt, Hpa, Hpder in Hrun. simpl in Hrun.
  apply bind_Ok_inv in Hrun as (p1 & Hp1 & Hrun).
  apply bind_Ok_inv in Hrun as ([d p2] & Hp2 & Hrun).
  apply bind_Ok_inv in Hrun as ([k1 p3] & Hp3 & Hrun).
  apply bind_Ok_inv in Hrun as (k2 & Hk2 & Hrun).
  apply bind_Ok_inv in Hrun as (k3 & Hk3 & Hrun). simplify_eq. simpl.
  exists p0, p1, p2, p3, k1, k2, f.
  repeat (split; [first [done | lia | unfold is_uint in *; lia]|]).
  split; [by destruct (SetPool k1 p3)|]. done.
Qed.

Lemma gross_below p source x : 0 < x -> 0 < side_in p source ->
  0 < side_out p source -> gross (side_in p source) x (side_out p source) < side_out p source.
Proof using.
  intros Hx HX HY.
  by apply (gross_bounds (side_in p source) x (side_out p source)); lia.
Qed.

(** The depths between the swap and the collection of the fee. *)
Lemma leg_pool_after (p0 p : Pool) source x emit p1 :
  BalanceDeca p0 = BalanceDeca p -> BalanceAsset p0 = BalanceAsset p -> plAsset p0 = plAsset p ->
  p1 = (if IsDeca source
        then with_balances p0 (BalanceDeca p0 + x) (Z.max 0 (BalanceAsset p0 - emit))
        else with_balances p0 (Z.max 0 (BalanceDeca p0 - emit)) (BalanceAsset p0 + x)) ->
  emit <= side_out p source ->
  BalanceDeca p1 = (if IsDeca source then BalanceDeca p + x else BalanceDeca p - emit) /\
  BalanceAsset p1 = (if IsDeca source then BalanceAsset p - emit else BalanceAsset p + x) /\
  plAsset p1 = plAsset p.
Proof using.
  intros HD HA Hp -> Hle. unfold side_out in *. rewrite HD, HA.
  destruct (IsDeca source); simpl; (split; [lia|]); (split; [lia|done]).
Qed.

(** What the leg does to the store, given the pool between the swap and the
    collection of the fee. *)
Lemma plain_leg_settled (k k' : KVStore B) tx coin rest target dest st mult so emit evt :
  txCoins tx = coin :: rest -> plain_leg k (cAsset coin) target -> is_uint (cAmount coin) ->
  swapOne env k tx target dest st mult so = Ok (k', emit, evt) ->
  let x := cAmount coin in let source := cAsset coin in
  let a := leg_pool source target in
  let p := GetPool k a in let fee := evLiquidityFeeInRune evt in
  exists D A f,
    D = (if IsDeca source then BalanceDeca p + x else BalanceDeca p - emit) /\
    A = (if IsDeca source then BalanceAsset p - emit else BalanceAsset p + x) /\
    0 < x /\ 0 < side_in p source /\ 0 < side_out p source /\ 0 <= emit /\ 0 <= f /\
    emit + f <= gross (side_in p source) x (side_out p source) /\
    (0 <= fee <= D) /\ (IsDeca target = true -> fee = f) /\
    (IsDeca target = false -> 2 * (fee * A) <= 2 * (D * f) + A) /\
    BalanceDeca (GetPool k' a) = D - fee /\ BalanceAsset (GetPool k' a) = A /\
    (forall who, deca_of k' who = moved AsgardName (fee_module p) "deca" fee who "deca"
       (deca_of k who)) /\ deca_supply k' = deca_supply k /\
    (forall b, to_upper (Asset_String b) <> to_upper (Asset_String a) ->
       GetPool k' b = GetPool k b).
Proof using BankOk0 SdkMathOk0.
  intros Htx Hleg Hx Hrun x source a p fee.
  destruct (plain_leg_stages k k' tx coin rest target dest st mult so emit evt Htx Hleg Hx Hrun)
    as (p0 & p1 & p2 & p3 & k1 & k2 & f & HbD & HbA & Hpa & Hp0 & Hx0 & HX & HY & He & Hf &
        Hg & H1 & H2 & H3 & H4 & H5).
  fold x source a p fee in HbD, HbA, Hpa, Hx0, HX, HY, Hg, H1, H2, H3, H4, H5.
  destruct Hleg as [Hdeca Hsrc Htgt _ Hok Hkey Hpder]. fold source a p in Hdeca, Hsrc, Hok, Hkey, Hpder.
  destruct (swap_balances_inv p0 source target x emit p1 Hp0 Hx He Hsrc Htgt H1) as [Hp1 Hp1ok].
  pose proof (gross_below p source x Hx0 HX HY) as Hlt.
  destruct (leg_pool_after p0 p source x emit p1 HbD HbA Hpa Hp1 ltac:(destruct Hf; lia))
    as (HD & HA & Hpa1).
  destruct He as [He _]. destruct Hf as [Hf0 Hflim].
  assert (Hfit : IsDeca target = false -> f < BalanceAsset p1).
  { intros Ht. rewrite Ht in Hdeca. unfold side_out in *. rewrite HA, Hdeca in *. simpl in *. lia. }
  destruct (fee_in_deca_inv p1 target f fee p2 Hp1ok (conj Hf0 Hflim) Hfit H2)
    as (-> & Hfee & Hd1 & Hd2).
  destruct (collect_fee_inv k k1 p1 p3 fee (evPoolSlip evt) Hp1ok Hfee ltac:(by rewrite Hpa1) H3)
    as (-> & Hpools & Hdk & Hsup).
  destruct (GetPool_SetPool k1 k2 (with_balances p1 (Z.max 0 (BalanceDeca p1 - fee)) (BalanceAsset p1))
    a ltac:(by simpl; rewrite Hpa1) H4) as (HP2 & Hb2 & Hother).
  apply add_clout_frame in H5 as [HP' Hb'].
  assert (Hdf : fee <= BalanceDeca p1).
  { destruct (IsDeca target) eqn:Ht; [|by apply Hd2]. rewrite (Hd1 eq_refl), HD.
    unfold side_out in *. rewrite Hdeca in *. simpl in *. lia. }
  exists (BalanceDeca p1), (BalanceAsset p1), f.
  do 8 (split; [done || lia|]). split; [split; [apply Hfee|done]|]. split; [done|].
  split; [intros Ht; apply (Hd2 Ht)|].
  assert (HP : GetPool k' a = with_balances p1 (Z.max 0 (BalanceDeca p1 - fee)) (BalanceAsset p1))
    by (rewrite <- HP2; unfold GetPool; by rewrite HP').
  unfold deca_of, deca_supply in *. rewrite Hb', Hb2, HP. simpl.
  split; [lia|]. split; [done|].
  assert (Hm : fee_module p1 = fee_module p) by (unfold fee_module; by rewrite Hpa1).
  rewrite Hm in Hdk. split; [done|]. split; [done|]. intros b Hb.
  unfold GetPool in *. rewrite HP', (Hother b Hb). by rewrite Hpools.
Qed.
(** The deltas of a leg. *)
Lemma plain_leg_moves (k k' : KVStore B) tx coin rest target dest st mult so emit evt :
  txCoins tx = coin :: rest -> plain_leg k (cAsset coin) target -> is_uint (cAmount coin) ->
  swapOne env k tx target dest st mult so = Ok (k', emit, evt) ->
  let x := cAmount coin in let source := cAsset coin in let a := leg_pool source target in
  let p := GetPool k a in let p' := GetPool k' a in
  exists fee, 0 <= fee /\ 0 <= emit < side_out p source /\
    BalanceDeca p' = BalanceDeca p + (if IsDeca source then x else - emit) - fee /\
    BalanceAsset p' = BalanceAsset p + (if IsDeca source then - emit else x) /\
    deca_of k' AsgardName = deca_of k AsgardName - fee /\ deca_supply k' = deca_supply k /\
    (forall b, to_upper (Asset_String b) <> to_upper (Asset_String a) ->
       GetPool k' b = GetPool k b).
Proof using BankOk0 SdkMathOk0.
  intros Htx Hleg Hx Hrun x source a p p'.
  destruct (plain_leg_settled k k' tx coin rest target dest st mult so emit evt Htx Hleg Hx Hrun)
    as (D & A & f & HD & HA & Hx0 & HX & HY & He & Hf & Hg & Hfee & _ & _ & HDp & HAp & Hdk &
        Hsup & Hother).
  pose proof (gross_below _ _ _ Hx0 HX HY) as Hlt.
  exists (evLiquidityFeeInRune evt). subst p' p a x source. rewrite HDp, HAp, HD, HA.
  split; [lia|]. split; [lia|]. split; [case_if; lia|]. split; [case_if; lia|].
  rewrite (Hdk AsgardName), moved_from by apply fee_module_asgard. done.
Qed.

Lemma add_volume_frame (k k' : KVStore B) evt : add_volume k evt = Ok k' ->
  kPools k' = kPools k /\ kBank k' = kBank k.
Proof using.
  intros Hv. unfold add_volume in Hv.
  apply bind_Ok_inv in Hv as (a & _ & Hv). apply bind_Ok_inv in Hv as (v & _ & Hv).
  unfold SetVolume in Hv. destruct (Volume_Valid v); simpl in Hv; by simplify_eq.
Qed.

Lemma add_volumes_frame (k k' : KVStore B) evts : add_volumes k evts = Ok k' ->
  kPools k' = kPools k /\ kBank k' = kBank k.
Proof using.
  revert k. induction evts as [|e evts IH]; intros k Hv; simpl in Hv; [by simplify_eq|].
  apply bind_Ok_inv in Hv as (k1 & H1 & Hv). apply add_volume_frame in H1 as [<- <-]. by apply IH.
Qed.

Lemma plain_leg_frame (k k' : KVStore B) source target :
  GetPool k' (leg_pool source target) = GetPool k (leg_pool source target) ->
  plain_leg k source target -> plain_leg k' source target.
Proof using. intros Heq []. split; rewrite ?Heq; done. Qed.

(** No outbound is scheduled: the swap is a null swap, a streaming swap, whose
    handler pays it when it is done, or one that the advanced queue settles. *)
Definition unscheduled (k : KVStore B) (dest : Address) (swp : StreamingSwap) : bool :=
  IsNoop dest || (match StreamingSwap_Valid swp with None => true | Some _ => false end) ||
  (AdvSwapQueueEnabled env k && negb (envSimulation env)).

(** The outbound of the swap: the target asset, to the destination, for the
    inbound transaction of the swap. *)
Definition swap_item (tx : Tx) (target : Asset) (dest : Address) (amt : Z) (agg aggAsset : string)
    (aggLimit : option Z) : TxOutItem :=
  mkTxOutItem (GetChain target) dest "" (NewCoin target amt) "" "" [] 0 (txID tx) "" "" agg aggAsset
    aggLimit None "".

Lemma swap_outbound_inv (k k' : KVStore B) tx target dest amt limit agg aggAsset aggLimit swp :
  swap_outbound env k tx target dest amt limit agg aggAsset aggLimit swp = Ok k' ->
  if unscheduled k dest swp then k' = k
  else envTryAddTxOutItem env (swap_item tx target dest amt agg aggAsset aggLimit) limit k = Ok (true, k').
Proof using.
  unfold swap_outbound, unscheduled, swap_item. intros Hout.
  destruct (IsNoop dest); [by simplify_eq|]. cbn [orb]. case_if; [by simplify_eq|]. cbv zeta in Hout.
  apply bind_Ok_inv in Hout as ([ok k1] & Htry & Hout). unfold wrap_err in Htry.
  destruct (envTryAddTxOutItem _ _ _ _) as [r| |]; simplify_eq. by destruct ok; simplify_eq/=.
Qed.

(** A swap that succeeds ran its legs, its amount is positive and meets the
    limit, the volumes leave the pools and balances alone, and then the
    outbound is scheduled. *)
Lemma Swap_inv (k k' : KVStore B) tx target dest limit agg aggAsset aggLimit swp mult amt events :
  Swap env k tx target dest limit agg aggAsset aggLimit swp mult = Ok (k', amt, events) ->
  exists k1 evts k2, swap_legs env k tx target dest limit mult = Ok (k1, amt, evts) /\ amt <> 0 /\
  (limit <> 0 -> exists net, limit_amount env swp target amt = Ok net /\ limit <= net) /\
  kPools k2 = kPools k1 /\ kBank k2 = kBank k1 /\
  (if unscheduled k2 dest swp then k' = k2
   else envTryAddTxOutItem env (swap_item tx target dest amt agg aggAsset aggLimit) limit k2 = Ok (true, k')).
Proof using.
  intros Hrun. unfold Swap in Hrun. apply bind_Ok_inv in Hrun as (_ & _ & Hrun).
  apply bind_Ok_inv in Hrun as ([[k1 a] evts] & Hlegs & Hrun).
  apply bind_Ok_inv in Hrun as (net & Hnet & Hrun).
  case_if_in Hrun; [done|]. case_if_in Hrun; [done|]. z_bool.
  apply bind_Ok_inv in Hrun as (k2 & Hvol & Hrun). apply bind_Ok_inv in Hrun as (k3 & Hout & Hrun).
  simplify_eq. apply add_volumes_frame in Hvol as [Hp Hb]. apply swap_outbound_inv in Hout.
  exists k1, evts, k2. split_and!; try done.
  intros Hl. apply Z.eqb_neq in Hl. rewrite Hl in E, Hnet. simpl in E. z_bool. eauto.
Qed.

Lemma swap_legs_double (k k' : KVStore B) tx coin rest target dest limit mult amt evts :
  txCoins tx = coin :: rest -> IsDeca (cAsset coin) = false -> IsDeca target = false ->
  swap_legs env k tx target dest limit mult = Ok (k', amt, evts) ->
  exists k1 mid evt1 evt2 tx2 so,
    swapOne env k tx DecaAsset dest 0 mult so = Ok (k1, mid, evt1) /\
    txCoins tx2 = [NewCoin DecaAsset mid] /\
    swapOne env k1 tx2 target dest limit mult so = Ok (k', amt, evt2).
Proof using.
  intros Htx Hs Ht Hlegs. unfold swap_legs in Hlegs. rewrite Htx, Hs, Ht in Hlegs.
  cbv zeta in Hlegs. simpl negb in Hlegs. rewrite andb_true_l in Hlegs. cbv iota in Hlegs.
  apply bind_Ok_inv in Hlegs as ([[k1 mid] e1] & H1 & Hlegs).
  apply bind_Ok_inv in Hlegs as ([[k2 a2] e2] & H2 & Hlegs). simplify_eq.
  eexists _, _, _, _, _, _. split; [exact H1|]. split; [|exact H2]. done.
Qed.
End plain_legs.

(** ** Properties *)

(** C1. A leg of a swap against a layer-1 pool pays less than the pool holds,
    moves exactly the input into the pool and the emission and the fee out of
    it, and keeps the product of the depths up to half a unit of the asset
    depth (rounding of the fee in DECA); the fee moves from Asgard to the
    Reserve (or the TCY stakers), no DECA is created or burnt, and no other
    pool changes. *)
Theorem swapOne_keeps_product {B} `{Bank B} `{!BankOk B} {S : SdkMath}
    `{!SdkMathOk S} env (k k' : KVStore B) tx coin rest target dest st mult so emit evt :
  txCoins tx = coin :: rest -> plain_leg k (cAsset coin) target -> is_uint (cAmount coin) ->
  swapOne env k tx target dest st mult so = Ok (k', emit, evt) ->
  let x := cAmount coin in let source := cAsset coin in
  let a := leg_pool source target in
  let P := GetPool k a in let P' := GetPool k' a in
  let fee := evLiquidityFeeInRune evt in
  0 <= emit < side_out P source /\ 0 <= fee /\
  (if IsDeca source
   then BalanceDeca P' = BalanceDeca P + x - fee /\ BalanceAsset P' = BalanceAsset P - emit
   else BalanceDeca P' = BalanceDeca P - emit - fee /\ BalanceAsset P' = BalanceAsset P + x) /\
  2 * (BalanceDeca P * BalanceAsset P) <=
    2 * (BalanceDeca P' * BalanceAsset P') + BalanceAsset P' /\
  deca_of k' AsgardName = deca_of k AsgardName - fee /\
  deca_of k' (fee_module P) = deca_of k (fee_module P) + fee /\
  deca_supply k' = deca_supply k /\
  (forall b, to_upper (Asset_String b) <> to_upper (Asset_String a) ->
     GetPool k' b = GetPool k b).
Proof.
  intros Htx Hleg Hx Hrun x source a P P' fee.
  destruct (plain_leg_settled env k k' tx coin rest target dest st mult so emit evt Htx Hleg Hx Hrun)
    as (D & A & f & HD & HA & Hx0 & HX & HY & He & Hf & Hg & Hfee & Hd1 & Hd2 & HDp & HAp & Hdk &
        Hsup & Hother).
  fold x source a P P' fee in HD, HA, Hx0, HX, HY, Hg, Hfee, Hd1, Hd2, HDp, HAp, Hdk, Hother.
  pose proof (leg_deca _ _ _ Hleg) as Hdeca. fold source in Hdeca.
  pose proof (gross_below P source x Hx0 HX HY) as Hlt.
  destruct (gross_bounds (side_in P source) x (side_out P source)) as (_ & _ & Hprod); [lia..|].
  set (g := gross _ _ _) in *. clearbody g. rewrite HDp, HAp, !Hdk.
  split; [lia|]. split; [lia|]. unfold side_in, side_out in *.
  split; [subst D A; destruct (IsDeca source); split; lia|].
  split; [|split; [apply moved_from, fee_module_asgard|
    split; [apply moved_to, fee_module_asgard|done]]].
  destruct (IsDeca source), (IsDeca target); try done.
  - specialize (Hd2 eq_refl).
    assert (D * (BalanceAsset P - g) <= D * (A - f)) by nia. subst D. nia.
  - specialize (Hd1 eq_refl). subst fee.
    assert (A * (BalanceDeca P - g) <= A * (D - f)) by nia. subst A. nia.
Qed.

(** C4. A swap between two layer-1 assets goes through DECA without creating or
    losing any: the input enters the first pool, the emission leaves the
    second and is less than it held, the DECA held by Asgard changes exactly
    as the DECA depths of the two pools, by the two fees, the supply and every
    other pool stay, and the amount net of the outbound fee meets the limit.
    All this is so when the outbound is handed to the transaction manager,
    which is given the emission for the destination and must take it; a null
    swap, a streaming swap and a swap of the advanced queue end there. *)
Theorem Swap_double_backed {B} `{Bank B} `{!BankOk B} {S : SdkMath}
    `{!SdkMathOk S} env (k k' : KVStore B) tx coin rest target dest limit agg aggAsset aggLimit
    swp mult amt events :
  txCoins tx = coin :: rest ->
  IsDeca (cAsset coin) = false -> IsDeca target = false -> is_uint (cAmount coin) ->
  plain_leg k (cAsset coin) DecaAsset -> plain_leg k DecaAsset target ->
  let a1 := GetLayer1Asset (cAsset coin) in let a2 := GetLayer1Asset target in
  to_upper (Asset_String a1) <> to_upper (Asset_String a2) ->
  Swap env k tx target dest limit agg aggAsset aggLimit swp mult = Ok (k', amt, events) ->
  exists k2,
  let P1 := GetPool k a1 in let P1' := GetPool k2 a1 in
  let P2 := GetPool k a2 in let P2' := GetPool k2 a2 in
  BalanceAsset P1' = BalanceAsset P1 + cAmount coin /\
  BalanceAsset P2' = BalanceAsset P2 - amt /\ 0 < amt < BalanceAsset P2 /\
  (exists fee1 fee2, 0 <= fee1 /\ 0 <= fee2 /\
     BalanceDeca P1' + BalanceDeca P2' = BalanceDeca P1 + BalanceDeca P2 - fee1 - fee2 /\
     deca_of k2 AsgardName = deca_of k AsgardName - fee1 - fee2) /\
  deca_supply k2 = deca_supply k /\
  (forall b, to_upper (Asset_String b) <> to_upper (Asset_String a1) ->
     to_upper (Asset_String b) <> to_upper (Asset_String a2) -> GetPool k2 b = GetPool k b) /\
  (limit <> 0 -> exists net, limit_amount env swp target amt = Ok net /\ limit <= net) /\
  (if unscheduled env k2 dest swp then k' = k2
   else envTryAddTxOutItem env (swap_item tx target dest amt agg aggAsset aggLimit) limit k2 = Ok (true, k')).
Proof.
  intros Htx Hs Ht Hx Hleg1 Hleg2 a1 a2 Hne Hrun.
  destruct (Swap_inv _ _ _ _ _ _ _ _ _ _ _ _ _ _ Hrun) as (k2 & evts & kv & Hlegs & Hamt & Hlim & Hpools & Hbank & Hout).
  exists kv. intros P1 P1' P2 P2'.
  destruct (swap_legs_double _ _ _ _ _ _ _ _ _ _ _ _ Htx Hs Ht Hlegs)
    as (k1 & mid & evt1 & evt2 & tx2 & so & Hrun1 & Htx2 & Hrun2).
  destruct (plain_leg_moves env k k1 tx coin rest DecaAsset dest 0 mult so mid evt1 Htx Hleg1 Hx
    Hrun1) as (f1 & Hf1 & Hmid & HD1 & HA1 & Hdk1 & Hsup1 & Hoth1).
  unfold leg_pool in *. rewrite Hs in *. fold a1 P1 in Hmid, HD1, HA1, Hoth1.
  assert (HP2 : GetPool k1 a2 = P2) by (apply Hoth1; congruence).
  assert (Hmu : is_uint (cAmount (NewCoin DecaAsset mid))).
  { pose proof (leg_ok _ _ _ Hleg1) as (HD & _). unfold leg_pool, side_out in *. rewrite Hs in *.
    unfold is_uint in *. fold a1 P1 in HD. simpl. lia. }
  destruct (plain_leg_moves env k1 k2 tx2 (NewCoin DecaAsset mid) [] target dest limit mult so amt
    evt2 Htx2 (plain_leg_frame k k1 DecaAsset target HP2 Hleg2) Hmu Hrun2)
    as (f2 & Hf2 & Hamt2 & HD2 & HA2 & Hdk2 & Hsup2 & Hoth2).
  change (leg_pool (cAsset (NewCoin DecaAsset mid)) target) with a2 in *.
  change (IsDeca (cAsset (NewCoin DecaAsset mid))) with true in *.
  change (cAmount (NewCoin DecaAsset mid)) with mid in *.
  rewrite HP2 in Hamt2, HD2, HA2. unfold side_out in *. change (IsDeca _) with true in Hamt2.
  assert (Hk' : forall b, GetPool kv b = GetPool k2 b)
    by (intros b; unfold GetPool; by rewrite Hpools).
  assert (HP1 : P1' = GetPool k1 a1) by (unfold P1'; rewrite Hk'; by apply Hoth2).
  unfold P2'. rewrite HP1, Hk', HD1, HA1, HD2, HA2. unfold deca_of, deca_supply in *.
  rewrite Hbank. split; [lia|]. split; [lia|]. split; [lia|].
  split; [exists f1, f2; lia|]. split; [lia|]. split; [|by split].
  intros b Hb1 Hb2. rewrite Hk', Hoth2 by done. by apply Hoth1.
Qed.

(** ** The properties at concrete inputs *)

Definition demo_swap_pool (a : Asset) : string * Pool :=
  (GetKey prefixPool (Asset_String a), mkPool 1000000 500000 a 1000 PoolStatus_Available 1 8 0 0 0).
Definition demo_swap_store : KVStore SimpleBank :=
  with_pools
    (empty_store
      (mkSimpleBank {[("asgard", "deca") := 2000000]} {["deca" := 2500000]}) 7)
    (list_to_map [demo_swap_pool BTCAsset; demo_swap_pool ETHAsset]).
Definition demo_swap_env : SwapEnv (KVStore SimpleBank) :=
  mkSwapEnv (fun _ k => k) (fun _ => Some 40) (fun _ _ => true)
    (fun _ _ k => Ok (true, k)) false (fun _ => 0).
Definition demo_swap_tx (a : Asset) (n : Z) : Tx :=
  mkTx "id" BTCChain "from" "to" [NewCoin a n] [NewCoin BTCAsset 1] "memo".

Lemma demo_leg source target : IsDeca source = negb (IsDeca target) ->
  In (if IsDeca source then target else source) [BTCAsset; ETHAsset] ->
  In (if IsDeca source then source else target) [DecaAsset] ->
  plain_leg demo_swap_store source target.
Proof.
  intros Hd Ha Hb. destruct (IsDeca source) eqn:Es; simpl in Ha, Hb;
    destruct Hb as [<-|[]]; destruct Ha as [<-|[<-|[]]]; try (vm_compute in Hd; discriminate Hd);
    (split; vm_compute; first [reflexivity | repeat split; congruence]).
Qed.

Lemma swapOne_keeps_product_witness : exists k' evt,
  swapOne (S := sdk_std) demo_swap_env demo_swap_store (demo_swap_tx BTCAsset 20000) DecaAsset
    "dest" 0 0 false = Ok (k', 36982, evt) /\ evLiquidityFeeInRune evt = 1479 /\
  BalanceDeca (GetPool k' BTCAsset) = 1000000 - 36982 - 1479 /\
  BalanceAsset (GetPool k' BTCAsset) = 520000.
Proof.
  destruct (swapOne (S := sdk_std) demo_swap_env demo_swap_store (demo_swap_tx BTCAsset 20000)
    DecaAsset "dest" 0 0 false) as [[[k' e] evt]|m|] eqn:E; [|vm_compute in E; discriminate E..].
  assert (Hv : e = 36982 /\ evLiquidityFeeInRune evt = 1479).
  { vm_compute in E. injection E as _ <- <-. by vm_compute. }
  destruct Hv as [-> Hfee]. exists k', evt. split; [reflexivity|]. split; [exact Hfee|].
  rewrite <- Hfee.
  refine (proj1 (proj2 (proj2 (swapOne_keeps_product (S := sdk_std) demo_swap_env demo_swap_store k'
    (demo_swap_tx BTCAsset 20000) (NewCoin BTCAsset 20000) [] DecaAsset "dest" 0 0 false 36982 evt
    eq_refl _ _ E)))).
  - apply demo_leg; [done|by left|by left].
  - unfold is_uint, uint_lim. simpl. lia.
Defined.

Lemma Swap_double_backed_witness : exists k' amt evts,
  Swap (S := sdk_std) demo_swap_env demo_swap_store (demo_swap_tx BTCAsset 20000) ETHAsset
    "0xuser" 16000 "" "" None (NewStreamingSwap "" 0 0 0 0) 0 = Ok (k', amt, evts) /\
  exists k2, BalanceAsset (GetPool k2 BTCAsset) = 520000 /\
  BalanceAsset (GetPool k2 ETHAsset) = 500000 - amt /\ 0 < amt < 500000 /\
  envTryAddTxOutItem demo_swap_env
    (swap_item (demo_swap_tx BTCAsset 20000) ETHAsset "0xuser" amt "" "" None) 16000 k2 = Ok (true, k').
Proof.
  destruct (Swap (S := sdk_std) demo_swap_env demo_swap_store (demo_swap_tx BTCAsset 20000) ETHAsset
    "0xuser" 16000 "" "" None (NewStreamingSwap "" 0 0 0 0) 0) as [[[k' amt] evts]|m|] eqn:E;
    [|vm_compute in E; discriminate E..].
  exists k', amt, evts. split; [reflexivity|].
  destruct (Swap_double_backed (S := sdk_std) demo_swap_env demo_swap_store k'
    (demo_swap_tx BTCAsset 20000) (NewCoin BTCAsset 20000) [] ETHAsset "0xuser" 16000 "" "" None
    (NewStreamingSwap "" 0 0 0 0) 0 amt evts eq_refl) as (k2 & H1 & H2 & H3 & _ & _ & _ & _ & H4).
  - reflexivity.
  - reflexivity.
  - unfold is_uint, uint_lim. simpl. lia.
  - apply demo_leg; [done|by left|by left].
  - apply demo_leg; [done|by right; left|by left].
  - vm_compute. discriminate.
  - exact E.
  - exists k2.
    assert (Hq : unscheduled demo_swap_env k' "0xuser" (NewStreamingSwap "" 0 0 0 0) = false).
    { vm_compute in E. injection E as <- _ _. vm_compute. reflexivity. }
    assert (Htry : envTryAddTxOutItem demo_swap_env
      (swap_item (demo_swap_tx BTCAsset 20000) ETHAsset "0xuser" amt "" "" None) 16000 k2 = Ok (true, k')).
    { destruct (unscheduled demo_swap_env k2 _ _) eqn:Hu; [|exact H4].
      rewrite H4 in Hq. rewrite Hq in Hu. discriminate Hu. }
    assert (HA : BalanceAsset (GetPool demo_swap_store ETHAsset) = 500000 /\
      BalanceAsset (GetPool demo_swap_store BTCAsset) = 500000) by (vm_compute; auto).
    destruct HA as [HE HB].
    change (GetLayer1Asset (cAsset (NewCoin BTCAsset 20000))) with BTCAsset in H1.
    change (GetLayer1Asset ETHAsset) with ETHAsset in H2, H3.
    rewrite HE in H2, H3. rewrite HB in H1. exact (conj H1 (conj H2 (conj H3 Htry))).
Defined.
