(* ===== verification/Outbounds.v ===== *)
(** The keeper's side of outbound transactions: the items scheduled per block
    ([keeper_txout.go]), the ones that still have to be signed and the security
    of the vaults ([keeper_vault.go]), prices in dollars ([keeper_anchors.go],
    [keeper.go]), network fees ([keeper_network_fee.go]) and the fees withheld
    from users and spent on gas ([keeper_outbound_fees.go]).

    The cache of pools the Go code builds while it walks items reads a store
    that does not change meanwhile: the pool is looked up each time here. *)
From S2P Require Import Prelude SdkMath GoStr Keys Shares Chains Assets Coins Bank Nodes Txs.
From S2P Require Import Decimal Voters Mimir Observed Pools Streaming Vaults Keeper Halt VaultStore NodeStore Swaps.
Local Open Scope string_scope.
Local Open Scope Z_scope.

Definition prefixNetworkFee : string := "network_fee/".
Definition prefixOutboundFeeWithheldRune : string := "outbound_fee_withheld_rune/".
Definition prefixOutboundFeeSpentRune : string := "outbound_fee_spent_rune/".

(** [constants.DollarMulti]. *)
Definition DollarMulti : Z := 10 ^ 9.

(** A loop over a slice with an accumulator, stopped by a panic. *)
Fixpoint fold_ok {A X} (f : A -> X -> outcome A) (acc : A) (l : list X) : outcome A :=
  match l with
  | [] => Ok acc
  | x :: l' => acc ← f acc x; fold_ok f acc l'
  end.

(** The heights a loop [for h := lo; h <= hi; h++] visits. *)
Definition heights (lo hi : Z) : list Z := seqZ lo (hi - lo + 1).

(** [safeUint64]: a value that fits 64 bits. *)
Definition safeUint64 (v : Z) : outcome Z :=
  if (0 <=? v) && (v <? 2 ^ 64) then Ok v else Err ("value " ++ itoa v ++ " overflows uint64").

Section outbounds.
Context {B : Type} {K : SdkKeys} {S : SdkMath}.
Context (constants : string -> Z).
Abbreviation Store := (KVStore B) (only parsing).

Definition cfg (k : Store) (name : string) : Z := GetConfigInt64 k name (constants name).

(** *** keeper_txout.go *)
Definition tx_out_key (height : Z) : string := GetKey prefixTxOut (itoa height).
Definition GetTxOut (k : Store) (height : Z) : TxOut :=
  default (NewTxOut height) (kTxOuts k !! tx_out_key height).
Definition SetTxOut (k : Store) (blockOut : TxOut) : Store :=
  if TxOut_IsEmpty blockOut then k
  else with_tx_outs k (<[tx_out_key (toHeight blockOut) := blockOut]> (kTxOuts k)).
Definition AppendTxOut (k : Store) (height : Z) (item : TxOutItem) : Store :=
  let block := GetTxOut k height in
  SetTxOut k (mkTxOut (toHeight block) (TxArray block ++ [item])%list).
Definition ClearTxOut (k : Store) (height : Z) : Store :=
  with_tx_outs k (delete (tx_out_key height) (kTxOuts k)).

(** The value of a coin in DECA. *)
Definition add_coin_value (k : Store) (runeValue : Z) (coin : Coin) : outcome Z :=
  if Coin_IsDeca coin then uint_add runeValue (cAmount coin)
  else
    v ← AssetValueInRune (GetPool k (GetLayer1Asset (cAsset coin))) (cAmount coin);
    uint_add runeValue v.

Definition add_item_value (k : Store) (acc : Z * Z) (toi : TxOutItem) : outcome (Z * Z) :=
  runeValue ← fold_ok (add_coin_value k) acc.1 (toCoin toi :: MaxGas toi);
  cloutValue ← (match CloutSpent toi with Some c => uint_add acc.2 c | None => Ok acc.2 end);
  Ok (runeValue, cloutValue).

Definition GetTOIsValue (k : Store) (tois : list TxOutItem) : outcome (Z * Z) :=
  fold_ok (add_item_value k) (0, 0) tois.
Definition GetTxOutValue (k : Store) (height : Z) : outcome (Z * Z) :=
  GetTOIsValue k (TxArray (GetTxOut k height)).

(** *** keeper_vault.go: what is still to be signed *)

(** The loop of [GetPendingOutbounds] stops at the first empty block after
    height [last]. *)
Fixpoint pending_from (k : Store) (asset : Asset) (last : Z) (hs : list Z) : list TxOutItem :=
  match hs with
  | [] => []
  | height :: hs' =>
      let items := TxArray (GetTxOut k height) in
      if (last <? height) && (length items =? 0)%nat then []
      else (List.filter (fun item => Asset_Equals (cAsset (toCoin item)) asset &&
              TxID_IsEmpty (OutHash item)) items ++ pending_from k asset last hs')%list
  end.

(** The signing period is read from the constants, the rest is configurable. *)
Definition signing_start (k : Store) (period : Z) : Z :=
  let h := i64 (kHeight k - period) in if h <? 1 then 1 else h.

Definition GetPendingOutbounds (k : Store) (asset : Asset) : list TxOutItem :=
  pending_from k asset (i64 (kHeight k + cfg k "MaxTxOutOffset"))
    (heights (signing_start k (constants "SigningTransactionPeriod"))
       (i64 (kHeight k + cfg k "TxOutDelayMax"))).

(** *** keeper_anchors.go, keeper.go: prices *)
Definition anchor_value (k : Store) (p : list Z) (asset : Asset) : outcome (list Z) :=
  if IsGlobalTradingHalted k || IsChainTradingHalted k (aChain asset) then Ok p
  else
    let pool := GetPool k asset in
    if negb (IsAvailable pool) then Ok p
    else
      value ← RuneValueInAsset pool (DollarMulti * One);
      Ok (if negb (value =? 0) then (p ++ [value])%list else p).

Definition AnchorMedian (k : Store) (assets : list Asset) : outcome Z :=
  p ← fold_ok (anchor_value k) [] assets;
  '(m, _) ← GetMedianUint p;
  Ok m.

Definition DollarsPerRune (k : Store) : outcome Z :=
  let dollarsPerRune := GetMimir k "DollarsPerRune" in
  if 0 <? dollarsPerRune then Ok (u64 dollarsPerRune)
  else
    m ← AnchorMedian k (GetAnchors k TOR);
    uint_quo_u64 m DollarMulti.

Definition RunePerDollar (k : Store) : outcome Z :=
  runePriceInUSD ← DollarsPerRune k;
  GetUncappedShare One runePriceInUSD One.

Definition DollarConfigInRune (k : Store) (name : string) : outcome Z :=
  let usd := SafeUintFromInt64 (cfg k name) in
  runeUSDPrice ← DollarsPerRune k;
  if negb (runeUSDPrice =? 0) then
    scaled ← uint_mul_u64 usd One;
    runeValue ← uint_quo scaled runeUSDPrice;
    runeValue ← uint64_or_panic runeValue;
    RoundSignificantFigures runeValue (cfg k "FeeUSDRoundSignificantDigits")
  else Ok usd.

Definition usdFeesEnabled (k : Store) : bool := 0 <? GetMimir k "EnableUSDFees".

Definition GetNativeTxFee (k : Store) : outcome Z :=
  if usdFeesEnabled k then DollarConfigInRune k "NativeTransactionFeeUSD"
  else Ok (u64 (cfg k "NativeTransactionFee")).

(** *** keeper_network_fee.go *)
Definition network_fee_key (chain : Chain) : string := GetKey prefixNetworkFee (Chain_String chain).
Definition GetNetworkFee (k : Store) (chain : Chain) : NetworkFee :=
  default (NewNetworkFee chain 0 0) (kNetworkFees k !! network_fee_key chain).
Definition SaveNetworkFee (k : Store) (chain : Chain) (networkFee : NetworkFee) : outcome Store :=
  _ ← check (NetworkFee_Valid networkFee);
  Ok (with_network_fees k (<[network_fee_key chain := networkFee]> (kNetworkFees k))).

(** *** keeper_outbound_fees.go *)
Definition GetOutboundTxFee (k : Store) : outcome Z :=
  if usdFeesEnabled k then DollarConfigInRune k "NativeOutboundFeeUSD"
  else Ok (SafeUintFromInt64 (cfg k "OutboundTransactionFee")).

(** The surplus at which the fee multiplier would be the target.  The numbers
    are printed and read back as decimals, which does not fail on 64 bits. *)
Definition surplus_for (targetSurplus maxMultiplier minMultiplier targetMultiplierBps : Z) :
    outcome Z :=
  let target :=
    if targetMultiplierBps <? minMultiplier then minMultiplier else targetMultiplierBps in
  let target := if maxMultiplier <? target then maxMultiplier else target in
  deltaToTarget ← SafeSub maxMultiplier target;
  maxMinusMin ← SafeSub maxMultiplier minMultiplier;
  if maxMinusMin =? 0 then Ok targetSurplus
  else
    ratio ← dec_quo (dec_of_big deltaToTarget) (dec_of_big maxMinusMin);
    equilibriumSurplusDec ← dec_mul ratio (dec_of_big targetSurplus);
    rounded ← dec_round equilibriumSurplusDec;
    uint_of_big rounded.

Definition GetSurplusForTargetMultiplier (k : Store) (targetMultiplierBps : Z) : outcome Z :=
  surplus_for (SafeUintFromInt64 (cfg k "TargetOutboundFeeSurplusDeca"))
    (SafeUintFromInt64 (cfg k "MaxOutboundFeeMultiplierBasisPoints"))
    (SafeUintFromInt64 (cfg k "MinOutboundFeeMultiplierBasisPoints")) targetMultiplierBps.

Definition withheld_key (outAsset : Asset) : string :=
  GetKey prefixOutboundFeeWithheldRune (Asset_String outAsset).
Definition spent_key (outAsset : Asset) : string :=
  GetKey prefixOutboundFeeSpentRune (Asset_String outAsset).

Definition fee_overflow (what : string) (outAsset : Asset) : string :=
  "outbound fee " ++ what ++ " rune overflow for " ++ Asset_String outAsset ++ ": ".

(** Reading a record of zero writes the initial amount. *)
Definition GetOutboundFeeWithheldRune (k : Store) (outAsset : Asset) : outcome (Store * Z) :=
  let withheld := getUint64 k (withheld_key outAsset) 0 in
  if withheld =? 0 then
    withheld ← GetSurplusForTargetMultiplier k 10000;
    val ← wrap_err (fee_overflow "withheld" outAsset) (safeUint64 withheld);
    Ok (setUint64 k (withheld_key outAsset) val, withheld)
  else Ok (k, withheld).

(** A sum that overflows is reported, and the initial amount stays written. *)
Definition AddToOutboundFeeWithheldRune (k : Store) (outAsset : Asset) (withheld : Z) :
    Store * outcome unit :=
  match GetOutboundFeeWithheldRune k outAsset with
  | Err e => (k, Err e)
  | Panic => (k, Panic)
  | Ok (k, total) =>
      match (total ← uint_add total withheld;
             wrap_err (fee_overflow "withheld" outAsset) (safeUint64 total)) with
      | Ok val => (setUint64 k (withheld_key outAsset) val, Ok tt)
      | Err e => (k, Err e)
      | Panic => (k, Panic)
      end
  end.

Definition GetOutboundFeeSpentRune (k : Store) (outAsset : Asset) : Z :=
  getUint64 k (spent_key outAsset) 0.
Definition AddToOutboundFeeSpentRune (k : Store) (outAsset : Asset) (spent : Z) : outcome Store :=
  total ← uint_add (GetOutboundFeeSpentRune k outAsset) spent;
  val ← wrap_err (fee_overflow "spent" outAsset) (safeUint64 total);
  Ok (setUint64 k (spent_key outAsset) val).

(** *** keeper_vault.go: the security of vaults

    [to_address] is [PubKey.GetThorAddress] and [pk_address] is
    [PubKey.GetAddress]: hashes of the key. *)
Context (to_address : PubKey -> outcome AccAddress).
Context (pk_address : PubKey -> Chain -> outcome Address).

Definition Vault_GetAddress (m : Vault) (chain : Chain) : outcome Address :=
  pubKey ← wrap_err "fail to get vault address: " (AlgoPubKey m chain);
  pk_address pubKey chain.

Definition add_bond (k : Store) (totalBond : Z) (pk : PubKey) : outcome Z :=
  match GetNodeAccountByPubKey k to_address pk with
  | Ok na =>
      if Status na =? NodeStatus_Active then uint_add totalBond (naBond na) else Ok totalBond
  | Err _ => Ok totalBond
  | Panic => Panic
  end.

Definition add_vault_coin (k : Store) (totalValue : Z) (coin : Coin) : outcome Z :=
  if Coin_IsDeca coin then Ok totalValue
  else
    v ← AssetValueInRune (GetPool k (cAsset coin)) (cAmount coin);
    uint_add totalValue v.

(** What an outbound takes from the vault, or brings to it. *)
Definition add_unsent (k : Store) (vault : Vault) (totalValue : Z) (item : TxOutItem) : outcome Z :=
  if negb (TxID_IsEmpty (OutHash item)) then Ok totalValue
  else
    match Vault_GetAddress vault (GetChain (cAsset (toCoin item))) with
    | Panic => Panic
    | Err _ => Ok totalValue
    | Ok toAddress =>
        let coin := toCoin item in
        let value :=
          if Coin_IsDeca coin then Ok (cAmount coin)
          else AssetValueInRune (GetPool k (cAsset coin)) (cAmount coin) in
        if PubKey_Equals (VaultPubKey item) (vPubKey vault) then
          v ← value; SafeSub totalValue v
        else if Address_Equals (toToAddress item) toAddress then
          v ← value; uint_add totalValue v
        else Ok totalValue
    end.

Record VaultSecurity := mkVaultSecurity {
  vsVault : Vault;
  TotalBond : Z;
  TotalValue : Z;
  Diff : Z
}.

(** [Diff] is negative when the value is more than the bond. *)
Definition vault_security (k : Store) (signingTransPeriod : Z) (vault : Vault) :
    outcome VaultSecurity :=
  totalBond ← fold_ok (add_bond k) 0 (Vault_GetMembership vault);
  totalValue ← fold_ok (add_vault_coin k) 0 (vCoins vault);
  totalValue ← fold_ok (fun v height => fold_ok (add_unsent k vault) v (TxArray (GetTxOut k height)))
    totalValue (heights (signing_start k signingTransPeriod) (kHeight k));
  if totalBond <? totalValue then
    diff ← uint_sub totalValue totalBond;
    Ok (mkVaultSecurity vault totalBond totalValue (- diff))
  else
    diff ← uint_sub totalBond totalValue;
    Ok (mkVaultSecurity vault totalBond totalValue diff).

Definition diff_less (a b : VaultSecurity) : bool := Diff a <? Diff b.

Fixpoint vault_securities (k : Store) (signingTransPeriod : Z) (vaults : Vaults) :
    outcome (list VaultSecurity) :=
  match vaults with
  | [] => Ok []
  | v :: vaults' =>
      s ← vault_security k signingTransPeriod v;
      rest ← vault_securities k signingTransPeriod vaults';
      Ok (s :: rest)
  end.

Definition getSortedVaultSecurity (k : Store) (vaults : Vaults) (signingTransPeriod : Z) :
    outcome (list VaultSecurity) :=
  l ← vault_securities k signingTransPeriod vaults;
  Ok (stable_sort diff_less l).

Definition SortBySecurity (k : Store) (vaults : Vaults) (signingTransPeriod : Z) : outcome Vaults :=
  if (length vaults <=? 1)%nat then Ok vaults
  else
    l ← getSortedVaultSecurity k vaults signingTransPeriod;
    Ok (map vsVault l).
End outbounds.

(** ** Lemmas *)

Lemma fold_ok_inv {A X} (I : A -> Prop) (f : A -> X -> outcome A) l acc r :
  (forall a x a', x ∈ l -> I a -> f a x = Ok a' -> I a') -> I acc -> fold_ok f acc l = Ok r -> I r.
Proof.
  revert acc. induction l as [|x l IH]; intros acc Hf Hacc; simpl; [by intros [= <-]|].
  intros Hr. ok_inv. eapply IH; [|eapply Hf; [apply list_elem_of_here|done|done]|done].
  intros a y a' Hy. apply Hf. by apply list_elem_of_further.
Qed.

(** A fold that does not panic, given a bound the accumulator keeps. *)
Lemma fold_ok_total {A X} (I : A -> Prop) (f : A -> X -> outcome A) l acc :
  (forall a x, x ∈ l -> I a -> exists a', f a x = Ok a' /\ I a') -> I acc ->
  exists r, fold_ok f acc l = Ok r /\ I r.
Proof.
  revert acc. induction l as [|x l IH]; intros acc Hf Hacc; simpl; [eauto|].
  destruct (Hf acc x) as (a' & -> & Ha'); [apply list_elem_of_here|done|]. simpl.
  apply IH; [|done]. intros a y Hy. apply Hf. by apply list_elem_of_further.
Qed.

Lemma heights_elem lo hi h : h ∈ heights lo hi <-> lo <= h <= hi.
Proof. unfold heights. rewrite elem_of_seqZ. lia. Qed.

Lemma heights_cons lo hi : lo <= hi -> heights lo hi = lo :: heights (lo + 1) hi.
Proof.
  intros Hle. unfold heights. rewrite seqZ_cons by lia. f_equal. f_equal; lia.
Qed.

Lemma heights_nil lo hi : hi < lo -> heights lo hi = [].
Proof. intros Hlt. unfold heights. apply seqZ_nil. lia. Qed.

(** *** The DECA of all the pools *)
Definition pools_deca {B} (k : KVStore B) : Z :=
  map_fold (fun _ p total => BalanceDeca p + total) 0 (kPools k).

Lemma pools_deca_insert {B} (k : KVStore B) key p :
  pools_deca (with_pools k (<[key := p]> (kPools k))) =
    pools_deca k - BalanceDeca (default NewPool (kPools k !! key)) + BalanceDeca p.
Proof.
  unfold pools_deca, with_pools. simpl.
  assert (Hins : forall (m : gmap string Pool) q, m !! key = None ->
    map_fold (fun _ p total => BalanceDeca p + total) 0 (<[key := q]> m) =
      BalanceDeca q + map_fold (fun _ p total => BalanceDeca p + total) 0 m).
  { intros m q Hm. apply (map_fold_insert_L (fun _ p total => BalanceDeca p + total) 0 key q m); [|done].
    intros. lia. }
  rewrite <- insert_delete_eq, Hins by apply lookup_delete_eq.
  destruct (kPools k !! key) as [old|] eqn:E; simpl.
  - rewrite <- (insert_delete_id (kPools k) key old) at 2 by done.
    rewrite Hins by apply lookup_delete_eq. lia.
  - rewrite delete_id by done. lia.
Qed.
