(* ===== verification/GasMgr.v ===== *)
(** The gas manager, [x/thorchain/manager_gas_current.go]: what an outbound
    costs its receiver, what the signers may spend on gas, and the
    reimbursement of the pools for the gas that was spent.

    The manager keeps the gas of the block in memory, outside the store: it is
    a record of its own, and nothing rolls it back. *)
From S2P Require Import Prelude SdkMath GoStr Keys Shares Chains Assets Coins Bank Nodes Txs.
From S2P Require Import Decimal Voters Mimir Observed Pools Streaming Vaults Keeper Halt VaultStore NodeStore Swaps Outbounds.
Local Open Scope string_scope.
Local Open Scope Z_scope.

Record GasPool := mkGasPool {
  gpAsset : Asset;
  gpRuneAmt : Z;
  gpAssetAmt : Z;
  gpCount : Z
}.
Record OutAssetGas := mkOutAssetGas { outAsset : Asset; oaGas : Gas }.

(** [gasCount] is the map of the Go code as a list of entries, one per asset. *)
Record GasMgr := mkGasMgr {
  gasEvent : list GasPool;
  outAssetGas : list OutAssetGas;
  gasCount : list (Asset * Z)
}.
Definition newGasMgr : GasMgr := mkGasMgr [] [] [].
(** [reset], which [BeginBlock] calls. *)
Definition GasMgr_BeginBlock (gm : GasMgr) : GasMgr := newGasMgr.

(** Maps keyed by an asset, compared as a Go struct. *)
Fixpoint asset_lookup {A} (l : list (Asset * A)) (a : Asset) : option A :=
  match l with
  | [] => None
  | (b, x) :: l' => if decide (b = a) then Some x else asset_lookup l' a
  end.
Fixpoint asset_insert {A} (l : list (Asset * A)) (a : Asset) (x : A) : list (Asset * A) :=
  match l with
  | [] => [(a, x)]
  | (b, y) :: l' => if decide (b = a) then (a, x) :: l' else (b, y) :: asset_insert l' a x
  end.

Section gas.
Context {S : SdkMath}.

(** [EventGas.UpsertGasPool]: the first entry of the same asset grows. *)
Fixpoint UpsertGasPool (pools : list GasPool) (pool : GasPool) : outcome (list GasPool) :=
  match pools with
  | [] => Ok [pool]
  | p :: pools' =>
      if decide (gpAsset p = gpAsset pool) then
        rune ← uint_add (gpRuneAmt p) (gpRuneAmt pool);
        asset ← uint_add (gpAssetAmt p) (gpAssetAmt pool);
        Ok (mkGasPool (gpAsset p) rune asset (gpCount p) :: pools')
      else
        rest ← UpsertGasPool pools' pool;
        Ok (p :: rest)
  end.

Fixpoint add_out_asset_gas (l : list OutAssetGas) (asset : Asset) (gas : Gas) :
    outcome (list OutAssetGas) :=
  match l with
  | [] => Ok [mkOutAssetGas asset gas]
  | g :: l' =>
      if Asset_Equals (outAsset g) asset then
        sum ← Gas_Add (oaGas g) gas;
        Ok (mkOutAssetGas (outAsset g) sum :: l')
      else
        rest ← add_out_asset_gas l' asset gas;
        Ok (g :: rest)
  end.

(** Each gas asset is counted once per transaction. *)
Fixpoint count_gas (counts : list (Asset * Z)) (incremented : list Asset) (gas : Gas) :
    list (Asset * Z) :=
  match gas with
  | [] => counts
  | c :: gas' =>
      if bool_decide (cAsset c ∈ incremented) then count_gas counts incremented gas'
      else
        count_gas (asset_insert counts (cAsset c)
            (i64 (default 0 (asset_lookup counts (cAsset c)) + 1)))
          (cAsset c :: incremented) gas'
  end.

Definition AddGasAsset (gm : GasMgr) (asset : Asset) (gas : Gas) (increaseTxCount : bool) :
    outcome GasMgr :=
  l ← add_out_asset_gas (outAssetGas gm) asset gas;
  Ok (mkGasMgr (gasEvent gm) l
    (if increaseTxCount then count_gas (gasCount gm) [] gas else gasCount gm)).

Definition GetGas (gm : GasMgr) : outcome Gas :=
  fold_ok (fun gas g => Gas_Add gas (oaGas g)) [] (outAssetGas gm).

(** The multiplier falls from the maximum to the minimum as the surplus grows
    to its target. *)
Definition CalcOutboundFeeMultiplier (targetSurplusRune gasSpentRune gasWithheldRune maxMultiplier
    minMultiplier : Z) : outcome Z :=
  if targetSurplusRune =? 0 then Ok maxMultiplier
  else if maxMultiplier <? minMultiplier then Ok 30000
  else
    surplusRune ← SafeSub gasWithheldRune gasSpentRune;
    range ← SafeSub maxMultiplier minMultiplier;
    multiplierReducedBps ← GetSafeShare surplusRune targetSurplusRune range;
    SafeSub maxMultiplier multiplierReducedBps.

Context {B : Type} `{Bank B}.
Context (constants : string -> Z).
Abbreviation Store := (KVStore B) (only parsing).

(** [MinimumL1OutboundFeeUSD] in the gas asset. *)
Definition min_outbound_fee (k : Store) (gasPool : Pool) : outcome Z :=
  let minOutboundUSD := cfg constants k "MinimumL1OutboundFeeUSD" in
  runeUSDPrice ← DollarsPerRune k;
  if negb (runeUSDPrice =? 0) then
    minOutboundInRune ← GetUncappedShare (u64 minOutboundUSD) runeUSDPrice One;
    RuneValueInAsset gasPool minOutboundInRune
  else Ok 0.

(** The fee in the gas asset: the cost of a transaction times the multiplier. *)
Definition gas_asset_fee (k : Store) (asset : Asset) (networkFee : NetworkFee) (gasPool : Pool)
    (minAsset : Z) : outcome (Store * Z) :=
  '(k, withheld) ←
    (match GetOutboundFeeWithheldRune constants k asset with
     | Ok r => Ok r
     | Err _ => Ok (k, 0)
     | Panic => Panic
     end);
  let spent := GetOutboundFeeSpentRune k asset in
  chainBaseFee ← uint_mul_u64 (netTransactionSize networkFee) (TransactionFeeRate networkFee);
  chainBaseFee ← uint_mul_u64 chainBaseFee One;
  chainBaseFee ← uint_quo chainBaseFee (GetGasUnits (GetChain asset)).2;
  feeMultiplierBps ← CalcOutboundFeeMultiplier (u64 (cfg constants k "TargetOutboundFeeSurplusDeca"))
    spent withheld (u64 (cfg constants k "MaxOutboundFeeMultiplierBasisPoints"))
    (u64 (cfg constants k "MinOutboundFeeMultiplierBasisPoints"));
  finalFee ← GetUncappedShare feeMultiplierBps 10000 chainBaseFee;
  fee ← RoundToDecimal finalFee (plDecimals gasPool);
  Ok (k, if fee <? minAsset then minAsset else fee).

(** The first read of the withheld fee may write it: the store is returned. *)
Definition GetAssetOutboundFee (k : Store) (asset : Asset) (inRune : bool) : outcome (Store * Z) :=
  if Asset_IsNative asset then Ok (k, 0)
  else
    let chainOutboundFee := GetNetworkFee k (GetChain asset) in
    match NetworkFee_Valid chainOutboundFee with
    | Some _ => Ok (k, 0)
    | None =>
        let gasAsset := GetGasAsset (GetChain asset) in
        let gasPool := GetPool k gasAsset in
        minAsset ← min_outbound_fee k gasPool;
        '(k, fee) ← gas_asset_fee k asset chainOutboundFee gasPool minAsset;
        if Asset_Equals asset gasAsset && negb inRune then Ok (k, fee)
        else if (BalanceAsset gasPool =? 0) || (BalanceDeca gasPool =? 0) then Ok (k, 0)
        else
          fee ← AssetValueInRune gasPool fee;
          if inRune then Ok (k, fee)
          else
            let assetPool := GetPool k asset in
            if (BalanceAsset assetPool =? 0) || (BalanceDeca assetPool =? 0) then Ok (k, 0)
            else fee ← RuneValueInAsset assetPool fee; Ok (k, fee)
    end.

Definition GasMgr_GetNetworkFee (k : Store) (chain : Chain) : outcome NetworkFee :=
  if decide (chain = THORChain) then
    transactionFee ← GetOutboundTxFee constants k;
    fee ← uint64_or_panic transactionFee;
    Ok (NewNetworkFee THORChain 1 fee)
  else Ok (GetNetworkFee k chain).

(** The most a transaction may spend on gas, and the rate to sign with. *)
Definition GetGasDetails (k : Store) (chain : Chain) : outcome (Coin * Z) :=
  networkFee ← wrap_err ("fail to get network fee for chain(" ++ chain ++ "): ")
    (GasMgr_GetNetworkFee k chain);
  _ ← wrap_err ("network fee for chain(" ++ chain ++ ") is invalid: ")
    (check (NetworkFee_Valid networkFee));
  gasRate ← (if negb (IsTHORChain chain) then
               r ← uint_mul_u64 (TransactionFeeRate networkFee) 3;
               uint_quo_u64 r 2
             else Ok (TransactionFeeRate networkFee));
  maxGasAmount ← uint_mul_u64 gasRate (netTransactionSize networkFee);
  scaled ← uint_mul_u64 maxGasAmount One;
  maxGasAmount1e8 ← uint_quo scaled (GetGasUnits chain).2;
  maxGasAmount1e8 ← RoundToDecimal maxGasAmount1e8 (GetGasAssetDecimal chain);
  rate ← uint64_or_panic gasRate;
  Ok (WithDecimals (NewCoin (GetGasAsset chain) maxGasAmount1e8) (GetGasAssetDecimal chain), i64 rate).

Definition GetMaxGas (k : Store) (chain : Chain) : outcome Coin :=
  '(maxGasCoin, _) ← GetGasDetails k chain; Ok maxGasCoin.

(** [GetGasRate] drops the error. *)
Definition GetGasRate (k : Store) (chain : Chain) : outcome Z :=
  match GetGasDetails k chain with
  | Ok (_, gasRate) => Ok (u64 gasRate)
  | Err _ => Ok 0
  | Panic => Panic
  end.

(** *** ProcessGas *)

(** The state of the loops: the store, what is left of the Reserve, the pools
    read so far, the gas event. *)
Record GasRun := mkGasRun {
  grStore : Store;
  grReserve : Z;
  grCache : list (Asset * Pool);
  grEvent : list GasPool
}.

Definition cached_pool (k : Store) (cache : list (Asset * Pool)) (asset : Asset) :
    Pool * list (Asset * Pool) :=
  match asset_lookup cache asset with
  | Some pool => (pool, cache)
  | None => let pool := GetPool k asset in (pool, asset_insert cache asset pool)
  end.

(** One coin of the gas spent on outbounds of an asset; [spent] adds up what
    the Reserve pays. *)
Definition reimburse_coin (gm : GasMgr) (st : GasRun * Z) (coin : Coin) : outcome (GasRun * Z) :=
  let '(r, spent) := st in
  if Coin_IsEmpty coin then Ok (r, spent)
  else
    let '(pool, cache) := cached_pool (grStore r) (grCache r) (cAsset coin) in
    let r := mkGasRun (grStore r) (grReserve r) cache (grEvent r) in
    match Pool_Valid pool with
    | Some _ => Ok (r, spent)
    | None =>
        runeGas ← AssetValueInRune pool (cAmount coin);
        if runeGas =? 0 then Ok (r, spent)
        else
          reserve ← SafeSub (grReserve r) runeGas;
          let runeGas := if reserve =? 0 then 0 else runeGas in
          event ← UpsertGasPool (grEvent r) (mkGasPool (cAsset coin) runeGas (cAmount coin)
            (default 0 (asset_lookup (gasCount gm) (cAsset coin))));
          spent ← uint_add spent runeGas;
          Ok (mkGasRun (grStore r) reserve cache event, spent)
    end.

(** An error of the record of spent fees is only logged. *)
Definition reimburse_asset (gm : GasMgr) (r : GasRun) (g : OutAssetGas) : outcome GasRun :=
  '(r, spent) ← fold_ok (reimburse_coin gm) (r, 0) (oaGas g);
  match AddToOutboundFeeSpentRune (grStore r) (outAsset g) spent with
  | Ok k => Ok (mkGasRun k (grReserve r) (grCache r) (grEvent r))
  | Err _ => Ok r
  | Panic => Panic
  end.

(** A failed transfer leaves the depth of the pool; an error of [SetPool] is
    only logged. *)
Definition pay_pool (cache : list (Asset * Pool)) (k : Store) (p : GasPool) : outcome Store :=
  match asset_lookup cache (gpAsset p) with
  | None => Ok k
  | Some pool =>
      '(k, pool) ←
        (if negb (gpRuneAmt p =? 0) then
           match SendFromModuleToModule k ReserveName AsgardName (NewCoin DecaNative (gpRuneAmt p)) with
           | Ok k => deca ← uint_add (BalanceDeca pool) (gpRuneAmt p);
                     Ok (k, with_balances pool deca (BalanceAsset pool))
           | Err _ => Ok (k, pool)
           | Panic => Panic
           end
         else Ok (k, pool));
      asset ← SafeSub (BalanceAsset pool) (gpAssetAmt p);
      match SetPool k (with_balances pool (BalanceDeca pool) asset) with
      | Ok k => Ok k
      | Err _ => Ok k
      | Panic => Panic
      end
  end.

Definition ProcessGas (gm : GasMgr) (k : Store) : outcome (GasMgr * Store) :=
  if RagnarokInProgress k then Ok (gm, k)
  else
    let reserveRune := bank_balance (kBank k) ReserveName (Asset_Native DecaAsset) in
    r ← fold_ok (reimburse_asset gm) (mkGasRun k reserveRune [] (gasEvent gm)) (outAssetGas gm);
    k ← fold_ok (pay_pool (grCache r)) (grStore r) (grEvent r);
    Ok (mkGasMgr (grEvent r) (outAssetGas gm) (gasCount gm), k).

Definition GasMgr_EndBlock (gm : GasMgr) (k : Store) : outcome (GasMgr * Store) :=
  '(gm, k) ← ProcessGas gm k;
  Ok (match gasEvent gm with [] => gm | _ => newGasMgr end, k).
End gas.
