(* ===== verification/OutboundPlan.v ===== *)
(** Planning an outbound, [x/thorchain/manager_txout_current.go]: which vaults
    pay and how much each, how much of the delay a trader's clout lifts, and
    the block the outbound is scheduled in. *)
From S2P Require Import Prelude SdkMath GoStr Keys Shares Chains Assets Coins Bank Nodes Txs.
From S2P Require Import Decimal GoLib Addresses Voters Mimir Observed Pools Streaming MemoTypes Vaults.
From S2P Require Import Keeper MemoParser Halt VaultStore NodeStore Swaps Outbounds.
Local Open Scope string_scope.
Local Open Scope Z_scope.

(** ** Updates of an item *)
Definition toi_with_amount (t : TxOutItem) (amount : Z) : TxOutItem :=
  mkTxOutItem (toChain t) (toToAddress t) (VaultPubKey t) (Coins.with_amount (toCoin t) amount) (toMemo t)
    (OriginalMemo t) (MaxGas t) (GasRate t) (InHash t) (OutHash t) (Txs.ModuleName t) (toAggregator t)
    (toAggregatorTargetAsset t) (toAggregatorTargetLimit t) (CloutSpent t) (VaultPubKeyEddsa t).
Definition toi_with_vault (t : TxOutItem) (pk eddsa : PubKey) : TxOutItem :=
  mkTxOutItem (toChain t) (toToAddress t) pk (toCoin t) (toMemo t)
    (OriginalMemo t) (MaxGas t) (GasRate t) (InHash t) (OutHash t) (Txs.ModuleName t) (toAggregator t)
    (toAggregatorTargetAsset t) (toAggregatorTargetLimit t) (CloutSpent t) eddsa.

Definition toi_amount (t : TxOutItem) : Z := cAmount (toCoin t).
Definition toi_asset (t : TxOutItem) : Asset := cAsset (toCoin t).

(** [len(vault.Frozen) > 0 && chains.Has(chain)]: the names that are not chains
    are left out of [chains]. *)
Definition frozen_for (v : Vault) (chain : Chain) : bool :=
  Chains_Has (parse_chains (Frozen v)) chain.
(** [NewChains] reports an error when a name is not a chain. *)
Definition frozen_unreadable (v : Vault) : bool :=
  negb (length (parse_chains (Frozen v)) =? length (Frozen v))%nat.

Section discover.
Context {B : Type} {K : SdkKeys} {S : SdkMath}.
Context (pk_address : PubKey -> Chain -> outcome Address).
Abbreviation Store := (KVStore B) (only parsing).

(** The vault of the largest balance among those that can pay the gas. *)
Definition fallback_candidate (k : Store) (toi : TxOutItem) (maxGasCoin : Coin)
    (best : Vault * Z) (vault : Vault) : outcome (Vault * Z) :=
  if frozen_unreadable vault || frozen_for vault (toChain toi) then Ok best
  else
    match GetVault k (vPubKey vault) with
    | Panic => Panic
    | Err _ => Ok best
    | Ok originalVault =>
        let gasAsset := Vault_GetCoin originalVault (GetGasAsset (toChain toi)) in
        if Coin_IsEmpty gasAsset || (cAmount gasAsset <? cAmount maxGasCoin) then Ok best
        else
          let amount := cAmount (Vault_GetCoin originalVault (toi_asset toi)) in
          if (amount =? 0) || (amount <=? best.2) then Ok best else Ok (originalVault, amount)
    end.

Definition selectFallbackVault (k : Store) (toi : TxOutItem) (maxGasCoin : Coin) (vaults : Vaults) :
    outcome Vault :=
  '(best, _) ← fold_ok (fallback_candidate k toi maxGasCoin) (EmptyVault, 0) vaults;
  Ok best.

(** How many vaults of this size the outbound would take, as a [uint64]; no
    estimate for a vault with none of the asset or frozen for the chain. *)
Definition vaults_necessary (toi : TxOutItem) (maxGasCoin : Coin) (vault : Vault) :
    outcome (option (Vault * Z)) :=
  let amount := cAmount (Vault_GetCoin vault (toi_asset toi)) in
  if amount =? 0 then Ok None
  else if frozen_for vault (GetChain (cAsset maxGasCoin)) then Ok None
  else
    estimate ← uint_quo (toi_amount toi) amount;
    Ok (Some (vault, if estimate <? 2 ^ 64 then estimate else 2 ^ 64 - 1)).

Fixpoint estimates (toi : TxOutItem) (maxGasCoin : Coin) (vaults : Vaults) :
    outcome (list (Vault * Z)) :=
  match vaults with
  | [] => Ok []
  | v :: vaults' =>
      e ← vaults_necessary toi maxGasCoin v;
      rest ← estimates toi maxGasCoin vaults';
      Ok (match e with Some x => x :: rest | None => rest end)
  end.

Definition estimate_less (a b : Vault * Z) : bool := a.2 <? b.2.

(** Vaults that can pay alone first; a single vault is taken as it is. *)
Definition order_vaults (toi : TxOutItem) (maxGasCoin : Coin) (vaults : Vaults) : outcome Vaults :=
  if (length vaults <=? 1)%nat then Ok vaults
  else
    l ← estimates toi maxGasCoin vaults;
    Ok (map fst (stable_sort estimate_less l)).

(** What the vault can pay: [None] when it is skipped. *)
Definition spendable (transactionFeeAmount : Z) (maxGasCoin : Coin) (toi : TxOutItem) (vault : Vault) :
    outcome (option Z) :=
  match Vault_GetAddress pk_address vault (toChain toi) with
  | Panic => Panic
  | Err _ => Ok None
  | Ok fromAddr =>
      if Address_IsEmpty fromAddr || Address_Equals (toToAddress toi) fromAddr then Ok None
      else
        let amount := cAmount (Vault_GetCoin vault (toi_asset toi)) in
        let gasAsset := Vault_GetCoin vault (GetGasAsset (toChain toi)) in
        if amount <=? transactionFeeAmount then Ok None
        else if Coin_IsEmpty gasAsset || (cAmount gasAsset <? cAmount maxGasCoin) then Ok None
        else
          amount ← (if Asset_Equals (toi_asset toi) (cAsset maxGasCoin)
                    then rest ← SafeSub amount (cAmount maxGasCoin);
                         Ok (if rest =? 0 then None else Some rest)
                    else Ok (Some amount));
          match amount with
          | None => Ok None
          | Some amount =>
              if Asset_Equals (toi_asset toi) XRPAsset then
                rest ← SafeSub amount (DustThreshold XRPChain); Ok (Some rest)
              else Ok (Some amount)
          end
  end.

(** The loop over the vaults: the outputs, and the item with what is left. *)
Fixpoint assign_vaults (transactionFeeAmount : Z) (maxGasCoin : Coin) (toi : TxOutItem)
    (outputs : list TxOutItem) (vaults : Vaults) : outcome (list TxOutItem * TxOutItem) :=
  match vaults with
  | [] => Ok (outputs, toi)
  | vault :: vaults' =>
      amount ← spendable transactionFeeAmount maxGasCoin toi vault;
      match amount with
      | None => assign_vaults transactionFeeAmount maxGasCoin toi outputs vaults'
      | Some vaultCoinAmount =>
          let toi := toi_with_vault toi (vPubKey vault) (PubKeyEddsa vault) in
          if toi_amount toi <=? vaultCoinAmount then
            Ok ((outputs ++ [toi])%list, toi_with_amount toi 0)
          else
            remainingAmount ← SafeSub (toi_amount toi) vaultCoinAmount;
            part ← SafeSub (toi_amount toi) remainingAmount;
            assign_vaults transactionFeeAmount maxGasCoin (toi_with_amount toi remainingAmount)
              (outputs ++ [toi_with_amount toi part])%list vaults'
      end
  end.

(** [outputs[smallestIdx].Coin.Amount += rest]: the first of the smallest. *)
Definition smallest_amount (x : TxOutItem) (l : list TxOutItem) : Z :=
  foldl (fun m o => if toi_amount o <? m then toi_amount o else m) (toi_amount x) l.
Fixpoint add_to_first (smallest rest : Z) (outputs : list TxOutItem) : outcome (list TxOutItem) :=
  match outputs with
  | [] => Ok []
  | o :: outputs' =>
      if toi_amount o =? smallest then
        sum ← uint_add (toi_amount o) rest; Ok (toi_with_amount o sum :: outputs')
      else rest' ← add_to_first smallest rest outputs'; Ok (o :: rest')
  end.

Definition DiscoverOutbounds (k : Store) (transactionFeeAmount : Z) (maxGasCoin : Coin)
    (toi : TxOutItem) (vaults : Vaults) : outcome (list TxOutItem * Z) :=
  ordered ← order_vaults toi maxGasCoin vaults;
  '(outputs, toi) ← assign_vaults transactionFeeAmount maxGasCoin toi [] ordered;
  if toi_amount toi =? 0 then Ok (outputs, 0)
  else
    match outputs with
    | [] =>
        fallbackVault ← selectFallbackVault k toi maxGasCoin vaults;
        if negb (PubKey_IsEmpty (vPubKey fallbackVault)) then
          Ok ([toi_with_vault toi (vPubKey fallbackVault) (PubKeyEddsa fallbackVault)], 0)
        else Ok ([], toi_amount toi)
    | o :: l =>
        outputs ← add_to_first (smallest_amount o l) (toi_amount toi) outputs;
        Ok (outputs, 0)
    end.
End discover.

Section clout.
Context {S : SdkMath}.

(** At most half the limit from each side, unless the other side uses less. *)
Definition cap_clout (swapperCloutLimit clout1 clout2 : Z) : outcome (Z * Z) :=
  total ← uint_add clout1 clout2;
  if swapperCloutLimit <? total then
    halfLimit ← uint_quo_u64 swapperCloutLimit 2;
    if (halfLimit <? clout1) && (halfLimit <? clout2) then Ok (halfLimit, halfLimit)
    else if clout2 <? clout1 then c ← SafeSub swapperCloutLimit clout2; Ok (c, clout2)
    else if clout1 <? clout2 then c ← SafeSub swapperCloutLimit clout1; Ok (clout1, c)
    else Ok (clout1, clout2)
  else Ok (clout1, clout2).

Definition splitClout (swapperCloutLimit clout1 clout2 runeValue : Z) : outcome (Z * Z * Z) :=
  '(clout1, clout2) ← cap_clout swapperCloutLimit clout1 clout2;
  totalClout ← uint_add clout1 clout2;
  if swapperCloutLimit <? totalClout then Ok (0, 0, runeValue)
  else if totalClout =? 0 then Ok (0, 0, runeValue)
  else
    let appliedClout := if totalClout <? runeValue then totalClout else runeValue in
    scaled ← uint_mul appliedClout clout1;
    amountFromClout1 ← uint_quo scaled totalClout;
    amountFromClout2 ← uint_sub appliedClout amountFromClout1;
    both ← uint_add amountFromClout1 amountFromClout2;
    rest ← SafeSub runeValue both;
    Ok (amountFromClout1, amountFromClout2, rest).

Definition spend_clout (c : SwapperClout) (amount height : Z) : outcome SwapperClout :=
  spent ← uint_add (Spent c) amount;
  Ok (mkSwapperClout (scAddress c) (Score c) (Reclaimed c) spent height (LastReclaimHeight c)).
Definition with_spent (c : SwapperClout) (spent : Z) : SwapperClout :=
  mkSwapperClout (scAddress c) (Score c) (Reclaimed c) spent (LastSpentHeight c) (LastReclaimHeight c).

Context {B : Type} (constants : string -> Z).
Abbreviation Store := (KVStore B) (only parsing).

(** The second write of one address overwrites the first: it counts both. *)
Definition save_clout (k : Store) (cloutIn cloutOut : SwapperClout) (clout1 clout2 : Z) :
    outcome Store :=
  k ← (if negb (clout1 =? 0) then
         cloutIn ← spend_clout cloutIn clout1 (kHeight k); Ok (SetSwapperClout k cloutIn)
       else Ok k);
  if negb (clout2 =? 0) then
    cloutOut ← (if Address_Equals (scAddress cloutIn) (scAddress cloutOut) then
                  spent ← uint_add (Spent cloutOut) clout1; Ok (with_spent cloutOut spent)
                else Ok cloutOut);
    cloutOut ← spend_clout cloutOut clout2 (kHeight k);
    Ok (SetSwapperClout k cloutOut)
  else Ok k.

(** The store, the value that is left to delay, the clout applied. *)
Definition calcClout (k : Store) (runeValue : Z) (toi : TxOutItem) : outcome (Store * Z * Z) :=
  if negb (String.eqb (toAggregator toi) "") || negb (String.eqb (toAggregatorTargetAsset toi) "") ||
     match toAggregatorTargetLimit toi with Some _ => true | None => false end
  then Ok (k, runeValue, 0)
  else
    let reset := cfg constants k "CloutReset" in
    let cloutOut := Restore (GetSwapperClout k (toToAddress toi)) (kHeight k) reset in
    let voter := GetObservedTxInVoter k (InHash toi) in
    let cloutIn := Restore (GetSwapperClout k (txFrom (otTx (ovTx voter)))) (kHeight k) reset in
    available1 ← Available cloutIn;
    available2 ← Available cloutOut;
    '(clout1, clout2, newValue) ←
      splitClout (SafeUintFromInt64 (cfg constants k "CloutLimit")) available1 available2 runeValue;
    sum ← uint_add newValue clout1;
    sum ← uint_add sum clout2;
    if negb (sum =? runeValue) then Ok (k, runeValue, 0)
    else
      k ← save_clout k cloutIn cloutOut clout1 clout2;
      applied ← uint_add clout1 clout2;
      Ok (k, newValue, applied).
End clout.

Section height.
Context {B : Type} `{Bank B} {K : SdkKeys} {S : SdkMath} {L : AddressLib} {P : MemoLib}.
Context (constants : string -> Z).
Abbreviation Store := (KVStore B) (only parsing).

(** The value and the clout scheduled in the blocks ahead; the loop stops at the
    first empty block after height [last]. *)
Fixpoint scheduled_value (k : Store) (last : Z) (acc : Z * Z) (hs : list Z) : outcome (Z * Z) :=
  match hs with
  | [] => Ok acc
  | height :: hs' =>
      '(value, clout) ← GetTxOutValue k height;
      if (last <? height) && (value =? 0) then Ok acc
      else
        sumValue ← uint_add acc.1 value;
        cloutValue ← uint_add acc.2 clout;
        scheduled_value k last (sumValue, cloutValue) hs'
  end.

(** The value a block may move without delay. *)
Definition delay_rate (delayRate minVolumeThreshold sumValue cloutValue : Z) : outcome Z :=
  unclouted ← SafeSub sumValue cloutValue;
  scaled ← uint_mul One unclouted;
  rateReduction ← uint_quo scaled minVolumeThreshold;
  if delayRate <=? rateReduction then Ok 1 else uint_sub delayRate rateReduction.

Definition has_room (txOutValue runeValue minVolumeThreshold : Z) : outcome bool :=
  if txOutValue =? 0 then Ok true
  else sum ← uint_add txOutValue runeValue; Ok (sum <=? minVolumeThreshold).

(** The first block from [targetBlock] with room, looking at [count] of them. *)
Fixpoint find_block (count : nat) (k : Store) (runeValue minVolumeThreshold targetBlock : Z) :
    outcome Z :=
  match count with
  | O => Ok targetBlock
  | Datatypes.S count' =>
      '(txOutValue, _) ← GetTxOutValue k targetBlock;
      room ← has_room txOutValue runeValue minVolumeThreshold;
      if (room : bool) then Ok targetBlock
      else find_block count' k runeValue minVolumeThreshold (i64 (targetBlock + 1))
  end.

(** The number of blocks to wait: the value over the rate, at most the offset. *)
Definition min_blocks (runeValue delayRate maxOffset : Z) : outcome Z :=
  minBlocks ← uint_quo runeValue delayRate;
  Ok (if maxOffset <? minBlocks then maxOffset else minBlocks).

Definition schedule (k : Store) (runeValue threshold rate offset : Z) : outcome Z :=
  let txOutDelayMax := cfg constants k "TxOutDelayMax" in
  '(sumValue, cloutValue) ← scheduled_value k (i64 (kHeight k + offset)) (runeValue, 0)
    (heights (kHeight k + 1) (i64 (kHeight k + txOutDelayMax)));
  delayRate ← delay_rate (u64 rate) (u64 threshold) sumValue cloutValue;
  minBlocks ← min_blocks runeValue delayRate (u64 offset);
  find_block (Z.to_nat txOutDelayMax) k runeValue (u64 threshold) (i64 (kHeight k + minBlocks)).

(** The store (the clout spent), the height and the clout applied. *)
Definition CalcTxOutHeight (k : Store) (toi : TxOutItem) : outcome (Store * Z * Z) :=
  let memo := (ParseMemo (B := B) constants (GetMemo toi)).1 in
  let threshold := cfg constants k "MinTxOutVolumeThreshold" in
  let rate := cfg constants k "TxOutDelayRate" in
  let offset := cfg constants k "MaxTxOutOffset" in
  if negb (Memo_IsType memo TxRefund) && negb (Memo_IsType memo TxOutbound) then Ok (k, kHeight k, 0)
  else if (threshold <=? 0) || (rate <=? 0) || (offset <=? 0) then Ok (k, kHeight k, 0)
  else
    '(runeValue, _) ← GetTOIsValue k [toi];
    '(k, runeValue, cloutApplied) ← calcClout constants k runeValue toi;
    if runeValue =? 0 then Ok (k, kHeight k, cloutApplied)
    else
      targetBlock ← schedule k runeValue threshold rate offset;
      Ok (k, targetBlock, cloutApplied).
End height.
