(* ===== verification/OutboundProps.v ===== *)
(** Theorems on the planning of outbounds ([OutboundPlan]): the vaults pay
    exactly what was asked, no vault more than it has while they have enough;
    clout is split exactly; the block chosen is in the future, within the
    limits, and seen by those who count pending outbounds. *)
From S2P Require Import Prelude SdkMath GoStr Keys Shares Chains Assets Coins Bank Nodes Txs.
From S2P Require Import Decimal GoLib Addresses Voters Mimir Observed Pools Streaming MemoTypes Vaults.
From S2P Require Import Keeper MemoParser Halt VaultStore NodeStore Swaps Outbounds GasMgr OutboundPlan.
Local Open Scope string_scope.
Local Open Scope Z_scope.

(** The sum of the amounts of some items. *)
Definition total_out (l : list TxOutItem) : Z := sumZ (map toi_amount l).

Lemma total_out_app l1 l2 : total_out (l1 ++ l2) = total_out l1 + total_out l2.
Proof. unfold total_out. by rewrite map_app, sumZ_app. Qed.

Lemma switch_prop {A} (Q : A -> Prop) c cases d : Forall (fun p => Q p.2) cases -> Q d ->
  Q (switch c cases d).
Proof.
  intros Hc Hd. induction Hc as [|[cs r] cases Hr Hc IH]; simpl; [done|]. by case_if.
Qed.

Create HintDb outbound.
Create Rewrite HintDb outbound.

(** The same payment, from a vault and of an amount of its own. *)
Definition part_of (toi o : TxOutItem) : Prop :=
  o = toi_with_amount (toi_with_vault toi (VaultPubKey o) (VaultPubKeyEddsa o)) (toi_amount o).

Lemma part_of_refl toi : part_of toi toi.
Proof. by destruct toi as [? ? ? [] ]. Qed.

Lemma part_of_amount toi o a : part_of toi o -> part_of toi (toi_with_amount o a).
Proof. unfold part_of. intros ->. reflexivity. Qed.

Lemma part_of_vault toi o pk e : part_of toi o -> part_of toi (toi_with_vault o pk e).
Proof. unfold part_of. intros ->. reflexivity. Qed.

Lemma amount_with t a : toi_amount (toi_with_amount t a) = a.
Proof. reflexivity. Qed.
Lemma amount_vault t pk e : toi_amount (toi_with_vault t pk e) = toi_amount t.
Proof. reflexivity. Qed.

#[export] Hint Rewrite amount_with amount_vault : outbound.
#[export] Hint Resolve part_of_refl part_of_amount part_of_vault : outbound.

Section discover_props.
Context {B : Type} {K : SdkKeys} {S : SdkMath} `{!SdkMathOk S}.
Context (pk_address : PubKey -> Chain -> outcome Address).
Context (fee : Z) (gas : Coin).

Lemma spendable_part toi o v : part_of toi o ->
  spendable pk_address fee gas o v = spendable pk_address fee gas toi v.
Proof. unfold part_of. intros ->. reflexivity. Qed.

Lemma fallback_part (k : KVStore B) toi o vs : part_of toi o ->
  selectFallbackVault k o gas vs = selectFallbackVault k toi gas vs.
Proof. unfold part_of. intros ->. reflexivity. Qed.

(** What a vault can pay towards an outbound: nothing when it is skipped. *)
Definition capacity (toi : TxOutItem) (v : Vault) : Z :=
  match spendable pk_address fee gas toi v with Ok (Some a) => a | _ => 0 end.

Definition vault_uints (v : Vault) : Prop := coins_ok (vCoins v).

Lemma GetCoin_uint v a : vault_uints v -> is_uint (cAmount (Vault_GetCoin v a)).
Proof.
  unfold vault_uints, Vault_GetCoin. generalize (vCoins v). intros cs Hcs.
  induction Hcs as [|c cs Hc Hcs IH]; simpl; [auto with go|]. by destruct (Asset_Equals _ _).
Qed.
Local Hint Resolve GetCoin_uint : go.

Lemma dust_uint c : is_uint (DustThreshold c).
Proof.
  unfold DustThreshold. apply (switch_prop is_uint); [|auto with go]. unfold is_uint, uint_lim, One. repeat constructor; simpl; lia.
Qed.
Local Hint Resolve dust_uint : go.

Lemma spendable_uint toi v a : vault_uints v -> is_uint (cAmount gas) ->
  spendable pk_address fee gas toi v = Ok (Some a) -> is_uint a.
Proof.
  intros Hv Hg. unfold spendable.
  destruct (Vault_GetAddress pk_address v (toChain toi)); [|done..].
  repeat (case_if; [done|]). intros Hs. ok_inv.
  assert (Ha : is_uint (cAmount (Vault_GetCoin v (toi_asset toi)))) by auto with go.
  match goal with H1 : (if _ then _ else _) = Ok ?o |- _ => assert (forall z, o = Some z -> is_uint z) as Ho;
    [intros z ->; case_if_in H1; math_inv; subst; try done|clear H1; destruct o as [z|]; [|done]] end.
  - case_if_in H; simplify_eq; auto with go.
  - specialize (Ho z eq_refl). case_if_in Hs; math_inv; by simplify_eq.
Qed.

Lemma sumZ_cons x l : sumZ (x :: l) = x + sumZ l.
Proof. reflexivity. Qed.

Lemma capacity_uint toi v : vault_uints v -> is_uint (cAmount gas) -> is_uint (capacity toi v).
Proof.
  intros Hv Hg. unfold capacity. destruct (spendable _ _ _ _ _) as [ [a|]| |] eqn:E; auto with go.
  by eapply spendable_uint.
Qed.

(** The item is paid by the vault, which has the amount and the gas for it. *)
Definition pays (toi o : TxOutItem) (v : Vault) : Prop :=
  part_of toi o /\ VaultPubKey o = vPubKey v /\ 0 <= toi_amount o /\
  toi_amount o + (if Asset_Equals (toi_asset toi) (cAsset gas) then cAmount gas else 0) <=
    cAmount (Vault_GetCoin v (toi_asset toi)) /\
  cAmount gas <= cAmount (Vault_GetCoin v (GetGasAsset (toChain toi))).

Lemma spendable_backed toi v a : vault_uints v -> is_uint (cAmount gas) ->
  spendable pk_address fee gas toi v = Ok (Some a) ->
  a + (if Asset_Equals (toi_asset toi) (cAsset gas) then cAmount gas else 0) <=
    cAmount (Vault_GetCoin v (toi_asset toi)) /\
  cAmount gas <= cAmount (Vault_GetCoin v (GetGasAsset (toChain toi))).
Proof.
  intros Hv Hg. unfold spendable.
  destruct (Vault_GetAddress pk_address v (toChain toi)); [|done..].
  repeat (case_if; [done|]). intros Hs. ok_inv. apply orb_false_iff in E1 as [_ E1]. z_bool.
  assert (Ha : is_uint (cAmount (Vault_GetCoin v (toi_asset toi)))) by auto with go.
  split; [|done].
  match goal with H1 : (if _ then _ else _) = Ok ?o |- _ => assert (forall z, o = Some z ->
    is_uint z /\ z + (if Asset_Equals (toi_asset toi) (cAsset gas) then cAmount gas else 0) <=
    cAmount (Vault_GetCoin v (toi_asset toi))) as Ho;
    [intros z ->; case_if_in H1; math_inv; subst|clear H1; destruct o as [z|]; [|done]] end.
  - case_if_in H; simplify_eq. z_bool. split; [done|]. unfold is_uint in *. lia.
  - split; [done|]. lia.
  - specialize (Ho z eq_refl) as [Hz Hle]. pose proof (dust_uint XRPChain).
    case_if_in Hs; math_inv; simplify_eq; unfold is_uint in *; lia.
Qed.

(** The loop: the outputs it adds are paid by vaults of the list, in order, each
    within its capacity, and it leaves what all of them could not pay. *)
Lemma assign_vaults_spec toi0 vaults toi outs outs' toi' :
  Forall vault_uints vaults -> is_uint (cAmount gas) -> is_uint (toi_amount toi) -> part_of toi0 toi ->
  assign_vaults pk_address fee gas toi outs vaults = Ok (outs', toi') ->
  exists new vs, outs' = (outs ++ new)%list /\ vs `sublist_of` vaults /\
    Forall2 (pays toi0) new vs /\
    part_of toi0 toi' /\ is_uint (toi_amount toi') /\
    total_out new + toi_amount toi' = toi_amount toi /\
    toi_amount toi' = Z.max 0 (toi_amount toi - sumZ (map (capacity toi0) vaults)).
Proof.
  intros Hv Hg. revert toi outs. induction Hv as [|v vaults Hv Hvs IH]; intros toi outs Ht Hp; simpl.
  { intros [= <- <-]. exists [], []. rewrite app_nil_r.
    split_and!; try done; unfold is_uint in Ht; simpl; lia. }
  rewrite (spendable_part toi0) by done. intros Hr. ok_inv.
  assert (Hpos : 0 <= sumZ (map (capacity toi0) vaults)).
  { apply sumZ_nonneg, Forall_map. eapply Forall_impl; [exact Hvs|]. intros w Hw.
    by destruct (capacity_uint toi0 w Hw Hg). }
  destruct x as [a|].
  - assert (Ha : capacity toi0 v = a) by (unfold capacity; by rewrite H).
    assert (is_uint a) by (subst a; by apply capacity_uint).
    pose proof (part_of_vault toi0 toi (vPubKey v) (PubKeyEddsa v) Hp) as Hpt.
    assert (Hpk : VaultPubKey (toi_with_vault toi (vPubKey v) (PubKeyEddsa v)) = vPubKey v) by done.
    pose proof (amount_vault toi (vPubKey v) (PubKeyEddsa v)) as Hat.
    set (t := toi_with_vault toi (vPubKey v) (PubKeyEddsa v)) in *. clearbody t.
    rewrite Hat in Hr. destruct (Z.leb_spec (toi_amount toi) a).
    + injection Hr as <- <-. exists [t], [v]. unfold total_out. simpl. autorewrite with outbound.
      split_and!; try done; auto with outbound go; try (unfold is_uint in *; lia).
      * apply sublist_skip, sublist_nil_l.
      * repeat constructor; simpl; try done; [unfold is_uint in *; lia|..];
          destruct (spendable_backed toi0 v a Hv Hg H); [lia|done].
    + math_inv. subst.
      match type of Hr with assign_vaults _ _ _ (toi_with_amount _ ?r) (_ ++ [toi_with_amount _ ?p]) _ = _ =>
        set (rest := r) in *; set (part := p) in * end.
      destruct (IH (toi_with_amount t rest) (outs ++ [toi_with_amount t part])%list)
        as (new & vs & -> & Hsub & HF & Hp' & Hu & Hsum & Hmax); [done|by auto with outbound|exact Hr|].
      rewrite amount_with in Hsum, Hmax.
      exists (toi_with_amount t part :: new), (v :: vs). unfold total_out in *. simpl.
      rewrite amount_with. split_and!; try done; try (unfold is_uint in *; lia).
      * by rewrite <- app_assoc.
      * by apply sublist_skip.
      * constructor; [|done]. unfold pays. rewrite amount_with.
        destruct (spendable_backed toi0 v _ Hv Hg H).
        split_and!; [by auto with outbound|done|..|done]; unfold is_uint in *; lia.
  - destruct (IH toi outs Ht Hp Hr) as (new & vs & -> & Hsub & HF & Hp' & Hu & Hsum & Hmax).
    assert (Ha : capacity toi0 v = 0) by (unfold capacity; by rewrite H).
    exists new, vs. rewrite Ha. split_and!; try done. by apply sublist_cons.
Qed.

Lemma estimates_in toi vaults l : estimates toi gas vaults = Ok l ->
  forall v e, (v, e) ∈ l -> v ∈ vaults.
Proof.
  revert l. induction vaults as [|v vaults IH]; intros l; simpl.
  { intros [= <-] v e Hin. by apply not_elem_of_nil in Hin. }
  intros Hl. ok_inv. intros w e Hin. apply elem_of_cons.
  unfold vaults_necessary in H. repeat case_if_in H; simplify_eq/=; [right; by eapply IH..|].
  ok_inv. simpl in Hin. apply elem_of_cons in Hin as [?|Hin]; [simplify_eq; by left|right; by eapply IH].
Qed.

Lemma order_vaults_in toi vaults l : order_vaults toi gas vaults = Ok l -> forall v, v ∈ l -> v ∈ vaults.
Proof.
  unfold order_vaults. case_if; [by intros [= <-]|]. intros Hl. ok_inv.
  intros v Hin. apply list_elem_of_fmap in Hin as ([w e] & -> & Hin). rewrite stable_sort_perm in Hin.
  by eapply estimates_in.
Qed.

Lemma add_to_first_spec toi0 x rest l r : Forall (part_of toi0) l -> Forall (fun o => is_uint (toi_amount o)) l ->
  is_uint rest -> add_to_first x rest l = Ok r -> (exists o, o ∈ l /\ toi_amount o = x) ->
  total_out r = total_out l + rest /\ Forall (part_of toi0) r /\ Forall (fun o => 0 <= toi_amount o) r.
Proof.
  intros Hp. revert r. induction Hp as [|o l Ho Hl IH]; intros r Hu Hrest; simpl.
  { intros _ (o & Hin & _). by apply not_elem_of_nil in Hin. }
  apply Forall_cons in Hu as [Hu Hus].
  unfold total_out. destruct (Z.eqb_spec (toi_amount o) x) as [He|Hne].
  - intros Hr _. math_inv. subst. simpl. rewrite amount_with.
    split_and!; [lia|constructor; [by auto with outbound|done]|].
    constructor; [rewrite amount_with; unfold is_uint in *; lia|].
    eapply Forall_impl; [exact Hus|]. by intros ? [].
  - intros Hr (o' & Hin & Hx). ok_inv. apply elem_of_cons in Hin as [->|Hin]; [done|].
    edestruct IH as (Hsum & HF & Hnn); eauto. unfold total_out in *. simpl.
    split_and!; [lia|by constructor|]. constructor; [by destruct Hu|done].
Qed.

(** The rest goes to the first output of that amount, the others stay. *)
Lemma add_to_first_split x rest l r : Forall (fun o => is_uint (toi_amount o)) l -> is_uint rest ->
  add_to_first x rest l = Ok r -> (exists o, o ∈ l /\ toi_amount o = x) ->
  exists l1 o l2, l = (l1 ++ o :: l2)%list /\ toi_amount o = x /\
    r = (l1 ++ toi_with_amount o (toi_amount o + rest) :: l2)%list.
Proof.
  intros Hu Hrest. revert r. induction Hu as [|o l Ho Hl IH]; intros r; simpl;
    [by intros _ (o & Hin%not_elem_of_nil & _)|].
  destruct (Z.eqb_spec (toi_amount o) x) as [He|Hne].
  - intros Hr _. math_inv. subst. by exists [], o, l.
  - intros Hr (o' & Hin & Hx). apply bind_Ok_inv in Hr as (r' & Hr' & Hr). injection Hr as <-.
    apply elem_of_cons in Hin as [->|Hin]; [done|].
    destruct (IH r') as (l1 & o1 & l2 & -> & Ho1 & ->); [done|by exists o'|]. by exists (o :: l1), o1, l2.
Qed.

Lemma smallest_amount_le x l : Forall (fun o => smallest_amount x l <= toi_amount o) (x :: l).
Proof.
  unfold smallest_amount.
  enough (forall m, foldl (fun m o => if toi_amount o <? m then toi_amount o else m) m l <= m /\
    Forall (fun o => foldl (fun m o => if toi_amount o <? m then toi_amount o else m) m l <= toi_amount o) l)
    as Hgen by (destruct (Hgen (toi_amount x)); by constructor).
  induction l as [|y l IH]; intros m; simpl; [split; [lia|constructor]|].
  destruct (IH (if toi_amount y <? m then toi_amount y else m)) as [H1 H2].
  split; [|constructor; [|done]]; case_if_in H1; z_bool; lia.
Qed.

Lemma total_out_uint l : Forall (fun o => 0 <= toi_amount o) l -> total_out l < uint_lim ->
  Forall (fun o => is_uint (toi_amount o)) l.
Proof.
  unfold total_out. intros Hnn. assert (Hle : forall o, o ∈ l -> toi_amount o <= sumZ (map toi_amount l)).
  { induction Hnn as [|o l Ho Hl IH]; intros o' Hin; [by apply not_elem_of_nil in Hin|].
    assert (0 <= sumZ (map toi_amount l)) by by apply sumZ_nonneg, Forall_map.
    apply elem_of_cons in Hin as [->|Hin]; simpl; [lia|]. specialize (IH o' Hin). lia. }
  intros Hlim. rewrite Forall_forall in *. intros o Hin. specialize (Hnn o Hin). specialize (Hle o Hin).
  unfold is_uint. lia.
Qed.

Lemma smallest_amount_in x l : exists o, o ∈ x :: l /\ toi_amount o = smallest_amount x l.
Proof.
  unfold smallest_amount.
  enough (forall m, (exists o, o ∈ x :: l /\ toi_amount o = m) -> forall l', (forall o, o ∈ l' -> o ∈ x :: l) ->
    exists o, o ∈ x :: l /\ toi_amount o =
      foldl (fun m o => if toi_amount o <? m then toi_amount o else m) m l') as Hgen.
  { apply Hgen; [exists x; split; [apply list_elem_of_here|done]|]. intros o. apply list_elem_of_further. }
  intros m Hm l'. revert m Hm. induction l' as [|y l' IH]; intros m Hm Hin; simpl; [done|].
  apply IH; [|intros o Ho; by apply Hin, list_elem_of_further].
  case_if; [|done]. exists y. split; [by apply Hin, list_elem_of_here|done].
Qed.

Lemma total_out_assigned toi0 new vs : Forall2 (pays toi0) new vs ->
  Forall (part_of toi0) new /\ 0 <= total_out new /\
  Forall (fun o => 0 <= toi_amount o <= total_out new) new.
Proof.
  unfold total_out. induction 1 as [|o v new vs (Hp & _ & Hpos & _) HF (IH1 & IH2 & IH3)]; simpl; [done|].
  split_and!; [by constructor|lia|]. constructor; [lia|]. eapply Forall_impl; [exact IH3|]. simpl. lia.
Qed.

(** The outputs when the vaults cannot pay all of it: what is missing is put on
    one of the smallest outputs; only when the vaults can pay nothing, there is
    a single output, from the fallback vault, or none, when there is no such
    vault. *)
Definition short_paid (k : KVStore B) (toi : TxOutItem) (vaults ordered : Vaults) (outs : list TxOutItem) : Prop :=
  (exists vs l1 o l2, vs `sublist_of` ordered /\ Forall (.∈ vaults) vs /\
     Forall2 (pays toi) (l1 ++ o :: l2) vs /\
     Forall (fun p => toi_amount o <= toi_amount p) (l1 ++ o :: l2) /\
     outs = (l1 ++ toi_with_amount o (toi_amount o +
               (toi_amount toi - sumZ (map (capacity toi) ordered))) :: l2)%list) \/
  (sumZ (map (capacity toi) ordered) = 0 /\ exists v, selectFallbackVault k toi gas vaults = Ok v /\
     if PubKey_IsEmpty (vPubKey v) then outs = []
     else exists o, outs = [o] /\ VaultPubKey o = vPubKey v /\ toi_amount o = toi_amount toi).

Lemma discover_spec (k : KVStore B) toi vaults outs rest :
  Forall vault_uints vaults -> is_uint (cAmount gas) -> is_uint (toi_amount toi) ->
  DiscoverOutbounds pk_address k fee gas toi vaults = Ok (outs, rest) ->
  Forall (fun o => is_uint (toi_amount o)) outs /\
  total_out outs + rest = toi_amount toi /\ Forall (part_of toi) outs /\ (rest = 0 \/ outs = []) /\
  exists ordered, order_vaults toi gas vaults = Ok ordered /\
    (toi_amount toi <= sumZ (map (capacity toi) ordered) ->
     rest = 0 /\ exists vs, vs `sublist_of` ordered /\ Forall (.∈ vaults) vs /\
       Forall2 (pays toi) outs vs) /\
    (sumZ (map (capacity toi) ordered) < toi_amount toi -> short_paid k toi vaults ordered outs).
Proof.
  intros Hv Hg Ht Hd. unfold DiscoverOutbounds in Hd. ok_inv. rename x into ordered.
  destruct x0 as [outs0 toi'].
  pose proof (order_vaults_in _ _ _ H) as Hin.
  assert (Hvo : Forall vault_uints ordered).
  { apply Forall_forall. intros v Hvin. rewrite Forall_forall in Hv. by apply Hv, Hin. }
  destruct (assign_vaults_spec toi ordered toi [] outs0 toi' Hvo Hg Ht (part_of_refl toi) H0)
    as (new & vs & -> & Hsub & HF & Hp' & Hu & Hsum & Hmax). simpl in Hd.
  destruct (total_out_assigned _ _ _ HF) as (Hparts & Hpos & Hnn).
  assert (Hamounts : Forall (fun o => is_uint (toi_amount o)) new).
  { eapply Forall_impl; [exact Hnn|]. simpl. unfold is_uint in *. lia. }
  assert (Hsubin : Forall (.∈ vaults) vs).
  { apply Forall_forall. intros v Hvin. apply Hin. eapply elem_of_submseteq; [done|by apply sublist_submseteq]. }
  destruct (Z.eqb_spec (toi_amount toi') 0) as [Hz|Hz].
  { injection Hd as <- <-. split_and!; [by apply Hamounts|lia|done|by left|].
    exists ordered. split; [done|]. split; [|lia]. intros _. split; [done|]. by exists vs. }
  destruct new as [|o l].
  - ok_inv. rename x into fv. unfold total_out in *. simpl in Hsum.
    rewrite (fallback_part k toi toi') in H1 by done.
    case_if_in Hd; injection Hd as <- <-; simpl;
      [change (toi_amount (toi_with_vault toi' (vPubKey fv) (PubKeyEddsa fv))) with (toi_amount toi')|].
    + split_and!; [by apply Forall_singleton|lia|by repeat constructor; auto with outbound|by left|].
      exists ordered. split; [done|]. split; [lia|]. intros _. right. split; [lia|]. exists fv.
      split; [done|]. apply negb_true_iff in E. rewrite E. eexists.
      split_and!; [reflexivity|reflexivity|simpl; unfold toi_amount in *; simpl; lia].
    + split_and!; [done|lia|done|by right|].
      exists ordered. split; [done|]. split; [lia|]. intros _. right. split; [lia|]. exists fv.
      split; [done|]. apply negb_false_iff in E. by rewrite E.
  - ok_inv. pose proof (smallest_amount_in o l) as Hex. pose proof (smallest_amount_le o l) as Hle.
    destruct (add_to_first_spec toi (smallest_amount o l) (toi_amount toi') (o :: l) outs Hparts) as (Hs & HF' & Hnn');
      [|done..|].
    { eapply Forall_impl; [exact Hnn|]. simpl. intros y Hy.
      unfold is_uint in *. lia. }
    apply add_to_first_split in H1 as (l1 & o1 & l2 & Hsplit & Ho1 & Hout); [|done..].
    split_and!; [by apply total_out_uint; [|unfold is_uint in *; lia]|lia|done|by left|].
    exists ordered. split; [done|]. split; [lia|]. intros _. left. exists vs, l1, o1, l2.
    rewrite <- Hsplit, Ho1. split_and!; try done. rewrite Hout, Ho1. repeat f_equal. lia.
Qed.

(** C11. The outputs of an outbound add up to what was asked, each differs from it
    in the vault and the amount only, and nothing is left over once something is
    paid.  When the vaults together can pay, each output is paid by a vault of
    the list that holds the amount and, in the gas asset, the gas on top.  When
    they cannot, all that is missing is put on one of the smallest of outputs
    that are each within such a vault; only when they can pay nothing at all,
    the whole is put on one output for the fallback vault, or there is no output
    when there is none.  The amounts of the request, of the gas and
    in the vaults are unsigned 256-bit integers. *)
Theorem DiscoverOutbounds_pays (k : KVStore B) toi vaults outs rest :
  Forall vault_uints vaults -> is_uint (cAmount gas) -> is_uint (toi_amount toi) ->
  DiscoverOutbounds pk_address k fee gas toi vaults = Ok (outs, rest) ->
  total_out outs + rest = toi_amount toi /\ Forall (part_of toi) outs /\ (rest = 0 \/ outs = []) /\
  exists ordered, order_vaults toi gas vaults = Ok ordered /\
    (toi_amount toi <= sumZ (map (capacity toi) ordered) ->
     rest = 0 /\ exists vs, vs `sublist_of` ordered /\ Forall (.∈ vaults) vs /\
       Forall2 (pays toi) outs vs) /\
    (sumZ (map (capacity toi) ordered) < toi_amount toi -> short_paid k toi vaults ordered outs).
Proof. intros Hv Hg Ht Hd. by apply discover_spec in Hd as [_ Hd]. Qed.
End discover_props.

(** ** Clout *)
Section clout_props.
Context {S : SdkMath} `{!SdkMathOk S}.

Lemma cap_clout_spec limit c1 c2 a b : is_uint limit -> is_uint c1 -> is_uint c2 ->
  cap_clout limit c1 c2 = Ok (a, b) ->
  0 <= a <= c1 /\ 0 <= b <= c2 /\ (c1 + c2 <= limit -> a = c1 /\ b = c2).
Proof.
  intros Hl H1 H2 Hc. unfold cap_clout in Hc. uint_inv. subst.
  destruct (Z.ltb_spec limit (c1 + c2)); [|injection Hc as <- <-; unfold is_uint in *; lia].
  assert (is_u64 2) by (unfold is_u64; lia). uint_inv. subst.
  pose proof (Z.div_le_upper_bound limit 2 limit ltac:(lia)).
  assert (0 <= limit / 2) by (apply Z.div_pos; unfold is_uint in *; lia).
  repeat case_if_in Hc; math_inv; subst; z_bool; unfold is_uint in *; try lia.
Qed.

Lemma split_exact limit c1 c2 v a1 a2 rest :
  is_uint limit -> is_uint c1 -> is_uint c2 -> is_uint v ->
  splitClout limit c1 c2 v = Ok (a1, a2, rest) ->
  a1 + a2 + rest = v /\ 0 <= rest /\ 0 <= a1 <= c1 /\ 0 <= a2 <= c2 /\ a1 + a2 <= limit /\
  (c1 + c2 <= limit -> a1 + a2 = Z.min (c1 + c2) v).
Proof.
  intros Hl H1 H2 Hv Hs. unfold splitClout in Hs. ok_inv. destruct x as [a b].
  destruct (cap_clout_spec _ _ _ _ _ Hl H1 H2 H) as (Ha & Hb & Hall). clear H.
  assert (is_uint a) by (unfold is_uint in *; lia). assert (is_uint b) by (unfold is_uint in *; lia).
  uint_inv. subst.
  destruct (Z.ltb_spec limit (a + b)); [injection Hs as <- <- <-; unfold is_uint in *; lia|].
  destruct (Z.eqb_spec (a + b) 0) as [Hz|Hz]; [injection Hs as <- <- <-; unfold is_uint in *; lia|].
  set (applied := if a + b <? v then a + b else v) in *.
  assert (Happ : applied = Z.min (a + b) v) by (unfold applied; destruct (Z.ltb_spec (a + b) v); lia).
  clearbody applied. assert (is_uint applied) by (unfold is_uint in *; lia).
  math_inv. subst.
  set (ab := a + b) in *. set (ap := ab `min` v) in *.
  assert (Hq1 : 0 <= ap * a / ab) by (apply Z.div_pos; unfold is_uint in *; nia).
  assert (Hq2 : ap * a / ab <= a).
  { apply Z.div_le_upper_bound; [unfold is_uint in *; lia|]. unfold is_uint in *. nia. }
  assert (Hq3 : ap - ap * a / ab <= b).
  { enough (ap - b <= ap * a / ab) by lia. apply Z.div_le_lower_bound; [unfold is_uint in *; lia|].
    unfold is_uint in *. nia. }
  unfold is_uint in *. lia.
Qed.

(** Splitting a value between the clout of the sender and of the receiver
    loses nothing: the two parts and the rest are the value, neither part is
    more than the clout on its side, together they stay under the limit, and
    when the clout is under the limit all of it that the value needs is used. *)
Theorem splitClout_exact limit c1 c2 v a1 a2 rest :
  is_uint limit -> is_uint c1 -> is_uint c2 -> is_uint v ->
  splitClout limit c1 c2 v = Ok (a1, a2, rest) ->
  a1 + a2 + rest = v /\ 0 <= rest /\ 0 <= a1 <= c1 /\ 0 <= a2 <= c2 /\ a1 + a2 <= limit /\
  (c1 + c2 <= limit -> a1 + a2 = Z.min (c1 + c2) v).
Proof. apply split_exact. Qed.
End clout_props.

(** ** The block of an outbound *)
Section height_props.
Context {B : Type} `{HBank : Bank B} {K : SdkKeys} {S : SdkMath} `{!SdkMathOk S} {L : AddressLib} {P : MemoLib}.
Context (constants : string -> Z).
Implicit Types k : KVStore B.

(** Some outbound is scheduled in the block. *)
Definition busy k h : Prop := TxArray (GetTxOut k h) <> [].

Lemma value_busy k h v c : GetTxOutValue k h = Ok (v, c) -> v <> 0 -> busy k h.
Proof.
  unfold GetTxOutValue, GetTOIsValue, busy. intros Hv Hn He. rewrite He in Hv. simpl in Hv. congruence.
Qed.

(** The search passes busy blocks only, and looks at [count] of them. *)
Lemma find_block_spec count k rv thr t h : 0 <= t -> t + Z.of_nat count < 2 ^ 63 ->
  find_block count k rv thr t = Ok h ->
  t <= h <= t + Z.of_nat count /\ (forall j, t <= j < h -> busy k j) /\
  (h < t + Z.of_nat count ->
     exists v c, GetTxOutValue k h = Ok (v, c) /\ has_room v rv thr = Ok true).
Proof.
  revert t. induction count as [|count IH]; intros t Ht Hc; simpl find_block.
  { intros [= <-]. split_and!; lia. }
  intros Hf. ok_inv. destruct x as [v c]. ok_inv. destruct x.
  { injection Hf as <-. split_and!; [lia..|]. intros _. eauto. }
  assert (Hi : i64 (t + 1) = t + 1) by (apply i64_id; unfold is_i64; lia).
  rewrite Hi in Hf. destruct (IH (t + 1)) as (Hb & Hbusy & Hroom); [lia..|done|].
  split_and!; [lia..| |intros Hlt; apply Hroom; lia].
  intros j Hj. destruct (Z.eq_dec j t) as [->|]; [|apply Hbusy; lia].
  eapply value_busy; [done|]. intros ->. unfold has_room in *. simpl in *. congruence.
Qed.

Lemma pending_from_sees k asset last lo hi h item :
  item ∈ TxArray (GetTxOut k h) -> lo <= h <= hi -> Asset_Equals (toi_asset item) asset = true ->
  TxID_IsEmpty (OutHash item) = true -> (forall j, last < j <= h -> busy k j) ->
  item ∈ pending_from k asset last (heights lo hi).
Proof.
  intros Hin Hh Ha Ho Hbusy. remember (Z.to_nat (h - lo)) as n eqn:Hn.
  revert lo Hh Hn. induction n as [|n IH]; intros lo Hh Hn.
  all: rewrite heights_cons by lia; simpl; case_if.
  1, 3: apply andb_true_iff in E as [E1 E2]; z_bool; apply Nat.eqb_eq, length_zero_iff_nil in E2;
    by destruct (Hbusy lo ltac:(lia)).
  - replace lo with h by lia. apply elem_of_app. left. apply list_elem_of_In, filter_In.
    split; [by apply list_elem_of_In|]. unfold toi_asset in Ha. by rewrite Ha, Ho.
  - apply elem_of_app. right. apply IH; lia.
Qed.

(** Every block list is stored under its own height. *)
Definition txouts_ok k : Prop := forall h, toHeight (GetTxOut k h) = h.

Lemma kTxOuts_append k h item : txouts_ok k ->
  kTxOuts (AppendTxOut k h item) =
    <[tx_out_key h := mkTxOut h (TxArray (GetTxOut k h) ++ [item])]> (kTxOuts k).
Proof.
  intros Hok. unfold AppendTxOut, SetTxOut, TxOut_IsEmpty. simpl.
  rewrite length_app, Nat.add_comm. simpl. by rewrite Hok.
Qed.

Lemma GetTxOut_append k h item : txouts_ok k ->
  TxArray (GetTxOut (AppendTxOut k h item) h) = (TxArray (GetTxOut k h) ++ [item])%list.
Proof. intros Hok. unfold GetTxOut at 1. by rewrite kTxOuts_append, lookup_insert_eq. Qed.

Lemma busy_append k h item j : txouts_ok k -> busy k j -> busy (AppendTxOut k h item) j.
Proof.
  unfold busy. intros Hok Hb. unfold GetTxOut. rewrite kTxOuts_append by done.
  destruct (decide (tx_out_key h = tx_out_key j)) as [<-|Hne].
  - rewrite lookup_insert_eq. simpl. by intros [_ ?]%app_eq_nil.
  - by rewrite lookup_insert_ne.
Qed.

(** What scheduling changes: the clout only. *)
Lemma save_clout_frame k i o c1 c2 k' : save_clout k i o c1 c2 = Ok k' ->
  exists m, k' = with_clout k m.
Proof.
  unfold save_clout. intros Hs. ok_inv.
  assert (exists m, x = with_clout k m) as [m ->].
  { case_if_in H; [|injection H as <-; exists (kClout k); by destruct k].
    ok_inv. by eexists. }
  case_if_in Hs; [|injection Hs as <-; by exists m]. ok_inv. by eexists.
Qed.

Lemma calcClout_frame k v toi k' v' c : calcClout constants k v toi = Ok (k', v', c) ->
  exists m, k' = with_clout k m.
Proof.
  assert (Hid : exists m, k = with_clout k m) by (exists (kClout k); by destruct k).
  unfold calcClout. intros Hc. case_if_in Hc; [by simplify_eq|]. ok_inv. destruct x1 as [ [c1 c2] v1].
  ok_inv. case_if_in Hc; [by simplify_eq|]. ok_inv. by eapply save_clout_frame.
Qed.

(** The first block tried is at most the offset away. *)
Lemma min_blocks_spec v rate offset n : is_uint v -> is_uint rate -> is_uint offset ->
  min_blocks v rate offset = Ok n -> 0 <= n <= offset.
Proof.
  intros Hv Hr Ho Hm. unfold min_blocks in Hm. uint_inv. subst.
  case_if; z_bool; unfold is_uint in *; lia.
Qed.

(** ** Stored numbers *)
Definition item_ok (i : TxOutItem) : Prop :=
  is_uint (toi_amount i) /\ coins_ok (MaxGas i) /\
  match CloutSpent i with Some c => is_uint c | None => True end.
Definition clout_ok (c : SwapperClout) : Prop := is_uint (Score c) /\ is_uint (Spent c) /\ is_uint (Reclaimed c).

(** What the scheduler reads from the store. *)
Record sched_ok k : Prop := {
  so_heights : txouts_ok k;
  so_items : forall h, Forall item_ok (TxArray (GetTxOut k h));
  so_pools : forall a, pool_ok (GetPool k a)
}.
Definition clouts_ok k : Prop := forall a, clout_ok (GetSwapperClout k a).

Lemma sched_ok_clout k m : sched_ok k -> sched_ok (with_clout k m).
Proof. intros [Hh Hi Hp]. split; [exact Hh|exact Hi|exact Hp]. Qed.

Lemma AssetValueInRune_uint pool amt r : pool_ok pool -> is_uint amt ->
  AssetValueInRune pool amt = Ok r -> is_uint r.
Proof.
  intros (Hd & Ha & _) Hamt. unfold AssetValueInRune. case_if; [intros [= <-]; auto with go|].
  intros Hr. by apply GetUncappedShare_inv in Hr as [_ Hr].
Qed.

Lemma add_coin_value_uint k v c r : (forall a, pool_ok (GetPool k a)) -> is_uint v -> is_uint (cAmount c) ->
  add_coin_value k v c = Ok r -> is_uint r.
Proof.
  intros Hp Hv Hc. unfold add_coin_value. case_if; intros Hr; [by uint_inv|].
  ok_inv. apply AssetValueInRune_uint in H; [|done..]. by uint_inv.
Qed.

Lemma GetTOIsValue_uint k items v c : (forall a, pool_ok (GetPool k a)) -> Forall item_ok items ->
  GetTOIsValue k items = Ok (v, c) -> is_uint v /\ is_uint c.
Proof.
  intros Hp Hi Hv. unfold GetTOIsValue in Hv.
  eapply (fold_ok_inv (fun r : Z * Z => is_uint r.1 /\ is_uint r.2)) in Hv; [done| |split; auto with go].
  intros [v0 c0] i [v1 c1] Hin [Hv0 Hc0] Hadd. rewrite Forall_forall in Hi.
  destruct (Hi i Hin) as (Ha & Hg & Hcl). unfold add_item_value in Hadd. ok_inv. cbn [fst snd] in *. split.
  - eapply (fold_ok_inv is_uint) in H; [done| |done]. intros a x a' Hx Hua Hadd.
    eapply add_coin_value_uint; [done|exact Hua| |done]. apply elem_of_cons in Hx as [->|Hx]; [done|].
    unfold coins_ok in Hg. rewrite Forall_forall in Hg. by apply Hg.
  - destruct (CloutSpent i) as [cl|]; [by uint_inv|by ok_inv].
Qed.

Lemma scheduled_value_uint k last hs acc r : sched_ok k -> is_uint acc.1 -> is_uint acc.2 ->
  scheduled_value k last acc hs = Ok r -> is_uint r.1 /\ is_uint r.2.
Proof.
  intros Hok. revert acc. induction hs as [|h hs IH]; intros acc H1 H2; simpl; [by intros [= <-]|].
  intros Hr. ok_inv. destruct x as [v c].
  apply GetTOIsValue_uint in H as [Hv Hc]; [|apply Hok|apply Hok].
  case_if_in Hr; [by simplify_eq|]. uint_inv. eapply IH; [| |exact Hr]; simpl; by subst.
Qed.

Lemma delay_rate_uint rate thr sv cv r : is_uint rate -> is_uint thr -> is_uint sv -> is_uint cv ->
  delay_rate rate thr sv cv = Ok r -> is_uint r.
Proof.
  intros Hr Ht Hs Hc. unfold delay_rate. intros Hd.
  assert (is_uint One) by (unfold is_uint, uint_lim, One; lia). math_inv. subst.
  case_if_in Hd; [simplify_eq; auto with go|]. by uint_inv.
Qed.

Lemma Available_uint c r : clout_ok c -> Available c = Ok r -> is_uint r.
Proof. intros (H1 & H2 & H3). unfold Available. intros Ha. math_inv. by subst. Qed.

Lemma Restore_ok c h l : clout_ok c -> clout_ok (Restore c h l).
Proof. unfold Restore. intros (H1 & H2 & H3). case_if; done. Qed.

Lemma SafeUint_uint i : is_uint (SafeUintFromInt64 i).
Proof. unfold SafeUintFromInt64. case_if; [auto with go|]. pose proof (u64_range i). auto with go. Qed.

Lemma calcClout_uint k v toi k' v' c : clouts_ok k -> is_uint v ->
  calcClout constants k v toi = Ok (k', v', c) -> is_uint v' /\ v' <= v.
Proof.
  intros Hok Hv. unfold calcClout. intros Hc. case_if_in Hc; [simplify_eq; split; [done|lia]|]. ok_inv.
  destruct x1 as [ [c1 c2] v1]. apply Available_uint in H, H0; [|apply Restore_ok, Hok..].
  match goal with Hs : splitClout _ _ _ _ = _ |- _ => apply split_exact in Hs; [|auto using SafeUint_uint..] end.
  ok_inv. case_if_in Hc; [simplify_eq; split; [done|lia]|]. ok_inv. unfold is_uint in *. lia.
Qed.

(** Configuration values the scheduler reads. *)
Definition delay_offset k : Z := cfg constants k "MaxTxOutOffset".
Definition delay_max k : Z := cfg constants k "TxOutDelayMax".

Lemma schedule_spec k v thr rate h : sched_ok k -> is_uint v -> 0 <= kHeight k -> 0 <= delay_offset k ->
  0 <= delay_max k -> kHeight k + delay_offset k + delay_max k < 2 ^ 63 ->
  schedule constants k v thr rate (delay_offset k) = Ok h ->
  kHeight k <= h <= kHeight k + delay_offset k + delay_max k /\
  (forall j, kHeight k + delay_offset k <= j < h -> busy k j).
Proof.
  intros Hok Hv Hh Ho Hm Hlim Hs. unfold schedule in Hs. fold (delay_max k) in Hs. ok_inv.
  destruct x as [sv cv]. ok_inv.
  apply scheduled_value_uint in H as [Hsv Hcv]; [|done|done|auto with go]. cbn [fst snd] in *.
  assert (forall z, is_uint (u64 z)) as Hu by (intros z; pose proof (u64_range z); auto with go).
  apply delay_rate_uint in H0; [|auto..].
  apply min_blocks_spec in H1; [|auto..].
  rewrite (u64_id (delay_offset k)) in H1 by (unfold is_u64; lia).
  rewrite i64_id in Hs by (unfold is_i64; lia).
  apply find_block_spec in Hs as (Hb & Hbusy & _); [|lia..].
  split; [lia|]. intros j Hj. apply Hbusy. lia.
Qed.

(** An unsent item is counted while the store's height is within the signing
    period of its block and the block within the window that is scanned. *)
Lemma pending_while_signing k h item :
  0 <= constants "SigningTransactionPeriod" -> 0 < h -> 0 <= kHeight k -> 0 <= delay_offset k -> 0 <= delay_max k ->
  constants "SigningTransactionPeriod" < 2 ^ 62 ->
  kHeight k + delay_offset k + delay_max k < 2 ^ 63 ->
  kHeight k <= h + constants "SigningTransactionPeriod" -> h <= kHeight k + delay_max k ->
  TxID_IsEmpty (OutHash item) = true -> item ∈ TxArray (GetTxOut k h) ->
  (forall j, kHeight k + delay_offset k < j <= h -> busy k j) ->
  item ∈ GetPendingOutbounds constants k (toi_asset item).
Proof.
  intros Hp0 Hh Hk Ho Hm Hp1 Hlim Hsign Hwin Hout Hin Hbusy.
  unfold GetPendingOutbounds. fold (delay_offset k) (delay_max k).
  rewrite !i64_id by (unfold is_i64; lia).
  apply pending_from_sees with h; try done; [|apply Asset_Equals_refl].
  unfold signing_start. rewrite i64_id by (unfold is_i64; lia). case_if; z_bool; lia.
Qed.

(** C16. The block an outbound is scheduled in is neither in the past nor further
    than the configured offset and search allow; and wherever up to that block,
    within the window that is scanned, the outbound is put, it counts among the
    pending outbounds of its asset, so its vault is not asked for the same coins
    twice: then, and in every later store in which it is still unsent, until the
    signing period after its block is over, as long as no block that held items
    has lost all of them and the configuration is the same. *)
Theorem scheduled_outbound_pending k toi k' h c :
  sched_ok k -> clouts_ok k -> item_ok toi -> 0 < kHeight k -> 0 <= delay_offset k -> 0 <= delay_max k ->
  kHeight k + delay_offset k + delay_max k < 2 ^ 63 ->
  0 <= constants "SigningTransactionPeriod" < 2 ^ 62 ->
  CalcTxOutHeight constants k toi = Ok (k', h, c) ->
  kHeight k <= h <= kHeight k + delay_offset k + delay_max k /\
  forall h' item, kHeight k <= h' <= Z.min h (kHeight k + delay_max k) ->
    TxID_IsEmpty (OutHash item) = true ->
    item ∈ GetPendingOutbounds constants (AppendTxOut k' h' item) (toi_asset item) /\
    forall k2, kHeight k <= kHeight k2 <= h' + constants "SigningTransactionPeriod" ->
      kHeight k2 + delay_offset k + delay_max k < 2 ^ 63 ->
      delay_offset k2 = delay_offset k -> delay_max k2 = delay_max k ->
      item ∈ TxArray (GetTxOut k2 h') ->
      (forall j, busy (AppendTxOut k' h' item) j -> busy k2 j) ->
      item ∈ GetPendingOutbounds constants k2 (toi_asset item).
Proof.
  intros Hok Hcl Hi Hh Ho Hm Hlim Hper Hc.
  assert (Hframe : (exists m, k' = with_clout k m) /\
    kHeight k <= h <= kHeight k + delay_offset k + delay_max k /\
    (forall j, kHeight k + delay_offset k <= j < h -> busy k j)).
  { unfold CalcTxOutHeight in Hc. fold (delay_offset k) in Hc.
    assert (Hid : exists m, k = with_clout k m) by (exists (kClout k); by destruct k).
    do 2 (case_if_in Hc; [simplify_eq; split_and!; [done|lia..]|]). ok_inv.
    destruct x as [v cv]. ok_inv. destruct x as [ [k1 v1] c1].
    apply GetTOIsValue_uint in H as [Hv _]; [|apply Hok|by apply Forall_singleton].
    pose proof (calcClout_frame _ _ _ _ _ _ H0) as [m ->].
    apply calcClout_uint in H0 as [Hv1 _]; [|done..].
    case_if_in Hc; [simplify_eq; split_and!; [by eexists|simpl; lia..]|]. ok_inv.
    split; [by eexists|].
    exact (schedule_spec (with_clout k m) v1 _ _ h (sched_ok_clout k m Hok) Hv1 ltac:(simpl; lia) Ho Hm Hlim H). }
  destruct Hframe as ([m ->] & Hb & Hbusy). split; [done|]. intros h' item Hh' Hout.
  assert (Hok' : txouts_ok (with_clout k m)) by apply Hok.
  assert (Hheight : kHeight (AppendTxOut (with_clout k m) h' item) = kHeight k).
  { unfold AppendTxOut, SetTxOut. by case_if. }
  assert (Hcfg : forall n, cfg constants (AppendTxOut (with_clout k m) h' item) n = cfg constants k n).
  { intros n. unfold AppendTxOut, SetTxOut. by case_if. }
  assert (Hin : item ∈ TxArray (GetTxOut (AppendTxOut (with_clout k m) h' item) h')).
  { rewrite GetTxOut_append by done. apply elem_of_app. right. apply list_elem_of_here. }
  assert (Hb1 : forall j, kHeight k + delay_offset k < j <= h' -> busy (AppendTxOut (with_clout k m) h' item) j).
  { intros j Hj. destruct (Z.eq_dec j h') as [->|Hne].
    - unfold busy. intros He. rewrite He in Hin. by apply not_elem_of_nil in Hin.
    - apply busy_append; [done|]. apply (Hbusy j). lia. }
  split; [|intros k2 Hk2 Hlim2 Ho2 Hm2 Hin2 Hmono];
    (apply pending_while_signing with h'; [by rewrite ?Hheight; unfold delay_offset, delay_max in *; rewrite ?Hcfg; lia..|done|done|]).
  - intros j Hj. apply Hb1. unfold delay_offset in *. rewrite Hcfg, Hheight in Hj. lia.
  - intros j Hj. apply Hmono, Hb1. lia.
Qed.
End height_props.

(** ** The properties at concrete inputs *)

Definition demo_pk_address (pk : PubKey) (chain : Chain) : outcome Address := Ok ("addr-" ++ pk).
Definition demo_btc_vault (pk : PubKey) (amount : Z) : Vault :=
  mkVault 1 pk [NewCoin BTCAsset amount] VaultType_AsgardVault VaultStatus_ActiveVault 1 [] [] 0 0 [] [] [] "".
Definition demo_toi (amount : Z) : TxOutItem :=
  mkTxOutItem BTCChain "bc1user" "" (NewCoin BTCAsset amount) ("OUT:" ++ BlankTxID) "" [] 0
    BlankTxID "" "" "" "" None None "".
Definition demo_btc_vaults : Vaults :=
  [demo_btc_vault "pka" 300; demo_btc_vault "pkb" 500; demo_btc_vault "pkc" 400].
Definition demo_gas : Coin := NewCoin BTCAsset 20.

Lemma DiscoverOutbounds_pays_witness : exists outs short,
  DiscoverOutbounds (S := sdk_std) demo_pk_address (empty_store demo_bank 7) 10 demo_gas (demo_toi 1000)
    demo_btc_vaults = Ok (outs, 0) /\
  map (fun o => (VaultPubKey o, toi_amount o)) outs = [("pkb", 480); ("pkc", 380); ("pka", 140)] /\
  total_out outs + 0 = 1000 /\
  DiscoverOutbounds (S := sdk_std) demo_pk_address (empty_store demo_bank 7) 10 demo_gas (demo_toi 2000)
    demo_btc_vaults = Ok (short, 0) /\
  map (fun o => (VaultPubKey o, toi_amount o)) short = [("pkb", 480); ("pkc", 380); ("pka", 1140)] /\
  total_out short + 0 = 2000.
Proof.
  do 2 eexists. split; [vm_compute; reflexivity|]. split; [reflexivity|]. split.
  - match goal with |- total_out ?o + 0 = _ =>
      apply (DiscoverOutbounds_pays (S := sdk_std) demo_pk_address 10 demo_gas (empty_store demo_bank 7)
        (demo_toi 1000) demo_btc_vaults o 0) end.
    + repeat constructor; vm_compute; congruence.
    + split; vm_compute; congruence.
    + split; vm_compute; congruence.
    + vm_compute. reflexivity.
  - split; [vm_compute; reflexivity|]. split; [reflexivity|].
    match goal with |- total_out ?o + 0 = _ =>
      apply (DiscoverOutbounds_pays (S := sdk_std) demo_pk_address 10 demo_gas (empty_store demo_bank 7)
        (demo_toi 2000) demo_btc_vaults o 0) end.
    + repeat constructor; vm_compute; congruence.
    + split; vm_compute; congruence.
    + split; vm_compute; congruence.
    + vm_compute. reflexivity.
Defined.

Lemma splitClout_exact_witness :
  splitClout (S := sdk_std) 100 90 30 200 = Ok (70, 30, 100) /\ 70 + 30 + 100 = 200.
Proof.
  split; [reflexivity|].
  apply (splitClout_exact (S := sdk_std) 100 90 30 200 70 30 100); [split; vm_compute; congruence..|reflexivity].
Defined.

Definition demo_constants (name : string) : Z :=
  if String.eqb name "MaxTxOutOffset" then 720
  else if String.eqb name "TxOutDelayMax" then 17280
  else if String.eqb name "TxOutDelayRate" then 25 * 10 ^ 8
  else if String.eqb name "MinTxOutVolumeThreshold" then 1000 * 10 ^ 8
  else if String.eqb name "SigningTransactionPeriod" then 300
  else 0.
Definition demo_btc_pool : Pool := with_balances (with_lp_units (mkPool 0 0 BTCAsset 0 1 0 8 0 0 0) 1000) (1000 * 10 ^ 8) (10 * 10 ^ 8).
Definition demo_plan_store : KVStore SimpleBank :=
  with_pools (empty_store demo_bank 100) {[GetKey prefixPool (Asset_String BTCAsset) := demo_btc_pool]}.

Lemma demo_plan_ok : sched_ok demo_plan_store /\ clouts_ok demo_plan_store.
Proof.
  split; [split|]; intros a.
  - unfold GetTxOut. simpl. by rewrite lookup_empty.
  - unfold GetTxOut. simpl. rewrite lookup_empty. constructor.
  - unfold GetPool, demo_plan_store, with_pools, kPools.
    destruct (decide (GetKey prefixPool (Asset_String BTCAsset) = GetKey prefixPool (Asset_String a))) as [<-|Hne].
    + rewrite lookup_singleton_eq. repeat split; vm_compute; congruence.
    + rewrite lookup_singleton_ne by done. repeat split; vm_compute; congruence.
  - unfold GetSwapperClout. simpl. rewrite lookup_empty. case_if; repeat split; vm_compute; congruence.
Qed.

Definition demo_pending_store : KVStore SimpleBank := AppendTxOut demo_plan_store 108 (demo_toi (2 * 10 ^ 8)).

Lemma scheduled_outbound_pending_witness :
  CalcTxOutHeight (K := keys_std) (S := sdk_std) (L := addr_std) (P := memo_lib_std) demo_constants
    demo_plan_store (demo_toi (2 * 10 ^ 8)) = Ok (demo_plan_store, 108, 0) /\
  demo_toi (2 * 10 ^ 8) ∈ GetPendingOutbounds demo_constants demo_pending_store BTCAsset /\
  demo_toi (2 * 10 ^ 8) ∈ GetPendingOutbounds demo_constants (with_height demo_pending_store 400) BTCAsset.
Proof.
  split; [vm_compute; reflexivity|].
  destruct (scheduled_outbound_pending (K := keys_std) (S := sdk_std) (L := addr_std) (P := memo_lib_std)
    demo_constants demo_plan_store (demo_toi (2 * 10 ^ 8)) demo_plan_store 108 0) as [_ Hp].
  - apply demo_plan_ok.
  - apply demo_plan_ok.
  - split; [split; vm_compute; congruence|]. split; [constructor|exact I].
  - vm_compute. reflexivity.
  - vm_compute. congruence.
  - vm_compute. congruence.
  - vm_compute. reflexivity.
  - split; vm_compute; congruence.
  - vm_compute. reflexivity.
  - destruct (Hp 108 (demo_toi (2 * 10 ^ 8))) as [Hnow Hlater]; [vm_compute; split; congruence|reflexivity|].
    split; [exact Hnow|]. apply (Hlater (with_height demo_pending_store 400)).
    + vm_compute. split; congruence.
    + vm_compute. reflexivity.
    + reflexivity.
    + reflexivity.
    + replace (TxArray (GetTxOut (with_height demo_pending_store 400) 108)) with [demo_toi (2 * 10 ^ 8)]
        by (vm_compute; reflexivity).
      apply list_elem_of_here.
    + intros j Hj. exact Hj.
Defined.
