(* ===== verification/GasProps.v ===== *)
(** Theorems on the gas manager ([GasMgr]): the multiplier of the outbound fee
    falls as the surplus grows, a fresh asset starts at the target multiplier,
    and the reimbursement of the pools keeps them backed. *)
From S2P Require Import Prelude SdkMath GoStr Keys Shares Chains Assets Coins Bank Nodes Txs.
From S2P Require Import Decimal GoLib Addresses Voters Mimir Observed Pools Streaming MemoTypes Vaults.
From S2P Require Import Keeper MemoParser Halt VaultStore NodeStore Swaps Outbounds GasMgr OutboundPlan OutboundProps.
Local Open Scope string_scope.
Local Open Scope Z_scope.

(** ** The multiplier *)
Section multiplier.
Context {S : SdkMath} `{!SdkMathOk S}.

Lemma multiplier_eq target spent withheld maxM minM :
  is_uint target -> is_uint spent -> is_uint withheld -> is_uint maxM -> is_uint minM ->
  target <> 0 -> minM <= maxM ->
  CalcOutboundFeeMultiplier target spent withheld maxM minM =
    Ok (maxM - share (Z.min (Z.max 0 (withheld - spent)) target) target (maxM - minM)).
Proof.
  intros Ht Hs Hw Hx Hn Ht0 Hle. unfold CalcOutboundFeeMultiplier.
  destruct (Z.eqb_spec target 0); [done|]. destruct (Z.ltb_spec maxM minM); [lia|].
  rewrite !SafeSub_Ok by done. simpl. rewrite (Z.max_r 0 (maxM - minM)) by lia.
  assert (is_uint (maxM - minM)) by (unfold is_uint in *; lia).
  rewrite GetSafeShare_Ok by (done || by apply safe_sub_uint). simpl.
  set (r := share _ _ _). assert (Hr : is_uint r) by (apply safe_share_uint; [by apply safe_sub_uint|done..]).
  rewrite SafeSub_Ok by done. f_equal.
  assert (r <= maxM - minM).
  { unfold r. apply share_le; unfold is_uint in *; lia. }
  unfold is_uint in *. lia.
Qed.

(** The multiplier of the outbound fee always exists, lies between the
    minimum and the maximum, never grows when the surplus (what users paid less
    what the Reserve spent) grows, is the maximum without a surplus and the
    minimum from the target surplus on. *)
Theorem multiplier_falls target spent withheld spent' withheld' maxM minM :
  is_uint target -> is_uint spent -> is_uint withheld -> is_uint spent' -> is_uint withheld' ->
  is_uint maxM -> is_uint minM -> target <> 0 -> minM <= maxM ->
  withheld - spent <= withheld' - spent' ->
  exists m m', CalcOutboundFeeMultiplier target spent withheld maxM minM = Ok m /\
    CalcOutboundFeeMultiplier target spent' withheld' maxM minM = Ok m' /\
    minM <= m' <= m /\ m <= maxM /\
    (withheld <= spent -> m = maxM) /\ (target <= withheld - spent -> m = minM).
Proof.
  intros Ht Hs Hw Hs' Hw' Hx Hn Ht0 Hle Hsur. rewrite !multiplier_eq by done.
  do 2 eexists. do 2 (split; [done|]).
  assert (Hb : 0 < target) by (unfold is_uint in *; lia).
  pose proof (share_mono (Z.min (Z.max 0 (withheld - spent)) target)
    (Z.min (Z.max 0 (withheld' - spent')) target) target (maxM - minM) ltac:(lia) ltac:(lia) ltac:(lia)).
  pose proof (share_le (Z.min (Z.max 0 (withheld' - spent')) target) target (maxM - minM)
    ltac:(lia) ltac:(lia)).
  pose proof (share_nonneg (Z.min (Z.max 0 (withheld - spent)) target) target (maxM - minM)
    ltac:(lia) ltac:(lia) ltac:(lia)).
  split_and!; [lia|lia|lia| |].
  - intros Hno. rewrite (Z.max_l 0 (withheld - spent)), Z.min_l, share_0_l by lia. lia.
  - intros Hall. rewrite Z.min_r, share_full by lia. lia.
Qed.

(** The multiplier aimed at, within the bounds. *)
Definition clamp (minM maxM t : Z) : Z := Z.min maxM (Z.max minM t).

(** The surplus is the exact quotient but for the rounding of the decimals. *)
Lemma surplus_near T maxM minM t : is_u64 T -> is_u64 maxM -> is_u64 minM -> is_u64 t -> minM < maxM ->
  exists w, surplus_for T maxM minM t = Ok w /\ 0 <= w /\
    2 * Z.abs (w * (maxM - minM) - (maxM - clamp minM maxM t) * T) * dec_one <=
      (maxM - minM) * dec_one + 2 * T * (maxM - minM).
Proof.
  intros HT Hx Hn Ht Hlt. unfold surplus_for.
  replace (if maxM <? (if t <? minM then minM else t) then maxM else (if t <? minM then minM else t))
    with (clamp minM maxM t) by (unfold clamp; destruct (Z.ltb_spec t minM); case_if; z_bool; lia).
  assert (Hc : minM <= clamp minM maxM t <= maxM) by (unfold clamp; lia).
  set (c := clamp minM maxM t) in *. clearbody c.
  rewrite !SafeSub_Ok by (unfold is_u64, is_uint, uint_lim in *; lia). simpl.
  rewrite !Z.max_r by lia. destruct (Z.eqb_spec (maxM - minM) 0); [lia|].
  rewrite !dec_of_big_ok. set (D := maxM - c). set (R := maxM - minM) in *.
  assert (HR : 0 < R < 2 ^ 64) by (unfold is_u64 in *; lia). assert (HD : 0 <= D <= R) by lia.
  clearbody D R. assert (Hone : dec_one = 10 ^ 18) by done. unfold is_u64 in *.
  assert (Hlim : uint_lim = 2 ^ 256) by done.
  rewrite Hone in *.
  destruct (dec_quo_ok (D * 10 ^ 18) (R * 10 ^ 18)) as (q & Hq & Hq0 & Hqn); [lia..| |].
  { rewrite Hlim. nia. }
  rewrite Hq. simpl. rewrite Hone in Hqn.
  assert (Hq1 : Z.abs (q * R - D * 10 ^ 18) <= R) by lia.
  assert (Hqle : q <= 10 ^ 18 + 1) by nia.
  assert (HqT : 0 <= q * T <= (10 ^ 18 + 1) * 2 ^ 64) by nia.
  destruct (dec_mul_ok q (T * 10 ^ 18)) as (p & Hp & Hp0 & _); [lia|lia| |].
  { rewrite Hlim, Hone. lia. }
  pose proof (dec_mul_near q (T * 10 ^ 18) p Hq0 ltac:(lia) Hp) as [_ Hpn]. rewrite Hp. simpl. rewrite Hone in Hpn.
  assert (Hpe : p = q * T) by lia. subst p. clear Hpn Hp Hqn Hq.
  destruct (dec_round_ok (q * T)) as [w Hw]; [lia|rewrite Hlim, Hone; lia|].
  pose proof (dec_round_near _ _ Hp0 Hw) as [Hw0 Hwn]. rewrite Hw. simpl. rewrite Hone in Hwn.
  rewrite uint_of_big_ok. rewrite uint_or_panic_Ok by (unfold is_uint; rewrite Hlim; lia).
  exists w. split_and!; [done..|]. clear Hw Hlim.
  assert (H1 : 2 * Z.abs (w * R * 10 ^ 18 - q * T * R) <= R * 10 ^ 18).
  { replace (w * R * 10 ^ 18 - q * T * R) with ((w * 10 ^ 18 - q * T) * R) by ring.
    rewrite Z.abs_mul, (Z.abs_eq R) by lia. nia. }
  assert (H2 : Z.abs (q * T * R - D * T * 10 ^ 18) <= T * R).
  { replace (q * T * R - D * T * 10 ^ 18) with ((q * R - D * 10 ^ 18) * T) by ring.
    rewrite Z.abs_mul, (Z.abs_eq T) by lia. nia. }
  lia.
Qed.

Lemma fresh_multiplier_eq T maxM minM t w : is_u64 T -> is_u64 maxM -> is_u64 minM -> is_u64 t ->
  minM <= maxM -> maxM - minM <= 10 ^ 17 -> 2 * (maxM - minM) < T ->
  surplus_for T maxM minM t = Ok w -> is_uint w ->
  CalcOutboundFeeMultiplier T 0 w maxM minM = Ok (clamp minM maxM t).
Proof.
  intros HT Hx Hn Ht Hle HR HRT Hw Hwu.
  rewrite multiplier_eq by (auto with go; unfold is_u64 in *; lia). f_equal. rewrite Z.sub_0_r.
  destruct (Z.eq_dec minM maxM) as [->|Hne].
  { rewrite Z.sub_diag, share_0_r by (unfold is_u64 in *; lia). unfold clamp. lia. }
  destruct (surplus_near T maxM minM t) as (w' & Hw' & Hw0 & Hnear); [done..|lia|].
  rewrite Hw in Hw'. injection Hw' as <-. rewrite Z.max_r by lia.
  set (R := maxM - minM) in *. set (D := maxM - clamp minM maxM t) in *.
  assert (HD : 0 <= D <= R) by (unfold D, R, clamp; lia).
  enough (share (Z.min w T) T R = D) by (unfold D in *; lia).
  pose proof (share_near (Z.min w T) T R ltac:(lia)) as Hs.
  assert (Hone : dec_one = 10 ^ 18) by done. rewrite Hone in Hnear.
  assert (HTR : T * R <= T * 10 ^ 17) by nia.
  assert (Hd : 20 * Z.abs (w * R - D * T) < 7 * T) by lia.
  destruct (Z.leb_spec w T) as [Hc|Hc].
  - rewrite Z.min_l in * by lia. set (s := share w T R) in *.
    assert (Hlt : Z.abs (s * T - D * T) < T) by lia.
    replace (s * T - D * T) with ((s - D) * T) in Hlt by ring. rewrite Z.abs_mul in Hlt. nia.
  - rewrite Z.min_r, share_full by lia. nia.
Qed.
End multiplier.

Section fresh.
Context {B : Type} {S : SdkMath} `{!SdkMathOk S}.
Context (constants : string -> Z).

(** C26. An asset no fee was ever withheld for starts with the surplus that makes
    its fee multiplier exactly one hundred percent, kept within the configured
    bounds: the surplus is computed without a panic, fits its record, is what a
    later read finds, and the multiplier computed from it is the target with no
    rounding error, when the target surplus is over twice the range of the
    multiplier. *)
Theorem fresh_asset_multiplier (k : KVStore B) outAsset T maxM minM :
  cfg constants k "TargetOutboundFeeSurplusDeca" = T ->
  cfg constants k "MaxOutboundFeeMultiplierBasisPoints" = maxM ->
  cfg constants k "MinOutboundFeeMultiplierBasisPoints" = minM ->
  0 <= minM -> minM <= maxM -> maxM - minM <= 10 ^ 17 -> 2 * (maxM - minM) < T ->
  T < 2 ^ 63 -> maxM < 2 ^ 63 ->
  getUint64 k (withheld_key outAsset) 0 = 0 ->
  exists k' w, GetOutboundFeeWithheldRune constants k outAsset = Ok (k', w) /\
    getUint64 k' (withheld_key outAsset) 0 = w /\
    CalcOutboundFeeMultiplier T 0 w maxM minM = Ok (clamp minM maxM 10000).
Proof.
  intros HT HM Hm H0 Hle HR HRT HT63 HM63 Hfresh. unfold GetOutboundFeeWithheldRune. rewrite Hfresh. simpl.
  unfold GetSurplusForTargetMultiplier. rewrite HT, HM, Hm.
  assert (Hid : forall z, 0 <= z < 2 ^ 63 -> SafeUintFromInt64 z = z).
  { intros z Hz. unfold SafeUintFromInt64. case_if; z_bool; [lia|]. apply u64_id. unfold is_u64. lia. }
  rewrite !Hid by lia.
  assert (Hw : exists w, surplus_for T maxM minM 10000 = Ok w /\ 0 <= w < 2 ^ 64).
  { destruct (Z.eq_dec minM maxM) as [->|Hne].
    - exists T. split; [|lia]. unfold surplus_for.
      rewrite !SafeSub_Ok by (unfold is_uint, uint_lim; repeat case_if; z_bool; lia). simpl.
      by rewrite Z.sub_diag.
    - destruct (surplus_near T maxM minM 10000) as (w & Hw & Hw0 & Hn); [unfold is_u64; lia..|].
      exists w. split; [done|]. assert (Hc : minM <= clamp minM maxM 10000 <= maxM) by (unfold clamp; lia).
      assert (Hone : dec_one = 10 ^ 18) by done. rewrite Hone in Hn.
      set (R := maxM - minM) in *. set (D := maxM - clamp minM maxM 10000) in *.
      assert (HD : 0 <= D <= R) by (unfold D, R in *; lia).
      assert (T * R <= T * 10 ^ 17) by nia. assert (D * T <= R * T) by nia. split; [done|].
      enough (w < T + T) by lia. assert (0 < R) by (unfold R; lia). nia. }
  destruct Hw as (w & Hw & Hwb). rewrite Hw. simpl. unfold safeUint64.
  destruct (Z.leb_spec 0 w); [|lia]. destruct (Z.ltb_spec w (2 ^ 64)); [|lia]. simpl.
  do 2 eexists. split; [done|]. split.
  - unfold getUint64, setUint64. simpl. by rewrite lookup_insert_eq.
  - eapply fresh_multiplier_eq; [unfold is_u64; lia..|exact Hw|]. unfold is_uint, uint_lim. lia.
Qed.
End fresh.

(** ** Fees are amounts *)
Section fee_uints.
Context {B : Type} `{HBank : Bank B} {S : SdkMath} `{!SdkMathOk S}.
Context (constants : string -> Z).
Implicit Types k : KVStore B.

(** The stored numbers a fee is computed from. *)
Record fees_ok k : Prop := {
  fe_pools : forall a, pool_ok (GetPool k a);
  fe_network : forall c, is_u64 (netTransactionSize (GetNetworkFee k c)) /\
    is_u64 (TransactionFeeRate (GetNetworkFee k c));
  fe_withheld : forall a, is_u64 (getUint64 k (withheld_key a) 0);
  fe_spent : forall a, is_u64 (getUint64 k (spent_key a) 0)
}.

Lemma uint64_inv z r : uint64_or_panic z = Ok r -> r = z /\ is_u64 r.
Proof.
  unfold uint64_or_panic, is_u64. destruct (Z.leb_spec 0 z), (Z.ltb_spec z (2 ^ 64)); simpl; intros [= <-]. lia.
Qed.

Lemma RoundToDecimal_uint amt dec r : is_uint amt -> RoundToDecimal amt dec = Ok r -> is_uint r.
Proof. intros Ha Hr. pose proof (RoundToDecimal_le _ _ _ Ha Hr). unfold is_uint in *. lia. Qed.

Lemma RuneValueInAsset_uint pool amt r : pool_ok pool -> is_uint amt ->
  RuneValueInAsset pool amt = Ok r -> is_uint r.
Proof.
  intros (Hd & Ha & _) Hamt. unfold RuneValueInAsset. case_if; [intros [= <-]; auto with go|].
  intros Hr. ok_inv. apply GetUncappedShare_inv in H as [_ H]; [|done..]. by eapply RoundToDecimal_uint.
Qed.

Lemma GetMedianUint_uint vals m s : Forall is_uint vals -> GetMedianUint vals = Ok (m, s) -> is_uint m.
Proof.
  intros Hv. unfold GetMedianUint. destruct vals as [|v vals']; [intros [= <- _]; auto with go|].
  set (vals := v :: vals') in *. clearbody vals. rewrite <- (stable_sort_perm Z.ltb vals) in Hv.
  assert (Hn : forall i, is_uint (nth i (stable_sort Z.ltb vals) 0)).
  { intros i. apply nth_Forall; [auto with go|done]. }
  case_if; [intros [= <- _]; apply Hn|]. intros Hm.
  apply bind_Ok_inv in Hm as (t & Ht & Hm). apply uint_add_inv in Ht as [_ Ht]; [|apply Hn..].
  apply bind_Ok_inv in Hm as (q & Hq & Hm). injection Hm as -> _.
  apply uint_quo_u64_inv in Hq as (_ & _ & Hq); [done..|unfold is_u64; lia].
Qed.

Lemma DollarsPerRune_uint k r : fees_ok k -> DollarsPerRune k = Ok r -> is_uint r.
Proof.
  intros Hok. unfold DollarsPerRune. case_if; [intros [= <-]; pose proof (u64_range (GetMimir k "DollarsPerRune")); auto with go|].
  intros Hr. apply bind_Ok_inv in Hr as (m & Hm & Hr). unfold AnchorMedian in Hm.
  apply bind_Ok_inv in Hm as (p & Hp & Hm). apply bind_Ok_inv in Hm as ([m' s] & Hmed & Hm). injection Hm as ->.
  apply (fold_ok_inv (Forall is_uint)) in Hp; [| |constructor].
  - apply GetMedianUint_uint in Hmed; [|done].
    apply uint_quo_u64_inv in Hr as (_ & _ & Hr); [done..|unfold is_u64, DollarMulti; lia].
  - intros a x a' _ Ha Hx. unfold anchor_value in Hx. case_if_in Hx; [by simplify_eq|].
    case_if_in Hx; [by simplify_eq|]. ok_inv. case_if; [|done].
    apply RuneValueInAsset_uint in H; [|apply Hok|unfold is_uint, uint_lim, DollarMulti, One; lia].
    by apply Forall_app_2, Forall_singleton.
Qed.

Lemma gas_units_uint c : is_uint (GetGasUnits c).2.
Proof.
  unfold GetGasUnits. apply (switch_prop (fun p : string * Z => is_uint p.2)); [|split; vm_compute; congruence].
  repeat constructor; vm_compute; congruence.
Qed.
Lemma multiplier_uint target spent withheld maxM minM m : is_uint target -> is_uint spent ->
  is_uint withheld -> is_uint maxM -> is_uint minM ->
  CalcOutboundFeeMultiplier target spent withheld maxM minM = Ok m -> is_uint m.
Proof.
  intros Ht Hs Hw Hx Hn. unfold CalcOutboundFeeMultiplier. case_if; [by intros [= <-]|].
  case_if; [intros [= <-]; unfold is_uint, uint_lim; lia|]. intros Hm. math_inv. done.
Qed.

Lemma min_outbound_fee_uint k pool r : fees_ok k -> pool_ok pool ->
  min_outbound_fee constants k pool = Ok r -> is_uint r.
Proof.
  intros Hok Hp Hr. unfold min_outbound_fee in Hr. apply bind_Ok_inv in Hr as (usd & Hu & Hr).
  apply DollarsPerRune_uint in Hu; [|done]. case_if_in Hr; [|simplify_eq; auto with go].
  apply bind_Ok_inv in Hr as (m & Hm & Hr).
  pose proof (u64_range (cfg constants k "MinimumL1OutboundFeeUSD")).
  apply GetUncappedShare_inv in Hm as [_ Hm]; [|auto with go|done|unfold is_uint, uint_lim, One; lia].
  by eapply RuneValueInAsset_uint.
Qed.

Lemma withheld_ok k asset k' w : fees_ok k -> GetOutboundFeeWithheldRune constants k asset = Ok (k', w) ->
  fees_ok k' /\ is_uint w.
Proof.
  intros Hok Hw. unfold GetOutboundFeeWithheldRune in Hw. pose proof (fe_withheld k Hok asset).
  case_if_in Hw; [|simplify_eq; auto with go]. ok_inv. unfold safeUint64 in H1. case_if_in H1; [|done].
  apply andb_true_iff in E0 as [H2%Z.leb_le H3%Z.ltb_lt]. injection H1 as <-.
  assert (Hu : is_u64 w) by (unfold is_u64; lia). split; [|auto with go].
  assert (Hg : forall key, is_u64 (getUint64 k key 0) ->
    is_u64 (getUint64 (setUint64 k (withheld_key asset) w) key 0)).
  { intros key Hkey. unfold getUint64, setUint64. simpl. destruct (decide (withheld_key asset = key)) as [->|Hne].
    - by rewrite lookup_insert_eq.
    - by rewrite lookup_insert_ne. }
  split; [exact (fe_pools k Hok)|exact (fe_network k Hok)| |].
  - intros a. exact (Hg _ (fe_withheld k Hok a)).
  - intros a. exact (Hg _ (fe_spent k Hok a)).
Qed.

Lemma gas_asset_fee_uint k asset pool minAsset k' f : fees_ok k -> is_uint minAsset ->
  gas_asset_fee constants k asset (GetNetworkFee k (GetChain asset)) pool minAsset = Ok (k', f) ->
  fees_ok k' /\ is_uint f.
Proof.
  intros Hok Hmin Hf. unfold gas_asset_fee in Hf. apply bind_Ok_inv in Hf as ([k1 w] & Hw & Hf).
  assert (Hok1 : fees_ok k1 /\ is_uint w).
  { destruct (GetOutboundFeeWithheldRune _ _ _) as [ [k2 w2]| |] eqn:Ew; simplify_eq; [|split; auto with go].
    by apply (withheld_ok k asset). }
  clear Hw. destruct Hok1 as [Hok1 Hwu].
  assert (Hsu : is_uint (GetOutboundFeeSpentRune k1 asset)) by (apply is_uint_u64, (fe_spent k1 Hok1)).
  destruct (fe_network k Hok (GetChain asset)) as [Hn1 Hn2]. pose proof (gas_units_uint (GetChain asset)).
  apply bind_Ok_inv in Hf as (b1 & H1 & Hf). apply bind_Ok_inv in Hf as (b2 & H2 & Hf).
  apply bind_Ok_inv in Hf as (b3 & H3 & Hf). apply bind_Ok_inv in Hf as (m & Hm & Hf).
  apply bind_Ok_inv in Hf as (s & Hs & Hf). apply bind_Ok_inv in Hf as (fee & Hfee & Hf). injection Hf as <- <-.
  apply uint_mul_u64_inv in H1 as [_ H1]; [|auto with go|done].
  apply uint_mul_u64_inv in H2 as [_ H2]; [|done|unfold is_u64, One; lia].
  apply uint_quo_inv in H3 as (_ & _ & H3); [|done..].
  apply multiplier_uint in Hm; [|apply is_uint_u64, u64_range|done|done|apply is_uint_u64, u64_range..].
  apply GetUncappedShare_inv in Hs as [_ Hs]; [|done|unfold is_uint, uint_lim; lia|done].
  apply RoundToDecimal_uint in Hfee; [|done]. split; [done|]. by case_if.
Qed.

Lemma GetAssetOutboundFee_uint k asset inRune k' f : fees_ok k ->
  GetAssetOutboundFee constants k asset inRune = Ok (k', f) -> fees_ok k' /\ is_uint f.
Proof.
  intros Hok Hf. unfold GetAssetOutboundFee in Hf. case_if_in Hf; [simplify_eq; auto with go|].
  destruct (NetworkFee_Valid _); [simplify_eq; auto with go|].
  apply bind_Ok_inv in Hf as (mn & Hmn & Hf). apply bind_Ok_inv in Hf as ([k1 fee] & Hfee & Hf).
  apply min_outbound_fee_uint in Hmn; [|done|apply Hok]. apply gas_asset_fee_uint in Hfee as [Hok1 Hfee]; [|done..].
  case_if_in Hf; [by simplify_eq|]. case_if_in Hf; [simplify_eq; auto with go|].
  apply bind_Ok_inv in Hf as (v & Hv & Hf). apply AssetValueInRune_uint in Hv; [|apply Hok|done].
  case_if_in Hf; [by simplify_eq|]. case_if_in Hf; [simplify_eq; auto with go|].
  apply bind_Ok_inv in Hf as (r & Hr & Hf). injection Hf as <- <-.
  split; [done|]. eapply RuneValueInAsset_uint; [apply Hok1|exact Hv|exact Hr].
Qed.

Lemma GetGasDetails_uint k chain c r : fees_ok k -> GetGasDetails constants k chain = Ok (c, r) ->
  is_uint (cAmount c).
Proof.
  intros Hok Hg. unfold GetGasDetails in Hg. apply bind_Ok_inv in Hg as (nf & Hnf & Hg).
  apply wrap_err_Ok in Hnf.
  assert (Hn : is_u64 (netTransactionSize nf) /\ is_u64 (TransactionFeeRate nf)).
  { unfold GasMgr_GetNetworkFee in Hnf. case_decide; [|injection Hnf as <-; exact (fe_network k Hok chain)].
    apply bind_Ok_inv in Hnf as (t & _ & Hnf). apply bind_Ok_inv in Hnf as (f & Hf & Hnf). injection Hnf as <-.
    apply uint64_inv in Hf as [-> Hf]. simpl. split; [unfold is_u64; lia|done]. }
  destruct Hn as [Hn1 Hn2]. pose proof (gas_units_uint chain).
  apply bind_Ok_inv in Hg as (? & _ & Hg). apply bind_Ok_inv in Hg as (rate & Hr & Hg).
  assert (Hru : is_uint rate).
  { case_if_in Hr; [|simplify_eq; auto with go]. apply bind_Ok_inv in Hr as (t & Ht & Hr).
    apply uint_mul_u64_inv in Ht as [_ Ht]; [|auto with go|unfold is_u64; lia].
    apply uint_quo_u64_inv in Hr as (_ & _ & Hr); [done..|unfold is_u64; lia]. }
  apply bind_Ok_inv in Hg as (b1 & H1 & Hg). apply bind_Ok_inv in Hg as (b2 & H2 & Hg).
  apply bind_Ok_inv in Hg as (b3 & H3 & Hg). apply bind_Ok_inv in Hg as (b4 & H4 & Hg).
  apply bind_Ok_inv in Hg as (b5 & H5 & Hg). injection Hg as <- _. simpl.
  apply uint_mul_u64_inv in H1 as [_ H1]; [|done..].
  apply uint_mul_u64_inv in H2 as [_ H2]; [|done|unfold is_u64, One; lia].
  apply uint_quo_inv in H3 as (_ & _ & H3); [|done..]. by apply RoundToDecimal_uint in H4.
Qed.
End fee_uints.

(** ** The reimbursement of the pools *)
Section reimburse.
Context {B : Type} `{HBank : Bank B} `{!BankOk B} {S : SdkMath} `{!SdkMathOk S}.
Implicit Types k : KVStore B.

Definition pool_key (a : Asset) : string := GetKey prefixPool (Asset_String a).

Lemma NoDup_map_inj {A C} (f : A -> C) l x y : NoDup (map f l) -> x ∈ l -> y ∈ l -> f x = f y -> x = y.
Proof.
  induction l as [|z l IH]; simpl; [by intros _ Hx%not_elem_of_nil|].
  intros [Hni Hnd]%NoDup_cons Hx Hy Heq.
  assert (Hm : forall w, w ∈ l -> f w <> f z).
  { intros w Hw Hwz. apply Hni. rewrite <- Hwz. by apply (list_elem_of_fmap_2 f). }
  apply elem_of_cons in Hx as [->|Hx], Hy as [->|Hy]; [done| | |by apply IH].
  - exfalso. by apply (Hm y).
  - exfalso. by apply (Hm x).
Qed.

(** What the Asgard module holds beyond the depths of the pools, and what it
    holds together with the Reserve. *)
Definition unpooled k : Z := deca_of k AsgardName - pools_deca k.
Definition protocol_deca k : Z := deca_of k ReserveName + deca_of k AsgardName.

(** A pool is stored under its own asset. *)
Definition pool_filed k (a : Asset) : Prop :=
  Pool_IsEmpty (GetPool k a) = false -> pool_key (plAsset (GetPool k a)) = pool_key a.

Lemma asset_lookup_insert {A} (l : list (Asset * A)) a x b :
  asset_lookup (asset_insert l a x) b = if decide (a = b) then Some x else asset_lookup l b.
Proof.
  induction l as [|[c y] l IH]; simpl; [done|].
  destruct (decide (c = a)) as [->|Hca]; simpl; [by destruct (decide (a = b))|].
  rewrite IH. destruct (decide (c = b)) as [->|]; [|done]. by destruct (decide (a = b)).
Qed.

(** What [SetPool] does to a pool filed under its asset. *)
Lemma set_filed_pool k a pool' k' : pool_filed k a -> Pool_IsEmpty (GetPool k a) = false ->
  plAsset pool' = plAsset (GetPool k a) -> SetPool k pool' = Ok k' ->
  pools_deca k' = pools_deca k - BalanceDeca (GetPool k a) + BalanceDeca pool' /\ kBank k' = kBank k /\
  forall b, pool_key b <> pool_key a -> GetPool k' b = GetPool k b.
Proof.
  intros Hf He Ha Hs. unfold SetPool in Hs. case_if_in Hs; [done|]. injection Hs as <-.
  rewrite Ha. fold (pool_key (plAsset (GetPool k a))). rewrite (Hf He). split_and!.
  - by rewrite pools_deca_insert.
  - done.
  - intros b Hb. unfold GetPool, with_pools. simpl. fold (pool_key b). by rewrite lookup_insert_ne.
Qed.

(** The assets gas is paid in, each with a pool of its own. *)
Context (assets : list Asset).

(** One entry of the gas event. *)
Definition event_ok k (cache : list (Asset * Pool)) (p : GasPool) : Prop :=
  gpAsset p ∈ assets /\ asset_lookup cache (gpAsset p) = Some (GetPool k (gpAsset p)) /\
  Pool_IsEmpty (GetPool k (gpAsset p)) = false /\ pool_filed k (gpAsset p) /\
  pool_ok (GetPool k (gpAsset p)) /\ is_uint (gpRuneAmt p) /\ is_uint (gpAssetAmt p).

Lemma reserve_to_asgard k n k' : SendFromModuleToModule k ReserveName AsgardName (NewCoin DecaNative n) = Ok k' ->
  deca_of k' AsgardName = deca_of k AsgardName + n /\ deca_of k' ReserveName = deca_of k ReserveName - n /\
  kPools k' = kPools k.
Proof.
  unfold SendFromModuleToModule. intros Hs. ok_inv.
  destruct (bank_send_ok _ _ _ _ _ _ H) as [Hbal _].
  unfold deca_of. cbn [kBank with_bank NewCoin cAsset cAmount]. rewrite !Hbal.
  change (Asset_Native DecaNative) with (Asset_Native DecaAsset).
  by rewrite moved_from, moved_to.
Qed.

Lemma pay_pool_keeps k cache p k' : event_ok k cache p -> pay_pool cache k p = Ok k' ->
  unpooled k' = unpooled k /\ protocol_deca k' = protocol_deca k /\
  forall b, pool_key b <> pool_key (gpAsset p) -> GetPool k' b = GetPool k b.
Proof.
  intros (_ & Hl & He & Hf & (Hd & Ha & _) & Hr & Has) Hp. unfold pay_pool in Hp. rewrite Hl in Hp.
  set (pool := GetPool k (gpAsset p)) in *. apply bind_Ok_inv in Hp as ([k1 pool1] & Hpay & Hp).
  assert (Hk1 : protocol_deca k1 = protocol_deca k /\ kPools k1 = kPools k /\ plAsset pool1 = plAsset pool /\
    deca_of k1 AsgardName - BalanceDeca pool1 = deca_of k AsgardName - BalanceDeca pool /\
    is_uint (BalanceDeca pool1) /\ BalanceAsset pool1 = BalanceAsset pool).
  { case_if_in Hpay; [|by simplify_eq].
    destruct (SendFromModuleToModule _ _ _ _) as [k2| |] eqn:Es; [|by simplify_eq|done].
    apply reserve_to_asgard in Es as (H1 & H2 & H3). uint_inv. subst. unfold protocol_deca. simpl.
    split_and!; try done; lia. }
  destruct Hk1 as (Hpr & Hpl & Hpa & Hgap & Hu & Hba). ok_inv.
  assert (Hg : forall b, GetPool k1 b = GetPool k b) by (intros b; unfold GetPool; by rewrite Hpl).
  destruct (SetPool k1 _) as [k2| |] eqn:Es; [| |done].
  - apply (set_filed_pool k1 (gpAsset p)) in Es as (Hsum & Hb & Hother).
    + injection Hp as <-. rewrite Hg in Hsum. cbn [BalanceDeca with_balances] in Hsum.
      unfold unpooled, protocol_deca, deca_of in *. rewrite Hb.
      assert (Hpd : pools_deca k1 = pools_deca k) by (unfold pools_deca; by rewrite Hpl).
      fold pool in Hsum. split_and!; [lia|done|]. intros b Hne. rewrite Hother by done. apply Hg.
    + unfold pool_filed. by rewrite !Hg.
    + by rewrite Hg.
    + rewrite Hg. exact Hpa.
  - exfalso. unfold SetPool in Es. case_if_in Es; [|done]. unfold with_balances in E. simpl in E.
    rewrite Hpa in E. unfold Pool_IsEmpty in He. fold pool in He. congruence.
Qed.

Lemma event_ok_frame k k' cache p : GetPool k' (gpAsset p) = GetPool k (gpAsset p) ->
  event_ok k cache p -> event_ok k' cache p.
Proof. unfold event_ok, pool_filed. by intros ->. Qed.

Lemma pay_pools_keep cache events : NoDup (map (fun p => pool_key (gpAsset p)) events) ->
  forall k k', Forall (event_ok k cache) events -> fold_ok (pay_pool cache) k events = Ok k' ->
  unpooled k' = unpooled k /\ protocol_deca k' = protocol_deca k.
Proof.
  induction events as [|p events IH]; intros Hnd k k' Hev Hf; [by injection Hf as <-|].
  cbn [fold_ok] in Hf. apply bind_Ok_inv in Hf as (k1 & H1 & Hf).
  apply NoDup_cons in Hnd as [Hni Hnd]. apply Forall_cons in Hev as [Hp Hev].
  destruct (pay_pool_keeps k cache p k1) as (H2 & H3 & H4); [done..|].
  destruct (IH Hnd k1 k') as [H5 H6]; [|done|split; congruence].
  rewrite Forall_forall in *. intros q Hq. apply (event_ok_frame k); [|by apply Hev].
  apply H4. intros Heq. apply Hni. rewrite <- Heq. apply (list_elem_of_fmap_2 (fun p => pool_key (gpAsset p))), Hq.
Qed.

(** *** The first loop: what the pools are due *)

(** The cache is what the store holds; the entries of the event are of distinct
    pools that are in the cache. *)
Definition run_ok k (r : GasRun) : Prop :=
  kPools (grStore r) = kPools k /\ kBank (grStore r) = kBank k /\
  (forall a pool, asset_lookup (grCache r) a = Some pool -> pool = GetPool k a) /\
  NoDup (map gpAsset (grEvent r)) /\ is_uint (grReserve r) /\
  Forall (event_ok k (grCache r)) (grEvent r).

Lemma UpsertGasPool_spec pools pool pools' : UpsertGasPool pools pool = Ok pools' ->
  NoDup (map gpAsset pools) -> is_uint (gpRuneAmt pool) -> is_uint (gpAssetAmt pool) ->
  Forall (fun p => is_uint (gpRuneAmt p) /\ is_uint (gpAssetAmt p)) pools ->
  NoDup (map gpAsset pools') /\
  Forall (fun p => is_uint (gpRuneAmt p) /\ is_uint (gpAssetAmt p) /\
    (gpAsset p = gpAsset pool \/ gpAsset p ∈ map gpAsset pools)) pools'.
Proof.
  intros Hu Hnd Hr Ha Hall.
  enough (Hs : (map gpAsset pools' = map gpAsset pools \/ (gpAsset pool ∉ map gpAsset pools /\
      map gpAsset pools' = (map gpAsset pools ++ [gpAsset pool])%list)) /\
      Forall (fun p => is_uint (gpRuneAmt p) /\ is_uint (gpAssetAmt p)) pools').
  { destruct Hs as [Hm Hu']. split.
    - destruct Hm as [->|[Hni ->]]; [done|]. apply NoDup_app. split_and!; [done| |by apply NoDup_singleton].
      intros x Hx Hx1%list_elem_of_singleton. by subst.
    - rewrite Forall_forall in *. intros p Hp. destruct (Hu' p Hp). split_and!; [done..|].
      apply (list_elem_of_fmap_2 gpAsset) in Hp. change (gpAsset p ∈ map gpAsset pools') in Hp.
      destruct Hm as [Hm|[_ Hm]]; rewrite Hm in Hp; [by right|].
      apply elem_of_app in Hp as [Hp|Hp%list_elem_of_singleton]; [by right|by left]. }
  clear Hnd. revert pools' Hu. induction Hall as [|p pools [H1 H2] Hall IH]; intros pools' Hu; simpl in Hu.
  { injection Hu as <-. split; [right; split; [simpl; apply not_elem_of_nil|done]|by apply Forall_singleton]. }
  case_decide as Heq.
  - uint_inv. subst. split; [by left|]. constructor; [done|]. done.
  - ok_inv. destruct (IH x) as [Hm Hu']; [done|]. split; [|by constructor].
    destruct Hm as [Hm|[Hni Hm]]; [left; simpl; by rewrite Hm|right]. simpl. rewrite Hm. split; [|done].
    rewrite not_elem_of_cons. by split; [congruence|].
Qed.

Definition coin_filed k (c : Coin) : Prop :=
  is_uint (cAmount c) /\ cAsset c ∈ assets /\ pool_filed k (cAsset c).

Lemma cached_pool_ok k r a pool cache : run_ok k r -> cached_pool (grStore r) (grCache r) a = (pool, cache) ->
  pool = GetPool k a /\ asset_lookup cache a = Some pool /\
  run_ok k (mkGasRun (grStore r) (grReserve r) cache (grEvent r)).
Proof.
  intros (Hp & Hb & Hc & Hnd & Hu & Hev) Hr. unfold cached_pool in Hr.
  assert (Hg : GetPool (grStore r) a = GetPool k a) by (unfold GetPool; by rewrite Hp).
  destruct (asset_lookup (grCache r) a) as [q|] eqn:El; injection Hr as <- <-.
  { split_and!; [by apply Hc|done|]. by unfold run_ok. }
  split_and!; [done|by rewrite asset_lookup_insert, decide_True|].
  unfold run_ok. cbn [grStore grCache grEvent grReserve]. split_and!; try done.
  - intros b q. rewrite asset_lookup_insert. case_decide as E; [intros [= <-]; by subst|apply Hc].
  - eapply Forall_impl; [exact Hev|]. intros p (Hin & Hl & Hrest). split; [done|split; [|done]].
    rewrite asset_lookup_insert. case_decide as E; [|done]. rewrite E in El. congruence.
Qed.

Lemma upsert_event_ok k cache events a rune asset count events' : (forall b, pool_ok (GetPool k b)) ->
  a ∈ assets -> asset_lookup cache a = Some (GetPool k a) -> Pool_IsEmpty (GetPool k a) = false -> pool_filed k a ->
  is_uint rune -> is_uint asset -> NoDup (map gpAsset events) -> Forall (event_ok k cache) events ->
  UpsertGasPool events (mkGasPool a rune asset count) = Ok events' ->
  NoDup (map gpAsset events') /\ Forall (event_ok k cache) events'.
Proof.
  intros Hok Hina Hl He Hf Hr Ha Hnd Hev Hu.
  apply UpsertGasPool_spec in Hu as [Hnd' Hall]; [|done..|].
  2: { eapply Forall_impl; [exact Hev|]. by intros p (_ & _ & _ & _ & _ & H1 & H2). }
  split; [done|]. rewrite Forall_forall in *. intros p Hp.
  destruct (Hall p Hp) as (H1 & H2 & Heq). unfold event_ok. cbn [gpAsset] in Heq. destruct Heq as [->|Hin].
  - by split_and!.
  - apply list_elem_of_fmap in Hin as (q & -> & Hq). destruct (Hev q Hq) as (? & ? & ? & ? & ? & _). by split_and!.
Qed.

Lemma reimburse_coin_ok k gm r spent coin r' spent' : (forall a, pool_ok (GetPool k a)) ->
  run_ok k r -> is_uint spent -> coin_filed k coin -> reimburse_coin gm (r, spent) coin = Ok (r', spent') ->
  run_ok k r' /\ is_uint spent'.
Proof.
  intros Hok Hr Hs (Hu & Hin & Hf) Hc. unfold reimburse_coin in Hc. case_if_in Hc; [by simplify_eq|].
  destruct (cached_pool _ _ _) as [pool cache] eqn:Ec.
  destruct (cached_pool_ok k r (cAsset coin) pool cache Hr Ec) as (-> & Hl & Hr1). clear Ec.
  unfold Pool_Valid in Hc. destruct (Pool_IsEmpty _) eqn:Ee; [by simplify_eq|]. ok_inv.
  apply AssetValueInRune_uint in H; [|done..]. case_if_in Hc; [by simplify_eq|]. ok_inv.
  destruct Hr1 as (Hp & Hb & Hca & Hnd & Hru & Hev). cbn [grStore grCache grEvent grReserve] in *. math_inv. subst.
  set (paid := if Z.max 0 (grReserve r - x) =? 0 then 0 else x) in *.
  assert (Hpaid : is_uint paid) by (unfold paid; by case_if; auto with go). uint_inv.
  apply (upsert_event_ok k cache) in H1 as [Hnd' Hev']; [|done..].
  split; [|done]. unfold run_ok. cbn [grStore grCache grEvent grReserve]. by split_and!.
Qed.

Lemma reimburse_asset_ok k gm r g r' : (forall a, pool_ok (GetPool k a)) -> run_ok k r ->
  Forall (coin_filed k) (oaGas g) -> reimburse_asset gm r g = Ok r' -> run_ok k r'.
Proof.
  intros Hok Hr Hg Ha. unfold reimburse_asset in Ha. apply bind_Ok_inv in Ha as ([r1 spent] & Hf & Ha).
  apply (fold_ok_inv (fun st => run_ok k st.1 /\ is_uint st.2)) in Hf as [Hr1 Hs]; [| |by split; auto with go].
  2: { intros [r2 s2] c [r3 s3] Hin [H1 H2] Hc. rewrite Forall_forall in Hg.
       by apply (reimburse_coin_ok k gm r2 s2 c); auto. }
  cbn [fst snd] in *. unfold AddToOutboundFeeSpentRune in Ha.
  destruct (uint_add _ _) as [t| |]; simpl in Ha; [|by simplify_eq|done].
  unfold safeUint64 in Ha. case_if_in Ha; simpl in Ha; by simplify_eq.
Qed.

(** C19. Reimbursing the pools for the gas that was spent moves DECA from the
    Reserve to the Asgard module exactly as far as it raises the depths of the
    pools: what the module holds beyond the pools is unchanged, and so is what
    Reserve and module hold together, whether the Reserve can pay all of it,
    some of it or nothing. *)
Theorem ProcessGas_keeps_backing gm k gm' k' :
  (forall a, pool_ok (GetPool k a)) -> is_uint (deca_of k ReserveName) -> gasEvent gm = [] ->
  Forall (fun g => Forall (coin_filed k) (oaGas g)) (outAssetGas gm) ->
  NoDup (map pool_key assets) ->
  ProcessGas gm k = Ok (gm', k') ->
  unpooled k' = unpooled k /\ protocol_deca k' = protocol_deca k.
Proof.
  intros Hok Hres Hev Hgas Hinj Hp. unfold ProcessGas in Hp. case_if_in Hp; [by simplify_eq|].
  apply bind_Ok_inv in Hp as (r & Hr & Hp). apply bind_Ok_inv in Hp as (k1 & Hf & Hp). injection Hp as <- <-.
  rewrite Hev in Hr.
  apply (fold_ok_inv (run_ok k)) in Hr.
  - destruct Hr as (Hpl & Hb & _ & Hnd & _ & Hall).
    assert (Hg : forall a, GetPool (grStore r) a = GetPool k a) by (intros a; unfold GetPool; by rewrite Hpl).
    assert (Hall' : Forall (event_ok (grStore r) (grCache r)) (grEvent r)).
    { eapply Forall_impl; [exact Hall|]. intros p. by apply event_ok_frame. }
    apply pay_pools_keep in Hf as [H1 H2]; [| |done].
    + unfold unpooled, protocol_deca, pools_deca, deca_of in *. by rewrite H1, H2, Hb, Hpl.
    + clear - Hnd Hall Hinj. induction (grEvent r) as [|p l IH]; simpl; [constructor|].
      apply NoDup_cons in Hnd as [Hni Hnd]. apply Forall_cons in Hall as [Hp Hall].
      constructor; [|by apply IH]. intros Hin. apply Hni. apply list_elem_of_fmap in Hin as (q & Heq & Hq).
      rewrite (NoDup_map_inj pool_key assets (gpAsset p) (gpAsset q));
        [by apply (list_elem_of_fmap_2 gpAsset)|done|apply Hp| |done].
      rewrite Forall_forall in Hall. by apply (Hall q Hq).
  - intros r0 g r1 Hin Hr0 Hg. rewrite Forall_forall in Hgas. eapply reimburse_asset_ok; eauto.
  - unfold run_ok. cbn [grStore grCache grEvent grReserve]. split_and!; try done; constructor.
Qed.
End reimburse.

(** ** The properties at concrete inputs *)

Lemma multiplier_falls_witness :
  CalcOutboundFeeMultiplier (S := sdk_std) 1000 40 290 30000 10000 = Ok 25000 /\
  exists m m', CalcOutboundFeeMultiplier (S := sdk_std) 1000 40 290 30000 10000 = Ok m /\
    CalcOutboundFeeMultiplier (S := sdk_std) 1000 40 540 30000 10000 = Ok m' /\ m' <= m.
Proof.
  split; [reflexivity|].
  destruct (multiplier_falls (S := sdk_std) 1000 40 290 40 540 30000 10000)
    as (m & m' & H1 & H2 & H3 & _); [split; vm_compute; congruence..|lia|lia|lia|].
  exists m, m'. split; [exact H1|]. split; [exact H2|]. apply H3.
Defined.

Definition demo_fee_constants (name : string) : Z :=
  if String.eqb name "TargetOutboundFeeSurplusDeca" then 100 * 10 ^ 8
  else if String.eqb name "MaxOutboundFeeMultiplierBasisPoints" then 30000
  else if String.eqb name "MinOutboundFeeMultiplierBasisPoints" then 9000
  else 0.

Lemma fresh_asset_multiplier_witness : exists k' w,
  GetOutboundFeeWithheldRune (S := sdk_std) demo_fee_constants (empty_store demo_bank 7) BTCAsset = Ok (k', w) /\
  CalcOutboundFeeMultiplier (S := sdk_std) (100 * 10 ^ 8) 0 w 30000 9000 = Ok 10000.
Proof.
  destruct (fresh_asset_multiplier (S := sdk_std) demo_fee_constants (empty_store demo_bank 7) BTCAsset
    (100 * 10 ^ 8) 30000 9000) as (k' & w & H1 & _ & H2); [reflexivity..|lia|lia|lia|lia|lia|lia|reflexivity|].
  exists k', w. split; [exact H1|exact H2].
Defined.

Definition demo_gas_mgr : GasMgr := mkGasMgr [] [mkOutAssetGas BTCAsset [NewCoin BTCAsset 2]] [(BTCAsset, 1)].

Lemma ProcessGas_keeps_backing_witness : exists gm' k',
  ProcessGas (S := sdk_std) demo_gas_mgr demo_plan_store = Ok (gm', k') /\
  deca_of k' ReserveName = 300 /\ deca_of k' AsgardName = 220 /\
  unpooled k' = unpooled demo_plan_store /\ protocol_deca k' = 520.
Proof.
  do 2 eexists. split; [vm_compute; reflexivity|]. do 2 (split; [vm_compute; reflexivity|]).
  match goal with |- unpooled ?k = _ /\ _ => set (k' := k) end.
  destruct (ProcessGas_keeps_backing (S := sdk_std) [BTCAsset] demo_gas_mgr demo_plan_store
    (mkGasMgr [mkGasPool BTCAsset 200 2 1] (outAssetGas demo_gas_mgr) (gasCount demo_gas_mgr)) k') as [H1 H2].
  - intros a. apply (so_pools demo_plan_store (proj1 demo_plan_ok)).
  - split; vm_compute; congruence.
  - reflexivity.
  - repeat constructor; vm_compute; congruence.
  - repeat constructor. apply not_elem_of_nil.
  - vm_compute. reflexivity.
  - split; [exact H1|]. rewrite H2. vm_compute. reflexivity.
Defined.
