(* ===== verification/ObservedStore.v ===== *)
(** Records of what the validators observe: the voters of outbound transactions,
    the links from inbounds to outbounds ([keeper_txin.go]), the last heights
    ([keeper_last_height.go]), the voters of network fees, solvency and errata
    ([keeper_observed_network_fee_voter.go], [keeper_solvency_voter.go],
    [keeper_errata.go]), the observing addresses ([keeper_observer.go]) and the
    observers of a block ([manager_observer_current.go]). *)
From S2P Require Import Prelude SdkMath GoStr Keys Shares Chains Assets Coins Bank Nodes Txs.
From S2P Require Import Voters Mimir Observed Pools Streaming Keeper.
Local Open Scope string_scope.
Local Open Scope Z_scope.

Definition prefixObservedTxOut : string := "observed_tx_out/".
Definition prefixObservedLink : string := "ob_link/".
Definition prefixLastChainHeight : string := "last_chain_height/".
Definition prefixLastSignedHeight : string := "last_signed_height/".
Definition prefixLastObserveHeight : string := "last_observe_height/".
Definition prefixObservingAddresses : string := "observing_addresses/".
Definition prefixErrataTx : string := "errata/".
Definition prefixNetworkFeeVoter : string := "network_fee_voter/".
Definition prefixSolvencyVoter : string := "solvency_voter/".

Section observed_store.
Context {B : Type} `{Bank B} {K : SdkKeys}.
Abbreviation Store := (KVStore B) (only parsing).

(** *** keeper_txin.go *)
Definition GetObservedTxOutVoter (k : Store) (hash : TxID) : ObservedTxVoter :=
  default (NewObservedTxVoter hash []) (kTxOutVoters k !! GetKey prefixObservedTxOut hash).
Definition SetObservedTxOutVoter (k : Store) (tx : ObservedTxVoter) : Store :=
  with_tx_out_voters k (<[GetKey prefixObservedTxOut (ovTxID tx) := tx]> (kTxOutVoters k)).

Definition link_key (inhash : TxID) : string := GetKey prefixObservedLink inhash.
Definition SetObservedLink (k : Store) (inhash outhash : TxID) : Store :=
  let record := default [] (getStrings k (link_key inhash)) in
  if existsb (String.eqb outhash) record then k
  else setStrings k (link_key inhash) (record ++ [outhash])%list.

(** Hashes that do not parse are left out. *)
Fixpoint parse_hashes (strs : list string) : list TxID :=
  match strs with
  | [] => []
  | s :: strs' => match NewTxID s with
                  | Ok hash => hash :: parse_hashes strs'
                  | _ => parse_hashes strs'
                  end
  end.
Definition GetObservedLink (k : Store) (inhash : TxID) : list TxID :=
  parse_hashes (default [] (getStrings k (link_key inhash))).

(** *** keeper_last_height.go *)
Definition GetLastSignedHeight (k : Store) : Z := getInt64 k (GetKey prefixLastSignedHeight "") 0.
Definition SetLastSignedHeight (k : Store) (height : Z) : Store :=
  if height <? GetLastSignedHeight k then k
  else setInt64 k (GetKey prefixLastSignedHeight "") height.

Definition GetLastChainHeight (k : Store) (chain : Chain) : Z :=
  getInt64 k (GetKey prefixLastChainHeight chain) 0.
Definition SetLastChainHeight (k : Store) (chain : Chain) (height : Z) : outcome Store :=
  if height <? GetLastChainHeight k chain then
    Err ("last block height " ++ itoa (GetLastChainHeight k chain) ++ " is larger than " ++
         itoa height ++ ", block height can't go backward ")
  else Ok (setInt64 k (GetKey prefixLastChainHeight chain) height).
Definition ForceSetLastChainHeight (k : Store) (chain : Chain) (height : Z) : Store :=
  setInt64 k (GetKey prefixLastChainHeight chain) height.

Definition observe_key (address : AccAddress) (chain : Chain) : string :=
  GetKey prefixLastObserveHeight (acc_string address ++ "/" ++ chain).
Definition SetLastObserveHeight (k : Store) (chain : Chain) (address : AccAddress) (height : Z) : Store :=
  if match kInts k !! observe_key address chain with Some last => height <? last | None => false end
  then k else setInt64 k (observe_key address chain) height.
Definition ForceSetLastObserveHeight (k : Store) (chain : Chain) (address : AccAddress) (height : Z) :
    Store := setInt64 k (observe_key address chain) height.

(** *** The other voters *)
Definition SetObservedNetworkFeeVoter (k : Store) (v : ObservedNetworkFeeVoter) : Store :=
  with_network_fee_voters k
    (<[GetKey prefixNetworkFeeVoter (ObservedNetworkFeeVoter_ID v) := v]> (kNetworkFeeVoters k)).
Definition GetObservedNetworkFeeVoter (k : Store) (height : Z) (chain : Chain) (rate size : Z) :
    ObservedNetworkFeeVoter :=
  let record := mkObservedNetworkFeeVoter 0 height chain [] (if 0 <? rate then rate else 0)
                  (if 0 <? size then size else 0) in
  default record
    (kNetworkFeeVoters k !! GetKey prefixNetworkFeeVoter (ObservedNetworkFeeVoter_ID record)).

Definition solvency_key (txID : TxID) (chain : Chain) : string :=
  GetKey prefixSolvencyVoter (chain ++ "-" ++ txID).
Definition SetSolvencyVoter (k : Store) (v : SolvencyVoter) : Store :=
  with_solvency_voters k (<[solvency_key (svId v) (svChain v) := v]> (kSolvencyVoters k)).
Definition GetSolvencyVoter (k : Store) (txID : TxID) (chain : Chain) : SolvencyVoter :=
  default (NewSolvencyVoter "" EmptyChain EmptyPubKey [] 0) (kSolvencyVoters k !! solvency_key txID chain).

(** [ErrataTxVoter.String] *)
Definition ErrataTxVoter_String (m : ErrataTxVoter) : string := evChain m ++ "-" ++ evTxID m.
Definition SetErrataTxVoter (k : Store) (errata : ErrataTxVoter) : Store :=
  with_errata_voters k (<[GetKey prefixErrataTx (ErrataTxVoter_String errata) := errata]> (kErrataVoters k)).
Definition GetErrataTxVoter (k : Store) (txID : TxID) (chain : Chain) : ErrataTxVoter :=
  let record := NewErrataTxVoter txID chain in
  default record (kErrataVoters k !! GetKey prefixErrataTx (ErrataTxVoter_String record)).

(** *** keeper_observer.go *)

(** The first occurrence of each address. *)
Fixpoint uniq_accs (seen : gset string) (l : list AccAddress) : list AccAddress :=
  match l with
  | [] => []
  | a :: l' =>
      if bool_decide (acc_string a ∈ seen) then uniq_accs seen l'
      else a :: uniq_accs ({[acc_string a]} ∪ seen) l'
  end.

Definition observing_key : string := GetKey prefixObservingAddresses "".
Definition GetObservingAddresses (k : Store) : list AccAddress := default [] (getStrings k observing_key).
Definition AddObservingAddresses (k : Store) (inAddresses : list AccAddress) : Store :=
  match inAddresses with
  | [] => k
  | _ => setStrings k observing_key (uniq_accs ∅ (GetObservingAddresses k ++ inAddresses))
  end.
Definition ClearObservingAddresses (k : Store) : Store := setStrings k observing_key [].
End observed_store.

(** ** The observers of a block

    A map from a chain to the addresses that observed it.  Neither loop over the
    map depends on its order: the first counts, the second sorts. *)
Abbreviation ObserverMgr := (gmap string (list AccAddress)) (only parsing).

Section observer.
Context {K : SdkKeys}.

Definition newObserverMgr : ObserverMgr := ∅.
Definition AppendObserver (om : ObserverMgr) (chain : Chain) (addrs : list AccAddress) : ObserverMgr :=
  <[chain := uniq_accs ∅ (default [] (om !! chain) ++ addrs)]> om.

(** [tracker[addr.String()]++] *)
Definition track (tracker : gmap string Z) (addr : AccAddress) : gmap string Z :=
  <[acc_string addr := default 0 (tracker !! acc_string addr) + 1]> tracker.
Definition observer_counts (om : ObserverMgr) : gmap string Z :=
  foldl (fun tracker p => foldl track tracker p.2) ∅ (map_to_list om).

(** An address that does not parse is the nil one. *)
Definition acc_or_nil (s : string) : AccAddress :=
  match acc_from_bech32 s with Ok a => a | _ => "" end.
Definition Observer_List (om : ObserverMgr) : list AccAddress :=
  stable_sort (fun a b => str_ltb (acc_string a) (acc_string b))
    (map (fun p => acc_or_nil p.1)
       (List.filter (fun p => Z.of_nat (size om) <=? p.2) (map_to_list (observer_counts om)))).
Definition Observer_EndBlock {B : Type} (om : ObserverMgr) (k : KVStore B) : ObserverMgr * KVStore B :=
  (∅, AddObservingAddresses k (Observer_List om)).
End observer.

(** ** The observers of a block are those who observed every chain *)
Section observer_props.
Context {K : SdkKeys} `{!SdkKeysOk K}.
Implicit Types om : ObserverMgr.

(** How often an address is in a list. *)
Definition occ (s : string) (l : list AccAddress) : Z :=
  sumZ (map (fun a => if String.eqb (acc_string a) s then 1 else 0) l).

Lemma track_count t a s : default 0 (track t a !! s) =
  default 0 (t !! s) + (if String.eqb (acc_string a) s then 1 else 0).
Proof using.
  unfold track. destruct (String.eqb_spec (acc_string a) s) as [<-|Hne].
  - by rewrite lookup_insert_eq.
  - rewrite lookup_insert_ne by done. lia.
Qed.

Lemma tracks_count l t s : default 0 (foldl track t l !! s) = default 0 (t !! s) + occ s l.
Proof using.
  unfold occ. revert t. induction l as [|a l IH]; intros t; simpl; [lia|]. rewrite IH, track_count. lia.
Qed.

Lemma pairs_count (ps : list (string * list AccAddress)) t s :
  default 0 (foldl (fun t p => foldl track t p.2) t ps !! s) =
    default 0 (t !! s) + sumZ (map (fun p => occ s p.2) ps).
Proof using.
  revert t. induction ps as [|p ps IH]; intros t; simpl; [lia|]. rewrite IH, tracks_count. lia.
Qed.

Lemma occ_nodup s l : NoDup (map acc_string l) ->
  occ s l = if bool_decide (s ∈ map acc_string l) then 1 else 0.
Proof using.
  unfold occ. induction l as [|a l IH]; simpl; [done|]. intros [Hni Hnd]%NoDup_cons.
  rewrite (IH Hnd). destruct (String.eqb_spec (acc_string a) s) as [<-|Hne].
  - rewrite bool_decide_eq_false_2 by done. by rewrite bool_decide_eq_true_2 by apply list_elem_of_here.
  - rewrite (bool_decide_ext (s ∈ map acc_string l) (s ∈ acc_string a :: map acc_string l)); [lia|].
    rewrite elem_of_cons. naive_solver.
Qed.

(** Every list counts once at most, so all of them only if each has it. *)
Lemma all_counted s (ps : list (string * list AccAddress)) :
  Forall (fun p => NoDup (map acc_string p.2)) ps ->
  let total := sumZ (map (fun p => occ s p.2) ps) in
  0 <= total <= len ps /\ (len ps <= total <-> Forall (fun p => s ∈ map acc_string p.2) ps).
Proof using.
  assert (Hcons : forall x l, sumZ (x :: l) = x + sumZ l) by done.
  cbv zeta. unfold len. induction 1 as [|p ps Hp Hps [IH1 IH2]]; cbn [map length]; rewrite ?Hcons.
  { split; [done|]. split; [by constructor|done]. }
  rewrite occ_nodup by done. case_bool_decide as Hin.
  - split; [lia|]. rewrite Forall_cons, <- IH2. split; [intros; split; [done|lia]|intros [_ ?]; lia].
  - split; [lia|]. rewrite Forall_cons. split; [intros; lia|by intros [? _] ].
Qed.

(** An observer manager as [AppendObserver] leaves it. *)
Definition observers_ok om : Prop :=
  map_Forall (fun _ l => Forall valid_acc l /\ NoDup (map acc_string l)) om.

Lemma uniq_accs_spec l seen : NoDup (map acc_string (uniq_accs seen l)) /\
  (forall a, a ∈ uniq_accs seen l -> a ∈ l /\ acc_string a ∉ seen) /\
  (forall a, a ∈ l -> acc_string a ∈ seen \/ acc_string a ∈ map acc_string (uniq_accs seen l)).
Proof.
  clear SdkKeysOk0. revert seen. induction l as [|b l IH]; intros seen; simpl.
  { split; [constructor|]. split; intros a Ha; by apply not_elem_of_nil in Ha. }
  case_bool_decide as Hb.
  - destruct (IH seen) as (H1 & H2 & H3). split; [done|]. split.
    + intros a Ha. destruct (H2 a Ha). split; [by right|done].
    + intros a [->|Ha]%elem_of_cons; [by left|by apply H3].
  - destruct (IH ({[acc_string b]} ∪ seen)) as (H1 & H2 & H3). simpl. split; [|split].
    + constructor; [|done]. intros (a & He & Ha)%list_elem_of_fmap. destruct (H2 a Ha) as [_ Hn].
      rewrite <- He in Hn. set_solver.
    + intros a [->|Ha]%elem_of_cons; [split; [by left|done]|]. destruct (H2 a Ha) as [? Hn].
      split; [by right|set_solver].
    + intros a [->|Ha]%elem_of_cons; [right; apply list_elem_of_here|].
      destruct (H3 a Ha) as [Hs|Hs]; [|right; by right].
      apply elem_of_union in Hs as [Hs%elem_of_singleton|Hs]; [right; rewrite Hs; apply list_elem_of_here|by left].
Qed.
Lemma counts_positive l t : map_Forall (fun _ n => 1 <= n) t ->
  map_Forall (fun _ n => 1 <= n) (foldl track t l).
Proof using.
  revert t. induction l as [|a l IH]; intros t Ht; simpl; [done|]. apply IH.
  unfold track. apply map_Forall_insert_2; [|done].
  destruct (t !! acc_string a) as [n|] eqn:He; simpl; [|lia]. specialize (Ht _ _ He). simpl in Ht. lia.
Qed.

(** An address counted as often as there are chains. *)
Lemma observed_all om s : observers_ok om ->
  (exists n, observer_counts om !! s = Some n /\ Z.of_nat (size om) <= n) <->
  om <> ∅ /\ forall chain l, om !! chain = Some l -> s ∈ map acc_string l.
Proof.
  intros Hok. unfold observer_counts.
  assert (Hnd : Forall (fun p => NoDup (map acc_string p.2)) (map_to_list om)).
  { apply Forall_forall. intros [c l] Hin. apply elem_of_map_to_list in Hin. by apply (Hok c l). }
  destruct (all_counted s (map_to_list om) Hnd) as [Hb Hall].
  pose proof (pairs_count (map_to_list om) ∅ s) as Hc. rewrite lookup_empty in Hc. simpl in Hc.
  assert (Hsize : Z.of_nat (size om) = len (map_to_list om)) by (unfold len; by rewrite length_map_to_list).
  assert (Hpos : map_Forall (fun _ n => 1 <= n) (foldl (fun t p => foldl track t p.2) ∅ (map_to_list om))).
  { assert (Hgen : forall ps t, map_Forall (fun _ n => 1 <= n) t ->
      map_Forall (fun _ n => 1 <= n) (foldl (fun t (p : string * list AccAddress) => foldl track t p.2) t ps)).
    { induction ps as [|p ps IH]; intros t Ht; simpl; [done|]. by apply IH, counts_positive. }
    apply Hgen. apply map_Forall_empty. }
  set (counts := foldl _ ∅ (map_to_list om)) in *. clearbody counts. rewrite Forall_forall in Hall.
  assert (Hiff : len (map_to_list om) <= default 0 (counts !! s) <->
    forall chain l, om !! chain = Some l -> s ∈ map acc_string l).
  { rewrite Hc, Z.add_0_l, Hall. split.
    - intros H chain l Hl. apply (H (chain, l)). by apply elem_of_map_to_list.
    - intros H [chain l] Hin. apply (H chain l). by apply elem_of_map_to_list. }
  rewrite <- Hiff, Hsize. split.
  - intros (n & Hn & Hle). rewrite Hn. split; [|done]. intros ->. rewrite map_to_list_empty in Hb.
    rewrite Hn in Hc. specialize (Hpos _ _ Hn). rewrite map_to_list_empty in Hc. simpl in Hc, Hpos. lia.
  - intros [Hne Hle]. destruct (counts !! s) as [n|] eqn:Hn; [by exists n|]. simpl in Hle.
    destruct (map_to_list om) as [|p ps] eqn:Hm; [by apply map_to_list_empty_iff in Hm|].
    unfold len in Hle. simpl in Hle. lia.
Qed.

(** The observers of a block that are recorded: the addresses that observed
    every chain anyone observed. *)
Theorem Observer_List_exact om a : observers_ok om ->
  a ∈ Observer_List om <->
  om <> ∅ /\ valid_acc a /\ forall chain l, om !! chain = Some l -> a ∈ l.
Proof.
  intros Hok. unfold Observer_List. rewrite stable_sort_perm, list_elem_of_fmap. split.
  - intros ([s n] & -> & Hin). apply list_elem_of_In, filter_In in Hin as [Hin Hle].
    apply list_elem_of_In, elem_of_map_to_list in Hin. apply Z.leb_le in Hle. simpl in Hle.
    destruct (proj1 (observed_all om s Hok) (ex_intro _ n (conj Hin Hle))) as [Hne Hall].
    destruct (map_choose om Hne) as (c & l & Hl).
    destruct (proj1 (list_elem_of_fmap _ _ _) (Hall c l Hl)) as (b & Hs & Hb).
    assert (Hvb : valid_acc b) by (eapply (proj1 (Forall_forall _ _)); [apply (Hok c l Hl)|done]).
    assert (Hsb : acc_or_nil s = b) by (unfold acc_or_nil; rewrite Hs; by rewrite acc_roundtrip).
    simpl. rewrite Hsb. split; [done|]. split; [done|]. intros c' l' Hl'.
    destruct (proj1 (list_elem_of_fmap _ _ _) (Hall c' l' Hl')) as (b' & Hs' & Hb').
    assert (Hvb' : valid_acc b') by (eapply (proj1 (Forall_forall _ _)); [apply (Hok c' l' Hl')|done]).
    rewrite (acc_string_inj b b'); [done..|congruence].
  - intros (Hne & Hv & Hall).
    destruct (proj2 (observed_all om (acc_string a) Hok)) as (n & Hn & Hle).
    { split; [done|]. intros c l Hl. by apply list_elem_of_fmap_2, (Hall c). }
    exists (acc_string a, n). split; [unfold acc_or_nil; simpl; by rewrite acc_roundtrip|].
    apply list_elem_of_In, filter_In. split; [by apply list_elem_of_In, elem_of_map_to_list|]. by apply Z.leb_le.
Qed.

(** The lists stay free of duplicates as observers are added. *)
Lemma AppendObserver_ok om chain addrs : observers_ok om -> Forall valid_acc addrs ->
  observers_ok (AppendObserver om chain addrs).
Proof.
  intros Hok Ha. unfold AppendObserver. apply map_Forall_insert_2; [|done].
  set (all := (default [] (om !! chain) ++ addrs)%list).
  assert (Hall : Forall valid_acc all).
  { apply Forall_app. split; [|done]. destruct (om !! chain) as [l|] eqn:Hl; simpl; [|constructor].
    by apply (Hok chain l Hl). }
  destruct (uniq_accs_spec all ∅) as (Hnd & Hin & _). split; [|done].
  rewrite Forall_forall in *. intros a Hina. apply Hall. by apply Hin.
Qed.
End observer_props.

(** Two chains; only the address seen on both is recorded. *)
Example Observer_List_both :
  Observer_List (AppendObserver (AppendObserver newObserverMgr "BTC" ["a"; "b"; "a"]) "ETH" ["b"; "c"]) = ["b"].
Proof. vm_compute. reflexivity. Qed.
