(* ===== verification/Settle.v ===== *)
(** Settling a swap of the advanced queue, and changing a limit swap:
    [refundTx], [unrefundableCoinCleanup] and [settleSwap] of
    [x/thorchain/helpers.go], [aggregators/dex.go] and
    [handler_modify_limit_swap.go].

    The outbound store, the memo parser, the events and the network address
    checks are parameters of the model.  The main results: a settled swap is
    gone from the store and from the index, every other swap stays; and a
    request to modify or cancel touches one swap, which the requester owns. *)
From S2P Require Import Prelude SdkMath GoStr Keys Shares Chains Assets Coins Bank Nodes Txs.
From S2P Require Import Decimal MemoTypes Voters Mimir Observed Pools Streaming Vaults Keeper LimitIndex VaultStore Swaps.
Local Open Scope string_scope.
Local Open Scope Z_scope.

Record Aggregator := mkAggregator { agChain : Chain; agAddress : string }.

(** What the queue gets from components outside the model.  A failing
    [TryAddTxOutItem] keeps the writes it made. *)
Record QueueEnv (St : Type) := mkQueueEnv {
  qeSpawnDerivedAsset : Asset -> St -> St;                     (* NetworkMgr() *)
  qeAnchorDepth : Asset -> St -> Z;                            (* NetworkMgr().CalcAnchor *)
  qeAssetOutboundFee : Asset -> option Z;                      (* GasMgr() *)
  qeIsChain : Address -> Chain -> bool;                        (* Address.IsChain *)
  qeTryAddTxOutItem : TxOutItem -> Z -> St -> St * outcome bool;  (* TxOutStore() *)
  qeParseMemo : string -> St -> Memo * goerr;                  (* ParseMemoWithTHORNames *)
  qeDexAggregators : list Aggregator;                          (* DexAggregators() *)
  qeValidateSwap : MsgSwap -> St -> outcome unit;              (* SwapHandler.validate *)
  qeRunSwap : MsgSwap -> St -> outcome (St * Z);               (* SwapHandler.RunWithEmit *)
  qeSimulation : bool;                                         (* isSimulationMode(ctx) *)
  qeConstant : string -> Z                                     (* the compiled-in constants *)
}.
Arguments mkQueueEnv {St}.
Arguments qeSpawnDerivedAsset {St}.
Arguments qeAnchorDepth {St}.
Arguments qeAssetOutboundFee {St}.
Arguments qeIsChain {St}.
Arguments qeTryAddTxOutItem {St}.
Arguments qeParseMemo {St}.
Arguments qeDexAggregators {St}.
Arguments qeValidateSwap {St}.
Arguments qeRunSwap {St}.
Arguments qeSimulation {St}.
Arguments qeConstant {St}.

(** The environment of the swapper, which drops a failed call's writes with
    the rest of the swap. *)
Definition swap_env {St} (env : QueueEnv St) : SwapEnv St :=
  mkSwapEnv (qeSpawnDerivedAsset env) (qeAssetOutboundFee env) (qeIsChain env)
    (fun toi clout k =>
       match qeTryAddTxOutItem env toi clout k with
       | (k', Ok ok) => Ok (ok, k')
       | (_, Err e) => Err e
       | (_, Panic) => Panic
       end)
    (qeSimulation env) (qeConstant env).

(** [strings.HasSuffix]. *)
Definition has_suffix (s suffix : string) : bool :=
  (String.length suffix <=? String.length s)%nat &&
  String.eqb (String.substring (String.length s - String.length suffix) (String.length suffix) s)
    suffix.

Definition FetchDexAggregator (contracts : list Aggregator) (chain : Chain) (suffix : string) :
    outcome string :=
  match contracts with
  | [] => Ok suffix
  | _ =>
      match List.find (fun agg => Chain_Equals chain (agChain agg) && has_suffix (agAddress agg) suffix)
              contracts with
      | Some agg => Ok (agAddress agg)
      | None => Err (suffix ++ " aggregator not found")
      end
  end.

(** type msg_modify_limit_swap *)
Record MsgModifyLimitSwap := mkMsgModifyLimitSwap {
  mlFrom : Address;
  mlSource : Coin;
  mlTarget : Coin;
  ModifiedTargetAmount : Z;
  mlSigner : AccAddress;
  DepositAsset : Asset;
  DepositAmount : Z
}.

(** The message whose place in the index is searched. *)
Definition limit_probe (source target : Coin) : MsgSwap :=
  mkMsgSwap (mkTx "" EmptyChain NoAddress NoAddress [source] [] "") (cAsset target) "" (cAmount target)
    "" 0 "" "" "" None SwapType_limit 0 0 0 (mkSwapState 0 0 0 0 0 0 0 0 0 [] []) SwapVersion_v1 0.

Section settle.
Context {B : Type} `{Bank B} {K : SdkKeys} {S : SdkMath}.
Context (env : QueueEnv (KVStore B)).
Abbreviation Store := (KVStore B) (only parsing).

Definition queue_config (k : Store) (name : string) : Z := GetConfigInt64 k name (qeConstant env name).

(** *** helpers.go *)

Definition unrefundableCoinCleanup (k : Store) (toi : TxOutItem) : outcome Store :=
  let coin := toCoin toi in
  if IsTradeAsset (cAsset coin) then Ok k
  else if negb (Asset_IsNative (cAsset coin)) then Ok k
  else if negb (String.eqb (GetModuleName toi) ReserveName) then
    match SendFromModuleToModule k (GetModuleName toi) ReserveName coin with
    | Ok k' => Ok k'
    | Err _ => Ok k
    | Panic => Panic
    end
  else Ok k.

(** The memo may name another address for refunds. *)
Definition refund_address (k : Store) (tx : Tx) (coin : Coin) : outcome Address :=
  match qeParseMemo env (txMemo tx) k with
  | (_, Some _) => Ok (txFrom tx)
  | (memo, None) =>
      Ok (if Memo_IsType memo TxSwap && negb (Address_IsEmpty (GetRefundAddress memo)) &&
             negb (IsTHORChain (GetChain (cAsset coin))) &&
             qeIsChain env (GetRefundAddress memo) (GetChain (cAsset coin))
          then GetRefundAddress memo else txFrom tx)
  end.

(** The keys of the vault the inbound was observed on, cleared when that vault
    is neither active nor retiring and holds too little. *)
Definition refund_vault (k : Store) (pk : PubKey) (coin : Coin) : outcome (PubKey * PubKey) :=
  if PubKey_IsEmpty pk then Ok ("", "")
  else
    vault ← wrap_err "fail to get vault: " (GetVault k pk);
    if negb (Vault_IsActive vault) && negb (IsRetiring vault) &&
       (cAmount (Vault_GetCoin vault (cAsset coin)) <? cAmount coin)
    then Ok ("", "") else Ok (vPubKey vault, PubKeyEddsa vault).

(** One round of the loop of [refundTx]: a coin without a pool is dropped. *)
Definition refund_coin (k : Store) (tx : ObservedTx) (sourceModuleName : string) (coin : Coin) :
    outcome Store :=
  let asset := cAsset coin in
  if IsTradeAsset asset || IsSecuredAsset asset then Ok k
  else if Coin_IsDeca coin && Chain_Equals (GetChain asset) ETHChain then Ok k
  else
    let pool := GetPool k (GetLayer1Asset asset) in
    if Coin_IsDeca coin || negb (BalanceDeca pool =? 0) then
      toAddr ← refund_address k (otTx tx) coin;
      '(pk, pkEddsa) ← refund_vault k (ObservedPubKey tx) coin;
      let toi := mkTxOutItem (GetChain asset) toAddr pk coin ("REFUND:" ++ txID (otTx tx)) "" [] 0
        (txID (otTx tx)) "" sourceModuleName "" "" (Some 0) None pkEddsa in
      match qeTryAddTxOutItem env toi 0 k with
      | (_, Panic) => Panic
      | (k, Err _) => unrefundableCoinCleanup k toi
      | (k, Ok _) => Ok k
      end
    else Ok k.

Fixpoint refund_coins (k : Store) (tx : ObservedTx) (sourceModuleName : string) (coins : Coins) :
    outcome Store :=
  match coins with
  | [] => Ok k
  | coin :: coins => k ← refund_coin k tx sourceModuleName coin; refund_coins k tx sourceModuleName coins
  end.

(** The refund event is not modelled. *)
Definition refundTx (k : Store) (tx : ObservedTx) (sourceModuleName : string) : outcome Store :=
  refund_coins k tx sourceModuleName (txCoins (otTx tx)).

(** The outbound of what the swap has emitted so far; savers adds and
    simulations send nothing. *)
Definition settle_outbound (k : Store) (msg : MsgSwap) : outcome Store :=
  if stOut (State msg) =? 0 then Ok k
  else
    let send :=
      let dexAgg :=
        if String.eqb (mAggregator msg) "" then ""
        else match FetchDexAggregator (qeDexAggregators env) (GetChain (TargetAsset msg)) (mAggregator msg) with
             | Ok a => a
             | _ => ""
             end in
      let toi := mkTxOutItem (GetChain (TargetAsset msg)) (Destination msg) ""
        (NewCoin (TargetAsset msg) (stOut (State msg))) "" "" [] 0 (txID (mTx msg)) "" "" dexAgg
        (AggregatorTargetAddress msg) (AggregatorTargetLimit msg) (Some 0) "" in
      match qeTryAddTxOutItem env toi 0 k with
      | (_, Panic) => Panic
      | (k, Err _) => unrefundableCoinCleanup k toi
      | (k, Ok _) => Ok k
      end in
    match qeParseMemo env (txMemo (mTx msg)) k with
    | (_, Some _) => if qeSimulation env then Ok k else send
    | (memo, None) => if Memo_IsType memo TxAdd || qeSimulation env then Ok k else send
    end.

Definition with_coins (tx : Tx) (cs : Coins) : Tx :=
  mkTx (txID tx) (txChain tx) (txFrom tx) (txTo tx) cs (txGas tx) (txMemo tx).

(** An [ObservedTx] with the fields [settleSwap] fills in. *)
Definition plain_observed (tx : Tx) (pk : PubKey) : ObservedTx :=
  mkObservedTx tx Status_incomplete [] 0 [] pk 0 0 "" "" None.

(** The refund of what was never swapped. *)
Definition settle_remainder (k : Store) (msg : MsgSwap) : outcome Store :=
  if stIn (State msg) <? stDeposit (State msg) then
    remainder ← SafeSub (stDeposit (State msg)) (stIn (State msg));
    match txCoins (mTx msg) with
    | [] => Panic
    | coin :: _ =>
        let tx := with_coins (mTx msg) [NewCoin (cAsset coin) remainder] in
        let voter := GetObservedTxInVoter k (txID (mTx msg)) in
        let pk := if ObservedTx_IsEmpty (ovTx voter) then "" else ObservedPubKey (ovTx voter) in
        wrap_err "fail to refund swap remainder: " (refundTx k (plain_observed tx pk) "")
    end
  else Ok k.

Definition settleSwapCached (k : Store) (msg : MsgSwap) : outcome Store :=
  k ← settle_outbound k msg;
  k ← settle_remainder k msg;
  remove_settled k msg.

(** [settleSwap] commits the cached context on success only: an error carries
    no state. *)
Definition settleSwap (k : Store) (msg : MsgSwap) : outcome Store := settleSwapCached k msg.

(** *** handler_modify_limit_swap.go *)

Definition MsgModifyLimitSwap_ValidateBasic (m : MsgModifyLimitSwap) : goerr :=
  if acc_empty (mlSigner m) then Some (acc_string (mlSigner m))
  else match Coin_Valid (mlSource m) with
  | Some e => Some e
  | None => match Coin_Valid (mlTarget m) with
  | Some e => Some e
  | None =>
      let asset := cAsset (mlSource m) in
      if Asset_Equals asset (cAsset (mlTarget m)) then
        Some "source asset and target asset cannot be the same"
      else if negb (qeIsChain env (mlFrom m) (GetChain asset)) then
        Some "from address and source asset do not match"
      else if IsTHORChain (GetChain asset) then
        match acc_from_bech32 (mlFrom m) with
        | Ok frm =>
            if acc_equals frm (mlSigner m) then None
            else Some "from and signer address must match when source asset is native"
        | _ => Some "invalid address"
        end
      else None
  end end.

(** The first of the indexed items that [from] created; looking further than
    [maxIterations] is an error. *)
Fixpoint find_own_swap (k : Store) (from : Address) (i maxIterations : Z) (items : list (TxID * Z)) :
    outcome (option MsgSwap) :=
  match items with
  | [] => Ok None
  | (id, index) :: items =>
      if maxIterations <=? i then
        Err ("swap index too large, exceeded max iterations (" ++ itoa maxIterations ++ ")")
      else match GetAdvSwapQueueItem k id index with
           | Panic => Panic
           | Err _ => find_own_swap k from (i + 1) maxIterations items
           | Ok msgSwap =>
               if Address_Equals (txFrom (mTx msgSwap)) from then Ok (Some msgSwap)
               else find_own_swap k from (i + 1) maxIterations items
           end
  end.

Definition cancelLimitSwap (k : Store) (msgSwap : MsgSwap) : outcome Store := settleSwap k msgSwap.

Definition donateToPool (k : Store) (asset : Asset) (amount : Z) : outcome Store :=
  if IsDeca asset then Ok k
  else
    let pool := GetPool k (GetLayer1Asset asset) in
    if Pool_IsEmpty pool then Err ("pool does not exist for asset " ++ Asset_String asset)
    else
      k ← (if Asset_IsNative asset then
             wrap_err "fail to transfer funds from reserve to asgard: "
               (SendFromModuleToModule k ReserveName AsgardName (NewCoin asset amount))
           else Ok k);
      balance ← uint_add (BalanceAsset pool) amount;
      wrap_err "fail to save pool: " (SetPool k (with_balances pool (BalanceDeca pool) balance)).

Definition modify_handle (k : Store) (msg : MsgModifyLimitSwap) : outcome Store :=
  items ← GetAdvSwapQueueIndex k (limit_probe (mlSource msg) (mlTarget msg));
  found ← find_own_swap k (mlFrom msg) 0 (queue_config k "ModifyLimitSwapMaxIterations") items;
  match found with
  | None => Err "could not find matching limit swap"
  | Some msgSwap =>
      k ← (if ModifiedTargetAmount msg =? 0 then cancelLimitSwap k msgSwap
           else modifyLimitSwap k msgSwap (ModifiedTargetAmount msg));
      if negb (DepositAmount msg =? 0) && negb (Asset_IsEmpty (DepositAsset msg)) then
        wrap_err "fail to donate modification tx funds to pool: "
          (donateToPool k (DepositAsset msg) (DepositAmount msg))
      else Ok k
  end.

(** [Run]; [NewInternalHandler] commits on success only. *)
Definition modify_Run (k : Store) (msg : MsgModifyLimitSwap) : outcome Store :=
  _ ← check (MsgModifyLimitSwap_ValidateBasic msg);
  modify_handle k msg.
End settle.

(** ** What settling does to the store, before the swap is removed

    Refunds and outbounds change the store through the bank and through
    [TryAddTxOutItem] only: whatever relation these two respect holds across. *)
Section settle_effects.
Context {B : Type} `{Bank B} {K : SdkKeys} {S : SdkMath}.
Abbreviation Store := (KVStore B) (only parsing).
Context (env : QueueEnv Store) (R : relation Store) `{!PreOrder R}.
Hypothesis R_bank : forall k b, R k (with_bank k b).
Hypothesis R_try_add : forall toi clout k, R k (fst (qeTryAddTxOutItem env toi clout k)).
Implicit Types k : Store.

Lemma cleanup_R k toi k' : unrefundableCoinCleanup k toi = Ok k' -> R k k'.
Proof using R_bank PreOrder0.
  unfold unrefundableCoinCleanup, SendFromModuleToModule. intros Hc.
  repeat case_match; simplify_eq; try done;
    match goal with Hb : (_ ≫= _) = Ok _ |- _ => apply bind_Ok_inv in Hb as (b & _ & [= <-]) end;
    apply R_bank.
Qed.

(** An outbound that is tried, and cleaned up after when it fails. *)
Lemma try_add_cleanup_R k toi clout k' :
  match qeTryAddTxOutItem env toi clout k with
  | (_, Panic) => Panic
  | (k, Err _) => unrefundableCoinCleanup k toi
  | (k, Ok _) => Ok k
  end = Ok k' -> R k k'.
Proof.
  pose proof (R_try_add toi clout k) as Hg.
  destruct (qeTryAddTxOutItem env toi clout k) as [k1 [ok|e|] ]; simpl in *; [| |done].
  - by intros [= <-].
  - intros Hc%cleanup_R. by etrans.
Qed.

Lemma refund_coin_R k tx m coin k' : refund_coin env k tx m coin = Ok k' -> R k k'.
Proof.
  unfold refund_coin. repeat (case_match; try (intros; by simplify_eq)).
  intros (toAddr & _ & Hk)%bind_Ok_inv. apply bind_Ok_inv in Hk as ([pk pke] & _ & Hk).
  by eapply try_add_cleanup_R.
Qed.

Lemma refundTx_R k tx m k' : refundTx env k tx m = Ok k' -> R k k'.
Proof.
  unfold refundTx. generalize (txCoins (otTx tx)) as cs. intros cs. revert k.
  induction cs as [|c cs IH]; intros k; simpl; [by intros [= <-]|].
  intros (k1 & H1%refund_coin_R & H2%IH)%bind_Ok_inv. by etrans.
Qed.

Lemma settle_outbound_R k msg k' : settle_outbound env k msg = Ok k' -> R k k'.
Proof.
  unfold settle_outbound. destruct (stOut (State msg) =? 0); [by intros [= <-]|].
  destruct (qeParseMemo env (txMemo (mTx msg)) k) as [memo [e|] ];
    case_match; try (by intros [= <-]); apply try_add_cleanup_R.
Qed.

Lemma settle_remainder_R k msg k' : settle_remainder env k msg = Ok k' -> R k k'.
Proof.
  unfold settle_remainder. case_match; [|by intros [= <-] ].
  intros (r & _ & Hk)%bind_Ok_inv. destruct (txCoins (mTx msg)); [done|].
  apply wrap_err_Ok in Hk. by eapply refundTx_R.
Qed.
End settle_effects.

(** ** What settling does to the queue *)

Section settle_queue.
Context {B : Type} `{Bank B} {K : SdkKeys} {S : SdkMath}.
Abbreviation Store := (KVStore B) (only parsing).
Implicit Types k : Store.

(** New swaps may be queued, nothing else happens to the queue. *)
Inductive enqueue_step : Store -> Store -> Prop :=
| enqueue_add k msg k' :
    canonical_id msg -> HasAdvSwapQueueItem k (txID (mTx msg)) (mIndex msg) = false ->
    SetAdvSwapQueueItem k msg = Ok k' -> enqueue_step k k'
| enqueue_other k k' :
    kAdvSwapQueue k' = kAdvSwapQueue k ->
    (forall key, is_index_key key = true -> index_record k' key = index_record k key) ->
    enqueue_step k k'.

Definition queue_grows : Store -> Store -> Prop := rtc enqueue_step.

#[export] Instance queue_grows_preorder : PreOrder queue_grows.
Proof. unfold queue_grows. apply _. Qed.

Lemma queue_same_grows k k' :
  kAdvSwapQueue k' = kAdvSwapQueue k -> kStrings k' = kStrings k -> queue_grows k k'.
Proof.
  intros Ha Hs. apply rtc_once, enqueue_other; [done|]. intros key _. unfold index_record, getStrings.
  by rewrite Hs.
Qed.

(** What the outbound store, the memo parser and the swap handler may do to
    the queue. *)
Class QueueEnvOk (env : QueueEnv Store) : Prop := {
  try_add_grows toi clout k : queue_grows k (fst (qeTryAddTxOutItem env toi clout k));
  run_swap_grows msg k k' emit : qeRunSwap env msg k = Ok (k', emit) -> queue_grows k k'
}.

Lemma SendFromModuleToModule_bank k from to c k' : SendFromModuleToModule k from to c = Ok k' ->
  exists b, k' = with_bank k b.
Proof. unfold SendFromModuleToModule. intros (b & _ & [= <-])%bind_Ok_inv. by exists b. Qed.

Lemma SetPool_same k p k' : SetPool k p = Ok k' ->
  kAdvSwapQueue k' = kAdvSwapQueue k /\ kStrings k' = kStrings k.
Proof. unfold SetPool. by case_match; intros; simplify_eq/=. Qed.

Lemma donate_same k asset amount k' : donateToPool k asset amount = Ok k' ->
  kAdvSwapQueue k' = kAdvSwapQueue k /\ kStrings k' = kStrings k.
Proof.
  unfold donateToPool. case_match; [intros; simplify_eq; done|]. case_match; [done|].
  intros (k1 & Hk1 & Hk)%bind_Ok_inv. apply bind_Ok_inv in Hk as (b & _ & Hk).
  apply wrap_err_Ok, SetPool_same in Hk as [Ha Hs].
  assert (kAdvSwapQueue k1 = kAdvSwapQueue k /\ kStrings k1 = kStrings k) as [Ha1 Hs1].
  { case_match; [|by simplify_eq]. apply wrap_err_Ok in Hk1.
    by apply SendFromModuleToModule_bank in Hk1 as [bk ->]. }
  split; congruence.
Qed.

(** An enqueued swap takes a fresh key. *)
Lemma Set_items k msg k' : SetAdvSwapQueueItem k msg = Ok k' ->
  kAdvSwapQueue k' = <[adv_item_key (txID (mTx msg)) (mIndex msg) := msg]> (kAdvSwapQueue k).
Proof.
  unfold SetAdvSwapQueueItem. repeat case_match; try done.
  intros (k1 & Hset & [= <-])%bind_Ok_inv. apply SetIndex_spec in Hset as (key & _ & [m ->] & _). done.
Qed.

Lemma enqueue_step_ok k k' : enqueue_step k k' -> queue_ok None k ->
  queue_ok None k' /\ kAdvSwapQueue k ⊆ kAdvSwapQueue k'.
Proof.
  intros Hs Hok. split.
  - apply (queue_step_ok k k'); [|done]. destruct Hs; [by eapply queue_add|by eapply queue_other].
  - destruct Hs as [k msg k' _ Hn Hset|k k' Ha _]; [|by rewrite Ha].
    rewrite (Set_items _ _ _ Hset). apply insert_subseteq.
    unfold HasAdvSwapQueueItem in Hn. case_bool_decide as Hs; [done|]. by apply eq_None_not_Some.
Qed.

Lemma queue_grows_ok k k' : queue_grows k k' -> queue_ok None k ->
  queue_ok None k' /\ kAdvSwapQueue k ⊆ kAdvSwapQueue k'.
Proof.
  intros Hg. induction Hg as [|k k1 k2 Hs Hg IH]; [done|]. intros Hok.
  destruct (enqueue_step_ok _ _ Hs Hok) as [Hok1 Hsub]. destruct (IH Hok1) as [? ?].
  split; [done|]. by etrans.
Qed.

Lemma settle_grows (env : QueueEnv Store) {Henv : QueueEnvOk env} k k1 k2 msg :
  settle_outbound env k msg = Ok k1 -> settle_remainder env k1 msg = Ok k2 -> queue_grows k k2.
Proof.
  assert (forall k b, queue_grows k (with_bank k b)) as Hb by (intros; by apply queue_same_grows).
  intros H1%(settle_outbound_R env queue_grows Hb (try_add_grows (env := env)))
    H2%(settle_remainder_R env queue_grows Hb (try_add_grows (env := env))). by etrans.
Qed.

Context (env : QueueEnv Store) {Henv : QueueEnvOk env}.

(** Removing what a message stands for: the item goes, the others stay. *)
Lemma remove_settled_items k msg k' : remove_settled k msg = Ok k' ->
  kAdvSwapQueue k' = delete (adv_item_key (txID (mTx msg)) (mIndex msg)) (kAdvSwapQueue k).
Proof.
  unfold remove_settled. intros (k1 & H1 & Hk)%bind_Ok_inv.
  apply bind_Ok_inv in Hk as ([k2 e] & H2 & [= <-]).
  assert (forall k m k1, RemoveAdvSwapQueueIndex k m = Ok k1 -> kAdvSwapQueue k1 = kAdvSwapQueue k) as Hidx.
  { clear. intros k m k1 (key & _ & [s ->] & _)%RemoveIndex_spec. done. }
  assert (kAdvSwapQueue k1 = kAdvSwapQueue k) as Ha.
  { destruct (RemoveAdvSwapQueueIndex k msg) eqn:E; simplify_eq; eauto. }
  unfold RemoveAdvSwapQueueItem in H2. apply bind_Ok_inv in H2 as ([k3 e3] & H3 & [= <- <-]). simpl.
  rewrite <- Ha. f_equal.
  destruct (GetAdvSwapQueueItem k1 _ _) as [m|er|] eqn:Eg; [|by simplify_eq|done].
  destruct (RemoveAdvSwapQueueIndex k1 m) eqn:E; simplify_eq; eauto.
Qed.

(** Settling a swap that is stored, with whatever state it has reached. *)
Lemma settleSwap_spec k id i msg st k' : queue_ok None k ->
  GetAdvSwapQueueItem k id i = Ok msg -> settleSwap env k (with_state msg st) = Ok k' ->
  queue_ok None k' /\ kAdvSwapQueue k' !! adv_item_key id i = None /\
  delete (adv_item_key id i) (kAdvSwapQueue k) ⊆ kAdvSwapQueue k'.
Proof.
  intros Hok Hg. unfold settleSwap, settleSwapCached.
  intros (k1 & H1 & Hk)%bind_Ok_inv. apply bind_Ok_inv in Hk as (k2 & H2 & H3).
  destruct (queue_grows_ok k k2) as [Hok2 Hsub]; [by eapply settle_grows|done|].
  destruct (item_key_of _ _ _ _ _ Hok Hg) as [HK Hm].
  assert (GetAdvSwapQueueItem k2 id i = Ok msg) as Hg2.
  { unfold GetAdvSwapQueueItem. rewrite HK. by rewrite (lookup_weaken _ _ _ _ Hm Hsub). }
  pose proof (settled_ok _ _ _ _ _ _ Hok2 Hg2 H3) as Hok'.
  apply remove_settled_items in H3.
  change (adv_item_key (txID (mTx (with_state msg st))) (mIndex (with_state msg st)))
    with (adv_item_key (txID (mTx msg)) (mIndex msg)) in H3. rewrite <- HK in H3.
  split; [done|]. rewrite H3. split; [apply lookup_delete_eq|]. by apply delete_mono.
Qed.
End settle_queue.

(** ** Changing a limit swap *)

Section modify.
Context {B : Type} `{Bank B} {K : SdkKeys} {S : SdkMath}.
Abbreviation Store := (KVStore B) (only parsing).
Context (env : QueueEnv Store) {Henv : QueueEnvOk env}.
Implicit Types k : Store.

Lemma find_own_swap_spec k from i hi items m : find_own_swap k from i hi items = Ok (Some m) ->
  exists id index, (id, index) ∈ items /\ GetAdvSwapQueueItem k id index = Ok m /\
    Address_Equals (txFrom (mTx m)) from = true.
Proof.
  revert i. induction items as [|[id index] items IH]; intros i; simpl; [done|].
  case_match; [done|]. destruct (GetAdvSwapQueueItem k id index) as [m'|e|] eqn:Eg; [| |done].
  - destruct (Address_Equals (txFrom (mTx m')) from) eqn:Ea.
    + intros [= ->]. exists id, index. split; [by left|done].
    + intros (id' & i' & Hin & ?)%IH. exists id', i'. split; [by right|done].
  - intros (id' & i' & Hin & ?)%IH. exists id', i'. split; [by right|done].
Qed.

(** What an entry of the index resolves to. *)
Lemma index_entry k probe key l id i m : queue_ok None k ->
  getAdvSwapQueueIndexKey probe = Ok key -> GetAdvSwapQueueIndex k probe = Ok l -> (id, i) ∈ l ->
  GetAdvSwapQueueItem k id i = Ok m -> getAdvSwapQueueIndexKey m = Ok key.
Proof.
  intros Hok Hkey Hl Hin Hg. unfold GetAdvSwapQueueIndex in Hl. rewrite Hkey in Hl.
  injection Hl as <-. apply list_elem_of_omap in Hin as (r & Hr & Hp).
  pose proof (index_key_is_index _ _ Hkey) as Hik.
  destruct (qo_back _ _ Hok key r Hik Hr) as (m' & Hm' & <- & Hk' & _).
  destruct (qo_items _ _ Hok _ _ Hm') as (_ & Hid & _).
  rewrite parse_swap_item_id in Hp by done. injection Hp as <- <-.
  unfold GetAdvSwapQueueItem, adv_item_key in Hg. unfold swap_item_id in Hm'.
  rewrite Hm' in Hg. by injection Hg as <-.
Qed.

Lemma modifyLimitSwap_items k m target k' : modifyLimitSwap k m target = Ok k' ->
  kAdvSwapQueue k' =
    <[adv_item_key (txID (mTx m)) (mIndex m) := with_target m target]> (kAdvSwapQueue k).
Proof.
  unfold modifyLimitSwap. intros (k1 & H1 & H2)%bind_Ok_inv. rewrite (Set_items _ _ _ H2).
  apply RemoveIndex_spec in H1 as (key & _ & [s ->] & _). done.
Qed.

(** C22. A request to modify or cancel a limit swap succeeds only by touching one
    swap, which the requester created and which stands at the price and pair
    the request names: that swap gets the new limit, or leaves the store when
    the new limit is zero; every other swap of the queue stays as it was, and
    the index still lists exactly the stored swaps. *)
Theorem modify_touches_own_swap k msg k' : queue_ok None k ->
  modify_Run env k msg = Ok k' ->
  queue_ok None k' /\
  exists own,
    kAdvSwapQueue k !! adv_item_key (txID (mTx own)) (mIndex own) = Some own /\
    Address_Equals (txFrom (mTx own)) (mlFrom msg) = true /\
    getAdvSwapQueueIndexKey own = getAdvSwapQueueIndexKey (limit_probe (mlSource msg) (mlTarget msg)) /\
    kAdvSwapQueue k' !! adv_item_key (txID (mTx own)) (mIndex own) =
      (if ModifiedTargetAmount msg =? 0 then None
       else Some (with_target own (ModifiedTargetAmount msg))) /\
    delete (adv_item_key (txID (mTx own)) (mIndex own)) (kAdvSwapQueue k) ⊆ kAdvSwapQueue k'.
Proof.
  intros Hok. unfold modify_Run. intros (_ & _ & Hh)%bind_Ok_inv. unfold modify_handle in Hh.
  apply bind_Ok_inv in Hh as (items & Hitems & Hh). apply bind_Ok_inv in Hh as (found & Hf & Hh).
  destruct found as [own|]; [|done]. apply bind_Ok_inv in Hh as (k1 & H1 & H2).
  apply find_own_swap_spec in Hf as (id & i & Hin & Hg & Hown).
  pose proof Hitems as Hprobe. unfold GetAdvSwapQueueIndex in Hprobe.
  apply bind_Ok_inv in Hprobe as (key & Hkey & _).
  pose proof (index_entry _ _ _ _ _ _ _ Hok Hkey Hitems Hin Hg) as Hok1.
  destruct (item_key_of _ _ _ _ _ Hok Hg) as [HK Hm].
  set (KK := adv_item_key (txID (mTx own)) (mIndex own)) in *.
  assert (queue_ok None k1 /\
    kAdvSwapQueue k1 !! KK = (if ModifiedTargetAmount msg =? 0 then None
       else Some (with_target own (ModifiedTargetAmount msg))) /\
    delete KK (kAdvSwapQueue k) ⊆ kAdvSwapQueue k1) as (Hq1 & Hi1 & Hd1).
  { destruct (ModifiedTargetAmount msg =? 0).
    - unfold cancelLimitSwap in H1. rewrite <- (with_state_id own) in H1.
      destruct (settleSwap_spec env _ _ _ _ _ _ Hok Hg H1) as (? & Hn & Hd). by rewrite <- HK.
    - pose proof (modify_ok _ _ _ _ _ _ Hok Hg H1) as Hq. split; [done|].
      rewrite (modifyLimitSwap_items _ _ _ _ H1). fold KK. rewrite lookup_insert_eq. split; [done|].
      rewrite <- (insert_delete_eq (kAdvSwapQueue k)). apply insert_subseteq, lookup_delete_eq. }
  assert (queue_same : kAdvSwapQueue k' = kAdvSwapQueue k1 /\ kStrings k' = kStrings k1).
  { destruct (negb _ && negb _) in H2; [|by injection H2 as <-].
    by eapply donate_same, wrap_err_Ok. }
  destruct queue_same as [Ha Hs].
  split; [by destruct (queue_grows_ok k1 k'); [apply queue_same_grows|done|]|].
  exists own. rewrite Ha. split_and!; try done. by rewrite Hok1, Hkey.
Qed.
End modify.

(** ** The properties at concrete inputs *)

Definition demo_queue_env : QueueEnv (KVStore SimpleBank) :=
  mkQueueEnv (fun _ k => k) (fun _ _ => 0) (fun _ => Some 40) (fun _ _ => true)
    (fun _ _ k => (k, Ok true)) (fun _ _ => (EmptyMemo, Some "no memo")) [] (fun _ _ => Ok tt)
    (fun _ k => Ok (k, 7)) false (fun _ => 100).

#[export] Instance demo_queue_env_ok : QueueEnvOk demo_queue_env.
Proof. split; simpl; [done|]. by intros ? ? ? ? [= <- _]. Qed.

Lemma demo_queue_ok : queue_ok None demo_queue_3.
Proof. eapply queue_reachable_ok; [|exact demo_queue_steps]. by split. Qed.

Definition demo_modify (target : Z) : MsgModifyLimitSwap :=
  mkMsgModifyLimitSwap "a" (mkCoin BTCAsset 3 0) (mkCoin ETHAsset 100 0) target "s" EmptyAsset 0.
Definition demo_modified (target : Z) : KVStore SimpleBank :=
  ok_or demo_queue_0 (modify_Run demo_queue_env demo_queue_3 (demo_modify target)).

Lemma modify_touches_own_swap_witness :
  modify_Run demo_queue_env demo_queue_3 (demo_modify 50) = Ok (demo_modified 50) /\
  queue_ok None (demo_modified 50) /\
  TradeTarget <$> (kAdvSwapQueue (demo_modified 50) !! adv_item_key demo_hash 0) = Some 50 /\
  TradeTarget <$> (kAdvSwapQueue (demo_modified 50) !! adv_item_key demo_hash 1) = Some 800.
Proof.
  assert (modify_Run demo_queue_env demo_queue_3 (demo_modify 50) = Ok (demo_modified 50)) as Hrun
    by (vm_compute; reflexivity).
  split; [exact Hrun|].
  destruct (modify_touches_own_swap demo_queue_env demo_queue_3 (demo_modify 50) (demo_modified 50)
    demo_queue_ok Hrun) as [Hok _].
  split; [exact Hok|]. split; vm_compute; reflexivity.
Defined.
