(* ===== verification/SwapQueue.v ===== *)
(** The advanced swap queue, [x/thorchain/manager_adv_swap_queue_current.go]
    with [limit_swap_ttl.go]: which swaps of the queue are picked in a block,
    how they are executed and settled, and how limit swaps expire.

    The swap handler, the outbound store and the memo parser are parameters
    ([QueueEnv]); the copy of a message made by marshalling it is the message
    itself, and telemetry is not modelled. *)
From S2P Require Import Prelude SdkMath GoStr Keys Shares Chains Assets Coins Bank Nodes Txs.
From S2P Require Import Decimal MemoTypes Voters Mimir Observed Pools Streaming SwapSort SwapCalc Vaults Keeper.
From S2P Require Import LimitIndex Halt VaultStore Swaps Settle.
Local Open Scope string_scope.
Local Open Scope Z_scope.

Inductive SwapDirection := RuneToAsset | AssetToRune.
#[export] Instance SwapDirection_eq_dec : EqDecision SwapDirection.
Proof. solve_decision. Defined.

Record swapDirEntry := mkSwapDirEntry { sdPool : string; sdDirection : SwapDirection }.
Abbreviation poolSwapDir := (gmap string SwapDirection) (only parsing).

Definition source_coin (msg : MsgSwap) : outcome Coin :=
  match txCoins (mTx msg) with c :: _ => Ok c | [] => Panic end.

Definition getSwapDirections (msg : MsgSwap) : outcome (list swapDirEntry) :=
  coin ← source_coin msg;
  let source := GetLayer1Asset (cAsset coin) in
  let target := GetLayer1Asset (TargetAsset msg) in
  Ok (if IsDeca source then [mkSwapDirEntry (Asset_String target) RuneToAsset]
      else if IsDeca target then [mkSwapDirEntry (Asset_String source) AssetToRune]
      else [mkSwapDirEntry (Asset_String source) AssetToRune;
            mkSwapDirEntry (Asset_String target) RuneToAsset]).

Definition shouldSkipRapidSwapDirection (msg : MsgSwap) (lastPoolDir : poolSwapDir) (iteration : Z) :
    outcome bool :=
  if (iteration =? 0) || negb (IsMarketSwap msg) then Ok false
  else
    dirs ← getSwapDirections msg;
    Ok (existsb (fun d => bool_decide (lastPoolDir !! sdPool d = Some (sdDirection d))) dirs).

(** limit_swap_ttl.go; [int64] of an interval that is at most [maxAge]. *)
Definition getLimitSwapTTL (msg : MsgSwap) (maxAge : Z) : Z :=
  if maxAge <=? 0 then 0
  else if (0 <? stInterval (State msg)) && (stInterval (State msg) <=? u64 maxAge)
  then i64 (stInterval (State msg)) else maxAge.

Definition parseRatioFromKey (key : string) : outcome Z :=
  let parts := split_on "/" key in
  if (length parts <? 5)%nat then Err "invalid key format"
  else ParseUint (nth (length parts - 2) parts "").

Definition with_initial_height (m : MsgSwap) (h : Z) : MsgSwap :=
  mkMsgSwap (mTx m) (TargetAsset m) (Destination m) (TradeTarget m) (AffiliateAddress m)
    (AffiliateBasisPoints m) (mSigner m) (mAggregator m) (AggregatorTargetAddress m)
    (AggregatorTargetLimit m) (mSwapType m) (StreamQuantity m) (StreamInterval m) h (State m)
    (mVersion m) (mIndex m).
Definition with_plan (s : SwapState) (interval quantity deposit : Z) : SwapState :=
  mkSwapState interval quantity (stTtl s) (stCount s) (stLastHeight s) deposit (stWithdrawn s)
    (stIn s) (stOut s) (stFailedSwaps s) (stFailedSwapReasons s).

Section scoring.
Context {S : SdkMath}.

(** The fee is in RUNE. *)
Definition getLiquidityFeeAndSlip (pool : Pool) (sourceCoin : Coin) (item : swapItem)
    (virtualDepthMult : Z) : outcome swapItem :=
  let x := cAmount sourceCoin in
  let '(X, Y) :=
    if Coin_IsDeca sourceCoin then (BalanceDeca pool, BalanceAsset pool)
    else (BalanceAsset pool, BalanceDeca pool) in
  X ← GetUncappedShare (u64 virtualDepthMult) 10000 X;
  Y ← GetUncappedShare (u64 virtualDepthMult) 10000 Y;
  fee ← CalcLiquidityFee X x Y;
  fee ← (if Coin_IsDeca sourceCoin then AssetValueInRune pool fee else Ok fee);
  slip ← CalcSwapSlip X x;
  fee ← uint_add (siFee item) fee;
  slip ← uint_add (siSlip item) slip;
  Ok (mkSwapItem (siIndex item) (siMsg item) fee slip).

Definition queueRatio (input output : Z) : outcome Z :=
  if output =? 0 then Ok 0
  else scaled ← uint_mul_u64 input 100000000; uint_quo scaled output.

(** Does the pools' price, without fees, beat the limit? *)
Definition checkFeelessSwap (pools : list Pool) (pair : tradePair) (indexRatio : Z) : outcome bool :=
  let get asset := Pools_Get pools (GetLayer1Asset asset) in
  let pass ratio := Ok (ratio <? indexRatio) in
  if negb (HasRune pair) then
    match get (tpSource pair), get (tpTarget pair) with
    | (sourcePool, true), (targetPool, true) =>
        runeAmt ← GetSafeShare One (BalanceAsset sourcePool) (BalanceDeca sourcePool);
        emit ← GetSafeShare runeAmt (BalanceDeca targetPool) (BalanceAsset targetPool);
        ratio ← queueRatio One emit;
        pass ratio
    | _, _ => Ok false
    end
  else if IsDeca (tpSource pair) then
    match get (tpTarget pair) with
    | (pool, true) => ratio ← queueRatio (BalanceDeca pool) (BalanceAsset pool); pass ratio
    | _ => Ok false
    end
  else
    match get (tpSource pair) with
    | (pool, true) => ratio ← queueRatio (BalanceAsset pool) (BalanceDeca pool); pass ratio
    | _ => Ok false
    end.

(** What the pools emit for [source], slip included. *)
Definition pools_emission (pools : list Pool) (source : Coin) (target : Asset) :
    outcome (option Z) :=
  let get asset := Pools_Get pools (GetLayer1Asset asset) in
  if negb (Coin_IsDeca source) && negb (IsDeca target) then
    match get (cAsset source), get target with
    | (sourcePool, true), (targetPool, true) =>
        emit ← CalcAssetEmission (BalanceAsset sourcePool) (cAmount source) (BalanceDeca sourcePool);
        emit ← CalcAssetEmission (BalanceDeca targetPool) emit (BalanceAsset targetPool);
        Ok (Some emit)
    | _, _ => Ok None
    end
  else if Coin_IsDeca source then
    match get target with
    | (pool, true) =>
        emit ← CalcAssetEmission (BalanceDeca pool) (cAmount source) (BalanceAsset pool); Ok (Some emit)
    | _ => Ok None
    end
  else
    match get (cAsset source) with
    | (pool, true) =>
        emit ← CalcAssetEmission (BalanceAsset pool) (cAmount source) (BalanceDeca pool); Ok (Some emit)
    | _ => Ok None
    end.

Definition would_be_last (msg : MsgSwap) (swapSize : Z) : outcome bool :=
  match mSwapType msg with
  | SwapType_market => Ok (stQuantity (State msg) <=? u64 (stCount (State msg) + 1))
  | SwapType_limit =>
      tempIn ← uint_add (stIn (State msg)) swapSize;
      Ok (tempIn =? stDeposit (State msg))
  end.

(** Does the next sub-swap reach its target, fees included? *)
Definition checkWithFeeSwap (outbound_fee : Asset -> option Z) (pools : list Pool) (msg : MsgSwap) :
    outcome bool :=
  '(swapSize, proportionalTarget) ← MsgSwap_NextSize msg;
  coin ← source_coin msg;
  amount ← (if AffiliateBasisPoints msg =? 0 then Ok swapSize
            else rest ← SafeSub 10000 (AffiliateBasisPoints msg); GetSafeShare rest 10000 swapSize);
  emission ← pools_emission pools (NewCoin (cAsset coin) amount) (TargetAsset msg);
  match emission with
  | None => Ok false
  | Some emit =>
      last ← would_be_last msg swapSize;
      emit ← (if (last : bool) && negb (IsDeca (TargetAsset msg)) then
                match outbound_fee (TargetAsset msg) with
                | Some fee => if fee =? 0 then Ok emit else SafeSub emit fee
                | None => Ok emit
                end
              else Ok emit);
      Ok (proportionalTarget <=? emit)
  end.
End scoring.

(** What the loops of [EndBlock] carry. *)
Record QueueLoop (St : Type) := mkQueueLoop {
  qlStore : St;
  qlTodo : list tradePair;
  qlLastPoolDir : gmap string SwapDirection
}.
Arguments mkQueueLoop {St}.
Arguments qlStore {St}.
Arguments qlTodo {St}.
Arguments qlLastPoolDir {St}.

Section queue.
Context {B : Type} `{Bank B} {K : SdkKeys} {S : SdkMath}.
Context (env : QueueEnv (KVStore B)).
Abbreviation Store := (KVStore B) (only parsing).

Definition isSwapReady (k : Store) (msg : MsgSwap) : outcome bool :=
  let interval := stInterval (State msg) in
  let last := stLastHeight (State msg) in
  if (queue_config env k "EnableAdvSwapQueue" =? 2) && IsLimitSwap msg then Ok false
  else if (0 <? queue_config env k "StreamingSwapPause") && IsStreaming msg then Ok false
  else if IsMarketSwap msg && (0 <? interval) &&
          negb (Z.rem (i64 (kHeight k - last)) (i64 interval) =? 0) then Ok false
  else if (0 <? interval) && (kHeight k <=? last) then Ok false
  else if IsTradingHalt k (SwapMsg msg) then Ok false
  else
    coin ← source_coin msg;
    Ok (negb (existsb (fun asset => 0 <? GetMimir k ("RAGNAROK-" ++ MimirString asset))
      [cAsset coin; TargetAsset msg])).

Definition getTTL (k : Store) (msg : MsgSwap) : Z :=
  getLimitSwapTTL msg (queue_config env k "StreamingLimitSwapMaxAge").

Definition queue_IsDone (k : Store) (msg : MsgSwap) : bool :=
  MsgSwap_IsDone msg ||
  (IsLimitSwap msg && (getTTL k msg <=? i64 (kHeight k - InitialBlockHeight msg))).

(** A settlement whose error is logged: nothing is committed then. *)
Definition settle_or_log (k : Store) (msg : MsgSwap) : outcome Store :=
  match settleSwap env k msg with
  | Ok k' => Ok k'
  | Err _ => Ok k
  | Panic => Panic
  end.

(** *** Discovery *)

(** The inner loop: the swaps of one price. *)
Fixpoint discover_records (k : Store) (pools : list Pool) (records : list string) :
    outcome (Store * list swapItem) :=
  match records with
  | [] => Ok (k, [])
  | rec :: records =>
      match parse_index_record rec with
      | None => discover_records k pools records
      | Some (hash, index) =>
          match GetAdvSwapQueueItem k hash index with
          | Panic => Panic
          | Err _ => discover_records k pools records
          | Ok msg =>
              ready ← isSwapReady k msg;
              if negb (ready : bool) then discover_records k pools records
              else if queue_IsDone k msg then
                k ← settle_or_log k msg; discover_records k pools records
              else
                ok ← checkWithFeeSwap (qeAssetOutboundFee env) pools msg;
                '(k, items) ← discover_records k pools records;
                Ok (k, if (ok : bool) then mkSwapItem index msg 0 0 :: items else items)
          end
      end
  end.

(** The outer loop, over the entries the iterator saw when it was opened:
    prices that do not parse are skipped, the first price that the pools do
    not beat ends the search. *)
Fixpoint discover_entries (k : Store) (pools : list Pool) (pair : tradePair)
    (entries : list (string * list string)) : outcome (Store * list swapItem) :=
  match entries with
  | [] => Ok (k, [])
  | (key, records) :: entries =>
      match parseRatioFromKey key with
      | Panic => Panic
      | Err _ => discover_entries k pools pair entries
      | Ok ratio =>
          pass ← checkFeelessSwap pools pair ratio;
          if negb (pass : bool) then Ok (k, [])
          else
            '(k, items) ← discover_records k pools records;
            '(k, more) ← discover_entries k pools pair entries;
            Ok (k, (items ++ more)%list)
      end
  end.

Definition discoverLimitSwaps (k : Store) (pair : tradePair) (pools : list Pool) :
    outcome (Store * list swapItem) :=
  discover_entries k pools pair
    (GetAdvSwapQueueIndexIterator k SwapType_limit (tpSource pair) (tpTarget pair)).

Fixpoint discover_pairs (k : Store) (pools : list Pool) (pairs : list tradePair) :
    outcome (Store * list swapItem) :=
  match pairs with
  | [] => Ok (k, [])
  | p :: pairs =>
      '(k, items) ← discoverLimitSwaps k p pools;
      '(k, more) ← discover_pairs k pools pairs;
      Ok (k, (items ++ more)%list)
  end.

Fixpoint fetch_market (k : Store) (entries : list (TxID * Z)) : outcome (list swapItem) :=
  match entries with
  | [] => Ok []
  | (hash, index) :: entries =>
      match GetAdvSwapQueueItem k hash index with
      | Panic => Panic
      | Err _ => fetch_market k entries
      | Ok msg =>
          ready ← isSwapReady k msg;
          items ← fetch_market k entries;
          Ok (if (ready : bool) then mkSwapItem index msg 0 0 :: items else items)
      end
  end.

(** No swap is executed in a block of the pool cycle. *)
Definition FetchQueue (k : Store) (pairs : list tradePair) (pools : list Pool)
    (todo : list tradePair) : outcome (Store * list swapItem) :=
  let poolCycle := queue_config env k "PoolCycle" in
  if (0 <? poolCycle) && (Z.rem (kHeight k) poolCycle =? 0) then Ok (k, [])
  else
    let todo := match todo with [] => pairs | _ => todo end in
    marketItems ← GetAdvSwapQueueIndex k market_probe;
    items ← fetch_market k marketItems;
    '(k, limits) ← discover_pairs k pools todo;
    Ok (k, (items ++ limits)%list).

(** The pairs of the available pools, RUNE first, and those pools. *)
Definition getAssetPairs (k : Store) : list tradePair * list Pool :=
  let pools := List.filter (fun pool =>
    (plStatus pool =? PoolStatus_Available) && negb (IsSyntheticAsset (plAsset pool))) (GetPools k) in
  let assets := DecaAsset :: map plAsset pools in
  (flat_map (fun a1 => omap (fun a2 =>
     if Asset_Equals a1 a2 then None else Some (genTradePair a1 a2)) assets) assets, pools).

(** *** Scoring *)

(** The pool of an asset in the local map of pools: RUNE has none. *)
Definition scored_pool (k : Store) (asset : Asset) : Pool :=
  if IsDeca asset then NewPool else GetPool k (GetLayer1Asset asset).

Definition unusable (pool : Pool) : bool :=
  Pool_IsEmpty pool || negb (IsAvailable pool) || (BalanceDeca pool =? 0) ||
  (BalanceAsset pool =? 0).

Definition depth_mult (asset : Asset) (synthVirtualDepthMult : Z) : Z :=
  if IsSyntheticAsset asset then synthVirtualDepthMult else 10000.

Definition score_msg (k : Store) (synthVirtualDepthMult : Z) (item : swapItem) : outcome swapItem :=
  let msg := siMsg item in
  coin ← source_coin msg;
  let sourceAsset := cAsset coin in
  let targetAsset := TargetAsset msg in
  let poolAsset := if IsDeca sourceAsset then targetAsset else sourceAsset in
  let pool := scored_pool k poolAsset in
  if unusable pool then Ok item
  else
    '(size, _) ← MsgSwap_NextSize msg;
    let subSwapSize := if size =? 0 then cAmount coin else size in
    item ← getLiquidityFeeAndSlip pool (NewCoin sourceAsset subSwapSize) item
             (depth_mult poolAsset synthVirtualDepthMult);
    if IsDeca sourceAsset || IsDeca targetAsset then Ok item
    else
      runeAmt ← AssetValueInRune pool subSwapSize;
      let pool := scored_pool k targetAsset in
      if unusable pool then Ok (mkSwapItem (siIndex item) (siMsg item) 0 0)
      else getLiquidityFeeAndSlip pool (NewCoin DecaAsset runeAmt) item
             (depth_mult targetAsset synthVirtualDepthMult).

Fixpoint scoreMsgs (k : Store) (items : list swapItem) (synthVirtualDepthMult : Z) :
    outcome (list swapItem) :=
  match items with
  | [] => Ok []
  | item :: items =>
      item ← score_msg k synthVirtualDepthMult item;
      items ← scoreMsgs k items synthVirtualDepthMult;
      Ok (item :: items)
  end.

(** *** Execution *)

(** Saving the swap after an attempt, and settling it when it is done. *)
Definition save_attempt (k : Store) (msg : MsgSwap) : outcome Store :=
  k ← match SetAdvSwapQueueItem k msg with
      | Ok k' => Ok k'
      | Err _ => Ok k
      | Panic => Panic
      end;
  if queue_IsDone k msg then settle_or_log k msg else Ok k.

(** One pass over the sorted swaps.  [attempted] and [success] count the
    budget used and the swaps executed. *)
Fixpoint run_swaps (l : QueueLoop Store) (pairs : list tradePair) (iteration budget attempted success : Z)
    (swaps : list swapItem) : outcome (QueueLoop Store * Z) :=
  match swaps with
  | [] => Ok (l, success)
  | pick :: swaps =>
      if budget <=? attempted then Ok (l, success)
      else
        let msg := siMsg pick in
        let k := qlStore l in
        skip ← shouldSkipRapidSwapDirection msg (qlLastPoolDir l) iteration;
        if (skip : bool) then run_swaps l pairs iteration budget attempted success swaps
        else
          coin ← source_coin msg;
          '(size, target) ← MsgSwap_NextSize msg;
          match qeRunSwap env (sub_message msg size target) k with
          | Panic => Panic
          | Err e =>
              if (0 <? iteration) && IsMarketSwap msg
              then run_swaps l pairs iteration budget attempted success swaps
              else
                k ← save_attempt k (record_failure msg e (kHeight k));
                run_swaps (mkQueueLoop k (qlTodo l) (qlLastPoolDir l)) pairs iteration budget
                  (attempted + 1) success swaps
          | Ok (k', emit) =>
              dirs ← getSwapDirections msg;
              let lastPoolDir :=
                foldl (fun m d => <[sdPool d := sdDirection d]> m) (qlLastPoolDir l) dirs in
              msg' ← record_success msg size emit (kHeight k);
              let todo :=
                if qeSimulation env then qlTodo l
                else findMatchingTrades (qlTodo l) (genTradePair (cAsset coin) (TargetAsset msg)) pairs in
              k ← save_attempt k' msg';
              run_swaps (mkQueueLoop k todo lastPoolDir) pairs iteration budget (attempted + 1)
                (success + 1) swaps
          end
  end.

(** The settings [EndBlock] reads once. *)
Record QueueSettings := mkQueueSettings {
  qsMinSwaps : Z;
  qsMaxSwaps : Z;
  qsSynthMult : Z
}.

Definition queue_settings (k : Store) : QueueSettings :=
  let mult := GetMimir k "VirtualMultSynthsBasisPoints" in
  mkQueueSettings (queue_config env k "MinSwapsPerBlock") (queue_config env k "MaxSwapsPerBlock")
    (if mult <? 1 then qeConstant env "VirtualMultSynthsBasisPoints" else mult).

(** The rapid-swap iterations, at most [fuel] of them; one that executes
    nothing is the last. *)
Fixpoint rapid_swaps (qs : QueueSettings) (fuel : nat) (iteration prevSuccess : Z)
    (l : QueueLoop Store) : outcome Store :=
  match fuel with
  | O => Ok (qlStore l)
  | Datatypes.S fuel =>
      if (0 <? iteration) && (prevSuccess =? 0) then Ok (qlStore l)
      else
        let k := qlStore l in
        let '(pairs, pools) := if qeSimulation env then ([], []) else getAssetPairs k in
        '(k, swaps) ← FetchQueue k pairs pools (qlTodo l);
        match swaps with
        | [] => Ok k
        | _ =>
            swaps ← scoreMsgs k swaps (qsSynthMult qs);
            let swaps := Sort swaps in
            let budget := getTodoNum (Z.of_nat (length swaps)) (qsMinSwaps qs) (qsMaxSwaps qs) in
            '(l, success) ← run_swaps (mkQueueLoop k (qlTodo l) (qlLastPoolDir l)) pairs iteration
              budget 0 0 swaps;
            rapid_swaps qs fuel (iteration + 1) success l
        end
  end.

(** *** Expiry *)

(** The swaps of one transaction, index by index while there is one; [fuel]
    bounds their number.  The result says whether a settlement failed. *)
Fixpoint expire_items (fuel : nat) (k : Store) (txHash : TxID) (index : Z) (failed : bool) :
    outcome (Store * bool) :=
  match fuel with
  | O => Ok (k, failed)
  | Datatypes.S fuel =>
      match GetAdvSwapQueueItem k txHash index with
      | Panic => Panic
      | Err _ => Ok (k, failed)
      | Ok swap =>
          if IsLimitSwap swap then
            match settleSwap env k swap with
            | Panic => Panic
            | Err _ => expire_items fuel k txHash (index + 1) true
            | Ok k => expire_items fuel k txHash (index + 1) failed
            end
          else expire_items fuel k txHash (index + 1) failed
      end
  end.

Fixpoint expire_hashes (k : Store) (hashes : list TxID) : outcome (Store * list TxID) :=
  match hashes with
  | [] => Ok (k, [])
  | txHash :: hashes =>
      '(k, settleFailed) ← expire_items (Datatypes.S (size (kAdvSwapQueue k))) k txHash 0 false;
      '(k, failed) ← expire_hashes k hashes;
      Ok (k, if (settleFailed : bool) then txHash :: failed else failed)
  end.

Definition retry_expiry (k : Store) (failed : list TxID) : Store :=
  foldl (fun k txHash =>
    match AddToLimitSwapTTL k (kHeight k + 1) txHash with Ok k' => k' | _ => k end) k failed.

Definition expire_height (k : Store) (height : Z) : outcome Store :=
  match GetLimitSwapTTL k height with
  | Panic => Panic
  | Err _ => Ok k
  | Ok [] => Ok k
  | Ok hashes =>
      '(k, failed) ← expire_hashes k hashes;
      Ok (retry_expiry (RemoveLimitSwapTTL k height) failed)
  end.

Fixpoint expire_heights (k : Store) (heights : list Z) : outcome Store :=
  match heights with
  | [] => Ok k
  | h :: heights => k ← expire_height k h; expire_heights k heights
  end.

(** The heights from [maxAge] blocks ago to now. *)
Definition expiry_heights (currentHeight maxAge : Z) : list Z :=
  let startHeight := i64 (currentHeight - maxAge) in
  let startHeight := if startHeight <? 1 then 1 else startHeight in
  map (fun i => startHeight + Z.of_nat i) (seq 0 (Z.to_nat (currentHeight - startHeight + 1))).

Definition processExpiredLimitSwaps (k : Store) : outcome Store :=
  expire_heights k
    (expiry_heights (kHeight k) (queue_config env k "StreamingLimitSwapMaxAge")).

(** [EndBlock]. *)
Definition queue_EndBlock (k : Store) : outcome Store :=
  let rapidSwapMax := queue_config env k "AdvSwapQueueRapidSwapMax" in
  k ← rapid_swaps (queue_settings k) (Z.to_nat rapidSwapMax) 0 0 (mkQueueLoop k [] ∅);
  if qeSimulation env then Ok k else processExpiredLimitSwaps k.

(** *** Queueing a swap *)

(** The smallest swap, in RUNE, that the minimum slip of one leg allows. *)
Definition leg_min_size (k : Store) (stableSwap : bool) (asset : Asset) (minSwapSize : Z) : outcome Z :=
  if IsDeca asset then Ok minSwapSize
  else
    let pool := GetPool k (GetLayer1Asset asset) in
    let minSlip := getMinSlipBps (swap_env env) k asset stableSwap in
    if minSlip =? 0 then Ok minSwapSize
    else
      minRuneSwapSize ← GetSafeShare minSlip MaxBasisPts (BalanceDeca pool);
      Ok (if (minSwapSize =? 0) || (minRuneSwapSize <? minSwapSize) then minRuneSwapSize
          else minSwapSize).

Definition leg_anchor_bps (k : Store) (asset : Asset) (dbps : Z) : outcome Z :=
  if negb (IsDerivedAsset asset) then Ok dbps
  else
    newDbps ← GetUncappedShare (BalanceDeca (GetPool k asset)) (qeAnchorDepth env asset k) MaxBasisPts;
    Ok (if (dbps =? 0) || (newDbps <? dbps) then newDbps else dbps).

Definition getMaxSwapQuantity (k : Store) (sourceAsset targetAsset : Asset) (msg : MsgSwap) :
    outcome Z :=
  let stableSwap := isStableToStable k sourceAsset targetAsset in
  minSwapSize ← leg_min_size k stableSwap sourceAsset 0;
  minSwapSize ← leg_min_size k stableSwap targetAsset minSwapSize;
  minSwapSize ←
    (if IsDeca sourceAsset then Ok minSwapSize
     else RuneValueInAsset (GetPool k (GetLayer1Asset sourceAsset)) minSwapSize);
  maxSwapQuantity ←
    (if minSwapSize =? 0 then Ok (stQuantity (State msg))
     else uint_quo (stDeposit (State msg)) minSwapSize);
  let maxLength :=
    if Asset_IsNative sourceAsset && Asset_IsNative targetAsset
    then queue_config env k "StreamingSwapMaxLengthNative"
    else queue_config env k "StreamingSwapMaxLength" in
  let interval := stInterval (State msg) in
  let interval := if (interval =? 0) || IsLimitSwap msg then 1 else interval in
  let maxSwapInMaxLength := u64 maxLength / interval in
  if maxSwapInMaxLength <? maxSwapQuantity then Ok maxSwapInMaxLength
  else if maxSwapQuantity =? 0 then Ok 1
  else
    dbps ← leg_anchor_bps k sourceAsset 0;
    dbps ← leg_anchor_bps k targetAsset dbps;
    if dbps =? 0 then uint64_or_panic maxSwapQuantity
    else
      diff ← SafeSub MaxBasisPts dbps;
      if diff =? 0 then uint64_or_panic maxSwapQuantity
      else
        newQuantity ← uint_quo MaxBasisPts diff;
        if newQuantity <? maxSwapQuantity then uint64_or_panic newQuantity
        else uint64_or_panic maxSwapQuantity.

(** The message as it is stored: started at this block, its interval within
    the maximum age, its quantity within what the pools allow. *)
Definition plan_swap (k : Store) (msg : MsgSwap) : outcome MsgSwap :=
  let msg := if InitialBlockHeight msg =? 0 then with_initial_height msg (kHeight k) else msg in
  coin ← source_coin msg;
  let st := State msg in
  let deposit := if stDeposit st =? 0 then cAmount coin else stDeposit st in
  interval ←
    (if IsLimitSwap msg && (0 <? stInterval st) then
       let swapMaxAge := queue_config env k "StreamingLimitSwapMaxAge" in
       if swapMaxAge <? 0 then Err "StreamingLimitSwapMaxAge returned maxAge < 0"
       else Ok (if u64 swapMaxAge <? stInterval st then u64 swapMaxAge else stInterval st)
     else Ok (stInterval st));
  let msg := with_state msg (with_plan st interval (stQuantity st) deposit) in
  maxSwapQuantity ← getMaxSwapQuantity k (cAsset coin) (TargetAsset msg) msg;
  let quantity := if stQuantity st =? 0 then maxSwapQuantity else stQuantity st in
  let quantity := if maxSwapQuantity <? quantity then maxSwapQuantity else quantity in
  Ok (with_state msg (with_plan st interval quantity deposit)).

(** A failure after the expiry was recorded keeps that record when the caller
    commits; the callers return the error instead. *)
Definition AddSwapQueueItem (k : Store) (msg : MsgSwap) : outcome Store :=
  if (queue_config env k "EnableAdvSwapQueue" =? 2) && IsLimitSwap msg
  then Err "limit swaps are not allowed in market-only mode"
  else
    msg ← plan_swap k msg;
    _ ← qeValidateSwap env msg k;
    k ← (if IsLimitSwap msg && (0 <? InitialBlockHeight msg)
         then AddToLimitSwapTTL k (i64 (InitialBlockHeight msg + getTTL k msg)) (txID (mTx msg))
         else Ok k);
    SetAdvSwapQueueItem k msg.
End queue.
