(* ===== verification/QueueProps.v ===== *)
(** The advanced swap queue keeps its book: whatever a block does, the index
    lists exactly the stored swaps afterwards, and no swap is handled twice in
    one pass. *)
From S2P Require Import Prelude SdkMath GoStr Keys Shares Chains Assets Coins Bank Nodes Txs.
From S2P Require Import Decimal MemoTypes Voters Mimir Observed Pools Streaming SwapSort SwapCalc Vaults Keeper.
From S2P Require Import LimitIndex Halt VaultStore Swaps Settle SwapQueue.
Local Open Scope string_scope.
Local Open Scope Z_scope.

(** ** Names of pools and pairs *)

(** An asset a pool is made for: of layer 1, its ticker the one of its symbol,
    its names without the delimiters of the index keys. *)
Record pool_asset (a : Asset) : Prop := {
  pa_layer1 : aSynth a = false /\ aTrade a = false /\ aSecured a = false;
  pa_dot : no_char "." (Chain_String (aChain a)) = true;
  pa_slash : no_char "/" (Asset_String a) = true;
  pa_gt : no_char ">" (Asset_String a) = true;
  pa_ticker : to_upper (aTicker a) = to_upper (Symbol_Ticker (aSymbol a))
}.

Definition plain_pair (p : tradePair) : Prop := pool_asset (tpSource p) /\ pool_asset (tpTarget p).

Definition pair_name (p : tradePair) : string :=
  Asset_String (GetLayer1Asset (tpSource p)) ++ ">" ++ Asset_String (GetLayer1Asset (tpTarget p)).

Lemma pool_asset_layer1 a : pool_asset a -> GetLayer1Asset a = a.
Proof.
  intros [ [Hs [Ht Hc] ] _ _ _ _]. unfold GetLayer1Asset, IsSyntheticAsset, IsTradeAsset, IsSecuredAsset.
  by rewrite Hs, Ht, Hc.
Qed.

Lemma pool_asset_deca : pool_asset DecaAsset.
Proof. by split. Qed.

Lemma app_char_inj c s s' t t' : no_char c s = true -> no_char c s' = true ->
  (s ++ String c t)%string = (s' ++ String c t')%string -> s = s' /\ t = t'.
Proof.
  intros Hs Hs' He. pose proof (split2_found c s t Hs) as H1.
  rewrite He, (split2_found c s' t' Hs') in H1. by injection H1 as -> ->.
Qed.

Lemma Chain_String_upper c : Chain_String c = to_upper c.
Proof. done. Qed.

(** Pool assets with one name are equal. *)
Lemma pool_asset_name_inj a b : pool_asset a -> pool_asset b -> Asset_String a = Asset_String b ->
  Asset_Equals a b = true.
Proof.
  intros [ [Hs [Ht Hc] ] Hd _ _ Hk] [ [Hs' [Ht' Hc'] ] Hd' _ _ Hk'] He.
  apply Asset_Equals_spec. unfold equiv, Asset_equiv, canon. rewrite Hs, Ht, Hc, Hs', Ht', Hc'.
  unfold Asset_String in He. rewrite Hs, Ht, Hc, Hs', Ht', Hc' in He.
  change ("." ++ Symbol_String (aSymbol a))%string with (String "." (Symbol_String (aSymbol a))) in He.
  change ("." ++ Symbol_String (aSymbol b))%string with (String "." (Symbol_String (aSymbol b))) in He.
  apply app_char_inj in He as [Hchain Hsym]; [|done..].
  unfold Chain_String in Hchain. rewrite Hk, Hk'. unfold Symbol_Ticker. rewrite Hsym.
  unfold Symbol_String in Hsym. by rewrite Hchain, Hsym.
Qed.

Lemma pair_name_inj p q : plain_pair p -> plain_pair q -> pair_name p = pair_name q ->
  tradePair_Equals p q = true.
Proof.
  intros [Hp1 Hp2] [Hq1 Hq2] He. unfold pair_name in He.
  rewrite !pool_asset_layer1 in He by done.
  change (">" ++ Asset_String (tpTarget p))%string with (String ">" (Asset_String (tpTarget p))) in He.
  change (">" ++ Asset_String (tpTarget q))%string with (String ">" (Asset_String (tpTarget q))) in He.
  apply app_char_inj in He as [H1 H2]; [|by apply Hp1|by apply Hq1].
  unfold tradePair_Equals. by rewrite !pool_asset_name_inj.
Qed.

Lemma pair_name_no_slash p : plain_pair p -> no_char "/" (pair_name p) = true.
Proof.
  intros [H1 H2]. unfold pair_name, no_char. rewrite !pool_asset_layer1 by done.
  rewrite !str_all_app. simpl.
  pose proof (pa_slash _ H1) as S1. pose proof (pa_slash _ H2) as S2. unfold no_char in *.
  by rewrite S1, S2.
Qed.

Lemma pair_prefix p :
  limit_index_prefix (tpSource p) (tpTarget p) =
    (prefixAdvSwapQueueLimitIndex ++ "/") ++ (pair_name p ++ "/").
Proof.
  unfold limit_index_prefix, GetKey, pair_name. rewrite !to_upper_app, !Asset_String_upper.
  change (to_upper ">") with ">". change (to_upper "/") with "/". by rewrite !str_app_assoc.
Qed.

Lemma prefix_split p k : String.prefix p k = true -> exists r, k = (p ++ r)%string.
Proof.
  revert k. induction p as [|c p IH]; intros k; simpl; [by exists k|].
  destruct k as [|d k]; simpl; [done|]. destruct (ascii_dec c d) as [->|]; [|done].
  intros (r & ->)%IH. by exists r.
Qed.

(** No index key belongs to two pairs. *)
Lemma pair_prefix_unique p q key : plain_pair p -> plain_pair q ->
  String.prefix (limit_index_prefix (tpSource p) (tpTarget p)) key = true ->
  String.prefix (limit_index_prefix (tpSource q) (tpTarget q)) key = true ->
  pair_name p = pair_name q.
Proof.
  intros Hp Hq. rewrite !pair_prefix. intros (r & ->)%prefix_split (r' & He)%prefix_split.
  rewrite <- !str_app_assoc in He. simpl in He. injection He as He.
  by apply app_char_inj in He as [-> _]; [|by apply pair_name_no_slash..].
Qed.

Lemma distinct_pair_names todo : Forall plain_pair todo -> pairs_distinct todo ->
  NoDup (map pair_name todo).
Proof.
  intros Hpl Hd. apply NoDup_alt. intros i j n. rewrite !list_lookup_fmap.
  destruct (todo !! i) as [x|] eqn:Hi, (todo !! j) as [y|] eqn:Hj; simpl; try done.
  intros [= <-] [= He]. eapply Hd; [done|done|].
  rewrite Forall_forall in Hpl. apply pair_name_inj; [eauto using list_elem_of_lookup_2..|done].
Qed.

(** ** What discovery does to the store *)

Section discovery.
Context {B : Type} `{Bank B} {K : SdkKeys} {S : SdkMath}.
Abbreviation Store := (KVStore B) (only parsing).
Implicit Types k : Store.

(** An asset of a synth pool (the savers'), or of a pool of layer 1 other than
    RUNE's. *)
Definition poolable (a : Asset) : Prop :=
  IsSyntheticAsset a = false -> pool_asset a /\ IsDeca a = false.

(** Every pool is kept under the name of its asset. *)
Definition pools_named k : Prop := forall key p, kPools k !! key = Some p ->
  key = GetKey prefixPool (Asset_String (plAsset p)) /\ poolable (plAsset p).

(** The environment keeps the names of the pools. *)
Class QueueEnvPools (env : QueueEnv Store) : Prop := {
  try_add_pools toi clout k : pools_named k -> pools_named (fst (qeTryAddTxOutItem env toi clout k));
  run_swap_pools msg k k' emit : qeRunSwap env msg k = Ok (k', emit) -> pools_named k -> pools_named k'
}.

Record good k : Prop := {
  good_queue : queue_ok None k;
  good_pools : pools_named k
}.

(** The store key of the item a message stands for. *)
Definition msg_key (msg : MsgSwap) : string := adv_item_key (txID (mTx msg)) (mIndex msg).
Definition stored k (msg : MsgSwap) : Prop := kAdvSwapQueue k !! msg_key msg = Some msg.

(** A step that may remove or change the items under the keys [V], and no
    other. *)
Definition touches (V : string -> Prop) k k' : Prop :=
  good k' /\ forall key msg, ~ V key -> kAdvSwapQueue k !! key = Some msg ->
    kAdvSwapQueue k' !! key = Some msg.

Lemma touches_trans V k1 k2 k3 : touches V k1 k2 -> touches V k2 k3 -> touches V k1 k3.
Proof. intros [_ H12] [Hg H23]. split; [done|]. eauto. Qed.

Lemma touches_mono (V W : string -> Prop) k k' : (forall key, V key -> W key) ->
  touches V k k' -> touches W k k'.
Proof. intros HVW [Hg Hk]. split; [done|]. eauto. Qed.

Lemma touches_refl V k : good k -> touches V k k.
Proof. by split. Qed.

Context (env : QueueEnv Store) {Henv : QueueEnvOk env} {Hpools : QueueEnvPools env}.

Definition pools_step k k' : Prop := pools_named k -> pools_named k'.
#[local] Instance pools_step_preorder : PreOrder pools_step.
Proof. unfold pools_step. split; [by intros k Hk|]. intros k1 k2 k3 H12 H23 Hk. auto. Qed.

Lemma remove_settled_pools k msg k' : remove_settled k msg = Ok k' -> kPools k' = kPools k.
Proof.
  assert (forall k m k1, RemoveAdvSwapQueueIndex k m = Ok k1 -> kPools k1 = kPools k) as Hidx.
  { clear. intros k m k1 (key & _ & [s ->] & _)%RemoveIndex_spec. done. }
  unfold remove_settled. intros (k1 & H1 & Hk)%bind_Ok_inv.
  apply bind_Ok_inv in Hk as ([k2 e] & H2 & [= <-]).
  assert (kPools k1 = kPools k) as <-.
  { destruct (RemoveAdvSwapQueueIndex k msg) eqn:E; simplify_eq; eauto. }
  unfold RemoveAdvSwapQueueItem in H2. apply bind_Ok_inv in H2 as ([k3 e3] & H3 & [= <- <-]). simpl.
  destruct (GetAdvSwapQueueItem k1 _ _) as [m|er|] eqn:Eg; [|by simplify_eq|done].
  destruct (RemoveAdvSwapQueueIndex k1 m) eqn:E; simplify_eq; eauto.
Qed.

Lemma settleSwap_pools k msg k' : settleSwap env k msg = Ok k' -> pools_named k -> pools_named k'.
Proof.
  unfold settleSwap, settleSwapCached. intros (k1 & H1 & Hk)%bind_Ok_inv Hp.
  apply bind_Ok_inv in Hk as (k2 & H2 & H3).
  assert (forall k b, pools_step k (with_bank k b)) as Hb by (intros k0 b Hk0; exact Hk0).
  apply (settle_outbound_R env pools_step Hb (try_add_pools (env := env))) in H1.
  apply (settle_remainder_R env pools_step Hb (try_add_pools (env := env))) in H2.
  apply remove_settled_pools in H3. unfold pools_named. rewrite H3. by apply H2, H1.
Qed.

(** Settling a stored swap touches that swap only. *)
Lemma settle_touches k msg st k' : good k -> stored k msg ->
  settleSwap env k (with_state msg st) = Ok k' ->
  touches (eq (msg_key msg)) k k' /\ kAdvSwapQueue k' !! msg_key msg = None.
Proof.
  intros [Hq Hp] Hs Hset.
  assert (GetAdvSwapQueueItem k (txID (mTx msg)) (mIndex msg) = Ok msg) as Hg.
  { unfold GetAdvSwapQueueItem. unfold stored, msg_key in Hs. by rewrite Hs. }
  destruct (settleSwap_spec env _ _ _ _ _ _ Hq Hg Hset) as (Hq' & Hn & Hsub). split; [|done].
  split; [split; [done|by eapply settleSwap_pools]|].
  intros key m Hne Hm. eapply lookup_weaken; [|exact Hsub]. apply lookup_delete_Some. by split.
Qed.

Lemma settle_or_log_touches k msg k' : good k -> stored k msg -> settle_or_log env k msg = Ok k' ->
  touches (eq (msg_key msg)) k k'.
Proof.
  intros Hg Hs. unfold settle_or_log. rewrite <- (with_state_id msg) at 1.
  destruct (settleSwap _ _ _) as [k1|e|] eqn:E; [| |done]; intros [= <-].
  - by destruct (settle_touches _ _ _ _ Hg Hs E).
  - by apply touches_refl.
Qed.

(** A record of the list at the index key [key]. *)
Definition resolves k (key r : string) : Prop := exists msg,
  kAdvSwapQueue k !! GetKey prefixAdvSwapQueueItem r = Some msg /\ swap_item_id msg = r /\
  getAdvSwapQueueIndexKey msg = Ok key.

Lemma msg_key_id msg : msg_key msg = GetKey prefixAdvSwapQueueItem (swap_item_id msg).
Proof. done. Qed.

Lemma queue_resolves k key r : queue_ok None k -> is_index_key key = true ->
  r ∈ index_record k key -> resolves k key r.
Proof. intros Hok Hk Hr. destruct (qo_back _ _ Hok key r Hk Hr) as (m & ? & ? & ? & _). by exists m. Qed.

(** What a search returns: stored swaps of the index keys [Q], each once. *)
Record found (Q : string -> Prop) k (items : list swapItem) : Prop := {
  found_stored : Forall (fun it => stored k (siMsg it) /\ siIndex it = mIndex (siMsg it)) items;
  found_key : Forall (fun it => exists key, getAdvSwapQueueIndexKey (siMsg it) = Ok key /\ Q key) items;
  found_nodup : NoDup (map (fun it => msg_key (siMsg it)) items)
}.

Lemma found_nil Q k : found Q k [].
Proof. split; constructor. Qed.

Lemma found_mono (Q Q' : string -> Prop) k items : (forall key, Q key -> Q' key) ->
  found Q k items -> found Q' k items.
Proof.
  intros HQ [Hs Hk Hn]. split; [done| |done]. eapply Forall_impl; [exact Hk|].
  intros it (key & ? & ?). eauto.
Qed.

(** Later steps that leave these swaps alone keep the result valid. *)
Lemma found_touches Q V k k' items : found Q k items -> touches V k k' ->
  Forall (fun it => ~ V (msg_key (siMsg it))) items -> found Q k' items.
Proof.
  intros [Hs Hk Hn] [_ Ht] HV. split; [|done|done].
  rewrite Forall_forall in *. intros it Hit. destruct (Hs it Hit) as [Hst Hi].
  split; [|done]. apply Ht; [by apply HV|done].
Qed.

(** The records of one index key. *)
Lemma discover_records_spec pools key records : forall k k' items,
  good k -> NoDup records -> Forall (resolves k key) records ->
  discover_records env k pools records = Ok (k', items) ->
  let V x := x ∈ map (GetKey prefixAdvSwapQueueItem) records in
  touches V k k' /\ found (eq key) k' items /\ Forall (fun it => V (msg_key (siMsg it))) items.
Proof.
  induction records as [|r records IH]; intros k k' items Hg Hnd Hres; simpl.
  { intros [= <- <-]. split; [by apply touches_refl|]. split; [apply found_nil|done]. }
  apply NoDup_cons in Hnd as [Hr Hnd]. apply Forall_cons in Hres as [ (msg & Hm & Hid & Hkey) Hres].
  assert (forall x, x ∈ map (GetKey prefixAdvSwapQueueItem) records ->
    x ∈ GetKey prefixAdvSwapQueueItem r :: map (GetKey prefixAdvSwapQueueItem) records) as Hin
    by (intros; by right).
  assert (GetKey prefixAdvSwapQueueItem r ∉ map (GetKey prefixAdvSwapQueueItem) records) as Hout.
  { intros (r' & He & Hr')%list_elem_of_fmap. rewrite Forall_forall in Hres.
    destruct (Hres r' Hr') as (m' & Hm' & Hid' & _). rewrite <- He, Hm in Hm'.
    injection Hm' as <-. by rewrite Hid in Hid'; subst r'. }
  assert (forall k items, discover_records env k pools records = Ok (k', items) -> good k ->
    Forall (resolves k key) records ->
    touches (fun x => x ∈ GetKey prefixAdvSwapQueueItem r :: map (GetKey prefixAdvSwapQueueItem) records) k k' /\
    found (eq key) k' items /\ Forall (fun it => msg_key (siMsg it) ∈
      GetKey prefixAdvSwapQueueItem r :: map (GetKey prefixAdvSwapQueueItem) records) items) as Hskip.
  { intros k0 items0 Hd Hg0 Hres0. destruct (IH _ _ _ Hg0 Hnd Hres0 Hd) as (Ht & Hf & Hv).
    split; [exact (touches_mono _ _ _ _ Hin Ht)|]. split; [done|].
    eapply Forall_impl; [exact Hv|]. intros it. apply Hin. }
  destruct (qo_items _ _ (good_queue _ Hg) _ _ Hm) as (Hmk & Hcan & _).
  rewrite <- Hid, parse_swap_item_id by done. rewrite Hid.
  assert (GetAdvSwapQueueItem k (txID (mTx msg)) (mIndex msg) = Ok msg) as ->.
  { unfold GetAdvSwapQueueItem. by rewrite <- Hmk, Hm. }
  intros (ready & _ & Hd)%bind_Ok_inv. destruct ready; simpl in Hd; [|by apply Hskip].
  assert (stored k msg) as Hst by (unfold stored, msg_key; by rewrite <- Hmk).
  destruct (queue_IsDone env k msg).
  - apply bind_Ok_inv in Hd as (k1 & H1 & Hd).
    pose proof (settle_or_log_touches _ _ _ Hg Hst H1) as Ht1.
    assert (msg_key msg = GetKey prefixAdvSwapQueueItem r) as Hmr by (by rewrite <- Hid).
    destruct (Hskip k1 items Hd) as (Ht & Hf & Hv).
    + apply Ht1.
    + rewrite Forall_forall in *. intros r' Hr'. destruct (Hres r' Hr') as (m' & Hm' & ? & ?).
      exists m'. split; [|done]. apply Ht1; [|done]. rewrite Hmr. intros He. apply Hout.
      rewrite He. by apply list_elem_of_fmap_2.
    + split; [|done]. eapply touches_trans; [|exact Ht].
      eapply touches_mono; [|exact Ht1]. intros x <-. rewrite Hmr. by left.
  - apply bind_Ok_inv in Hd as (ok & _ & Hd). apply bind_Ok_inv in Hd as ([k1 items1] & Hd & [= -> <-]).
    destruct (IH _ _ _ Hg Hnd Hres Hd) as (Ht & Hf & Hv).
    assert (msg_key msg = GetKey prefixAdvSwapQueueItem r) as Hmr by (by rewrite <- Hid).
    assert (Forall (fun it => msg_key (siMsg it) ∈
      GetKey prefixAdvSwapQueueItem r :: map (GetKey prefixAdvSwapQueueItem) records) items1) as Hv'
      by (eapply Forall_impl; [exact Hv|]; intros it; apply Hin).
    split; [exact (touches_mono _ _ _ _ Hin Ht)|]. destruct ok; [|done].
    split; [|constructor; [simpl; rewrite Hmr; by left|done] ].
    destruct Hf as [Hs Hk Hn]. split.
    + constructor; [|done]. simpl. split; [|done]. apply Ht; [by rewrite Hmr|done].
    + constructor; [|done]. simpl. eauto.
    + simpl. apply NoDup_cons. split; [|done]. intros (it & He & Hit)%list_elem_of_fmap.
      rewrite Forall_forall in Hv. apply Hout. rewrite <- Hmr, He. by apply Hv.
Qed.

(** A step that touches only swaps whose place in the index is in [Q]. *)
Definition touches_at (Q : string -> Prop) k k' : Prop :=
  good k' /\ forall msg, stored k msg ->
    (forall key, getAdvSwapQueueIndexKey msg = Ok key -> ~ Q key) -> stored k' msg.

Lemma touches_at_refl Q k : good k -> touches_at Q k k.
Proof. by split. Qed.

Lemma touches_at_trans Q k1 k2 k3 : touches_at Q k1 k2 -> touches_at Q k2 k3 -> touches_at Q k1 k3.
Proof. intros [_ H12] [Hg H23]. split; [done|]. eauto. Qed.

Lemma touches_at_mono (Q Q' : string -> Prop) k k' : (forall key, Q key -> Q' key) ->
  touches_at Q k k' -> touches_at Q' k k'.
Proof.
  intros HQ [Hg Hk]. split; [done|]. intros msg Hs Hn. apply Hk; [done|].
  intros key Hkey HQk. by apply (Hn key Hkey), HQ.
Qed.

(** The swaps of one price are those the records name. *)
Lemma records_touch_at k k' key records : Forall (resolves k key) records ->
  touches (fun x => x ∈ map (GetKey prefixAdvSwapQueueItem) records) k k' ->
  touches_at (eq key) k k'.
Proof.
  intros Hres [Hg Ht]. split; [done|]. intros msg Hs Hn. apply Ht; [|done].
  intros (r & He & Hr)%list_elem_of_fmap. rewrite Forall_forall in Hres.
  destruct (Hres r Hr) as (m & Hm & _ & Hkey). unfold stored in Hs. rewrite He, Hm in Hs.
  injection Hs as ->. by apply (Hn key Hkey).
Qed.

Lemma found_app Q1 Q2 k k' items1 items2 : found Q1 k items1 -> touches_at Q2 k k' ->
  found Q2 k' items2 -> (forall key, Q1 key -> ~ Q2 key) ->
  found (fun key => Q1 key \/ Q2 key) k' (items1 ++ items2).
Proof.
  intros [Hs1 Hk1 Hn1] [Hg Ht] [Hs2 Hk2 Hn2] Hdis.
  assert (forall it key, it ∈ items1 -> getAdvSwapQueueIndexKey (siMsg it) = Ok key -> Q1 key) as Hq.
  { intros it key Hit Hkey. rewrite Forall_forall in Hk1. destruct (Hk1 it Hit) as (key' & Hk' & HQ).
    rewrite Hkey in Hk'. by injection Hk' as ->. }
  assert (Forall (fun it => stored k' (siMsg it) /\ siIndex it = mIndex (siMsg it)) items1) as Hs1'.
  { rewrite Forall_forall in *. intros it Hit. destruct (Hs1 it Hit) as [Hst Hi]. split; [|done].
    apply Ht; [done|]. intros key Hkey. by eapply Hdis, Hq. }
  split.
  - by apply Forall_app.
  - apply Forall_app. split; [eapply Forall_impl; [exact Hk1|]|eapply Forall_impl; [exact Hk2|] ];
      intros it (key & Hkey & HQ); exists key; auto.
  - rewrite map_app. apply NoDup_app. split_and!; [done| |done].
    intros x (it1 & -> & Hit1)%list_elem_of_fmap (it2 & He & Hit2)%list_elem_of_fmap.
    rewrite Forall_forall in *. destruct (Hs1' it1 Hit1) as [Hst1 _], (Hs2 it2 Hit2) as [Hst2 _].
    unfold stored in *. rewrite He, Hst2 in Hst1. injection Hst1 as Heq.
    destruct (Hk1 it1 Hit1) as (k1 & Hk1' & HQ1), (Hk2 it2 Hit2) as (k2 & Hk2' & HQ2).
    rewrite Heq, Hk1' in Hk2'. injection Hk2' as ->. by apply (Hdis k2).
Qed.

(** Entries as an iterator gives them: distinct index keys, the records of
    each resolved. *)
Definition entries_ok k (entries : list (string * list string)) : Prop :=
  NoDup (map fst entries) /\
  Forall (fun e => NoDup (snd e) /\ Forall (resolves k (fst e)) (snd e)) entries.

Lemma resolves_touches k k' Q key r : resolves k key r -> touches_at Q k k' -> ~ Q key ->
  resolves k' key r.
Proof.
  intros (msg & Hm & Hid & Hkey) [_ Ht] HQ. exists msg. split; [|done]. rewrite <- Hid.
  apply (Ht msg); [unfold stored; by rewrite msg_key_id, Hid|]. intros key' Hk'. congruence.
Qed.

Lemma discover_entries_spec pools p entries : forall k k' items, good k -> entries_ok k entries ->
  discover_entries env k pools p entries = Ok (k', items) ->
  touches_at (fun key => key ∈ map fst entries) k k' /\
  found (fun key => key ∈ map fst entries) k' items.
Proof.
  induction entries as [|[key records] entries IH]; intros k k' items Hg Hok; simpl.
  { intros [= <- <-]. split; [by apply touches_at_refl|apply found_nil]. }
  destruct Hok as [Hnd Hall]. simpl in Hnd. apply NoDup_cons in Hnd as [Hkey Hnd].
  apply Forall_cons in Hall as [ [Hndr Hres] Hall]. simpl in *.
  assert (entries_ok k entries) as Hok by done.
  destruct (parseRatioFromKey key) as [ratio|e|]; [| |done].
  - intros (pass & _ & Hd)%bind_Ok_inv. destruct pass; simpl in Hd.
    2: { injection Hd as <- <-. split; [by apply touches_at_refl|apply found_nil]. }
    apply bind_Ok_inv in Hd as ([k1 items1] & H1 & Hd).
    apply bind_Ok_inv in Hd as ([k2 items2] & H2 & [= -> <-]).
    destruct (discover_records_spec _ _ _ _ _ _ Hg Hndr Hres H1) as (Ht1 & Hf1 & _).
    apply (records_touch_at _ _ key _ Hres) in Ht1.
    assert (entries_ok k1 entries) as Hok1.
    { split; [done|]. rewrite Forall_forall in *. intros [key' rs] He.
      destruct (Hall _ He) as [Hndr' Hres']. split; [done|]. simpl in *.
      rewrite Forall_forall in *. intros r Hr. eapply resolves_touches; [by apply Hres'|exact Ht1|].
      intros ->. apply Hkey. by apply (list_elem_of_fmap_2 fst _ (key', rs)). }
    destruct (IH _ _ _ (proj1 Ht1) Hok1 H2) as [Ht2 Hf2]. split.
    + eapply touches_at_trans; (eapply touches_at_mono; [|eassumption]); simpl.
      * intros x <-. by left.
      * intros x Hx. by right.
    + eapply found_mono; [|eapply found_app; [exact Hf1|exact Ht2|exact Hf2|] ]; simpl.
      * intros x [<-|Hx]; [by left|by right].
      * by intros x <-.
  - intros Hd. destruct (IH _ _ _ Hg Hok Hd) as [Ht Hf]. split.
    + eapply touches_at_mono; [|exact Ht]. intros x Hx. by right.
    + eapply found_mono; [|exact Hf]. intros x Hx. by right.
Qed.

Definition in_pair (p : tradePair) (key : string) : Prop :=
  String.prefix (limit_index_prefix (tpSource p) (tpTarget p)) key = true.

Lemma in_pair_index p key : in_pair p key -> is_index_key key = true.
Proof.
  unfold in_pair. rewrite pair_prefix. intros (r & ->)%prefix_split. unfold is_index_key.
  rewrite <- str_app_assoc. by rewrite prefix_app, orb_true_r.
Qed.

Lemma iterator_ok k source target : good k ->
  let es := GetAdvSwapQueueIndexIterator k SwapType_limit source target in
  entries_ok k es /\ forall key, key ∈ map fst es -> in_pair (mkTradePair source target) key.
Proof.
  intros Hg es. unfold es, GetAdvSwapQueueIndexIterator. clear es.
  set (f := fun e : string * list string => String.prefix (limit_index_prefix source target) (fst e)).
  set (l := List.filter f (map_to_list (kStrings k))).
  assert (forall e, e ∈ rev (stable_sort by_key l) <-> e ∈ l) as Hin.
  { intros e. rewrite list_elem_of_In, <- in_rev, <- list_elem_of_In. by rewrite stable_sort_perm. }
  assert (forall e, e ∈ l -> f e = true /\ kStrings k !! fst e = Some (snd e)) as Hl.
  { intros [key rs] He%list_elem_of_In. apply List.filter_In in He as [He Hf]. split; [done|].
    by apply list_elem_of_In, elem_of_map_to_list in He. }
  split.
  - split.
    + rewrite map_rev, <- Permutation_rev, (stable_sort_perm by_key l).
      subst l. clear Hin Hl. pose proof (NoDup_fst_map_to_list (kStrings k)) as Hnd.
      induction (map_to_list (kStrings k)) as [|e es IH]; simpl in *; [done|].
      apply NoDup_cons in Hnd as [Hx Hnd]. case_match; simpl; [|auto].
      apply NoDup_cons. split; [|auto]. intros (e' & He & He')%list_elem_of_fmap. apply Hx.
      apply list_elem_of_In, List.filter_In in He' as [He' _]. rewrite He.
      by apply list_elem_of_fmap_2, list_elem_of_In.
    + apply Forall_forall. intros [key rs] He%Hin. destruct (Hl _ He) as [Hf Hs]. simpl in *.
      pose proof (in_pair_index (mkTradePair source target) key Hf) as Hik.
      assert (index_record k key = rs) as Hr by (unfold index_record, getStrings; by rewrite Hs).
      rewrite <- Hr. split; [by apply good_queue|].
      apply Forall_forall. intros r Hr'. by apply queue_resolves; [apply good_queue| |].
  - intros key (e & -> & He%Hin)%list_elem_of_fmap. by apply Hl.
Qed.

Lemma discover_pairs_spec pools pairs : forall k k' items, good k ->
  Forall plain_pair pairs -> NoDup (map pair_name pairs) ->
  discover_pairs env k pools pairs = Ok (k', items) ->
  let Q key := exists p, p ∈ pairs /\ in_pair p key in
  touches_at Q k k' /\ found Q k' items.
Proof.
  induction pairs as [|p pairs IH]; intros k k' items Hg Hpl Hnd; simpl.
  { intros [= <- <-]. split; [by apply touches_at_refl|apply found_nil]. }
  apply Forall_cons in Hpl as [Hp Hpl]. simpl in Hnd. apply NoDup_cons in Hnd as [Hname Hnd].
  intros (r1 & H1 & Hd)%bind_Ok_inv. destruct r1 as [k1 items1].
  apply bind_Ok_inv in Hd as ([k2 items2] & H2 & [= -> <-]).
  destruct (iterator_ok k (tpSource p) (tpTarget p) Hg) as [Hok Hpref].
  destruct (discover_entries_spec _ _ _ _ _ _ Hg Hok H1) as [Ht1 Hf1].
  apply (touches_at_mono _ (in_pair p)) in Ht1; [|exact Hpref].
  apply (found_mono _ (in_pair p)) in Hf1; [|exact Hpref].
  destruct (IH _ _ _ (proj1 Ht1) Hpl Hnd H2) as [Ht2 Hf2]. split.
  - eapply touches_at_trans; (eapply touches_at_mono; [|eassumption]); simpl.
    + intros x Hx. exists p. split; [by left|done].
    + intros x (q & ? & ?). exists q. split; [by right|done].
  - eapply found_mono; [|eapply found_app; [exact Hf1|exact Ht2|exact Hf2|] ]; simpl.
    + intros x [Hx|(q & ? & ?)]; [exists p; split; [by left|done]|exists q; split; [by right|done] ].
    + intros x Hx (q & Hq & Hxq). apply Hname. rewrite Forall_forall in Hpl.
      rewrite (pair_prefix_unique p q x Hp (Hpl q Hq) Hx Hxq). by apply list_elem_of_fmap_2.
Qed.

Lemma stored_get k id i msg : good k -> GetAdvSwapQueueItem k id i = Ok msg -> stored k msg.
Proof. intros Hg Hm. by destruct (item_key_of _ _ _ _ _ (good_queue _ Hg) Hm) as [_ ?]. Qed.

Lemma fetch_market_spec k key : forall entries items, good k -> NoDup entries ->
  Forall (fun e => exists msg, GetAdvSwapQueueItem k e.1 e.2 = Ok msg /\ txID (mTx msg) = e.1 /\
    mIndex msg = e.2 /\ getAdvSwapQueueIndexKey msg = Ok key) entries ->
  fetch_market env k entries = Ok items ->
  found (eq key) k items /\ Forall (fun it => itemKey it ∈ entries) items.
Proof.
  intros entries. induction entries as [|[id i] entries IH]; intros items Hg Hnd Hall; simpl.
  { intros [= <-]. split; [apply found_nil|done]. }
  apply NoDup_cons in Hnd as [Hne Hnd].
  apply Forall_cons in Hall as [ (msg & Hm & Hid & Hi & Hkey) Hall]. simpl in *. rewrite Hm.
  intros (ready & _ & Hd)%bind_Ok_inv. apply bind_Ok_inv in Hd as (rest & Hrest & [= <-]).
  destruct (IH rest Hg Hnd Hall Hrest) as [Hf Hv].
  assert (Forall (fun it => itemKey it ∈ (id, i) :: entries) rest) as Hv'.
  { eapply Forall_impl; [exact Hv|]. intros it Hit. by right. }
  destruct ready; [|done].
  split; [|constructor; [unfold itemKey, GetHash; simpl; rewrite Hid; by left|done] ].
  destruct Hf as [Hs Hk Hn]. split; simpl.
  - constructor; [|done]. split; [by eapply stored_get|done].
  - constructor; [|done]. eauto.
  - apply NoDup_cons. split; [|done]. intros (it & He & Hit)%list_elem_of_fmap.
    rewrite Forall_forall in *. destruct (Hs it Hit) as [Hst Hii].
    pose proof (stored_get _ _ _ _ Hg Hm) as Hst'. unfold stored in *. rewrite He, Hst in Hst'.
    injection Hst' as Heq. apply Hne. specialize (Hv it Hit). unfold itemKey, GetHash in Hv.
    by rewrite Hii, Heq, Hid, Hi in Hv.
Qed.

(** The pairs of the available pools have distinct names. *)
Lemma iterate_pools_NoDup k : pools_named k ->
  NoDup (map (fun p => Asset_String (plAsset p)) (GetPools k)) /\
  Forall (fun p => poolable (plAsset p)) (GetPools k).
Proof.
  intros Hp. unfold GetPools, iterate.
  assert (forall l, Forall (fun e => kPools k !! fst e = Some (snd e)) l -> NoDup (map fst l) ->
    NoDup (map (fun p => Asset_String (plAsset p)) (map snd l)) /\
    Forall (fun p => poolable (plAsset p)) (map snd l)) as Hgen.
  { intros l. induction 1 as [|[key p] l Hk Hl IH]; simpl; [split; constructor|].
    intros [Hkey Hnd]%NoDup_cons. destruct (IH Hnd) as [IHn IHf]. destruct (Hp _ _ Hk) as (He & ?).
    split; [|by constructor]. apply NoDup_cons. split; [|done].
    intros (p' & Hn & Hp')%list_elem_of_fmap. apply list_elem_of_fmap in Hp' as ([key' q] & -> & Hin).
    rewrite Forall_forall in Hl. specialize (Hl _ Hin). simpl in *. destruct (Hp _ _ Hl) as (He' & _).
    apply Hkey. rewrite He, Hn, <- He'. by apply (list_elem_of_fmap_2 fst _ (key', q)). }
  apply Hgen.
  - apply Forall_forall. intros [key p]. rewrite stable_sort_perm. by intros ?%elem_of_map_to_list.
  - rewrite (stable_sort_perm by_key). apply NoDup_fst_map_to_list.
Qed.

Lemma NoDup_map_filter {A C} (f : A -> C) (g : A -> bool) l : NoDup (map f l) ->
  NoDup (map f (List.filter g l)).
Proof.
  induction l as [|x l IH]; simpl; [done|]. intros [Hx Hnd]%NoDup_cons. case_match; simpl; [|auto].
  apply NoDup_cons. split; [|auto]. intros (y & He & Hy)%list_elem_of_fmap. apply Hx. rewrite He.
  apply list_elem_of_In, List.filter_In in Hy as [Hy _]. by apply list_elem_of_fmap_2, list_elem_of_In.
Qed.

Lemma getAssetPairs_spec k pairs pools : pools_named k -> getAssetPairs k = (pairs, pools) ->
  Forall plain_pair pairs /\ NoDup (map pair_name pairs).
Proof.
  intros Hp. unfold getAssetPairs. set (pools' := List.filter _ (GetPools k)).
  set (assets := DecaAsset :: map plAsset pools'). intros Heq. apply (f_equal fst) in Heq.
  cbn [fst] in Heq. subst pairs.
  destruct (iterate_pools_NoDup k Hp) as [Hnd Hall].
  assert (Forall pool_asset assets) as Hpa.
  { constructor; [apply pool_asset_deca|]. apply Forall_map, Forall_forall.
    intros p [Hin Hf]%list_elem_of_In%List.filter_In. rewrite Forall_forall in Hall.
    apply andb_true_iff in Hf as [_ Hf%negb_true_iff].
    by apply (Hall p); [apply list_elem_of_In|]. }
  assert (NoDup (map Asset_String assets)) as Hna.
  { simpl. apply NoDup_cons. split.
    - intros (a & He & Ha)%list_elem_of_fmap. apply list_elem_of_fmap in Ha as (p & -> & Hin).
      apply list_elem_of_In, List.filter_In in Hin as [Hin Hf]. rewrite Forall_forall in Hall.
      apply andb_true_iff in Hf as [_ Hf%negb_true_iff].
      destruct (Hall p) as [Hpp Hd]; [by apply list_elem_of_In|done|].
      unfold IsDeca in Hd. by rewrite (pool_asset_name_inj DecaAsset _ pool_asset_deca Hpp He) in Hd.
    - rewrite map_map. by apply NoDup_map_filter. }
  clearbody assets. clear Hnd Hall pools'.
  assert (forall a2s, Forall pool_asset a2s -> NoDup (map Asset_String a2s) -> forall a1, pool_asset a1 ->
    let ps := omap (fun a2 => if Asset_Equals a1 a2 then None else Some (genTradePair a1 a2)) a2s in
    Forall plain_pair ps /\ NoDup (map pair_name ps) /\
    Forall (fun p => tpSource p = a1 /\ tpTarget p ∈ a2s) ps) as Hrow.
  { intros a2s Ha2s. induction Ha2s as [|a2 a2s Ha2 Ha2s IH]; intros Hn a1 Ha1; simpl;
      [repeat constructor|].
    simpl in Hn. apply NoDup_cons in Hn as [Hx Hn]. destruct (IH Hn a1 Ha1) as (H1 & H2 & H3).
    assert (Forall (fun p => tpSource p = a1 /\ tpTarget p ∈ a2 :: a2s)
      (omap (fun a2 => if Asset_Equals a1 a2 then None else Some (genTradePair a1 a2)) a2s)) as H3'.
    { eapply Forall_impl; [exact H3|]. intros p [? ?]. split; [done|by right]. }
    destruct (Asset_Equals a1 a2); simpl; [done|]. split_and!.
    - constructor; [by split|done].
    - apply NoDup_cons. split; [|done]. intros (p & He & Hin)%list_elem_of_fmap. apply Hx.
      rewrite Forall_forall in H3, H1. destruct (H3 p Hin) as [Hs Ht]. destruct (H1 p Hin) as [_ Hp2].
      unfold pair_name in He. rewrite Hs in He. simpl in He. rewrite !pool_asset_layer1 in He by done.
      change (">" ++ Asset_String a2)%string with (String ">" (Asset_String a2)) in He.
      change (">" ++ Asset_String (tpTarget p))%string with (String ">" (Asset_String (tpTarget p))) in He.
      apply app_char_inj in He as [_ He]; [|by apply Ha1..]. rewrite He. by apply list_elem_of_fmap_2.
    - constructor; [|done]. split; [done|by left]. }
  assert (forall a1s, Forall pool_asset a1s -> NoDup (map Asset_String a1s) ->
    let ps := flat_map (fun a1 => omap (fun a2 =>
       if Asset_Equals a1 a2 then None else Some (genTradePair a1 a2)) assets) a1s in
    Forall plain_pair ps /\ NoDup (map pair_name ps) /\ Forall (fun p => tpSource p ∈ a1s) ps) as Hall.
  { intros a1s Ha1s. induction Ha1s as [|a1 a1s Ha1 Ha1s IH]; intros Hn; simpl; [repeat constructor|].
    simpl in Hn. apply NoDup_cons in Hn as [Hx Hn]. destruct (IH Hn) as (H1 & H2 & H3).
    destruct (Hrow assets Hpa Hna a1 Ha1) as (R1 & R2 & R3). split_and!.
    - by apply Forall_app.
    - rewrite map_app. apply NoDup_app. split_and!; [done| |done].
      intros n (p & -> & Hin)%list_elem_of_fmap (q & He & Hin')%list_elem_of_fmap. apply Hx.
      rewrite Forall_forall in H3, H1, R1, R3. destruct (R3 p Hin) as [Hs _].
      pose proof (pair_name_inj p q (R1 p Hin) (H1 q Hin') He) as Heq.
      unfold tradePair_Equals in Heq. apply andb_true_iff in Heq as [Heq _]. rewrite Hs in Heq.
      apply Asset_Equals_spec in Heq. rewrite Heq. apply list_elem_of_fmap_2. by apply H3.
    - apply Forall_app. split; (eapply Forall_impl; [eassumption|]); simpl.
      + intros p [-> _]. by left.
      + intros p ?. by right. }
  destruct (Hall assets Hpa Hna) as (? & ? & _). done.
Qed.

(** The pairs to look at again: pool pairs, each once. *)
Definition todo_ok (todo : list tradePair) : Prop := Forall plain_pair todo /\ pairs_distinct todo.

Lemma market_key_not_pair p : plain_pair p -> ~ in_pair p (GetKey prefixAdvSwapQueueMarketIndex "").
Proof. unfold in_pair. rewrite pair_prefix. by intros _ ?. Qed.

Lemma FetchQueue_spec k pairs pools todo k' items : good k ->
  Forall plain_pair pairs -> NoDup (map pair_name pairs) -> todo_ok todo ->
  FetchQueue env k pairs pools todo = Ok (k', items) ->
  good k' /\ found (fun _ => True) k' items.
Proof.
  intros Hg Hpl Hnd [Htp Htd]. unfold FetchQueue.
  case_match; [intros [= <- <-]; split; [done|apply found_nil]|].
  intros (market & Hm & Hf)%bind_Ok_inv. apply bind_Ok_inv in Hf as (items1 & H1 & Hf).
  apply bind_Ok_inv in Hf as ([k1 items2] & H2 & [= <- <-]).
  destruct (index_listing k market_probe _ market (good_queue _ Hg) eq_refl Hm) as [Hndm Hin].
  assert (found (eq (GetKey prefixAdvSwapQueueMarketIndex "")) k items1) as Hf1.
  { eapply fetch_market_spec; [done|exact Hndm| |exact H1].
    apply Forall_forall. intros [id i] Hi. by apply Hin. }
  assert (Forall plain_pair (match todo with [] => pairs | _ => todo end) /\
    NoDup (map pair_name (match todo with [] => pairs | _ => todo end))) as [Hp Hn].
  { destruct todo; [done|]. split; [done|]. by apply distinct_pair_names. }
  destruct (discover_pairs_spec _ _ _ _ _ Hg Hp Hn H2) as [Ht Hf2]. split; [apply Ht|].
  eapply found_mono; [|eapply found_app; [exact Hf1|exact Ht|exact Hf2|] ]; [done|].
  intros key <- (p & Hpin & Hin'). rewrite Forall_forall in Hp. by eapply market_key_not_pair; [apply Hp|].
Qed.

(** Scoring and sorting only rearrange. *)
Lemma scoreMsgs_same k mult items items' : scoreMsgs k items mult = Ok items' ->
  map (fun it => (siMsg it, siIndex it)) items' = map (fun it => (siMsg it, siIndex it)) items.
Proof.
  assert (forall pool c item m item', getLiquidityFeeAndSlip pool c item m = Ok item' ->
    siMsg item' = siMsg item /\ siIndex item' = siIndex item) as Hliq.
  { intros pool c item m item' Hl. unfold getLiquidityFeeAndSlip in Hl.
    destruct (if Coin_IsDeca c then _ else _) as [X Y].
    do 7 (apply bind_Ok_inv in Hl as (? & _ & Hl)). by injection Hl as <-. }
  revert items'. induction items as [|item items IH]; intros items'; simpl; [by intros [= <-]|].
  intros (it & Hs & Hd)%bind_Ok_inv. apply bind_Ok_inv in Hd as (rest & Hr & [= <-]).
  simpl. rewrite (IH _ Hr). f_equal. clear -Hs Hliq. unfold score_msg in Hs.
  apply bind_Ok_inv in Hs as (coin & _ & Hs). case_match; [by injection Hs as <-|].
  apply bind_Ok_inv in Hs as ([size tgt] & _ & Hs). apply bind_Ok_inv in Hs as (it1 & H1 & Hs).
  destruct (Hliq _ _ _ _ _ H1) as [Hm1 Hi1]. case_match; [injection Hs as <-; by rewrite Hm1, Hi1|].
  apply bind_Ok_inv in Hs as (rune & _ & Hs). case_match.
  - injection Hs as <-. simpl. by rewrite Hm1, Hi1.
  - destruct (Hliq _ _ _ _ _ Hs) as [-> ->]. by rewrite Hm1, Hi1.
Qed.

Lemma found_same Q k items items' : found Q k items ->
  map (fun it => (siMsg it, siIndex it)) items' = map (fun it => (siMsg it, siIndex it)) items ->
  found Q k items'.
Proof.
  intros [Hs Hk Hn] He.
  assert (forall P : MsgSwap * Z -> Prop, Forall (fun it => P (siMsg it, siIndex it)) items ->
    Forall (fun it => P (siMsg it, siIndex it)) items') as Htr.
  { intros P HP. apply (Forall_map (fun it => (siMsg it, siIndex it)) P). rewrite He.
    by apply (Forall_map (fun it => (siMsg it, siIndex it)) P). }
  split.
  - by apply (Htr (fun p => stored k p.1 /\ p.2 = mIndex p.1)).
  - by apply (Htr (fun p => exists key, getAdvSwapQueueIndexKey p.1 = Ok key /\ Q key)).
  - assert (forall l : list swapItem, map (fun it => msg_key (siMsg it)) l =
      map (fun p : MsgSwap * Z => msg_key p.1) (map (fun it => (siMsg it, siIndex it)) l)) as Hmm
      by (intros l; by rewrite map_map).
    by rewrite Hmm, He, <- Hmm.
Qed.

Lemma found_keys Q k items : found Q k items -> NoDup (map itemKey items).
Proof.
  intros [Hs _ Hn]. apply (NoDup_fmap_1 (fun p : TxID * Z => adv_item_key p.1 p.2)).
  rewrite <- list_fmap_compose. eapply (eq_ind _ (fun l => NoDup l)); [exact Hn|].
  apply list_fmap_ext. intros i it Hi. rewrite Forall_forall in Hs.
  destruct (Hs it) as [_ Hii]; [by eapply list_elem_of_lookup_2|].
  unfold msg_key, itemKey, GetHash. simpl. by rewrite Hii.
Qed.

Lemma found_perm Q k items items' : found Q k items -> items' ≡ₚ items -> found Q k items'.
Proof. intros [Hs Hk Hn] Hp. split; by rewrite Hp. Qed.

Lemma found_sorted Q k items : found Q k items -> found Q k (Sort items).
Proof.
  intros Hf. eapply found_perm; [exact Hf|].
  rewrite Sort_items by (by eapply found_keys). by rewrite !stable_sort_perm.
Qed.

(** *** Execution *)

Lemma grows_touches V k k' : good k -> queue_grows k k' -> pools_named k' -> touches V k k'.
Proof.
  intros [Hq Hp] Hgr Hp'. destruct (queue_grows_ok _ _ Hgr Hq) as [Hq' Hsub].
  split; [by split|]. intros key msg _ Hm. by eapply lookup_weaken.
Qed.

Lemma set_item_pools k msg k' : SetAdvSwapQueueItem k msg = Ok k' -> kPools k' = kPools k.
Proof.
  unfold SetAdvSwapQueueItem. do 2 (case_match; [done|]).
  intros (k1 & (? & _ & [s ->] & _)%SetIndex_spec & [= <-])%bind_Ok_inv. done.
Qed.

Lemma save_attempt_touches k msg st k' : good k -> stored k msg ->
  save_attempt env k (with_state msg st) = Ok k' -> touches (eq (msg_key msg)) k k'.
Proof.
  intros Hg Hs. unfold save_attempt. intros (k1 & H1 & H2)%bind_Ok_inv.
  assert (settled : forall k1 m, good k1 -> stored k1 m -> msg_key m = msg_key msg ->
    (exists st', with_state msg st = with_state m st') ->
    (if queue_IsDone env k1 (with_state msg st) then settle_or_log env k1 (with_state msg st)
     else Ok k1) = Ok k' -> touches (eq (msg_key msg)) k1 k').
  { intros k2 m Hg2 Hs2 Hkey [st' ->].
    destruct (queue_IsDone env k2 _); [|intros Heq; injection Heq as <-; by apply touches_refl].
    unfold settle_or_log.
    destruct (settleSwap _ _ _) as [k3|e|] eqn:E; [| |done]; intros Heq; injection Heq as <-.
    - rewrite <- Hkey. by destruct (settle_touches _ _ _ _ Hg2 Hs2 E).
    - by apply touches_refl. }
  destruct (SetAdvSwapQueueItem k (with_state msg st)) as [k2|e|] eqn:E; [| |done];
    injection H1 as <-.
  - assert (touches (eq (msg_key msg)) k k2) as Ht.
    { pose proof (Set_items _ _ _ E) as Hi. split; [split|].
      - eapply set_state_ok; [by apply good_queue|exact Hs|exact E].
      - unfold pools_named; rewrite (set_item_pools _ _ _ E). by destruct Hg.
      - intros key m Hne Hm. rewrite Hi. by rewrite lookup_insert_ne. }
    eapply touches_trans; [exact Ht|]. apply (settled k2 (with_state msg st)); [apply Ht| |done|by exists st|exact H2].
    unfold stored. rewrite (Set_items _ _ _ E). apply lookup_insert_eq.
  - apply (settled k msg); [done..|by exists st|exact H2].
Qed.

Lemma record_success_state msg size emit height msg' : record_success msg size emit height = Ok msg' ->
  exists st, msg' = with_state msg st.
Proof.
  unfold record_success. intros (a & _ & Hd)%bind_Ok_inv. apply bind_Ok_inv in Hd as (b & _ & [= <-]).
  eauto.
Qed.

(** After a pick has been dealt with, the others are still to be dealt with. *)
Lemma found_rest k k' it items : found (fun _ => True) k (it :: items) ->
  touches (eq (msg_key (siMsg it))) k k' -> found (fun _ => True) k' items.
Proof.
  intros [Hs Hk Hn] Ht. simpl in Hn. apply NoDup_cons in Hn as [Hx Hn].
  apply Forall_cons in Hs as [_ Hs], Hk as [_ Hk].
  eapply found_touches; [by split|exact Ht|]. apply Forall_forall. intros it' Hit' He. apply Hx.
  rewrite He. by apply (list_elem_of_fmap_2 (fun it => msg_key (siMsg it))).
Qed.

Lemma run_swaps_spec pairs iteration budget swaps : forall l attempted success l' n,
  Forall plain_pair pairs -> good (qlStore l) -> todo_ok (qlTodo l) ->
  found (fun _ => True) (qlStore l) swaps ->
  run_swaps env l pairs iteration budget attempted success swaps = Ok (l', n) ->
  good (qlStore l') /\ todo_ok (qlTodo l').
Proof.
  induction swaps as [|pick swaps IH]; intros l attempted success l' n Hpl Hg Ht Hf; simpl.
  { by intros [= <- _]. }
  case_match; [by intros [= <- _]|].
  assert (touches (eq (msg_key (siMsg pick))) (qlStore l) (qlStore l)) as Hrefl by (by apply touches_refl).
  pose proof (found_rest _ _ _ _ Hf Hrefl) as Hskip.
  intros (skip & _ & Hd)%bind_Ok_inv. destruct skip; [by eapply IH|].
  apply bind_Ok_inv in Hd as (coin & _ & Hd). apply bind_Ok_inv in Hd as ([size target] & _ & Hd).
  assert (stored (qlStore l) (siMsg pick)) as Hst
    by (pose proof (found_stored _ _ _ Hf) as Hs; by apply Forall_cons in Hs as [ [? _] _]).
  destruct (qeRunSwap env _ _) as [ [k1 emit]|e|] eqn:Er; [| |done].
  - apply bind_Ok_inv in Hd as (dirs & _ & Hd). apply bind_Ok_inv in Hd as (msg' & Hm & Hd).
    apply bind_Ok_inv in Hd as (k2 & Hsave & Hd). apply record_success_state in Hm as [st ->].
    assert (touches (eq (msg_key (siMsg pick))) (qlStore l) k1) as Ht1.
    { apply grows_touches; [done|by eapply run_swap_grows|by eapply run_swap_pools, Hg]. }
    assert (stored k1 (siMsg pick)) as Hst1.
    { destruct (queue_grows_ok (qlStore l) k1) as [_ Hsub]; [by eapply run_swap_grows|apply Hg|].
      by eapply lookup_weaken. }
    assert (touches (eq (msg_key (siMsg pick))) (qlStore l) k2) as Ht2
      by (eapply touches_trans; [exact Ht1|]; eapply save_attempt_touches; [apply Ht1|done|exact Hsave]).
    eapply IH; [exact Hpl| | | |exact Hd]; simpl; [apply Ht2| |by eapply found_rest].
    case_match; [done|]. destruct Ht as [Htp Htd].
    split; [by apply findMatching_Forall|by apply findMatching_distinct].
  - case_match; [by eapply IH|]. apply bind_Ok_inv in Hd as (k2 & Hsave & Hd).
    pose proof (save_attempt_touches _ _ _ _ Hg Hst Hsave) as Ht2.
    eapply IH; [exact Hpl| | | |exact Hd]; simpl; [apply Ht2|done|by eapply found_rest].
Qed.

Lemma rapid_swaps_good qs fuel : forall iteration prev l k', good (qlStore l) -> todo_ok (qlTodo l) ->
  rapid_swaps env qs fuel iteration prev l = Ok k' -> good k'.
Proof.
  induction fuel as [|fuel IH]; intros iteration prev l k' Hg Ht; simpl; [by intros [= <-]|].
  case_match; [by intros [= <-]|].
  destruct (if qeSimulation env then _ else _) as [pairs pools] eqn:Ep.
  assert (Forall plain_pair pairs /\ NoDup (map pair_name pairs)) as [Hpl Hnd].
  { destruct (qeSimulation env); [|by eapply getAssetPairs_spec, Ep; apply Hg].
    injection Ep as <- <-. split; constructor. }
  intros (r & Hfetch & Hd)%bind_Ok_inv. destruct r as [k1 swaps].
  destruct (FetchQueue_spec _ _ _ _ _ _ Hg Hpl Hnd Ht Hfetch) as [Hg1 Hf1].
  destruct swaps as [|s swaps]; [by injection Hd as <-|].
  apply bind_Ok_inv in Hd as (scored & Hs & Hd).
  apply bind_Ok_inv in Hd as ([l' success] & Hr & Hd).
  pose proof (found_same _ _ _ _ Hf1 (scoreMsgs_same _ _ _ _ Hs)) as Hf2.
  apply found_sorted in Hf2.
  apply run_swaps_spec in Hr as [Hg2 Ht2]; [|done..]. by eapply IH.
Qed.

(** *** Expiry *)

Lemma expire_items_good fuel : forall k id i b k' b', good k ->
  expire_items env fuel k id i b = Ok (k', b') -> good k'.
Proof.
  induction fuel as [|fuel IH]; intros k id i b k' b' Hg; simpl; [by intros [= <- _]|].
  destruct (GetAdvSwapQueueItem k id i) as [msg|e|] eqn:Em; [|by intros [= <- _]|done].
  case_match; [|by apply IH]. rewrite <- (with_state_id msg).
  destruct (settleSwap env k _) as [k1|e|] eqn:E; [|by apply IH|done]. apply IH.
  destruct (settle_touches _ _ _ _ Hg (stored_get _ _ _ _ Hg Em) E) as [ [? _] _]. done.
Qed.

Lemma expire_hashes_good hashes : forall k k' failed, good k ->
  expire_hashes env k hashes = Ok (k', failed) -> good k'.
Proof.
  induction hashes as [|id hashes IH]; intros k k' failed Hg; simpl; [by intros [= <- _]|].
  intros (r & H1 & Hd)%bind_Ok_inv. destruct r as [k1 b]. apply bind_Ok_inv in Hd as ([k2 f] & H2 & [= <- _]).
  eapply IH; [|exact H2]. 
  exact (expire_items_good (Datatypes.S (size (kAdvSwapQueue k))) k id 0 false k1 b Hg H1).
Qed.

Lemma set_strings_good k key l : is_index_key key = false -> good k -> good (setStrings k key l).
Proof.
  intros Hk [Hq Hp]. destruct (setStrings_with k key l) as [m Hm]. split; [|by rewrite Hm].
  eapply frame_ok; [exact Hq|by rewrite Hm|]. intros key' Hk'. rewrite setStrings_record.
  case_decide; subst; congruence.
Qed.

Lemma retry_expiry_good failed : forall k, good k -> good (retry_expiry k failed).
Proof.
  unfold retry_expiry. induction failed as [|id failed IH]; intros k Hg; simpl; [done|]. apply IH.
  destruct (AddToLimitSwapTTL k (kHeight k + 1) id) as [k1|e|] eqn:E; [|done..].
  unfold AddToLimitSwapTTL in E. case_match; [done|]. apply bind_Ok_inv in E as (l & _ & E).
  case_match; [by injection E as <-|]. unfold SetLimitSwapTTL in E. case_match; [done|].
  injection E as <-. by apply set_strings_good.
Qed.

Lemma expire_height_good k h k' : good k -> expire_height env k h = Ok k' -> good k'.
Proof.
  intros Hg. unfold expire_height.
  destruct (GetLimitSwapTTL k h) as [ [|id hashes]|e|]; [by intros [= <-]| |by intros [= <-]|done].
  intros (r & H1 & Hd)%bind_Ok_inv. destruct r as [k1 failed]. injection Hd as <-.
  apply retry_expiry_good. unfold RemoveLimitSwapTTL.
  pose proof (expire_hashes_good _ _ _ _ Hg H1) as Hg1. case_match; [done|].
  by apply (set_strings_good k1 (ttl_key h) []).
Qed.

Lemma processExpired_good k k' : good k -> processExpiredLimitSwaps env k = Ok k' -> good k'.
Proof.
  unfold processExpiredLimitSwaps. generalize (expiry_heights (kHeight k)
    (queue_config env k "StreamingLimitSwapMaxAge")) as hs. intros hs. revert k.
  induction hs as [|h hs IH]; intros k Hg; simpl; [by intros [= <-]|].
  intros (k1 & H1 & H2)%bind_Ok_inv. eapply IH; [|exact H2]. by eapply expire_height_good.
Qed.

Lemma EndBlock_good k k' : good k -> queue_EndBlock env k = Ok k' -> good k'.
Proof.
  intros Hg. unfold queue_EndBlock. intros (k1 & H1 & H2)%bind_Ok_inv.
  assert (todo_ok []) as Ht by (split; [constructor|]; intros i j x y Hi; by rewrite lookup_nil in Hi).
  assert (good k1) as Hg1 by (eapply rapid_swaps_good; [| |exact H1]; done).
  case_match; [by injection H2 as <-|by eapply processExpired_good].
Qed.

(** C32. One pass looks at no swap twice: the swaps fetched for a block, market
    swaps first and then the limit swaps of every pair, are stored swaps with
    distinct hashes and indexes, whatever limit swaps were settled on the way. *)
Theorem FetchQueue_each_once k pairs pools todo k' items : good k ->
  getAssetPairs k = (pairs, pools) -> todo_ok todo ->
  FetchQueue env k pairs pools todo = Ok (k', items) ->
  NoDup (map itemKey items) /\
  Forall (fun it => GetAdvSwapQueueItem k' (GetHash it) (siIndex it) = Ok (siMsg it)) items.
Proof.
  intros Hg Hp Ht Hf. destruct (getAssetPairs_spec _ _ _ (good_pools _ Hg) Hp) as [Hpl Hnd].
  destruct (FetchQueue_spec _ _ _ _ _ _ Hg Hpl Hnd Ht Hf) as [_ Hfound].
  split; [by eapply found_keys|]. eapply Forall_impl; [apply Hfound|]. intros it [Hs Hi].
  unfold GetAdvSwapQueueItem, GetHash. rewrite Hi. unfold stored, msg_key in Hs. by rewrite Hs.
Qed.
End discovery.

(** ** The properties at concrete inputs *)

Definition demo_book_env : QueueEnv (KVStore SimpleBank) :=
  mkQueueEnv (fun _ k => k) (fun _ _ => 0) (fun _ => Some 4) (fun _ _ => true)
    (fun _ _ k => (k, Ok true)) (fun _ _ => (EmptyMemo, Some "no memo")) [] (fun _ _ => Ok tt)
    (fun msg k => Ok (k, TradeTarget msg + 1)) false
    (fun name => match name with
       | "AdvSwapQueueRapidSwapMax" => 2
       | "MaxSwapsPerBlock" | "StreamingLimitSwapMaxAge" => 100
       | "VirtualMultSynthsBasisPoints" => 10000
       | _ => 0
       end).

#[export] Instance demo_book_env_ok : QueueEnvOk demo_book_env.
Proof. split; simpl; [done|]. by intros ? ? ? ? [= <- _]. Qed.

#[export] Instance demo_book_env_pools : QueueEnvPools demo_book_env.
Proof. split; simpl; [done|]. by intros ? ? ? ? [= <- _]. Qed.

Definition demo_pool (a : Asset) (units : Z) : Pool :=
  mkPool (10 ^ 12) units a 1000 PoolStatus_Available 0 0 0 0 0.
Definition demo_book : KVStore SimpleBank :=
  ok_or demo_queue_0
    (SetPool (ok_or demo_queue_0 (SetPool demo_queue_3 (demo_pool BTCAsset (10 ^ 10))))
       (demo_pool ETHAsset (10 ^ 13))).
Definition demo_book_done : KVStore SimpleBank :=
  ok_or demo_queue_0 (queue_EndBlock demo_book_env demo_book).

Lemma demo_pool_asset a : a = BTCAsset \/ a = ETHAsset -> pool_asset a /\ IsDeca a = false.
Proof. intros [-> | ->]; repeat split. Qed.

Lemma demo_book_good : good demo_book.
Proof.
  assert (kAdvSwapQueue demo_book = kAdvSwapQueue demo_queue_3 /\
    kStrings demo_book = kStrings demo_queue_3) as [Hq Hs] by (split; vm_compute; reflexivity).
  assert (Hp : kPools demo_book =
    <[GetKey prefixPool (Asset_String ETHAsset) := demo_pool ETHAsset (10 ^ 13)]>
      (<[GetKey prefixPool (Asset_String BTCAsset) := demo_pool BTCAsset (10 ^ 10)]> ∅))
    by (vm_compute; reflexivity).
  split.
  - eapply frame_ok; [exact demo_queue_ok|exact Hq|].
    intros key _. unfold index_record, getStrings. by rewrite Hs.
  - intros key p. rewrite Hp. intros [ [<- <-] | [_ [ [<- <-] | [_ H] ]%lookup_insert_Some] ]%lookup_insert_Some.
    + split; [done|]. intros _. apply demo_pool_asset. by right.
    + split; [done|]. intros _. apply demo_pool_asset. by left.
    + by rewrite lookup_empty in H.
Qed.

Definition demo_fetched : list swapItem :=
  ok_or [] (fetched ← FetchQueue demo_book_env demo_book (fst (getAssetPairs demo_book))
    (snd (getAssetPairs demo_book)) []; Ok (snd fetched)).

Lemma FetchQueue_each_once_witness :
  map itemKey demo_fetched = [(demo_hash, 0); (demo_hash, 1)] /\ NoDup (map itemKey demo_fetched).
Proof.
  split; [vm_compute; reflexivity|].
  apply (FetchQueue_each_once demo_book_env demo_book (fst (getAssetPairs demo_book))
    (snd (getAssetPairs demo_book)) [] demo_book demo_fetched).
  - exact demo_book_good.
  - by destruct (getAssetPairs demo_book).
  - split; [constructor|]. intros i j x y Hi. by rewrite lookup_nil in Hi.
  - vm_compute. reflexivity.
Defined.
