(* ===== verification/QueueSearch.v ===== *)
(** The loops of the advanced swap queue: the search for limit swaps stops
    early without missing one, the loop over the swaps of an expired
    transaction ends, and the plan of a queued swap stays within the
    configured limits. *)
From S2P Require Import Prelude SdkMath GoStr Keys Shares Chains Assets Coins Bank Nodes Txs.
From S2P Require Import Decimal MemoTypes Voters Mimir Observed Pools Streaming SwapSort SwapCalc Vaults Keeper.
From S2P Require Import LimitIndex Halt VaultStore Swaps Settle SwapQueue QueueProps.
Local Open Scope string_scope.
Local Open Scope Z_scope.

(** ** Prices in keys *)

Lemma digits_no_slash s : str_all is_digit s = true -> no_char "/" s = true.
Proof.
  apply str_all_impl. intros c. unfold is_digit, char_in.
  destruct (Ascii.eqb_spec c "/") as [->|]; done.
Qed.

(** The keys the index writes for limit swaps of a pair. *)
Definition priced (source target : Asset) (price : Z) (key : string) : Prop :=
  0 <= price < 10 ^ 18 /\
  key = limit_index_prefix source target ++ (rewriteRatio ratioLength (itoa price) ++ "/").

Lemma parse_priced source target price key : priced source target price key ->
  parseRatioFromKey key = Ok price.
Proof.
  intros [Hp ->]. destruct (rewriteRatio_padded price Hp) as (Hd & Hl & Hv).
  set (r := rewriteRatio ratioLength (itoa price)) in *.
  assert (exists name, limit_index_prefix source target = "aqlim/" ++ "/" ++ name ++ "/") as [name ->].
  { unfold limit_index_prefix, GetKey. rewrite !to_upper_app.
    exists (to_upper (Asset_String (GetLayer1Asset source)) ++ to_upper ">" ++
      to_upper (Asset_String (GetLayer1Asset target))).
    change (to_upper "/") with "/". by rewrite !str_app_assoc. }
  assert (split_on "/" (("aqlim/" ++ "/" ++ name ++ "/") ++ (r ++ "/")) =
    ("aqlim" :: "" :: split_on "/" name ++ [r; ""])%list) as Hs.
  { rewrite <- !str_app_assoc.
    change (split_on "/" ("aqlim" ++ String "/" ("" ++ String "/" (name ++ String "/" (r ++ String "/" "")))) =
      "aqlim" :: "" :: split_on "/" name ++ [r; ""])%list.
    by rewrite !split_on_app, (split_on_none _ r) by by apply digits_no_slash. }
  unfold parseRatioFromKey. rewrite Hs.
  destruct (split_on_nonempty "/" name) as (p & ps & ->).
  simpl length. rewrite length_app. simpl length.
  rewrite (proj2 (Nat.ltb_ge _ _)) by lia.
  replace (S (S (S (length ps + 2))) - 2)%nat with (S (S (S (length ps)))) by lia.
  change (nth (S (S (S (length ps)))) ("aqlim" :: "" :: ((p :: ps) ++ [r; ""])%list) "")
    with (nth (length ps) (ps ++ [r; ""])%list "").
  rewrite app_nth2, Nat.sub_diag by lia. simpl.
  unfold ParseUint, is_digits. rewrite Hd, Hv.
  rewrite (proj2 (Z.ltb_ge _ _)) by lia.
  destruct r; [discriminate Hl|done].
Qed.

Section search.
Context {B : Type} `{Bank B} {K : SdkKeys} {S : SdkMath} (env : QueueEnv (KVStore B)).
Abbreviation Store := (KVStore B) (only parsing).

(** ** The fee-less check against a price *)

(** The price of the pools for a pair, without fees. *)
Definition feeless_price (pools : list Pool) (pair : tradePair) : outcome (option Z) :=
  let get asset := Pools_Get pools (GetLayer1Asset asset) in
  let some x := (r ← x; Ok (Some r)) in
  if negb (HasRune pair) then
    match get (tpSource pair), get (tpTarget pair) with
    | (sourcePool, true), (targetPool, true) =>
        runeAmt ← GetSafeShare One (BalanceAsset sourcePool) (BalanceDeca sourcePool);
        emit ← GetSafeShare runeAmt (BalanceDeca targetPool) (BalanceAsset targetPool);
        some (queueRatio One emit)
    | _, _ => Ok None
    end
  else if IsDeca (tpSource pair) then
    match get (tpTarget pair) with
    | (pool, true) => some (queueRatio (BalanceDeca pool) (BalanceAsset pool))
    | _ => Ok None
    end
  else
    match get (tpSource pair) with
    | (pool, true) => some (queueRatio (BalanceAsset pool) (BalanceDeca pool))
    | _ => Ok None
    end.

Lemma feeless_check pools pair ratio : checkFeelessSwap pools pair ratio =
  (m ← feeless_price pools pair; Ok (match m with Some p => p <? ratio | None => false end)).
Proof.
  unfold checkFeelessSwap, feeless_price.
  assert (forall x : outcome Z, (r ← x; Ok (r <? ratio)) =
    (m ← (r ← x; Ok (Some r)); Ok (match m with Some p => p <? ratio | None => false end))) as Hx
    by (by intros [|?|]).
  destruct (Pools_Get pools (GetLayer1Asset (tpSource pair))) as [p1 [] ];
    destruct (Pools_Get pools (GetLayer1Asset (tpTarget pair))) as [p2 [] ];
    repeat case_match; try done.
  destruct (GetSafeShare One _ _) as [x|?|]; simpl; try done.
  by destruct (GetSafeShare x _ _); simpl.
Qed.

Lemma feeless_mono pools pair r r' : checkFeelessSwap pools pair r = Ok false -> r' <= r ->
  checkFeelessSwap pools pair r' = Ok false.
Proof.
  rewrite !feeless_check. intros (m & -> & Hm)%bind_Ok_inv Hle. simpl. destruct m as [p|]; [|done].
  injection Hm as Hm. f_equal. lia.
Qed.

(** ** The search without its early exit *)

Fixpoint search_all (k : Store) (pools : list Pool) (pair : tradePair)
    (entries : list (string * list string)) : outcome (Store * list swapItem) :=
  match entries with
  | [] => Ok (k, [])
  | (key, records) :: entries =>
      match parseRatioFromKey key with
      | Panic => Panic
      | Err _ => search_all k pools pair entries
      | Ok ratio =>
          pass ← checkFeelessSwap pools pair ratio;
          if negb (pass : bool) then search_all k pools pair entries
          else
            '(k, items) ← discover_records env k pools records;
            '(k, more) ← search_all k pools pair entries;
            Ok (k, (items ++ more)%list)
      end
  end.

Definition priced_entries (pair : tradePair) (entries : list (string * list string)) : Prop :=
  Forall (fun e => exists price, priced (tpSource pair) (tpTarget pair) price (fst e)) entries.

Lemma search_none k pools pair r entries : priced_entries pair entries ->
  checkFeelessSwap pools pair r = Ok false ->
  Forall (fun e => forall price, priced (tpSource pair) (tpTarget pair) price (fst e) -> price <= r) entries ->
  search_all k pools pair entries = Ok (k, []).
Proof.
  intros Hpr Hr. induction Hpr as [|[key records] entries [p Hp] Hpr IH]; simpl; [done|].
  intros [Hle Hrest]%Forall_cons. pose proof (parse_priced _ _ _ _ Hp) as Hkp; simpl in Hkp; rewrite Hkp.
  rewrite (feeless_mono _ _ _ _ Hr (Hle p Hp)). by apply IH.
Qed.

Lemma sorted_by_app {A} (less : A -> A -> bool) l1 l2 : sorted_by less l1 -> sorted_by less l2 ->
  Forall (fun x => Forall (fun y => less y x = false) l2) l1 -> sorted_by less (l1 ++ l2).
Proof.
  induction l1 as [|x l1 IH]; simpl; [done|]. intros [Hx H1] H2 [Hxl Hl]%Forall_cons.
  split; [by apply Forall_app|by apply IH].
Qed.

Lemma sorted_by_rev {A} (less : A -> A -> bool) l : sorted_by less l ->
  sorted_by (fun x y => less y x) (rev l).
Proof.
  induction l as [|x l IH]; simpl; [done|]. intros [Hx Hl].
  apply sorted_by_app; [by apply IH|done|]. rewrite Forall_forall in *. intros y Hy.
  constructor; [|done]. apply Hx. by rewrite list_elem_of_In, in_rev, <- list_elem_of_In.
Qed.

Lemma discover_is_search pools pair entries : forall k, priced_entries pair entries ->
  sorted_by (fun x y => by_key y x) entries ->
  discover_entries env k pools pair entries = search_all k pools pair entries.
Proof.
  induction entries as [|[key records] entries IH]; intros k Hpr Hs; simpl; [done|].
  apply Forall_cons in Hpr as [ [p Hp] Hpr]. destruct Hs as [Hx Hs].
  pose proof (parse_priced _ _ _ _ Hp) as Hkp; simpl in Hkp; rewrite Hkp.
  destruct (checkFeelessSwap pools pair p) as [ []|e|] eqn:E; simpl; [|  |done..].
  - destruct (discover_records env k pools records) as [ [k1 items]|e|]; simpl; try done.
    by rewrite IH.
  - symmetry. eapply search_none; [exact Hpr|exact E|].
    eapply Forall_impl; [exact Hx|]. intros [key' rs] Hlt price [Hb Hk]. unfold by_key in Hlt.
    destruct Hp as [Hb' Hkey]. simpl in *. rewrite Hkey, Hk, price_key_order in Hlt by done. lia.
Qed.

#[local] Instance by_key_weak {A} : StrictWeak (@by_key A).
Proof.
  unfold by_key. split.
  - intros x. apply (less_irrefl str_ltb).
  - intros x y z. apply (less_trans str_ltb).
  - intros x y z. apply (less_neg_trans str_ltb).
Qed.

(** C12. The search for the limit swaps of a pair goes through the prices from
    the highest and stops at the first one that the pools do not beat without
    fees.  It misses nothing: it finds the swaps, and settles the ones, that a
    search through every price of the pair finds and settles. *)
Theorem discovery_stops_without_loss k pair pools :
  let entries := GetAdvSwapQueueIndexIterator k SwapType_limit (tpSource pair) (tpTarget pair) in
  priced_entries pair entries ->
  discoverLimitSwaps env k pair pools = search_all k pools pair entries.
Proof.
  intros entries Hpr. apply discover_is_search; [done|].
  apply (sorted_by_rev by_key), stable_sort_sorted, _.
Qed.

(** ** The plan of a queued swap *)

(** The blocks from one sub-swap to the next: those of a limit swap are tried
    in every block, its interval being its lifetime. *)
Definition plan_step (msg : MsgSwap) : Z :=
  if (stInterval (State msg) =? 0) || IsLimitSwap msg then 1 else stInterval (State msg).

Definition plan_length (k : Store) (source target : Asset) : Z :=
  u64 (queue_config env k
    (if Asset_IsNative source && Asset_IsNative target then "StreamingSwapMaxLengthNative"
     else "StreamingSwapMaxLength")).

Lemma uint64_or_panic_inv z r : uint64_or_panic z = Ok r -> r = z.
Proof. unfold uint64_or_panic. by case_match; intros; simplify_eq. Qed.

Lemma max_quantity_bound k source target msg q : getMaxSwapQuantity env k source target msg = Ok q ->
  q <= Z.max 1 (plan_length k source target / plan_step msg).
Proof.
  unfold getMaxSwapQuantity. intros (m1 & _ & Hq)%bind_Ok_inv.
  apply bind_Ok_inv in Hq as (m2 & _ & Hq). apply bind_Ok_inv in Hq as (m3 & _ & Hq).
  apply bind_Ok_inv in Hq as (mq & _ & Hq).
  assert (plan_length k source target / plan_step msg = u64 (if Asset_IsNative source && Asset_IsNative target
     then queue_config env k "StreamingSwapMaxLengthNative" else queue_config env k "StreamingSwapMaxLength") /
     (if (stInterval (State msg) =? 0) || IsLimitSwap msg then 1 else stInterval (State msg))) as ->
    by (unfold plan_length, plan_step; by destruct (_ && _)).
  set (most := u64 _ / _) in *. clearbody most.
  destruct (Z.ltb_spec most mq); [injection Hq as <-; lia|].
  destruct (mq =? 0); [injection Hq as <-; lia|].
  apply bind_Ok_inv in Hq as (d1 & _ & Hq). apply bind_Ok_inv in Hq as (d2 & _ & Hq).
  destruct (d2 =? 0); [apply uint64_or_panic_inv in Hq as ->; lia|].
  apply bind_Ok_inv in Hq as (diff & _ & Hq).
  destruct (diff =? 0); [apply uint64_or_panic_inv in Hq as ->; lia|].
  apply bind_Ok_inv in Hq as (nq & _ & Hq).
  destruct (Z.ltb_spec nq mq); apply uint64_or_panic_inv in Hq as ->; lia.
Qed.

(** C33. A swap enters the queue with a plan within the limits of the network:
    its sub-swaps start within the maximum length of a streaming swap, counted
    from the first, it has at most the sub-swaps that were asked for, the
    lifetime of a limit swap is at most the maximum age, and the deposit is
    the deposit given or else the whole coin; nothing is counted as swapped
    yet that was not. *)
Theorem plan_within_limits k msg msg' coin coins : txCoins (mTx msg) = coin :: coins ->
  0 <= stInterval (State msg) -> plan_swap env k msg = Ok msg' ->
  (stQuantity (State msg') - 1) * plan_step msg' <= plan_length k (cAsset coin) (TargetAsset msg) /\
  (stQuantity (State msg) <> 0 -> stQuantity (State msg') <= stQuantity (State msg)) /\
  (IsLimitSwap msg = true -> stInterval (State msg') <= u64 (queue_config env k "StreamingLimitSwapMaxAge")) /\
  stDeposit (State msg') = (if stDeposit (State msg) =? 0 then cAmount coin else stDeposit (State msg)) /\
  stCount (State msg') = stCount (State msg) /\ stIn (State msg') = stIn (State msg) /\
  stOut (State msg') = stOut (State msg).
Proof.
  intros Hc Hi. unfold plan_swap.
  assert (exists h, (if InitialBlockHeight msg =? 0 then with_initial_height msg (kHeight k) else msg) =
    with_initial_height msg h) as [h ->].
  { case_match; [by eexists|]. exists (InitialBlockHeight msg). by destruct msg. }
  unfold source_coin. simpl. rewrite Hc. simpl. intros (interval & Hint & Hd)%bind_Ok_inv.
  apply bind_Ok_inv in Hd as (mx & Hmx & [= <-]). simpl.
  apply max_quantity_bound in Hmx. simpl in Hmx.
  assert (0 <= interval /\ (IsLimitSwap msg = true ->
    interval <= u64 (queue_config env k "StreamingLimitSwapMaxAge"))) as [Hi0 Hage].
  { assert (IsLimitSwap (with_initial_height msg h) = IsLimitSwap msg) as He by done.
    rewrite He in Hint. pose proof (u64_range (queue_config env k "StreamingLimitSwapMaxAge")) as [? _].
    destruct (IsLimitSwap msg); simpl in Hint; [|by injection Hint as <-].
    destruct (Z.ltb_spec 0 (stInterval (State msg))); [|injection Hint as <-; split; lia].
    repeat case_match; try done; injection Hint as <-; split; lia. }
  match type of Hmx with _ <= Z.max 1 (_ / ?s) => set (step := s) in * end.
  match goal with |- (_ - 1) * ?s <= _ /\ _ => change s with step end.
  assert (0 < step) as Hstep.
  { subst step. unfold plan_step. simpl. repeat case_match; lia. }
  pose proof (u64_range (queue_config env k (if Asset_IsNative (cAsset coin) && Asset_IsNative (TargetAsset msg)
    then "StreamingSwapMaxLengthNative" else "StreamingSwapMaxLength"))) as [Hu _].
  fold (plan_length k (cAsset coin) (TargetAsset msg)) in Hu.
  set (len := plan_length _ _ _) in *. pose proof (div_bounds len step Hstep) as [Hdiv _].
  set (n := if mx <? _ then mx else _).
  assert (n <= mx /\ (stQuantity (State msg) <> 0 -> n <= stQuantity (State msg))) as [Hn Hn'].
  { subst n. destruct (Z.eqb_spec (stQuantity (State msg)) 0); 
      [destruct (Z.ltb_spec mx mx)|destruct (Z.ltb_spec mx (stQuantity (State msg)))]; split; lia. }
  split_and!; [|exact Hn'|exact Hage|done..].
  transitivity (Z.max 0 (len / step - 1) * step); [apply Z.mul_le_mono_nonneg_r; lia|].
  destruct (Z.max_spec 0 (len / step - 1)) as [ [? ->]|[? ->] ]; lia.
Qed.

(** ** Expiry ends *)

(** The outbound store puts nothing in the swap queue. *)
Class QueueEnvStill : Prop :=
  try_add_still toi clout k : kAdvSwapQueue (fst (qeTryAddTxOutItem env toi clout k)) = kAdvSwapQueue k.

Lemma settle_removes `{!QueueEnvStill} k msg k' : settleSwap env k msg = Ok k' ->
  kAdvSwapQueue k' = delete (adv_item_key (txID (mTx msg)) (mIndex msg)) (kAdvSwapQueue k).
Proof.
  unfold settleSwap, settleSwapCached. intros (k1 & H1 & Hk)%bind_Ok_inv.
  apply bind_Ok_inv in Hk as (k2 & H2 & H3).
  set (R := fun k k' : Store => kAdvSwapQueue k' = kAdvSwapQueue k).
  assert (PreOrder R) as HR by (split; [done|]; unfold R; intros x y z ??; congruence).
  assert (forall k b, R k (with_bank k b)) as Hb by done.
  apply (settle_outbound_R env R Hb try_add_still) in H1.
  apply (settle_remainder_R env R Hb try_add_still) in H2. unfold R in H1, H2.
  rewrite <- H1, <- H2. by apply remove_settled_items.
Qed.

Lemma adv_item_key_inj id i j : 0 <= i -> 0 <= j -> adv_item_key id i = adv_item_key id j -> i = j.
Proof.
  intros Hi Hj He. unfold adv_item_key, GetKey, formatSwapQueueItemKey in He.
  destruct (itoa_digits i Hi) as [Di Vi], (itoa_digits j Hj) as [Dj Vj].
  rewrite !to_upper_app, !(to_upper_digits (itoa _)) in He by done.
  do 4 apply (inj (String.append _)) in He. by rewrite <- Vi, <- Vj, He.
Qed.

(** Items numbered from 0 without a gap are at most as many as are stored. *)
Lemma items_below id (M : gmap string MsgSwap) n :
  (forall j, 0 <= j < Z.of_nat n -> is_Some (M !! adv_item_key id j)) -> (n <= size M)%nat.
Proof.
  intros Hn. set (keys := map (fun j => adv_item_key id (Z.of_nat j)) (seq 0 n)).
  assert (list_to_set keys ⊆ dom M) as Hsub.
  { intros x (j & -> & Hj%elem_of_seq)%elem_of_list_to_set%list_elem_of_fmap.
    apply elem_of_dom, Hn. lia. }
  apply subseteq_size in Hsub. rewrite size_dom, size_list_to_set in Hsub.
  - unfold keys in Hsub. by rewrite length_map, length_seq in Hsub.
  - apply NoDup_fmap_2_strong; [|apply NoDup_seq].
    intros a b _ _ He%adv_item_key_inj; lia.
Qed.

Context {Henv : QueueEnvOk env} {Hpools : QueueEnvPools env} {Hstill : QueueEnvStill}.

(** One settlement in the loop. *)
Lemma expire_settled k id i msg k1 : good k -> GetAdvSwapQueueItem k id i = Ok msg ->
  settleSwap env k msg = Ok k1 ->
  good k1 /\ kAdvSwapQueue k1 = delete (adv_item_key id i) (kAdvSwapQueue k).
Proof.
  intros Hg Hm Hs. destruct (item_key_of _ _ _ _ _ (good_queue _ Hg) Hm) as [HK _]. split.
  - rewrite <- (with_state_id msg) in Hs. by apply (settle_touches env _ _ _ _ Hg (stored_get _ _ _ _ Hg Hm)) in Hs as [ [? _] _].
  - by rewrite HK, (settle_removes _ _ _ Hs).
Qed.

Lemma expire_items_removes id fuel : forall k i b k' b', good k -> 0 <= i ->
  expire_items env fuel k id i b = Ok (k', b') ->
  kAdvSwapQueue k' ⊆ kAdvSwapQueue k /\
  (b' = false -> b = false /\ forall n msg, i <= n < i + Z.of_nat fuel ->
     (forall j, i <= j <= n -> is_Some (kAdvSwapQueue k !! adv_item_key id j)) ->
     kAdvSwapQueue k !! adv_item_key id n = Some msg -> IsLimitSwap msg = true ->
     kAdvSwapQueue k' !! adv_item_key id n = None).
Proof.
  induction fuel as [|fuel IH]; intros k i b k' b' Hg Hi; simpl.
  { intros [= <- <-]. split; [done|]. intros ->. split; [done|]. lia. }
  destruct (GetAdvSwapQueueItem k id i) as [msg|e|] eqn:Em; [| |done].
  2: { intros [= <- <-]. split; [done|]. intros ->. split; [done|]. intros n m Hn Hall.
    destruct (Hall i) as [m' Hm']; [lia|]. unfold GetAdvSwapQueueItem in Em. by rewrite Hm' in Em. }
  assert (kAdvSwapQueue k !! adv_item_key id i = Some msg) as Hitem.
  { unfold GetAdvSwapQueueItem in Em. by destruct (kAdvSwapQueue k !! _); simplify_eq. }
  assert (0 <= i + 1) as Hi1 by lia. destruct (IsLimitSwap msg) eqn:El.
  - destruct (settleSwap env k msg) as [k1|e|] eqn:Es; [| |done].
    + destruct (expire_settled _ _ _ _ _ Hg Em Es) as [Hg1 Hk1]. intros Hr.
      destruct (IH _ _ _ _ _ Hg1 Hi1 Hr) as [Hsub Hgone].
      assert (kAdvSwapQueue k1 ⊆ kAdvSwapQueue k) as Hsub1 by (rewrite Hk1; apply delete_subseteq).
      split; [by etrans|]. intros Hb'. destruct (Hgone Hb') as [Hb Hn]. split; [done|].
      intros n m Hrange Hall Hm Hl. destruct (decide (n = i)) as [->|Hne].
      * assert (kAdvSwapQueue k1 !! adv_item_key id i = None) as Hnone by (rewrite Hk1; apply lookup_delete_eq).
        by eapply lookup_weaken_None.
      * assert (forall j, i < j -> kAdvSwapQueue k1 !! adv_item_key id j = kAdvSwapQueue k !! adv_item_key id j) as Hsame.
        { intros j Hj. rewrite Hk1. apply lookup_delete_ne. intros ?%adv_item_key_inj; lia. }
        apply (Hn n m); [lia| |rewrite Hsame; [done|lia]|done].
        intros j Hj. rewrite Hsame by lia. apply Hall. lia.
    + intros Hr. destruct (IH _ _ _ _ _ Hg Hi1 Hr) as [Hsub Hgone]. split; [done|].
      intros Hb'. by destruct (Hgone Hb').
  - intros Hr. destruct (IH _ _ _ _ _ Hg Hi1 Hr) as [Hsub Hgone]. split; [done|].
    intros Hb'. destruct (Hgone Hb') as [Hb Hn]. split; [done|]. intros n m Hrange Hall Hm Hl.
    destruct (decide (n = i)) as [->|Hne]; [congruence|].
    apply (Hn n m); [lia| |done..]. intros j Hj. apply Hall. lia.
Qed.

Lemma expire_enough id (k0 : Store) fuel : forall fuel' (k : Store) i b, good k -> 0 <= i ->
  kAdvSwapQueue k ⊆ kAdvSwapQueue k0 ->
  (forall j, 0 <= j < i -> is_Some (kAdvSwapQueue k0 !! adv_item_key id j)) ->
  (size (kAdvSwapQueue k0) < Z.to_nat i + fuel)%nat -> (size (kAdvSwapQueue k0) < Z.to_nat i + fuel')%nat ->
  expire_items env fuel k id i b = expire_items env fuel' k id i b.
Proof.
  assert (forall (k : Store) i, 0 <= i ->
    (forall j, 0 <= j < i -> is_Some (kAdvSwapQueue k0 !! adv_item_key id j)) ->
    ~ (size (kAdvSwapQueue k0) < Z.to_nat i + 0)%nat) as Hzero.
  { intros _ i Hi Hall. pose proof (items_below id (kAdvSwapQueue k0) (Z.to_nat i)) as Hle.
    rewrite Z2Nat.id in Hle by done. specialize (Hle Hall). lia. }
  induction fuel as [|fuel IH]; intros [|fuel'] k i b Hg Hi Hsub Hall Hf Hf'; simpl;
    try done; try (exfalso; by eapply (Hzero k i)).
  destruct (GetAdvSwapQueueItem k id i) as [msg|e|] eqn:Em; [|done..].
  assert (kAdvSwapQueue k !! adv_item_key id i = Some msg) as Hitem.
  { unfold GetAdvSwapQueueItem in Em. by destruct (kAdvSwapQueue k !! _); simplify_eq. }
  assert (forall k1 b1, good k1 -> kAdvSwapQueue k1 ⊆ kAdvSwapQueue k0 ->
    expire_items env fuel k1 id (i + 1) b1 = expire_items env fuel' k1 id (i + 1) b1) as Hnext.
  { intros k1 b1 Hg1 Hsub1. apply IH; [done|lia|done| |lia..]. intros j Hj.
    destruct (decide (j = i)) as [->|]; [|apply Hall; lia]. exists msg. by eapply lookup_weaken. }
  destruct (IsLimitSwap msg); [|by apply Hnext].
  destruct (settleSwap env k msg) as [k1|e|] eqn:Es; [|by apply Hnext|done].
  destruct (expire_settled _ _ _ _ _ Hg Em Es) as [Hg1 Hk1]. apply Hnext; [done|].
  rewrite Hk1. etrans; [apply delete_subseteq|done].
Qed.

(** C31. The loop over the swaps of an expired transaction ends on its own,
    after at most as many rounds as swaps are stored: a longer bound changes
    nothing.  It adds no swap, and unless it reports a failed settlement, which
    schedules the transaction again, every limit swap of the transaction up to
    the first missing number has left the queue. *)
Theorem expiry_ends k id k' failed : good k ->
  expire_items env (Datatypes.S (size (kAdvSwapQueue k))) k id 0 false = Ok (k', failed) ->
  (forall fuel, (size (kAdvSwapQueue k) < fuel)%nat ->
     expire_items env fuel k id 0 false = Ok (k', failed)) /\
  kAdvSwapQueue k' ⊆ kAdvSwapQueue k /\
  (failed = false -> forall n msg, 0 <= n ->
     (forall j, 0 <= j <= n -> is_Some (kAdvSwapQueue k !! adv_item_key id j)) ->
     kAdvSwapQueue k !! adv_item_key id n = Some msg -> IsLimitSwap msg = true ->
     kAdvSwapQueue k' !! adv_item_key id n = None).
Proof.
  intros Hg Hr. split; [|].
  - intros fuel Hfuel. rewrite <- Hr. apply (expire_enough id k); [done|lia|done|intros; lia|lia..].
  - destruct (expire_items_removes _ _ _ _ _ _ _ Hg (Z.le_refl 0) Hr) as [Hsub Hgone].
    split; [done|]. intros Hf n msg Hn Hall. apply (Hgone Hf); [|done].
    pose proof (items_below id (kAdvSwapQueue k) (Z.to_nat (n + 1))) as Hle.
    rewrite Z2Nat.id in Hle by lia.
    specialize (Hle ltac:(intros j Hj; apply Hall; lia)). lia.
Qed.
End search.

(** ** The properties at concrete inputs *)

#[export] Instance demo_book_env_still : QueueEnvStill demo_book_env.
Proof. done. Qed.

Definition demo_pair : tradePair := mkTradePair BTCAsset ETHAsset.

Lemma discovery_stops_without_loss_witness :
  let entries := GetAdvSwapQueueIndexIterator demo_book SwapType_limit BTCAsset ETHAsset in
  length entries = 2%nat /\
  discoverLimitSwaps demo_book_env demo_book demo_pair (snd (getAssetPairs demo_book)) =
    search_all demo_book_env demo_book (snd (getAssetPairs demo_book)) demo_pair entries.
Proof.
  split; [vm_compute; reflexivity|].
  apply (discovery_stops_without_loss demo_book_env demo_book demo_pair).
  repeat constructor.
  - exists 3000000. split; [lia|vm_compute; reflexivity].
  - exists 750000. split; [lia|vm_compute; reflexivity].
Defined.

(** Ten sub-swaps, four blocks apart, in at most twenty blocks: five are left. *)
Definition demo_plan_env : QueueEnv (KVStore SimpleBank) :=
  mkQueueEnv (fun _ k => k) (fun _ _ => 0) (fun _ => Some 4) (fun _ _ => true)
    (fun _ _ k => (k, Ok true)) (fun _ _ => (EmptyMemo, Some "no memo")) [] (fun _ _ => Ok tt)
    (fun msg k => Ok (k, 0)) false
    (fun name => if String.eqb name "StreamingSwapMaxLength" then 20 else 0).
Definition demo_stream : MsgSwap :=
  mkMsgSwap (mkTx demo_hash BTCChain "a" "b" [mkCoin BTCAsset 1000 0] [] "=:ETH.ETH") ETHAsset "b"
    0 "" 0 "" "" "" None SwapType_market 10 4 0
    (mkSwapState 4 10 0 0 0 0 0 0 0 [] []) SwapVersion_v2 0.

Definition demo_planned : MsgSwap := ok_or demo_stream (plan_swap demo_plan_env demo_book demo_stream).

Lemma plan_within_limits_witness :
  plan_swap demo_plan_env demo_book demo_stream = Ok demo_planned /\ stQuantity (State demo_planned) = 5 /\
  (stQuantity (State demo_planned) - 1) * plan_step demo_planned <=
    plan_length demo_plan_env demo_book BTCAsset ETHAsset.
Proof.
  assert (plan_swap demo_plan_env demo_book demo_stream = Ok demo_planned) as Hrun by (vm_compute; reflexivity).
  split; [exact Hrun|]. split; [vm_compute; reflexivity|].
  destruct (plan_within_limits demo_plan_env demo_book demo_stream demo_planned (mkCoin BTCAsset 1000 0) []
    eq_refl ltac:(vm_compute; discriminate) Hrun) as [Hlen _].
  exact Hlen.
Defined.

Definition demo_expired : KVStore SimpleBank :=
  fst (ok_or (demo_book, true) (expire_items demo_book_env 3 demo_book demo_hash 0 false)).

Lemma expiry_ends_witness :
  expire_items demo_book_env (Datatypes.S (size (kAdvSwapQueue demo_book))) demo_book demo_hash 0 false =
    Ok (demo_expired, false) /\
  expire_items demo_book_env 9 demo_book demo_hash 0 false = Ok (demo_expired, false) /\
  size (kAdvSwapQueue demo_expired) = 0%nat.
Proof.
  assert (expire_items demo_book_env (Datatypes.S (size (kAdvSwapQueue demo_book))) demo_book demo_hash 0 false =
    Ok (demo_expired, false)) as Hrun by (vm_compute; reflexivity).
  split; [exact Hrun|].
  destruct (expiry_ends demo_book_env demo_book demo_hash demo_expired false demo_book_good Hrun) as [Hfuel _].
  split; [|vm_compute; reflexivity].
  apply (Hfuel 9%nat). vm_compute. repeat constructor.
Defined.

(** The fee-less check prices a swap of one whole unit of the source, and both
    shares it takes stop at the size of the pool: when the target pool holds
    less than one unit is worth, its price is too low, and a limit swap that
    the pools would fill is not found. *)
Example shallow_pool_hides_swaps :
  let pools := [mkPool (10 ^ 12) (10 ^ 10) BTCAsset 1000 PoolStatus_Available 0 0 0 0 0;
                mkPool (10 ^ 9) (10 ^ 10) ETHAsset 1000 PoolStatus_Available 0 0 0 0 0] in
  parseRatioFromKey (ok_or "" (getAdvSwapQueueIndexKey (demo_limit 0 3 400))) = Ok 750000 /\
  checkFeelessSwap pools demo_pair 750000 = Ok false /\
  checkWithFeeSwap (fun _ => Some 4) pools (demo_limit 0 3 400) = Ok true.
Proof. repeat split; vm_compute; reflexivity. Qed.

(** An interval above the maximum length leaves a market swap no sub-swap at
    all: it is done, and refunded, when it is first looked at. *)
Example long_interval_plans_nothing :
  stQuantity ∘ State <$> match plan_swap demo_plan_env demo_book
    (with_state demo_stream (with_plan (State demo_stream) 21 10 0)) with Ok m => Some m | _ => None end
  = Some 0.
Proof. vm_compute. reflexivity. Qed.
