(* ===== verification/Liquidity.v ===== *)
(** Adding, withdrawing and donating liquidity: the state changes of
    [x/thorchain/handler_add_liquidity.go], [withdraw.go] and
    [handler_donate.go] on the pool and on the providers' records, with the
    arithmetic of the units.  The messages and their handlers are in
    [LiquidityMsgs]. *)
From S2P Require Import Prelude SdkMath GoStr Keys Shares Chains Assets Coins Bank Nodes Txs.
From S2P Require Import Decimal MemoTypes Voters Mimir Observed Pools Streaming Vaults Keeper LimitIndex VaultStore SwapCalc Swaps Settle.
Local Open Scope string_scope.
Local Open Scope Z_scope.

(** ** Messages *)
Record MsgAddLiquidity := mkMsgAddLiquidity {
  alTx : Tx;
  alAsset : Asset;
  alAssetAmount : Z;
  alRuneAmount : Z;
  alDecaAddress : Address;
  alAssetAddress : Address;
  alAffiliateAddress : Address;
  alAffiliateBasisPoints : Z;
  alSigner : AccAddress
}.

Record MsgWithdrawLiquidity := mkMsgWithdrawLiquidity {
  wlTx : Tx;
  wlWithdrawAddress : Address;
  wlBasisPoints : Z;
  wlAsset : Asset;
  wlWithdrawalAsset : Asset;
  wlSigner : AccAddress
}.

Record MsgDonate := mkMsgDonate {
  doAsset : Asset;
  doAssetAmount : Z;
  doRuneAmount : Z;
  doTx : Tx;
  doSigner : AccAddress
}.

Definition MaxWithdrawBasisPoints : Z := 10000.

(** What these handlers get from components outside the model. *)
Record LiquidityEnv (St : Type) := mkLiquidityEnv {
  leQueue : QueueEnv St;
  leModuleAddress : string -> outcome Address;   (* Keeper().GetModuleAddress *)
  leMaxGas : Chain -> St -> outcome Coin;        (* GasMgr().GetMaxGas *)
  leGasRate : Chain -> St -> Z;                  (* GasMgr().GetGasRate *)
  leSameNetwork : Address -> bool;               (* SoftEquals(addr.GetNetwork(addr.GetChain())) *)
  leStrictBondRatio : bool;                      (* constants.StrictBondLiquidityRatio *)
  leDefaultPoolStatus : string                   (* constants.DefaultPoolStatus *)
}.
Arguments mkLiquidityEnv {St}.
Arguments leQueue {St}.
Arguments leModuleAddress {St}.
Arguments leMaxGas {St}.
Arguments leGasRate {St}.
Arguments leSameNetwork {St}.
Arguments leStrictBondRatio {St}.
Arguments leDefaultPoolStatus {St}.

(** ** Updates of the records *)
Definition lp_with_addresses (lp : LiquidityProvider) (deca asset : Address) : LiquidityProvider :=
  mkLiquidityProvider (lpAsset lp) deca asset (LastAddHeight lp) (LastWithdrawHeight lp) (Units lp)
    (PendingDeca lp) (PendingAsset lp) (PendingTxID lp) (DecaDepositValue lp) (AssetDepositValue lp).
Definition lp_with_add_height (lp : LiquidityProvider) (h : Z) : LiquidityProvider :=
  mkLiquidityProvider (lpAsset lp) (DecaAddress lp) (AssetAddress lp) h (LastWithdrawHeight lp)
    (Units lp) (PendingDeca lp) (PendingAsset lp) (PendingTxID lp) (DecaDepositValue lp)
    (AssetDepositValue lp).
Definition lp_with_withdraw_height (lp : LiquidityProvider) (h : Z) : LiquidityProvider :=
  mkLiquidityProvider (lpAsset lp) (DecaAddress lp) (AssetAddress lp) (LastAddHeight lp) h
    (Units lp) (PendingDeca lp) (PendingAsset lp) (PendingTxID lp) (DecaDepositValue lp)
    (AssetDepositValue lp).
Definition lp_with_pending (lp : LiquidityProvider) (deca asset : Z) (tx : TxID) : LiquidityProvider :=
  mkLiquidityProvider (lpAsset lp) (DecaAddress lp) (AssetAddress lp) (LastAddHeight lp)
    (LastWithdrawHeight lp) (Units lp) deca asset tx (DecaDepositValue lp) (AssetDepositValue lp).
Definition lp_with_units (lp : LiquidityProvider) (u : Z) : LiquidityProvider :=
  mkLiquidityProvider (lpAsset lp) (DecaAddress lp) (AssetAddress lp) (LastAddHeight lp)
    (LastWithdrawHeight lp) u (PendingDeca lp) (PendingAsset lp) (PendingTxID lp)
    (DecaDepositValue lp) (AssetDepositValue lp).
Definition lp_with_deposit (lp : LiquidityProvider) (deca asset : Z) : LiquidityProvider :=
  mkLiquidityProvider (lpAsset lp) (DecaAddress lp) (AssetAddress lp) (LastAddHeight lp)
    (LastWithdrawHeight lp) (Units lp) (PendingDeca lp) (PendingAsset lp) (PendingTxID lp) deca asset.

Definition with_pending_inbound (m : Pool) (deca asset : Z) : Pool :=
  mkPool (BalanceDeca m) (BalanceAsset m) (plAsset m) (LPUnits m) (plStatus m)
    (plStatusSince m) (plDecimals m) (SynthUnits m) deca asset.
Definition with_pool_status (m : Pool) (s : PoolStatus) : Pool :=
  mkPool (BalanceDeca m) (BalanceAsset m) (plAsset m) (LPUnits m) s
    (plStatusSince m) (plDecimals m) (SynthUnits m) (PendingInboundDeca m) (PendingInboundAsset m).
Definition with_pool_asset (m : Pool) (a : Asset) : Pool :=
  mkPool (BalanceDeca m) (BalanceAsset m) a (LPUnits m) (plStatus m)
    (plStatusSince m) (plDecimals m) (SynthUnits m) (PendingInboundDeca m) (PendingInboundAsset m).
Definition with_pool_decimals (m : Pool) (d : Z) : Pool :=
  mkPool (BalanceDeca m) (BalanceAsset m) (plAsset m) (LPUnits m) (plStatus m)
    (plStatusSince m) d (SynthUnits m) (PendingInboundDeca m) (PendingInboundAsset m).

(** ** The units of an addition *)
Section pool_units.
Context {S : SdkMath}.

(** The first provider of an empty pool. *)
Definition first_units (poolRune poolAsset addRune addAsset : Z) : outcome Z :=
  if addRune =? 0 then
    if negb (poolAsset =? 0) then
      m ← uint_mul addAsset poolRune;
      uint_quo m poolAsset
    else Ok addAsset
  else Ok addRune.

(** [P * (r*A + a*R + 2*r*a) / (r*A + a*R + 2*R*A)], in decimals. *)
Definition liquidity_units (P R A r a : Z) : outcome Z :=
  rA ← dec_mul r A;
  aR ← dec_mul a R;
  cross ← dec_add rA aR;
  two_r ← dec_mul (dec_of_big 2) r;
  two_ra ← dec_mul two_r a;
  inner ← dec_add cross two_ra;
  numerator ← dec_mul P inner;
  two_A ← dec_mul (dec_of_big 2) A;
  two_AR ← dec_mul two_A R;
  denominator ← dec_add cross two_AR;
  if denominator =? 0 then Err "denominator of new pool units calculation is zero"
  else dec_quo numerator denominator.

Definition calculatePoolUnits (oldPoolUnits poolRune poolAsset addRune addAsset : Z) :
    outcome (Z * Z) :=
  totalRune ← uint_add addRune poolRune;
  if totalRune =? 0 then Err "total RUNE in the pool is zero"
  else
    totalAsset ← uint_add addAsset poolAsset;
    if totalAsset =? 0 then Err "total asset in the pool is zero"
    else if (poolRune =? 0) || (poolAsset =? 0) || (oldPoolUnits =? 0) then
      sUnits ← first_units poolRune poolAsset addRune addAsset;
      pUnits ← uint_add oldPoolUnits sUnits;
      Ok (pUnits, sUnits)
    else
      let P := dec_of_big oldPoolUnits in
      liquidityUnits ← liquidity_units P (dec_of_big poolRune) (dec_of_big poolAsset)
        (dec_of_big addRune) (dec_of_big addAsset);
      newPoolUnit ← dec_add P liquidityUnits;
      p ← dec_trunc newPoolUnit;
      pUnits ← uint_of_big p;
      s ← dec_trunc liquidityUnits;
      sUnits ← uint_of_big s;
      Ok (pUnits, sUnits).
End pool_units.

Section liquidity.
Context {B : Type} `{Bank B} {K : SdkKeys} {S : SdkMath}.
Context (env : LiquidityEnv (KVStore B)).
Abbreviation Store := (KVStore B) (only parsing).

Definition is_chain (addr : Address) (chain : Chain) : bool := qeIsChain (leQueue env) addr chain.
Definition is_thor (addr : Address) : bool := is_chain addr THORChain.
Definition liq_config (k : Store) (name : string) : Z :=
  GetConfigInt64 k name (qeConstant (leQueue env) name).

(** ** handler_add_liquidity.go *)

Definition validateAddLiquidityMessage (k : Store) (asset : Asset) (requestTxHash : TxID)
    (decaAddr assetAddr : Address) : goerr :=
  if Asset_IsEmpty asset then Some "asset is empty"
  else if TxID_IsEmpty requestTxHash then Some "request tx hash is empty"
  else if Address_IsEmpty decaAddr && Address_IsEmpty assetAddr then
    Some "rune address and asset address is empty"
  else if negb (PoolExist k asset) then Some (Asset_String asset ++ " doesn't exist")
  else if IsStaged (GetPool k asset) && (Address_IsEmpty decaAddr || Address_IsEmpty assetAddr) then
    Some "cannot add single sided liquidity while a pool is staged"
  else None.

Definition errAddLiquidityMismatchAddr : string :=
  "memo paired address must be non-empty and together with origin address match the liquidity provider record".

(** The addresses of the provider: a position without units or pending funds
    takes those of the message, a position of a synth has no DECA address. *)
Definition provider_addresses (su : LiquidityProvider) (asset : Asset) (decaAddr assetAddr : Address) :
    outcome LiquidityProvider :=
  su ←
    (if Units su =? 0 then
       let su :=
         if TxID_IsEmpty (PendingTxID su) then
           lp_with_addresses su
             (if Address_IsEmpty (DecaAddress su) then decaAddr else DecaAddress su)
             (if Address_IsEmpty (AssetAddress su) then assetAddr else AssetAddress su)
         else su in
       if IsSyntheticAsset asset then Ok (lp_with_addresses su NoAddress assetAddr)
       else if negb (Address_Equals decaAddr (DecaAddress su)) then Err errAddLiquidityMismatchAddr
       else if negb (Address_Equals assetAddr (AssetAddress su)) then Err errAddLiquidityMismatchAddr
       else Ok su
     else Ok su);
  if IsSyntheticAsset asset then
    if Address_IsEmpty (AssetAddress su) ||
       negb (is_chain (AssetAddress su) (GetChain (GetLayer1Asset asset)))
    then Err errAddLiquidityMismatchAddr else Ok su
  else if negb (Address_IsEmpty assetAddr) && negb (Address_Equals (AssetAddress su) assetAddr)
    then Err errAddLiquidityMismatchAddr
  else Ok su.

(** A half that waits for the other one. *)
Definition stage_deca (k : Store) (pool : Pool) (su : LiquidityProvider)
    (addRuneAmount pendingDecaAmt : Z) (requestTxHash : TxID) : outcome Store :=
  inbound ← uint_add (PendingInboundDeca pool) addRuneAmount;
  let su := lp_with_pending su pendingDecaAmt (PendingAsset su) requestTxHash in
  let k := SetLiquidityProvider k su in
  SetPool k (with_pending_inbound pool inbound (PendingInboundAsset pool)).

Definition stage_asset (k : Store) (pool : Pool) (su : LiquidityProvider)
    (addAssetAmount pendingAssetAmt : Z) (requestTxHash : TxID) : outcome Store :=
  inbound ← uint_add (PendingInboundAsset pool) addAssetAmount;
  let su := lp_with_pending su (PendingDeca su) pendingAssetAmt requestTxHash in
  let k := SetLiquidityProvider k su in
  SetPool k (with_pending_inbound pool (PendingInboundDeca pool) inbound).

(** The funds that were pending leave the pending account of the pool. *)
Definition clear_pending (pool : Pool) (su : LiquidityProvider) : outcome (Pool * LiquidityProvider) :=
  if PendingInboundDeca pool <? PendingDeca su then
    Err ("pending rune accounting error: LP pending " ++ itoa (PendingDeca su) ++
      " > pool pending " ++ itoa (PendingInboundDeca pool))
  else if PendingInboundAsset pool <? PendingAsset su then
    Err ("pending asset accounting error: LP pending " ++ itoa (PendingAsset su) ++
      " > pool pending " ++ itoa (PendingInboundAsset pool))
  else
    d ← uint_sub (PendingInboundDeca pool) (PendingDeca su);
    a ← uint_sub (PendingInboundAsset pool) (PendingAsset su);
    Ok (with_pending_inbound pool d a, lp_with_pending su 0 0 "").

(** The units bought and the DECA added (none for a synth). *)
Definition units_bought (pool : Pool) (asset : Asset) (pendingDecaAmt pendingAssetAmt : Z) :
    outcome (Z * Z) :=
  oldPoolUnits ← GetPoolUnits pool;
  if IsSyntheticAsset asset then
    if (BalanceAsset pool =? 0) && negb (oldPoolUnits =? 0) then
      Err "cannot add liquidity: pool has non-zero units with zero asset balance"
    else
      '(_, liquidityUnits) ← calculateVaultUnits oldPoolUnits (BalanceAsset pool) pendingAssetAmt;
      Ok (liquidityUnits, 0)
  else
    '(_, liquidityUnits) ← wrap_err "fail to calculate pool unit: "
      (calculatePoolUnits oldPoolUnits (BalanceDeca pool) (BalanceAsset pool)
         pendingDecaAmt pendingAssetAmt);
    Ok (liquidityUnits, pendingDecaAmt).

(** The value of the position when it was deposited. *)
Definition deposit_values (pool : Pool) (su : LiquidityProvider) (liquidityUnits : Z) :
    outcome LiquidityProvider :=
  if IsAvailable pool then
    units ← GetPoolUnits pool;
    if (AssetDepositValue su =? 0) && (DecaDepositValue su =? 0) then
      d ← GetSafeShare (Units su) units (BalanceDeca pool);
      a ← GetSafeShare (Units su) units (BalanceAsset pool);
      Ok (lp_with_deposit su d a)
    else
      d ← GetSafeShare liquidityUnits units (BalanceDeca pool);
      d ← uint_add (DecaDepositValue su) d;
      a ← GetSafeShare liquidityUnits units (BalanceAsset pool);
      a ← uint_add (AssetDepositValue su) a;
      Ok (lp_with_deposit su d a)
  else Ok su.

Definition track_pol_deposit (k : Store) (su : LiquidityProvider) (amount : Z) : outcome Store :=
  polAddress ← leModuleAddress env ReserveName;
  if Address_Equals polAddress (DecaAddress su) then
    let pol := GetPOL k in
    deposited ← uint_add (polRuneDeposited pol) amount;
    Ok (SetPOL k (mkProtocolOwnedLiquidity deposited (polRuneWithdrawn pol)))
  else Ok k.

(** The rest of [addLiquidity], for funds that are complete. *)
Definition commit_liquidity (k : Store) (asset : Asset) (pool : Pool) (su : LiquidityProvider)
    (synthSupply pendingDecaAmt pendingAssetAmt : Z) : outcome Store :=
  '(pool, su) ← clear_pending pool su;
  '(liquidityUnits, pendingDecaAmt) ← units_bought pool asset pendingDecaAmt pendingAssetAmt;
  if (liquidityUnits =? 0) && (negb (pendingDecaAmt =? 0) || negb (pendingAssetAmt =? 0)) then
    Err "liquidity units cannot be zero when deposit amounts are non-zero"
  else
    poolRune ← uint_add (BalanceDeca pool) pendingDecaAmt;
    poolAsset ← uint_add (BalanceAsset pool) pendingAssetAmt;
    lpUnits ← uint_add (LPUnits pool) liquidityUnits;
    let pool := with_balances (with_lp_units pool lpUnits) poolRune poolAsset in
    if ((BalanceDeca pool =? 0) && negb (IsSyntheticAsset asset)) || (BalanceAsset pool =? 0) then
      Err "pool cannot have zero rune or asset balance"
    else
      '(_, pool) ← CalcUnits pool synthSupply;
      k ← SetPool k pool;
      units ← uint_add (Units su) liquidityUnits;
      su ← deposit_values pool (lp_with_units su units) liquidityUnits;
      let k := SetLiquidityProvider k su in
      track_pol_deposit k su pendingDecaAmt.

Definition addLiquidity (k : Store) (asset : Asset) (addRuneAmount addAssetAmount : Z)
    (decaAddr assetAddr : Address) (requestTxHash : TxID) (stage : bool) : outcome Store :=
  _ ← wrap_err "add liquidity message fail validation: "
        (check (validateAddLiquidityMessage k asset requestTxHash decaAddr assetAddr));
  let pool := GetPool k asset in
  synthSupply ← GetTotalSupply k (GetSyntheticAsset (plAsset pool));
  '(_, pool) ← CalcUnits pool synthSupply;
  let fetchAddr := if Address_IsEmpty decaAddr then assetAddr else decaAddr in
  let su := lp_with_add_height (GetLiquidityProvider k is_thor asset fetchAddr) (kHeight k) in
  su ← provider_addresses su asset decaAddr assetAddr;
  pendingDecaAmt ← uint_add (PendingDeca su) addRuneAmount;
  pendingAssetAmt ← uint_add (PendingAsset su) addAssetAmount;
  if stage && (pendingAssetAmt =? 0) then
    stage_deca k pool su addRuneAmount pendingDecaAmt requestTxHash
  else if stage && (pendingDecaAmt =? 0) then
    stage_asset k pool su addAssetAmount pendingAssetAmt requestTxHash
  else commit_liquidity k asset pool su synthSupply pendingDecaAmt pendingAssetAmt.

(** ** withdraw.go *)

Definition validateWithdraw (k : Store) (msg : MsgWithdrawLiquidity) : goerr :=
  if Address_IsEmpty (wlWithdrawAddress msg) then Some "empty withdraw address"
  else if TxID_IsEmpty (txID (wlTx msg)) then Some "request tx hash is empty"
  else if Asset_IsEmpty (wlAsset msg) then Some "empty asset"
  else if negb (0 <? wlBasisPoints msg) || (MaxWithdrawBasisPoints <? wlBasisPoints msg) then
    Some ("withdraw basis points " ++ itoa (wlBasisPoints msg) ++ " is invalid")
  else if negb (PoolExist k (wlAsset msg)) then
    Some ("pool-" ++ Asset_String (wlAsset msg) ++ " doesn't exist")
  else None.

Definition assetToWithdraw (msg : MsgWithdrawLiquidity) (lp : LiquidityProvider) (pauseAsym : Z) : Asset :=
  if Address_IsEmpty (DecaAddress lp) then wlAsset msg
  else if Address_IsEmpty (AssetAddress lp) then DecaAsset
  else if 0 <? pauseAsym then EmptyAsset
  else wlWithdrawalAsset msg.

(** The half that is not wanted is swapped for the other one: the amount paid,
    from what was withdrawn of both sides and what is left of them. *)
Definition asymmetric_output (k : Store) (poolAsset withdrawalAsset : Asset)
    (poolRuneDepth poolAssetDepth withdrawRune withdrawAsset : Z) (withdrawAddress : Address) :
    outcome Z :=
  remainingAsset ← SafeSub poolAssetDepth withdrawAsset;
  remainingRune ← SafeSub poolRuneDepth withdrawRune;
  '(x, X, Y, yAdd, isPOL) ←
    (if IsDeca withdrawalAsset then
       polAddress ← leModuleAddress env ReserveName;
       Ok (withdrawAsset, remainingAsset, remainingRune, withdrawRune,
           Address_Equals withdrawAddress polAddress)
     else Ok (withdrawRune, remainingRune, remainingAsset, withdrawAsset, false));
  swapSlipBps ← CalcSwapSlip X x;
  let minSlipBps := getMinSlipBps (swap_env (leQueue env)) k poolAsset false in
  '(y, liqFee, _) ← GetSwapCalc X x Y swapSlipBps minSlipBps;
  outputAmount ← uint_add y yAdd;
  if (isPOL : bool) then uint_add outputAmount liqFee else Ok outputAmount.

(** DECA, asset, and the units left. *)
Definition calculateWithdraw (k : Store) (poolAsset : Asset)
    (poolUnits poolRuneDepth poolAssetDepth lpUnits withdrawBasisPoints : Z)
    (withdrawalAsset : Asset) (withdrawAddress : Address) : outcome (Z * Z * Z) :=
  if poolUnits =? 0 then Err "poolUnits can't be zero"
  else if poolRuneDepth =? 0 then Err "pool rune balance can't be zero"
  else if poolAssetDepth =? 0 then Err "pool asset balance can't be zero"
  else if lpUnits =? 0 then Err "liquidity provider unit can't be zero"
  else if MaxWithdrawBasisPoints <? withdrawBasisPoints then
    Err ("withdraw basis point " ++ itoa withdrawBasisPoints ++ " is not valid")
  else
    unitsToClaim ← GetSafeShare withdrawBasisPoints 10000 lpUnits;
    unitAfter ← SafeSub lpUnits unitsToClaim;
    withdrawRune ← GetSafeShare unitsToClaim poolUnits poolRuneDepth;
    withdrawAsset ← GetSafeShare unitsToClaim poolUnits poolAssetDepth;
    if Asset_IsEmpty withdrawalAsset then Ok (withdrawRune, withdrawAsset, unitAfter)
    else
      outputAmount ← asymmetric_output k poolAsset withdrawalAsset poolRuneDepth poolAssetDepth
        withdrawRune withdrawAsset withdrawAddress;
      if IsDeca withdrawalAsset then Ok (outputAmount, 0, unitAfter)
      else Ok (0, outputAmount, unitAfter).

Definition calculateVaultWithdraw (vaultUnits assetAmt lpUnits withdrawBasisPoints : Z) :
    outcome (Z * Z * Z) :=
  if (vaultUnits =? 0) || (lpUnits =? 0) || (assetAmt =? 0) || (withdrawBasisPoints =? 0) then
    Ok (0, 0, 0)
  else
    unitsToClaim ← GetSafeShare withdrawBasisPoints MaxWithdrawBasisPoints lpUnits;
    unitAfter ← SafeSub lpUnits unitsToClaim;
    withdrawAsset ← GetSafeShare unitsToClaim vaultUnits assetAmt;
    Ok (0, withdrawAsset, unitAfter).

(** The new state, DECA, asset, units claimed, and gas kept back. *)
Definition withdraw_pending (k : Store) (pool : Pool) (lp : LiquidityProvider) :
    outcome (Store * Z * Z * Z * Z) :=
  if negb (PendingDeca lp =? 0) || negb (PendingAsset lp =? 0) then
    let k := RemoveLiquidityProvider k lp in
    d ← SafeSub (PendingInboundDeca pool) (PendingDeca lp);
    a ← SafeSub (PendingInboundAsset pool) (PendingAsset lp);
    k ← (match SetPool k (with_pending_inbound pool d a) with Err _ => Ok k | r => r end);
    amount ← RoundToDecimal (PendingAsset lp) (plDecimals pool);
    Ok (k, PendingDeca lp, amount, Units lp, 0)
  else Err "nothing to withdraw".

(** A provider of an available pool without deposit values gets them first. *)
Definition missing_deposit_values (pool : Pool) (lp : LiquidityProvider) : outcome LiquidityProvider :=
  if IsAvailable pool && (DecaDepositValue lp =? 0) && (AssetDepositValue lp =? 0) then
    units ← GetPoolUnits pool;
    d ← GetSafeShare (Units lp) units (BalanceDeca pool);
    d ← uint_add (DecaDepositValue lp) d;
    a ← GetSafeShare (Units lp) units (BalanceAsset pool);
    a ← uint_add (AssetDepositValue lp) a;
    Ok (lp_with_deposit lp d a)
  else Ok lp.

(** The amounts before the gas of an emptied pool. *)
Definition withdraw_amounts (k : Store) (msg : MsgWithdrawLiquidity) (pool : Pool)
    (lp : LiquidityProvider) (units : Z) : outcome (Z * Z * Z) :=
  let pauseAsym := GetMimir k ("PauseAsymWithdrawal-" ++ Chain_String (GetChain (plAsset pool))) in
  let asset := assetToWithdraw msg lp pauseAsym in
  '(withdrawRune, withDrawAsset, unitAfter) ←
    (if IsSyntheticAsset (plAsset pool) then
       calculateVaultWithdraw units (BalanceAsset pool) (Units lp) (wlBasisPoints msg)
     else
       match calculateWithdraw k (plAsset pool) units (BalanceDeca pool) (BalanceAsset pool)
               (Units lp) (wlBasisPoints msg) asset (wlWithdrawAddress msg) with
       | Err _ => Err "fail to withdraw"
       | r => r
       end);
  if negb (IsSyntheticAsset (plAsset pool)) &&
     (((withdrawRune =? BalanceDeca pool) && negb (withDrawAsset =? BalanceAsset pool)) ||
      (negb (withdrawRune =? BalanceDeca pool) && (withDrawAsset =? BalanceAsset pool)))
  then Err "fail to withdraw"
  else
    withDrawAsset ← RoundToDecimal withDrawAsset (plDecimals pool);
    Ok (withdrawRune, withDrawAsset, unitAfter).

(** The gas an emptied pool of a gas asset keeps for the outbounds. *)
Definition keep_gas (k : Store) (pool : Pool) (units lpUnits unitAfter withDrawAsset : Z)
    (withdrawToSecuredAsset : bool) : outcome (Z * Z) :=
  less ← SafeSub units lpUnits;
  remainingPoolUnits ← uint_add less unitAfter;
  if (remainingPoolUnits =? 0) && negb withdrawToSecuredAsset then
    match leMaxGas env (GetChain (plAsset pool)) k with
    | Ok maxGas =>
        if Asset_Equals (GetGasAsset (GetChain (plAsset pool))) (plAsset pool) then
          let gasAsset := if withDrawAsset <? cAmount maxGas then withDrawAsset else cAmount maxGas in
          withDrawAsset ← SafeSub withDrawAsset gasAsset;
          Ok (withDrawAsset, gasAsset)
        else Ok (withDrawAsset, 0)
    | Err _ => Err "fail to withdraw"
    | Panic => Panic
    end
  else Ok (withDrawAsset, 0).

Definition withdraw_pool (pool : Pool) (lpUnits unitAfter withdrawRune withDrawAsset : Z) : outcome Pool :=
  claimed ← SafeSub lpUnits unitAfter;
  units ← SafeSub (LPUnits pool) claimed;
  deca ← SafeSub (BalanceDeca pool) withdrawRune;
  asset ← SafeSub (BalanceAsset pool) withDrawAsset;
  let pool := with_balances (with_lp_units pool units) deca asset in
  Ok (if ((asset =? 0) || (deca =? 0)) && negb (IsSyntheticAsset (plAsset pool))
      then with_pool_status pool PoolStatus_Staged else pool).

Definition withdraw_provider (k : Store) (lp : LiquidityProvider) (basisPoints unitAfter : Z) :
    outcome LiquidityProvider :=
  d ← GetSafeShare basisPoints MaxWithdrawBasisPoints (DecaDepositValue lp);
  d ← SafeSub (DecaDepositValue lp) d;
  a ← GetSafeShare basisPoints MaxWithdrawBasisPoints (AssetDepositValue lp);
  a ← SafeSub (AssetDepositValue lp) a;
  Ok (lp_with_units (lp_with_deposit (lp_with_withdraw_height lp (kHeight k)) d a) unitAfter).

(** A provider with nothing left is removed, but not during Ragnarok. *)
Definition store_provider (k : Store) (lp : LiquidityProvider) : outcome Store :=
  if RagnarokInProgress k then Ok (SetLiquidityProvider k lp)
  else
    s ← uint_add (Units lp) (PendingAsset lp);
    s ← uint_add s (PendingDeca lp);
    Ok (if negb (s =? 0) then SetLiquidityProvider k lp else RemoveLiquidityProvider k lp).

Definition withdraw_units (k : Store) (msg : MsgWithdrawLiquidity) (pool : Pool)
    (lp : LiquidityProvider) (withdrawToSecuredAsset : bool) : outcome (Store * Z * Z * Z * Z) :=
  let lockupBlocks := liq_config k "LiquidityLockUpBlocks" in
  if kHeight k <? i64 (LastAddHeight lp + lockupBlocks) then Err "last add within lockup blocks"
  else
    units ← GetPoolUnits pool;
    lp ← missing_deposit_values pool lp;
    '(withdrawRune, withDrawAsset, unitAfter) ← withdraw_amounts k msg pool lp units;
    '(withDrawAsset, gasAsset) ←
      keep_gas k pool units (Units lp) unitAfter withDrawAsset withdrawToSecuredAsset;
    pool ← withdraw_pool pool (Units lp) unitAfter withdrawRune withDrawAsset;
    lp' ← withdraw_provider k lp (wlBasisPoints msg) unitAfter;
    if Units lp <=? unitAfter then
      before ← uint64_or_panic (Units lp);
      after ← uint64_or_panic unitAfter;
      Err ("sanity check: LP units cannot increase during a withdrawal: " ++ itoa before ++
        " --> " ++ itoa after)
    else
      k ← SetPool k pool;
      k ← store_provider k lp';
      claimed ← SafeSub (Units lp) unitAfter;
      Ok (k, withdrawRune, withDrawAsset, claimed, gasAsset).

Definition withdraw (k : Store) (msg : MsgWithdrawLiquidity) : outcome (Store * Z * Z * Z * Z) :=
  _ ← check (validateWithdraw k msg);
  let pool := GetPool k (wlAsset msg) in
  synthSupply ← GetTotalSupply k (GetSyntheticAsset (plAsset pool));
  '(_, pool) ← CalcUnits pool synthSupply;
  let lp := GetLiquidityProvider k is_thor (wlAsset msg) (wlWithdrawAddress msg) in
  let withdrawToSecuredAsset :=
    negb (Asset_IsNative (wlAsset msg)) && negb (Address_IsEmpty (AssetAddress lp)) &&
    Address_Equals (AssetAddress lp) (DecaAddress lp) in
  if Units lp =? 0 then withdraw_pending k pool lp
  else withdraw_units k msg pool lp withdrawToSecuredAsset.

(** ** handler_donate.go *)
Definition donate_handle (k : Store) (msg : MsgDonate) : outcome Store :=
  let pool := GetPool k (doAsset msg) in
  if Pool_IsEmpty pool then Err ("pool " ++ Asset_String (doAsset msg) ++ " not exist")
  else
    let txRuneCoin := Coins_GetCoin (txCoins (doTx msg)) DecaAsset in
    let txAssetCoin := Coins_GetCoin (txCoins (doTx msg)) (doAsset msg) in
    if negb (doRuneAmount msg =? cAmount txRuneCoin) then
      Err ("rune amount mismatch: msg has " ++ itoa (doRuneAmount msg) ++ " but tx has " ++
        itoa (cAmount txRuneCoin))
    else if negb (doAssetAmount msg =? cAmount txAssetCoin) then
      Err ("asset amount mismatch: msg has " ++ itoa (doAssetAmount msg) ++ " but tx has " ++
        itoa (cAmount txAssetCoin))
    else
      asset ← uint_add (BalanceAsset pool) (doAssetAmount msg);
      deca ← uint_add (BalanceDeca pool) (doRuneAmount msg);
      SetPool k (with_balances pool deca asset).
End liquidity.

(** ** Lemmas: the units of an addition *)
Section unit_lemmas.
Context {S : SdkMath} `{!SdkMathOk S}.

(** Products of integers are exact. *)
Lemma dec_mul_int x y q : 0 <= x -> 0 <= y ->
  dec_mul (x * dec_one) (y * dec_one) = Ok q -> q = x * y * dec_one.
Proof.
  intros Hx Hy Hq. assert (Hd : 2 <= dec_one) by (unfold dec_one; lia).
  assert (0 <= x * dec_one) by nia. assert (0 <= y * dec_one) by nia.
  apply dec_mul_near in Hq as [_ Hq]; [|done..].
  set (d := dec_one) in *. clearbody d.
  assert (Hn : 2 * (Z.abs (q - x * y * d) * d) <= d).
  { replace (q * d - x * d * (y * d)) with ((q - x * y * d) * d) in Hq by ring.
    rewrite Z.abs_mul, (Z.abs_eq d) in Hq by lia. lia. }
  destruct (Z.eq_dec q (x * y * d)) as [|Hne]; [done|]. exfalso. nia.
Qed.

Lemma dec_mul_int_Ok x y : 0 <= x -> 0 <= y -> x * y < uint_lim - 1 ->
  dec_mul (x * dec_one) (y * dec_one) = Ok (x * y * dec_one).
Proof.
  intros Hx Hy Hlt.
  assert (Hd : 0 < dec_one) by (unfold dec_one; lia).
  destruct (dec_mul_ok (x * dec_one) (y * dec_one)) as (q & Hq & _).
  - nia.
  - nia.
  - replace (x * dec_one * (y * dec_one)) with (x * y * (dec_one * dec_one)) by ring.
    rewrite <- (Z.mul_assoc (uint_lim - 1)). apply Z.mul_lt_mono_pos_r; [nia|done].
  - rewrite Hq. f_equal. by apply dec_mul_int.
Qed.

Lemma dec_add_int_Ok x y : 0 <= x -> 0 <= y -> x + y < uint_lim ->
  dec_add (x * dec_one) (y * dec_one) = Ok ((x + y) * dec_one).
Proof.
  intros Hx Hy Hlt. assert (Hd : 0 < dec_one) by (unfold dec_one; lia).
  rewrite dec_add_ok; [f_equal; ring|nia|nia|].
  rewrite <- Z.mul_add_distr_r. by apply Z.mul_lt_mono_pos_r.
Qed.

(** Numerator and denominator of the formula. *)
Definition units_num (P R A r a : Z) : Z := P * (r * A + a * R + 2 * r * a).
Definition units_den (R A r a : Z) : Z := r * A + a * R + 2 * A * R.

(** [s] is the quotient of the formula, cut after a division of 18 decimals. *)
Definition units_near (P R A r a s : Z) : Prop :=
  let N := units_num P R A r a in let D := units_den R A r a in
  s * dec_one * D <= N * dec_one + D /\ N * dec_one - D < (s + 1) * dec_one * D.

Lemma liquidity_units_inv P R A r a q : 0 <= P -> 0 < R -> 0 < A -> 0 <= r -> 0 <= a ->
  liquidity_units (P * dec_one) (R * dec_one) (A * dec_one) (r * dec_one) (a * dec_one) = Ok q ->
  0 <= q /\ Z.abs (q * units_den R A r a - units_num P R A r a * dec_one) <= units_den R A r a.
Proof.
  intros HP HR HA Hr Ha Hq. unfold liquidity_units in Hq. rewrite dec_of_big_ok in Hq.
  assert (Hd : 0 < dec_one) by (unfold dec_one; lia).
  assert (HrA : 0 <= r * A) by nia. assert (HaR : 0 <= a * R) by nia.
  assert (Hra : 0 <= 2 * r * a) by nia. assert (HAR : 0 < 2 * A * R) by nia.
  apply bind_Ok_inv in Hq as (v1 & H1 & Hq). apply dec_mul_int in H1; [subst v1|lia..].
  apply bind_Ok_inv in Hq as (v2 & H2 & Hq). apply dec_mul_int in H2; [subst v2|lia..].
  apply bind_Ok_inv in Hq as (v3 & H3 & Hq). apply dec_add_val in H3; [|nia..].
  rewrite <- Z.mul_add_distr_r in H3. subst v3.
  apply bind_Ok_inv in Hq as (v4 & H4 & Hq). apply dec_mul_int in H4; [subst v4|lia..].
  apply bind_Ok_inv in Hq as (v5 & H5 & Hq). apply dec_mul_int in H5; [subst v5|lia..].
  apply bind_Ok_inv in Hq as (v6 & H6 & Hq). apply dec_add_val in H6; [|nia..].
  rewrite <- Z.mul_add_distr_r in H6. subst v6.
  apply bind_Ok_inv in Hq as (v7 & H7 & Hq). apply dec_mul_int in H7; [subst v7|lia..].
  apply bind_Ok_inv in Hq as (v8 & H8 & Hq). apply dec_mul_int in H8; [subst v8|lia..].
  apply bind_Ok_inv in Hq as (v9 & H9 & Hq). apply dec_mul_int in H9; [subst v9|lia..].
  apply bind_Ok_inv in Hq as (v10 & H10 & Hq). apply dec_add_val in H10; [|nia..].
  rewrite <- Z.mul_add_distr_r in H10. subst v10.
  fold (units_num P R A r a) in Hq. fold (units_den R A r a) in Hq.
  assert (HN : 0 <= units_num P R A r a) by (unfold units_num; nia).
  assert (HD : 0 < units_den R A r a) by (unfold units_den; lia).
  set (N := units_num P R A r a) in *. set (D := units_den R A r a) in *. clearbody N D.
  destruct (Z.eqb_spec (D * dec_one) 0); [done|].
  apply dec_quo_near in Hq as [Hq0 Hq]; [|nia..]. split; [done|].
  replace (q * (D * dec_one) - N * dec_one * dec_one)
    with ((q * D - N * dec_one) * dec_one) in Hq by ring.
  rewrite Z.abs_mul, (Z.abs_eq dec_one) in Hq by lia.
  by apply Z.mul_le_mono_pos_r in Hq.
Qed.

Lemma calculatePoolUnits_inv P R A r a p s :
  is_uint P -> is_uint R -> is_uint A -> is_uint r -> is_uint a ->
  calculatePoolUnits P R A r a = Ok (p, s) ->
  is_uint s /\ is_uint p /\ p = P + s /\
  (R <> 0 -> A <> 0 -> P <> 0 -> units_near P R A r a s).
Proof.
  intros HP HR HA Hr Ha Hc. unfold calculatePoolUnits in Hc.
  apply bind_Ok_inv in Hc as (tr & Htr & Hc). case_if_in Hc; [done|].
  apply bind_Ok_inv in Hc as (ta & Hta & Hc). case_if_in Hc; [done|]. case_if_in Hc.
  - apply bind_Ok_inv in Hc as (s' & Hs & Hc). apply bind_Ok_inv in Hc as (p' & Hp & Hc).
    injection Hc as <- <-.
    assert (Hsu : is_uint s').
    { unfold first_units in Hs. repeat case_if_in Hs; uint_inv; simplify_eq; done. }
    uint_inv. subst. split; [done|]. split; [done|]. split; [done|].
    intros HR0 HA0 HP0. rewrite (proj2 (Z.eqb_neq _ _) HR0), (proj2 (Z.eqb_neq _ _) HA0),
      (proj2 (Z.eqb_neq _ _) HP0) in E1. done.
  - apply orb_false_iff in E1 as [E1 E2]. apply orb_false_iff in E1 as [E1 E3]. z_bool.
    rewrite !dec_of_big_ok in Hc. unfold is_uint in HP, HR, HA, Hr, Ha.
    apply bind_Ok_inv in Hc as (q & Hq & Hc).
    apply liquidity_units_inv in Hq as [Hq0 Hq]; [|lia..].
    assert (Hd : 0 < dec_one) by (unfold dec_one; lia).
    apply bind_Ok_inv in Hc as (n & Hn & Hc). apply dec_add_val in Hn; [subst n|nia..].
    apply bind_Ok_inv in Hc as (p' & Hp & Hc). apply dec_trunc_val in Hp; [|nia].
    rewrite Z.div_add_l in Hp by lia.
    apply bind_Ok_inv in Hc as (p2 & Hp2 & Hc). apply uint_of_big_inv in Hp2 as [-> Hpu].
    apply bind_Ok_inv in Hc as (s' & Hs & Hc). apply dec_trunc_val in Hs; [|done].
    apply bind_Ok_inv in Hc as (s2 & Hs2 & Hc). apply uint_of_big_inv in Hs2 as [-> Hsu].
    injection Hc as <- <-. split; [done|]. split; [done|]. split; [by rewrite Hp, Hs|].
    intros _ _ _. unfold units_near. cbv zeta.
    pose proof (div_bounds q dec_one Hd) as Hb. rewrite <- Hs in Hb.
    assert (HD : 0 < units_den R A r a) by (unfold units_den; nia).
    set (N := units_num P R A r a) in *. set (D := units_den R A r a) in *. clearbody N D. nia.
Qed.

(** On amounts below [2^84] nothing overflows. *)
Lemma liquidity_units_total P R A r a :
  0 < P < 2 ^ 84 -> 0 < R < 2 ^ 84 -> 0 < A < 2 ^ 84 -> 0 <= r < 2 ^ 84 -> 0 <= a < 2 ^ 84 ->
  exists q, liquidity_units (P * dec_one) (R * dec_one) (A * dec_one) (r * dec_one) (a * dec_one) = Ok q
    /\ q < 2 ^ 172 * dec_one.
Proof.
  intros HP HR HA Hr Ha.
  assert (HL : uint_lim = 2 ^ 256) by done.
  assert (HrA : 0 <= r * A < 2 ^ 168) by (pose proof (small_product r A 84 84); lia).
  assert (HaR : 0 <= a * R < 2 ^ 168) by (pose proof (small_product a R 84 84); lia).
  assert (Hra : 0 <= r * a < 2 ^ 168) by (pose proof (small_product r a 84 84); lia).
  assert (HAR : 0 < A * R < 2 ^ 168) by (pose proof (small_product A R 84 84); nia).
  assert (Hin : 0 <= r * A + a * R + 2 * r * a < 2 ^ 170) by lia.
  assert (HPin : 0 <= P * (r * A + a * R + 2 * r * a) < 2 ^ 254)
    by (pose proof (small_product P (r * A + a * R + 2 * r * a) 84 170); lia).
  unfold liquidity_units. rewrite dec_of_big_ok.
  rewrite (dec_mul_int_Ok r A), (dec_mul_int_Ok a R), (dec_mul_int_Ok 2 r), (dec_mul_int_Ok 2 A)
    by lia.
  simpl. rewrite (dec_add_int_Ok (r * A)) by lia. simpl.
  rewrite (dec_mul_int_Ok (2 * r) a) by lia. simpl.
  rewrite (dec_add_int_Ok _ (2 * r * a)) by lia. simpl.
  rewrite (dec_mul_int_Ok P), (dec_mul_int_Ok (2 * A) R) by lia. simpl.
  rewrite (dec_add_int_Ok _ (2 * A * R)) by lia. simpl.
  fold (units_num P R A r a) in *. fold (units_den R A r a).
  assert (HD : 0 < units_den R A r a) by (unfold units_den; lia).
  assert (HND : units_num P R A r a <= P * ((2 ^ 85 + 1) * units_den R A r a)).
  { apply Z.mul_le_mono_nonneg_l; [lia|].
    assert (r * a <= r * A * 2 ^ 84) by nia. unfold units_den. lia. }
  set (N := units_num P R A r a) in *. set (D := units_den R A r a) in *. clearbody N D.
  assert (Hd : 2 <= dec_one) by (unfold dec_one; lia).
  destruct (Z.eqb_spec (D * dec_one) 0); [nia|].
  assert (HN2 : N < 2 ^ 171 * D) by nia.
  destruct (dec_quo_ok (N * dec_one) (D * dec_one)) as (q & -> & Hq0 & Hq); [nia|nia|nia|].
  exists q. split; [done|].
  replace (q * (D * dec_one) - N * dec_one * dec_one)
    with ((q * D - N * dec_one) * dec_one) in Hq by ring.
  rewrite Z.abs_mul, (Z.abs_eq dec_one) in Hq by lia.
  apply Z.mul_le_mono_pos_r in Hq; [|lia].
  assert (q * D < 2 ^ 172 * dec_one * D) by nia. nia.
Qed.

Lemma calculatePoolUnits_total P R A r a :
  0 < P < 2 ^ 84 -> 0 < R < 2 ^ 84 -> 0 < A < 2 ^ 84 -> 0 <= r < 2 ^ 84 -> 0 <= a < 2 ^ 84 ->
  exists p s, calculatePoolUnits P R A r a = Ok (p, s).
Proof.
  intros HP HR HA Hr Ha. assert (HL : uint_lim = 2 ^ 256) by done.
  destruct (liquidity_units_total P R A r a HP HR HA Hr Ha) as (q & Hq & Hlt).
  pose proof (proj1 (liquidity_units_inv P R A r a q ltac:(lia) ltac:(lia) ltac:(lia)
    ltac:(lia) ltac:(lia) Hq)) as Hq0.
  assert (Hd : 2 <= dec_one) by (unfold dec_one; lia).
  unfold calculatePoolUnits. rewrite !dec_of_big_ok.
  rewrite (uint_add_Ok r R), (uint_add_Ok a A) by (unfold is_uint; lia). simpl.
  destruct (Z.eqb_spec (r + R) 0); [lia|]. destruct (Z.eqb_spec (a + A) 0); [lia|].
  rewrite (proj2 (Z.eqb_neq R 0)), (proj2 (Z.eqb_neq A 0)), (proj2 (Z.eqb_neq P 0)) by lia.
  simpl. rewrite Hq. simpl. rewrite dec_add_ok; [|nia|done|rewrite HL; nia]. simpl.
  rewrite (dec_trunc_ok (P * dec_one + q)); [|nia|rewrite HL; nia].
  rewrite (dec_trunc_ok q); [|done|rewrite HL; nia]. simpl.
  rewrite Z.div_add_l by lia.
  assert (Hqd : 0 <= q / dec_one < 2 ^ 172).
  { split; [apply Z.div_pos; lia|]. apply Z.div_lt_upper_bound; lia. }
  rewrite !uint_of_big_ok, !uint_or_panic_Ok by (unfold is_uint; lia). simpl. eauto.
Qed.

(** Units of the formula never dilute: the geometric mean of the depths per
    unit does not drop. *)
Lemma units_near_fair P R A r a s : 0 < P -> 0 < R -> 0 < A -> 0 <= r -> 0 <= a -> 0 <= s ->
  units_near P R A r a s ->
  R * A * (((P + s) * dec_one - 1) * ((P + s) * dec_one - 1)) <=
    (R + r) * (A + a) * (P * dec_one * (P * dec_one)).
Proof.
  intros HP HR HA Hr Ha Hs [Hle _]. assert (Hd : 2 <= dec_one) by (unfold dec_one; lia).
  set (d := dec_one) in *. clearbody d.
  assert (HT : 0 < R + r) by lia. assert (HV : 0 < A + a) by lia.
  assert (HD : units_den R A r a = A * (R + r) + R * (A + a)) by (unfold units_den; ring).
  assert (HN : P * units_den R A r a + units_num P R A r a = 2 * P * (R + r) * (A + a))
    by (unfold units_num, units_den; ring).
  set (N := units_num P R A r a) in *. set (D := units_den R A r a) in *. clearbody N D.
  set (T := R + r) in *. set (V := A + a) in *. clearbody T V.
  set (u := (P + s) * d - 1). assert (Hu : 0 <= u) by (unfold u; nia).
  assert (HuD : u * D <= 2 * P * T * V * d) by (unfold u; nia). clearbody u.
  assert (HAM : 4 * (A * T * (R * V)) <= D * D).
  { rewrite HD. pose proof (Z.square_nonneg (A * T - R * V)). nia. }
  assert (HDpos : 0 < D) by (rewrite HD; nia).
  assert (Hsq : u * D * (u * D) <= 2 * P * T * V * d * (2 * P * T * V * d)).
  { apply Z.mul_le_mono_nonneg; try done; nia. }
  assert (Hfin : R * A * (u * u) * (4 * T * V) <= T * V * (P * d * (P * d)) * (4 * T * V)).
  { etrans; [|etrans; [exact Hsq|]].
    - replace (R * A * (u * u) * (4 * T * V)) with (4 * (A * T * (R * V)) * (u * u)) by ring.
      replace (u * D * (u * D)) with (D * D * (u * u)) by ring.
      apply Z.mul_le_mono_nonneg_r; [nia|done].
    - apply Z.eq_le_incl. ring. }
  apply Z.mul_le_mono_pos_r in Hfin; [done|nia].
Qed.
End unit_lemmas.

(** ** The components at concrete inputs *)
Definition demo_liquidity_env : LiquidityEnv (KVStore SimpleBank) :=
  mkLiquidityEnv demo_queue_env (fun _ => Ok "pol") (fun c _ => Ok (NewCoin (GetGasAsset c) 50))
    (fun _ _ => 10) (fun _ => true) false "Available".
