(* ===== verification/LiquidityProps.v ===== *)
(** The books of a pool: the units, the pending DECA and the pending asset of
    [x/thorchain/types.Pool] are the sums over its providers' records, and
    adding, withdrawing and donating liquidity keep them so. *)
From S2P Require Import Prelude SdkMath GoStr Keys Shares Chains Assets Coins Bank Nodes Txs.
From S2P Require Import Decimal MemoTypes Voters Mimir Observed Pools Streaming Vaults Keeper LimitIndex VaultStore SwapCalc Swaps Settle Liquidity.
Local Open Scope string_scope.
Local Open Scope Z_scope.

(** The key prefix of the providers of a pool. *)
Definition lp_prefix (a : Asset) : string :=
  GetKey prefixLiquidityProvider (LP_Key (mkLiquidityProvider a "" "" 0 0 0 0 0 "" 0 0)).

Section iterator.
Context {B : Type}.

(** The records [GetLiquidityProviderIterator] visits. *)
Definition lps_of (k : KVStore B) (a : Asset) : gmap string LiquidityProvider :=
  filter (fun x => String.prefix (lp_prefix a) (fst x) = true) (kLPs k).
Definition GetLiquidityProviderIterator (k : KVStore B) (a : Asset) : list LiquidityProvider :=
  iterate (lps_of k a).

Definition lp_total (k : KVStore B) (a : Asset) (f : LiquidityProvider -> Z) : Z :=
  map_sum f (lps_of k a).
End iterator.

(** A record is stored under its own key. *)
Record provider_keyed (a : Asset) (key : string) (lp : LiquidityProvider) : Prop := {
  pk_key : key = GetKey prefixLiquidityProvider (LP_Key lp);
  pk_asset : Asset_String (lpAsset lp) = Asset_String a;
  pk_addr : Address_IsEmpty (LP_GetAddress lp) = false;
  pk_units : is_uint (Units lp);
  pk_deca : is_uint (PendingDeca lp);
  pk_pending : is_uint (PendingAsset lp)
}.

(** The books of the pool of [a] balance. *)
Record ledger_ok {B} (k : KVStore B) (a : Asset) : Prop := {
  lg_exists : PoolExist k a = true -> Pool_IsEmpty (GetPool k a) = false;
  lg_key : Pool_IsEmpty (GetPool k a) = false -> Asset_String (plAsset (GetPool k a)) = Asset_String a;
  lg_plain : IsSyntheticAsset (plAsset (GetPool k a)) = false;
  lg_pool : pool_ok (GetPool k a);
  lg_inbound : is_uint (PendingInboundDeca (GetPool k a)) /\ is_uint (PendingInboundAsset (GetPool k a));
  lg_units : LPUnits (GetPool k a) = lp_total k a Units;
  lg_deca : PendingInboundDeca (GetPool k a) = lp_total k a PendingDeca;
  lg_asset : PendingInboundAsset (GetPool k a) = lp_total k a PendingAsset;
  lg_lps : map_Forall (provider_keyed a) (lps_of k a)
}.

Lemma string_prefix_app s t : String.prefix s (s ++ t) = true.
Proof.
  induction s as [|c s IH]; [by destruct t|]. simpl. destruct (ascii_dec c c); [done|done].
Qed.

Lemma string_app_assoc (a b c : string) : ((a ++ b) ++ c)%string = (a ++ (b ++ c))%string.
Proof. induction a as [|x a IH]; [done|]. 
  change (String x ((a ++ b) ++ c) = String x (a ++ (b ++ c)))%string. by rewrite IH.
Qed.

Lemma lp_key_prefix a lp : Asset_String (lpAsset lp) = Asset_String a ->
  String.prefix (lp_prefix a) (GetKey prefixLiquidityProvider (LP_Key lp)) = true.
Proof.
  intros Ha. unfold lp_prefix, GetKey, LP_Key. simpl lpAsset.
  change (LP_GetAddress (mkLiquidityProvider a "" "" 0 0 0 0 0 "" 0 0)) with "".
  rewrite Ha. change (Address_String "") with "".
  set (s := Asset_String a). set (t := Address_String (LP_GetAddress lp)). clearbody s t.
  replace (s ++ "/" ++ t)%string with ((s ++ "/" ++ "") ++ t)%string
    by (rewrite !string_app_assoc; done).
  rewrite (to_upper_app _ t).
  set (u := to_upper (s ++ "/" ++ "")). set (v := to_upper t). clearbody u v.
  replace (prefixLiquidityProvider ++ "/" ++ (u ++ v))%string
    with ((prefixLiquidityProvider ++ "/" ++ u) ++ v)%string by (rewrite !string_app_assoc; done).
  apply string_prefix_app.
Qed.

Section ledger.
Context {B : Type} `{Bank B} `{!BankOk B} {K : SdkKeys} {S : SdkMath} `{!SdkMathOk S}.
Implicit Types k : KVStore B.

Lemma lps_of_set k a lp : Asset_String (lpAsset lp) = Asset_String a ->
  lps_of (SetLiquidityProvider k lp) a =
    <[GetKey prefixLiquidityProvider (LP_Key lp) := lp]> (lps_of k a).
Proof using.
  intros Ha. unfold lps_of, SetLiquidityProvider. simpl. apply map_filter_insert_True. simpl.
  by apply lp_key_prefix.
Qed.

Lemma lps_of_remove k a lp :
  lps_of (RemoveLiquidityProvider k lp) a =
    delete (GetKey prefixLiquidityProvider (LP_Key lp)) (lps_of k a).
Proof using. unfold lps_of, RemoveLiquidityProvider. simpl. apply map_filter_delete. Qed.

Lemma lps_of_lookup k a lp : Asset_String (lpAsset lp) = Asset_String a ->
  lps_of k a !! GetKey prefixLiquidityProvider (LP_Key lp) =
    kLPs k !! GetKey prefixLiquidityProvider (LP_Key lp).
Proof using.
  intros Ha. unfold lps_of. rewrite map_lookup_filter.
  destruct (kLPs k !! GetKey prefixLiquidityProvider (LP_Key lp)); [|done]. simpl.
  rewrite option_guard_True; [done|]. simpl. by apply lp_key_prefix.
Qed.

(** The record of an address: what the books list for it. *)
Lemma GetLiquidityProvider_inv k thor a addr : ledger_ok k a -> Address_IsEmpty addr = false ->
  let lp := GetLiquidityProvider k thor a addr in
  provider_keyed a (GetKey prefixLiquidityProvider (Asset_String a ++ "/" ++ addr)) lp /\
  (lps_of k a !! GetKey prefixLiquidityProvider (LP_Key lp) = Some lp \/
   lps_of k a !! GetKey prefixLiquidityProvider (LP_Key lp) = None /\
   Units lp = 0 /\ PendingDeca lp = 0 /\ PendingAsset lp = 0 /\ PendingTxID lp = "" /\
   (DecaAddress lp = addr /\ AssetAddress lp = "" \/ DecaAddress lp = "" /\ AssetAddress lp = addr)).
Proof using.
  intros Hl Haddr lp. subst lp. unfold GetLiquidityProvider.
  set (fresh := if thor addr then _ else _).
  assert (Hf : lpAsset fresh = a /\ LP_GetAddress fresh = addr /\ Units fresh = 0 /\
    PendingDeca fresh = 0 /\ PendingAsset fresh = 0 /\ PendingTxID fresh = "" /\
    (DecaAddress fresh = addr /\ AssetAddress fresh = "" \/
     DecaAddress fresh = "" /\ AssetAddress fresh = addr)).
  { subst fresh. unfold LP_GetAddress. destruct (thor addr); simpl.
    - rewrite Haddr. simpl. repeat split; try done. by left.
    - repeat split; try done. by right. }
  destruct Hf as (Ha & Hadr & Hu & Hd & Hp & Htx & Hfa).
  assert (Hk : LP_Key fresh = (Asset_String a ++ "/" ++ addr)%string)
    by (unfold LP_Key; by rewrite Ha, Hadr).
  pose proof (lps_of_lookup k a fresh ltac:(by rewrite Ha)) as Hlk.
  destruct (kLPs k !! GetKey prefixLiquidityProvider (LP_Key fresh)) as [lp|] eqn:E; simpl.
  - pose proof (lg_lps _ _ Hl _ _ Hlk) as Hkeyed. rewrite <- Hk. split; [done|]. left.
    by rewrite <- (pk_key _ _ _ Hkeyed).
  - rewrite <- Hk. split; [|right; rewrite Hlk; done].
    split; rewrite ?Hadr, ?Hu, ?Hd, ?Hp; try done; try apply is_uint_0. by rewrite Ha.
Qed.

(** What the books list under the key of a record, as amounts. *)
Lemma listed_amount k a lp (f : LiquidityProvider -> Z) :
  lps_of k a !! GetKey prefixLiquidityProvider (LP_Key lp) = Some lp \/
  lps_of k a !! GetKey prefixLiquidityProvider (LP_Key lp) = None /\ f lp = 0 ->
  from_option f 0 (lps_of k a !! GetKey prefixLiquidityProvider (LP_Key lp)) = f lp.
Proof using. intros [->|[-> H0]]; simpl; congruence. Qed.

(** A record replaced (or removed) together with the matching change of the
    pool keeps the books balanced. *)
Definition replace_lp (key : string) (o : option LiquidityProvider)
    (m : gmap string LiquidityProvider) : gmap string LiquidityProvider :=
  match o with Some lp => <[key := lp]> m | None => delete key m end.

Lemma map_sum_replace (f : LiquidityProvider -> Z) key o m :
  map_sum f (replace_lp key o m) = map_sum f m - from_option f 0 (m !! key) + from_option f 0 o.
Proof using.
  destruct o as [lp|]; simpl; [by rewrite map_sum_insert|]. rewrite map_sum_delete. lia.
Qed.

Definition key_of (lp : LiquidityProvider) : string := GetKey prefixLiquidityProvider (LP_Key lp).

(** The books list [lp], or nothing when its amounts are zero. *)
Definition listed k a (lp : LiquidityProvider) : Prop :=
  lps_of k a !! key_of lp = Some lp \/
  lps_of k a !! key_of lp = None /\ Units lp = 0 /\ PendingDeca lp = 0 /\ PendingAsset lp = 0.

Lemma ledger_update k k' a lp o :
  ledger_ok k a -> listed k a lp ->
  lps_of k' a = replace_lp (key_of lp) o (lps_of k a) ->
  (forall lp', o = Some lp' -> provider_keyed a (key_of lp) lp') ->
  let p := GetPool k a in let p' := GetPool k' a in
  Pool_IsEmpty p = false -> plAsset p' = plAsset p -> pool_ok p' ->
  is_uint (PendingInboundDeca p') -> is_uint (PendingInboundAsset p') ->
  LPUnits p' = LPUnits p - Units lp + from_option Units 0 o ->
  PendingInboundDeca p' = PendingInboundDeca p - PendingDeca lp + from_option PendingDeca 0 o ->
  PendingInboundAsset p' = PendingInboundAsset p - PendingAsset lp + from_option PendingAsset 0 o ->
  ledger_ok k' a.
Proof using.
  intros [He Hk Hsy Hp Hi Hu Hd Ha Hl] Hlist Hm Ho p p' He' Hk' Hp' Hi1 Hi2 Hu' Hd' Ha'.
  assert (Hold : from_option Units 0 (lps_of k a !! key_of lp) = Units lp /\
    from_option PendingDeca 0 (lps_of k a !! key_of lp) = PendingDeca lp /\
    from_option PendingAsset 0 (lps_of k a !! key_of lp) = PendingAsset lp).
  { destruct Hlist as [->|(-> & -> & -> & ->)]; done. }
  destruct Hold as (Hou & Hod & Hoa).
  split; try done; try (unfold lp_total; rewrite Hm, map_sum_replace).
  - intros _. subst p p'. unfold Pool_IsEmpty in *. by rewrite Hk'.
  - intros _. subst p p'. rewrite Hk'. by apply Hk.
  - subst p p'. by rewrite Hk'.
  - subst p p'; unfold lp_total in *. rewrite Hou, <- Hu. done.
  - subst p p'; unfold lp_total in *. rewrite Hod, <- Hd. done.
  - subst p p'; unfold lp_total in *. rewrite Hoa, <- Ha. done.
  - rewrite Hm. destruct o as [lp'|]; simpl.
    + by apply map_Forall_insert_2; [apply Ho|].
    + by apply map_Forall_delete.
Qed.

(** The books do not look further than the records of the pool. *)
Lemma ledger_same k k' a : kPools k' = kPools k -> kLPs k' = kLPs k -> ledger_ok k a -> ledger_ok k' a.
Proof using.
  intros Hpools Hlps [He Hk Hsy Hp Hi Hu Hd Ha Hl].
  assert (Hg : GetPool k' a = GetPool k a) by (unfold GetPool; by rewrite Hpools).
  assert (Hm : lps_of k' a = lps_of k a) by (unfold lps_of; by rewrite Hlps).
  split; rewrite ?Hg; unfold lp_total; rewrite ?Hm; try done. unfold PoolExist. by rewrite Hpools.
Qed.

Lemma SetPool_inv k pool k' : SetPool k pool = Ok k' ->
  Pool_IsEmpty pool = false /\ kLPs k' = kLPs k /\ kHeight k' = kHeight k /\ kInts k' = kInts k /\
  GetPool k' (plAsset pool) = pool /\
  (forall a, Asset_String a = Asset_String (plAsset pool) -> GetPool k' a = pool) /\
  (forall b, Asset_String b <> Asset_String (plAsset pool) -> GetPool k' b = GetPool k b).
Proof using.
  unfold SetPool, Pool_IsEmpty. case_if; [done|]. intros [= <-]. unfold GetPool. simpl.
  repeat split; try done.
  - by rewrite lookup_insert_eq.
  - intros a ->. by rewrite lookup_insert_eq.
  - intros b Hb. rewrite lookup_insert_ne; [done|]. intros Hk%GetKey_inj.
    rewrite !Asset_String_upper in Hk. congruence.
Qed.

(** A record and its pool stored, in either order. *)
Lemma store_record k pool lp k' a : Asset_String (lpAsset lp) = Asset_String a ->
  Pool_IsEmpty pool = false -> Asset_String (plAsset pool) = Asset_String a ->
  (SetPool (SetLiquidityProvider k lp) pool = Ok k' \/
   exists k1, SetPool k pool = Ok k1 /\ k' = SetLiquidityProvider k1 lp) ->
  lps_of k' a = replace_lp (key_of lp) (Some lp) (lps_of k a) /\ GetPool k' a = pool.
Proof using.
  intros Ha He Hpa [Hs|(k1 & Hs & ->)]; apply SetPool_inv in Hs as (_ & Hl & _ & _ & _ & Hg & _).
  - split; [|by apply Hg]. unfold lps_of. rewrite Hl. by apply (lps_of_set k).
  - split; [|unfold GetPool in *; simpl; by apply Hg].
    rewrite lps_of_set by done. simpl. unfold lps_of. by rewrite Hl.
Qed.

(** Two records of one place in the store. *)
Definition same_place (lp lp' : LiquidityProvider) : Prop :=
  key_of lp' = key_of lp /\ lpAsset lp' = lpAsset lp /\ Address_IsEmpty (LP_GetAddress lp') = false.

Lemma provider_addresses_inv (env : LiquidityEnv (KVStore B)) a su deca asset su' :
  IsSyntheticAsset a = false ->
  provider_keyed a (GetKey prefixLiquidityProvider
    (Asset_String a ++ "/" ++ (if Address_IsEmpty deca then asset else deca))) su ->
  provider_addresses env su a deca asset = Ok su' ->
  same_place su su' /\
  exists d1 a1, su' = lp_with_addresses su d1 a1 /\
    (Address_IsEmpty asset = false -> Address_Equals a1 asset = true).
Proof using.
  intros Hns [Hkey Hasset Haddr _ _ _] Hp. unfold provider_addresses in Hp. rewrite Hns in Hp.
  apply bind_Ok_inv in Hp as (su1 & H1 & H2).
  assert (Hsu : su' = su1 /\ (Address_IsEmpty asset = false -> Address_Equals (AssetAddress su1) asset = true)).
  { destruct (Address_IsEmpty asset); simpl in H2; [by simplify_eq|].
    destruct (Address_Equals (AssetAddress su1) asset) eqn:E; simplify_eq/=. done. }
  destruct Hsu as [-> Hsu]. clear H2.
  assert (Hsame : exists d1 a1, su1 = lp_with_addresses su d1 a1 /\
    (d1 = DecaAddress su /\ a1 = AssetAddress su \/
     d1 = (if Address_IsEmpty (DecaAddress su) then deca else DecaAddress su) /\
     a1 = (if Address_IsEmpty (AssetAddress su) then asset else AssetAddress su))).
  { destruct (Units su =? 0).
    - destruct (TxID_IsEmpty (PendingTxID su));
        (match type of H1 with (if negb ?b then _ else _) = _ => destruct b; [|done] end);
        simpl negb in H1; cbv iota in H1;
        (match type of H1 with (if negb ?b then _ else _) = _ => destruct b; [|done] end);
        injection H1 as <-; [|destruct su; eauto 10].
      eexists _, _. split; [reflexivity|]. by right.
    - injection H1 as <-. destruct su. eexists _, _. split; [reflexivity|]. by left. }
  destruct Hsame as (d1 & a1 & -> & Hda). split.
  2:{ exists d1, a1. split; [done|]. exact Hsu. }
  unfold same_place, key_of, LP_Key, LP_GetAddress in *. simpl in *.
  destruct Hda as [ [-> ->] | [-> ->] ]; [done|].
  destruct (Address_IsEmpty (DecaAddress su)) eqn:Ed; simpl in *; [|by rewrite Ed].
  destruct (Address_IsEmpty deca) eqn:Edd; simpl; [by rewrite Haddr|].
  split; [|done]. rewrite <- Hkey, Hasset. done.
Qed.

Lemma listed_of_get k thor a addr : ledger_ok k a -> Address_IsEmpty addr = false ->
  listed k a (GetLiquidityProvider k thor a addr).
Proof using.
  intros Hl Ha. destruct (GetLiquidityProvider_inv k thor a addr Hl Ha) as [_ [Hin|(Hin & ? & ? & ? & _)] ];
    [by left|right; done].
Qed.

Lemma same_place_keyed a key su su' : provider_keyed a key su -> same_place su su' ->
  is_uint (Units su') -> is_uint (PendingDeca su') -> is_uint (PendingAsset su') ->
  provider_keyed a (key_of su) su'.
Proof using. intros [Hk Ha _ _ _ _] (H1 & H2 & H3) ???. split; try done. by rewrite H2. Qed.

Lemma clear_pending_inv pool su pool' su' :
  is_uint (PendingInboundDeca pool) -> is_uint (PendingInboundAsset pool) ->
  is_uint (PendingDeca su) -> is_uint (PendingAsset su) ->
  clear_pending pool su = Ok (pool', su') ->
  pool' = with_pending_inbound pool (PendingInboundDeca pool - PendingDeca su)
            (PendingInboundAsset pool - PendingAsset su) /\
  su' = lp_with_pending su 0 0 "" /\
  PendingDeca su <= PendingInboundDeca pool /\ PendingAsset su <= PendingInboundAsset pool.
Proof using SdkMathOk0.
  intros H1 H2 H3 H4 Hc. unfold clear_pending in Hc. repeat (case_if_in Hc; [done|]). z_bool.
  uint_inv. by subst.
Qed.

Lemma units_bought_inv pool a d as_ u d' : IsSyntheticAsset a = false -> pool_ok pool ->
  units_bought pool a d as_ = Ok (u, d') ->
  d' = d /\ exists p, calculatePoolUnits (LPUnits pool + SynthUnits pool) (BalanceDeca pool)
    (BalanceAsset pool) d as_ = Ok (p, u) /\ is_uint (LPUnits pool + SynthUnits pool).
Proof using SdkMathOk0.
  intros Hns (_ & _ & HL & HS) Hu. unfold units_bought in Hu. rewrite Hns in Hu.
  apply bind_Ok_inv in Hu as (units & Hg & Hu). unfold GetPoolUnits in Hg. uint_inv. subst.
  destruct x as [p l]. simplify_eq. split; [done|]. by exists p.
Qed.

Lemma deposit_values_inv pool su l su' : deposit_values pool su l = Ok su' ->
  exists x y, su' = lp_with_deposit su x y.
Proof using.
  intros Hd. unfold deposit_values in Hd.
  repeat case_if_in Hd; ok_inv; [by eexists _, _..|].
  exists (DecaDepositValue su'), (AssetDepositValue su'). by destruct su'.
Qed.

Lemma track_pol_frame (env : LiquidityEnv (KVStore B)) k su n k' : track_pol_deposit env k su n = Ok k' ->
  kPools k' = kPools k /\ kLPs k' = kLPs k.
Proof using.
  unfold track_pol_deposit. intros Ht. ok_inv. case_if_in Ht; ok_inv; [done|by simplify_eq].
Qed.

(** A complete addition: the units it buys, the pool and the record after it. *)
Lemma commit_liquidity_inv (env : LiquidityEnv (KVStore B)) k a pool su supply d as_ k' :
  IsSyntheticAsset a = false -> pool_ok pool ->
  (Pool_IsEmpty pool = false -> Asset_String (plAsset pool) = Asset_String a) ->
  Asset_String (lpAsset su) = Asset_String a -> is_uint supply ->
  is_uint (PendingInboundDeca pool) -> is_uint (PendingInboundAsset pool) ->
  is_uint (PendingDeca su) -> is_uint (PendingAsset su) -> is_uint (Units su) ->
  is_uint d -> is_uint as_ ->
  commit_liquidity env k a pool su supply d as_ = Ok k' ->
  Pool_IsEmpty pool = false /\ exists p u su' pool',
    calculatePoolUnits (LPUnits pool + SynthUnits pool) (BalanceDeca pool) (BalanceAsset pool) d as_
      = Ok (p, u) /\
    GetPool k' a = pool' /\ Pool_IsEmpty pool' = false /\ pool_ok pool' /\ plAsset pool' = plAsset pool /\
    BalanceDeca pool' = BalanceDeca pool + d /\ BalanceAsset pool' = BalanceAsset pool + as_ /\
    LPUnits pool' = LPUnits pool + u /\
    PendingInboundDeca pool' = PendingInboundDeca pool - PendingDeca su /\
    PendingInboundAsset pool' = PendingInboundAsset pool - PendingAsset su /\
    PendingDeca su <= PendingInboundDeca pool /\ PendingAsset su <= PendingInboundAsset pool /\
    lps_of k' a = replace_lp (key_of su) (Some su') (lps_of k a) /\
    (LP_Key su' = LP_Key su /\ lpAsset su' = lpAsset su /\ LP_GetAddress su' = LP_GetAddress su) /\
    Units su' = Units su + u /\ is_uint (Units su') /\ PendingDeca su' = 0 /\ PendingAsset su' = 0.
Proof using SdkMathOk0.
  intros Hns Hok Hpa Hla Hsup HiD HiA HpD HpA HU Hd Has Hc. unfold commit_liquidity in Hc.
  apply bind_Ok_inv in Hc as ([pool1 su1] & H1 & Hc).
  apply clear_pending_inv in H1 as (-> & -> & Hle1 & Hle2); [|done..].
  apply bind_Ok_inv in Hc as ([u d'] & H2 & Hc).
  apply units_bought_inv in H2 as (-> & p & Hcalc & Hsum); [|done|done]. simpl in Hcalc, Hsum.
  case_if_in Hc; [done|]. pose proof Hok as (HD & HA & HL & HS).
  destruct (calculatePoolUnits_inv _ _ _ _ _ _ _ Hsum HD HA Hd Has Hcalc) as (Hu & _ & _ & _).
  apply bind_Ok_inv in Hc as (pr & Hpr & Hc). apply bind_Ok_inv in Hc as (pa & Hpa' & Hc).
  apply bind_Ok_inv in Hc as (lu & Hlu & Hc). simpl in Hpr, Hpa', Hlu.
  apply uint_add_inv in Hpr as [-> HDd], Hpa' as [-> HAa], Hlu as [-> HLu]; [|done..].
  case_if_in Hc; [done|]. apply bind_Ok_inv in Hc as ([us pool2] & Hcu & Hc).
  match goal with Hx : CalcUnits ?q _ = Ok _ |- _ => set (q0 := q) in Hx end.
  assert (Hq0 : pool_ok q0) by (repeat split; simpl; try apply HS; unfold is_uint in *; lia).
  destruct (CalcUnits_inv q0 supply us pool2 Hq0 Hsup Hcu) as (-> & _ & _ & Hok2 & _).
  apply bind_Ok_inv in Hc as (k1 & Hset & Hc). apply bind_Ok_inv in Hc as (lu & Hlu & Hc).
  simpl in Hlu. apply uint_add_inv in Hlu as [-> HUu]; [|done|done].
  apply bind_Ok_inv in Hc as (su2 & Hdv & Hc).
  apply deposit_values_inv in Hdv as (x & y & ->). apply track_pol_frame in Hc as [Hp Hl].
  assert (Hne : Pool_IsEmpty pool = false) by (apply SetPool_inv in Hset as [Hne _]; exact Hne).
  split; [done|].
  destruct (store_record k (with_synth_units q0 (synth_units q0 supply))
    (lp_with_deposit (lp_with_units (lp_with_pending su 0 0 "") (Units su + u)) x y)
    (SetLiquidityProvider k1 (lp_with_deposit (lp_with_units (lp_with_pending su 0 0 "") (Units su + u)) x y))
    a Hla) as [Hlps Hpool].
  - exact Hne.
  - exact (Hpa Hne).
  - right. by exists k1.
  - exists p, u, (lp_with_deposit (lp_with_units (lp_with_pending su 0 0 "") (Units su + u)) x y),
      (with_synth_units q0 (synth_units q0 supply)).
    split; [done|]. split; [unfold GetPool in *; by rewrite Hp|]. split; [done|]. split; [done|].
    repeat (split; [done|]). split; [|simpl; repeat split; try done; unfold is_uint in *; lia].
    unfold lps_of in *. rewrite Hl. exact Hlps.
Qed.

(** The state [addLiquidity] works on, and which of its three ends it reaches. *)
Lemma addLiquidity_inv (env : LiquidityEnv (KVStore B)) k a r as_ deca asset tx stage k' :
  ledger_ok k a -> IsSyntheticAsset a = false -> is_uint r -> is_uint as_ ->
  addLiquidity env k a r as_ deca asset tx stage = Ok k' ->
  exists supply units pool su0 su,
    Address_IsEmpty (if Address_IsEmpty deca then asset else deca) = false /\
    is_uint supply /\ CalcUnits (GetPool k a) supply = Ok (units, pool) /\
    su0 = GetLiquidityProvider k (is_thor env) a (if Address_IsEmpty deca then asset else deca) /\
    same_place su0 su /\ Units su = Units su0 /\ PendingDeca su = PendingDeca su0 /\
    PendingAsset su = PendingAsset su0 /\
    is_uint (PendingDeca su + r) /\ is_uint (PendingAsset su + as_) /\
    (stage_deca k pool su r (PendingDeca su + r) tx = Ok k' \/
     stage_asset k pool su as_ (PendingAsset su + as_) tx = Ok k' \/
     (stage = true -> PendingDeca su + r <> 0 /\ PendingAsset su + as_ <> 0) /\
     commit_liquidity env k a pool su supply (PendingDeca su + r) (PendingAsset su + as_) = Ok k').
Proof using SdkMathOk0.
  intros Hl Hns Hr Ha Hadd. unfold addLiquidity in Hadd.
  apply bind_Ok_inv in Hadd as ([] & Hv & Hadd). apply wrap_err_Ok in Hv.
  assert (Hne : Address_IsEmpty (if Address_IsEmpty deca then asset else deca) = false).
  { unfold validateAddLiquidityMessage in Hv. case_if_in Hv; [done|]. case_if_in Hv; [done|].
    case_if_in Hv; [done|]. destruct (Address_IsEmpty deca) eqn:Ed; [by apply E1|done]. }
  apply bind_Ok_inv in Hadd as (supply & Hs & Hadd). apply GetTotalSupply_uint in Hs.
  apply bind_Ok_inv in Hadd as ([units pool] & Hcu & Hadd).
  apply bind_Ok_inv in Hadd as (su & Hsu & Hadd).
  set (su0 := GetLiquidityProvider k (is_thor env) a _) in *.
  destruct (GetLiquidityProvider_inv k (is_thor env) a _ Hl Hne) as [Hkeyed _]. fold su0 in Hkeyed.
  apply provider_addresses_inv in Hsu as (Hplace & d1 & a1 & Hsu & _); [|done|].
  2:{ destruct Hkeyed. split; done. }
  pose proof (pk_deca _ _ _ Hkeyed) as HpD. pose proof (pk_pending _ _ _ Hkeyed) as HpA.
  assert (Hsame : Units su = Units su0 /\ PendingDeca su = PendingDeca su0 /\
    PendingAsset su = PendingAsset su0) by (by rewrite Hsu).
  destruct Hsame as (Hu & Hpd & Hpa).
  apply bind_Ok_inv in Hadd as (pd & H1 & Hadd). apply bind_Ok_inv in Hadd as (pa & H2 & Hadd).
  rewrite Hpd in H1. rewrite Hpa in H2.
  apply uint_add_inv in H1 as [-> Hpdu]; [|done|done].
  apply uint_add_inv in H2 as [-> Hpau]; [|done|done].
  exists supply, units, pool, su0, su. rewrite Hpd, Hpa.
  split; [done|]. split; [done|]. split; [done|]. split; [done|]. split; [done|].
  split; [done|]. split; [done|]. split; [done|]. split; [done|]. split; [done|].
  destruct stage; simpl in Hadd; [|right; right; done].
  destruct (Z.eqb_spec (PendingAsset su0 + as_) 0); [left; done|].
  destruct (Z.eqb_spec (PendingDeca su0 + r) 0); [right; left; done|]. right. right. done.
Qed.

(** A record stored in the place of [lp], with a pool that changed as it did. *)
Lemma store_ledger k k' a key lp lp' :
  ledger_ok k a -> provider_keyed a key lp -> listed k a lp -> same_place lp lp' ->
  is_uint (Units lp') -> is_uint (PendingDeca lp') -> is_uint (PendingAsset lp') ->
  lps_of k' a = replace_lp (key_of lp') (Some lp') (lps_of k a) ->
  let p := GetPool k a in let p' := GetPool k' a in
  Pool_IsEmpty p = false -> plAsset p' = plAsset p -> pool_ok p' ->
  0 <= PendingInboundDeca p' < uint_lim -> 0 <= PendingInboundAsset p' < uint_lim ->
  LPUnits p' = LPUnits p - Units lp + Units lp' ->
  PendingInboundDeca p' = PendingInboundDeca p - PendingDeca lp + PendingDeca lp' ->
  PendingInboundAsset p' = PendingInboundAsset p - PendingAsset lp + PendingAsset lp' ->
  ledger_ok k' a.
Proof using.
  intros Hl Hkeyed Hlist Hplace HU HD HA Hlps p p' ????????.
  apply (ledger_update k k' a lp (Some lp')); try done.
  - by rewrite <- (proj1 Hplace).
  - intros ? [= <-]. by apply (same_place_keyed a key).
Qed.

(** A record found in the store, its place after the addresses were settled. *)
Record found k a (lp0 lp : LiquidityProvider) : Prop := {
  fd_keyed : exists key, provider_keyed a key lp0;
  fd_listed : listed k a lp0;
  fd_place : same_place lp0 lp;
  fd_units : Units lp = Units lp0;
  fd_deca : PendingDeca lp = PendingDeca lp0;
  fd_asset : PendingAsset lp = PendingAsset lp0
}.

Lemma stage_deca_ledger k a s lp0 lp r tx k' : ledger_ok k a -> found k a lp0 lp ->
  let pool := with_synth_units (GetPool k a) s in
  pool_ok pool -> is_uint r -> is_uint (PendingDeca lp + r) ->
  stage_deca k pool lp r (PendingDeca lp + r) tx = Ok k' -> ledger_ok k' a.
Proof using SdkMathOk0.
  intros Hl [ [key Hk] Hlist Hpl Hu Hd Ha] pool Hok Hr Hdu Hst.
  pose proof (lg_inbound _ _ Hl) as [HiD HiA]. pose proof Hk as [_ Hka _ HkU HkD HkA].
  unfold stage_deca in Hst. apply bind_Ok_inv in Hst as (inb & Hin & Hst).
  apply uint_add_inv in Hin as [-> Hiu]; [|done|done].
  pose proof (SetPool_inv _ _ _ Hst) as (Hne & _). pose proof (lg_key _ _ Hl Hne) as Hname.
  edestruct store_record as [Hlps Hpool]; [|exact Hne|exact Hname|left; exact Hst|].
  { simpl. by rewrite (proj1 (proj2 Hpl)). }
  eapply (store_ledger k k' a key lp0); [done|done|done| | | | |exact Hlps|rewrite ?Hpool..];
    simpl in *; try done; rewrite ?Hu, ?Ha; try done; try apply HiA; lia.
Qed.

Lemma stage_asset_ledger k a s lp0 lp r tx k' : ledger_ok k a -> found k a lp0 lp ->
  let pool := with_synth_units (GetPool k a) s in
  pool_ok pool -> is_uint r -> is_uint (PendingAsset lp + r) ->
  stage_asset k pool lp r (PendingAsset lp + r) tx = Ok k' -> ledger_ok k' a.
Proof using SdkMathOk0.
  intros Hl [ [key Hk] Hlist Hpl Hu Hd Ha] pool Hok Hr Hdu Hst.
  pose proof (lg_inbound _ _ Hl) as [HiD HiA]. pose proof Hk as [_ Hka _ HkU HkD HkA].
  unfold stage_asset in Hst. apply bind_Ok_inv in Hst as (inb & Hin & Hst).
  apply uint_add_inv in Hin as [-> Hiu]; [|done|done].
  pose proof (SetPool_inv _ _ _ Hst) as (Hne & _). pose proof (lg_key _ _ Hl Hne) as Hname.
  edestruct store_record as [Hlps Hpool]; [|exact Hne|exact Hname|left; exact Hst|].
  { simpl. by rewrite (proj1 (proj2 Hpl)). }
  eapply (store_ledger k k' a key lp0); [done|done|done| | | | |exact Hlps|rewrite ?Hpool..];
    simpl in *; try done; rewrite ?Hu, ?Hd; try done; try apply HiD; lia.
Qed.

Lemma commit_ledger (env : LiquidityEnv (KVStore B)) k a s lp0 lp supply d as_ k' :
  ledger_ok k a -> found k a lp0 lp -> IsSyntheticAsset a = false -> is_uint supply ->
  let pool := with_synth_units (GetPool k a) s in
  pool_ok pool -> is_uint d -> is_uint as_ ->
  commit_liquidity env k a pool lp supply d as_ = Ok k' -> ledger_ok k' a.
Proof using SdkMathOk0.
  intros Hl [ [key Hk] Hlist Hpl Hu Hd Ha] Hns Hsup pool Hok Hdu Hau Hc.
  pose proof (lg_inbound _ _ Hl) as [HiD HiA]. pose proof Hk as [_ Hka _ HkU HkD HkA].
  destruct (commit_liquidity_inv env k a pool lp supply d as_ k')
    as (Hex & p & u & lp' & pool' & _ & Hpool & Hex' & Hok' & Has' & _ & _ & HLU & HID & HIA & Hle1 & Hle2 &
      Hlps & (HK & HKA & HKad) & HU & HUu & HP1 & HP2); rewrite ?Hd, ?Ha, ?Hu; try done.
  { apply (lg_key _ _ Hl). }
  { by rewrite (proj1 (proj2 Hpl)). }
  assert (Hk' : key_of lp' = key_of lp) by (unfold key_of; by rewrite HK).
  eapply (store_ledger k k' a key lp0 lp'); rewrite ?Hpool, ?Hk'; try done.
  - destruct Hpl as (E1 & E2 & E3). split; [congruence|]. split; [congruence|]. by rewrite HKad.
  - rewrite HP1. apply is_uint_0.
  - rewrite HP2. apply is_uint_0.
  - simpl in *. unfold is_uint in *. lia.
  - simpl in *. unfold is_uint in *. lia.
  - simpl in *. lia.
  - simpl in *. lia.
  - simpl in *. lia.
Qed.

(** Adding liquidity keeps the books. *)
Lemma addLiquidity_ledger (env : LiquidityEnv (KVStore B)) k a r as_ deca asset tx stage k' :
  ledger_ok k a -> IsSyntheticAsset a = false -> is_uint r -> is_uint as_ ->
  addLiquidity env k a r as_ deca asset tx stage = Ok k' -> ledger_ok k' a.
Proof using SdkMathOk0.
  intros Hl Hns Hr Has Hadd.
  destruct (addLiquidity_inv env k a r as_ deca asset tx stage k' Hl Hns Hr Has Hadd)
    as (supply & units & pool & lp0 & lp & Hne & Hsup & Hcu & Hlp0 & Hpl & Hu & Hd & Ha & Hdu & Hau & Hend).
  destruct (CalcUnits_inv _ _ _ _ (lg_pool _ _ Hl) Hsup Hcu) as (-> & _ & _ & Hok & _).
  assert (Hf : found k a lp0 lp).
  { destruct (GetLiquidityProvider_inv k (is_thor env) a _ Hl Hne) as [Hkeyed _].
    pose proof (listed_of_get k (is_thor env) a _ Hl Hne). rewrite <- Hlp0 in *. split; eauto. }
  destruct Hend as [Hend|[Hend|[_ Hend] ] ].
  - exact (stage_deca_ledger k a _ lp0 lp r tx k' Hl Hf Hok Hr Hdu Hend).
  - exact (stage_asset_ledger k a _ lp0 lp as_ tx k' Hl Hf Hok Has Hau Hend).
  - exact (commit_ledger env k a _ lp0 lp supply _ _ k' Hl Hf Hns Hsup Hok Hdu Hau Hend).
Qed.

(** ** Withdrawals *)

(** The part of a depth a claim of [c] units out of [U] stands for. *)
Definition pro_rata (c U depth : Z) : Z := share (Z.min c U) U depth.

Lemma pro_rata_bounds c U depth : 0 <= c -> 0 < U -> 0 <= depth -> 0 <= pro_rata c U depth <= depth.
Proof using.
  intros Hc HU Hd. unfold pro_rata. split; [apply share_nonneg; lia|apply share_le; lia].
Qed.

(** Swapping the unwanted half against what is left of the pool pays at most
    the constant product. *)
Lemma asymmetric_output_inv (env : LiquidityEnv (KVStore B)) k poolAsset w R A r a addr out :
  is_uint R -> is_uint A -> 0 < R -> 0 < A -> 0 <= r <= R -> 0 <= a <= A ->
  asymmetric_output env k poolAsset w R A r a addr = Ok out ->
  (IsDeca w = true -> r <= out <= R /\ (R - r) * (A - a) <= (R - out) * A) /\
  (IsDeca w = false -> a <= out <= A /\ (R - r) * (A - a) <= R * (A - out)) /\ is_uint out.
Proof using SdkMathOk0.
  intros HR HA HR0 HA0 Hr Ha Ho. unfold asymmetric_output in Ho.
  assert (Hru : is_uint r) by (unfold is_uint in *; lia).
  assert (Hau : is_uint a) by (unfold is_uint in *; lia).
  apply bind_Ok_inv in Ho as (ra & H1 & Ho). apply SafeSub_inv in H1 as [-> H1]; [|done..].
  apply bind_Ok_inv in Ho as (rr & H2 & Ho). apply SafeSub_inv in H2 as [-> H2]; [|done..].
  apply bind_Ok_inv in Ho as ([ [ [ [x X] Y] yAdd] isPOL] & Hside & Ho).
  apply bind_Ok_inv in Ho as (slip & _ & Ho). apply bind_Ok_inv in Ho as ([ [y fee] s] & Hc & Ho).
  apply bind_Ok_inv in Ho as (o & Hout & Ho).
  assert (Hsides : (IsDeca w = true /\ x = a /\ X = A - a /\ Y = R - r /\ yAdd = r) \/
    (IsDeca w = false /\ x = r /\ X = R - r /\ Y = A - a /\ yAdd = a /\ isPOL = false)).
  { destruct (IsDeca w); [left|right].
    - apply bind_Ok_inv in Hside as (pa & _ & Hside). injection Hside as <- <- <- <- _.
      repeat split; try done; lia.
    - injection Hside as <- <- <- <- <-. repeat split; try done; lia. }
  assert (Hu : is_uint X /\ is_uint x /\ is_uint Y /\ is_uint yAdd /\ 0 < x + X)
    by (unfold is_uint in *; destruct Hsides as [(?&?&?&?&?)|(?&?&?&?&?&?)]; subst; lia).
  destruct Hu as (HXu & Hxu & HYu & Hyu & Hsum).
  apply GetSwapCalc_inv in Hc as (Heu & Hfu & _ & Hg & _); try done; [|apply getMinSlipBps_uint].
  pose proof (gross_bounds X x Y ltac:(apply HXu) ltac:(apply Hxu) Hsum ltac:(apply HYu)) as (_ & _ & Hk).
  apply uint_add_inv in Hout as [-> Hou]; [|done|done].
  assert (Hfin : out <= y + fee + yAdd /\ y + yAdd <= out /\ is_uint out).
  { destruct isPOL.
    - apply uint_add_inv in Ho as [-> Ho]; [|done|done]. unfold is_uint in *. lia.
    - injection Ho as <-. unfold is_uint in *. lia. }
  destruct Hfin as (Hf1 & Hf2 & Hf3). set (g := gross X x Y) in *. clearbody g.
  split; [|split; [|done] ]; intros Hw; destruct Hsides as [(?&?&?&?&?)|(?&?&?&?&?&?)]; try congruence;
    subst; unfold is_uint in *; split; nia.
Qed.

(** What [calculateWithdraw] pays, for a claim of [c] units. *)
Lemma calculateWithdraw_inv (env : LiquidityEnv (KVStore B)) k poolAsset U R A lpUnits bps w addr wr wa after :
  is_uint U -> is_uint R -> is_uint A -> is_uint lpUnits -> is_uint bps ->
  calculateWithdraw env k poolAsset U R A lpUnits bps w addr = Ok (wr, wa, after) ->
  let c := share (Z.min bps 10000) 10000 lpUnits in
  0 < U /\ 0 < R /\ 0 < A /\ after = lpUnits - c /\ 0 <= c <= lpUnits /\
  is_uint wr /\ is_uint wa /\ wr <= R /\ wa <= A /\
  (R - pro_rata c U R) * (A - pro_rata c U A) <= (R - wr) * (A - wa) /\
  (Asset_IsEmpty w = true -> wr = pro_rata c U R /\ wa = pro_rata c U A).
Proof using SdkMathOk0.
  intros HU HR HA HL Hb Hc c. unfold calculateWithdraw in Hc.
  do 5 (case_if_in Hc; [done|]). z_bool.
  assert (HM : is_uint 10000) by (unfold is_uint, uint_lim; lia).
  assert (HU0 : 0 < U) by (unfold is_uint in *; lia). assert (HR0 : 0 < R) by (unfold is_uint in *; lia).
  assert (HA0 : 0 < A) by (unfold is_uint in *; lia).
  apply bind_Ok_inv in Hc as (c' & Hcl & Hc). apply GetSafeShare_inv in Hcl as [-> Hcu]; [|done..].
  fold c in Hc, Hcu.
  assert (Hcb : 0 <= c <= lpUnits).
  { unfold c. unfold is_uint in Hb, HL. split; [apply share_nonneg; lia|apply share_le; lia]. }
  apply bind_Ok_inv in Hc as (af & Haf & Hc). apply SafeSub_inv in Haf as [-> Haf]; [|done..].
  apply bind_Ok_inv in Hc as (r & Hr & Hc). apply GetSafeShare_inv in Hr as [-> Hru]; [|done..].
  apply bind_Ok_inv in Hc as (a & Ha & Hc). apply GetSafeShare_inv in Ha as [-> Hau]; [|done..].
  change (share (Z.min c U) U R) with (pro_rata c U R) in *.
  change (share (Z.min c U) U A) with (pro_rata c U A) in *.
  pose proof (pro_rata_bounds c U R ltac:(lia) HU0 ltac:(lia)) as Hrb.
  pose proof (pro_rata_bounds c U A ltac:(lia) HU0 ltac:(lia)) as Hab.
  set (r := pro_rata c U R) in *. set (a := pro_rata c U A) in *. clearbody r a.
  do 3 (split; [done|]). destruct (Asset_IsEmpty w).
  - injection Hc as <- <- <-. repeat split; try done; try lia; try apply Hru; try apply Hau.
  - apply bind_Ok_inv in Hc as (out & Ho & Hc).
    apply asymmetric_output_inv in Ho as (H1 & H2 & Hou); [|done..].
    destruct (IsDeca w); injection Hc as <- <- <-.
    + destruct (H1 eq_refl). repeat split; try done; try lia; try apply Hou.
    + destruct (H2 eq_refl). repeat split; try done; try lia; try apply Hou.
Qed.

Lemma listed_units_le k a lp : ledger_ok k a -> listed k a lp ->
  Units lp <= LPUnits (GetPool k a) /\ PendingDeca lp <= PendingInboundDeca (GetPool k a) /\
  PendingAsset lp <= PendingInboundAsset (GetPool k a).
Proof using.
  intros Hl Hlist. pose proof (lg_lps _ _ Hl) as Hall.
  rewrite (lg_units _ _ Hl), (lg_deca _ _ Hl), (lg_asset _ _ Hl). unfold lp_total.
  assert (Hnn : map_Forall (fun _ x => 0 <= Units x) (lps_of k a) /\
    map_Forall (fun _ x => 0 <= PendingDeca x) (lps_of k a) /\
    map_Forall (fun _ x => 0 <= PendingAsset x) (lps_of k a)).
  { repeat split; eapply map_Forall_impl; try exact Hall; by intros ? ? [_ _ _ [? _] [? _] [? _] ]. }
  destruct Hnn as (H1 & H2 & H3). destruct Hlist as [Hin|(_ & -> & -> & ->)].
  - repeat split; by eapply map_sum_lookup_le.
  - repeat split; by apply map_sum_nonneg.
Qed.

(** Pending funds are returned in full, and their record disappears. *)
Lemma withdraw_pending_inv k a s lp k' r as_ u gas : ledger_ok k a -> PoolExist k a = true ->
  (exists key, provider_keyed a key lp) -> listed k a lp -> Units lp = 0 ->
  let pool := with_synth_units (GetPool k a) s in pool_ok pool ->
  withdraw_pending k pool lp = Ok (k', r, as_, u, gas) ->
  ledger_ok k' a /\ r = PendingDeca lp /\ 0 <= as_ <= PendingAsset lp /\ u = 0 /\
  GetPool k' a = with_pending_inbound pool (PendingInboundDeca pool - PendingDeca lp)
    (PendingInboundAsset pool - PendingAsset lp).
Proof using SdkMathOk0.
  intros Hl Hex [key Hk] Hlist HU pool Hok Hw. unfold withdraw_pending in Hw. case_if_in Hw; [|done].
  pose proof (lg_inbound _ _ Hl) as [HiD HiA]. pose proof Hk as [_ Hka _ HkU HkD HkA].
  pose proof (lg_exists _ _ Hl Hex) as Hne. pose proof (lg_key _ _ Hl Hne) as Hname.
  destruct (listed_units_le k a lp Hl Hlist) as (_ & Hle1 & Hle2).
  apply bind_Ok_inv in Hw as (d & Hd & Hw). apply SafeSub_inv in Hd as [-> Hd]; [|done..].
  apply bind_Ok_inv in Hw as (as' & Ha & Hw). apply SafeSub_inv in Ha as [-> Ha]; [|done..].
  apply bind_Ok_inv in Hw as (k1 & Hs & Hw). apply bind_Ok_inv in Hw as (m & Hm & Hw).
  injection Hw as <- <- <- <- <-. apply RoundToDecimal_le in Hm as [Hm1 Hm2]; [|done].
  set (p1 := with_pending_inbound _ _ _) in Hs.
  assert (Hs' : SetPool (RemoveLiquidityProvider k lp) p1 = Ok k1).
  { destruct (SetPool (RemoveLiquidityProvider k lp) p1) eqn:Esp; [done| |done].
    unfold SetPool in Esp. case_if_in Esp; [|done].
    change (Asset_IsEmpty (plAsset p1)) with (Pool_IsEmpty (GetPool k a)) in E0. congruence. }
  apply SetPool_inv in Hs' as (_ & Hlps & _ & _ & _ & Hg & _).
  assert (Hp1 : p1 = with_pending_inbound pool (PendingInboundDeca pool - PendingDeca lp)
    (PendingInboundAsset pool - PendingAsset lp)) by (unfold p1, pool; simpl; f_equal; lia).
  assert (Hgp : GetPool k1 a = p1) by (apply Hg; exact (eq_sym Hname)).
  split; [|rewrite Hgp; repeat split; done || lia].
  eapply (ledger_update k k1 a lp None); [done|done| | |rewrite ?Hgp, ?Hp1..]; simpl; try done; try lia.
  - unfold lps_of at 1. rewrite Hlps. apply (lps_of_remove k).
  - unfold is_uint in *. lia.
  - unfold is_uint in *. lia.
Qed.

Lemma missing_deposit_values_inv pool lp lp' : missing_deposit_values pool lp = Ok lp' ->
  exists x y, lp' = lp_with_deposit lp x y.
Proof using.
  intros Hd. unfold missing_deposit_values in Hd. case_if_in Hd; ok_inv; [by eexists _, _|].
  exists (DecaDepositValue lp'), (AssetDepositValue lp'). by destruct lp'.
Qed.

Lemma withdraw_provider_inv k lp bps after lp' : withdraw_provider k lp bps after = Ok lp' ->
  exists x y, lp' = lp_with_units (lp_with_deposit (lp_with_withdraw_height lp (kHeight k)) x y) after.
Proof using. intros Hd. unfold withdraw_provider in Hd. ok_inv. by eexists _, _. Qed.

(** The claim of a message: its basis points of the provider's units. *)
Definition claimed_units (lp : LiquidityProvider) (bps : Z) : Z := share (Z.min bps 10000) 10000 (Units lp).

Lemma withdraw_amounts_inv (env : LiquidityEnv (KVStore B)) k msg pool lp U wr wa after :
  pool_ok pool -> IsSyntheticAsset (plAsset pool) = false -> is_uint U -> is_uint (Units lp) ->
  is_uint (wlBasisPoints msg) ->
  withdraw_amounts env k msg pool lp U = Ok (wr, wa, after) ->
  let c := claimed_units lp (wlBasisPoints msg) in
  let R := BalanceDeca pool in let A := BalanceAsset pool in
  0 < U /\ after = Units lp - c /\ 0 <= c <= Units lp /\ is_uint wr /\ wr <= R /\ 0 <= wa <= A /\
  (R - pro_rata c U R) * (A - pro_rata c U A) <= (R - wr) * (A - wa).
Proof using SdkMathOk0.
  intros (HR & HA & _ & _) Hns HU HL Hb Hw c R A. unfold withdraw_amounts in Hw. rewrite Hns in Hw.
  apply bind_Ok_inv in Hw as ([ [r a] af] & Hc & Hw). simpl in Hw. case_if_in Hw; [done|].
  apply bind_Ok_inv in Hw as (a' & Hr & Hw). injection Hw as <- <- <-.
  match type of Hc with match ?m with _ => _ end = _ => destruct m eqn:Ecw; try done end.
  injection Hc as ->.
  apply calculateWithdraw_inv in Ecw as (? & ? & ? & ? & ? & Hwr & Hwa & ? & ? & Hprod & _); try done.
  apply RoundToDecimal_le in Hr as [Hr1 Hr2]; [|done].
  subst c R A. unfold claimed_units.
  split; [done|]. split; [done|]. split; [done|]. split; [done|]. split; [done|]. split; [lia|].
  etrans; [exact Hprod|]. apply Z.mul_le_mono_nonneg_l; lia.
Qed.

(** What the outside components return are numbers of the SDK. *)
Class LiquidityEnvOk (env : LiquidityEnv (KVStore B)) : Prop := {
  max_gas_uint c k coin : leMaxGas env c k = Ok coin -> is_uint (cAmount coin)
}.

Lemma keep_gas_inv (env : LiquidityEnv (KVStore B)) `{!LiquidityEnvOk env} k pool U lpU after wa b wa' gas :
  is_uint wa -> keep_gas env k pool U lpU after wa b = Ok (wa', gas) ->
  wa' = wa - gas /\ 0 <= gas <= wa.
Proof using SdkMathOk0.
  intros Hwa Hg. unfold keep_gas in Hg.
  apply bind_Ok_inv in Hg as (x & _ & Hg). apply bind_Ok_inv in Hg as (y & _ & Hg).
  assert (Hzero : Ok (wa, 0) = Ok (wa', gas) -> wa' = wa - gas /\ 0 <= gas <= wa)
    by (intros [= <- <-]; unfold is_uint in Hwa; lia).
  case_if_in Hg; [|by apply Hzero].
  destruct (leMaxGas env (GetChain (plAsset pool)) k) as [coin| |] eqn:Em; try done.
  apply max_gas_uint in Em. case_if_in Hg; [|by apply Hzero].
  set (g := if wa <? cAmount coin then wa else cAmount coin) in Hg.
  assert (Hgu : is_uint g /\ g <= wa) by (unfold g; case_if; z_bool; unfold is_uint in *; lia).
  apply bind_Ok_inv in Hg as (w & Hs & Hg). apply SafeSub_inv in Hs as [-> _]; [|done|by apply Hgu].
  injection Hg as <- <-. unfold is_uint in *. lia.
Qed.

Lemma withdraw_pool_inv pool lpU after wr wa pool' : pool_ok pool -> is_uint lpU -> is_uint after ->
  is_uint wr -> is_uint wa -> lpU <= LPUnits pool -> after <= lpU -> wr <= BalanceDeca pool ->
  wa <= BalanceAsset pool -> withdraw_pool pool lpU after wr wa = Ok pool' ->
  pool_ok pool' /\ plAsset pool' = plAsset pool /\ LPUnits pool' = LPUnits pool - (lpU - after) /\
  BalanceDeca pool' = BalanceDeca pool - wr /\ BalanceAsset pool' = BalanceAsset pool - wa /\
  PendingInboundDeca pool' = PendingInboundDeca pool /\
  PendingInboundAsset pool' = PendingInboundAsset pool.
Proof using SdkMathOk0.
  intros (HD & HA & HL & HS) HU Haf Hwr Hwa Hle1 Hle2 Hle3 Hle4 Hw. unfold withdraw_pool in Hw.
  apply bind_Ok_inv in Hw as (c & Hc & Hw). apply SafeSub_inv in Hc as [-> Hc]; [|done..].
  apply bind_Ok_inv in Hw as (u & Hu & Hw). apply SafeSub_inv in Hu as [-> Hu]; [|done..].
  apply bind_Ok_inv in Hw as (d & Hd & Hw). apply SafeSub_inv in Hd as [-> Hd]; [|done..].
  apply bind_Ok_inv in Hw as (x & Hx & Hw). apply SafeSub_inv in Hx as [-> Hx]; [|done..].
  injection Hw as <-. case_if; (split; [repeat split; simpl; try apply HS; unfold is_uint in *; lia|]);
    simpl; repeat split; try done; unfold is_uint in *; lia.
Qed.

Lemma store_provider_inv k pool lp k1 k2 a key : SetPool k pool = Ok k1 ->
  Asset_String (plAsset pool) = Asset_String a -> provider_keyed a key lp ->
  store_provider k1 lp = Ok k2 ->
  GetPool k2 a = pool /\ exists o, lps_of k2 a = replace_lp (key_of lp) o (lps_of k a) /\
    (forall lp', o = Some lp' -> lp' = lp) /\
    Units lp = from_option Units 0 o /\ PendingDeca lp = from_option PendingDeca 0 o /\
    PendingAsset lp = from_option PendingAsset 0 o.
Proof using SdkMathOk0.
  intros Hs Hname [Hkey Hka _ HU HD HA] Hst.
  apply SetPool_inv in Hs as (_ & Hlps & _ & _ & _ & Hg & _). specialize (Hg a (eq_sym Hname)).
  assert (Hset : GetPool (SetLiquidityProvider k1 lp) a = pool /\
    lps_of (SetLiquidityProvider k1 lp) a = replace_lp (key_of lp) (Some lp) (lps_of k a)).
  { split; [exact Hg|]. rewrite lps_of_set by done. unfold lps_of. by rewrite Hlps. }
  unfold store_provider in Hst. case_if_in Hst.
  { injection Hst as <-. split; [apply Hset|]. exists (Some lp). split; [apply Hset|].
    by split; [intros ? [= <-]|]. }
  apply bind_Ok_inv in Hst as (x & Hx & Hst). apply uint_add_inv in Hx as [-> Hx]; [|done..].
  apply bind_Ok_inv in Hst as (y & Hy & Hst). apply uint_add_inv in Hy as [-> Hy]; [|done..].
  injection Hst as <-. destruct (Z.eqb_spec (Units lp + PendingAsset lp + PendingDeca lp) 0) as [Hz|Hz]; simpl.
  - split; [exact Hg|]. exists None. split; [rewrite lps_of_remove; unfold lps_of; by rewrite Hlps|].
    split; [done|]. simpl. unfold is_uint in *. lia.
  - split; [apply Hset|]. exists (Some lp). split; [apply Hset|]. by split; [intros ? [= <-]|].
Qed.

(** A withdrawal of units: the pool pays the amounts, never clamped, and the
    books are kept. *)
Lemma withdraw_units_inv (env : LiquidityEnv (KVStore B)) `{!LiquidityEnvOk env} k a s lp msg b
    k' wr wa u gas :
  ledger_ok k a -> PoolExist k a = true -> (exists key, provider_keyed a key lp) -> listed k a lp ->
  is_uint (wlBasisPoints msg) ->
  let p := GetPool k a in let pool := with_synth_units p s in
  pool_ok pool -> withdraw_units env k msg pool lp b = Ok (k', wr, wa, u, gas) ->
  let p' := GetPool k' a in let U := LPUnits p + s in
  let R := BalanceDeca p in let A := BalanceAsset p in
  ledger_ok k' a /\ u = claimed_units lp (wlBasisPoints msg) /\ 0 < u <= Units lp /\
  BalanceDeca p' = R - wr /\ BalanceAsset p' = A - wa /\ LPUnits p' = LPUnits p - u /\
  0 <= wr <= R /\ 0 <= wa <= A /\ 0 < U /\
  (R - pro_rata u U R) * (A - pro_rata u U A) <= (R - wr) * (A - wa).
Proof using SdkMathOk0.
  intros Hl Hex [key Hk] Hlist Hb p pool Hok Hw p' U R A. pose proof Hok as (HR & HA & HL & HS).
  pose proof (lg_exists _ _ Hl Hex) as Hne. pose proof (lg_key _ _ Hl Hne) as Hname.
  destruct (listed_units_le k a lp Hl Hlist) as (Hle & _). unfold withdraw_units in Hw.
  case_if_in Hw; [done|]. apply bind_Ok_inv in Hw as (U' & HU & Hw). unfold GetPoolUnits in HU.
  apply uint_add_inv in HU as [-> HU]; [|done..]. simpl in HU.
  apply bind_Ok_inv in Hw as (lp1 & H1 & Hw). apply missing_deposit_values_inv in H1 as (x & y & ->).
  apply bind_Ok_inv in Hw as ([ [r am] af] & H2 & Hw).
  pose proof Hk as [_ Hka _ HkU HkD HkA].
  apply withdraw_amounts_inv in H2 as (HU0 & -> & Hcb & Hru & Hrle & Ham & Hprod); try done.
  2:{ exact (lg_plain _ _ Hl). }
  change (claimed_units (lp_with_deposit lp x y)) with (claimed_units lp) in *. simpl in Hcb.
  change (BalanceDeca pool) with R in *. change (BalanceAsset pool) with A in *.
  set (c := claimed_units lp (wlBasisPoints msg)) in *.
  apply bind_Ok_inv in Hw as ([a' g] & H3 & Hw).
  assert (Hamu : is_uint am) by (unfold is_uint in *; lia).
  apply keep_gas_inv in H3 as [-> Hg]; [|done|done]. simpl in Hw.
  assert (Hafu : is_uint (Units lp - c)) by (unfold is_uint in *; lia).
  assert (Hau : is_uint (am - g)) by (unfold is_uint in *; lia).
  apply bind_Ok_inv in Hw as (pool1 & H4 & Hw).
  apply withdraw_pool_inv in H4 as (Hok1 & Has1 & HL1 & HD1 & HA1 & HI1 & HI2); simpl; try done; try lia.
  apply bind_Ok_inv in Hw as (lp2 & H5 & Hw). apply withdraw_provider_inv in H5 as (x2 & y2 & ->).
  case_if_in Hw; [by apply bind_Ok_inv in Hw as (? & _ & (? & _ & ?)%bind_Ok_inv)|]. z_bool.
  apply bind_Ok_inv in Hw as (k1 & Hset & Hw). apply bind_Ok_inv in Hw as (k2 & Hst & Hw). apply bind_Ok_inv in Hw as (cl & Hcl & Hw).
  apply SafeSub_inv in Hcl as [-> _]; [|done..]. injection Hw as <- <- <- <- <-.
  eapply store_provider_inv in Hst as (Hgp & o & Hlps & Ho & HoU & HoD & HoA);
    [|exact Hset|rewrite Has1; exact Hname|].
  2:{ eapply (same_place_keyed a key lp); [exact Hk|by destruct Hk as [_ _ Hk3 _ _ _]|done..]. }
  subst p'. rewrite Hgp. simpl in HoU, HoD, HoA.
  rewrite HD1, HA1, HL1. replace (Z.max 0 (Units lp - (Units lp - c))) with c by (unfold is_uint in *; lia).
  split; [|repeat split; try done; simpl in *; subst p R A U; unfold is_uint in *; try lia].
  - eapply (ledger_update k k2 a lp o); [done|done|exact Hlps| |rewrite ?Hgp..]; try done.
    + intros lp' Hlp'. rewrite (Ho lp' Hlp').
      eapply (same_place_keyed a key lp); [exact Hk|by destruct Hk as [_ _ Hk3 _ _ _]|done..].
    + rewrite HI1. apply (lg_inbound _ _ Hl).
    + rewrite HI2. apply (lg_inbound _ _ Hl).
    + rewrite HL1, <- HoU. unfold pool, p. simpl. lia.
    + rewrite HI1, <- HoD. unfold pool, p. simpl. lia.
    + rewrite HI2, <- HoA. unfold pool, p. simpl. lia.
Qed.

(** ** Donations *)
Lemma donate_ledger k a msg k' : ledger_ok k a -> doAsset msg = a ->
  is_uint (doAssetAmount msg) -> is_uint (doRuneAmount msg) ->
  donate_handle k msg = Ok k' -> ledger_ok k' a.
Proof using SdkMathOk0.
  intros Hl <- Ha Hr Hd. unfold donate_handle in Hd.
  destruct (Pool_IsEmpty (GetPool k (doAsset msg))) eqn:Hne; [done|]. case_if_in Hd; [done|]. case_if_in Hd; [done|].
  destruct (lg_pool _ _ Hl) as (HR & HA & HL & HS).
  apply bind_Ok_inv in Hd as (x & Hx & Hd). apply uint_add_inv in Hx as [-> Hx]; [|done..].
  apply bind_Ok_inv in Hd as (y & Hy & Hd). apply uint_add_inv in Hy as [-> Hy]; [|done..].
  apply SetPool_inv in Hd as (_ & Hlps & _ & _ & _ & Hg & _).
  specialize (Hg (doAsset msg) (eq_sym (lg_key _ _ Hl Hne))).
  set (p := with_balances _ _ _) in *.
  destruct Hl as [He Hk Hsy Hp Hi Hu Hde Has Hlp].
  assert (Hm : lps_of k' (doAsset msg) = lps_of k (doAsset msg)) by (unfold lps_of; by rewrite Hlps).
  split; rewrite ?Hg; unfold lp_total; rewrite ?Hm; try done.
Qed.

(** ** A withdrawal, in whole *)
Lemma withdraw_inv (env : LiquidityEnv (KVStore B)) k msg res :
  ledger_ok k (wlAsset msg) -> withdraw env k msg = Ok res ->
  let a := wlAsset msg in let p := GetPool k a in
  let lp := GetLiquidityProvider k (is_thor env) a (wlWithdrawAddress msg) in
  exists supply b, GetTotalSupply k (GetSyntheticAsset (plAsset p)) = Ok supply /\
    let pool := with_synth_units p (synth_units p supply) in
    pool_ok pool /\ PoolExist k a = true /\ (exists key, provider_keyed a key lp) /\
    listed k a lp /\
    (if Units lp =? 0 then withdraw_pending k pool lp
     else withdraw_units env k msg pool lp b) = Ok res.
Proof using SdkMathOk0.
  intros Hl Hw a p lp. unfold withdraw in Hw.
  apply bind_Ok_inv in Hw as ([] & Hv & Hw).
  assert (Hv' : Address_IsEmpty (wlWithdrawAddress msg) = false /\ PoolExist k a = true).
  { unfold validateWithdraw in Hv. do 4 (case_if_in Hv; [done|]). case_if_in Hv; [done|].
    split; [done|]. subst a. by destruct (PoolExist k (wlAsset msg)). }
  destruct Hv' as [Hne Hex].
  apply bind_Ok_inv in Hw as (supply & Hs & Hw). pose proof (GetTotalSupply_uint _ _ _ Hs) as Hsu.
  apply bind_Ok_inv in Hw as ([U pool] & Hcu & Hw).
  apply (CalcUnits_inv _ _ _ _ (lg_pool _ _ Hl) Hsu) in Hcu as (-> & HU & _ & Hok & _).
  exists supply. eexists. split; [exact Hs|]. split; [exact Hok|]. split; [exact Hex|].
  split; [|split; [by apply listed_of_get|exact Hw] ].
  eexists. by apply GetLiquidityProvider_inv.
Qed.

Lemma withdraw_ledger (env : LiquidityEnv (KVStore B)) `{!LiquidityEnvOk env} k msg k' wr wa u gas :
  ledger_ok k (wlAsset msg) -> is_uint (wlBasisPoints msg) ->
  withdraw env k msg = Ok (k', wr, wa, u, gas) -> ledger_ok k' (wlAsset msg).
Proof using SdkMathOk0.
  intros Hl Hb Hw.
  destruct (withdraw_inv env k msg _ Hl Hw) as (supply & b & _ & Hok & Hex & Hk & Hlist & Hend).
  destruct (Z.eqb_spec (Units (GetLiquidityProvider k (is_thor env) (wlAsset msg) (wlWithdrawAddress msg))) 0).
  - by apply withdraw_pending_inv in Hend as [? _].
  - by apply withdraw_units_inv in Hend as [? _].
Qed.
End ledger.

(** ** Properties *)

(** One operation on the liquidity of the pool of [a]. *)
Inductive liquidity_step {B} `{Bank B} {S : SdkMath} (env : LiquidityEnv (KVStore B))
    (a : Asset) : KVStore B -> KVStore B -> Prop :=
| step_add k r x deca asset tx stage k' : is_uint r -> is_uint x ->
    addLiquidity env k a r x deca asset tx stage = Ok k' -> liquidity_step env a k k'
| step_withdraw k msg res : wlAsset msg = a -> is_uint (wlBasisPoints msg) ->
    withdraw env k msg = Ok res -> liquidity_step env a k (fst (fst (fst (fst res))))
| step_donate k msg k' : doAsset msg = a -> is_uint (doAssetAmount msg) ->
    is_uint (doRuneAmount msg) -> donate_handle k msg = Ok k' -> liquidity_step env a k k'.

(** C2. The books of the pool of a layer-1 asset, balanced at first, stay so
    through any sequence of additions (single or double sided, staged or
    complete), withdrawals and donations: the units of the pool, and the DECA
    and asset it holds as pending, are the sums over its providers' records,
    each under its own key; so no provider ever owns, or has pending, more than
    the pool accounts for.  A savers pool, whose asset is a synth, is excluded:
    an addition there may overwrite the record of another provider
    ([handler_add_liquidity.go], 519).  The amounts in the messages and the
    gas the network manager reports are unsigned 256-bit integers. *)
Theorem pool_books_balance {B} `{Bank B} `{!BankOk B} {S : SdkMath} `{!SdkMathOk S}
    (env : LiquidityEnv (KVStore B)) `{!LiquidityEnvOk env} a k k' :
  IsSyntheticAsset a = false -> ledger_ok k a -> rtc (liquidity_step env a) k k' ->
  ledger_ok k' a /\
  map_Forall (fun _ lp => Units lp <= LPUnits (GetPool k' a) /\
    PendingDeca lp <= PendingInboundDeca (GetPool k' a) /\
    PendingAsset lp <= PendingInboundAsset (GetPool k' a)) (lps_of k' a).
Proof.
  intros Hns Hl Hr. assert (Hl' : ledger_ok k' a).
  { induction Hr as [|k k1 k' Hstep _ IH]; [done|]. apply IH.
    destruct Hstep as [k r x deca asset tx stage k1 Hu Hx Hadd
      |k msg [ [ [ [k1 wr] wa] u] gas] <- Hb Hw|k msg k1 Ha Hx Hu Hd].
    - exact (addLiquidity_ledger env k a r x deca asset tx stage k1 Hl Hns Hu Hx Hadd).
    - exact (withdraw_ledger env k msg k1 wr wa u gas Hl Hb Hw).
    - exact (donate_ledger k a msg k1 Hl Ha Hx Hu Hd). }
  split; [done|]. intros key lp Hlp. apply listed_units_le; [done|]. left.
  pose proof (lg_lps _ _ Hl' _ _ Hlp) as [Hkey _ _ _ _ _]. unfold key_of. by rewrite <- Hkey.
Qed.

(** C7. A withdrawal from the pool of a layer-1 asset (not a savers pool) whose
    books balance pays no more than the provider's share. Of a provider with
    units, the claimed part of the units (at least one, at most what it has) is
    burnt, the depths drop by exactly the two amounts (never clamped), and the
    product of the depths left is at least that after a pro rata withdrawal of
    the claim from the pool, synth units counted, so that a one sided withdrawal
    gains nothing. Of a provider with pending funds only, no more than they are
    is paid, and the depths stay. *)
Theorem withdraw_within_share {B} `{Bank B} `{!BankOk B} {S : SdkMath} `{!SdkMathOk S}
    (env : LiquidityEnv (KVStore B)) `{!LiquidityEnvOk env} k msg k' wr wa u gas :
  let a := wlAsset msg in let p := GetPool k a in let p' := GetPool k' a in
  let lp := GetLiquidityProvider k (is_thor env) a (wlWithdrawAddress msg) in
  let R := BalanceDeca p in let A := BalanceAsset p in
  ledger_ok k a -> is_uint (wlBasisPoints msg) ->
  withdraw env k msg = Ok (k', wr, wa, u, gas) ->
  BalanceDeca p' = R - (if Units lp =? 0 then 0 else wr) /\
  BalanceAsset p' = A - (if Units lp =? 0 then 0 else wa) /\
  LPUnits p' = LPUnits p - u /\ u = claimed_units lp (wlBasisPoints msg) /\
  if Units lp =? 0 then wr = PendingDeca lp /\ 0 <= wa <= PendingAsset lp /\
    PendingInboundDeca p' = PendingInboundDeca p - PendingDeca lp /\
    PendingInboundAsset p' = PendingInboundAsset p - PendingAsset lp
  else exists supply, GetTotalSupply k (GetSyntheticAsset (plAsset p)) = Ok supply /\
    let U := LPUnits p + synth_units p supply in
    0 < u <= Units lp /\ 0 <= wr <= R /\ 0 <= wa <= A /\ 0 < U /\
    (R - pro_rata u U R) * (A - pro_rata u U A) <= (R - wr) * (A - wa).
Proof.
  intros a p p' lp R A Hl Hb Hw.
  destruct (withdraw_inv env k msg _ Hl Hw) as (supply & b & Hs & Hok & Hex & Hk & Hlist & Hend).
  fold a p lp in Hs, Hok, Hex, Hk, Hlist, Hend. destruct (Z.eqb_spec (Units lp) 0) as [HU|HU].
  - apply withdraw_pending_inv in Hend as (_ & -> & Hwa & -> & Hp); try done.
    unfold p'. fold a. rewrite Hp. unfold claimed_units. rewrite HU. simpl.
    fold p R A. rewrite !Z.sub_0_r, share_0_r by lia. done.
  - apply withdraw_units_inv in Hend
      as (_ & Hu & Hub & HD & HA & HL & Hr & Hx & HU0 & Hprod); try done.
    fold a p p' lp R A in Hu, Hub, HD, HA, HL, Hr, Hx, HU0, Hprod.
    do 4 (split; [done|]). exists supply. repeat split; try done; lia.
Qed.

(** C17. Units are sold at a fair price: on amounts below [2^84] the formula
    overflows nowhere, the total grows by what is given out, and the geometric
    mean of the depths per unit does not drop (to within one part in [10^18] of a
    unit), so that an addition never dilutes the other providers. *)
Theorem add_units_fair {S : SdkMath} `{!SdkMathOk S} P R A r a :
  0 < P < 2 ^ 84 -> 0 < R < 2 ^ 84 -> 0 < A < 2 ^ 84 -> 0 <= r < 2 ^ 84 -> 0 <= a < 2 ^ 84 ->
  exists s, calculatePoolUnits P R A r a = Ok (P + s, s) /\ 0 <= s /\
    R * A * (((P + s) * dec_one - 1) * ((P + s) * dec_one - 1)) <=
      (R + r) * (A + a) * (P * dec_one * (P * dec_one)).
Proof.
  intros HP HR HA Hr Ha. destruct (calculatePoolUnits_total P R A r a) as (p & s & Hc); try done.
  assert (HL : 2 ^ 84 < uint_lim) by (unfold uint_lim; lia).
  pose proof Hc as Hc'.
  apply calculatePoolUnits_inv in Hc' as (Hs & _ & -> & Hnear); [|unfold is_uint; lia..].
  exists s. split; [done|]. destruct Hs as [Hs _]. split; [done|].
  apply units_near_fair; try lia. apply Hnear; lia.
Qed.

(** ** The properties at concrete inputs *)

#[export] Instance demo_liquidity_env_ok : LiquidityEnvOk demo_liquidity_env.
Proof. split. intros c k coin [= <-]. split; vm_compute; congruence. Qed.

Definition demo_empty_pool : Pool := mkPool 0 0 BTCAsset 0 PoolStatus_Available 0 8 0 0 0.
Definition demo_lp_store_0 : KVStore SimpleBank :=
  ok_or demo_queue_0
    (SetPool (SetMimir (empty_store (mkSimpleBank ∅ {["btc/btc" := 600]}) 7) "LiquidityLockUpBlocks" 0)
       demo_empty_pool).
Definition demo_add (k : KVStore SimpleBank) (deca asset : Z) (who : Address) : outcome (KVStore SimpleBank) :=
  addLiquidity (S := sdk_std) demo_liquidity_env k BTCAsset deca asset who ("bc1" ++ who) "TX" true.
Definition demo_donation : MsgDonate :=
  mkMsgDonate BTCAsset 0 5000
    (mkTx "TX" THORChain "a" "b" [NewCoin DecaAsset 5000] [] "donate") "s".
Definition demo_withdrawal (who : Address) (bps : Z) : MsgWithdrawLiquidity :=
  mkMsgWithdrawLiquidity (mkTx "TX" THORChain who "b" [] [] "withdraw") who bps BTCAsset EmptyAsset "s".
Definition demo_withdraw_res (k : KVStore SimpleBank) (who : Address) (bps : Z) :=
  withdraw (S := sdk_std) demo_liquidity_env k (demo_withdrawal who bps).

(** Alice adds both sides, Bob one half and then the other, a donation, Carol a
    half only, and Alice takes a quarter of hers out. *)
Definition demo_lp_store_1 := ok_or demo_lp_store_0 (demo_add demo_lp_store_0 1000000 20000 "alice").
Definition demo_lp_store_2 := ok_or demo_lp_store_0 (demo_add demo_lp_store_1 0 500 "bob").
Definition demo_lp_store_3 := ok_or demo_lp_store_0 (demo_add demo_lp_store_2 30000 0 "bob").
Definition demo_lp_store_4 := ok_or demo_lp_store_0 (donate_handle (S := sdk_std) demo_lp_store_3 demo_donation).
Definition demo_lp_store_5 := ok_or demo_lp_store_0 (demo_add demo_lp_store_4 7000 0 "carol").
Definition demo_lp_store_6 :=
  fst (fst (fst (fst (ok_or (demo_lp_store_0, 0, 0, 0, 0)
    (demo_withdraw_res demo_lp_store_5 "alice" 2500))))).

Lemma demo_lp_books_0 : ledger_ok demo_lp_store_0 BTCAsset.
Proof.
  assert (Hg : GetPool demo_lp_store_0 BTCAsset = demo_empty_pool) by (vm_compute; reflexivity).
  assert (Hm : lps_of demo_lp_store_0 BTCAsset = ∅) by (vm_compute; reflexivity).
  split; rewrite ?Hg; unfold lp_total; rewrite ?Hm; try done; repeat split; try apply is_uint_0.
Qed.

Lemma demo_lp_steps : rtc (liquidity_step (S := sdk_std) demo_liquidity_env BTCAsset)
  demo_lp_store_0 demo_lp_store_6.
Proof.
  eapply rtc_l; [apply (step_add _ _ _ 1000000 20000 "alice" "bc1alice" "TX" true demo_lp_store_1)|].
  { split; vm_compute; congruence. } { split; vm_compute; congruence. } { vm_compute. reflexivity. }
  eapply rtc_l; [apply (step_add _ _ _ 0 500 "bob" "bc1bob" "TX" true demo_lp_store_2)|].
  { split; vm_compute; congruence. } { split; vm_compute; congruence. } { vm_compute. reflexivity. }
  eapply rtc_l; [apply (step_add _ _ _ 30000 0 "bob" "bc1bob" "TX" true demo_lp_store_3)|].
  { split; vm_compute; congruence. } { split; vm_compute; congruence. } { vm_compute. reflexivity. }
  eapply rtc_l; [apply (step_donate _ _ _ demo_donation demo_lp_store_4)|].
  { done. } { split; vm_compute; congruence. } { split; vm_compute; congruence. } { vm_compute. reflexivity. }
  eapply rtc_l; [apply (step_add _ _ _ 7000 0 "carol" "bc1carol" "TX" true demo_lp_store_5)|].
  { split; vm_compute; congruence. } { split; vm_compute; congruence. } { vm_compute. reflexivity. }
  apply rtc_once. unfold demo_lp_store_6.
  apply (step_withdraw _ _ _ (demo_withdrawal "alice" 2500)).
  { done. } { split; vm_compute; congruence. } { vm_compute. reflexivity. }
Qed.

Lemma pool_books_balance_witness :
  ledger_ok demo_lp_store_0 BTCAsset /\
  LPUnits (GetPool demo_lp_store_6 BTCAsset) = 777912 /\
  map Units (GetLiquidityProviderIterator demo_lp_store_6 BTCAsset) = [750000; 27912; 0] /\
  PendingInboundDeca (GetPool demo_lp_store_6 BTCAsset) = 7000 /\
  ledger_ok demo_lp_store_6 BTCAsset.
Proof.
  split; [exact demo_lp_books_0|]. split; [vm_compute; reflexivity|]. split; [vm_compute; reflexivity|].
  split; [vm_compute; reflexivity|].
  apply (pool_books_balance (S := sdk_std) demo_liquidity_env BTCAsset demo_lp_store_0 demo_lp_store_6
    eq_refl demo_lp_books_0 demo_lp_steps).
Defined.

Lemma withdraw_within_share_witness : exists k',
  demo_withdraw_res demo_lp_store_1 "alice" 2500 = Ok (k', 246250, 4925, 250000, 0) /\
  BalanceDeca (GetPool k' BTCAsset) = 1000000 - 246250.
Proof.
  exists (fst (fst (fst (fst (ok_or (demo_lp_store_0, 0, 0, 0, 0)
    (demo_withdraw_res demo_lp_store_1 "alice" 2500)))))).
  split; [vm_compute; reflexivity|].
  match goal with |- BalanceDeca (GetPool ?k _) = _ => set (k' := k) end.
  refine (proj1 (withdraw_within_share (S := sdk_std) demo_liquidity_env demo_lp_store_1
    (demo_withdrawal "alice" 2500) k' 246250 4925 250000 0 _ _ _)).
  - refine (addLiquidity_ledger (S := sdk_std) demo_liquidity_env demo_lp_store_0 BTCAsset 1000000 20000
      "alice" "bc1alice" "TX" true demo_lp_store_1 demo_lp_books_0 eq_refl _ _ _);
      [split; vm_compute; congruence..|vm_compute; reflexivity].
  - split; vm_compute; congruence.
  - vm_compute. reflexivity.
Defined.

Lemma add_units_fair_witness :
  calculatePoolUnits (S := sdk_std) 1000000 1000000 20000 30000 500 = Ok (1027493, 27493) /\
  1000000 * 20000 * ((1027493 * dec_one - 1) * (1027493 * dec_one - 1)) <=
    1030000 * 20500 * (1000000 * dec_one * (1000000 * dec_one)).
Proof.
  assert (E : calculatePoolUnits (S := sdk_std) 1000000 1000000 20000 30000 500 = Ok (1027493, 27493))
    by (vm_compute; reflexivity).
  split; [exact E|].
  destruct (add_units_fair (S := sdk_std) 1000000 1000000 20000 30000 500) as (s & Hs & _ & Hf); try lia.
  assert (Hq : 27493 = s) by congruence. rewrite <- Hq in Hf. exact Hf.
Defined.
