(* ===== verification/Helpers.v ===== *)
(** The helpers of [x/thorchain/helpers.go] on the security of the network and
    on the capacity of the pools: effective bonds, the cap on the value locked,
    room for synths, gas of observed outbounds, dangling actions. *)
From S2P Require Import Prelude SdkMath GoStr Keys Shares Chains Assets Coins Bank Nodes Txs.
From S2P Require Import Decimal Voters Mimir Observed Pools Streaming Vaults Keeper LimitIndex VaultStore NodeStore SwapCalc Swaps Settle SwapQueue Liquidity.
Local Open Scope string_scope.
Local Open Scope Z_scope.

(** ** Bonds *)
Definition bond_less (a b : NodeAccount) : bool := naBond a <? naBond b.

(** The last index of the lower two thirds of [n] nodes. *)
Definition two_thirds_index (n : Z) : Z :=
  let t := Z.quot (n * 2) 3 in if Z.rem n 3 =? 0 then t - 1 else t.

Section bonds.
Context {S : SdkMath} {K : SdkKeys}.

(** [amt.Add] of the bonds up to index [t]. *)
Fixpoint sum_bonds_to (t i amt : Z) (nas : NodeAccounts) : outcome Z :=
  match nas with
  | [] => Ok amt
  | na :: nas' =>
      amt ← (if i <=? t then uint_add amt (naBond na) else Ok amt);
      sum_bonds_to t (i + 1) amt nas'
  end.

(** The slice handed in is sorted in place: its new content is returned too. *)
Definition getEffectiveSecurityBond (nas : NodeAccounts) : outcome (Z * NodeAccounts) :=
  let nas := stable_sort bond_less nas in
  amt ← sum_bonds_to (two_thirds_index (len nas)) 0 0 nas;
  Ok (amt, nas).

Definition getHardBondCap (nas : NodeAccounts) : outcome (Z * NodeAccounts) :=
  match nas with
  | [] => Ok (0, nas)
  | _ =>
      let nas := stable_sort bond_less nas in
      match nas !! Z.to_nat (two_thirds_index (len nas)) with
      | Some na => Ok (naBond na, nas)
      | None => Panic
      end
  end.

Fixpoint sum_capped (cap total : Z) (nas : NodeAccounts) : outcome Z :=
  match nas with
  | [] => Ok total
  | na :: nas' =>
      total ← uint_add total (if cap <? naBond na then cap else naBond na);
      sum_capped cap total nas'
  end.

(** The total of the bonds, each cut at the cap, the cap, and the slice. *)
Definition getTotalEffectiveBond (nas : NodeAccounts) : outcome (Z * Z * NodeAccounts) :=
  '(bondHardCap, nas) ← getHardBondCap nas;
  totalEffectiveBond ← sum_capped bondHardCap 0 nas;
  Ok (totalEffectiveBond, bondHardCap, nas).

Definition getNonSigners (nas : list NodeAccount) (signers : list AccAddress) : list AccAddress :=
  map NodeAddress (List.filter (fun na =>
    negb (existsb (fun signer => acc_equals (NodeAddress na) signer) signers)) nas).
End bonds.

(** ** Strings and transactions *)

(** [strings.Cut(s, "//")]: what follows the first ["//"]. *)
Fixpoint cut_slashes (s : string) : option string :=
  match s with
  | EmptyString => None
  | String c rest =>
      match rest with
      | String d after =>
          if (Ascii.eqb c "/" && Ascii.eqb d "/")%char then Some after else cut_slashes rest
      | EmptyString => None
      end
  end.

Definition trimKeyPrefix (keyString : string) : string :=
  match cut_slashes keyString with Some after => after | None => keyString end.

Definition IsPeriodLastBlock (height blocksPerPeriod : Z) : outcome bool :=
  if blocksPerPeriod =? 0 then Panic else Ok (Z.rem height blocksPerPeriod =? 0).

Definition isTronZeroGasTx (tx : ObservedTx) : bool :=
  if negb (Chain_Equals (txChain (otTx tx)) TRONChain) then false
  else cAmount (Coins_GetCoin (ToCoins (txGas (otTx tx))) TRXAsset) =? 1.

Definition isOutboundFakeGasTx (tx : ObservedTx) : bool :=
  match txCoins (otTx tx) with
  | [coin] =>
      Asset_Equals (cAsset coin) (GetGasAsset (aChain (cAsset coin))) && (cAmount coin =? 1) &&
      String.eqb (txMemo (otTx tx)) ("OUT:" ++ txID (otTx tx))
  | _ => false
  end.

Definition isCancelOrApprovalTx (tx : ObservedTx) : bool :=
  match txCoins (otTx tx) with
  | [coin] =>
      let asset := cAsset coin in
      IsEVM (aChain asset) && Asset_Equals asset (GetGasAsset (aChain asset)) &&
      (cAmount coin =? DustThreshold (aChain asset)) && String.eqb (txMemo (otTx tx)) ""
  | _ => false
  end.

(** One out transaction against one action: [isActionsItemDangling]. *)
Definition settles_action {S : SdkMath} (toi : TxOutItem) (outboundTx : Tx) : outcome bool :=
  let matchCoin := Coins_Contains (txCoins outboundTx) (toCoin toi) in
  let asset := GetGasAsset (toChain toi) in
  matchCoin ←
    (if negb matchCoin && Asset_Equals (cAsset (toCoin toi)) asset then
       intendToSpend ← uint_add (cAmount (toCoin toi))
         (cAmount (Coins_GetCoin (ToCoins (MaxGas toi)) asset));
       actualSpend ← uint_add (cAmount (Coins_GetCoin (txCoins outboundTx) asset))
         (cAmount (Coins_GetCoin (ToCoins (txGas outboundTx)) asset));
       Ok (intendToSpend =? actualSpend)
     else Ok matchCoin);
  Ok (equal_fold (toMemo toi) (txMemo outboundTx) &&
      Address_Equals (toToAddress toi) (txTo outboundTx) &&
      Chain_Equals (toChain toi) (txChain outboundTx) && matchCoin).

Fixpoint no_out_settles {S : SdkMath} (toi : TxOutItem) (outs : list Tx) : outcome bool :=
  match outs with
  | [] => Ok true
  | out :: outs' =>
      b ← settles_action toi out;
      if (b : bool) then Ok false else no_out_settles toi outs'
  end.

Definition isActionsItemDangling {S : SdkMath} (voter : ObservedTxVoter) (i : Z) : outcome bool :=
  if (i <? 0) || (len (Actions voter) - 1 <? i) then Ok false
  else
    match Actions voter !! Z.to_nat i with
    | Some toi => no_out_settles toi (OutTxs voter)
    | None => Panic
    end.

(** [applyMemolessOutboundLogic]; [memoless memo] is whether the type of the
    parsed memo may do without one, or [None] when the memo does not parse. *)
Definition with_memos (toi : TxOutItem) (memo original : string) : TxOutItem :=
  mkTxOutItem (toChain toi) (toToAddress toi) (VaultPubKey toi) (toCoin toi) memo original
    (MaxGas toi) (GasRate toi) (InHash toi) (OutHash toi) (Txs.ModuleName toi) (toAggregator toi)
    (toAggregatorTargetAsset toi) (toAggregatorTargetLimit toi) (CloutSpent toi) (VaultPubKeyEddsa toi).

Definition applyMemolessOutboundLogic (memoless : string -> option bool) (toi : TxOutItem)
    (enableMemolessOutbound : Z) : TxOutItem :=
  let original := if String.eqb (OriginalMemo toi) "" then toMemo toi else OriginalMemo toi in
  if enableMemolessOutbound <=? 0 then
    with_memos toi (if negb (String.eqb original "") then original else toMemo toi) original
  else
    match memoless original with
    | Some b =>
        if negb (String.eqb (toAggregator toi) "") || has_char "|"%char original then
          with_memos toi original original
        else if b then with_memos toi "" original
        else with_memos toi original original
    | None => with_memos toi original original
    end.

Section helpers.
Context {B : Type} `{Bank B} {K : SdkKeys} {S : SdkMath}.
Context (env : LiquidityEnv (KVStore B)).
Abbreviation Store := (KVStore B) (only parsing).

(** ** Liquidity of the pools and vaults *)

(** [getTotalLiquidityRUNE] of the swap and add-liquidity handlers. *)
Fixpoint total_liquidity (total : Z) (pools : list Pool) : outcome Z :=
  match pools with
  | [] => Ok total
  | p :: pools' =>
      if (plStatus p =? PoolStatus_Suspended) || IsSyntheticAsset (plAsset p) ||
         IsDerivedAsset (plAsset p)
      then total_liquidity total pools'
      else total ← uint_add total (BalanceDeca p); total_liquidity total pools'
  end.
Definition getTotalLiquidityRUNE (k : Store) : outcome Z := total_liquidity 0 (GetPools k).

Fixpoint available_pools (acc : list Pool) (total : Z) (pools : list Pool) : outcome (list Pool * Z) :=
  match pools with
  | [] => Ok (acc, total)
  | p :: pools' =>
      if negb (IsAvailable p) || Asset_IsNative (plAsset p) || (BalanceDeca p =? 0)
      then available_pools acc total pools'
      else
        total ← uint_add total (BalanceDeca p);
        available_pools (acc ++ [p])%list total pools'
  end.
Definition getAvailablePoolsRune (k : Store) : outcome (list Pool * Z) :=
  available_pools [] 0 (GetPools k).

(** The cache of pools the code keeps does not change what is read. *)
Fixpoint coins_value (k : Store) (total : Z) (cs : Coins) : outcome Z :=
  match cs with
  | [] => Ok total
  | c :: cs' =>
      v ← (if Coin_IsDeca c then Ok (cAmount c) else AssetValueInRune (GetPool k (cAsset c)) (cAmount c));
      total ← uint_add total v;
      coins_value k total cs'
  end.
Fixpoint vaults_value (k : Store) (total : Z) (vaults : Vaults) : outcome Z :=
  match vaults with
  | [] => Ok total
  | v :: vaults' =>
      total ← (if vStatus v =? VaultStatus_InactiveVault then Ok total
               else coins_value k total (vCoins v));
      vaults_value k total vaults'
  end.
Definition getVaultsLiquidityRune (k : Store) : outcome Z :=
  vaults ← wrap_err "fail to get vaults: " (GetAsgardVaults k);
  vaults_value k 0 vaults.

Definition getLastChurnHeight (k : Store) : outcome Z :=
  match GetAsgardVaultsByStatus k VaultStatus_ActiveVault with
  | Ok vaults =>
      Ok (foldl (fun last v => if last <? vStatusSince v then vStatusSince v else last) 0 vaults)
  | Err _ => Ok 0
  | Panic => Panic
  end.

(** ** The cap on the value locked *)

(** The coins of the vaults that hold funds, added to the ones handed in. *)
Fixpoint locked_coins (cs : Coins) (vaults : Vaults) : outcome Coins :=
  match vaults with
  | [] => Ok cs
  | v :: vaults' =>
      cs ← (if IsAsgard v && (Vault_IsActive v || IsRetiring v) then Coins_Add cs (vCoins v) else Ok cs);
      locked_coins cs vaults'
  end.

Definition locked_value (k : Store) (coin : Coin) : outcome Z :=
  if Coin_IsEmpty coin then Ok 0
  else
    let asset := cAsset coin in
    let asset := if IsSyntheticAsset asset then GetLayer1Asset asset else asset in
    let pool := GetPool k asset in
    if negb (IsAvailable pool) && negb (IsStaged pool) then Ok 0
    else if (BalanceDeca pool =? 0) || (BalanceAsset pool =? 0) then Ok 0
    else if Asset_IsNative (plAsset pool) then Ok 0
    else AssetValueInRune pool (cAmount coin).

Fixpoint locked_total (k : Store) (total : Z) (cs : Coins) : outcome Z :=
  match cs with
  | [] => Ok total
  | c :: cs' => v ← locked_value k c; total ← uint_add total v; locked_total k total cs'
  end.

Fixpoint sum_bonds (total : Z) (nas : NodeAccounts) : outcome Z :=
  match nas with
  | [] => Ok total
  | na :: nas' => total ← uint_add total (naBond na); sum_bonds total nas'
  end.

(** A failure to read the vaults counts as a reached cap. *)
Definition atTVLCap (k : Store) (coins : Coins) : outcome bool :=
  if negb (leStrictBondRatio env) then Ok false
  else
    match GetAsgardVaults k with
    | Ok vaults =>
        coins ← locked_coins coins vaults;
        totalRuneValue ← locked_total k (cAmount (Coins_GetCoin coins DecaAsset)) coins;
        security ← sum_bonds 0 (ListActiveValidators k);
        Ok (security <? totalRuneValue)
    | Err _ => Ok true
    | Panic => Panic
    end.

(** ** Synths *)
Definition getSynthSupplyRemaining (k : Store) (asset : Asset) : outcome Z :=
  let maxSynths := liq_config env k "MaxSynthPerPoolDepth" in
  synthSupply ← GetTotalSupply k (GetSyntheticAsset asset);
  let pool := GetPool k (GetLayer1Asset asset) in
  if BalanceAsset pool =? 0 then
    Err ("pool(" ++ Asset_String (plAsset pool) ++ ") has zero asset balance")
  else
    twice ← uint_mul_u64 (BalanceAsset pool) 2;
    m ← uint_mul (u64 maxSynths) twice;
    maxSynthSupply ← uint_quo_u64 m MaxWithdrawBasisPoints;
    if maxSynthSupply <? synthSupply then
      Err ("synth supply over target (" ++ itoa synthSupply ++ "/" ++ itoa maxSynthSupply ++ ")")
    else uint_sub maxSynthSupply synthSupply.

(** The amounts of the message are formatted as [uint64]. *)
Definition isSynthMintPaused (k : Store) (targetAsset : Asset) (outputAmt : Z) : outcome unit :=
  if 0 <? GetMimir k ("RAGNAROK-" ++ MimirString targetAsset) then Err "pool is in ragnarok"
  else
    let mintHeight := liq_config env k "MintSynths" in
    if (0 <? mintHeight) && (mintHeight <? kHeight k) then Err "minting synthetics has been disabled"
    else
      remaining ← getSynthSupplyRemaining k targetAsset;
      if remaining <? outputAmt then
        want ← uint64_or_panic outputAmt;
        have ← uint64_or_panic remaining;
        Err ("insufficient synth capacity: want=" ++ itoa want ++ " have=" ++ itoa have)
      else Ok tt.

(** ** Protocol-owned liquidity *)
Fixpoint pol_value (k : Store) (polAddress : Address) (total : Z) (pools : list Pool) : outcome Z :=
  match pools with
  | [] => Ok total
  | pool :: pools' =>
      if Asset_IsNative (plAsset pool) || (BalanceDeca pool =? 0) then pol_value k polAddress total pools'
      else
        synthSupply ← GetTotalSupply k (GetSyntheticAsset (plAsset pool));
        '(_, pool) ← CalcUnits pool synthSupply;
        let lp := GetLiquidityProvider k (is_thor env) (plAsset pool) polAddress in
        units ← GetPoolUnits pool;
        share ← GetSafeShare (Units lp) units (BalanceDeca pool);
        twice ← uint_mul_u64 share 2;
        total ← uint_add total twice;
        pol_value k polAddress total pools'
  end.
Definition polPoolValue (k : Store) : outcome Z :=
  polAddress ← leModuleAddress env ReserveName;
  pol_value k polAddress 0 (GetPools k).

(** ** Swaps *)

(** The legacy queue's bound on the sub-swaps of a streaming swap. *)
Definition legacy_getMaxSwapQuantity (k : Store) (sourceAsset targetAsset : Asset)
    (swp : StreamingSwap) : outcome Z :=
  let q := leQueue env in
  let interval := if ssInterval swp =? 0 then 1 else ssInterval swp in
  let stableSwap := isStableToStable k sourceAsset targetAsset in
  minSwapSize ← leg_min_size q k stableSwap sourceAsset 0;
  minSwapSize ← leg_min_size q k stableSwap targetAsset minSwapSize;
  minSwapSize ←
    (if IsDeca sourceAsset then Ok minSwapSize
     else RuneValueInAsset (GetPool k (GetLayer1Asset sourceAsset)) minSwapSize);
  if minSwapSize =? 0 then Ok 1
  else
    maxSwapQuantity ← uint_quo (ssDeposit swp) minSwapSize;
    let maxLength :=
      if Asset_IsNative sourceAsset && Asset_IsNative targetAsset
      then liq_config env k "StreamingSwapMaxLengthNative"
      else liq_config env k "StreamingSwapMaxLength" in
    let maxSwapInMaxLength := u64 maxLength / interval in
    if maxSwapInMaxLength <? maxSwapQuantity then Ok maxSwapInMaxLength
    else if maxSwapQuantity =? 0 then Ok 1
    else
      dbps ← leg_anchor_bps q k sourceAsset 0;
      dbps ← leg_anchor_bps q k targetAsset dbps;
      if dbps =? 0 then uint64_or_panic maxSwapQuantity
      else
        diff ← SafeSub MaxBasisPts dbps;
        if diff =? 0 then uint64_or_panic maxSwapQuantity
        else
          newQuantity ← uint_quo MaxBasisPts diff;
          if newQuantity <? maxSwapQuantity then uint64_or_panic newQuantity
          else uint64_or_panic maxSwapQuantity.

(** The emission of the swap, by the formula without the minimum slip. *)
Definition expected_emission (k : Store) (source : Coin) (targetAsset : Asset) : outcome Z :=
  if negb (Coin_IsDeca source) && negb (IsDeca targetAsset) then
    let sourcePool := GetPool k (GetLayer1Asset (cAsset source)) in
    let targetPool := GetPool k (GetLayer1Asset targetAsset) in
    emit ← CalcAssetEmission (BalanceAsset sourcePool) (cAmount source) (BalanceDeca sourcePool);
    CalcAssetEmission (BalanceDeca targetPool) emit (BalanceAsset targetPool)
  else if Coin_IsDeca source then
    let pool := GetPool k (GetLayer1Asset targetAsset) in
    CalcAssetEmission (BalanceDeca pool) (cAmount source) (BalanceAsset pool)
  else
    let pool := GetPool k (GetLayer1Asset (cAsset source)) in
    CalcAssetEmission (BalanceAsset pool) (cAmount source) (BalanceDeca pool).

Definition willSwapOutputExceedLimitAndFees (k : Store) (msg : MsgSwap) : outcome bool :=
  match txCoins (mTx msg) with
  | [] => Panic
  | source :: _ =>
      emit ← expected_emission k source (TargetAsset msg);
      match qeAssetOutboundFee (leQueue env) (TargetAsset msg) with
      | Some fee => limit ← uint_add (TradeTarget msg) fee; Ok (limit <? emit)
      | None => Ok false
      end
  end.

(** ** Gas of outbounds *)

(** The first action equal to [txOut], changed by [f]. *)
Fixpoint update_action (f : TxOutItem -> TxOutItem) (txOut : TxOutItem) (actions : list TxOutItem) :
    option (list TxOutItem) :=
  match actions with
  | [] => None
  | tx :: actions' =>
      if TxOutItem_Equals tx txOut then Some (f tx :: actions')
      else cons tx <$> update_action f txOut actions'
  end.

Definition with_actions (m : ObservedTxVoter) (l : list TxOutItem) : ObservedTxVoter :=
  mkObservedTxVoter (ovTxID m) (ovTx m) (ovHeight m) (ovTxs m) l (OutTxs m)
    (FinalisedHeight m) (UpdatedVault m) (Reverted m) (OutboundHeight m) (UnfinalizedHeight m).

Definition update_voter (f : TxOutItem -> TxOutItem) (k : Store) (txOut : TxOutItem) : outcome Store :=
  if String.eqb (InHash txOut) BlankTxID then Ok k
  else
    let voter := GetObservedTxInVoter k (InHash txOut) in
    match update_action f txOut (Actions voter) with
    | Some actions => Ok (SetObservedTxInVoter k (with_actions voter actions))
    | None => Err ("fail to find tx out in ObservedTxVoter " ++ InHash txOut)
    end.

Definition with_max_gas (gas : Gas) (t : TxOutItem) : TxOutItem :=
  mkTxOutItem (toChain t) (toToAddress t) (VaultPubKey t) (toCoin t) (toMemo t) (OriginalMemo t)
    gas (GasRate t) (InHash t) (OutHash t) (Txs.ModuleName t) (toAggregator t)
    (toAggregatorTargetAsset t) (toAggregatorTargetLimit t) (CloutSpent t) (VaultPubKeyEddsa t).
Definition with_gas_rate (gasRate : Z) (t : TxOutItem) : TxOutItem :=
  mkTxOutItem (toChain t) (toToAddress t) (VaultPubKey t) (toCoin t) (toMemo t) (OriginalMemo t)
    (MaxGas t) gasRate (InHash t) (OutHash t) (Txs.ModuleName t) (toAggregator t)
    (toAggregatorTargetAsset t) (toAggregatorTargetLimit t) (CloutSpent t) (VaultPubKeyEddsa t).

Definition updateTxOutGas (k : Store) (txOut : TxOutItem) (gas : Gas) : outcome Store :=
  update_voter (with_max_gas gas) k txOut.
Definition updateTxOutGasRate (k : Store) (txOut : TxOutItem) (gasRate : Z) : outcome Store :=
  update_voter (with_gas_rate gasRate) k txOut.

(** The state, and what is handed to the gas manager: the asset of the
    outbound and the gas to reimburse. *)
Definition addGasFees (k : Store) (tx : ObservedTx) : outcome (Store * option (Asset * Gas)) :=
  if Gas_IsEmpty (txGas (otTx tx)) || isTronZeroGasTx tx then Ok (k, None)
  else
    match VaultExists k (ObservedPubKey tx) with
    | Ok true =>
        vault ← GetVault k (ObservedPubKey tx);
        vault ← SubFunds vault (ToCoins (txGas (otTx tx)));
        k ← SetVault k vault;
        if vStatus vault =? VaultStatus_InactiveVault then Ok (k, None)
        else if RagnarokInProgress k &&
                negb (Coin_IsEmpty (Coins_GetCoin (txCoins (otTx tx)) (GetGasAsset (txChain (otTx tx)))))
        then Ok (k, None)
        else
          let outAsset := match txCoins (otTx tx) with c :: _ => cAsset c | [] => EmptyAsset end in
          Ok (k, Some (outAsset, txGas (otTx tx)))
    | Ok false => Ok (k, None)
    | Err e => Err e
    | Panic => Panic
    end.
End helpers.

(** ** Lemmas *)

#[export] Instance bond_less_weak : StrictWeak bond_less.
Proof.
  split; unfold bond_less.
  - intros x. apply Z.ltb_irrefl.
  - intros x y z Hx Hy. z_bool. apply Z.ltb_lt. lia.
  - intros x y z Hx Hy. z_bool. apply Z.ltb_ge. lia.
Qed.

Definition bonds_of (nas : NodeAccounts) : list Z := map naBond nas.

(** The number of nodes in the lower two thirds, rounded up. *)
Definition two_thirds_up (n : nat) : nat := Z.to_nat ((2 * Z.of_nat n + 2) / 3).

Lemma two_thirds_index_up n : (0 < n)%nat ->
  two_thirds_index (Z.of_nat n) = Z.of_nat (two_thirds_up n) - 1 /\ (0 < two_thirds_up n <= n)%nat.
Proof.
  intros Hn. unfold two_thirds_index, two_thirds_up.
  rewrite Z.quot_div_nonneg, Z.rem_mod_nonneg by lia.
  pose proof (Z.div_mod (Z.of_nat n) 3 ltac:(lia)) as Hd.
  pose proof (Z.mod_pos_bound (Z.of_nat n) 3 ltac:(lia)) as Hm.
  set (q := Z.of_nat n / 3) in *. set (r := Z.of_nat n mod 3) in *. clearbody q r.
  assert (Hr : r = 0 \/ r = 1 \/ r = 2) by lia. rewrite Hd.
  assert (Hdiv : forall x y z, 0 <= z < 3 -> x = 3 * y + z -> x / 3 = y).
  { intros x y z Hz ->. rewrite Z.mul_comm, Z.div_add_l by lia. rewrite Z.div_small; lia. }
  destruct Hr as [-> | [-> | -> ] ]; simpl Z.eqb; cbv iota.
  - rewrite (Hdiv _ (2 * q) 0) by lia. rewrite (Hdiv _ (2 * q) 2) by lia. lia.
  - rewrite (Hdiv _ (2 * q) 2) by lia. rewrite (Hdiv _ (2 * q + 1) 1) by lia. lia.
  - rewrite (Hdiv _ (2 * q + 1) 1) by lia. rewrite (Hdiv _ (2 * q + 2) 0) by lia. lia.
Qed.

(** The first [c] bonds of a sorted list are the least any [c] nodes have. *)
Lemma take_S_sum (l : list Z) c : (c < length l)%nat ->
  exists x, l !! c = Some x /\ sumZ (take (Datatypes.S c) l) = sumZ (take c l) + x.
Proof.
  intros Hc. destruct (lookup_lt_is_Some_2 l c Hc) as [x Hx]. exists x. split; [done|].
  rewrite (take_S_r _ _ _ Hx), sumZ_app. simpl. lia.
Qed.

Lemma lowest_sum_least (s l : NodeAccounts) : sorted_by bond_less s -> l ⊆+ s ->
  sumZ (take (length l) (bonds_of s)) <= sumZ (bonds_of l).
Proof.
  revert l. induction s as [|x s IH]; intros l Hs Hl.
  { apply submseteq_nil_r in Hl as ->. simpl. lia. }
  destruct Hs as [Hx Hs]. apply submseteq_cons_r in Hl as [Hl|(l' & Hp & Hl)].
  - specialize (IH l Hs Hl). destruct l as [|y l']; [simpl; lia|].
    simpl length in *. pose proof (submseteq_length _ _ Hl) as Hlen. simpl in Hlen.
    destruct (take_S_sum (bonds_of s) (length l')) as (b & Hb & Hsum).
    { unfold bonds_of. rewrite length_map. lia. }
    rewrite Hsum in IH. unfold bonds_of in *. rewrite list_lookup_fmap in Hb.
    destruct (s !! length l') as [z|] eqn:Ez; [|done]. simpl in Hb. injection Hb as <-.
    apply (Forall_lookup_1 _ _ _ _ Hx) in Ez. unfold bond_less in Ez. z_bool.
    simpl in IH |- *. lia.
  - unfold bonds_of in *. rewrite Hp. specialize (IH l' Hs Hl). simpl. lia.
Qed.

Section helper_lemmas.
Context {S : SdkMath} `{!SdkMathOk S}.

Lemma sum_bonds_to_inv t i amt nas r : 0 <= i -> is_uint amt ->
  Forall (fun na => is_uint (naBond na)) nas -> sum_bonds_to t i amt nas = Ok r ->
  r = amt + sumZ (take (Z.to_nat (t + 1 - i)) (bonds_of nas)).
Proof using SdkMathOk0.
  revert i amt. induction nas as [|na nas IH]; intros i amt Hi Ha Hall Hs; simpl in Hs.
  { simplify_eq. change (bonds_of []) with (@nil Z). rewrite take_nil. simpl. lia. }
  apply Forall_cons_1 in Hall as [Hb Hall]. apply bind_Ok_inv in Hs as (a & Ha' & Hs).
  destruct (Z.leb_spec i t).
  - apply uint_add_inv in Ha' as [-> Hu]; [|done|done]. apply IH in Hs; [|lia|done|done].
    replace (Z.to_nat (t + 1 - i)) with (Datatypes.S (Z.to_nat (t + 1 - (i + 1)))) by lia.
    simpl. lia.
  - injection Ha' as <-. apply IH in Hs; [|lia|done|done].
    replace (Z.to_nat (t + 1 - (i + 1))) with 0%nat in Hs by lia.
    replace (Z.to_nat (t + 1 - i)) with 0%nat by lia. done.
Qed.
End helper_lemmas.

(** When the check of a mint passes, the supply with the minted amount added is
    at most the configured part of twice the asset depth; the room reported is
    exactly what is left. *)
Lemma synth_capacity_exact {B} `{Bank B} {S : SdkMath} `{!SdkMathOk S}
    (env : LiquidityEnv (KVStore B)) k asset out supply :
  pool_ok (GetPool k (GetLayer1Asset asset)) ->
  let cap := u64 (liq_config env k "MaxSynthPerPoolDepth") *
    (BalanceAsset (GetPool k (GetLayer1Asset asset)) * 2) / 10000 in
  GetTotalSupply k (GetSyntheticAsset asset) = Ok supply ->
  (forall r, getSynthSupplyRemaining env k asset = Ok r -> 0 <= r /\ supply + r = cap) /\
  (isSynthMintPaused env k asset out = Ok tt -> supply + out <= cap).
Proof.
  intros (_ & HA & _ & _) cap Hs. pose proof (GetTotalSupply_uint _ _ _ Hs) as Hsu.
  assert (Hr : forall r, getSynthSupplyRemaining env k asset = Ok r -> 0 <= r /\ supply + r = cap).
  { intros r Hr. unfold getSynthSupplyRemaining in Hr. rewrite Hs in Hr. simpl in Hr.
    case_if_in Hr; [done|].
    apply bind_Ok_inv in Hr as (t & Ht & Hr).
    apply uint_mul_u64_inv in Ht as [-> Htu]; [|done|unfold is_u64; lia].
    apply bind_Ok_inv in Hr as (m & Hm & Hr).
    apply uint_mul_inv in Hm as [-> Hmu]; [|apply is_uint_u64, u64_range|done].
    apply bind_Ok_inv in Hr as (c & Hc & Hr).
    apply uint_quo_u64_inv in Hc as (-> & _ & Hcu); [|done|unfold is_u64, MaxWithdrawBasisPoints; lia].
    case_if_in Hr; [done|]. z_bool.
    apply uint_sub_inv in Hr as [-> Hu]; [|done|done].
    unfold cap. change MaxWithdrawBasisPoints with 10000 in *. unfold is_uint in Hu. lia. }
  split; [exact Hr|]. intros Hm. unfold isSynthMintPaused in Hm.
  case_if_in Hm; [done|]. case_if_in Hm; [done|].
  apply bind_Ok_inv in Hm as (r & Hrem & Hm). destruct (Hr r Hrem) as [_ Heq].
  case_if_in Hm; [|z_bool; lia].
  apply bind_Ok_inv in Hm as (w & _ & Hm). by apply bind_Ok_inv in Hm as (h & _ & Hm).
Qed.

(** ** Properties *)

(** C25. The effective security bond is the least the attackers of the network
    must have bonded: it is the total bond of some two thirds of the nodes
    (rounded up), and no other choice of that many nodes bonds less; the slice
    is only rearranged. *)
Theorem effective_bond_minimal {S : SdkMath} `{!SdkMathOk S} nas amt nas' :
  Forall (fun na => is_uint (naBond na)) nas ->
  getEffectiveSecurityBond nas = Ok (amt, nas') ->
  nas' ≡ₚ nas /\
  (exists l, l ⊆+ nas /\ length l = two_thirds_up (length nas) /\ amt = sumZ (bonds_of l)) /\
  (forall l, l ⊆+ nas -> length l = two_thirds_up (length nas) -> amt <= sumZ (bonds_of l)).
Proof.
  intros Hall He. unfold getEffectiveSecurityBond in He.
  apply bind_Ok_inv in He as (a & Ha & [= <- <-]).
  set (s := stable_sort bond_less nas) in *.
  assert (Hp : s ≡ₚ nas) by apply stable_sort_perm.
  assert (Hlen : length s = length nas) by (by rewrite Hp).
  apply sum_bonds_to_inv in Ha; [|done|apply is_uint_0|by rewrite Hp].
  assert (Ha' : a = sumZ (take (two_thirds_up (length nas)) (bonds_of s))).
  { rewrite Ha. unfold len. rewrite Hlen. destruct (length nas) as [|n] eqn:En.
    - assert (s = []) as -> by (by destruct s). change (bonds_of []) with (@nil Z). by rewrite !take_nil.
    - destruct (two_thirds_index_up (Datatypes.S n)) as [Ht _]; [lia|]. rewrite Ht.
      rewrite Z.add_0_l. do 2 f_equal. lia. }
  split; [done|]. split.
  - exists (take (two_thirds_up (length nas)) s). split; [|split].
    + refine (@transitivity _ submseteq _ _ s nas _ _); [|by apply Permutation_submseteq].
      apply sublist_submseteq, sublist_take.
    + rewrite length_take, Hlen. destruct (length nas) as [|n] eqn:En; [done|].
      pose proof (two_thirds_index_up (Datatypes.S n)) as [_ Hb]; lia.
    + unfold bonds_of. by rewrite <- firstn_map.
  - intros l Hl Hll. rewrite Ha', <- Hll. apply lowest_sum_least; [apply stable_sort_sorted, _|].
    refine (@transitivity _ submseteq _ l nas s Hl _). apply Permutation_submseteq. by rewrite Hp.
Qed.

(** ** The properties at concrete inputs *)
Definition demo_validator (addr : string) (bond : Z) : NodeAccount :=
  with_naBond (NewNodeAccount addr NodeStatus_Active EmptyPubKeySet "" bond "" 1) bond.
Definition demo_validators : NodeAccounts :=
  [demo_validator "a" 40; demo_validator "b" 10; demo_validator "c" 30; demo_validator "d" 20].

Lemma effective_bond_minimal_witness : exists nas',
  getEffectiveSecurityBond (S := sdk_std) demo_validators = Ok (60, nas') /\
  60 <= sumZ (bonds_of [demo_validator "a" 40; demo_validator "c" 30; demo_validator "d" 20]).
Proof.
  eexists. split; [vm_compute; reflexivity|].
  refine (proj2 (proj2 (effective_bond_minimal (S := sdk_std) demo_validators 60 _ _ _)) _ _ _).
  - repeat constructor; vm_compute; congruence.
  - vm_compute. reflexivity.
  - unfold demo_validators. apply submseteq_skip, submseteq_cons, submseteq_skip. reflexivity.
  - vm_compute. reflexivity.
Defined.
