(* ===== verification/Governance.v ===== *)
(** The mimir handler, [x/thorchain/handler_mimir.go]: how a validator's vote
    turns into a configuration value, and what it costs. *)
From S2P Require Import Prelude SdkMath GoStr Keys Shares Chains Assets Coins Bank Nodes Txs.
From S2P Require Import Voters Mimir Pools Streaming Keeper NodeStore.
Local Open Scope string_scope.
Local Open Scope Z_scope.

(** ** constants *)
Definition MaxMimirLength : Z := 128.

(** [MimirKeyRegex]: one or more letters, digits or hyphens. *)
Definition mimir_char (c : ascii) : bool :=
  is_upper c || is_lower c || is_digit c || char_in 45 45 c.
Definition mimirValidKey (key : string) : bool :=
  negb (String.eqb key "") && str_all mimir_char key.

(** [strings.HasSuffix] and [strings.Contains]. *)
Definition has_suffix (s suffix : string) : bool :=
  (String.length suffix <=? String.length s)%nat &&
  String.eqb (String.substring (String.length s - String.length suffix)
    (String.length suffix) s) suffix.
Definition str_contains (s sub : string) : bool :=
  match String.index 0 sub s with Some _ => true | None => false end.

(** ** keeper_mimir.go *)
Definition IsOperationalMimir (key : string) : bool :=
  if existsb (equal_fold key)
      ["MintSynths"; "TradeAccountsEnabled"; "DECAPoolEnabled"; "EVMDisableContractWhitelist";
       "MaxOutboundAttempts"; "AdvSwapQueueRapidSwapMax"; "EnableADVSwapQueue";
       "StreamingLimitSwapMaxAge"; "OverSolvencyCheckInterval"; "OverSolvencyToTreasuryBps";
       "ScheduledMigration"; "MaxRetiredVaultRecoveryAttempts"; "P2PGateDisabled"] then true
  else if existsb (equal_fold key) ["NodePauseChainBlocks"; "PauseOnSlashThreshold"] then false
  else
    let key := to_upper key in
    if existsb (str_contains key)
        ["HALT"; "PAUSE"; "STOPSOLVENCYCHECK"; "MIMIRUPGRADECONTRACT"; "EVMALLOWANCECHECK"]
    then true
    else has_suffix key "SLIPMINBPS".

Record MsgMimir := mkMsgMimir {
  mmKey : string;
  mmValue : Z;
  mmSigner : AccAddress
}.

(** What the handler reads from outside the modelled store: the native
    transaction fee ([GetNativeTxFee], a price in the dollar configuration), the
    compiled-in constants, and the address of the Asgard module. *)
Record MimirEnv := mkMimirEnv {
  envNativeTxFee : Z;
  envOperationalVotesMin : Z;
  envSlipMinBpsMax : Z;
  envAsgardAddress : AccAddress
}.

Section governance.
Context {B : Type} `{Bank B} {K : SdkKeys} {S : SdkMath}.
Context (order : gmap Z Z -> list (Z * Z)) (env : MimirEnv).

(** *** msg_mimir.go *)
Definition MsgMimir_ValidateBasic (m : MsgMimir) : goerr :=
  if String.eqb (mmKey m) "" then Some "key cannot be empty"
  else if acc_empty (mmSigner m) then Some (acc_string (mmSigner m))
  else None.

(** *** handler_mimir.go *)
Definition mimir_validate (k : KVStore B) (msg : MsgMimir) : goerr :=
  match MsgMimir_ValidateBasic msg with
  | Some e => Some e
  | None =>
      if negb (mimirValidKey (mmKey msg)) || (MaxMimirLength <? str_len (mmKey msg)) then
        Some "invalid mimir key"
      else if negb (isSignedByActiveNodeAccounts k (envAsgardAddress env) [mmSigner msg]) then
        Some "not authorized"
      else if negb (has_suffix (to_upper (mmKey msg)) "SLIPMINBPS") then None
      else if GetConfigInt64 k "SlipMinBpsMax" (envSlipMinBpsMax env) <? mmValue msg then
        Some "min slip mimir exceeds SlipMinBpsMax"
      else None
  end.

(** The cost of the vote: the native fee, at most the node's bond. *)
Definition charge_vote (k : KVStore B) (signer : AccAddress) : outcome (KVStore B) :=
  let nodeAccount := GetNodeAccount k signer in
  let cost := envNativeTxFee env in
  let cost := if naBond nodeAccount <? cost then naBond nodeAccount else cost in
  bond ← SafeSub (naBond nodeAccount) cost;
  let k := SetNodeAccount k (with_naBond nodeAccount bond) in
  if negb (cost =? 0) then
    SendFromModuleToModule k BondName ReserveName (NewCoin DecaNative cost)
  else Ok k.

(** The value the votes settle on, negative when there is none. *)
Definition effective_value (k : KVStore B) (key : string) : Z :=
  let nodeMimirs := GetNodeMimirs k key in
  let active := GetNodeAddresses (ListActiveValidators k) in
  if IsOperationalMimir key then
    ValueOfOperational order nodeMimirs key
      (GetConfigInt64 k "OperationalVotesMin" (envOperationalVotesMin env)) active
  else
    let '(value, ok) := NodeMimirs_HasSuperMajority order nodeMimirs key active in
    if ok then value else -1.

(** [handle]; events are not part of the state. *)
Definition mimir_handle (k : KVStore B) (msg : MsgMimir) : outcome (KVStore B) :=
  let currentMimirValue := GetMimir k (mmKey msg) in
  k ← charge_vote k (mmSigner msg);
  let k := SetNodeMimir k (mmKey msg) (mmValue msg) (mmSigner msg) in
  if mmValue msg =? currentMimirValue then Ok k
  else
    let effectiveValue := effective_value k (mmKey msg) in
    if effectiveValue <? 0 then Ok k
    else if currentMimirValue =? effectiveValue then Ok k
    else if negb (mmValue msg =? effectiveValue) then Ok k
    else Ok (SetMimir k (mmKey msg) effectiveValue).

Definition mimir_run (k : KVStore B) (msg : MsgMimir) : outcome (KVStore B) :=
  _ ← check (mimir_validate k msg);
  mimir_handle k msg.
End governance.

(** ** Lemmas *)
Section governance_lemmas.
Context {B : Type} `{Bank B} `{!BankOk B} {K : SdkKeys} `{!SdkKeysOk K} {S : SdkMath} `{!SdkMathOk S}.

Lemma GetMimir_del_slash (k : KVStore B) addr key :
  GetMimir (ResetNodeAccountSlashPoints k addr) key = GetMimir k key.
Proof.
  unfold GetMimir, ResetNodeAccountSlashPoints, getInt64, del. simpl.
  rewrite lookup_delete_ne; [done|]. discriminate.
Qed.

Lemma SetNodeAccount_frame (k : KVStore B) na :
  (forall key, GetMimir (SetNodeAccount k na) key = GetMimir k key) /\
  kBank (SetNodeAccount k na) = kBank k /\ kNodeMimirs (SetNodeAccount k na) = kNodeMimirs k.
Proof.
  unfold SetNodeAccount. destruct (NodeAccount_IsEmpty na); [done|].
  destruct (_ && _); [|done]. split; [|done]. intros key.
  etrans; [|apply (GetMimir_del_slash k (NodeAddress na))]. reflexivity.
Qed.

Lemma SetNodeMimir_frame (k : KVStore B) key v acc :
  kInts (SetNodeMimir k key v acc) = kInts k /\ kBank (SetNodeMimir k key v acc) = kBank k /\
  kNodeAccounts (SetNodeMimir k key v acc) = kNodeAccounts k.
Proof. unfold SetNodeMimir. by destruct (if v <? 0 then _ else _). Qed.

(** A vote costs the native fee, at most the bond, from Bond to Reserve. *)
Lemma charge_vote_spec env (k k' : KVStore B) signer :
  is_uint (envNativeTxFee env) -> is_uint (naBond (GetNodeAccount k signer)) ->
  charge_vote env k signer = Ok k' ->
  let cost := Z.min (envNativeTxFee env) (naBond (GetNodeAccount k signer)) in
  (forall key, GetMimir k' key = GetMimir k key) /\ kNodeMimirs k' = kNodeMimirs k /\
  deca_of k' BondName = deca_of k BondName - cost /\
  deca_of k' ReserveName = deca_of k ReserveName + cost /\
  deca_supply k' = deca_supply k.
Proof using BankOk0 SdkMathOk0.
  intros Hf Hb Hc. unfold charge_vote in Hc.
  assert (Hcost : (if naBond (GetNodeAccount k signer) <? envNativeTxFee env
    then naBond (GetNodeAccount k signer) else envNativeTxFee env) =
    Z.min (envNativeTxFee env) (naBond (GetNodeAccount k signer))).
  { destruct (Z.ltb_spec (naBond (GetNodeAccount k signer)) (envNativeTxFee env)); lia. }
  rewrite Hcost in Hc. cbv zeta. set (cost := Z.min _ _) in *. clearbody cost. ok_inv.
  match type of Hc with context [SetNodeAccount k ?na] =>
    destruct (SetNodeAccount_frame k na) as (Hm & Hbk & Hn); set (k1 := SetNodeAccount k na) in *
  end.
  destruct (Z.eqb_spec cost 0) as [->|Hne]; simpl in Hc.
  - simplify_eq. unfold deca_of, deca_supply. rewrite Hbk. repeat split; try done; lia.
  - unfold SendFromModuleToModule in Hc. ok_inv.
    match goal with Hs : bank_send _ _ _ _ _ = Ok _ |- _ =>
      destruct (bank_send_ok _ _ _ _ _ _ Hs) as [Hbal Hsup] end.
    split; [intros key; exact (Hm key)|]. split; [exact Hn|].
    unfold deca_of, deca_supply, NewCoin in *. cbn [cAsset cAmount kBank with_bank] in *.
    rewrite !Hbal, Hsup, Hbk. unfold moved. change (Asset_Native DecaNative) with "deca".
    simpl. repeat split; lia.
Qed.

(** A non-negative effective value is one the active validators decided. *)
Definition decided (env : MimirEnv) (k : KVStore B) (votesMin : Z) (key : string) (v : Z) : Prop :=
  let active := GetNodeAddresses (ListActiveValidators k) in
  let n := votes (GetNodeMimirs k key) key active in
  0 < n v /\
  (if IsOperationalMimir key then (forall w, w <> v -> n w < n v) /\ votesMin <= n v
   else 2 * len active <= 3 * n v).

Lemma effective_value_decided order env (k : KVStore B) key v :
  range_order order -> Forall valid_acc (GetNodeAddresses (ListActiveValidators k)) ->
  len (GetNodeAddresses (ListActiveValidators k)) < 2 ^ 60 ->
  effective_value order env k key = v -> 0 <= v ->
  decided env k (GetConfigInt64 k "OperationalVotesMin" (envOperationalVotesMin env)) key v.
Proof using SdkKeysOk0.
  intros Ho Hact Hlen He Hv. unfold effective_value in He. unfold decided.
  set (active := GetNodeAddresses _) in *. set (ms := GetNodeMimirs k key) in *.
  destruct (IsOperationalMimir key).
  - destruct (operational_value order ms key
      (GetConfigInt64 k "OperationalVotesMin" (envOperationalVotesMin env)) active Ho Hact Hlen)
      as (_ & _ & Hwin).
    destruct (Hwin v He) as [[Hpos Hw] Hmin]; [lia|]. done.
  - destruct (economic_value order ms key active Ho Hact Hlen) as (_ & _ & Hen).
    destruct (NodeMimirs_HasSuperMajority order ms key active) as [w ok] eqn:E.
    destruct ok; [|lia]. subst w. by apply Hen.
Qed.
End governance_lemmas.

(** ** Properties *)

(** C8. A mimir message changes one configuration value at most, and only to a
    value the active validators decided: for an economic key one that two
    thirds of them vote for, for an operational key one with strictly the most
    votes and at least the minimum, counting one vote per validator; the fee
    moves from the Bond module to the Reserve and nothing is created or lost. *)
Theorem mimir_handle_decided {B} `{Bank B} `{!BankOk B} {K : SdkKeys} `{!SdkKeysOk K}
    {S : SdkMath} `{!SdkMathOk S} order env (k k' : KVStore B) msg :
  range_order order -> is_uint (envNativeTxFee env) ->
  is_uint (naBond (GetNodeAccount k (mmSigner msg))) ->
  mimir_handle order env k msg = Ok k' ->
  let key := mmKey msg in let v := mmValue msg in
  let active := GetNodeAddresses (ListActiveValidators k') in
  let n := votes (GetNodeMimirs k' key) key active in
  Forall valid_acc active -> len active < 2 ^ 60 ->
  (forall key', equal_fold key key' = false -> GetMimir k' key' = GetMimir k key') /\
  (GetMimir k' key = GetMimir k key \/
   GetMimir k' key = v /\ 0 <= v /\ 0 < n v /\
   (if IsOperationalMimir key
    then (forall w, w <> v -> n w < n v) /\
      GetConfigInt64 k "OperationalVotesMin" (envOperationalVotesMin env) <= n v
    else 2 * len active <= 3 * n v)) /\
  (exists cost, 0 <= cost <= naBond (GetNodeAccount k (mmSigner msg)) /\
     deca_of k' BondName = deca_of k BondName - cost /\
     deca_of k' ReserveName = deca_of k ReserveName + cost /\ deca_supply k' = deca_supply k).
Proof.
  intros Ho Hf Hb Hh key v active n Hact Hlen. unfold mimir_handle in Hh. ok_inv.
  match goal with Hc : charge_vote _ _ _ = Ok ?k1 |- _ =>
    destruct (charge_vote_spec env k k1 (mmSigner msg) Hf Hb Hc) as (Hm & _ & Hbond & Hres & Hsup);
    clear Hc; rename k1 into kc end.
  set (k1 := SetNodeMimir kc (mmKey msg) (mmValue msg) (mmSigner msg)) in *.
  destruct (SetNodeMimir_frame kc (mmKey msg) (mmValue msg) (mmSigner msg)) as (Hi & Hbk & _).
  fold k1 in Hi, Hbk.
  assert (Hm1 : forall key', GetMimir k1 key' = GetMimir k key').
  { intros key'. rewrite <- Hm. unfold GetMimir, getInt64. by rewrite Hi. }
  assert (Hk' : k' = k1 \/ k' = SetMimir k1 key v /\ effective_value order env k1 key = v /\ 0 <= v).
  { repeat case_if_in Hh; simplify_eq; auto; z_bool. right.
    apply negb_false_iff in E2. z_bool. unfold key, v in *. rewrite E2 in *. auto. }
  assert (Hbank : kBank k' = kBank kc) by (destruct Hk' as [->|[-> _]]; exact Hbk).
  split; [|split].
  - intros key' Hne. destruct Hk' as [->|[-> _]]; [done|].
    rewrite GetMimir_SetMimir, Hne. done.
  - destruct Hk' as [->|(-> & He & Hv)]; [by left|]. right.
    rewrite GetMimir_SetMimir, equal_fold_refl. split; [done|]. split; [done|].
    pose proof (effective_value_decided order env k1 key v Ho Hact Hlen He Hv) as [H1 H2].
    split; [exact H1|]. unfold GetConfigInt64 in *. rewrite Hm1 in H2. exact H2.
  - exists (Z.min (envNativeTxFee env) (naBond (GetNodeAccount k (mmSigner msg)))).
    split; [unfold is_uint in *; lia|]. unfold deca_of, deca_supply in *. rewrite Hbank. done.
Qed.

(** ** The properties at concrete inputs *)

Definition demo_node (addr : AccAddress) : string * NodeAccount :=
  (GetKey prefixNodeAccount addr,
   with_naBond (NewNodeAccount addr NodeStatus_Active EmptyPubKeySet "" 0 "bond" 1) 300).
Definition demo_gov_store : KVStore SimpleBank :=
  with_node_accounts
    (with_node_mimirs
      (empty_store (mkSimpleBank {[("bond", "deca") := 900]} {["deca" := 900]}) 7)
      {[GetKey prefixNodeMimir "HaltTrading" := [mkNodeMimir "HALTTRADING" 1 "n1"]]})
    (list_to_map [demo_node "n1"; demo_node "n2"; demo_node "n3"]).
Definition demo_env : MimirEnv := mkMimirEnv 2 2 100 "asgard".

Lemma mimir_handle_decided_witness : exists k',
  mimir_handle (K := keys_std) (S := sdk_std) range_up demo_env demo_gov_store
    (mkMsgMimir "HaltTrading" 1 "n2") = Ok k' /\
  GetMimir k' "HaltTrading" = 1 /\ deca_of k' ReserveName = 2 /\
  (forall key', equal_fold "HaltTrading" key' = false ->
     GetMimir k' key' = GetMimir demo_gov_store key').
Proof.
  destruct (mimir_handle (K := keys_std) (S := sdk_std) range_up demo_env demo_gov_store
    (mkMsgMimir "HaltTrading" 1 "n2")) as [k'|e|] eqn:E;
    [|exfalso; vm_compute in E; discriminate E..].
  assert (Hv : GetMimir k' "HaltTrading" = 1 /\ deca_of k' ReserveName = 2 /\
    GetNodeAddresses (ListActiveValidators k') = ["n1"; "n2"; "n3"]).
  { vm_compute in E. injection E as <-. vm_compute. auto. }
  destruct Hv as (Hv1 & Hv2 & Hact).
  exists k'. split; [reflexivity|]. split; [exact Hv1|]. split; [exact Hv2|].
  refine (proj1 (mimir_handle_decided (K := keys_std) (S := sdk_std) range_up demo_env
    demo_gov_store k' (mkMsgMimir "HaltTrading" 1 "n2") range_up_ok _ _ E _ _)).
  - split; vm_compute; congruence.
  - split; vm_compute; congruence.
  - rewrite Hact. repeat constructor; simpl; lia.
  - rewrite Hact. vm_compute. reflexivity.
Defined.
