(* ===== verification/Bonds.v ===== *)
(** Bonds: the handlers [handler_bond.go], [handler_unbond.go],
    [handler_rebond.go], [handler_leave.go], [handler_operator_rotate.go] and
    [handler_ban.go] of [x/thorchain/], with [refundBond] and
    [passiveBackfill] of [helpers.go]. *)
From S2P Require Import Prelude SdkMath GoStr Keys Shares Chains Assets Coins Bank Nodes Txs.
From S2P Require Import Voters Mimir Pools Streaming Vaults Keeper VaultStore NodeStore.
Local Open Scope string_scope.
Local Open Scope Z_scope.

(** ** Messages *)
Record MsgBond := mkMsgBond {
  mbTxIn : Tx;
  mbNodeAddress : AccAddress;
  mbBond : Z;
  mbBondAddress : Address;
  mbSigner : AccAddress;
  mbBondProviderAddress : AccAddress;
  mbOperatorFee : Z
}.
Record MsgUnBond := mkMsgUnBond {
  muTxIn : Tx;
  muNodeAddress : AccAddress;
  muBondAddress : Address;
  muAmount : Z;
  muSigner : AccAddress;
  muBondProviderAddress : AccAddress
}.
Record MsgReBond := mkMsgReBond {
  mrTxIn : Tx;
  mrNodeAddress : AccAddress;
  mrNewBondProviderAddress : AccAddress;
  mrAmount : Z;
  mrSigner : AccAddress
}.
Record MsgLeave := mkMsgLeave {
  mlTx : Tx;
  mlNodeAddress : AccAddress;
  mlSigner : AccAddress
}.
Record MsgOperatorRotate := mkMsgOperatorRotate {
  orSigner : AccAddress;
  orOperatorAddress : AccAddress;
  orCoin : Coin
}.
Record MsgBan := mkMsgBan {
  bnNodeAddress : AccAddress;
  bnSigner : AccAddress
}.

(** What the handlers read from outside the store: whether an address is a
    THORChain one ([Address.IsChain]), the address of the Asgard module, and the
    constants compiled in. *)
Record BondEnv := mkBondEnv {
  beThor : Address -> bool;
  beAsgardAddress : AccAddress;
  bePauseBond : Z;
  bePauseUnbond : Z;
  beMaxBondProviders : Z;
  beNodeOperatorFee : Z;
  beBondLockupPeriod : Z;
  beHaltRebond : Z;
  beHaltOperatorRotate : Z;
  beChurnInterval : Z;
  beMinimumBondInDeca : Z;
  beBondSlashBan : Z
}.

Section bonds.
Context {B : Type} `{Bank B} {K : SdkKeys} {S : SdkMath}.
Abbreviation Store := (KVStore B) (only parsing).

(** [account_exists b addr]: the account keeper knows the address. *)
Context (env : BondEnv) (account_exists : B -> AccAddress -> bool).

Definition AccAddress_of (addr : Address) : outcome AccAddress :=
  acc_from_bech32 (Address_String addr).

(** *** ValidateBasic *)
Definition MsgBond_ValidateBasic (m : MsgBond) : goerr :=
  if acc_empty (mbNodeAddress m) then Some "node address cannot be empty"
  else if mbBond m =? 0 then Some "bond cannot be zero"
  else if Address_IsEmpty (mbBondAddress m) then Some "bond address cannot be empty"
  else match Tx_Valid (mbTxIn m) with Some e => Some e | None =>
    match txCoins (mbTxIn m) with
    | [] => Some "must bond with rune"
    | [c] =>
        if negb (Coin_IsDeca c) then Some "cannot bond non-native rune asset"
        else if acc_empty (mbSigner m) then Some "empty signer address"
        else if (mbOperatorFee m <? -1) || (10000 <? mbOperatorFee m)
        then Some "operator fee must be 0-10000"
        else None
    | _ => Some "cannot bond more than one coin"
    end end.

Definition MsgUnBond_ValidateBasic (m : MsgUnBond) : goerr :=
  if acc_empty (muNodeAddress m) then Some "node address cannot be empty"
  else if Address_IsEmpty (muBondAddress m) then Some "bond address cannot be empty"
  else if TxID_IsEmpty (txID (muTxIn m)) then Some "tx id cannot be empty"
  else if Address_IsEmpty (txFrom (muTxIn m)) then Some "tx from address cannot be empty"
  else if acc_empty (muSigner m) then Some "empty signer address"
  else None.

Definition MsgReBond_ValidateBasic (m : MsgReBond) : goerr :=
  if acc_empty (mrNodeAddress m) then Some "node address cannot be empty"
  else if acc_empty (mrNewBondProviderAddress m) then Some "new bond address cannot be empty"
  else if TxID_IsEmpty (txID (mrTxIn m)) then Some "tx id cannot be empty"
  else if Address_IsEmpty (txFrom (mrTxIn m)) then Some "tx from address cannot be empty"
  else if acc_empty (mrSigner m) then Some "empty signer address"
  else None.

Definition MsgLeave_ValidateBasic (m : MsgLeave) : goerr :=
  if Address_IsEmpty (txFrom (mlTx m)) then Some "from address cannot be empty"
  else if TxID_IsEmpty (txID (mlTx m)) then Some "tx id cannot be empty"
  else if acc_empty (mlSigner m) then Some "signer cannot be empty "
  else if acc_empty (mlNodeAddress m) then Some "node address cannot be empty"
  else None.

Definition MsgOperatorRotate_ValidateBasic (m : MsgOperatorRotate) : goerr :=
  if acc_empty (orSigner m) then Some "signer cannot be empty"
  else if acc_empty (orOperatorAddress m) then Some "operator address cannot be empty"
  else if negb (cAmount (orCoin m) =? 0) then Some "coin amount must be zero"
  else None.

Definition MsgBan_ValidateBasic (m : MsgBan) : goerr :=
  if acc_empty (bnSigner m) then Some (acc_string (bnSigner m))
  else if acc_empty (bnNodeAddress m) then Some (acc_string (bnNodeAddress m))
  else None.

(** *** helpers.go *)
Definition with_fee (bp : BondProviders) (fee : Z) : BondProviders :=
  mkBondProviders (bpNodeAddress bp) fee (Providers bp).

Definition passiveBackfill (k : Store) (nodeAccount : NodeAccount) (bp : BondProviders) :
    outcome BondProviders :=
  match Providers bp with
  | [] =>
      nodeOpBondAddr ← wrap_err "fail to parse bond address: "
        (AccAddress_of (naBondAddress nodeAccount));
      let fee := u64 (GetConfigInt64 k "NodeOperatorFee" (beNodeOperatorFee env)) in
      Ok (with_fee (with_providers bp [mkBondProvider nodeOpBondAddr (naBond nodeAccount)]) fee)
  | _ => Ok bp
  end.

(** Paying [amt], at most the provider's bond, back to a provider. *)
Definition pay_back (k : Store) (bp : BondProviders) (nodeAcc : NodeAccount) (acc : AccAddress)
    (amt : Z) : outcome (Store * BondProviders * NodeAccount) :=
  let provider := BondProviders_Get bp acc in
  if negb (BondProvider_IsEmpty provider) && negb (Bond provider =? 0) then
    let amt := if Bond provider <? amt then Bond provider else amt in
    bp ← BondProviders_Unbond bp amt (BondAddress provider);
    k ← wrap_err "fail to send unbonded RUNE to bond address: "
      (SendFromModuleToAccount k BondName (BondAddress provider) (NewCoin DecaAsset amt));
    bond ← SafeSub (naBond nodeAcc) amt;
    Ok (k, bp, with_naBond nodeAcc bond)
  else Ok (k, bp, nodeAcc).

Definition refundBond (k : Store) (acc : AccAddress) (amt : Z) (nodeAcc : NodeAccount) :
    outcome (Store * NodeAccount) :=
  if (Status nodeAcc =? NodeStatus_Active) || (Status nodeAcc =? NodeStatus_Ready)
  then Ok (k, nodeAcc)
  else
    let amt := if (amt =? 0) || (naBond nodeAcc <? amt) then naBond nodeAcc else amt in
    bp ← passiveBackfill k nodeAcc (GetBondProviders k (NodeAddress nodeAcc));
    bp ← Adjust bp (naBond nodeAcc);
    '(k, bp, nodeAcc) ← pay_back k bp nodeAcc acc amt;
    let nodeAcc := if RequestedToLeave nodeAcc
      then UpdateStatus nodeAcc NodeStatus_Disabled (kHeight k) else nodeAcc in
    Ok (SetBondProviders (SetNodeAccount k nodeAcc) bp, nodeAcc).

(** The wait of [BondLockupPeriod] blocks since the last change of status. *)
Definition bond_locked (k : Store) (na : NodeAccount) : bool :=
  let m := GetMimir k "BondLockupPeriod" in
  let bondLockPeriod := if m <? 0 then beBondLockupPeriod env else m in
  i64 (kHeight k - StatusSince na) <? bondLockPeriod.

Definition in_retiring_vault (k : Store) (na : NodeAccount) : outcome bool :=
  vaults ← wrap_err "fail to get retiring vault: "
    (GetAsgardVaultsByStatus k VaultStatus_RetiringVault);
  Ok (existsb (fun v => PubKeys_Contains (Vault_GetMembership v)
    (Secp256k1 (naPubKeySet na))) vaults).

Definition getLastChurnHeight (k : Store) : outcome Z :=
  match GetAsgardVaultsByStatus k VaultStatus_ActiveVault with
  | Ok vaults =>
      Ok (foldl (fun last vault => if last <? vStatusSince vault then vStatusSince vault else last)
            0 vaults)
  | Err _ => Ok 0
  | Panic => Panic
  end.

(** *** handler_bond.go *)
Definition bond_validate (k : Store) (msg : MsgBond) : outcome unit :=
  _ ← check (MsgBond_ValidateBasic msg);
  let nodeAccount := GetNodeAccount k (mbNodeAddress msg) in
  if Status nodeAccount =? NodeStatus_Ready then
    Err "cannot add bond while node is ready status"
  else if 0 <? GetConfigInt64 k "PauseBond" (bePauseBond env) then Err "bonding has been paused"
  else
    bond ← uint_add (mbBond msg) (naBond nodeAccount);
    let maxBond := GetMimir k "MaximumBondInRune" in
    if (0 <? maxBond) && (u64 maxBond <? bond) then Err "too much bond"
    else if negb (beThor env (mbBondAddress msg)) then
      Err ("bonding address is NOT a THORChain address: " ++ mbBondAddress msg)
    else if negb (acc_empty (mbBondProviderAddress msg)) &&
            negb (beThor env (acc_string (mbBondProviderAddress msg))) then
      Err ("bond provider address is NOT a THORChain address: " ++
           acc_string (mbBondProviderAddress msg))
    else
      let bp := GetBondProviders k (mbNodeAddress msg) in
      let operator := Address_Equals (mbBondAddress msg) (naBondAddress nodeAccount) in
      if (-1 <? mbOperatorFee msg) && negb (Address_IsEmpty (naBondAddress nodeAccount)) &&
         negb operator then Err "only node operator can set fee"
      else if operator then Ok tt
      else if Address_IsEmpty (naBondAddress nodeAccount) then Ok tt
      else
        from ← wrap_err "fail to parse bond address: " (AccAddress_of (mbBondAddress msg));
        if negb (BondProviders_Has bp from) then Err "bond address is not valid for node account"
        else Ok tt.

(** The first time a node bonds, one DECA of the bond creates its account. *)
Definition create_account (k : Store) (node : AccAddress) (bond msgBond : Z) :
    outcome (Store * Z * Z) :=
  if negb (account_exists (kBank k) node) && (One <=? bond) then
    k ← wrap_err "fail to send one RUNE to node address: "
      (SendFromModuleToAccount k BondName node (NewCoin DecaNative One));
    bond ← SafeSub bond One;
    msgBond ← SafeSub msgBond One;
    Ok (k, bond, msgBond)
  else Ok (k, bond, msgBond).

(** The operator may name a further provider. *)
Definition add_provider (k : Store) (msg : MsgBond) (nodeAccount : NodeAccount)
    (bp : BondProviders) : outcome BondProviders :=
  if Address_Equals (mbBondAddress msg) (naBondAddress nodeAccount) &&
     negb (acc_empty (mbBondProviderAddress msg)) then
    let m := GetMimir k "MaxBondProviders" in
    let max := if m <? 0 then beMaxBondProviders env else m in
    if max <=? len (Providers bp) then
      Err "additional bond providers are not allowed, maximum reached"
    else if negb (BondProviders_Has bp (mbBondProviderAddress msg)) then
      Ok (with_providers bp
        (Providers bp ++ [NewBondProvider (mbBondProviderAddress msg)])%list)
    else Ok bp
  else Ok bp.

Definition bond_handle (k : Store) (msg : MsgBond) : outcome Store :=
  let nodeAccount := GetNodeAccount k (mbNodeAddress msg) in
  let nodeAccount := if Status nodeAccount =? NodeStatus_Unknown
    then NewNodeAccount (mbNodeAddress msg) NodeStatus_Whitelisted EmptyPubKeySet "" 0
           (mbBondAddress msg) (kHeight k)
    else nodeAccount in
  bp ← passiveBackfill k nodeAccount (GetBondProviders k (NodeAddress nodeAccount));
  bp ← Adjust bp (naBond nodeAccount);
  bond ← uint_add (naBond nodeAccount) (mbBond msg);
  '(k, bond, msgBond) ← create_account k (mbNodeAddress msg) bond (mbBond msg);
  let nodeAccount := with_naBond nodeAccount bond in
  bp ← add_provider k msg nodeAccount bp;
  from ← wrap_err "fail to parse bond address: " (AccAddress_of (mbBondAddress msg));
  bp ← (if BondProviders_Has bp from then BondProviders_Bond bp msgBond from else Ok bp);
  let bp := if (-1 <? mbOperatorFee msg) && (mbOperatorFee msg <=? 10000)
    then with_fee bp (u64 (mbOperatorFee msg)) else bp in
  Ok (SetBondProviders (SetNodeAccount k nodeAccount) bp).

Definition bond_run (k : Store) (msg : MsgBond) : outcome Store :=
  _ ← bond_validate k msg; bond_handle k msg.

(** *** handler_unbond.go *)
Definition unbond_validate (k : Store) (msg : MsgUnBond) : outcome unit :=
  _ ← check (MsgUnBond_ValidateBasic msg);
  if negb (Coins_IsEmpty (txCoins (muTxIn msg))) then
    Err "unbond message cannot have a non-zero coin amount"
  else
    let na := GetNodeAccount k (muNodeAddress msg) in
    if (Status na =? NodeStatus_Active) || (Status na =? NodeStatus_Ready) then
      Err "cannot unbond while node is in active or ready status"
    else if 0 <? GetConfigInt64 k "PauseUnbond" (bePauseUnbond env) then
      Err "unbonding has been paused"
    else
      let bp := GetBondProviders k (muNodeAddress msg) in
      from ← wrap_err "fail to parse bond address: " (AccAddress_of (muBondAddress msg));
      if negb (BondProviders_Has bp from) &&
         negb (Address_Equals (naBondAddress na) (muBondAddress msg)) then
        Err (muBondAddress msg ++ " are not authorized to manage " ++
             acc_string (muNodeAddress msg))
      else Ok tt.

(** The operator refunds a provider; a provider left without bond is removed. *)
Definition unbond_provider (k : Store) (msg : MsgUnBond) (na : NodeAccount) :
    outcome (Store * NodeAccount) :=
  '(k, na) ← wrap_err "fail to unbond: "
    (refundBond k (muBondProviderAddress msg) (muAmount msg) na);
  bondAddr ← wrap_err "fail to refund bond: " (AccAddress_of (naBondAddress na));
  if acc_equals bondAddr (muBondProviderAddress msg) then Ok (k, na)
  else
    let bp := GetBondProviders k (NodeAddress na) in
    let provider := BondProviders_Get bp (muBondProviderAddress msg) in
    if negb (BondProvider_IsEmpty provider) && (Bond provider =? 0) then
      let '(ok, bp) := BondProviders_Remove bp (muBondProviderAddress msg) in
      Ok (if (ok : bool) then SetBondProviders k bp else k, na)
    else Ok (k, na).

Definition unbond_handle (k : Store) (msg : MsgUnBond) : outcome Store :=
  let na := GetNodeAccount k (muNodeAddress msg) in
  if bond_locked k na then Err "node can not unbond before the end of the lockup"
  else
    retiring ← in_retiring_vault k na;
    if (retiring : bool) then Err "fail to unbond, still part of the retiring vault"
    else
      from ← wrap_err "fail to parse from address: " (AccAddress_of (muBondAddress msg));
      '(k, na) ← (if Address_Equals (muBondAddress msg) (naBondAddress na) &&
                      negb (acc_empty (muBondProviderAddress msg))
                   then unbond_provider k msg na
                   else wrap_err "fail to unbond: " (refundBond k from (muAmount msg) na));
      let coin := Coins_GetCoin (txCoins (muTxIn msg)) DecaAsset in
      if negb (Coin_IsEmpty coin) then
        bond ← uint_add (naBond na) (cAmount coin);
        Ok (SetNodeAccount k (with_naBond na bond))
      else Ok k.

Definition unbond_run (k : Store) (msg : MsgUnBond) : outcome Store :=
  _ ← unbond_validate k msg; unbond_handle k msg.

(** *** handler_rebond.go *)
Definition rebond_validate (k : Store) (msg : MsgReBond) : outcome unit :=
  _ ← check (MsgReBond_ValidateBasic msg);
  if negb (Coins_IsEmpty (txCoins (mrTxIn msg))) then
    Err "rebond message cannot have a non-zero coin amount"
  else
    let nodeAccount := GetNodeAccount k (mrNodeAddress msg) in
    if Status nodeAccount =? NodeStatus_Unknown then Err "node account status is unknown"
    else
      nodeAccountAddress ← wrap_err "fail to get node account address: "
        (AccAddress_of (naBondAddress nodeAccount));
      if acc_equals nodeAccountAddress (mrSigner msg) then
        Err "node account is not allowed to rebond"
      else
        let bondProviders := GetBondProviders k (mrNodeAddress msg) in
        if negb (BondProviders_Has bondProviders (mrSigner msg)) then
          Err (acc_string (mrSigner msg) ++ " is not bonded with " ++
               acc_string (mrNodeAddress msg))
        else if negb (BondProviders_Has bondProviders (mrNewBondProviderAddress msg)) then
          Err "new bond address is not whitelisted for node account"
        else Ok tt.

(** Moving the bond of one provider to another one; a provider left with
    nothing is removed. *)
Definition move_bond (bp : BondProviders) (signer newProvider : AccAddress) (amount : Z) :
    outcome BondProviders :=
  let oldProvider := BondProviders_Get bp signer in
  let newProvider := BondProviders_Get bp newProvider in
  if BondProvider_IsEmpty oldProvider then Err "old bond provider not found"
  else if Bond oldProvider =? 0 then Err "bond is zero"
  else if BondProvider_IsEmpty newProvider then Err "new bond provider not found"
  else
    let amount := if (amount =? 0) || (Bond oldProvider <? amount)
      then Bond oldProvider else amount in
    bp ← BondProviders_Unbond bp amount (BondAddress oldProvider);
    bp ← BondProviders_Bond bp amount (BondAddress newProvider);
    Ok (if amount =? Bond oldProvider
        then snd (BondProviders_Remove bp (BondAddress oldProvider)) else bp).

(** The node bond read at the start is compared with the one of the unchanged
    account at the end, which always holds. *)
Definition rebond_handle (k : Store) (msg : MsgReBond) : outcome Store :=
  if 0 <? GetConfigInt64 k "HaltRebond" (beHaltRebond env) then
    Err "rebond has been disabled by mimir"
  else
    let nodeAccount := GetNodeAccount k (mrNodeAddress msg) in
    bp ← passiveBackfill k nodeAccount (GetBondProviders k (mrNodeAddress msg));
    bp ← Adjust bp (naBond nodeAccount);
    bp ← move_bond bp (mrSigner msg) (mrNewBondProviderAddress msg) (mrAmount msg);
    Ok (SetBondProviders (SetNodeAccount k nodeAccount) bp).

Definition rebond_run (k : Store) (msg : MsgReBond) : outcome Store :=
  _ ← rebond_validate k msg; rebond_handle k msg.

(** *** handler_leave.go *)
Definition leave_validate (k : Store) (msg : MsgLeave) : outcome unit :=
  _ ← check (MsgLeave_ValidateBasic msg);
  if negb (Coins_IsEmpty (txCoins (mlTx msg))) then
    Err "leave message cannot have a non-zero coin amount"
  else Ok tt.

(** Who may make a node leave: its operator, and while it is active a provider
    with the minimum bond. *)
Definition may_leave (k : Store) (msg : MsgLeave) (nodeAcc : NodeAccount) : outcome unit :=
  if Address_Equals (naBondAddress nodeAcc) (txFrom (mlTx msg)) then Ok tt
  else if negb (Status nodeAcc =? NodeStatus_Active) then
    Err (txFrom (mlTx msg) ++ " is not authorized to manage " ++
         acc_string (mlNodeAddress msg) ++ " when it is not Active")
  else
    let minBond := u64 (GetConfigInt64 k "MinimumBondInDeca" (beMinimumBondInDeca env)) in
    allowed ← match Providers (GetBondProviders k (mlNodeAddress msg)) with
              | [] => Ok false
              | providers =>
                  addr ← wrap_err "fail to resolve bond provider AccAddress: "
                    (AccAddress_of (txFrom (mlTx msg)));
                  Ok (existsb (fun p => acc_equals (BondAddress p) addr && (minBond <=? Bond p))
                        providers)
              end;
    if (allowed : bool) then Ok tt
    else Err (txFrom (mlTx msg) ++ " are not authorized to manage " ++
              acc_string (mlNodeAddress msg)).

Definition with_leave (na : NodeAccount) (requested forced : bool) (score : Z) : NodeAccount :=
  mkNodeAccount (NodeAddress na) (Status na) (naPubKeySet na) (ValidatorConsPubKey na)
    (naBond na) (ActiveBlockHeight na) (naBondAddress na) (StatusSince na) (SignerMembership na)
    requested forced score (IPAddress na) (naVersion na) (naType na) (MissingBlocks na)
    (Maintenance na).
Definition with_requested (na : NodeAccount) : NodeAccount :=
  with_leave na true (ForcedToLeave na) (LeaveScore na).

(** Age in blocks with eight decimals over slash points. *)
Definition leave_score (k : Store) (na : NodeAccount) : outcome Z :=
  if LeaveScore na =? 0 then
    let age := u64 (i64 (i64 (kHeight k - StatusSince na) * One)) in
    let slashPts := GetNodeAccountSlashPoints k (NodeAddress na) in
    if slashPts =? 0 then Ok age
    else age ← uint_quo_u64 age (u64 slashPts); uint64_or_panic age
  else Ok (LeaveScore na).

(** A node that is not active gets its bond back, unless it is a member of a
    retiring vault or has a vault of its own. *)
Definition leave_refund (k : Store) (na : NodeAccount) (bondAddr : AccAddress) :
    outcome (Store * NodeAccount) :=
  if bond_locked k na then Err "node can not unbond before the end of the lockup"
  else
    retiring ← in_retiring_vault k na;
    if (retiring : bool) then Ok (k, na)
    else
      exists_ ← VaultExists k (Secp256k1 (naPubKeySet na));
      if (exists_ : bool) then Ok (k, na)
      else
        '(k, na) ← wrap_err "fail to refund bond: " (refundBond k bondAddr 0 na);
        Ok (k, UpdateStatus na NodeStatus_Disabled (kHeight k)).

Definition leave_handle (k : Store) (msg : MsgLeave) : outcome Store :=
  let nodeAcc := GetNodeAccount k (mlNodeAddress msg) in
  if NodeAccount_IsEmpty nodeAcc then Err "node account doesn't exist"
  else
    _ ← may_leave k msg nodeAcc;
    bondAddr ← wrap_err "fail to refund bond: " (AccAddress_of (naBondAddress nodeAcc));
    '(k, nodeAcc) ← (if Status nodeAcc =? NodeStatus_Active then
                       score ← leave_score k nodeAcc;
                       Ok (k, with_leave nodeAcc (RequestedToLeave nodeAcc)
                                (ForcedToLeave nodeAcc) score)
                     else leave_refund k nodeAcc bondAddr);
    Ok (SetNodeAccount k (with_requested nodeAcc)).

Definition leave_run (k : Store) (msg : MsgLeave) : outcome Store :=
  _ ← leave_validate k msg; leave_handle k msg.

(** *** handler_operator_rotate.go *)
Definition with_naBondAddress (na : NodeAccount) (addr : Address) : NodeAccount :=
  mkNodeAccount (NodeAddress na) (Status na) (naPubKeySet na) (ValidatorConsPubKey na)
    (naBond na) (ActiveBlockHeight na) addr (StatusSince na) (SignerMembership na)
    (RequestedToLeave na) (ForcedToLeave na) (LeaveScore na) (IPAddress na) (naVersion na)
    (naType na) (MissingBlocks na) (Maintenance na).

(** The nodes of the signer; no node of either operator may be active. *)
Fixpoint rotate_nodes (signer operator : AccAddress) (nas : NodeAccounts) :
    outcome NodeAccounts :=
  match nas with
  | [] => Ok []
  | na :: rest =>
      if NodeAccount_IsEmpty na then rotate_nodes signer operator rest
      else if (Status na =? NodeStatus_Active) &&
              Address_Equals (naBondAddress na) (acc_string operator) then
        Err ("cannot rotate to operator with active node: " ++ acc_string (NodeAddress na))
      else if negb (Address_Equals (naBondAddress na) (acc_string signer)) then
        rotate_nodes signer operator rest
      else if Status na =? NodeStatus_Active then
        Err ("cannot rotate from operator with active node: " ++ acc_string (NodeAddress na))
      else
        nodes ← rotate_nodes signer operator rest; Ok (na :: nodes)
  end.

Definition rename_provider (current operator : AccAddress) (p : BondProvider) : BondProvider :=
  if acc_equals (BondAddress p) current then mkBondProvider operator (Bond p) else p.

Definition rotate (k : Store) (operator : AccAddress) (nodeAcc : NodeAccount) : outcome Store :=
  currentOperator ← wrap_err "fail to get bond address: "
    (AccAddress_of (naBondAddress nodeAcc));
  let bp := GetBondProviders k (NodeAddress nodeAcc) in
  if BondProviders_Has bp operator then
    Err ("operator " ++ acc_string operator ++ " is already a bond provider for node " ++
         acc_string (NodeAddress nodeAcc))
  else
    bp ← passiveBackfill k nodeAcc bp;
    let nodeAcc := with_naBondAddress nodeAcc (acc_string operator) in
    let updated := existsb (fun p => acc_equals (BondAddress p) currentOperator)
      (Providers bp) in
    if negb updated && (0 <? len (Providers bp)) then
      Err ("no bond provider matches current operator " ++ acc_string currentOperator ++
           " for node " ++ acc_string (NodeAddress nodeAcc))
    else
      let k := SetBondProviders k
        (with_providers bp (map (rename_provider currentOperator operator) (Providers bp))) in
      Ok (SetNodeAccount k nodeAcc).

Fixpoint rotate_all (k : Store) (operator : AccAddress) (nodes : NodeAccounts) : outcome Store :=
  match nodes with
  | [] => Ok k
  | node :: rest => k ← rotate k operator node; rotate_all k operator rest
  end.

Definition rotate_handle (k : Store) (msg : MsgOperatorRotate) : outcome Store :=
  if 0 <? GetConfigInt64 k "HaltOperatorRotate" (beHaltOperatorRotate env) then
    Err "rotate is halted"
  else
    lastChurnHeight ← getLastChurnHeight k;
    let churnInterval := GetConfigInt64 k "ChurnInterval" (beChurnInterval env) in
    let rotateCutoffHeight := i64 (lastChurnHeight + Z.quot churnInterval 2) in
    if rotateCutoffHeight <? kHeight k then
      Err "rotate is only allowed in the first half of churn"
    else
      nodes ← rotate_nodes (orSigner msg) (orOperatorAddress msg) (iterate (kNodeAccounts k));
      match nodes with
      | [] => Err ("no nodes found for operator " ++ acc_string (orSigner msg))
      | _ => rotate_all k (orOperatorAddress msg) nodes
      end.

Definition rotate_run (k : Store) (msg : MsgOperatorRotate) : outcome Store :=
  _ ← check (MsgOperatorRotate_ValidateBasic msg); rotate_handle k msg.

(** *** handler_ban.go *)
Definition ban_validate (k : Store) (msg : MsgBan) : goerr :=
  match MsgBan_ValidateBasic msg with
  | Some e => Some e
  | None =>
      if negb (isSignedByActiveNodeAccounts k (beAsgardAddress env) [bnSigner msg])
      then Some "not authorized" else None
  end.

Definition with_ban_height (m : BanVoter) (h : Z) : BanVoter :=
  mkBanVoter (bvNodeAddress m) h (bvSigners m).

(** The banned node pays [BondSlashBan], at most its bond, to the Reserve. *)
Definition slash_banned (k : Store) (toBan : NodeAccount) : outcome (Store * NodeAccount) :=
  let slash := GetConfigInt64 k "BondSlashBan" (beBondSlashBan env) in
  if 0 <? slash then
    let slashAmt := u64 slash in
    let slashAmt := if naBond toBan <? slashAmt then naBond toBan else slashAmt in
    bond ← SafeSub (naBond toBan) slashAmt;
    k ← SendFromModuleToModule k BondName ReserveName (NewCoin DecaNative slashAmt);
    Ok (k, with_naBond toBan bond)
  else Ok (k, toBan).

Definition ban_handle (k : Store) (msg : MsgBan) : outcome Store :=
  let toBan := GetNodeAccount k (bnNodeAddress msg) in
  _ ← check (NodeAccount_Valid toBan);
  if ForcedToLeave toBan then Ok k
  else if negb ((Status toBan =? NodeStatus_Active) || (Status toBan =? NodeStatus_Standby)) then
    Err "cannot ban a node account that is not currently active or standby"
  else
    _ ← check (NodeAccount_Valid (GetNodeAccount k (bnSigner msg)));
    let active := ListActiveValidators k in
    let voter := BanVoter_Sign (GetBanVoter k (bnNodeAddress msg)) (bnSigner msg) in
    let k := SetBanVoter k voter in
    if negb (BanVoter_HasConsensus voter active) then Ok k
    else if 0 <? bvBlockHeight voter then Ok k
    else
      let k := SetBanVoter k (with_ban_height voter (kHeight k)) in
      let toBan := with_leave toBan (RequestedToLeave toBan) true 1 in
      '(k, toBan) ← slash_banned k toBan;
      Ok (SetNodeAccount k toBan).

Definition ban_run (k : Store) (msg : MsgBan) : outcome Store :=
  _ ← check (ban_validate k msg); ban_handle k msg.
End bonds.

(** ** Lemmas *)

(** *** Providers *)
Section provider_lemmas.
Context {K : SdkKeys} {S : SdkMath} `{!SdkMathOk S}.

Lemma get_provider_uint l acc : bonds_ok l -> is_uint (Bond (get_provider l acc)).
Proof using.
  induction 1 as [|p l Hp Hl IH]; simpl; [unfold is_uint, uint_lim; lia|]. by case_if.
Qed.

Lemma update_provider_ok f l acc l' : (forall b b', is_uint b -> f b = Ok b' -> is_uint b') ->
  bonds_ok l -> update_provider f l acc = Ok l' -> bonds_ok l'.
Proof using.
  intros Hf Hl. revert l'. induction Hl as [|p l Hp Hl IH]; simpl; intros l' Hu.
  - simplify_eq. by constructor.
  - case_if_in Hu; ok_inv; constructor; simpl; [by eapply Hf|done|done|by apply IH].
Qed.

Lemma Unbond_ok bp amt acc bp' : is_uint amt -> bonds_ok (Providers bp) ->
  BondProviders_Unbond bp amt acc = Ok bp' ->
  bonds_ok (Providers bp') /\ NodeOperatorFee bp' = NodeOperatorFee bp.
Proof using SdkMathOk0.
  intros Ha Hl Hu. unfold BondProviders_Unbond in Hu. ok_inv. split; [|done]. simpl.
  eapply update_provider_ok; [|done|eassumption]. simpl.
  intros b b' Hb. rewrite SafeSub_Ok by done. intros [= <-]. by apply safe_sub_uint.
Qed.

Lemma Bond_ok bp amt acc bp' : is_uint amt -> bonds_ok (Providers bp) ->
  BondProviders_Bond bp amt acc = Ok bp' ->
  bonds_ok (Providers bp') /\ NodeOperatorFee bp' = NodeOperatorFee bp.
Proof using SdkMathOk0.
  intros Ha Hl Hu. unfold BondProviders_Bond in Hu. ok_inv. split; [|done]. simpl.
  eapply update_provider_ok; [|done|eassumption]. simpl.
  intros b b' Hb Hadd. by apply uint_add_inv in Hadd as [_ ?].
Qed.

Lemma remove_provider_ok l acc l' : bonds_ok l -> remove_provider l acc = Some l' -> bonds_ok l'.
Proof using.
  intros Hl. revert l'. induction Hl as [|p l Hp Hl IH]; simpl; intros l' Hr; [done|].
  case_if_in Hr; [by simplify_eq|].
  destruct (remove_provider l acc) as [l0|]; simplify_eq/=. constructor; [done|by apply IH].
Qed.

Lemma Remove_ok bp acc : bonds_ok (Providers bp) ->
  bonds_ok (Providers (snd (BondProviders_Remove bp acc))) /\
  NodeOperatorFee (snd (BondProviders_Remove bp acc)) = NodeOperatorFee bp.
Proof using.
  intros Hl. unfold BondProviders_Remove. destruct (Providers bp) as [|op rest] eqn:HP.
  { simpl. rewrite HP. by split; [constructor|]. }
  apply Forall_cons_1 in Hl as [Hop Hrest].
  destruct (remove_provider rest acc) as [rest'|] eqn:Hr; simpl; [|rewrite HP; split; [by constructor|done]].
  split; [|done]. constructor; [done|]. by eapply remove_provider_ok.
Qed.

Lemma Adjust_ok bp N bp' : bonds_ok (Providers bp) -> is_uint (NodeOperatorFee bp) -> is_uint N ->
  Adjust bp N = Ok bp' ->
  bonds_ok (Providers bp') /\ NodeOperatorFee bp' = NodeOperatorFee bp.
Proof using SdkMathOk0.
  intros Hl Hf HN Ha. destruct (Providers bp) as [|op rest] eqn:HP.
  { unfold Adjust in Ha. rewrite HP in Ha. simplify_eq. rewrite HP. split; [by constructor|done]. }
  assert (Hsum : is_uint (sumZ (bonds (op :: rest)))).
  { unfold Adjust in Ha. rewrite HP in Ha. ok_inv.
    match goal with Hs : Sum _ = Ok _ |- _ =>
      rewrite Sum_eq in Hs by (apply Forall_map; eapply Forall_impl; [exact Hl|done]);
      by apply uint_or_panic_inv in Hs as [_ ?] end. }
  destruct (Z.eq_dec (sumZ (bonds (op :: rest))) N) as [He|Hne].
  - unfold Adjust in Ha. rewrite HP in Ha.
    rewrite Sum_eq in Ha by (apply Forall_map; eapply Forall_impl; [exact Hl|done]).
    fold (bonds (op :: rest)) in Ha. rewrite uint_or_panic_Ok in Ha by done.
    cbn [mbind outcome_bind] in Ha. rewrite (proj2 (Z.eqb_eq _ N) He) in Ha. simplify_eq.
    by rewrite HP.
  - pose proof (Adjust_eq bp N op rest HP Hl Hsum HN Hf Hne) as Heq. cbv zeta in Heq.
    set (t := sumZ (bonds (op :: rest))) in *. clearbody t.
    rewrite Ha in Heq. injection Heq as ->. split; [|done]. simpl.
    assert (Hr : 0 <= operator_fee bp t N <= Z.max 0 (N - t))
      by (apply operator_fee_range; [by destruct Hf|by destruct Hsum|by destruct HN]).
    apply Forall_cons_1 in Hl as [Hop Hrest].
    set (fee := operator_fee bp t N) in *.
    assert (Ht : 0 <= t) by by destruct Hsum.
    assert (HN' : is_uint (N - fee)) by (unfold is_uint in *; lia).
    pose proof (new_shares_nonneg t (N - fee) rest Hrest Hsum HN') as Hv.
    assert (Hv0 : 0 <= sumZ (new_shares t (N - fee) rest)).
    { apply sumZ_nonneg. eapply Forall_impl; [exact Hv|]. by intros ? []. }
    constructor; [unfold is_uint in *; simpl; lia|].
    assert (Hlen : length (new_shares t (N - fee) rest) = length rest)
      by (unfold new_shares; by rewrite length_map).
    rewrite <- (bonds_set_bonds rest _ Hlen) in Hv.
    by apply (Forall_map Bond) in Hv.
Qed.
End provider_lemmas.

(** *** Handlers *)
Section bond_lemmas.
Context {B : Type} `{Bank B} `{!BankOk B} {K : SdkKeys} {S : SdkMath} `{!SdkMathOk S}.
Context (env : BondEnv) (account_exists : B -> AccAddress -> bool).
Implicit Types k : KVStore B.

(** The gap of [k'] is that of [k] less [d], the accounts are in order and their
    keys are the same. *)
Definition drops (d : Z) k k' : Prop :=
  nodes_ok k' /\ bond_gap k' = bond_gap k - d /\ same_keys k k'.

Lemma drops_bank d k k' : nodes_ok k' -> bond_gap k' = bond_gap k - d ->
  kNodeAccounts k' = kNodeAccounts k -> drops d k k'.
Proof using. intros ? ? ?. split; [done|]. split; [done|]. by apply same_keys_accounts. Qed.

Definition bp_ok (bp : BondProviders) : Prop :=
  bonds_ok (Providers bp) /\ is_uint (NodeOperatorFee bp).

Lemma stored_bp_ok k addr : nodes_ok k -> bp_ok (GetBondProviders k addr).
Proof using. intros Hk. by apply (GetBondProviders_ok k addr). Qed.

Lemma passiveBackfill_ok k na bp bp' : is_uint (naBond na) -> bp_ok bp ->
  passiveBackfill env k na bp = Ok bp' -> bp_ok bp'.
Proof using.
  intros Hn [Hb Hf] Hp. unfold passiveBackfill in Hp.
  destruct (Providers bp) as [|p l] eqn:HP; [|injection Hp as <-; split; [by rewrite HP|done]].
  ok_inv. split; simpl; [apply Forall_singleton; simpl; exact Hn|auto with go].
Qed.

Lemma aligned_ok k na bp bp1 bp' : is_uint (naBond na) -> bp_ok bp ->
  passiveBackfill env k na bp = Ok bp1 -> Adjust bp1 (naBond na) = Ok bp' -> bp_ok bp'.
Proof using SdkMathOk0.
  intros Hn Hb Hp Ha. destruct (passiveBackfill_ok _ _ _ _ Hn Hb Hp) as [Hb1 Hf1].
  destruct (Adjust_ok _ _ _ Hb1 Hf1 Hn Ha) as [? Hf]. split; [done|by rewrite Hf].
Qed.

Lemma pay_back_ok k bp na acc amt k' bp' na' : nodes_ok k -> bp_ok bp -> is_uint (naBond na) ->
  is_uint amt -> amt <= naBond na -> pay_back k bp na acc amt = Ok (k', bp', na') ->
  drops (naBond na - naBond na') k k' /\ bp_ok bp' /\ kNodeAccounts k' = kNodeAccounts k /\
  kHeight k' = kHeight k /\ is_uint (naBond na') /\ naBond na' <= naBond na /\
  na' = with_naBond na (naBond na').
Proof using BankOk0 SdkMathOk0.
  intros Hk [Hb Hf] Hn Ha Hle Hp. unfold pay_back in Hp.
  assert (Hid : na = with_naBond na (naBond na)) by by destruct na.
  case_if_in Hp.
  2:{ injection Hp as <- <- <-. split; [apply drops_bank; done || (simpl; lia)|]. split; [by split|].
      do 3 (split; [done|]). split; [lia|done]. }
  pose proof (get_provider_uint (Providers bp) acc Hb) as Hpu.
  fold (BondProviders_Get bp acc) in Hpu. set (p := BondProviders_Get bp acc) in *.
  set (paid := if Bond p <? amt then Bond p else amt) in *.
  assert (Hpaid : is_uint paid /\ paid <= naBond na).
  { unfold paid. case_if; z_bool; split; (done || lia). }
  destruct Hpaid as [Hpd Hple]. clearbody paid.
  apply bind_Ok_inv in Hp as (bp1 & Hun & Hp). apply bind_Ok_inv in Hp as (k1 & Hs & Hp).
  apply wrap_err_Ok in Hs. apply bind_Ok_inv in Hp as (bond & Hbond & Hp).
  injection Hp as <- <- <-.
  rewrite SafeSub_Ok in Hbond by done. injection Hbond as <-. rewrite Z.max_r by lia.
  destruct (send_from_bond_ok _ _ _ _ Hk Hs) as (Hk1 & Hg & Hacc & _ & Hh).
  destruct (Unbond_ok _ _ _ _ Hpd Hb Hun) as [Hb1 Hf1]. simpl.
  split; [apply drops_bank; done || (simpl; lia)|]. split; [split; [done|by rewrite Hf1]|].
  do 2 (split; [done|]). unfold is_uint in *. split; [lia|]. split; [lia|done].
Qed.

Lemma UpdateStatus_same na s h :
  naBond (UpdateStatus na s h) = naBond na /\
  NodeAddress (UpdateStatus na s h) = NodeAddress na /\
  account_keys (UpdateStatus na s h) = account_keys na.
Proof using. unfold UpdateStatus. by case_if. Qed.

Lemma UpdateStatus_empty na s h : s <> NodeStatus_Unknown ->
  NodeAccount_IsEmpty (UpdateStatus na s h) = true -> NodeAccount_IsEmpty na = true.
Proof using.
  unfold UpdateStatus, NodeAccount_IsEmpty. intros Hs. case_if; [done|]. simpl.
  rewrite (proj2 (Z.eqb_neq s NodeStatus_Unknown)) by done. rewrite orb_false_r. by intros ->.
Qed.

Lemma refundBond_ok k acc amt na k' na' : nodes_ok k -> node_at k na -> is_uint amt ->
  refundBond env k acc amt na = Ok (k', na') ->
  drops 0 k k' /\ node_at k' na' /\ NodeAddress na' = NodeAddress na.
Proof using BankOk0 SdkMathOk0.
  intros Hk Hna Ha Hr. unfold refundBond in Hr.
  case_if_in Hr; [injection Hr as <- <-; split; [apply drops_bank; done || lia|done]|].
  pose proof (na_uint k na Hna) as Hn.
  set (want := if _ || _ then _ else _) in Hr.
  assert (Hw : is_uint want /\ want <= naBond na).
  { unfold want. destruct (amt =? 0); [done|]. simpl.
    destruct (Z.ltb_spec (naBond na) amt); split; (done || lia). }
  destruct Hw as [Hw Hwle]. clearbody want.
  apply bind_Ok_inv in Hr as (bp1 & Hp & Hr). apply bind_Ok_inv in Hr as (bp2 & Had & Hr).
  apply bind_Ok_inv in Hr as ([[k1 bp3] na1] & Hpay & Hr).
  pose proof (aligned_ok _ _ _ _ _ Hn (stored_bp_ok k _ Hk) Hp Had) as Hbp.
  destruct (pay_back_ok _ _ _ _ _ _ _ _ Hk Hbp Hn Hw Hwle Hpay)
    as ((Hk1 & Hg1 & Hs1) & [Hb3 Hf3] & Hacc & Hh & Hn1 & Hle & Hna1).
  set (na2 := if RequestedToLeave na1 then _ else _) in Hr. injection Hr as <- <-.
  assert (H2 : naBond na2 = naBond na1 /\ NodeAddress na2 = NodeAddress na1 /\
    (NodeAccount_IsEmpty na2 = true -> NodeAccount_IsEmpty na1 = true) /\
    account_keys na2 = account_keys na1).
  { unfold na2. case_if; [|done].
    destruct (UpdateStatus_same na1 NodeStatus_Disabled (kHeight k1)) as (? & ? & ?).
    split; [done|]. split; [done|]. split; [|done]. by apply UpdateStatus_empty. }
  destruct H2 as (Hb2 & Ha2 & He2 & Hke2). clearbody na2.
  assert (Hkeys : account_keys na2 = account_keys na) by (rewrite Hke2, Hna1; done).
  assert (Haddr : NodeAddress na1 = NodeAddress na) by (rewrite Hna1; done).
  assert (Hemp : NodeAccount_IsEmpty na1 = NodeAccount_IsEmpty na) by (rewrite Hna1; done).
  destruct (SetNodeAccount_ok k1 na na2 Hk1) as (Hk2 & Hat & Hg2).
  - by apply (node_at_frame k).
  - congruence.
  - by rewrite Hb2.
  - intros He. apply He2 in He. rewrite Hemp in He. apply (na_empty k na Hna) in He.
    rewrite Hb2. destruct Hn1. lia.
  - destruct (SetBondProviders_ok _ bp3 Hk2 Hb3 Hf3) as [Hk3 Hg3].
    split; [|split; [by apply (node_at_frame (SetNodeAccount k1 na2)); [|apply Hat]|congruence]].
    split; [done|]. split; [rewrite Hg3, Hg2; lia|].
    apply (same_keys_trans k k1); [done|]. apply (SetNodeAccount_keys k1 na); [|congruence|done].
    by apply (node_at_frame k).
Qed.

(** Writing an account back with another bond drops the gap by the increase. *)
Lemma write_account k na na' : nodes_ok k -> node_at k na -> NodeAddress na' = NodeAddress na ->
  is_uint (naBond na') -> NodeAccount_IsEmpty na' = false -> account_keys na' = account_keys na ->
  drops (naBond na' - naBond na) k (SetNodeAccount k na').
Proof using.
  intros Hk Hna Ha Hu He Hke. destruct (SetNodeAccount_ok k na na' Hk Hna Ha Hu) as (? & _ & ?);
    [congruence|]. split; [done|]. split; [done|]. by apply (SetNodeAccount_keys k na).
Qed.

(** Writing an account back with the same bond keeps the gap. *)
Lemma write_same k na na' : nodes_ok k -> node_at k na -> NodeAddress na' = NodeAddress na ->
  naBond na' = naBond na -> (NodeAccount_IsEmpty na' = true -> NodeAccount_IsEmpty na = true) ->
  account_keys na' = account_keys na ->
  drops 0 k (SetNodeAccount k na') /\
  (forall n, node_at k n -> node_at (SetNodeAccount k na') n).
Proof using.
  intros Hk Hna Ha Hb He Hke. pose proof (na_uint k na Hna) as Hu.
  pose proof (SetNodeAccount_keys k na na' Hna Ha Hke) as Hsame.
  destruct (SetNodeAccount_ok k na na' Hk Hna Ha) as (Hk' & _ & Hg).
  { by rewrite Hb. }
  { intros Hem%He%(na_empty k na Hna). by rewrite Hb. }
  split; [split; [done|split; [rewrite Hg; lia|done]]|]. intros n [Hnu Hnb Hne Hnk].
  split; [done| |done|by rewrite (Hsame (node_key (NodeAddress n)))].
  destruct (NodeAccount_IsEmpty na') eqn:Hem.
  - assert (SetNodeAccount k na' = k) as -> by (unfold SetNodeAccount; by rewrite Hem). done.
  - destruct (SetNodeAccount_accounts k na' Hem) as (na2 & -> & Hb2 & Ha2 & _). rewrite Ha.
    destruct (decide (node_key (NodeAddress na) = node_key (NodeAddress n))) as [Heq|Hneq].
    + rewrite Heq, lookup_insert_eq. simpl. rewrite Hb2, Hb, <- (na_bond k na Hna), <- Hnb.
      by rewrite Heq.
    + by rewrite lookup_insert_ne.
Qed.

Lemma drops_trans d1 d2 k1 k2 k3 : drops d1 k1 k2 -> drops d2 k2 k3 -> drops (d1 + d2) k1 k3.
Proof using.
  intros (_ & Hg & Hs) (Hk & Hg' & Hs'). split; [done|]. split; [rewrite Hg', Hg; lia|].
  by apply (same_keys_trans k1 k2).
Qed.

Lemma drops_bp d k1 k2 bp : drops d k1 k2 -> bp_ok bp -> drops d k1 (SetBondProviders k2 bp).
Proof using.
  intros (Hk & Hg & Hs) [Hb Hf]. destruct (SetBondProviders_ok _ bp Hk Hb Hf) as [? Hg'].
  split; [done|]. split; [by rewrite Hg'|done].
Qed.

Lemma unknown_absent k addr : nodes_ok k ->
  Status (GetNodeAccount k addr) = NodeStatus_Unknown -> kNodeAccounts k !! node_key addr = None.
Proof using.
  intros Hk. unfold GetNodeAccount. fold (node_key addr).
  destruct (kNodeAccounts k !! node_key addr) as [na|] eqn:Hna; simpl; [|done].
  destruct (no_account k Hk _ _ Hna) as (_ & He & _). intros Hs.
  unfold NodeAccount_IsEmpty in He. by rewrite Hs, orb_true_r in He.
Qed.

Lemma known_nonempty k addr : nodes_ok k ->
  Status (GetNodeAccount k addr) <> NodeStatus_Unknown ->
  NodeAccount_IsEmpty (GetNodeAccount k addr) = false.
Proof using.
  intros Hk Hs. unfold GetNodeAccount in *. fold (node_key addr) in *.
  destruct (kNodeAccounts k !! node_key addr) as [na|] eqn:Hna; simpl in *; [|done].
  by destruct (no_account k Hk _ _ Hna) as (_ & ? & _).
Qed.

Lemma create_account_ok k node bond mb k' bond' mb' : nodes_ok k -> is_uint bond -> is_uint mb ->
  create_account account_exists k node bond mb = Ok (k', bond', mb') ->
  drops (bond - bond') k k' /\ is_uint bond' /\ is_uint mb' /\
  kNodeAccounts k' = kNodeAccounts k.
Proof using BankOk0 SdkMathOk0.
  intros Hk Hb Hm Hc. unfold create_account in Hc. case_if_in Hc.
  2:{ injection Hc as <- <- <-. by split; [apply drops_bank; done || lia|]. }
  apply andb_true_iff in E as [_ Hge]. z_bool.
  assert (H1 : is_uint One) by (unfold is_uint, uint_lim, One; lia).
  apply bind_Ok_inv in Hc as (k1 & Hs & Hc). apply wrap_err_Ok in Hs.
  rewrite !SafeSub_Ok in Hc by done. injection Hc as <- <- <-.
  destruct (send_from_bond_ok _ _ _ _ Hk Hs) as (Hk1 & Hg & Hacc & _).
  rewrite Z.max_r by lia. unfold is_uint in *. split; [apply drops_bank; done || lia|].
  split; [lia|]. split; [|done]. unfold One in *. lia.
Qed.

Lemma add_provider_ok k msg na bp bp' : bp_ok bp -> add_provider env k msg na bp = Ok bp' ->
  bp_ok bp'.
Proof using.
  intros [Hb Hf] Ha. unfold add_provider in Ha. repeat case_if_in Ha; simplify_eq; try by split.
  split; [|done]. simpl. apply Forall_app. split; [done|]. apply Forall_singleton. simpl.
  unfold is_uint, uint_lim. lia.
Qed.

(** A bond message moves its amount from the gap to the bonds. *)
Lemma bond_handle_ok k msg k' : nodes_ok k -> is_uint (mbBond msg) ->
  acc_empty (mbNodeAddress msg) = false ->
  bond_handle env account_exists k msg = Ok k' -> drops (mbBond msg) k k'.
Proof using BankOk0 SdkMathOk0.
  intros Hk Hm Hne Hh. unfold bond_handle in Hh. cbv zeta in Hh.
  set (na := if _ =? NodeStatus_Unknown then _ else _) in Hh.
  assert (Hna : node_at k na /\ NodeAccount_IsEmpty na = false).
  { unfold na. pose proof (GetNodeAccount_at k (mbNodeAddress msg) Hk) as Hat. case_if; z_bool.
    - split; [|unfold NodeAccount_IsEmpty; simpl; by rewrite Hne].
      split; simpl; [unfold is_uint, uint_lim; lia| |done|]; unfold keys_at;
        by rewrite (unknown_absent k (mbNodeAddress msg) Hk E).
    - split; [done|by apply known_nonempty]. }
  destruct Hna as [Hna Hnemp]. pose proof (na_uint k na Hna) as Hn. clearbody na.
  apply bind_Ok_inv in Hh as (bp1 & Hp & Hh). apply bind_Ok_inv in Hh as (bp2 & Had & Hh).
  apply bind_Ok_inv in Hh as (bond & Hbond & Hh).
  apply bind_Ok_inv in Hh as ([[k1 bond1] mb1] & Hc & Hh).
  apply bind_Ok_inv in Hh as (bp3 & Hadd & Hh). apply bind_Ok_inv in Hh as (from & _ & Hh).
  apply bind_Ok_inv in Hh as (bp4 & Hbb & Hh). injection Hh as <-.
  pose proof (aligned_ok _ _ _ _ _ Hn (stored_bp_ok k _ Hk) Hp Had) as Hb2.
  apply uint_add_inv in Hbond as [-> Hbu]; [|done..].
  destruct (create_account_ok _ _ _ _ _ _ _ Hk Hbu Hm Hc) as (Hd1 & Hb1u & Hmu & Hacc).
  pose proof (add_provider_ok _ _ _ _ _ Hb2 Hadd) as Hb3.
  assert (Hb4 : bp_ok bp4).
  { case_if_in Hbb; [|by injection Hbb as <-]. destruct Hb3 as [Hbs Hfee].
    destruct (Bond_ok _ _ _ _ Hmu Hbs Hbb) as [? Hf]. split; [done|by rewrite Hf]. }
  apply drops_bp.
  - pose proof (write_account k1 na (with_naBond na bond1) (proj1 Hd1)) as Hd2.
    specialize (Hd2 (node_at_frame k k1 na Hacc Hna) eq_refl Hb1u Hnemp eq_refl).
    pose proof (drops_trans _ _ _ _ _ Hd1 Hd2) as Hd.
    replace (mbBond msg) with (naBond na + mbBond msg - bond1 +
      (naBond (with_naBond na bond1) - naBond na)) by (simpl; lia). exact Hd.
  - destruct Hb4 as [Hbs Hfee]. case_if; split; simpl; auto with go.
Qed.

Lemma drops_0 k1 k2 : drops 0 k1 k2 -> nodes_ok k2 /\ bond_gap k2 = bond_gap k1.
Proof using. intros (? & -> & _). split; [done|lia]. Qed.

Lemma drops_0_trans k1 k2 k3 : drops 0 k1 k2 -> drops 0 k2 k3 -> drops 0 k1 k3.
Proof using. intros H1 H2. exact (drops_trans 0 0 k1 k2 k3 H1 H2). Qed.

Lemma drops_refl k : nodes_ok k -> drops 0 k k.
Proof using. intros Hk. apply drops_bank; done || lia. Qed.

Lemma unbond_provider_ok k msg na k' na' : nodes_ok k -> node_at k na -> is_uint (muAmount msg) ->
  unbond_provider env k msg na = Ok (k', na') -> drops 0 k k'.
Proof using BankOk0 SdkMathOk0.
  intros Hk Hna Ha Hu. unfold unbond_provider in Hu.
  apply bind_Ok_inv in Hu as ([k1 na1] & Hr & Hu). apply wrap_err_Ok in Hr.
  destruct (refundBond_ok _ _ _ _ _ _ Hk Hna Ha Hr) as (Hd & Hna1 & _).
  apply bind_Ok_inv in Hu as (ba & _ & Hu). case_if_in Hu; [by simplify_eq|].
  case_if_in Hu; [|by simplify_eq].
  destruct (Remove_ok (GetBondProviders k1 (NodeAddress na1)) (muBondProviderAddress msg))
    as [Hb Hf]; [by apply GetBondProviders_ok, Hd|].
  destruct (BondProviders_Remove _ _) as [ok bp]. injection Hu as <- <-.
  destruct ok; [|done]. apply drops_bp; [done|]. split; [done|]. simpl in Hf. rewrite Hf.
  apply GetBondProviders_ok, Hd.
Qed.

Lemma Coins_GetCoin_empty cs a : Coins_IsEmpty cs = true -> Coin_IsEmpty (Coins_GetCoin cs a) = true.
Proof using.
  unfold Coins_IsEmpty. induction cs as [|c cs IH]; simpl; [done|].
  intros [Hc Hcs]%andb_true_iff. case_if; auto.
Qed.

Lemma unbond_run_ok k msg k' : nodes_ok k -> is_uint (muAmount msg) ->
  unbond_run env k msg = Ok k' -> drops 0 k k'.
Proof using BankOk0 SdkMathOk0.
  intros Hk Ha Hu. unfold unbond_run in Hu. apply bind_Ok_inv in Hu as ([] & Hv & Hu).
  assert (Hempty : Coins_IsEmpty (txCoins (muTxIn msg)) = true).
  { unfold unbond_validate in Hv. apply bind_Ok_inv in Hv as (_ & _ & Hv).
    by destruct (Coins_IsEmpty (txCoins (muTxIn msg))). }
  unfold unbond_handle in Hu. case_if_in Hu; [done|].
  apply bind_Ok_inv in Hu as (b & _ & Hu). case_if_in Hu; [done|].
  apply bind_Ok_inv in Hu as (from & _ & Hu). apply bind_Ok_inv in Hu as ([k1 na1] & Hr & Hu).
  rewrite (Coins_GetCoin_empty _ DecaAsset Hempty) in Hu. simpl in Hu. injection Hu as <-.
  pose proof (GetNodeAccount_at k (muNodeAddress msg) Hk) as Hna.
  case_if_in Hr; [by apply unbond_provider_ok in Hr|].
  apply wrap_err_Ok in Hr. by destruct (refundBond_ok _ _ _ _ _ _ Hk Hna Ha Hr) as (? & _).
Qed.

Lemma move_bond_ok bp signer new amt bp' : bp_ok bp -> is_uint amt ->
  move_bond bp signer new amt = Ok bp' -> bp_ok bp'.
Proof using SdkMathOk0.
  intros [Hb Hf] Ha Hm. unfold move_bond in Hm. do 3 (case_if_in Hm; [done|]).
  set (amt' := if _ || _ then _ else _) in Hm.
  assert (Hu : is_uint amt').
  { unfold amt'. case_if; [by apply get_provider_uint|done]. }
  clearbody amt'. apply bind_Ok_inv in Hm as (bp1 & H1 & Hm).
  apply bind_Ok_inv in Hm as (bp2 & H2 & Hm). injection Hm as <-.
  destruct (Unbond_ok _ _ _ _ Hu Hb H1) as [Hb1 Hf1].
  destruct (Bond_ok _ _ _ _ Hu Hb1 H2) as [Hb2 Hf2]. case_if.
  - destruct (Remove_ok bp2 (BondAddress (BondProviders_Get bp signer)) Hb2) as [? Hf3].
    split; [done|]. by rewrite Hf3, Hf2, Hf1.
  - split; [done|]. by rewrite Hf2, Hf1.
Qed.

Lemma rebond_handle_ok k msg k' : nodes_ok k -> is_uint (mrAmount msg) ->
  rebond_handle env k msg = Ok k' -> drops 0 k k'.
Proof using BankOk0 SdkMathOk0.
  intros Hk Ha Hr. unfold rebond_handle in Hr. case_if_in Hr; [done|].
  apply bind_Ok_inv in Hr as (bp1 & Hp & Hr). apply bind_Ok_inv in Hr as (bp2 & Had & Hr).
  apply bind_Ok_inv in Hr as (bp3 & Hm & Hr). injection Hr as <-.
  pose proof (GetNodeAccount_at k (mrNodeAddress msg) Hk) as Hna.
  pose proof (na_uint k _ Hna) as Hn. apply drops_bp; [by apply write_same with (GetNodeAccount k (mrNodeAddress msg))|].
  by eapply move_bond_ok; [|exact Ha|exact Hm];
    eapply aligned_ok; [exact Hn|by apply stored_bp_ok|exact Hp|].
Qed.

Lemma leave_refund_ok k na addr k' na' : nodes_ok k -> node_at k na ->
  leave_refund env k na addr = Ok (k', na') ->
  drops 0 k k' /\ node_at k' na'.
Proof using BankOk0 SdkMathOk0.
  intros Hk Hna Hl. unfold leave_refund in Hl. case_if_in Hl; [done|].
  assert (Hsame : forall k0 na0, Ok (k0, na0) = Ok (k', na') -> drops 0 k k0 -> node_at k0 na0 ->
    drops 0 k k' /\ node_at k' na') by (intros k0 na0 [= <- <-]; done).
  apply bind_Ok_inv in Hl as (b & _ & Hl).
  case_if_in Hl; [by eapply Hsame; [exact Hl|apply drops_refl|]|].
  apply bind_Ok_inv in Hl as (b' & _ & Hl).
  case_if_in Hl; [by eapply Hsame; [exact Hl|apply drops_refl|]|].
  apply bind_Ok_inv in Hl as ([k1 na1] & Hr & Hl). apply wrap_err_Ok in Hr.
  assert (H0 : is_uint 0) by (unfold is_uint, uint_lim; lia).
  destruct (refundBond_ok _ _ _ _ _ _ Hk Hna H0 Hr) as (Hd & [Hu Hb He Hke] & _).
  injection Hl as <- <-. split; [done|].
  destruct (UpdateStatus_same na1 NodeStatus_Disabled (kHeight k1)) as (Hub & Hua & Huk).
  split; rewrite ?Hub, ?Hua, ?Huk; [done..| |done]. intros Hem.
  apply UpdateStatus_empty in Hem; [by apply He|done].
Qed.

Lemma leave_handle_ok k msg k' : nodes_ok k -> leave_handle env k msg = Ok k' -> drops 0 k k'.
Proof using BankOk0 SdkMathOk0.
  intros Hk Hl. unfold leave_handle in Hl. case_if_in Hl; [done|].
  apply bind_Ok_inv in Hl as ([] & _ & Hl). apply bind_Ok_inv in Hl as (addr & _ & Hl).
  apply bind_Ok_inv in Hl as ([k1 na1] & Hr & Hl). injection Hl as <-.
  pose proof (GetNodeAccount_at k (mlNodeAddress msg) Hk) as Hna.
  set (na := GetNodeAccount k (mlNodeAddress msg)) in *.
  assert (Hd : drops 0 k k1 /\ node_at k1 na1).
  { case_if_in Hr; [|by apply leave_refund_ok in Hr].
    apply bind_Ok_inv in Hr as (sc & _ & Hr). injection Hr as <- <-.
    split; [by apply drops_refl|]. by destruct Hna. }
  destruct Hd as [Hd Hat]. eapply drops_0_trans; [exact Hd|].
  by apply (write_same k1 na1 (with_requested na1) (proj1 Hd) Hat).
Qed.

Lemma rotate_ok k operator na k' : nodes_ok k -> node_at k na ->
  rotate env k operator na = Ok k' ->
  drops 0 k k' /\ (forall n, node_at k n -> node_at k' n).
Proof using.
  intros Hk Hna Hr. unfold rotate in Hr. apply bind_Ok_inv in Hr as (cur & _ & Hr).
  case_if_in Hr; [done|]. apply bind_Ok_inv in Hr as (bp & Hp & Hr).
  case_if_in Hr; [done|]. injection Hr as <-.
  destruct (passiveBackfill_ok _ _ _ _ (na_uint k na Hna) (stored_bp_ok k _ Hk) Hp) as [Hb Hf].
  set (bp' := with_providers bp _).
  assert (Hbp : bp_ok bp').
  { split; [|done]. simpl. apply (Forall_map (rename_provider cur operator) (fun p => is_uint (Bond p))).
    eapply Forall_impl; [exact Hb|]. intros p Hpu. unfold rename_provider. by case_if. }
  assert (Hd1 : drops 0 k (SetBondProviders k bp')) by (apply drops_bp; [by apply drops_refl|done]).
  destruct (write_same (SetBondProviders k bp') na (with_naBondAddress na (acc_string operator)))
    as [Hd Hall]; [apply Hd1|by apply (node_at_frame k)|done..|].
  split; [exact (drops_0_trans _ _ _ Hd1 Hd)|]. intros n Hn. by apply Hall, (node_at_frame k).
Qed.

Lemma rotate_all_ok k operator nodes k' : nodes_ok k -> Forall (node_at k) nodes ->
  rotate_all env k operator nodes = Ok k' -> drops 0 k k'.
Proof using.
  revert k. induction nodes as [|na nodes IH]; intros k Hk Hns Hr; simpl in Hr.
  - injection Hr as <-. by apply drops_refl.
  - apply bind_Ok_inv in Hr as (k1 & H1 & Hr). apply Forall_cons_1 in Hns as [Hna Hns].
    destruct (rotate_ok _ _ _ _ Hk Hna H1) as [Hd Hall].
    eapply drops_0_trans; [exact Hd|]. apply IH; [apply Hd| |done].
    eapply Forall_impl; [exact Hns|done].
Qed.

Lemma rotate_nodes_sub signer operator nas nodes :
  rotate_nodes signer operator nas = Ok nodes -> forall n, n ∈ nodes -> n ∈ nas.
Proof using.
  revert nodes. induction nas as [|na nas IH]; simpl; intros nodes Hr n Hn.
  - injection Hr as <-. done.
  - repeat case_if_in Hr; try done; try (right; by eapply IH).
    apply bind_Ok_inv in Hr as (rest & Hrest & Hr). injection Hr as <-.
    apply elem_of_cons in Hn as [->|Hn]; [by left|right; by eapply IH].
Qed.

Lemma rotate_handle_ok k msg k' : nodes_ok k -> rotate_handle env k msg = Ok k' -> drops 0 k k'.
Proof using.
  intros Hk Hr. unfold rotate_handle in Hr. case_if_in Hr; [done|].
  apply bind_Ok_inv in Hr as (h & _ & Hr). case_if_in Hr; [done|].
  apply bind_Ok_inv in Hr as (nodes & Hn & Hr).
  assert (Hns : Forall (node_at k) nodes).
  { apply Forall_forall. intros n Hin. eapply rotate_nodes_sub in Hin; [|exact Hn].
    apply elem_of_iterate in Hin as (key & Hkey).
    destruct (no_account k Hk _ _ Hkey) as (Heq & He & Hu).
    split; [done| |congruence|]; unfold keys_at; by rewrite <- Heq, Hkey. }
  destruct nodes; [done|]. by eapply rotate_all_ok.
Qed.

Lemma slash_banned_ok k na k' na' : nodes_ok k -> is_uint (naBond na) ->
  slash_banned env k na = Ok (k', na') ->
  drops (naBond na - naBond na') k k' /\ is_uint (naBond na') /\
  na' = with_naBond na (naBond na') /\ kNodeAccounts k' = kNodeAccounts k.
Proof using BankOk0 SdkMathOk0.
  intros Hk Hu Hs. unfold slash_banned in Hs.
  assert (Hid : na = with_naBond na (naBond na)) by by destruct na.
  case_if_in Hs.
  2:{ injection Hs as <- <-. split; [apply drops_bank; done || lia|done]. }
  set (amt := if _ <? u64 _ then _ else _) in Hs.
  assert (Ha : is_uint amt /\ amt <= naBond na).
  { unfold amt. case_if; z_bool; [split; [done|lia]|]. split; [auto with go|done]. }
  destruct Ha as [Ha Hle]. clearbody amt.
  apply bind_Ok_inv in Hs as (b & Hb & Hs). apply bind_Ok_inv in Hs as (k1 & Hsend & Hs).
  injection Hs as <- <-. rewrite SafeSub_Ok in Hb by done. injection Hb as <-.
  rewrite Z.max_r by lia. destruct (bond_to_reserve_ok _ _ _ Hk Hsend) as (Hk1 & Hg & Hacc & _).
  unfold is_uint in *. split; [apply drops_bank; done || (simpl; lia)|]. simpl. split; [lia|done].
Qed.

Lemma ban_handle_ok k msg k' : nodes_ok k -> ban_handle env k msg = Ok k' -> drops 0 k k'.
Proof using BankOk0 SdkMathOk0.
  intros Hk Hb. unfold ban_handle in Hb. cbv zeta in Hb.
  pose proof (GetNodeAccount_at k (bnNodeAddress msg) Hk) as Hna.
  set (na := GetNodeAccount k (bnNodeAddress msg)) in *.
  apply bind_Ok_inv in Hb as ([] & Hv & Hb).
  assert (Hemp : NodeAccount_IsEmpty na = false).
  { unfold NodeAccount_Valid, NodeAccount_IsEmpty in *.
    destruct (acc_empty (NodeAddress na)); [done|]. destruct (Address_IsEmpty _); [done|].
    by destruct (Status na =? NodeStatus_Unknown). }
  case_if_in Hb; [injection Hb as <-; by apply drops_refl|]. case_if_in Hb; [done|].
  apply bind_Ok_inv in Hb as ([] & _ & Hb).
  assert (Hset : forall k0 v, drops 0 k k0 -> drops 0 k (SetBanVoter k0 v)).
  { intros k0 v (Hk0 & Hg). split; [|exact Hg]. split; [apply (no_account k0 Hk0)|apply (no_providers k0 Hk0)]. }
  case_if_in Hb; [injection Hb as <-; by apply Hset, drops_refl|].
  case_if_in Hb; [injection Hb as <-; by apply Hset, drops_refl|].
  apply bind_Ok_inv in Hb as ([k1 na1] & Hs & Hb). injection Hb as <-.
  match type of Hs with slash_banned _ ?k0 _ = _ =>
    assert (Hd0 : drops 0 k k0) by (by apply Hset, Hset, drops_refl);
    assert (Hat0 : node_at k0 na) by (by apply (node_at_frame k)) end.
  apply slash_banned_ok in Hs as (Hd1 & Hu1 & Hna1 & Hacc); [|apply Hd0|apply Hat0].
  pose proof (drops_trans _ _ _ _ _ Hd0 Hd1) as Hd.
  pose proof (write_account k1 na na1 (proj1 Hd)) as Hw.
  assert (Hd2 : drops (naBond na1 - naBond na) k1 (SetNodeAccount k1 na1)).
  { apply Hw; [by eapply node_at_frame|by rewrite Hna1|done|by rewrite Hna1|by rewrite Hna1]. }
  pose proof (drops_trans _ _ _ _ _ Hd Hd2) as Hfin. simpl in Hfin.
  destruct Hfin as (Hk' & Hg' & Hs'). split; [done|]. split; [rewrite Hg'; lia|done].
Qed.
End bond_lemmas.
