(* ===== verification/SwapCheck.v ===== *)
(** The checks a swap passes before it runs: [MsgSwap.ValidateBasic] of
    [x/thorchain/types/msg_swap.go], [SwapHandler.validate] of
    [x/thorchain/handler_swap.go], [IsModuleAccAddress] of [helpers.go] and
    [fuzzyAssetMatch] of [handler.go]. *)
From S2P Require Import Prelude SdkMath GoStr Keys Shares Chains Assets Coins Bank Nodes Txs.
From S2P Require Import Decimal MemoTypes Voters Mimir Observed Pools Streaming Vaults Keeper LimitIndex VaultStore NodeStore Halt SwapCalc Swaps Settle SwapQueue Bonds Liquidity Helpers.
Local Open Scope string_scope.
Local Open Scope Z_scope.

(** The components outside the model the handlers of swaps and liquidity need:
    [ParseMemoWithTHORNames], the addresses of the module accounts, and
    [getMsgAddLiquidityFromMemo]. *)
Record HandlerEnv (St : Type) := mkHandlerEnv {
  heLiquidity : LiquidityEnv St;
  heParseMemo : string -> St -> Memo * goerr;
  heModuleAccAddress : string -> AccAddress;
  heAddLiquidityMsg : AddLiquidityMemo -> Tx -> AccAddress -> outcome MsgAddLiquidity
}.
Arguments mkHandlerEnv {St}.
Arguments heLiquidity {St}.
Arguments heParseMemo {St}.
Arguments heModuleAccAddress {St}.
Arguments heAddLiquidityMsg {St}.

Definition MaxAffiliateFeeBasisPoints : Z := 1000.

Definition affiliate_too_high : string := "affiliate fee basis points can't be more than 1000".

(** The other module accounts, of [x/thorchain/types]. *)
Definition LendingName : string := "lending".
Definition AffiliateCollectorName : string := "affiliate_collector".
Definition TCYStakeName : string := "tcy_stake".
Definition TreasuryName : string := "treasury".

(** [sourceCoin.Amount = swp.Deposit] on the copied coin. *)
Definition coin_with_amount (c : Coin) (amount : Z) : Coin := mkCoin (cAsset c) amount (cDecimals c).

(** *** handler.go: [fuzzyAssetMatch] *)

(** [strings.Split(symbol, "-")[1]], when there is such a part. *)
Definition symbol_id (symbol : string) : option string :=
  match split_on "-" symbol with
  | _ :: id :: _ => if String.eqb id "" then None else Some (to_lower id)
  | _ => None
  end.

Section swap_check.
Context {B : Type} `{Bank B} {K : SdkKeys} {S : SdkMath}.
Context (env : HandlerEnv (KVStore B)).
Abbreviation Store := (KVStore B) (only parsing).
Abbreviation lenv := (heLiquidity env) (only parsing).
Abbreviation qenv := (leQueue (heLiquidity env)) (only parsing).

(** The last of the deepest pools that match. *)
Definition fuzzy_match (asset : Asset) (id : option string) (pool : Pool) : bool :=
  Chain_Equals (aChain asset) (aChain (plAsset pool)) &&
  Ticker_Equals (aTicker asset) (aTicker (plAsset pool)) &&
  match id with
  | None => true
  | Some id => has_suffix (to_lower (aSymbol (plAsset pool))) id
  end.

Definition fuzzyAssetMatch (k : Store) (origAsset : Asset) : Asset :=
  let asset := GetLayer1Asset origAsset in
  if negb (BalanceDeca (GetPool k asset) =? 0) then origAsset
  else
    let id := symbol_id (aSymbol asset) in
    let winner := foldl (fun winner pool =>
      if fuzzy_match asset id pool && (fst winner <=? BalanceDeca pool)
      then (BalanceDeca pool, aSymbol (plAsset pool)) else winner)
      (0, aSymbol origAsset) (GetPools k) in
    mkAsset (aChain origAsset) (snd winner) (aTicker origAsset) (aSynth origAsset)
      (aTrade origAsset) (aSecured origAsset).

(** *** helpers.go *)
Definition IsModuleAccAddress (accAddr : AccAddress) : bool :=
  existsb (fun name => acc_equals accAddr (heModuleAccAddress env name))
    [AsgardName; BondName; ReserveName; LendingName; AffiliateCollectorName; ModuleName;
     TCYClaimingName; TCYStakeName; TreasuryName].

(** *** msg_swap.go *)
Definition MsgSwap_ValidateBasic (m : MsgSwap) : goerr :=
  if acc_empty (mSigner m) then Some (acc_string (mSigner m))
  else match Tx_Valid (mTx m) with Some e => Some e | None =>
    if Asset_IsEmpty (TargetAsset m) then Some "swap Target cannot be empty"
    else if (1 <? len (txCoins (mTx m))) then Some "not expecting multiple coins in a swap"
    else if Coins_IsEmpty (txCoins (mTx m)) then Some "swap coin cannot be empty"
    else if existsb (fun c => Asset_Equals (cAsset c) (TargetAsset m)) (txCoins (mTx m)) then
      Some "swap Source and Target cannot be the same."
    else if Address_IsEmpty (Destination m) then Some "swap Destination cannot be empty"
    else if Address_IsEmpty (AffiliateAddress m) && negb (AffiliateBasisPoints m =? 0) then
      Some "swap affiliate address is empty while affiliate basis points is non-zero"
    else if negb (AffiliateBasisPoints m =? 0) &&
            (MaxAffiliateFeeBasisPoints <? AffiliateBasisPoints m) then Some affiliate_too_high
    else if negb (IsNoop (Destination m)) &&
            negb (is_chain lenv (Destination m) (GetChain (TargetAsset m))) then
      Some "swap destination address is not the same chain as the target asset"
    else if negb (Address_IsEmpty (AffiliateAddress m)) && negb (is_thor lenv (AffiliateAddress m)) then
      Some "swap affiliate address must be a THOR address"
    else if negb (String.eqb (mAggregator m) "") && String.eqb (AggregatorTargetAddress m) "" then
      Some "aggregator target asset address is empty"
    else if negb (String.eqb (AggregatorTargetAddress m) "") && String.eqb (mAggregator m) "" then
      Some "aggregator is empty"
    else None
  end.

(** *** handler_swap.go: the stages of [validate] *)

(** What a memo from outside may not ask for; a memo that does not parse is
    taken for an internal one, unless the parser made a swap memo of it. *)
Definition check_memo (k : Store) (msg : MsgSwap) : outcome unit :=
  let target := TargetAsset msg in
  match (heParseMemo env (txMemo (mTx msg)) k).1 with
  | MSwap mem =>
      let destination := smDestination mem in
      _ ←
        (match AccAddress_of destination with
         | Ok destAccAddr =>
             if IsModuleAccAddress destAccAddr &&
                negb (IsDeca target && acc_equals destAccAddr (heModuleAccAddress env ReserveName))
             then Err "a network module cannot be the final destination of a swap memo"
             else Ok tt
         | Err _ => Ok tt
         | Panic => Panic
         end);
      if IsSyntheticAsset target && (0 <? liq_config lenv k "ManualSwapsToSynthDisabled") then
        Err "manual swaps to synths not supported, use trade assets instead"
      else Ok tt
  | _ => Ok tt
  end.

(** Derived assets are for the protocol only, unless enabled. *)
Definition check_derived (k : Store) (msg : MsgSwap) (source : Asset) : goerr :=
  if (IsDerivedAsset (TargetAsset msg) || IsDerivedAsset source) &&
     (liq_config lenv k "EnableDerivedAssets" =? 0) &&
     (negb (Address_Equals (txFrom (mTx msg)) NoopAddress) &&
      negb (Address_Equals (txTo (mTx msg)) NoopAddress) &&
      negb (Address_Equals (Destination msg) NoopAddress))
  then Some ("swapping to/from a derived asset is not allowed, except for lending (" ++
    txFrom (mTx msg) ++ " or " ++ Destination msg ++ ")")
  else None.

Definition check_aggregator (k : Store) (msg : MsgSwap) : outcome unit :=
  if negb (String.eqb (mAggregator msg) "") then
    if 0 <? liq_config lenv k "SwapOutDexAggregationDisabled" then
      Err "swap out dex integration disabled"
    else if negb (Asset_Equals (TargetAsset msg) (GetGasAsset (aChain (TargetAsset msg)))) then
      Err ("target asset (" ++ Asset_String (TargetAsset msg) ++
        ") is not gas asset , can't use dex feature")
    else
      addr ← FetchDexAggregator (qeDexAggregators qenv) (aChain (TargetAsset msg)) (mAggregator msg);
      if String.eqb addr "" then Err "aggregator address is empty"
      else if String.eqb (AggregatorTargetAddress msg) "" then Err "aggregator target address is empty"
      else Ok tt
  else Ok tt.

Definition check_native (target : Asset) : goerr :=
  let native := Asset_IsNative (GetLayer1Asset target) in
  if IsSyntheticAsset target && native then
    Some "minting a synthetic of a native coin is not allowed"
  else if IsTradeAsset target && native then
    Some "swapping to a trade asset of a native coin is not allowed"
  else if IsSecuredAsset target && native then
    Some "swapping to a secured asset of a native coin is not allowed"
  else None.

(** The coin whose value is capped: that of the whole legacy streaming swap
    before its first sub-swap, and none after. *)
Definition check_legacy (k : Store) (msg : MsgSwap) (sourceCoin : Coin) : outcome (option Coin) :=
  if IsLegacyStreaming msg then
    if 0 <? liq_config lenv k "StreamingSwapPause" then Err "streaming swaps are paused"
    else
      match List.find (fun asset => 0 <? GetMimir k ("RAGNAROK-" ++ MimirString asset))
              [cAsset sourceCoin; TargetAsset msg] with
      | Some asset => Err ("streaming swaps disabled on ragnarok asset " ++ Asset_String asset)
      | None =>
          swp ← Streaming.GetStreamingSwap msg;
          let swp := if StreamingSwapExists k (txID (mTx msg))
                     then Keeper.GetStreamingSwap k (txID (mTx msg)) else swp in
          if ((0 <? ssQuantity swp) && StreamingSwap_IsDone swp) || (ssDeposit swp <=? ssIn swp) then
            Err "streaming swap is completed, cannot continue to swap again"
          else if 0 <? ssCount swp then Ok None
          else Ok (Some (coin_with_amount sourceCoin (ssDeposit swp)))
      end
  else Ok (Some sourceCoin).

(** The synths a swap is expected to mint, by the formula without slip. *)
Definition expected_synths (k : Store) (sourceCoin : Coin) (target : Asset) : outcome Z :=
  runeAmount ←
    (if Coin_IsDeca sourceCoin then Ok (cAmount sourceCoin)
     else
       let sourceAssetPool :=
         if IsSyntheticAsset (cAsset sourceCoin) then GetLayer1Asset (cAsset sourceCoin)
         else cAsset sourceCoin in
       let sourcePool := GetPool k sourceAssetPool in
       CalcAssetEmission (BalanceAsset sourcePool) (cAmount sourceCoin) (BalanceDeca sourcePool));
  let targetPool := GetPool k (GetLayer1Asset target) in
  CalcAssetEmission (BalanceDeca targetPool) runeAmount (BalanceAsset targetPool).

(** The caps on the liquidity, the synths and the value locked. *)
Definition check_synth (k : Store) (target : Asset) (sourceCoin : Coin) : outcome unit :=
  total ← wrap_err "fail to get total liquidity RUNE: " (getTotalLiquidityRUNE k);
  runeVal ←
    (if Coin_IsDeca sourceCoin then Ok (cAmount sourceCoin)
     else AssetValueInRune (GetPool k (GetLayer1Asset (cAsset sourceCoin))) (cAmount sourceCoin));
  total ← uint_add total runeVal;
  let maximum := liq_config lenv k "MaximumLiquidityDeca" in
  if (0 <? maximum) && (u64 maximum <? total) then
    Err "add liquidity rune is over limit"
  else
    targetAmount ← expected_synths k sourceCoin target;
    _ ← isSynthMintPaused lenv k target targetAmount;
    if leStrictBondRatio lenv && negb (IsSyntheticAsset (cAsset sourceCoin)) then
      full ← atTVLCap lenv k [sourceCoin];
      if (full : bool) then Err "add liquidity rune is more than bond" else Ok tt
    else Ok tt.

Definition validateSwap (k : Store) (msg : MsgSwap) : outcome unit :=
  _ ← check (MsgSwap_ValidateBasic msg);
  _ ← check_memo k msg;
  if IsTradingHalt k (SwapMsg msg) then Err "trading is halted, can't process swap"
  else
    match txCoins (mTx msg) with
    | [] => Panic
    | sourceCoin :: _ =>
        _ ← check (check_derived k msg (cAsset sourceCoin));
        _ ← check_aggregator k msg;
        _ ← check (check_native (TargetAsset msg));
        capped ← check_legacy k msg sourceCoin;
        match capped with
        | Some sourceCoin =>
            if IsSyntheticAsset (TargetAsset msg) then check_synth k (TargetAsset msg) sourceCoin
            else Ok tt
        | None => Ok tt
        end
    end.
End swap_check.
