(* ===== verification/LiquidityMsgs.v ===== *)
(** The handlers of the liquidity messages, checks included:
    [x/thorchain/handler_add_liquidity.go], [handler_withdraw.go] and
    [handler_donate.go], with [ValidateBasic] of their messages in
    [x/thorchain/types].

    The arithmetic of [addLiquidity] and [withdraw] is in Liquidity; events and
    telemetry are left out.  A handler that fails leaves no write behind, since
    the transaction is dropped with its cached context. *)
From S2P Require Import Prelude SdkMath GoStr Keys Shares Chains Assets Coins Bank Nodes Txs.
From S2P Require Import Decimal MemoTypes Voters Mimir Observed Pools Streaming Vaults Keeper LimitIndex VaultStore NodeStore Halt SwapCalc Swaps Settle SwapQueue Bonds Liquidity LiquidityProps Helpers SwapCheck.
Local Open Scope string_scope.
Local Open Scope Z_scope.

Definition with_memo (tx : Tx) (memo : string) : Tx :=
  mkTx (txID tx) (txChain tx) (txFrom tx) (txTo tx) (txCoins tx) (txGas tx) memo.

Definition errAddLiquidityFailValidation : string := "fail to validate add liquidity".
Definition errAddLiquidityRUNEOverLimit : string := "add liquidity rune is over limit".
Definition errAddLiquidityRUNEMoreThanBond : string := "add liquidity rune is more than bond".
Definition errInvalidPoolStatus : string := "invalid pool status".

Section handlers.
Context {B : Type} `{Bank B} {K : SdkKeys} {S : SdkMath}.
Context (env : HandlerEnv (KVStore B)).
Abbreviation Store := (KVStore B) (only parsing).
Abbreviation lenv := (heLiquidity env) (only parsing).
Abbreviation qenv := (leQueue (heLiquidity env)) (only parsing).

(** ** ValidateBasic *)
Definition MsgAddLiquidity_ValidateBasic (m : MsgAddLiquidity) : goerr :=
  if acc_empty (alSigner m) then Some (acc_string (alSigner m))
  else if Asset_IsEmpty (alAsset m) then Some "add liquidity asset cannot be empty"
  else match Tx_Valid (alTx m) with Some e => Some e | None =>
    if IsDeca (alAsset m) then Some "asset cannot be rune"
    else if (len (txCoins (alTx m)) =? 2) && ((alAssetAmount m =? 0) || (alRuneAmount m =? 0)) then
      Some "did not find both coins"
    else if 2 <? len (txCoins (alTx m)) then
      Some "not expecting more than two coins in adding liquidity"
    else if Address_IsEmpty (alDecaAddress m) && Address_IsEmpty (alAssetAddress m) then
      Some "rune address and asset address cannot be empty"
    else if Address_IsEmpty (alAffiliateAddress m) && negb (alAffiliateBasisPoints m =? 0) then
      Some "affiliate address is empty while affiliate basis points is non-zero"
    else if negb (alAffiliateBasisPoints m =? 0) &&
            (MaxAffiliateFeeBasisPoints <? alAffiliateBasisPoints m) then Some affiliate_too_high
    else if IsSecuredAsset (alAsset m) then
      if Address_IsEmpty (alAssetAddress m) then Some "asset address cannot be empty"
      else if Address_IsEmpty (alDecaAddress m) then Some "rune address cannot be empty"
      else if negb (is_thor lenv (alAssetAddress m)) then Some "asset address must be thor address"
      else None
    else None
  end.

(** A request to withdraw needs no coins. *)
Definition MsgWithdrawLiquidity_ValidateBasic (m : MsgWithdrawLiquidity) : goerr :=
  if acc_empty (wlSigner m) then Some (acc_string (wlSigner m))
  else if TxID_IsEmpty (txID (wlTx m)) then Some "tx id cannot be empty"
  else if Asset_IsEmpty (wlAsset m) then Some "pool asset cannot be empty"
  else if IsDeca (wlAsset m) then Some "asset cannot be rune"
  else if Address_IsEmpty (wlWithdrawAddress m) then Some "address cannot be empty"
  else if wlBasisPoints m =? 0 then Some "basis points can't be zero"
  else if MaxWithdrawBasisPoints <? wlBasisPoints m then
    Some "basis points is larger than maximum withdraw basis points"
  else if negb (Asset_IsEmpty (wlWithdrawalAsset m)) && negb (IsDeca (wlWithdrawalAsset m)) &&
          negb (Asset_Equals (wlWithdrawalAsset m) (wlAsset m)) then
    Some "withdrawal asset must be empty, rune, or pool asset"
  else None.

Definition MsgDonate_ValidateBasic (m : MsgDonate) : goerr :=
  if acc_empty (doSigner m) then Some (acc_string (doSigner m))
  else if Asset_IsEmpty (doAsset m) then Some "donate asset cannot be empty"
  else if IsDeca (doAsset m) then Some "asset cannot be rune"
  else if (doRuneAmount m =? 0) && (doAssetAmount m =? 0) then
    Some "rune and asset amount cannot be zero"
  else Tx_Valid (doTx m).

(** ** handler_add_liquidity.go *)

Definition needsSwap (msg : MsgAddLiquidity) : bool :=
  match txCoins (alTx msg) with
  | [c] => negb (Coin_IsDeca c) && negb (Asset_Equals (alAsset msg) (cAsset c))
  | _ => false
  end.

(** The pool of the gas asset has to be there first. *)
Definition check_gas_pool (k : Store) (asset : Asset) : goerr :=
  let gasAsset := GetGasAsset (GetChain (GetLayer1Asset asset)) in
  if negb (Asset_Equals asset gasAsset) && negb (IsTCY asset) && negb (IsWhitelisted asset) &&
     Pool_IsEmpty (GetPool k gasAsset)
  then Some ("asset (" ++ Asset_String asset ++ ")'s gas asset pool (" ++ Asset_String gasAsset ++
    ") does not exist yet")
  else None.

(** Savers: gas assets and anchors of TOR, from an address of the asset's chain. *)
Definition check_saver (k : Store) (msg : MsgAddLiquidity) : goerr :=
  if IsSyntheticAsset (alAsset msg) then
    let layer1 := GetLayer1Asset (alAsset msg) in
    let isAnchorAsset := existsb (fun asset => Asset_Equals layer1 asset) (GetAnchors k TOR) in
    if negb (IsGasAsset layer1) && negb isAnchorAsset then
      Some "asset must be a gas asset or TOR anchor pool"
    else if negb (is_chain lenv (alAssetAddress msg) (GetChain layer1)) then
      Some "asset address must be layer1 chain"
    else if negb (alRuneAmount msg =? 0) then Some "cannot deposit rune into a vault"
    else None
  else None.

(** Who adds a secured asset owns it. *)
Definition check_secured (msg : MsgAddLiquidity) : outcome unit :=
  if IsSecuredAsset (alAsset msg) && negb (alAssetAmount msg =? 0) then
    runeAccAddr ← wrap_err "invalid rune address for secured asset: "
      (AccAddress_of (alDecaAddress msg));
    if negb (acc_equals runeAccAddr (alSigner msg)) then
      Err ("signer " ++ acc_string (alSigner msg) ++ " not authorized to withdraw secured assets from " ++
        alDecaAddress msg)
    else Ok tt
  else Ok tt.

(** The asset address is on the chain of the asset (THORChain for a secured
    one), and protocol-owned liquidity has none. *)
Definition check_asset_address (msg : MsgAddLiquidity) : outcome unit :=
  if negb (Address_IsEmpty (alAssetAddress msg)) then
    let chain := if IsSecuredAsset (alAsset msg) then THORChain
                 else GetChain (GetLayer1Asset (alAsset msg)) in
    if negb (is_chain lenv (alAssetAddress msg) chain) then Err errAddLiquidityMismatchAddr
    else
      polAddress ← leModuleAddress lenv ReserveName;
      if Address_Equals (alDecaAddress msg) polAddress then Err "pol lp cannot have asset address"
      else Ok tt
  else Ok tt.

Definition check_swap_and_add (msg : MsgAddLiquidity) : goerr :=
  if needsSwap msg then
    if negb (IsSyntheticAsset (alAsset msg)) then
      Some "swap & add liquidity is only available for synthetic pools"
    else if negb (existsb (fun c => Asset_Equals (GetLayer1Asset (alAsset msg)) (cAsset c))
                    (txCoins (alTx msg))) then
      Some "deposit asset must be the layer1 equivalent for the synthetic asset"
    else None
  else None.

Definition check_paused (k : Store) (asset : Asset) : goerr :=
  if IsChainHalted k (aChain asset) || IsLPPaused k (aChain asset) then
    Some "unable to add liquidity while chain has paused LP actions"
  else if IsPoolDepositPaused k asset then
    Some ("unable to add liquidity, deposits are paused for asset (" ++ Asset_String asset ++ ")")
  else None.

(** Economic security, on networks that are strict about it. *)
Definition check_security (k : Store) (msg : MsgAddLiquidity) (pool : Pool) : outcome unit :=
  if IsSyntheticAsset (alAsset msg) || negb (leStrictBondRatio lenv) then Ok tt
  else
    total ← wrap_err "fail to get total liquidity RUNE: " (getTotalLiquidityRUNE k);
    total ← uint_add total (alRuneAmount msg);
    v ← AssetValueInRune pool (alAssetAmount msg);
    total ← uint_add total v;
    let maximum := liq_config lenv k "MaximumLiquidityDeca" in
    if (0 <? maximum) && (u64 maximum <? total) then Err errAddLiquidityRUNEOverLimit
    else
      full ← atTVLCap lenv k [NewCoin DecaAsset (alRuneAmount msg);
                               NewCoin (alAsset msg) (alAssetAmount msg)];
      if (full : bool) then Err errAddLiquidityRUNEMoreThanBond else Ok tt.

Definition add_validate (k : Store) (msg : MsgAddLiquidity) : outcome unit :=
  _ ← (if negb (TxID_IsBlank (txID (alTx msg))) then
         match MsgAddLiquidity_ValidateBasic msg with
         | Some _ => Err errAddLiquidityFailValidation
         | None => Ok tt
         end
       else Ok tt);
  if IsTradeAsset (alAsset msg) then Err "asset cannot be a trade asset"
  else if negb (Address_IsEmpty (alAssetAddress msg)) &&
          negb (leSameNetwork lenv (alAssetAddress msg)) then
    Err ("address(" ++ alAssetAddress msg ++ ") is not same network")
  else if IsRagnarok k [alAsset msg] then
    Err ("cannot add liquidity to Ragnaroked pool (" ++ Asset_String (alAsset msg) ++ ")")
  else
    _ ← check (check_gas_pool k (alAsset msg));
    if IsDerivedAsset (alAsset msg) then Err "asset cannot be a derived asset"
    else
      _ ← check (check_saver k msg);
      if negb (Address_IsEmpty (alDecaAddress msg)) && negb (is_thor lenv (alDecaAddress msg)) then
        Err errAddLiquidityFailValidation
      else
        _ ← check_secured msg;
        _ ← check_asset_address msg;
        _ ← check (check_swap_and_add msg);
        let pool := GetPool k (alAsset msg) in
        match EnsureValidPoolStatus pool false with
        | Some _ => Err errInvalidPoolStatus
        | None =>
            _ ← check (check_paused k (alAsset msg));
            check_security k msg pool
        end.

(** A swap to the synth comes first; the rest follows when it has run. *)
Definition add_swap (k : Store) (msg : MsgAddLiquidity) : outcome Store :=
  if HasSwapQueueItem k (txID (alTx msg)) 0 then Err "txn hash conflict"
  else if has_char ":" (Asset_String (alAsset msg) ++ alAffiliateAddress msg) then
    Err "illegal character"
  else
    bps ← uint64_or_panic (alAffiliateBasisPoints msg);
    let memo := "+:" ++ Asset_String (alAsset msg) ++ "::" ++ alAffiliateAddress msg ++ ":" ++ itoa bps in
    let ssInterval := liq_config lenv k "SaversStreamingSwapsInterval" in
    let ssInterval := if ssInterval <=? 0 then 0 else ssInterval in
    let version := if AdvSwapQueueEnabled (swap_env qenv) k then SwapVersion_v2 else SwapVersion_v1 in
    swapMsg ← NewMsgSwap (with_memo (alTx msg) memo) (alAsset msg) NoopAddress 0 NoAddress 0 "" ""
      None SwapType_market 0 (u64 ssInterval) version (alSigner msg);
    _ ← validateSwap env k swapMsg;
    Ok (SetSwapQueueItem k swapMsg 0).

(** A pool that is not there yet is created, staged or not by the asset. *)
Definition create_pool (k : Store) (msg : MsgAddLiquidity) (pool : Pool) : outcome (Store * Pool) :=
  if Pool_IsEmpty pool then
    let asset := alAsset msg in
    let status :=
      if negb (Asset_Equals asset (GetGasAsset (GetChain asset))) && negb (IsSyntheticAsset asset)
      then leDefaultPoolStatus lenv else "Available" in
    let pool := with_pool_status (with_pool_asset pool asset) (GetPoolStatus status) in
    k ← wrap_err "fail to save pool to key value store: " (SetPool k pool);
    Ok (k, pool)
  else Ok (k, pool).

(** The decimals of the pool are set once, from the coin. *)
Definition set_decimals (k : Store) (msg : MsgAddLiquidity) (pool : Pool) : outcome Store :=
  if plDecimals pool =? 0 then
    let coin := Coins_GetCoin (txCoins (alTx msg)) (plAsset pool) in
    if negb (Coin_IsEmpty coin) && (0 <? cDecimals coin) then
      wrap_err "fail to save pool to key value store: "
        (SetPool k (with_pool_decimals pool (cDecimals coin)))
    else Ok k
  else Ok k.

(** Whether to wait for the other half. *)
Definition add_stage (msg : MsgAddLiquidity) : bool :=
  negb (IsSyntheticAsset (alAsset msg)) && negb (TxID_IsBlank (txID (alTx msg))) &&
  ((negb (Address_IsEmpty (alAssetAddress msg)) && (alAssetAmount msg =? 0)) ||
   (negb (Address_IsEmpty (alDecaAddress msg)) && (alRuneAmount msg =? 0))).

(** The affiliate's part is added as a position of its own. *)
Definition add_shares (k : Store) (msg : MsgAddLiquidity) (stage : bool) : outcome Store :=
  if alAffiliateBasisPoints msg =? 0 then
    addLiquidity lenv k (alAsset msg) (alRuneAmount msg) (alAssetAmount msg) (alDecaAddress msg)
      (alAssetAddress msg) (txID (alTx msg)) stage
  else
    affiliateRune ← GetSafeShare (alAffiliateBasisPoints msg) 10000 (alRuneAmount msg);
    affiliateAsset ← GetSafeShare (alAffiliateBasisPoints msg) 10000 (alAssetAmount msg);
    userRune ← SafeSub (alRuneAmount msg) affiliateRune;
    userAsset ← SafeSub (alAssetAmount msg) affiliateAsset;
    k ← addLiquidity lenv k (alAsset msg) userRune userAsset (alDecaAddress msg)
          (alAssetAddress msg) (txID (alTx msg)) stage;
    let thor := is_thor lenv (alAffiliateAddress msg) in
    addLiquidity lenv k (alAsset msg) affiliateRune affiliateAsset
      (if thor then alAffiliateAddress msg else NoAddress)
      (if thor then NoAddress else alAffiliateAddress msg) (txID (alTx msg)) false.

Definition add_handle (k : Store) (msg : MsgAddLiquidity) : outcome Store :=
  if needsSwap msg then add_swap k msg
  else
    let asset := if IsSecuredAsset (alAsset msg) then GetLayer1Asset (alAsset msg) else alAsset msg in
    '(k, pool) ← create_pool k msg (GetPool k asset);
    k ← set_decimals k msg pool;
    add_shares k msg (add_stage msg).

Definition add_Run (k : Store) (msg : MsgAddLiquidity) : outcome Store :=
  _ ← add_validate k msg;
  add_handle k msg.

(** ** handler_withdraw.go *)

Definition withdraw_validate (k : Store) (msg : MsgWithdrawLiquidity) : outcome unit :=
  match MsgWithdrawLiquidity_ValidateBasic msg with
  | Some _ => Err "fail to validate withdraw"
  | None =>
      if IsSyntheticAsset (wlAsset msg) && (0 <? liq_config lenv k "BurnSynths") then
        Err "burning synths is disabled, unable to withdraw to savers"
      else if IsDerivedAsset (wlAsset msg) then
        Err "cannot withdraw from a derived asset virtual pool"
      else
        let pool := GetPool k (wlAsset msg) in
        match EnsureValidPoolStatus pool false with
        | Some e => Err (errInvalidPoolStatus ++ ": " ++ e)
        | None =>
            if negb (IsAvailable pool) && negb (Asset_IsEmpty (wlWithdrawalAsset msg)) &&
               negb (TxID_Equals (txID (wlTx msg)) BlankTxID) then
              Err "cannot specify a withdrawal asset while the pool is not available"
            else if IsChainHalted k (aChain (wlAsset msg)) || IsLPPaused k (aChain (wlAsset msg)) then
              Err "unable to withdraw liquidity while chain is halted or paused LP actions"
            else Ok tt
        end
  end.

(** The asset goes out as a swap when the provider's address is not on its
    chain. *)
Definition withdraw_swap (k : Store) (msg : MsgWithdrawLiquidity) (coin : Coin) (addr : Address) :
    outcome Store :=
  if HasSwapQueueItem k (txID (wlTx msg)) 0 then Err "txn hash conflict"
  else
    let targetAsset := GetLayer1Asset (wlAsset msg) in
    let ssInterval := liq_config lenv k "SaversStreamingSwapsInterval" in
    let ssInterval := if ssInterval <=? 0 then 0 else ssInterval in
    let ssInterval := if 0 <? GetMimir k ("RAGNAROK-" ++ MimirString targetAsset) then 0 else ssInterval in
    let memo := "=:" ++ Asset_String targetAsset ++ ":" ++ addr in
    let tx := mkTx (txID (wlTx msg)) (txChain (wlTx msg)) (txFrom (wlTx msg)) (txTo (wlTx msg))
                [coin] (txGas (wlTx msg)) memo in
    let version := if AdvSwapQueueEnabled (swap_env qenv) k then SwapVersion_v2 else SwapVersion_v1 in
    swapMsg ← NewMsgSwap tx targetAsset addr 0 NoAddress 0 "" "" None SwapType_market 0
      (u64 ssInterval) version (wlSigner msg);
    _ ← validateSwap env k swapMsg;
    Ok (SetSwapQueueItem k swapMsg 0).

(** [transfer] of [handle]: the gas kept back pays for the outbound. *)
Definition withdraw_transfer (k : Store) (msg : MsgWithdrawLiquidity) (gasAsset : Z) (memo : string)
    (coin : Coin) (addr : Address) : outcome Store :=
  let chain := GetChain (wlAsset msg) in
  '(maxGas, gasRate) ←
    (if negb (gasAsset =? 0) then
       rate ← uint64_or_panic (leGasRate lenv chain k);
       Ok (if Asset_Equals (GetGasAsset chain) (wlAsset msg)
           then [NewCoin (GetGasAsset chain) gasAsset] else [], i64 rate)
     else Ok ([], 0));
  let toi := mkTxOutItem (GetChain (cAsset coin)) addr "" coin memo "" maxGas gasRate
    (txID (wlTx msg)) "" "" "" "" None None "" in
  match qeTryAddTxOutItem qenv toi 0 k with
  | (k, Ok true) => Ok k
  | (_, Ok false) => Err "prepare outbound tx not successful"
  | (_, Err e) => Err ("prepare outbound tx not successful: " ++ e)
  | (_, Panic) => Panic
  end.

Definition withdraw_asset_out (k : Store) (msg : MsgWithdrawLiquidity) (lp : LiquidityProvider)
    (assetAmt gasAsset : Z) (memo : string) : outcome Store :=
  let withdrawToSecuredAsset :=
    negb (Asset_IsNative (wlAsset msg)) && is_thor lenv (AssetAddress lp) in
  if negb (assetAmt =? 0) && negb withdrawToSecuredAsset then
    let coin := NewCoin (wlAsset msg) assetAmt in
    if negb (IsDeca (wlAsset msg)) &&
       negb (is_chain lenv (AssetAddress lp) (GetChain (wlAsset msg)))
    then withdraw_swap k msg coin (AssetAddress lp)
    else withdraw_transfer k msg gasAsset memo coin (AssetAddress lp)
  else Ok k.

Definition withdraw_rune_out (k : Store) (msg : MsgWithdrawLiquidity) (lp : LiquidityProvider)
    (runeAmt gasAsset : Z) (memo : string) : outcome Store :=
  if negb (runeAmt =? 0) then
    k ← withdraw_transfer k msg gasAsset memo (NewCoin DecaAsset runeAmt) (DecaAddress lp);
    polAddress ← leModuleAddress lenv ReserveName;
    if Address_Equals polAddress (DecaAddress lp) then
      let pol := GetPOL k in
      withdrawn ← uint_add (polRuneWithdrawn pol) runeAmt;
      Ok (SetPOL k (mkProtocolOwnedLiquidity (polRuneDeposited pol) withdrawn))
    else Ok k
  else Ok k.

(** keeper_reserve_contributors.go *)
Definition AddPoolFeeToReserve (k : Store) (fee : Z) : outcome Store :=
  wrap_err "fail to send pool fee to reserve: "
    (SendFromModuleToModule k AsgardName ReserveName (NewCoin DecaNative fee)).

(** Coins sent along go to their pools. *)
Fixpoint donate_coins (k : Store) (coins : list Coin) : outcome Store :=
  match coins with
  | [] => Ok k
  | c :: coins' =>
      if Coin_IsEmpty c || bool_decide (cAsset c = DecaAsset) then donate_coins k coins'
      else
        let pool := GetPool k (cAsset c) in
        if Pool_IsEmpty pool then donate_coins k coins'
        else
          balance ← uint_add (BalanceAsset pool) (cAmount c);
          k ← wrap_err "fail to save pool to key value store: "
                (SetPool k (with_balances pool (BalanceDeca pool) balance));
          donate_coins k coins'
  end.

Definition withdraw_handle (k : Store) (msg : MsgWithdrawLiquidity) : outcome Store :=
  let lp := GetLiquidityProvider k (is_thor lenv) (wlAsset msg) (wlWithdrawAddress msg) in
  '(k, runeAmt, assetAmt, _, gasAsset) ←
    wrap_err "fail to process withdraw request: " (withdraw lenv k msg);
  let memo := if TxID_Equals (txID (wlTx msg)) BlankTxID then "RAGNAROK:" ++ itoa (kHeight k) else "" in
  k ← withdraw_asset_out k msg lp assetAmt gasAsset memo;
  k ← withdraw_rune_out k msg lp runeAmt gasAsset memo;
  let reserveCoin := Coins_GetCoin (txCoins (wlTx msg)) DecaAsset in
  k ← (if negb (Coin_IsEmpty reserveCoin) then AddPoolFeeToReserve k (cAmount reserveCoin) else Ok k);
  donate_coins k (txCoins (wlTx msg)).

Definition withdraw_Run (k : Store) (msg : MsgWithdrawLiquidity) : outcome Store :=
  _ ← withdraw_validate k msg;
  withdraw_handle k msg.

(** ** handler_donate.go *)

Definition donate_validate (msg : MsgDonate) : outcome unit :=
  _ ← check (MsgDonate_ValidateBasic msg);
  if negb (IsDeca (doAsset msg)) && Asset_IsNative (doAsset msg) then Err "invalid message"
  else Ok tt.

Definition donate_Run (k : Store) (msg : MsgDonate) : outcome Store :=
  _ ← donate_validate msg;
  donate_handle k msg.
End handlers.
