(* ===== verification/SwapHandler.v ===== *)
(** The swap handler of [x/thorchain/handler_swap.go]: [handleWithEmit] and
    [RunWithEmit], and the advanced queue run with it in place of a parameter.

    The message is handed over by value, but its coins are a slice the caller
    shares: for a legacy streaming swap the amount of the first coin stays
    changed for the caller, which the legacy queue undoes. *)
From S2P Require Import Prelude SdkMath GoStr Keys Shares Chains Assets Coins Bank Nodes Txs.
From S2P Require Import Decimal MemoTypes Voters Mimir Observed Pools Streaming SwapSort SwapCalc Vaults Keeper.
From S2P Require Import LimitIndex Halt VaultStore NodeStore Swaps Settle SwapQueue QueueProps Bonds Liquidity LiquidityProps Helpers SwapCheck LiquidityMsgs.
Local Open Scope string_scope.
Local Open Scope Z_scope.

Definition with_interval (m : StreamingSwap) (v : Z) : StreamingSwap :=
  mkStreamingSwap (ssTxID m) v (ssQuantity m) (ssCount m) (ssLastHeight m) (ssTradeTarget m)
    (ssDeposit m) (ssIn m) (ssOut m) (ssFailedSwaps m) (ssFailedSwapReasons m).
Definition with_quantity (m : StreamingSwap) (v : Z) : StreamingSwap :=
  mkStreamingSwap (ssTxID m) (ssInterval m) v (ssCount m) (ssLastHeight m) (ssTradeTarget m)
    (ssDeposit m) (ssIn m) (ssOut m) (ssFailedSwaps m) (ssFailedSwapReasons m).

(** The record of a swap of the advanced queue is kept in the message. *)
Definition with_swap_state (m : StreamingSwap) (st : SwapState) : StreamingSwap :=
  mkStreamingSwap (ssTxID m) (stInterval st) (stQuantity st) (stCount st) (ssLastHeight m)
    (ssTradeTarget m) (stDeposit st) (stIn st) (stOut st) (ssFailedSwaps m) (ssFailedSwapReasons m).

Section swap_handler.
Context {B : Type} `{Bank B} {K : SdkKeys} {S : SdkMath}.
Context (env : HandlerEnv (KVStore B)).
Abbreviation Store := (KVStore B) (only parsing).
Abbreviation lenv := (heLiquidity env) (only parsing).
Abbreviation qenv := (leQueue (heLiquidity env)) (only parsing).

(** For the first sub-swap only: the interval and the quantity within their
    bounds. *)
Definition legacy_plan (k : Store) (msg : MsgSwap) (source : Asset) (swp : StreamingSwap) :
    outcome StreamingSwap :=
  if ssCount swp =? 0 then
    let maxLength := u64 (liq_config lenv k "StreamingSwapMaxLength") in
    let swp := if maxLength <? ssInterval swp then with_interval swp maxLength else swp in
    maxSwapQuantity ← legacy_getMaxSwapQuantity lenv k source (TargetAsset msg) swp;
    Ok (if (ssQuantity swp =? 0) || (maxSwapQuantity <? ssQuantity swp)
        then with_quantity swp maxSwapQuantity else swp)
  else Ok swp.

(** A legacy streaming swap: its record, and the message with the amount and
    the target of the sub-swap. *)
Definition legacy_prepare (k : Store) (msg : MsgSwap) (source : Asset) (swp : StreamingSwap) :
    outcome (Store * MsgSwap * StreamingSwap) :=
  let swp := if StreamingSwapExists k (txID (mTx msg))
             then Keeper.GetStreamingSwap k (txID (mTx msg)) else swp in
  swp ← legacy_plan k msg source swp;
  let k := SetStreamingSwap k swp in
  '(size, target) ← StreamingSwap_NextSize swp;
  Ok (k, sub_message msg size target, swp).

(** What follows a swap whose memo adds liquidity: the synth bought goes to the
    savers' pool. *)
Definition follow_on (k : Store) (msg : MsgSwap) (emit : Z) : outcome (Store * Z) :=
  let '(mem, err) := heParseMemo env (txMemo (mTx msg)) k in
  _ ← check err;
  if negb (Memo_IsType mem TxAdd) then Ok (k, emit)
  else
  match mem with
  | MAddLiquidity m =>
      let asset := fuzzyAssetMatch k (mbAsset (amBase m)) in
      let m := mkAddLiquidityMemo (mkMemoBase (mbTxType (amBase m)) asset) (amAddress m)
                 (amAffiliateAddress m) (amAffiliateBasisPoints m) in
      let tx := mkTx (txID (mTx msg)) (txChain (mTx msg)) (txFrom (mTx msg)) (txTo (mTx msg))
                  [NewCoin asset emit] (txGas (mTx msg)) (txMemo (mTx msg)) in
      addMsg ← heAddLiquidityMsg env m tx (mSigner msg);
      k ← add_Run env k addMsg;
      Ok (k, emit)
  | _ => Err "fail to cast add liquidity memo"
  end.

Definition handleWithEmit (k : Store) (msg : MsgSwap) : outcome (Store * Z) :=
  match txCoins (mTx msg) with
  | [] => Panic
  | coin :: _ =>
      if negb (leSameNetwork lenv (Destination msg)) then
        Err ("address(" ++ Destination msg ++ ") is not same network")
      else
        let mult := GetMimir k "VirtualMultSynthsBasisPoints" in
        let mult := if mult <? 1 then qeConstant qenv "VirtualMultSynthsBasisPoints" else mult in
        dexAgg ←
          (if negb (String.eqb (mAggregator msg) "")
           then FetchDexAggregator (qeDexAggregators qenv) (aChain (TargetAsset msg)) (mAggregator msg)
           else Ok "");
        swp ← Streaming.GetStreamingSwap msg;
        let swp := with_swap_state swp (State msg) in
        let legacy := IsLegacyStreaming msg && negb (IsLimitSwap msg) in
        '(k, msg, swp) ←
          (if legacy then legacy_prepare k msg (cAsset coin) swp else Ok (k, msg, swp));
        '(k, emit, _) ← Swap (swap_env qenv) k (mTx msg) (TargetAsset msg) (Destination msg)
          (TradeTarget msg) dexAgg (AggregatorTargetAddress msg) (AggregatorTargetLimit msg) swp mult;
        _ ← (if IsSyntheticAsset (TargetAsset msg) && negb (IsLegacyStreaming msg)
             then isSynthMintPaused lenv k (TargetAsset msg) emit else Ok tt);
        if legacy then
          size ← first_amount (mTx msg);
          swp ← legacy_success swp size emit;
          let k := SetStreamingSwap k swp in
          if negb (StreamingSwap_IsLastSwap swp) then Ok (k, emit)
          else follow_on k msg (ssOut swp)
        else follow_on k msg emit
  end.

Definition RunWithEmit (k : Store) (msg : MsgSwap) : outcome (Store * Z) :=
  _ ← validateSwap env k msg;
  handleWithEmit k msg.

(** The environment of the queues, with the handler above. *)
Definition handler_queue_env : QueueEnv Store :=
  mkQueueEnv (qeSpawnDerivedAsset qenv) (qeAnchorDepth qenv) (qeAssetOutboundFee qenv)
    (qeIsChain qenv) (qeTryAddTxOutItem qenv) (qeParseMemo qenv) (qeDexAggregators qenv)
    (fun msg k => validateSwap env k msg) (fun msg k => RunWithEmit k msg)
    (qeSimulation qenv) (qeConstant qenv).
End swap_handler.
