(* ===== verification/HandlerProps.v ===== *)
(** The swap handler keeps the book of the advanced queue: [handleWithEmit]
    with the swapper and the liquidity handler behind it does nothing to the
    queue's store and index, and keeps every pool under the name of its asset,
    so that the end of a block run with it keeps the index exact. *)
From S2P Require Import Prelude SdkMath GoStr Keys Shares Chains Assets Coins Bank Nodes Txs.
From S2P Require Import Decimal MemoTypes Voters Mimir Observed Pools Streaming SwapSort SwapCalc Vaults Keeper.
From S2P Require Import LimitIndex Halt VaultStore NodeStore Swaps Settle SwapQueue QueueProps Bonds Liquidity LiquidityProps Helpers SwapCheck LiquidityMsgs SwapHandler.
Local Open Scope string_scope.
Local Open Scope Z_scope.

(** ** Operations that leave the queue, its index and the pools alone *)
Section core.
Context {B : Type} `{Bank B} {K : SdkKeys} {S : SdkMath}.
Abbreviation Store := (KVStore B) (only parsing).
Implicit Types k : Store.

Definition core_same k k' : Prop :=
  kAdvSwapQueue k' = kAdvSwapQueue k /\ kStrings k' = kStrings k /\ kPools k' = kPools k.

#[export] Instance core_same_preorder : PreOrder core_same.
Proof. split; [done|]. intros k1 k2 k3 (H1 & H2 & H3) (H4 & H5 & H6). repeat split; congruence. Qed.

Lemma core_bank k b : core_same k (with_bank k b).
Proof using. done. Qed.

Lemma core_send k from to c k' : SendFromModuleToModule k from to c = Ok k' -> core_same k k'.
Proof using. by intros (b & _ & [= <-])%bind_Ok_inv. Qed.

Lemma core_burn k m c k' : BurnFromModule k m c = Ok k' -> core_same k k'.
Proof using.
  unfold BurnFromModule. intros ([d n] & _ & Hb)%bind_Ok_inv. by apply bind_Ok_inv in Hb as (b & _ & [= <-]).
Qed.

Lemma core_mint k m c k' : MintToModule k m c = Ok k' -> core_same k k'.
Proof using.
  unfold MintToModule, circuit_breaker. intros ([k1 c1] & H1 & Hm)%bind_Ok_inv.
  assert (core_same k k1) as ->.
  { case_if_in H1; [|by injection H1 as <- <-]. apply bind_Ok_inv in H1 as (s & _ & H1).
    apply bind_Ok_inv in H1 as (a & _ & H1). case_if_in H1; [|by injection H1 as <- <-].
    apply bind_Ok_inv in H1 as (b & _ & H1). apply bind_Ok_inv in H1 as (n & _ & H1).
    apply bind_Ok_inv in H1 as (k2 & Hs & H1). injection H1 as <- <-.
    by apply wrap_err_Ok, core_send in Hs || by apply core_send in Hs. }
  case_if_in Hm; [by injection Hm as <-|]. apply bind_Ok_inv in Hm as ([d n] & _ & Hm).
  apply bind_Ok_inv in Hm as (b & _ & Hm). case_if_in Hm; by injection Hm as <-.
Qed.

Lemma core_fees k a fee k' : AddToLiquidityFees k a fee = Ok k' -> core_same k k'.
Proof using. unfold AddToLiquidityFees. intros Hf. repeat (apply bind_Ok_inv in Hf as (? & _ & Hf)). by injection Hf as <-. Qed.

Lemma core_slip k a n k' : AddToSwapSlip k a n = Ok k' -> core_same k k'.
Proof using. unfold AddToSwapSlip. intros (x & _ & Hf)%bind_Ok_inv. case_if_in Hf; [|done]. by injection Hf as <-. Qed.

Lemma core_clout k a1 a2 fee k' : add_clout k a1 a2 fee = Ok k' -> core_same k k'.
Proof using.
  unfold add_clout. intros (h & _ & Hf)%bind_Ok_inv. apply bind_Ok_inv in Hf as ([k1 c] & H1 & Hf).
  assert (core_same k k1) as ->.
  { case_if_in H1; [by injection H1 as <- <-|]. do 2 (apply bind_Ok_inv in H1 as (? & _ & H1)).
    by injection H1 as <- <-. }
  case_if_in Hf; [by injection Hf as <-|]. apply bind_Ok_inv in Hf as (? & _ & Hf). by injection Hf as <-.
Qed.

Lemma core_volume k evt k' : add_volume k evt = Ok k' -> core_same k k'.
Proof using.
  unfold add_volume. intros (n & _ & Hf)%bind_Ok_inv. apply bind_Ok_inv in Hf as (v & _ & Hf).
  unfold SetVolume in Hf. destruct (check (Volume_Valid v)) as [?|?|]; simpl in Hf; [by injection Hf as <-..|done].
Qed.

Lemma core_volumes k evts k' : add_volumes k evts = Ok k' -> core_same k k'.
Proof using.
  revert k. induction evts as [|e evts IH]; intros k; simpl; [by intros [= <-]|].
  intros (k1 & H1%core_volume & H2%IH)%bind_Ok_inv. by etrans.
Qed.

Lemma core_burn_input k p a c k' : burn_input k p a c = Ok k' -> core_same k k'.
Proof using.
  unfold burn_input. case_if; [|by intros [= <-]]. intros (k1 & H1%core_send & H2)%bind_Ok_inv.
  destruct (BurnFromModule k1 ModuleName c) as [k2|?|] eqn:E1; [|by injection H2 as <-|done].
  injection H2 as <-. apply core_burn in E1. by etrans.
Qed.

Lemma core_mint_output k p a n k' : mint_output k p a n = Ok k' -> core_same k k'.
Proof using.
  unfold mint_output. case_if; [|by intros [= <-]].
  intros (k1 & H1%core_mint & H2%core_send)%bind_Ok_inv. by etrans.
Qed.

Lemma core_collect_fee k p fee slip k' p' : collect_fee k p fee slip = Ok (k', p') ->
  core_same k k' /\ plAsset p' = plAsset p.
Proof using.
  unfold collect_fee. case_if; [|by intros [= <- <-]].
  intros ([k1 p1] & H1 & H2)%bind_Ok_inv.
  apply bind_Ok_inv in H2 as (k2 & H2%wrap_err_Ok%core_slip & [= <- <-]).
  assert (core_same k k1 /\ plAsset p1 = plAsset p) as [Hc ->]; [|split; [by etrans|done]].
  case_if_in H1; [|by injection H1 as <- <-]. apply bind_Ok_inv in H1 as (d & _ & H1).
  apply bind_Ok_inv in H1 as (k3 & H3%core_send & H1). apply bind_Ok_inv in H1 as (k4 & H4 & [= <- <-]).
  split; [|done]. etrans; [exact H3|]. case_if_in H4; [|by injection H4 as <-].
  by apply wrap_err_Ok, core_fees in H4.
Qed.

Lemma SetPool_core k p k' : SetPool k p = Ok k' ->
  kAdvSwapQueue k' = kAdvSwapQueue k /\ kStrings k' = kStrings k /\
  kPools k' = <[GetKey prefixPool (Asset_String (plAsset p)) := p]> (kPools k).
Proof using. unfold SetPool. case_if; [done|]. by intros [= <-]. Qed.
End core.

(** ** Operations that keep the queue and the names of the pools *)
Section keeps.
Context {B : Type} `{Bank B} {K : SdkKeys} {S : SdkMath}.
Abbreviation Store := (KVStore B) (only parsing).
Implicit Types k : Store.

Definition keeps k k' : Prop := queue_grows k k' /\ (pools_named k -> pools_named k').

#[export] Instance keeps_preorder : PreOrder keeps.
Proof.
  split; [by split|]. intros k1 k2 k3 [H1 H2] [H3 H4]. split; [by etrans|auto].
Qed.

Lemma core_keeps k k' : core_same k k' -> keeps k k'.
Proof using.
  intros (Ha & Hs & Hp). split; [by apply queue_same_grows|]. unfold pools_named. by rewrite Hp.
Qed.

Lemma SetPool_keeps k p k' : SetPool k p = Ok k' -> (pools_named k -> poolable (plAsset p)) ->
  keeps k k'.
Proof using.
  intros (Ha & Hs & Hp)%SetPool_core Hok. split; [by apply queue_same_grows|].
  intros Hn key q. rewrite Hp. intros [ [<- <-] | [_ Hq] ]%lookup_insert_Some; [|by apply Hn].
  split; [done|]. by apply Hok.
Qed.

(** The pool found under a name has an asset pools are made for. *)
Lemma GetPool_poolable k a : pools_named k -> PoolExist k a = true ->
  poolable (plAsset (GetPool k a)).
Proof using.
  intros Hn He. unfold PoolExist in He. apply bool_decide_eq_true in He as [p Hp].
  unfold GetPool. rewrite Hp. simpl. by destruct (Hn _ _ Hp).
Qed.

Lemma GetPool_nonempty_poolable k a : pools_named k -> Pool_IsEmpty (GetPool k a) = false ->
  poolable (plAsset (GetPool k a)).
Proof using.
  intros Hn. unfold GetPool.
  destruct (kPools k !! GetKey prefixPool (Asset_String a)) as [p|] eqn:Hp; simpl; [|done].
  intros _. by destruct (Hn _ _ Hp).
Qed.

Lemma CalcUnits_asset m s u m' : CalcUnits m s = Ok (u, m') -> plAsset m' = plAsset m.
Proof using.
  unfold CalcUnits. intros Hc. repeat (apply bind_Ok_inv in Hc as (? & _ & Hc)). by injection Hc as <- <-.
Qed.

Lemma load_pool_poolable k s a p : pools_named k -> load_pool k s a = Ok p -> poolable (plAsset p).
Proof using.
  unfold load_pool. intros Hn Hl. destruct (PoolExist k a) eqn:He; simpl in Hl; [|done].
  case_if_in Hl; [done|]. apply bind_Ok_inv in Hl as (x & _ & Hl).
  apply bind_Ok_inv in Hl as ([u p'] & Hc & Hl). apply CalcUnits_asset in Hc.
  case_if_in Hl; [done|]. injection Hl as <-. rewrite Hc. by apply GetPool_poolable.
Qed.

Lemma swap_balances_asset p s t x e p' : swap_balances p s t x e = Ok p' -> plAsset p' = plAsset p.
Proof using.
  unfold swap_balances. case_if; intros Hb; do 2 (apply bind_Ok_inv in Hb as (? & _ & Hb));
    by injection Hb as <-.
Qed.

Lemma fee_in_deca_asset p t f d p' : fee_in_deca p t f = Ok (d, p') -> plAsset p' = plAsset p.
Proof using.
  unfold fee_in_deca. case_if; [by intros [= <- <-]|]. intros Hb.
  do 3 (apply bind_Ok_inv in Hb as (? & _ & Hb)). by injection Hb as <- <-.
Qed.

(** What the components outside the model do: spawning a derived asset and
    scheduling an outbound keep the queue and the names of the pools, and
    liquidity is added to synths or to assets of layer 1. *)
Class HandlerEnvOk (env : HandlerEnv Store) : Prop := {
  he_spawn a k : keeps k (qeSpawnDerivedAsset (leQueue (heLiquidity env)) a k);
  he_try_add toi clout k : keeps k (fst (qeTryAddTxOutItem (leQueue (heLiquidity env)) toi clout k));
  he_add_asset m tx signer msg : heAddLiquidityMsg env m tx signer = Ok msg -> poolable (alAsset msg)
}.

Context (env : HandlerEnv Store) `{!HandlerEnvOk env}.
Abbreviation senv := (swap_env (leQueue (heLiquidity env))) (only parsing).

Lemma swapOne_keeps k tx target dest st mult so k' e evt :
  swapOne senv k tx target dest st mult so = Ok (k', e, evt) -> keeps k k'.
Proof using HandlerEnvOk0.
  unfold swapOne. destruct (txCoins tx) as [|coin rest]; [done|].
  set (asset := GetLayer1Asset _). set (k0 := if IsDerivedAsset asset then _ else k).
  assert (Hk0 : keeps k k0) by (subst k0; case_if; [apply he_spawn|done]).
  intros (pool & Hpool & Hs)%bind_Ok_inv. apply bind_Ok_inv in Hs as ([X Y] & _ & Hs).
  case_if_in Hs; [done|]. case_if_in Hs; [done|].
  apply bind_Ok_inv in Hs as (slip & _ & Hs). apply bind_Ok_inv in Hs as ([ [em fee] sl] & _ & Hs).
  apply bind_Ok_inv in Hs as (em' & _ & Hs). case_if_in Hs; [done|].
  apply bind_Ok_inv in Hs as (k1 & H1%core_burn_input & Hs).
  apply bind_Ok_inv in Hs as (k2 & H2%core_mint_output & Hs).
  apply bind_Ok_inv in Hs as (p1 & P1%swap_balances_asset & Hs).
  apply bind_Ok_inv in Hs as (p2 & P2 & Hs).
  assert (plAsset p2 = plAsset p1) as P2'.
  { case_if_in P2; [|by injection P2 as <-]. apply bind_Ok_inv in P2 as (sup & _ & P2).
    apply bind_Ok_inv in P2 as ([u p'] & Hc%CalcUnits_asset & [= <-]). done. }
  apply bind_Ok_inv in Hs as ([d p3] & P3%fee_in_deca_asset & Hs).
  apply bind_Ok_inv in Hs as ([k3 p4] & [H3 P4]%core_collect_fee & Hs).
  apply bind_Ok_inv in Hs as (k4 & H4 & Hs). apply bind_Ok_inv in Hs as (k5 & H5%core_clout & Hs).
  injection Hs as <- <- <-.
  assert (core_same k0 k3) as Hc by (etrans; [exact H1|]; by etrans).
  destruct (SetPool k3 p4) as [k4'|?|] eqn:Ep; [|done..]. injection H4 as <-.
  etrans; [exact Hk0|]. etrans; [apply core_keeps, Hc|].
  etrans; [eapply SetPool_keeps; [exact Ep|] |apply core_keeps, H5].
  intros Hn. rewrite P4, P3, P2', P1. apply (load_pool_poolable k0 (cAsset coin) asset); [|exact Hpool].
  destruct Hc as (_ & _ & Hc). unfold pools_named in *. by rewrite <- Hc.
Qed.

Lemma swap_legs_keeps k tx target dest st mult k' e evts :
  swap_legs senv k tx target dest st mult = Ok (k', e, evts) -> keeps k k'.
Proof using HandlerEnvOk0.
  unfold swap_legs. case_if.
  - intros ([ [k1 a1] e1] & H1%swapOne_keeps & Hs)%bind_Ok_inv.
    apply bind_Ok_inv in Hs as ([ [k2 a2] e2] & H2%swapOne_keeps & [= <- <- <-]). by etrans.
  - by intros ([ [k1 a1] e1] & H1%swapOne_keeps & [= <- <- <-])%bind_Ok_inv.
Qed.

Lemma swap_outbound_keeps k tx target dest a st d1 d2 d3 swp k' :
  swap_outbound senv k tx target dest a st d1 d2 d3 swp = Ok k' -> keeps k k'.
Proof using HandlerEnvOk0.
  unfold swap_outbound. case_if; [by intros [= <-]|]. case_if; [by intros [= <-]|].
  set (toi := mkTxOutItem _ _ _ _ _ _ _ _ _ _ _ _ _ _ _ _).
  intros ([ok k1] & H1%wrap_err_Ok & Hs)%bind_Ok_inv. case_if_in Hs; [done|]. injection Hs as <-.
  simpl in H1. pose proof (he_try_add toi st k) as Ht.
  destruct (qeTryAddTxOutItem (leQueue (heLiquidity env)) toi st k) as [k2 [b|?|] ]; [|done..].
  by injection H1 as <- <-.
Qed.

Lemma Swap_keeps k tx target dest st d1 d2 d3 swp mult k' e evts :
  Swap senv k tx target dest st d1 d2 d3 swp mult = Ok (k', e, evts) -> keeps k k'.
Proof using HandlerEnvOk0.
  unfold Swap. intros (? & _ & Hs)%bind_Ok_inv.
  apply bind_Ok_inv in Hs as ([ [k1 a] ev] & H1%swap_legs_keeps & Hs).
  apply bind_Ok_inv in Hs as (c & _ & Hs). case_if_in Hs; [done|]. case_if_in Hs; [done|].
  apply bind_Ok_inv in Hs as (k2 & H2%core_volumes & Hs).
  apply bind_Ok_inv in Hs as (k3 & H3%swap_outbound_keeps & [= <- <- <-]).
  etrans; [exact H1|]. etrans; [apply core_keeps, H2|exact H3].
Qed.

Lemma stage_deca_keeps k p su n m tx k' : (pools_named k -> poolable (plAsset p)) ->
  stage_deca k p su n m tx = Ok k' -> keeps k k'.
Proof using.
  intros Hp. unfold stage_deca. intros (x & _ & Hs)%bind_Ok_inv.
  etrans; [apply (core_keeps k (SetLiquidityProvider k (lp_with_pending su m (PendingAsset su) tx))); done|].
  eapply SetPool_keeps; [exact Hs|exact Hp].
Qed.

Lemma stage_asset_keeps k p su n m tx k' : (pools_named k -> poolable (plAsset p)) ->
  stage_asset k p su n m tx = Ok k' -> keeps k k'.
Proof using.
  intros Hp. unfold stage_asset. intros (x & _ & Hs)%bind_Ok_inv.
  etrans; [apply (core_keeps k (SetLiquidityProvider k (lp_with_pending su (PendingDeca su) m tx))); done|].
  eapply SetPool_keeps; [exact Hs|exact Hp].
Qed.

Lemma commit_keeps k a p su sup d x k' : (pools_named k -> poolable (plAsset p)) ->
  commit_liquidity (heLiquidity env) k a p su sup d x = Ok k' -> keeps k k'.
Proof using.
  intros Hp. unfold commit_liquidity. intros ([p1 su1] & H1 & Hs)%bind_Ok_inv.
  assert (plAsset p1 = plAsset p) as Hp1.
  { unfold clear_pending in H1. do 2 (case_if_in H1; [done|]).
    do 2 (apply bind_Ok_inv in H1 as (? & _ & H1)). by injection H1 as <- <-. }
  apply bind_Ok_inv in Hs as ([u d1] & _ & Hs). case_if_in Hs; [done|].
  do 3 (apply bind_Ok_inv in Hs as (? & _ & Hs)). case_if_in Hs; [done|].
  apply bind_Ok_inv in Hs as ([u2 p2] & Hc%CalcUnits_asset & Hs).
  apply bind_Ok_inv in Hs as (k1 & Hset & Hs). do 2 (apply bind_Ok_inv in Hs as (? & _ & Hs)).
  etrans; [eapply SetPool_keeps; [exact Hset|]|].
  { intros Hn. rewrite Hc. simpl. rewrite Hp1. by apply Hp. }
  unfold track_pol_deposit in Hs. apply bind_Ok_inv in Hs as (pa & _ & Hs).
  apply core_keeps. case_if_in Hs; [|by injection Hs as <-].
  apply bind_Ok_inv in Hs as (? & _ & Hs). by injection Hs as <-.
Qed.

Lemma addLiquidity_keeps k a r x d1 a1 tx stage k' :
  addLiquidity (heLiquidity env) k a r x d1 a1 tx stage = Ok k' -> keeps k k'.
Proof using.
  unfold addLiquidity. intros ([] & Hv%wrap_err_Ok & Hs)%bind_Ok_inv.
  apply bind_Ok_inv in Hs as (sup & _ & Hs). apply bind_Ok_inv in Hs as ([u p] & Hc%CalcUnits_asset & Hs).
  assert (pools_named k -> poolable (plAsset p)) as Hp.
  { intros Hn. rewrite Hc. apply GetPool_poolable; [done|].
    unfold validateAddLiquidityMessage in Hv. do 3 (case_if_in Hv; [done|]).
    by destruct (PoolExist k a). }
  do 3 (apply bind_Ok_inv in Hs as (? & _ & Hs)).
  case_if_in Hs; [by eapply stage_deca_keeps|]. case_if_in Hs; [by eapply stage_asset_keeps|].
  by eapply commit_keeps.
Qed.

Lemma create_pool_keeps k msg p k' p' : poolable (alAsset msg) ->
  (pools_named k -> Pool_IsEmpty p = false -> poolable (plAsset p)) ->
  create_pool env k msg p = Ok (k', p') ->
  keeps k k' /\ (pools_named k -> poolable (plAsset p')).
Proof using.
  intros Ha Hp. unfold create_pool. destruct (Pool_IsEmpty p) eqn:He.
  - intros (k1 & Hs%wrap_err_Ok & [= <- <-])%bind_Ok_inv. split; [|done].
    by eapply SetPool_keeps; [exact Hs|].
  - intros [= <- <-]. split; [done|]. intros Hn. by apply Hp.
Qed.

Lemma set_decimals_keeps k msg p k' : (pools_named k -> poolable (plAsset p)) ->
  set_decimals k msg p = Ok k' -> keeps k k'.
Proof using.
  intros Hp. unfold set_decimals. case_if; [|by intros [= <-]]. case_if; [|by intros [= <-]].
  intros Hs%wrap_err_Ok. by eapply SetPool_keeps.
Qed.

Lemma add_Run_keeps k msg k' : poolable (alAsset msg) -> add_Run env k msg = Ok k' -> keeps k k'.
Proof using.
  intros Ha. unfold add_Run. intros (? & _ & Hs)%bind_Ok_inv. unfold add_handle in Hs.
  case_if_in Hs.
  { unfold add_swap in Hs. do 2 (case_if_in Hs; [done|]).
    do 3 (apply bind_Ok_inv in Hs as (? & _ & Hs)). injection Hs as <-. by apply core_keeps. }
  apply bind_Ok_inv in Hs as ([k1 p1] & H1 & Hs).
  apply create_pool_keeps in H1 as [H1 Hp1]; [|done|intros; by apply GetPool_nonempty_poolable].
  apply bind_Ok_inv in Hs as (k2 & H2 & Hs).
  assert (keeps k k2) as Hk2.
  { split; [etrans; [apply H1|]|]; unfold set_decimals in H2.
    - case_if_in H2; [|by injection H2 as <-]. case_if_in H2; [|by injection H2 as <-].
      apply wrap_err_Ok, SetPool_core in H2 as (? & ? & _). by apply queue_same_grows.
    - intros Hn. case_if_in H2; [|injection H2 as <-; by apply H1].
      case_if_in H2; [|injection H2 as <-; by apply H1]. apply wrap_err_Ok in H2.
      eapply SetPool_keeps; [exact H2| |by apply H1]. intros _. by apply Hp1. }
  etrans; [exact Hk2|]. unfold add_shares in Hs. case_if_in Hs; [by eapply addLiquidity_keeps|].
  do 4 (apply bind_Ok_inv in Hs as (? & _ & Hs)).
  apply bind_Ok_inv in Hs as (k3 & H3%addLiquidity_keeps & H4%addLiquidity_keeps). by etrans.
Qed.

(** A follow-on does nothing, or runs the handler of the memo's addition. *)
Lemma follow_on_inv k msg n k' e : follow_on env k msg n = Ok (k', e) ->
  e = n /\ (k' = k \/ exists m m' tx addMsg,
    heParseMemo env (txMemo (mTx msg)) k = (MAddLiquidity m, None) /\
    heAddLiquidityMsg env m' tx (mSigner msg) = Ok addMsg /\ add_Run env k addMsg = Ok k').
Proof using.
  unfold follow_on. destruct (heParseMemo env (txMemo (mTx msg)) k) as [mem [err|] ]; [done|]. simpl.
  destruct (negb (Memo_IsType mem TxAdd)); [intros [= <- <-]; by split; [|left]|].
  destruct mem; try done. intros (addMsg & Hmsg & Hs)%bind_Ok_inv.
  apply bind_Ok_inv in Hs as (k1 & Hrun & [= <- <-]). split; [done|]. right. by repeat econstructor.
Qed.

Lemma follow_on_keeps k msg n k' e : follow_on env k msg n = Ok (k', e) -> keeps k k'.
Proof using HandlerEnvOk0.
  intros [_ [->|(m & m' & tx & addMsg & _ & Hmsg & Hrun)] ]%follow_on_inv; [done|].
  eapply add_Run_keeps; [|exact Hrun]. by eapply he_add_asset.
Qed.

Lemma core_SetStreamingSwap k swp : core_same k (SetStreamingSwap k swp).
Proof using. unfold SetStreamingSwap. by case_match. Qed.

Lemma handleWithEmit_keeps k msg k' e : handleWithEmit env k msg = Ok (k', e) -> keeps k k'.
Proof using HandlerEnvOk0.
  unfold handleWithEmit. destruct (txCoins (mTx msg)) as [|coin rest]; [done|].
  case_if; [done|]. intros (dex & _ & Hs)%bind_Ok_inv. apply bind_Ok_inv in Hs as (swp & _ & Hs).
  apply bind_Ok_inv in Hs as ([ [k1 msg1] swp1] & H1 & Hs).
  assert (keeps k k1) as Hk1.
  { case_if_in H1; [|by injection H1 as <- _ _]. unfold legacy_prepare in H1.
    apply bind_Ok_inv in H1 as (sw & _ & H1). apply bind_Ok_inv in H1 as ([sz tg] & _ & [= <- _ _]).
    apply core_keeps, core_SetStreamingSwap. }
  apply bind_Ok_inv in Hs as ([ [k2 em] evts] & H2%Swap_keeps & Hs).
  apply bind_Ok_inv in Hs as (? & _ & Hs).
  etrans; [exact Hk1|]. etrans; [exact H2|]. case_if_in Hs; [|by eapply follow_on_keeps].
  apply bind_Ok_inv in Hs as (sz & _ & Hs). apply bind_Ok_inv in Hs as (sw & _ & Hs).
  etrans; [apply core_keeps, (core_SetStreamingSwap k2 sw)|].
  case_if_in Hs; [by injection Hs as <- _|by eapply follow_on_keeps].
Qed.

Lemma RunWithEmit_keeps k msg k' e : RunWithEmit env k msg = Ok (k', e) -> keeps k k'.
Proof using HandlerEnvOk0.
  unfold RunWithEmit. intros (? & _ & Hs)%bind_Ok_inv. by eapply handleWithEmit_keeps.
Qed.

(** The handler is what the queue expects of it. *)
#[export] Instance handler_queue_env_ok : QueueEnvOk (handler_queue_env env).
Proof using HandlerEnvOk0.
  split; simpl.
  - intros toi clout k. apply he_try_add.
  - intros msg k k' e Hr. by eapply RunWithEmit_keeps.
Qed.

#[export] Instance handler_queue_env_pools : QueueEnvPools (handler_queue_env env).
Proof using HandlerEnvOk0.
  split; simpl.
  - intros toi clout k. apply he_try_add.
  - intros msg k k' e Hr. by eapply RunWithEmit_keeps.
Qed.
End keeps.

(** ** Properties *)

(** C6. The end of a block keeps the book of the advanced queue: with the swap
    handler, the swapper and the liquidity handler behind it, after any number
    of rapid-swap iterations, settlements and expiries the index, exact before,
    again lists exactly the stored swaps, each once and under the price it has
    now.  The store starts with an exact index, canonical swap ids and every pool
    under its own name, which the components outside the model keep, and the
    run is one that returns without an error. *)
Theorem EndBlock_keeps_index_exact {B} `{Bank B} {K : SdkKeys} {S : SdkMath}
    (env : HandlerEnv (KVStore B)) `{!HandlerEnvOk env} k k' :
  good k -> queue_EndBlock (handler_queue_env env) k = Ok k' ->
  good k' /\
  forall probe key l, getAdvSwapQueueIndexKey probe = Ok key -> GetAdvSwapQueueIndex k' probe = Ok l ->
    NoDup l /\ forall id i, (id, i) ∈ l <->
      exists msg, GetAdvSwapQueueItem k' id i = Ok msg /\
        txID (mTx msg) = id /\ mIndex msg = i /\ getAdvSwapQueueIndexKey msg = Ok key.
Proof.
  intros Hg Hrun. pose proof (EndBlock_good (handler_queue_env env) k k' Hg Hrun) as Hg'.
  split; [done|]. intros probe key l. apply index_listing, Hg'.
Qed.

(** C14. The swap handler never mints synths past the cap: after a successful
    swap to a synth the supply is within the cap on the pool's depth after the
    swap, and the amount just minted would even fit once more.  Two kinds of
    swap are excluded: a legacy streaming swap, for which the handler ignores
    the cap ([handler_swap.go], 382-386), and a swap whose memo adds liquidity,
    which moves the pool again after the check. *)
Theorem synth_mint_capped {B} `{Bank B} {K : SdkKeys} {S : SdkMath} `{!SdkMathOk S}
    (env : HandlerEnv (KVStore B)) k msg k' emit supply :
  let target := TargetAsset msg in let pool := GetPool k' (GetLayer1Asset target) in
  let cap := u64 (liq_config (heLiquidity env) k' "MaxSynthPerPoolDepth") *
    (BalanceAsset pool * 2) / 10000 in
  IsSyntheticAsset target = true -> IsLegacyStreaming msg = false ->
  (forall k1 m, heParseMemo env (txMemo (mTx msg)) k1 <> (MAddLiquidity m, None)) ->
  RunWithEmit env k msg = Ok (k', emit) -> pool_ok pool ->
  GetTotalSupply k' (GetSyntheticAsset target) = Ok supply -> supply + emit <= cap.
Proof.
  intros target pool cap Hsyn Hleg Hmemo Hrun Hok Hsup.
  apply bind_Ok_inv in Hrun as ([] & _ & Hrun). unfold handleWithEmit in Hrun. rewrite Hleg in Hrun.
  destruct (txCoins (mTx msg)) as [|coin rest]; [done|]. case_if_in Hrun; [done|]. simpl in Hrun.
  do 2 (apply bind_Ok_inv in Hrun as (? & _ & Hrun)).
  apply bind_Ok_inv in Hrun as ([ [k2 em] evts] & _ & Hrun). fold target in Hrun.
  rewrite Hsyn in Hrun. simpl in Hrun. apply bind_Ok_inv in Hrun as ([] & Hmint & Hrun).
  rewrite Hleg in Hmint. simpl in Hmint.
  apply follow_on_inv in Hrun as [-> [->|(m & m' & tx' & addMsg & Hp & _)] ]; [|by destruct (Hmemo k2 m)].
  exact (proj2 (synth_capacity_exact (heLiquidity env) k2 target em supply Hok Hsup) Hmint).
Qed.

(** ** The properties at concrete inputs *)

Definition demo_swap_to_b : SwapMemo :=
  mkSwapMemo (mkMemoBase TxSwap BTCAsset) "b" 0 "" 0 "" "" None SwapType_market 0 0 None "" [] [].
Definition demo_handler_env : HandlerEnv (KVStore SimpleBank) :=
  mkHandlerEnv
    (mkLiquidityEnv demo_book_env (fun _ => Ok "pol") (fun c _ => Ok (NewCoin (GetGasAsset c) 50))
       (fun _ _ => 10) (fun _ => true) false "Available")
    (fun _ _ => (MSwap demo_swap_to_b, None)) (fun name => name) (fun _ _ _ => Err "no memo").

#[export] Instance demo_handler_env_ok : HandlerEnvOk demo_handler_env.
Proof. by split; simpl. Qed.

Definition demo_handled : KVStore SimpleBank :=
  ok_or demo_queue_0
    (queue_EndBlock (handler_queue_env (K := keys_std) (S := sdk_std) demo_handler_env) demo_book).

(** The limit swap of 3 that asks for 400 runs (at 2989), the other one waits. *)
Lemma EndBlock_keeps_index_exact_witness :
  queue_EndBlock (handler_queue_env (K := keys_std) (S := sdk_std) demo_handler_env) demo_book
    = Ok demo_handled /\
  size (kAdvSwapQueue demo_book) = 2%nat /\ size (kAdvSwapQueue demo_handled) = 1%nat /\
  BalanceAsset (GetPool demo_handled ETHAsset) = 10 ^ 13 - 2989 /\ good demo_handled.
Proof.
  assert (queue_EndBlock (handler_queue_env (K := keys_std) (S := sdk_std) demo_handler_env) demo_book
    = Ok demo_handled) as Hrun by (vm_compute; reflexivity).
  split; [exact Hrun|]. do 3 (split; [vm_compute; reflexivity|]).
  apply (EndBlock_keeps_index_exact (K := keys_std) (S := sdk_std) demo_handler_env demo_book
    demo_handled demo_book_good Hrun).
Defined.

Definition demo_synth_swap : MsgSwap :=
  mkMsgSwap (mkTx demo_hash THORChain "a" "b" [NewCoin DecaAsset 5000] [NewCoin DecaAsset 1] "=:BTC/BTC")
    (GetSyntheticAsset BTCAsset) "b" 0 "" 0 "s" "" "" None SwapType_market 1 0 5
    (mkSwapState 0 1 0 0 0 5000 0 0 0 [] []) SwapVersion_v2 0.
Definition demo_synth_store : KVStore SimpleBank :=
  SetMimir demo_book "MaxSynthPerPoolDepth" 1700.
Definition demo_synth_done := ok_or (demo_queue_0, 0)
  (RunWithEmit (K := keys_std) (S := sdk_std) demo_handler_env demo_synth_store demo_synth_swap).

Lemma synth_mint_capped_witness :
  RunWithEmit (K := keys_std) (S := sdk_std) demo_handler_env demo_synth_store demo_synth_swap
    = Ok (fst demo_synth_done, 49) /\
  GetTotalSupply (fst demo_synth_done) (GetSyntheticAsset BTCAsset) = Ok 49 /\
  49 + 49 <= 1700 * (10 ^ 10 * 2) / 10000.
Proof.
  assert (H1 : RunWithEmit (K := keys_std) (S := sdk_std) demo_handler_env demo_synth_store demo_synth_swap
    = Ok (fst demo_synth_done, 49)) by (vm_compute; reflexivity).
  assert (H2 : GetTotalSupply (fst demo_synth_done) (GetSyntheticAsset BTCAsset) = Ok 49)
    by (vm_compute; reflexivity).
  split; [exact H1|]. split; [exact H2|].
  refine (synth_mint_capped (K := keys_std) (S := sdk_std) demo_handler_env demo_synth_store
    demo_synth_swap (fst demo_synth_done) 49 49 _ _ _ H1 _ H2).
  - reflexivity.
  - reflexivity.
  - done.
  - unfold pool_ok, is_uint. vm_compute. repeat split; congruence.
Defined.
