(* ===== verification/LegacyQueue.v ===== *)
(** The legacy swap queue, [x/thorchain/manager_swap_queue_current.go]: which
    swaps are due, their scores, and [EndBlock], which runs the first ones and
    refunds those that fail.

    The handler is [qeRunSwap] of the environment; [NewInternalHandler] drops
    the writes of a run that fails.  Events are left out. *)
From S2P Require Import Prelude SdkMath GoStr Keys Shares Chains Assets Coins Bank Nodes Txs.
From S2P Require Import Decimal MemoTypes Voters Mimir Observed Pools Streaming SwapSort SwapCalc Vaults Keeper.
From S2P Require Import LimitIndex Halt VaultStore NodeStore Swaps Settle SwapQueue QueueProps Bonds Liquidity LiquidityProps Helpers SwapCheck LiquidityMsgs SwapHandler HandlerProps.
Local Open Scope string_scope.
Local Open Scope Z_scope.

Definition PreferredAssetSwapMemoPrefix : string := "THOR-PREFERRED-ASSET".

(** [strconv.Atoi] of the part of the key behind the last dash. *)
Definition queue_key_index (key : string) : option Z :=
  match Atoi (match split_last "-" key with Some (_, i) => i | None => key end) with
  | Ok i => Some i
  | _ => None
  end.

Section legacy_queue.
Context {B : Type} `{Bank B} {K : SdkKeys} {S : SdkMath}.
Context (env : LiquidityEnv (KVStore B)).
Abbreviation Store := (KVStore B) (only parsing).
Abbreviation qenv := (leQueue env) (only parsing).

(** The record of a legacy streaming swap, or what it starts with. *)
Definition legacy_record (k : Store) (msg : MsgSwap) : outcome StreamingSwap :=
  swp ← Streaming.GetStreamingSwap msg;
  Ok (if StreamingSwapExists k (txID (mTx msg)) then Keeper.GetStreamingSwap k (txID (mTx msg))
      else swp).

(** A streaming swap is due for its first sub-swap, and every [Interval] blocks
    after the last one, unless trading is halted. *)
Definition legacy_due (k : Store) (msg : MsgSwap) : outcome bool :=
  if IsLegacyStreaming msg then
    if 0 <? liq_config env k "StreamingSwapPause" then Ok false
    else
      swp ← legacy_record k msg;
      if 0 <? ssLastHeight swp then
        if kHeight k <=? ssLastHeight swp then Ok false
        else
          let interval := if ssInterval swp =? 0 then 1 else ssInterval swp in
          if negb (Z.rem (i64 (kHeight k - ssLastHeight swp)) (i64 interval) =? 0) then Ok false
          else Ok (negb (IsTradingHalt k (SwapMsg msg)))
      else Ok true
  else Ok true.

Fixpoint legacy_fetch (k : Store) (records : list (string * MsgSwap)) : outcome (list swapItem) :=
  match records with
  | [] => Ok []
  | (key, msg) :: records' =>
      match queue_key_index key with
      | None => legacy_fetch k records'
      | Some i =>
          due ← legacy_due k msg;
          items ← legacy_fetch k records';
          Ok (if (due : bool) then mkSwapItem i msg 0 0 :: items else items)
      end
  end.

Definition legacy_FetchQueue (k : Store) : outcome (list swapItem) :=
  legacy_fetch k (iterate_keys (kSwapQueue k)).

(** *** Scoring *)
Definition no_depth (pool : Pool) : bool :=
  Pool_IsEmpty pool || (BalanceDeca pool =? 0) || (BalanceAsset pool =? 0).

(** Synths may be redeemed on pools that are not available. *)
Definition legacy_score (k : Store) (mult : Z) (item : swapItem) : outcome swapItem :=
  let msg := siMsg item in
  coin ← source_coin msg;
  let sourceAsset := cAsset coin in
  let targetAsset := TargetAsset msg in
  let nonDecaAsset := if IsDeca sourceAsset then targetAsset else sourceAsset in
  let pool := scored_pool k nonDecaAsset in
  if no_depth pool then Ok item
  else if negb (IsAvailable pool) && negb (IsSyntheticAsset sourceAsset) then Ok item
  else
    item ← getLiquidityFeeAndSlip pool coin item (depth_mult nonDecaAsset mult);
    if IsDeca sourceAsset || IsDeca targetAsset then Ok item
    else
      runeAmt ← AssetValueInRune pool (cAmount coin);
      let pool := scored_pool k targetAsset in
      if no_depth pool || negb (IsAvailable pool) then Ok (mkSwapItem (siIndex item) (siMsg item) 0 0)
      else getLiquidityFeeAndSlip pool (NewCoin DecaAsset runeAmt) item (depth_mult targetAsset mult).

Fixpoint legacy_scoreMsgs (k : Store) (mult : Z) (items : list swapItem) : outcome (list swapItem) :=
  match items with
  | [] => Ok []
  | item :: items' =>
      item ← legacy_score k mult item;
      items' ← legacy_scoreMsgs k mult items';
      Ok (item :: items')
  end.

(** *** EndBlock *)

(** A failing refund leaves no writes: the transaction has one coin, and only
    its vault can fail to load. *)
Definition refund_failed (k : Store) (msg : MsgSwap) : outcome Store :=
  let voter := GetObservedTxInVoter k (txID (mTx msg)) in
  let pk := if Tx_IsEmpty (otTx (ovTx voter)) then "" else ObservedPubKey (ovTx voter) in
  match refundTx qenv k (plain_observed (mTx msg) pk) "" with
  | Err _ => Ok k
  | r => r
  end.

(** A failed run: the state, whether the whole amount goes back, and the message
    with that amount. *)
Definition legacy_failure (k : Store) (item : swapItem) (swp : StreamingSwap) :
    outcome (Store * bool * MsgSwap) :=
  let msg := siMsg item in
  let hash := txID (mTx msg) in
  if IsLegacyStreaming msg then
    let swp := if StreamingSwapExists k hash then Keeper.GetStreamingSwap k hash else swp in
    if (ssIn swp =? 0) && (ssOut swp =? 0) then
      let msg := sub_message msg (ssDeposit swp) (TradeTarget msg) in
      Ok (RemoveSwapQueueItem (RemoveStreamingSwap k hash) hash (siIndex item), true, msg)
    else Ok (k, false, msg)
  else
    affColAddress ←
      (match leModuleAddress env AffiliateCollectorName with
       | Ok a => Ok a
       | Err _ => Ok NoAddress
       | Panic => Panic
       end);
    Ok (k, negb (String.prefix PreferredAssetSwapMemoPrefix (txMemo (mTx msg)) &&
                 Address_Equals (txFrom (mTx msg)) affColAddress), msg).

(** The outbound of a streaming swap that is done: what it has swapped. *)
Definition legacy_outbound (k : Store) (msg : MsgSwap) (swp : StreamingSwap) : outcome Store :=
  let '(memo, err) := qeParseMemo qenv (txMemo (mTx msg)) k in
  _ ← check err;
  if negb (ssOut swp =? 0) && negb (Memo_IsType memo TxAdd) then
    dexAgg ←
      (if negb (String.eqb (mAggregator msg) "")
       then FetchDexAggregator (qeDexAggregators qenv) (GetChain (TargetAsset msg)) (mAggregator msg)
       else Ok "");
    let toi := mkTxOutItem (GetChain (TargetAsset msg)) (Destination msg) ""
      (NewCoin (TargetAsset msg) (ssOut swp)) "" "" [] 0 (txID (mTx msg)) "" "" dexAgg
      (AggregatorTargetAddress msg) (AggregatorTargetLimit msg) None "" in
    match qeTryAddTxOutItem qenv toi 0 k with
    | (_, Panic) => Panic
    | (k, Err _) => unrefundableCoinCleanup k toi
    | (k, Ok _) => Ok k
    end
  else Ok k.

(** What was not swapped goes back. *)
Definition legacy_remainder (k : Store) (msg : MsgSwap) (swp : StreamingSwap) : outcome Store :=
  if ssIn swp <? ssDeposit swp then
    remainder ← SafeSub (ssDeposit swp) (ssIn swp);
    coin ← source_coin msg;
    match refundTx qenv k (plain_observed (with_coins (mTx msg) [NewCoin (cAsset coin) remainder]) "") "" with
    | Err _ => Ok k
    | r => r
    end
  else Ok k.

(** The end of a pick of a legacy streaming swap. *)
Definition legacy_close k (item : swapItem) (msg : MsgSwap) (refunded : bool) (e : goerr) :
    outcome (Store * goerr) :=
  let hash := txID (mTx (siMsg item)) in
  let swp := legacy_count (Keeper.GetStreamingSwap k hash) e (kHeight k) in
  let k := if negb refunded then SetStreamingSwap k swp else k in
  match StreamingSwap_Valid swp with
  | Some _ => Ok (k, None)
  | None =>
      if StreamingSwap_IsDone swp then
        let k := RemoveStreamingSwap (RemoveSwapQueueItem k hash (siIndex item)) hash in
        match legacy_outbound k msg swp with
        | Panic => Panic
        | Err e => Ok (k, Some e)
        | Ok k => k ← legacy_remainder k msg swp; Ok (k, None)
        end
      else Ok (k, None)
  end.

(** One swap of the block: the state, and the error [EndBlock] stops at. *)
Definition legacy_pick (k : Store) (item : swapItem) : outcome (Store * goerr) :=
  let hash := txID (mTx (siMsg item)) in
  swp ← Streaming.GetStreamingSwap (siMsg item);
  '(k, triggerRefund, handleErr, msg) ←
    (match qeRunSwap qenv (siMsg item) k with
     | Panic => Panic
     | Ok (k', _) => Ok (k', false, None, siMsg item)
     | Err e =>
         '(k', triggerRefund, msg) ← legacy_failure k item swp;
         k' ← (if (triggerRefund : bool) then refund_failed k' msg else Ok k');
         Ok (k', triggerRefund, Some e, msg)
     end);
  if IsLegacyStreaming msg && negb (IsLimitSwap msg) then
    legacy_close k item msg triggerRefund handleErr
  else Ok (RemoveSwapQueueItem k hash (siIndex item), None).

Fixpoint legacy_picks (k : Store) (items : list swapItem) : outcome (Store * goerr) :=
  match items with
  | [] => Ok (k, None)
  | item :: items' =>
      '(k, err) ← legacy_pick k item;
      match err with
      | Some e => Ok (k, Some e)
      | None => legacy_picks k items'
      end
  end.

Definition legacy_EndBlock (k : Store) : outcome (Store * goerr) :=
  let minSwapsPerBlock := liq_config env k "MinSwapsPerBlock" in
  let maxSwapsPerBlock := liq_config env k "MaxSwapsPerBlock" in
  let mult := GetMimir k "VirtualMultSynthsBasisPoints" in
  let mult := if mult <? 1 then qeConstant qenv "VirtualMultSynthsBasisPoints" else mult in
  swaps ← legacy_FetchQueue k;
  swaps ← legacy_scoreMsgs k mult swaps;
  let swaps := Sort swaps in
  let todo := getTodoNum (len swaps) minSwapsPerBlock maxSwapsPerBlock in
  legacy_picks k (take (Z.to_nat todo) swaps).
End legacy_queue.

(** ** A swap of the queue is handled once a block *)
Section handled_once.
Context {B : Type} `{Bank B} {K : SdkKeys} {S : SdkMath}.
Abbreviation Store := (KVStore B) (only parsing).
Implicit Types k : Store.

(** Stored streaming records are valid and under their own names. *)
Definition records_ok k : Prop :=
  forall key swp, kStreaming k !! key = Some swp ->
    key = GetKey prefixStreamingSwap (ssTxID swp) /\ StreamingSwap_Valid swp = None.

Definition legacy_same k k' : Prop :=
  kSwapQueue k' = kSwapQueue k /\ kStreaming k' = kStreaming k /\ kHeight k' = kHeight k.

#[export] Instance legacy_same_preorder : PreOrder legacy_same.
Proof. split; [done|]. intros k1 k2 k3 (H1 & H2 & H3) (H4 & H5 & H6). repeat split; congruence. Qed.

Definition queue_entry k (item : swapItem) : option MsgSwap :=
  kSwapQueue k !!
    GetKey prefixSwapQueueItem (formatSwapQueueItemKey (txID (mTx (siMsg item))) (siIndex item)).

Context (env : LiquidityEnv Store).
Abbreviation qenv := (leQueue env) (only parsing).

(** Scheduling an outbound leaves the items and the records alone. *)
Class LegacyEnvOk : Prop := {
  lg_try_add toi clout k : legacy_same k (fst (qeTryAddTxOutItem qenv toi clout k))
}.
Context {Henv : LegacyEnvOk}.

Lemma legacy_same_bank k b : legacy_same k (with_bank k b).
Proof using. done. Qed.

Lemma legacy_refund_same k tx m k' : refundTx qenv k tx m = Ok k' -> legacy_same k k'.
Proof using Henv. exact (refundTx_R qenv legacy_same legacy_same_bank lg_try_add k tx m k'). Qed.

Lemma refund_failed_same k msg k' : refund_failed env k msg = Ok k' -> legacy_same k k'.
Proof using Henv.
  unfold refund_failed. destruct (refundTx _ _ _ _) as [k1|?|] eqn:Hr; [|by intros [= <-]|done].
  intros [= <-]. by apply legacy_refund_same in Hr.
Qed.

Lemma legacy_outbound_same k msg swp k' : legacy_outbound env k msg swp = Ok k' -> legacy_same k k'.
Proof using Henv.
  unfold legacy_outbound. destruct (qeParseMemo _ _ _) as [memo err].
  intros ([] & _ & Ho)%bind_Ok_inv. case_if_in Ho; [|by injection Ho as <-].
  apply bind_Ok_inv in Ho as (agg & _ & Ho).
  by apply (try_add_cleanup_R qenv legacy_same legacy_same_bank lg_try_add) in Ho.
Qed.

Lemma legacy_remainder_same k msg swp k' : legacy_remainder env k msg swp = Ok k' -> legacy_same k k'.
Proof using Henv.
  unfold legacy_remainder. case_if; [|by intros [= <-]]. intros (r & _ & Hr)%bind_Ok_inv.
  apply bind_Ok_inv in Hr as (c & _ & Hr).
  destruct (refundTx _ _ _ _) as [k1|?|] eqn:Hf; [|by injection Hr as <-|done].
  injection Hr as <-. by apply legacy_refund_same in Hf.
Qed.

(** Counting an attempt keeps a record valid. *)
Lemma legacy_count_valid swp err h :
  StreamingSwap_Valid (legacy_count swp err h) = StreamingSwap_Valid swp.
Proof using. unfold legacy_count. by destruct err. Qed.
Lemma legacy_count_fields swp err h :
  ssTxID (legacy_count swp err h) = ssTxID swp /\ ssLastHeight (legacy_count swp err h) = h.
Proof using. unfold legacy_count. by destruct err. Qed.

Lemma removed_entry k item : queue_entry
  (RemoveSwapQueueItem k (txID (mTx (siMsg item))) (siIndex item)) item = None.
Proof using. unfold queue_entry, RemoveSwapQueueItem. simpl. by rewrite lookup_delete_eq. Qed.

(** A record counted at this height is not due again. *)
Lemma counted_not_due k msg swp first err : Streaming.GetStreamingSwap msg = Ok first ->
  IsLegacyStreaming msg = true -> 0 < kHeight k -> StreamingSwap_Valid swp = None ->
  GetKey prefixStreamingSwap (ssTxID swp) = GetKey prefixStreamingSwap (txID (mTx msg)) ->
  legacy_due env (SetStreamingSwap k (legacy_count swp err (kHeight k))) msg = Ok false.
Proof using.
  intros Hf Hl Hh Hv Hk. unfold legacy_due, legacy_record. rewrite Hl, Hf. simpl. case_if; [done|].
  destruct (legacy_count_fields swp err (kHeight k)) as [Hid Hlast].
  assert (kStreaming (SetStreamingSwap k (legacy_count swp err (kHeight k))) !!
    GetKey prefixStreamingSwap (txID (mTx msg)) = Some (legacy_count swp err (kHeight k))) as Hl'.
  { unfold SetStreamingSwap. rewrite legacy_count_valid, Hv. simpl. rewrite Hid, Hk. apply lookup_insert_eq. }
  unfold StreamingSwapExists, Keeper.GetStreamingSwap. rewrite Hl'. simpl.
  rewrite Hlast.
  assert (kHeight (SetStreamingSwap k (legacy_count swp err (kHeight k))) = kHeight k) as ->
    by (unfold SetStreamingSwap; by case_match).
  destruct (0 <? kHeight k) eqn:Hb; [|lia]. by rewrite Z.leb_refl.
Qed.

(** A failed run of a streaming swap: unless it has swapped before, all of it goes
    back and its item is gone. *)
Lemma failure_handles k item swp k1 refunded msg : records_ok k ->
  Streaming.GetStreamingSwap (siMsg item) = Ok swp ->
  IsLegacyStreaming (siMsg item) = true ->
  legacy_failure env k item swp = Ok (k1, refunded, msg) ->
  kHeight k1 = kHeight k /\ IsLegacyStreaming msg = true /\ IsLimitSwap msg = IsLimitSwap (siMsg item) /\
  if refunded then queue_entry k1 item = None
  else records_ok k1 /\ StreamingSwapExists k1 (txID (mTx (siMsg item))) = true.
Proof using.
  intros Hr Hf Hl. unfold legacy_failure. rewrite Hl.
  destruct (StreamingSwapExists k (txID (mTx (siMsg item)))) eqn:Hex.
  - case_if; intros [= <- <- <-]; split_and!; try done. apply (removed_entry (RemoveStreamingSwap k _)).
  - apply bind_Ok_inv in Hf as (a & _ & [= <-]). intros [= <- <- <-].
    split_and!; try done. apply (removed_entry (RemoveStreamingSwap k _)).
Qed.

Lemma close_handles k item msg refunded e k' err first :
  legacy_close env k item msg refunded e = Ok (k', err) ->
  Streaming.GetStreamingSwap (siMsg item) = Ok first ->
  IsLegacyStreaming (siMsg item) = true -> 0 < kHeight k ->
  (if refunded then queue_entry k item = None
   else records_ok k /\ StreamingSwapExists k (txID (mTx (siMsg item))) = true) ->
  queue_entry k' item = None \/ legacy_due env k' (siMsg item) = Ok false.
Proof using Henv.
  set (hash := txID (mTx (siMsg item))). unfold legacy_close. fold hash.
  set (swp := legacy_count _ e _). set (k1 := if negb refunded then _ else k).
  intros Hc Hf Hl Hh Hcase.
  assert (queue_entry k1 item = None \/ legacy_due env k1 (siMsg item) = Ok false) as Hk1.
  { subst k1. destruct refunded; simpl; [by left|]. right. destruct Hcase as [Hr Hex].
    unfold StreamingSwapExists in Hex. apply bool_decide_eq_true in Hex as [s Hs].
    subst swp. unfold Keeper.GetStreamingSwap. rewrite Hs. simpl. destruct (Hr _ _ Hs) as [Hn Hv].
    by eapply counted_not_due. }
  destruct (StreamingSwap_Valid swp); [by injection Hc as <- <-|].
  destruct (StreamingSwap_IsDone swp); [|by injection Hc as <- <-]. left.
  set (k2 := RemoveStreamingSwap (RemoveSwapQueueItem k1 hash (siIndex item)) hash) in *.
  assert (queue_entry k2 item = None) as Hk2 by apply (removed_entry k1).
  destruct (legacy_outbound env k2 msg swp) as [k3|?|] eqn:Ho; [|by injection Hc as <- <-|done].
  apply bind_Ok_inv in Hc as (k4 & Hr & [= <- _]).
  apply legacy_outbound_same in Ho as [Ho _]. apply legacy_remainder_same in Hr as [Hr _].
  unfold queue_entry in *. by rewrite Hr, Ho.
Qed.
End handled_once.

(** C21. The legacy queue handles a swap at most once a block: when [EndBlock] is
    done with a pick, its item has left the queue, or it is a streaming swap
    whose record counts this block, so that it is not due again in it.  The
    streaming records start valid, and the swap handler, when it succeeds, keeps
    them so, stays in the block and has saved the record of a streaming swap. *)
Theorem legacy_pick_once {B} `{Bank B} {K : SdkKeys} {S : SdkMath}
    (env : LiquidityEnv (KVStore B)) `{!LegacyEnvOk env} k item k' err :
  0 < kHeight k -> records_ok k ->
  (forall k1 e, qeRunSwap (leQueue env) (siMsg item) k = Ok (k1, e) ->
     records_ok k1 /\ kHeight k1 = kHeight k /\
     (IsLegacyStreaming (siMsg item) = true -> IsLimitSwap (siMsg item) = false ->
        StreamingSwapExists k1 (txID (mTx (siMsg item))) = true)) ->
  legacy_pick env k item = Ok (k', err) ->
  queue_entry k' item = None \/
  IsLegacyStreaming (siMsg item) = true /\ legacy_due env k' (siMsg item) = Ok false.
Proof.
  intros Hh Hr Hrun. unfold legacy_pick. intros (swp & Hf & Hp)%bind_Ok_inv.
  apply bind_Ok_inv in Hp as ([ [ [k1 refunded] e] msg] & H1 & Hp).
  destruct (IsLegacyStreaming msg && negb (IsLimitSwap msg)) eqn:Hstream;
    [|injection Hp as <- <-; left; apply removed_entry].
  apply andb_true_iff in Hstream as [Hl Hlim]. apply negb_true_iff in Hlim.
  destruct (qeRunSwap (leQueue env) (siMsg item) k) as [ [k2 a]|e'|] eqn:Hq; [| |done].
  - injection H1 as <- <- <- <-. destruct (Hrun _ _ eq_refl) as (Hr1 & Hh1 & Hex).
    destruct (close_handles env k2 item (siMsg item) false None k' err swp Hp Hf Hl) as [Hn|Hd]; auto.
    by rewrite Hh1.
  - apply bind_Ok_inv in H1 as ([ [k2 r2] m2] & Hfail & H1). apply bind_Ok_inv in H1 as (k3 & Hk3 & H1).
    injection H1 as <- <- <- <-.
    destruct (IsLegacyStreaming (siMsg item)) eqn:Hl0.
    + destruct (failure_handles env k item swp k2 r2 m2 Hr Hf Hl0 Hfail) as (Hh2 & _ & _ & Hcase).
      assert (legacy_same k2 k3) as (Hs1 & Hs2 & Hs3).
      { destruct r2; [by eapply refund_failed_same|by injection Hk3 as <-]. }
      destruct (close_handles env k3 item m2 r2 (Some e') k' err swp Hp Hf Hl0) as [Hn|Hd]; auto.
      * by rewrite Hs3, Hh2.
      * unfold records_ok, queue_entry, StreamingSwapExists in *. by rewrite Hs1, Hs2.
    + unfold legacy_failure in Hfail. rewrite Hl0 in Hfail.
      apply bind_Ok_inv in Hfail as (adr & _ & [= _ _ <-]). congruence.
Qed.

(** ** The property at a concrete input: the first half of a streaming swap *)

Definition demo_legacy_env : LiquidityEnv (KVStore SimpleBank) :=
  mkLiquidityEnv (handler_queue_env (K := keys_std) (S := sdk_std) demo_handler_env)
    (fun _ => Ok "pol") (fun c _ => Ok (NewCoin (GetGasAsset c) 50)) (fun _ _ => 10) (fun _ => true)
    false "Available".

#[export] Instance demo_legacy_env_ok : LegacyEnvOk demo_legacy_env.
Proof. by split. Qed.

Definition demo_stream : MsgSwap :=
  mkMsgSwap (mkTx demo_hash BTCChain "a" "b" [NewCoin BTCAsset 3000000] [mkCoin BTCAsset 1 0]
      "=:ETH.ETH")
    ETHAsset "b" 0 "" 0 "s" "" "" None SwapType_market 2 1 0
    (mkSwapState 1 2 0 0 0 3000000 0 0 0 [] []) SwapVersion_v1 0.
Definition demo_streaming_store : KVStore SimpleBank :=
  with_bank
    (SetMimir (SetMimir (SetSwapQueueItem demo_book demo_stream 0) "StreamingSwapMaxLength" 100)
       "L1SlipMinBps" 1)
    (sb_change AsgardName (Asset_Native DecaAsset) (10 ^ 12) (kBank demo_book)).
Definition demo_half : swapItem := mkSwapItem 0 demo_stream 0 0.
Definition demo_half_run := ok_or (demo_queue_0, 0)
  (qeRunSwap (leQueue demo_legacy_env) demo_stream demo_streaming_store).
Definition demo_half_done := ok_or (demo_queue_0, None)
  (legacy_pick (S := sdk_std) demo_legacy_env demo_streaming_store demo_half).
Definition demo_half_record : StreamingSwap :=
  mkStreamingSwap demo_hash 1 2 0 0 0 3000000 1500000 1499100471 [] [].

Lemma Ok_fst {X Y} (p : X * Y) a b : Ok p = Ok (a, b) -> a = fst p.
Proof. by intros [= ->]. Qed.

Lemma demo_half_records : records_ok (fst demo_half_run).
Proof.
  assert (kStreaming (fst demo_half_run) =
    {[ GetKey prefixStreamingSwap demo_hash := demo_half_record ]}) as Hk by (vm_compute; reflexivity).
  intros key swp. rewrite Hk. clear Hk. intros [<- <-]%lookup_singleton_Some.
  split; reflexivity.
Qed.

Lemma legacy_pick_once_witness :
  legacy_pick (S := sdk_std) demo_legacy_env demo_streaming_store demo_half = Ok demo_half_done /\
  queue_entry (fst demo_half_done) demo_half = Some demo_stream /\
  legacy_due demo_legacy_env (fst demo_half_done) demo_stream = Ok false.
Proof.
  assert (Hp : legacy_pick (S := sdk_std) demo_legacy_env demo_streaming_store demo_half =
    Ok demo_half_done) by (vm_compute; reflexivity).
  assert (Hq : queue_entry (fst demo_half_done) demo_half = Some demo_stream)
    by (vm_compute; reflexivity).
  assert (Hs : kStreaming demo_streaming_store = ∅) by (vm_compute; reflexivity).
  split; [exact Hp|]. split; [exact Hq|].
  destruct (legacy_pick_once (S := sdk_std) demo_legacy_env demo_streaming_store demo_half
    (fst demo_half_done) (snd demo_half_done)) as [Hn|[_ Hd]].
  - vm_compute. reflexivity.
  - intros key swp. rewrite Hs. clear. rewrite lookup_empty. discriminate.
  - intros k1 e Hr. assert (qeRunSwap (leQueue demo_legacy_env) demo_stream demo_streaming_store
      = Ok demo_half_run) as Hr' by (vm_compute; reflexivity).
    change (siMsg demo_half) with demo_stream in Hr. rewrite Hr' in Hr.
    rewrite (Ok_fst _ _ _ Hr). clear Hr Hr' Hp Hq Hs.
    split; [exact demo_half_records|]. split; [vm_compute; reflexivity|].
    intros _ _. vm_compute. reflexivity.
  - rewrite Hp. apply (f_equal Ok), surjective_pairing.
  - rewrite Hq in Hn. discriminate.
  - exact Hd.
Defined.
