(* ===== verification/Affiliates.v ===== *)
(** Affiliate fees, [x/thorchain/helpers_affiliates.go]: the fees of the
    affiliates of a swap are skimmed from its outbound, paid in DECA or queued as
    swaps to DECA, and the DECA collected for a THORName is swapped to the asset
    it prefers.

    An error leaves the changes made before it: callers run on a cached store. *)
From S2P Require Import Prelude SdkMath GoStr Keys Shares Chains Assets Coins Bank Nodes Txs.
From S2P Require Import Decimal GoLib Addresses Voters Mimir Observed Pools Streaming MemoTypes Vaults.
From S2P Require Import Keeper MemoParser Halt VaultStore NodeStore SwapCalc Swaps Outbounds.
From S2P Require Import LimitIndex SwapSort Settle SwapQueue Liquidity Helpers Bonds SwapCheck LegacyQueue.
Local Open Scope string_scope.
Local Open Scope Z_scope.

Record AffiliateFeeCollector := mkAffiliateFeeCollector {
  afOwnerAddress : AccAddress;
  afRuneAmount : Z
}.

Definition Coin_String (c : Coin) : string := itoa (cAmount c) ++ " " ++ Asset_String (cAsset c).

(** [NewSwapMemo] of [helpers.go]: the text of a swap memo. *)
Definition NewSwapMemoStr (targetAsset : Asset) (destination : Address) (limit : Z) (affiliate : string)
    (affiliateBps : Z) : string :=
  "=:" ++ Asset_String targetAsset ++ ":" ++ destination ++ ":" ++ itoa limit ++ ":" ++ affiliate ++
  ":" ++ itoa affiliateBps.

Section affiliates.
Context {B : Type} `{Bank B} {K : SdkKeys} {S : SdkMath} {L : AddressLib} {P : MemoLib}.
Context (constants : string -> Z) (env : LiquidityEnv (KVStore B)).
Abbreviation Store := (KVStore B) (only parsing).
Abbreviation qenv := (leQueue env) (only parsing).

Definition getEffectiveMultiplier (k : Store) (tn : THORName) : Z :=
  let multiplier := cfg constants k "PreferredAssetOutboundFeeMultiplier" in
  let multiplier := if 1 <=? tnPreferredAssetOutboundFeeMultiplier tn
                    then tnPreferredAssetOutboundFeeMultiplier tn else multiplier in
  if multiplier <? 1 then 1 else multiplier.

Definition queue_version (k : Store) : SwapVersion :=
  if AdvSwapQueueEnabled (swap_env qenv) k then SwapVersion_v2 else SwapVersion_v1.

(** A market swap of all of a transaction at any price. *)
Definition protocol_swap (k : Store) (tx : Tx) (target : Asset) (destination : Address)
    (signer : AccAddress) : outcome MsgSwap :=
  NewMsgSwap tx target destination 0 NoAddress 0 "" "" None SwapType_market 1 0 (queue_version k) signer.

Definition swap_with_index (m : MsgSwap) (i : Z) : MsgSwap :=
  mkMsgSwap (mTx m) (TargetAsset m) (Destination m) (TradeTarget m) (AffiliateAddress m)
    (AffiliateBasisPoints m) (mSigner m) (mAggregator m) (AggregatorTargetAddress m)
    (AggregatorTargetLimit m) (mSwapType m) (StreamQuantity m) (StreamInterval m)
    (InitialBlockHeight m) (State m) (mVersion m) i.

(** *** Fees of the affiliates of a swap *)

(** Swaps of secured and trade assets come from a THORChain address. *)
Definition ensureAffiliateFromAddress (tx : Tx) : outcome Tx :=
  match txCoins tx with
  | [] => Panic
  | c :: _ =>
      if (IsSecuredAsset (cAsset c) || IsTradeAsset (cAsset c)) &&
         negb (IsTHORChain (Address_GetChain (txFrom tx))) then
        asgardAddress ← wrap_err "failed to retrieve the asgard module address: "
          (leModuleAddress env AsgardName);
        Ok (mkTx (txID tx) (txChain tx) asgardAddress (txTo tx) (txCoins tx) (txGas tx) (txMemo tx))
      else Ok tx
  end.

Definition tx_with_memo (tx : Tx) (memo : string) : Tx :=
  mkTx (txID tx) (txChain tx) (txFrom tx) (txTo tx) (txCoins tx) (txGas tx) memo.

(** The swap of the fee of one affiliate to DECA.  No caller gives a THORName
    ([thorname] is never set), so the memo names the address. *)
Definition affiliate_swap (k : Store) (mainTx : Tx) (signer : AccAddress) (affAmt : Z)
    (affAcc : AccAddress) : outcome MsgSwap :=
  affAddr ← wrap_err "fail to parse affiliate address: " (NewAddress (acc_string affAcc));
  amount ← first_amount mainTx;
  let mainTx := if affAmt <=? amount then Streaming.with_amount mainTx affAmt else mainTx in
  mainTx ← ensureAffiliateFromAddress mainTx;
  protocol_swap k (tx_with_memo mainTx (NewSwapMemoStr DecaAsset affAddr 0 affAddr 0)) DecaAsset affAddr
    signer.

(** The index is raised before the swap is queued: it counts failures too. *)
Definition affiliateSwapToRune (k : Store) (mainTx : Tx) (signer : AccAddress) (affAmt : Z)
    (affAcc : AccAddress) (swapIndex : Z) : Z * outcome Store :=
  match (affiliateSwap ← affiliate_swap k mainTx signer affAmt affAcc;
         willSucceed ← willSwapOutputExceedLimitAndFees env k affiliateSwap;
         if (willSucceed : bool) then Ok affiliateSwap
         else Err "swap will not succeed, skipping affiliate swap") with
  | Err e => (swapIndex, Err e)
  | Panic => (swapIndex, Panic)
  | Ok affiliateSwap =>
      let swapIndex := swapIndex + 1 in
      (swapIndex,
       if AdvSwapQueueEnabled (swap_env qenv) k then
         wrap_err "fail to add swap to advanced queue: "
           (AddSwapQueueItem qenv k (swap_with_index affiliateSwap swapIndex))
       else Ok (SetSwapQueueItem k affiliateSwap swapIndex))
  end.

(** The account of an affiliate; [None] when it is not one on THORChain. *)
Definition affiliate_account (affiliate : string) : outcome (option AccAddress) :=
  match NewAddress affiliate with
  | Panic => Panic
  | Err _ => Ok None
  | Ok addr =>
      if negb (IsTHORChain (Address_GetChain addr)) then Ok None
      else
        match AccAddress_of addr with
        | Ok decaAddr => Ok (Some decaAddr)
        | Err _ => Ok None
        | Panic => Panic
        end
  end.

(** The loop: the store, the fees distributed, the index of the last swap. *)
Record SkimRun := mkSkimRun { srStore : Store; srTotal : Z; srIndex : Z }.

(** The payment of one fee; [None] when it failed and is skipped. *)
Definition pay_affiliate (mainTx : Tx) (signer : AccAddress) (coin : Coin) (decaAddr : AccAddress)
    (affAmt : Z) (r : SkimRun) : outcome (option Store) * Z :=
  let skip (o : outcome Store) := match o with
                                  | Ok k => Ok (Some k) | Err _ => Ok None | Panic => Panic end in
  if IsDeca (cAsset coin) then
    (skip (SendFromModuleToAccount (srStore r) AsgardName decaAddr (NewCoin (cAsset coin) affAmt)),
     srIndex r)
  else
    let '(idx, o) := affiliateSwapToRune (srStore r) mainTx signer affAmt decaAddr (srIndex r) in
    (skip o, idx).

(** The event also reads the basis points as a [uint64]. *)
Definition skim_one (mainTx : Tx) (signer : AccAddress) (coin : Coin) (r : SkimRun)
    (affiliate : string) (feeBps : Z) : outcome SkimRun :=
  account ← affiliate_account affiliate;
  match account with
  | None => Ok r
  | Some decaAddr =>
      if feeBps =? 0 then Ok r
      else
        affAmt ← GetSafeShare feeBps MaxBasisPts (cAmount coin);
        let '(paid, idx) := pay_affiliate mainTx signer coin decaAddr affAmt r in
        paid ← paid;
        match paid with
        | None => Ok (mkSkimRun (srStore r) (srTotal r) idx)
        | Some k =>
            _ ← uint64_or_panic feeBps;
            total ← uint_add (srTotal r) affAmt;
            Ok (mkSkimRun k total idx)
        end
  end.

(** An affiliate without basis points is an index out of range. *)
Fixpoint skim_all (mainTx : Tx) (signer : AccAddress) (coin : Coin) (r : SkimRun)
    (affiliates : list string) (affiliatesBps : list Z) : outcome SkimRun :=
  match affiliates, affiliatesBps with
  | [], _ => Ok r
  | _ :: _, [] => Panic
  | a :: affiliates', bps :: affiliatesBps' =>
      r ← skim_one mainTx signer coin r a bps;
      skim_all mainTx signer coin r affiliates' affiliatesBps'
  end.

(** The total that was distributed, in the asset of the coin. *)
Definition skimAffiliateFees (mainTx : Tx) (signer : AccAddress) (coin : Coin) (memoStr : string)
    (k : Store) : Store * outcome Z :=
  if Tx_IsEmpty mainTx then (k, Err "main tx is empty")
  else if Coin_IsEmpty coin then (k, Err "coin is empty")
  else
    match ParseMemoWithTHORNames constants k memoStr with
    | (_, Some e) => (k, Err e)
    | (memo, None) =>
        match GetAffiliates memo, GetAffiliatesBasisPoints memo with
        | [], _ | _, [] => (k, Ok 0)
        | affiliates, affiliatesBps =>
            match skim_all mainTx signer coin (mkSkimRun k 0 1) affiliates affiliatesBps with
            | Ok r => (srStore r, Ok (srTotal r))
            | Err e => (k, Err e)
            | Panic => (k, Panic)
            end
        end
    end.

(** *** The swap to the asset a THORName prefers *)

(** The id of the swap: the hash of the name, the coin and the height.  [sha256]
    prints the digest in capitals. *)
Context (sha256 : string -> string).

Definition preferred_swap_text (k : Store) (tn : THORName) (affCoin : Coin) : string :=
  tnName tn ++ "|" ++ Coin_String affCoin ++ "|" ++ itoa (kHeight k).

(** The record the swap is observed by. *)
Definition preferred_voter (k : Store) (tx : Tx) : ObservedTxVoter :=
  let txIn := mkObservedTx tx Status_incomplete [] 0 [] "" 0 0 "" "" None in
  let v := NewObservedTxVoter (txID tx) [txIn] in
  mkObservedTxVoter (ovTxID v) txIn (kHeight k) (ovTxs v) (Actions v) (OutTxs v) (kHeight k)
    (UpdatedVault v) (Reverted v) (OutboundHeight v) (UnfinalizedHeight v).

(** The checks, and the transaction the swap is made of. *)
Definition preferred_tx (k : Store) (tn : THORName) (affcol : AffiliateFeeCollector) : outcome (Tx * Address) :=
  let alias := GetAlias tn (GetChain (tnPreferredAsset tn)) in
  if Address_Equals alias NoAddress then
    Err ("no alias for preferred asset, skip preferred asset swap: " ++ tnName tn)
  else if afRuneAmount affcol =? 0 then
    Err "can't execute preferred asset swap, accrued RUNE amount is zero"
  else
    let acBalance := bank_balance (kBank k) AffiliateCollectorName (Asset_Native DecaAsset) in
    if acBalance <? afRuneAmount affcol then
      Err ("rune amount greater than module balance: (" ++ itoa (afRuneAmount affcol) ++ "/" ++
           itoa acBalance ++ ")")
    else
      let affCoin := NewCoin DecaAsset (afRuneAmount affcol) in
      asgardAddress ← leModuleAddress env AsgardName;
      affColAddress ← leModuleAddress env AffiliateCollectorName;
      let str := preferred_swap_text k tn affCoin in
      paTxID ← NewTxID (sha256 str);
      if negb (length (ovTxs (GetObservedTxInVoter k paTxID)) =? 0)%nat then
        Err ("preferred asset tx: " ++ str ++ " already exists")
      else
        Ok (NewTx paTxID affColAddress asgardAddress [affCoin] []
              (PreferredAssetSwapMemoPrefix ++ "-" ++ tnName tn), alias).

(** The voter is written and the swap queued before the DECA moves. *)
Definition triggerPreferredAssetSwap (k : Store) (tn : THORName) (affcol : AffiliateFeeCollector)
    (queueIndex : Z) : outcome Store :=
  '(tx, alias) ← preferred_tx k tn affcol;
  preferredAssetSwap ← protocol_swap k tx (tnPreferredAsset tn) alias (tnOwner tn);
  let k := SetObservedTxInVoter k (preferred_voter k tx) in
  k ← (if AdvSwapQueueEnabled (swap_env qenv) k then AddSwapQueueItem qenv k preferredAssetSwap
       else Ok (SetSwapQueueItem k preferredAssetSwap queueIndex));
  wrap_err "failed to send rune to asgard: "
    (SendFromModuleToModule k AffiliateCollectorName AsgardName (NewCoin DecaAsset (afRuneAmount affcol))).
End affiliates.

(** ** Fees in DECA *)
Section affiliate_props.
Context {B : Type} `{HBank : Bank B} `{!BankOk B} {K : SdkKeys} {S : SdkMath} `{!SdkMathOk S}.
Context {L : AddressLib} {P : MemoLib}.
Context (constants : string -> Z) (env : LiquidityEnv (KVStore B)).
Implicit Types k : KVStore B.

(** What a list of basis points may take: each fee is rounded half up. *)
Definition fees_cap (amount : Z) (bps : list Z) : Z := sumZ (map (fun b => 2 * b * amount + MaxBasisPts) bps).

Lemma affiliate_share bps amount r : is_uint bps -> is_uint amount ->
  GetSafeShare bps MaxBasisPts amount = Ok r ->
  is_uint r /\ 2 * r * MaxBasisPts <= 2 * bps * amount + MaxBasisPts.
Proof.
  intros Hb Ha Hr. apply GetSafeShare_inv in Hr as [-> Hr]; [|done|unfold is_uint, uint_lim, MaxBasisPts; lia|done].
  split; [done|]. pose proof (share_near (Z.min bps MaxBasisPts) MaxBasisPts amount ltac:(done)).
  unfold is_uint in *. nia.
Qed.

(** The state of the loop: the Asgard module has paid what was distributed. *)
Definition skim_ok k0 (cap : Z) (r : SkimRun (B := B)) : Prop :=
  is_uint (srTotal r) /\ 2 * srTotal r * MaxBasisPts <= cap /\ kPools (srStore r) = kPools k0 /\
  deca_of (srStore r) AsgardName = deca_of k0 AsgardName - srTotal r.

Lemma asgard_pays k addr a n k' : IsDeca a = true ->
  SendFromModuleToAccount k AsgardName addr (NewCoin a n) = Ok k' ->
  deca_of k' AsgardName = deca_of k AsgardName - n /\ kPools k' = kPools k.
Proof.
  intros Ha Hs. unfold SendFromModuleToAccount in Hs. apply bind_Ok_inv in Hs as (b & Hb & Hs). injection Hs as <-.
  destruct (bank_send_ok _ _ _ _ _ _ Hb) as [Hbal _]. unfold deca_of. rewrite Hbal.
  cbn [NewCoin cAsset cAmount]. rewrite (Asset_Native_deca a Ha), moved_from by (unfold account_name; discriminate). done.
Qed.

Lemma skim_one_ok k0 cap mainTx signer coin r affiliate bps r' : IsDeca (cAsset coin) = true ->
  is_uint (cAmount coin) -> is_uint bps -> skim_ok k0 cap r ->
  skim_one env mainTx signer coin r affiliate bps = Ok r' ->
  skim_ok k0 (cap + (2 * bps * cAmount coin + MaxBasisPts)) r'.
Proof.
  intros Hd Ha Hb (Hu & Hc & Hp & Hbal) Hs.
  assert (Hstay : forall idx, skim_ok k0 (cap + (2 * bps * cAmount coin + MaxBasisPts)) (mkSkimRun (srStore r) (srTotal r) idx)).
  { intros idx. split_and!; [done| |done..]. cbn [srTotal]. unfold is_uint, MaxBasisPts in *. nia. }
  assert (Hr : r = mkSkimRun (srStore r) (srTotal r) (srIndex r)) by (by destruct r).
  unfold skim_one in Hs. apply bind_Ok_inv in Hs as (account & _ & Hs).
  destruct account as [addr|]; [|injection Hs as <-; rewrite Hr; apply Hstay].
  case_if_in Hs; [injection Hs as <-; rewrite Hr; apply Hstay|].
  apply bind_Ok_inv in Hs as (amt & Hamt & Hs). apply affiliate_share in Hamt as [Hau Hab]; [|done..].
  unfold pay_affiliate in Hs. rewrite Hd in Hs.
  destruct (SendFromModuleToAccount _ _ _ _) as [k1| |] eqn:Es; cbn [mbind outcome_bind] in Hs;
    [|injection Hs as <-; apply Hstay|done].
  apply bind_Ok_inv in Hs as (? & _ & Hs). apply bind_Ok_inv in Hs as (total & Ht & Hs). injection Hs as <-.
  apply uint_add_inv in Ht as [-> Ht]; [|done..]. apply asgard_pays in Es as [H1 H2]; [|done].
  unfold skim_ok. cbn [srStore srTotal]. split_and!; [done|lia|congruence|lia].
Qed.

Lemma skim_all_ok k0 mainTx signer coin affiliates : IsDeca (cAsset coin) = true -> is_uint (cAmount coin) ->
  forall bps cap r r', Forall is_uint bps -> 0 <= cap -> skim_ok k0 cap r ->
  skim_all env mainTx signer coin r affiliates bps = Ok r' ->
  skim_ok k0 (cap + fees_cap (cAmount coin) bps) r'.
Proof.
  intros Hd Ha. unfold fees_cap. induction affiliates as [|a affiliates IH]; intros bps cap r r' Hb Hcap Hr Hs; simpl in Hs.
  - injection Hs as <-. destruct Hr as (H1 & H2 & H3). split_and!; [done| |apply H3..].
    enough (0 <= sumZ (map (fun b => 2 * b * cAmount coin + MaxBasisPts) bps)) by lia.
    apply sumZ_nonneg, Forall_map. eapply Forall_impl; [exact Hb|]. simpl. unfold is_uint, MaxBasisPts in *. nia.
  - destruct Hb as [|b bps Hb Hbs]; [done|]. apply bind_Ok_inv in Hs as (r1 & H1 & Hs).
    eapply skim_one_ok in H1; [|done..|exact Hr]. apply IH with (cap := cap + (2 * b * cAmount coin + MaxBasisPts)) in Hs; [|done| |done].
    + simpl. by rewrite Z.add_assoc.
    + unfold is_uint, MaxBasisPts in *. nia.
Qed.

(** When the coin skimmed is DECA, the total that is taken off the user's
    outbound is exactly what left the Asgard module for the affiliates, whichever
    of them are paid or skipped, no pool changes, and the total is at most the
    sum of the fees in the memo, each rounded half up. *)
Theorem skim_pays_total k mainTx signer coin memoStr k' total :
  IsDeca (cAsset coin) = true -> is_uint (cAmount coin) ->
  Forall is_uint (GetAffiliatesBasisPoints (ParseMemoWithTHORNames constants k memoStr).1) ->
  skimAffiliateFees constants env mainTx signer coin memoStr k = (k', Ok total) ->
  deca_of k' AsgardName = deca_of k AsgardName - total /\ kPools k' = kPools k /\ 0 <= total /\
  2 * total * MaxBasisPts <=
    fees_cap (cAmount coin) (GetAffiliatesBasisPoints (ParseMemoWithTHORNames constants k memoStr).1).
Proof.
  intros Hd Ha Hb Hs. unfold skimAffiliateFees in Hs. do 2 (case_if_in Hs; [done|]).
  destruct (ParseMemoWithTHORNames _ _ _) as [memo [e|]]; [done|]. cbn [fst] in *.
  assert (Hcap : 0 <= fees_cap (cAmount coin) (GetAffiliatesBasisPoints memo)).
  { apply sumZ_nonneg, Forall_map. eapply Forall_impl; [exact Hb|]. simpl. unfold is_uint, MaxBasisPts in *. nia. }
  assert (Hnone : (k, Ok 0) = (k', Ok total) -> deca_of k' AsgardName = deca_of k AsgardName - total /\
    kPools k' = kPools k /\ 0 <= total /\
    2 * total * MaxBasisPts <= fees_cap (cAmount coin) (GetAffiliatesBasisPoints memo)).
  { intros [= <- <-]. split_and!; [lia|done|lia|done]. }
  destruct (GetAffiliates memo) as [|a affiliates]; [by apply Hnone|].
  destruct (GetAffiliatesBasisPoints memo) as [|b bps] eqn:Eb; [by apply Hnone|].
  destruct (skim_all _ _ _ _ _ _ _) as [r| |] eqn:Er; simplify_eq.
  assert (Hstart : skim_ok k 0 (mkSkimRun k 0 1)) by (split_and!; [apply is_uint_0|done|done|simpl; lia]).
  apply (skim_all_ok k _ _ _ _ Hd Ha _ 0 _ _ Hb ltac:(done) Hstart) in Er.
  destruct Er as (H1 & H2 & H3 & H4). unfold is_uint in H1. split_and!; [done|done|lia|lia].
Qed.
End affiliate_props.

(** ** The property at a concrete input: the third affiliate is not on THORChain *)

Definition demo_affiliate_constants (name : string) : Z :=
  if String.eqb name "MultipleAffiliatesMaxCount" then 5 else 0.
Definition demo_affiliate_store : KVStore SimpleBank :=
  empty_store (mkSimpleBank {[("asgard", "deca") := 1000000]} {["deca" := 1000000]}) 7.
Definition demo_affiliate_memo : string := "=:DECA:thor1dest:0:thor1aff/thor1bob/bc1x:30/70/9".
Definition demo_affiliate_tx : Tx :=
  mkTx "AB" THORChain "thor1x" "thor1dest" [NewCoin DecaAsset 12345] [] "".

Lemma skim_pays_total_witness : exists k',
  skimAffiliateFees (K := keys_std) (S := sdk_std) (L := addr_std) (P := memo_lib_std) demo_affiliate_constants
    demo_liquidity_env demo_affiliate_tx "signer" (NewCoin DecaAsset 12345) demo_affiliate_memo
    demo_affiliate_store = (k', Ok 123) /\
  deca_of k' AsgardName = 1000000 - 123.
Proof.
  eexists. split; [vm_compute; reflexivity|].
  match goal with |- deca_of ?k _ = _ => set (k' := k) end.
  destruct (skim_pays_total (K := keys_std) (S := sdk_std) (L := addr_std) (P := memo_lib_std)
    demo_affiliate_constants demo_liquidity_env demo_affiliate_store demo_affiliate_tx "signer"
    (NewCoin DecaAsset 12345) demo_affiliate_memo k' 123) as (H1 & _).
  - reflexivity.
  - split; vm_compute; congruence.
  - replace (GetAffiliatesBasisPoints _) with [30; 70; 9] by (vm_compute; reflexivity).
    repeat constructor; vm_compute; congruence.
  - vm_compute. reflexivity.
  - rewrite H1. vm_compute. reflexivity.
Defined.
