(* ===== verification/TxOutMgr.v ===== *)
(** The outbound manager, [x/thorchain/manager_txout_current.go]: what is taken
    off an outbound before it is sent, the vaults that pay it, the block it is
    put in, and the payment itself when the coins live on THORChain.

    [TryAddTxOutItem] works on a cached copy of the store that is committed only
    when no error is reported: the functions below it return an [outcome], and
    an error means that nothing was written. *)
From S2P Require Import Prelude SdkMath GoStr Keys Shares Chains Assets Coins Bank Nodes Txs.
From S2P Require Import Decimal GoLib Addresses Voters Mimir Observed Pools Streaming MemoTypes Vaults.
From S2P Require Import Keeper MemoParser Halt VaultStore NodeStore Swaps Outbounds GasMgr OutboundPlan.
From S2P Require Import LimitIndex Settle SwapQueue Liquidity Helpers Bonds SwapCheck Affiliates.
Local Open Scope string_scope.
Local Open Scope Z_scope.

Definition EVMNullAddress : Address := "0x0000000000000000000000000000000000000000".

(** What the manager gets from components outside the model, with the two that
    lead back to the message handlers: the queue the swaps of affiliates are
    added to and the handler an outbound on THORChain is passed to. *)
Record TxOutEnv (St : Type) := mkTxOutEnv {
  txConstant : string -> Z;                            (* the compiled-in constants *)
  txThorAddress : PubKey -> outcome AccAddress;        (* PubKey.GetThorAddress *)
  txPubKeyAddress : PubKey -> Chain -> outcome Address;  (* PubKey.GetAddress *)
  txModuleAddress : string -> outcome Address;         (* GetModuleAddress *)
  txNewBCHAddress : Address -> outcome Address;        (* ConvertToNewBCHAddressFormat *)
  txLiquidity : LiquidityEnv St;                       (* the queue affiliate swaps go to *)
  txHandle : ObservedTx -> St -> outcome St            (* processOneTxIn and its handler *)
}.
Arguments mkTxOutEnv {St}.
Arguments txConstant {St}.
Arguments txThorAddress {St}.
Arguments txPubKeyAddress {St}.
Arguments txModuleAddress {St}.
Arguments txNewBCHAddress {St}.
Arguments txLiquidity {St}.
Arguments txHandle {St}.

(** ** Updates of an item *)
Definition toi_with_memo (t : TxOutItem) (memo : string) : TxOutItem :=
  with_memos t memo (OriginalMemo t).
Definition toi_with_address (t : TxOutItem) (addr : Address) : TxOutItem :=
  mkTxOutItem (toChain t) addr (VaultPubKey t) (toCoin t) (toMemo t)
    (OriginalMemo t) (MaxGas t) (GasRate t) (InHash t) (OutHash t) (Txs.ModuleName t) (toAggregator t)
    (toAggregatorTargetAsset t) (toAggregatorTargetLimit t) (CloutSpent t) (VaultPubKeyEddsa t).
Definition toi_with_in_hash (t : TxOutItem) (hash : TxID) : TxOutItem :=
  mkTxOutItem (toChain t) (toToAddress t) (VaultPubKey t) (toCoin t) (toMemo t)
    (OriginalMemo t) (MaxGas t) (GasRate t) hash (OutHash t) (Txs.ModuleName t) (toAggregator t)
    (toAggregatorTargetAsset t) (toAggregatorTargetLimit t) (CloutSpent t) (VaultPubKeyEddsa t).
Definition toi_with_limits (t : TxOutItem) (limit clout : option Z) : TxOutItem :=
  mkTxOutItem (toChain t) (toToAddress t) (VaultPubKey t) (toCoin t) (toMemo t)
    (OriginalMemo t) (MaxGas t) (GasRate t) (InHash t) (OutHash t) (Txs.ModuleName t) (toAggregator t)
    (toAggregatorTargetAsset t) limit clout (VaultPubKeyEddsa t).
Definition toi_with_clout (t : TxOutItem) (clout : Z) : TxOutItem :=
  toi_with_limits t (toAggregatorTargetLimit t) (Some clout).
Definition toi_with_module (t : TxOutItem) (module : string) : TxOutItem :=
  mkTxOutItem (toChain t) (toToAddress t) (VaultPubKey t) (toCoin t) (toMemo t)
    (OriginalMemo t) (MaxGas t) (GasRate t) (InHash t) (OutHash t) module (toAggregator t)
    (toAggregatorTargetAsset t) (toAggregatorTargetLimit t) (CloutSpent t) (VaultPubKeyEddsa t).
Definition voter_with_outbound_height (m : ObservedTxVoter) (h : Z) : ObservedTxVoter :=
  mkObservedTxVoter (ovTxID m) (ovTx m) (ovHeight m) (ovTxs m) (Actions m) (OutTxs m)
    (FinalisedHeight m) (UpdatedVault m) (Reverted m) h (UnfinalizedHeight m).
Definition voter_with_action (m : ObservedTxVoter) (height : Z) (item : TxOutItem) : ObservedTxVoter :=
  mkObservedTxVoter (ovTxID m) (ovTx m) (ovHeight m) (ovTxs m) (Actions m ++ [item])%list (OutTxs m)
    height (UpdatedVault m) (Reverted m) (OutboundHeight m) (UnfinalizedHeight m).

Section txout.
Context {B : Type} `{Bank B} {K : SdkKeys} {S : SdkMath} {L : AddressLib} {P : MemoLib}.
Context (env : TxOutEnv (KVStore B)).
Abbreviation Store := (KVStore B) (only parsing).
Let constants := txConstant env.

(** *** The memo and the address *)

(** Whether a memo may be left out, when it parses. *)
Definition memoless (memo : string) : option bool :=
  match ParseMemo (B := B) constants memo with
  | (m, None) => Some (IsOutboundMemoless (GetType m))
  | (_, Some _) => None
  end.

(** The data behind the first bar of the inbound memo is passed through. *)
Definition pass_data (toi : TxOutItem) (inboundMemo : string) : TxOutItem :=
  match split_n "|" 2 inboundMemo with
  | [_; data] =>
      let memo := toMemo toi ++ "|" ++ data in
      toi_with_memo toi
        (if MaxMemoLength (toChain toi) <? str_len memo
         then String.substring 0 (Z.to_nat (MaxMemoLength (toChain toi))) memo else memo)
  | _ => toi
  end.

Definition prepare_memo (k : Store) (toi : TxOutItem) : TxOutItem :=
  let toi := if String.eqb (toMemo toi) ""
             then toi_with_memo toi (Memo_String (NewOutboundMemo (InHash toi))) else toi in
  let toi := if TxID_IsEmpty (InHash toi) then toi_with_in_hash toi BlankTxID
             else pass_data toi (txMemo (otTx (ovTx (GetObservedTxInVoter k (InHash toi))))) in
  applyMemolessOutboundLogic memoless toi (cfg constants k "EnableMemolessOutbound").

Definition convert_bch (toi : TxOutItem) : outcome TxOutItem :=
  if Chain_Equals (toChain toi) BCHChain then
    newBCHAddress ← wrap_err "fail to convert BCH address to new format: "
      (txNewBCHAddress env (toToAddress toi));
    if Address_IsEmpty newBCHAddress then Err "empty to address , can't send out"
    else Ok (toi_with_address toi newBCHAddress)
  else Ok toi.

Definition prepare_address (toi : TxOutItem) : outcome TxOutItem :=
  if Address_IsEmpty (toToAddress toi) then Err "empty to address, can't send out"
  else if negb (Address_IsChain (toToAddress toi) (toChain toi)) then
    Err ("to address(" ++ toToAddress toi ++ "), is not of chain(" ++ toChain toi ++ ")")
  else convert_bch toi.

(** *** The vaults *)

Fixpoint deduct_pending (vaults : Vaults) (pending : list TxOutItem) : outcome Vaults :=
  match vaults with
  | [] => Ok []
  | v :: vaults' =>
      v ← DeductVaultPendingOutbounds v pending;
      rest ← deduct_pending vaults' pending;
      Ok (v :: rest)
  end.

(** The vaults of a status, less secure ones first, less what they owe. *)
Definition available_vaults (k : Store) (status : VaultStatus) (what : string)
    (pending : list TxOutItem) : outcome Vaults :=
  vaults ← wrap_err ("fail to get " ++ what ++ " vaults: ") (GetAsgardVaultsByStatus k status);
  vaults ← SortBySecurity (txThorAddress env) (txPubKeyAddress env) k vaults
    (constants "SigningTransactionPeriod");
  deduct_pending vaults pending.

Definition select_vaults (k : Store) (toi : TxOutItem) (transactionFeeAmount : Z) (maxGasCoin : Coin) :
    outcome (list TxOutItem) :=
  if IsTHORChain (toChain toi) || negb (PubKey_IsEmpty (VaultPubKey toi)) then Ok [toi]
  else
    let pending := GetPendingOutbounds constants k (toi_asset toi) in
    active ← available_vaults k VaultStatus_ActiveVault "active" pending;
    retiring ← available_vaults k VaultStatus_RetiringVault "retiring" pending;
    '(outputs, remaining) ← DiscoverOutbounds (txPubKeyAddress env) k transactionFeeAmount
      maxGasCoin toi (active ++ retiring)%list;
    if negb (remaining =? 0) then
      Err ("insufficient funds for outbound request: " ++ toToAddress toi ++ " " ++ itoa remaining ++
           " remaining")
    else Ok outputs.

(** *** The fees *)

(** The pool and the store while the outputs are charged, the DECA owed to the
    Reserve, the outputs kept. *)
Record Prep := mkPrep {
  ppStore : Store;
  ppPool : Pool;
  ppFee : Z;
  ppOut : list TxOutItem
}.
Definition prep_keep (p : Prep) (pool : Pool) (fee : Z) : Prep :=
  mkPrep (ppStore p) pool fee (ppOut p).

(** What becomes of an output worth nothing: an error when a withdrawal caused
    it, so that its units are restored; otherwise it is dropped. *)
Definition drop_empty (k : Store) (item : TxOutItem) : outcome unit :=
  if negb (TxID_IsEmpty (InHash item)) && negb (TxID_Equals (InHash item) BlankTxID) then
    let voter := GetObservedTxInVoter k (InHash item) in
    if ObservedTx_IsEmpty (ovTx voter) then Ok tt
    else
      match ParseMemoWithTHORNames constants k (txMemo (otTx (ovTx voter))) with
      | (_, Some _) => Ok tt
      | (inboundMemo, None) =>
          if Memo_IsType inboundMemo TxWithdraw then Err "tx out item has zero coin" else Ok tt
      end
  else Ok tt.

(** The gas of an output without one; the error also prints it. *)
Definition fill_gas (maxGasCoin : Coin) (gasRate : Z) (item : TxOutItem) : outcome TxOutItem :=
  if Gas_IsEmpty (MaxGas item) then
    let item := with_max_gas [maxGasCoin] item in
    if Gas_IsEmpty (MaxGas item) && negb (Chain_Equals (toChain item) THORChain) then
      Err "max gas cannot be empty"
    else Ok (with_gas_rate gasRate item)
  else Ok item.

(** Whether the fee is deducted; an inactive vault pays the gas of its gas asset
    out of the amount instead.  A vault that is not found counts as inactive. *)
Definition deduct_gas (k : Store) (feeDeduction : bool) (item : TxOutItem) :
    outcome (bool * TxOutItem) :=
  if IsTHORChain (toChain item) then Ok (feeDeduction, item)
  else
    status ← (match GetVault k (VaultPubKey item) with
              | Ok v => Ok (vStatus v)
              | Err _ => Ok VaultStatus_InactiveVault
              | Panic => Panic
              end);
    let feeDeduction := if status =? VaultStatus_InactiveVault then false else feeDeduction in
    if negb feeDeduction && IsGasAsset (toi_asset item) then
      amount ← SafeSub (toi_amount item)
        (cAmount (Coins_GetCoin (ToCoins (MaxGas item)) (toi_asset item)));
      Ok (feeDeduction, toi_with_amount item amount)
    else Ok (feeDeduction, item).

(** The fee of an output in DECA: at most the whole amount. *)
Definition deca_fee (transactionFeeAmount : Z) (p : Prep) (item : TxOutItem) :
    outcome (Prep * TxOutItem) :=
  let runeFee := if toi_amount item <? transactionFeeAmount then toi_amount item
                 else transactionFeeAmount in
  fee ← uint_add (ppFee p) runeFee;
  amount ← SafeSub (toi_amount item) runeFee;
  Ok (prep_keep p (ppPool p) fee, toi_with_amount item amount).

(** Synths and derived assets sent from Asgard: the fee is burned. *)
Definition burn_fee (k : Store) (item : TxOutItem) (assetFee : Z) : outcome Store :=
  if (IsSyntheticAsset (toi_asset item) || IsDerivedAsset (toi_asset item)) &&
     String.eqb (GetModuleName item) AsgardName && negb (assetFee =? 0) then
    let coin := NewCoin (toi_asset item) assetFee in
    k ← wrap_err "fail to move native asset fee from asgard to Module: "
      (SendFromModuleToModule k AsgardName ModuleName coin);
    wrap_err "fail to burn native asset: " (BurnFromModule k ModuleName coin)
  else Ok k.

(** The pool buys the fee: it gets the asset and gives up DECA. *)
Definition charge_pool (pool : Pool) (item : TxOutItem) (assetFee : Z) : outcome (Pool * Z) :=
  disbursement ← RuneDisbursementForAssetAdd pool assetFee;
  let poolDeduct := if BalanceDeca pool <? disbursement then BalanceDeca pool else disbursement in
  asset ← (if negb (IsSyntheticAsset (toi_asset item)) then uint_add (BalanceAsset pool) assetFee
           else Ok (BalanceAsset pool));
  deca ← SafeSub (BalanceDeca pool) poolDeduct;
  Ok (with_balances pool deca asset, poolDeduct).

(** The fee of an output in another asset; [None] when the output is dropped. *)
Definition asset_fee (toi : TxOutItem) (transactionFeeAmount : Z) (p : Prep) (item : TxOutItem) :
    outcome (option (Prep * TxOutItem)) :=
  let assetFee := if toi_amount item <=? transactionFeeAmount then toi_amount item
                  else transactionFeeAmount in
  coinAmountAfterFee ← SafeSub (toi_amount item) assetFee;
  if IsGasAsset (toi_asset toi) && (coinAmountAfterFee <? DustThreshold (toChain toi)) then Ok None
  else if coinAmountAfterFee =? 0 then _ ← drop_empty (ppStore p) item; Ok None
  else
    k ← burn_fee (ppStore p) item assetFee;
    '(pool, poolDeduct) ← charge_pool (ppPool p) item assetFee;
    fee ← uint_add (ppFee p) poolDeduct;
    Ok (Some (mkPrep k pool fee (ppOut p), toi_with_amount item coinAmountAfterFee)).

Definition take_fee (toi : TxOutItem) (transactionFeeAmount : Z) (p : Prep) (item : TxOutItem) :
    outcome (option (Prep * TxOutItem)) :=
  if IsDeca (toi_asset item) then
    r ← deca_fee transactionFeeAmount p item; Ok (Some r)
  else
    units ← GetPoolUnits (ppPool p);
    if negb (units =? 0) then asset_fee toi transactionFeeAmount p item else Ok (Some (p, item)).

(** The output is recorded as an action of its inbound. *)
Definition keep_output (p : Prep) (item : TxOutItem) : outcome Prep :=
  amount ← (if negb (IsSyntheticAsset (toi_asset item))
            then RoundToDecimal (toi_amount item) (plDecimals (ppPool p)) else Ok (toi_amount item));
  let item := toi_with_amount item amount in
  let k := ppStore p in
  let k := if negb (TxID_Equals (InHash item) BlankTxID)
           then SetObservedTxInVoter k
             (voter_with_action (GetObservedTxInVoter k (InHash item)) (kHeight k) item)
           else k in
  Ok (mkPrep k (ppPool p) (ppFee p) (ppOut p ++ [item])%list).

(** One output; the lending module is not charged. *)
Definition prepare_output (toi : TxOutItem) (lendAddr : Address) (transactionFeeAmount : Z)
    (maxGasCoin : Coin) (gasRate : Z) (p : Prep) (item : TxOutItem) : outcome Prep :=
  item ← fill_gas maxGasCoin gasRate item;
  let '(memo, err) := ParseMemoWithTHORNames constants (ppStore p) (GetMemo item) in
  let feeDeduction := match err with None => negb (Memo_IsType memo TxRagnarok) | Some _ => false end in
  '(feeDeduction, item) ← deduct_gas (ppStore p) feeDeduction item;
  charged ← (if feeDeduction && negb (Memo_IsType memo TxMigrate) &&
                negb (Address_Equals (toToAddress toi) lendAddr)
             then take_fee toi transactionFeeAmount p item
             else Ok (Some (p, item)));
  match charged with
  | None => Ok p
  | Some (p, item) =>
      if Coin_IsEmpty (toCoin item) then _ ← drop_empty (ppStore p) item; Ok p
      else keep_output p item
  end.

(** The fees of DECA come from the module that sends; those of the pools from
    the same module, except for derived assets. *)
Definition collect_fee (k : Store) (toi : TxOutItem) (finalRuneFee : Z) : outcome Store :=
  let coin := NewCoin DecaAsset finalRuneFee in
  if finalRuneFee =? 0 then Ok k
  else if Coin_IsDeca (toCoin toi) then
    if negb (String.eqb (Txs.ModuleName toi) ReserveName) then
      wrap_err "fail to send fee to reserve: "
        (SendFromModuleToModule k (GetModuleName toi) ReserveName coin)
    else Ok k
  else if negb (IsDerivedAsset (toi_asset toi)) && negb (String.eqb (GetModuleName toi) ReserveName)
  then wrap_err "fail to send fee to reserve: "
         (SendFromModuleToModule k (GetModuleName toi) ReserveName coin)
  else Ok k.

Definition prepareTxOutItem (k : Store) (toi : TxOutItem) : outcome (Store * list TxOutItem * Z) :=
  let toi := prepare_memo k toi in
  toi ← prepare_address toi;
  let pool := GetPool k (GetLayer1Asset (toi_asset toi)) in
  '(k, transactionFeeAmount) ← wrap_err "fail to get outbound fee: "
    (GetAssetOutboundFee constants k (toi_asset toi) false);
  '(maxGasCoin, gasRate) ← wrap_err "fail to get max gas details: "
    (GetGasDetails constants k (toChain toi));
  outputs ← select_vaults k toi transactionFeeAmount maxGasCoin;
  lendAddr ← wrap_err "fail to get lending address: " (txModuleAddress env LendingName);
  p ← fold_ok (prepare_output toi lendAddr transactionFeeAmount maxGasCoin gasRate)
    (mkPrep k pool 0 []) outputs;
  k ← (if negb (Pool_IsEmpty (ppPool p))
       then wrap_err "fail to save pool: " (SetPool (ppStore p) (ppPool p)) else Ok (ppStore p));
  k ← collect_fee k toi (ppFee p);
  Ok (k, ppOut p, ppFee p).

(** *** Sending *)

(** The module an address belongs to, or the account it names. *)
Definition pay_native (k : Store) (toi : TxOutItem) (addr : AccAddress) : outcome Store :=
  polAddress ← txModuleAddress env ReserveName;
  affColAddress ← txModuleAddress env AffiliateCollectorName;
  claimingAddress ← txModuleAddress env TCYClaimingName;
  let to := toToAddress toi in
  let from := Txs.ModuleName toi in
  if Address_Equals polAddress to then SendFromModuleToModule k from ReserveName (toCoin toi)
  else if Address_Equals affColAddress to then
    SendFromModuleToModule k from AffiliateCollectorName (toCoin toi)
  else if Address_Equals claimingAddress to then
    SendFromModuleToModule k from TCYClaimingName (toCoin toi)
  else SendFromModuleToAccount k from addr (toCoin toi).

(** The transaction a native payment is observed as. *)
Definition native_tx (k : Store) (toi : TxOutItem) : outcome ObservedTx :=
  from ← txModuleAddress env (Txs.ModuleName toi);
  outboundTxFee ← GetOutboundTxFee constants k;
  let tx := NewTx BlankTxID from (toToAddress toi) [toCoin toi] [NewCoin DecaAsset outboundTxFee]
    (GetMemo toi) in
  active ← GetAsgardVaultsByStatus k VaultStatus_ActiveVault;
  match active with
  | [] => Err "dev error: no pubkey for native txn"
  | v :: _ => Ok (mkObservedTx tx Status_incomplete [] (kHeight k) [] (vPubKey v) 0 (kHeight k) "" "" None)
  end.

Definition nativeTxOut (k : Store) (toi : TxOutItem) : outcome Store :=
  addr ← AccAddress_of (toToAddress toi);
  let toi := toi_with_module toi (GetModuleName toi) in
  k ← (if String.eqb (Txs.ModuleName toi) ModuleName then
         wrap_err "fail to mint coins during txout: "
           (MintToModule k (Txs.ModuleName toi) (toCoin toi))
       else Ok k);
  k ← pay_native k toi addr;
  observedTx ← native_tx k toi;
  txHandle env observedTx k.

Definition addToBlockOut (k : Store) (item : TxOutItem) (outboundHeight : Z) : outcome Store :=
  if IsTHORChain (toChain item) then nativeTxOut k item
  else
    let item := toi_with_limits item (Some (default 0 (toAggregatorTargetLimit item)))
                  (Some (default 0 (CloutSpent item))) in
    Ok (AppendTxOut k outboundHeight item).

(** The shares of the clout applied; the last output gets the remainder. *)
Fixpoint add_outputs (k : Store) (outputs : list TxOutItem) (outboundHeight sumOutput cloutApplied
    totalCloutShare : Z) : outcome Store :=
  match outputs with
  | [] => Ok k
  | [output] =>
      cloutShare ← SafeSub cloutApplied totalCloutShare;
      addToBlockOut k (toi_with_clout output cloutShare) outboundHeight
  | output :: outputs' =>
      cloutShare ← GetSafeShare (toi_amount output) sumOutput cloutApplied;
      totalCloutShare ← uint_add totalCloutShare cloutShare;
      k ← addToBlockOut k (toi_with_clout output cloutShare) outboundHeight;
      add_outputs k outputs' outboundHeight sumOutput cloutApplied totalCloutShare
  end.

Definition sum_outputs (outputs : list TxOutItem) : outcome Z :=
  fold_ok (fun s o => uint_add s (toi_amount o)) 0 outputs.

(** The block the outputs go to: delayed as planned, counted from the block the
    inbound reached consensus in; the inbound remembers the furthest one. *)
Definition outbound_height (k : Store) (toi first : TxOutItem) : outcome (Store * Z * Z) :=
  if negb (IsTHORChain (toChain toi)) && negb (TxID_IsEmpty (InHash toi)) &&
     negb (TxID_Equals (InHash toi) BlankTxID) then
    let voter := GetObservedTxInVoter k (InHash toi) in
    '(k, targetHeight, cloutApplied) ← CalcTxOutHeight constants k first;
    let targetHeight := if 0 <? ovHeight voter
                        then i64 (i64 (targetHeight - kHeight k) + ovHeight voter)
                        else targetHeight in
    let outboundHeight := if kHeight k <? targetHeight then targetHeight else kHeight k in
    let k := if OutboundHeight voter <? outboundHeight
             then SetObservedTxInVoter k (voter_with_outbound_height voter outboundHeight) else k in
    Ok (k, outboundHeight, cloutApplied)
  else Ok (k, kHeight k, 0).

(** A failure to record the fee is only logged. *)
Definition cachedTryAddTxOutItem (k : Store) (toi : TxOutItem) (minOut : Z) : outcome Store :=
  '(k, outputs, totalOutboundFeeRune) ← wrap_err "failed to prepare tx out item: "
    (prepareTxOutItem k toi);
  match outputs with
  | [] => Err "not enough asset to pay for fees"
  | first :: _ =>
      sumOut ← sum_outputs outputs;
      if sumOut <? minOut then
        _ ← uint64_or_panic sumOut;
        _ ← uint64_or_panic minOut;
        Err ("outbound amount does not meet requirements (" ++ itoa sumOut ++ "/" ++ itoa minOut ++ ")")
      else
        '(k, outboundHeight, cloutApplied) ← outbound_height k toi first;
        k ← add_outputs k outputs outboundHeight sumOut cloutApplied 0;
        if negb (totalOutboundFeeRune =? 0) && negb (IsTHORChain (toChain toi)) then
          match AddToOutboundFeeWithheldRune constants k (toi_asset toi) totalOutboundFeeRune with
          | (_, Panic) => Panic
          | (k, _) => Ok k
          end
        else Ok k
  end.

(** *** Affiliates *)

Definition isAffiliateFeeExemptOutbound (memo : string) : bool :=
  String.prefix "REFUND" memo || String.prefix "MIGRATE" memo.
Definition isAffiliateFeeExemptInbound (memo : string) : bool :=
  String.eqb memo "" || String.prefix "THOR-PREFERRED-ASSET" memo.

(** What the affiliates are paid from. *)
Definition affiliate_tx (toi : TxOutItem) (inbound : Tx) : Tx :=
  mkTx (InHash toi) (toChain toi) (txFrom inbound) (toToAddress toi) [toCoin toi]
    [NewCoin (GetGasAsset (toChain toi)) 1] (txMemo inbound).

(** The store and the amount left for the user; an error leaves the amount. *)
Definition takeAffiliateFee (k : Store) (toi : TxOutItem) : Store * outcome Z :=
  if isAffiliateFeeExemptOutbound (toMemo toi) then (k, Ok (toi_amount toi))
  else
    let inbound := otTx (ovTx (GetObservedTxInVoter k (InHash toi))) in
    if isAffiliateFeeExemptInbound (txMemo inbound) then (k, Ok (toi_amount toi))
    else
      match ParseMemoWithTHORNames constants k (txMemo inbound) with
      | (_, Some e) => (k, Err ("fail to parse memo: " ++ e))
      | (memo, None) =>
          if IsDeca (toi_asset toi) && negb (IsDeca (Memo_GetAsset memo)) then (k, Ok (toi_amount toi))
          else if Memo_IsType memo TxSwap && (0 <? len (GetAffiliatesBasisPoints memo)) then
            match ListActiveValidators k with
            | [] => (k, Err "dev err: no active node accounts")
            | na :: _ =>
                match skimAffiliateFees constants (txLiquidity env) (affiliate_tx toi inbound) (NodeAddress na)
                        (toCoin toi) (txMemo inbound) k with
                | (k, Ok totalAffiliateFee) => (k, SafeSub (toi_amount toi) totalAffiliateFee)
                | (k, Err _) => (k, SafeSub (toi_amount toi) 0)
                | (k, Panic) => (k, Panic)
                end
            end
          else (k, Ok (toi_amount toi))
      end.

Definition TryAddTxOutItem (toi : TxOutItem) (minOut : Z) (k : Store) : Store * outcome bool :=
  if IsNoop (toToAddress toi) then (k, Ok true)
  else if IsEVM (toChain toi) && Address_Equals (toToAddress toi) EVMNullAddress then (k, Ok true)
  else
    match takeAffiliateFee k toi with
    | (_, Panic) => (k, Panic)
    | (cached, r) =>
        let toi := match r with
                   | Ok amount =>
                       if negb (IsTradeAsset (toi_asset toi)) && negb (IsSecuredAsset (toi_asset toi))
                       then toi_with_amount toi amount else toi
                   | _ => toi
                   end in
        match cachedTryAddTxOutItem cached toi minOut with
        | Ok k' => (k', Ok true)
        | Err e => (k, Err e)
        | Panic => (k, Panic)
        end
    end.

Definition UnSafeAddTxOutItem (k : Store) (toi : TxOutItem) (height : Z) : outcome Store :=
  if IsNoop (toToAddress toi) then Ok k
  else toi ← convert_bch toi; addToBlockOut k toi height.

(** *** The block *)

Definition GetBlockOut (k : Store) : TxOut := GetTxOut k (kHeight k).
Definition GetOutboundItems (k : Store) : list TxOutItem := TxArray (GetBlockOut k).
Definition GetOutboundItemByToAddress (k : Store) (to : Address) : list TxOutItem :=
  List.filter (fun item => Address_Equals (toToAddress item) to) (GetOutboundItems k).
Definition ClearOutboundItems (k : Store) : Store := ClearTxOut k (kHeight k).

(** The gas a chain's outbounds are due; an error gives none. *)
Definition gas_details (k : Store) (chain : Chain) : outcome (Coin * Z) :=
  match GetGasDetails constants k chain with
  | Ok r => Ok r
  | Err _ => Ok (NoCoin, 0)
  | Panic => Panic
  end.

(** An error of the update of the inbound's action is only logged. *)
Definition logged (k : Store) (r : outcome Store) : outcome Store :=
  match r with Ok k' => Ok k' | Err _ => Ok k | Panic => Panic end.

Definition refresh_item (k : Store) (tx : TxOutItem) : outcome (Store * TxOutItem) :=
  let voter := GetObservedTxInVoter k (InHash tx) in
  if (0 <? OutboundHeight voter) && (OutboundHeight voter <? kHeight k) then Ok (k, tx)
  else
    '(maxGasCoin, gasRate) ← gas_details k (toChain tx);
    let stale := match MaxGas tx with
                 | [] => true
                 | g :: _ => negb (Coin_IsEmpty maxGasCoin) && negb (cAmount maxGasCoin =? cAmount g)
                 end in
    '(k, item) ← (if stale then
                    k ← logged k (updateTxOutGas k tx [maxGasCoin]);
                    Ok (k, with_max_gas [maxGasCoin] tx)
                  else Ok (k, tx));
    if (0 <? gasRate) && negb (GasRate item =? gasRate) then
      k ← logged k (updateTxOutGasRate k tx gasRate);
      Ok (k, with_gas_rate gasRate item)
    else Ok (k, item).

Fixpoint refresh_items (k : Store) (items : list TxOutItem) : outcome (Store * list TxOutItem) :=
  match items with
  | [] => Ok (k, [])
  | tx :: items' =>
      '(k, item) ← refresh_item k tx;
      '(k, rest) ← refresh_items k items';
      Ok (k, item :: rest)
  end.

Definition TxOut_EndBlock (k : Store) : outcome Store :=
  let txOut := GetBlockOut k in
  '(k, items) ← refresh_items k (TxArray txOut);
  Ok (SetTxOut k (mkTxOut (toHeight txOut) items)).
End txout.
