(* ===== verification/Slasher.v ===== *)
(** The slasher, [x/thorchain/manager_slasher_current.go]: what validators lose
    when a vault sends more than it was asked to, the slash points of a block,
    and the rescheduling or recovery of outbounds that were not signed in time.

    [LackSigning] and [SlashVault] keep the changes made before an error. *)
From S2P Require Import Prelude SdkMath GoStr Keys Shares Chains Assets Coins Bank Nodes Txs.
From S2P Require Import Decimal GoLib Addresses Voters Mimir Observed Pools Streaming MemoTypes Vaults.
From S2P Require Import Keeper MemoParser Halt VaultStore NodeStore Swaps Outbounds GasMgr OutboundPlan.
From S2P Require Import ObservedStore LimitIndex Settle SwapQueue Liquidity Helpers Bonds SwapCheck.
From S2P Require Import Affiliates TxOutMgr.
Local Open Scope string_scope.
Local Open Scope Z_scope.

(** What the slasher gets from components outside the model. *)
Record SlasherEnv (St : Type) := mkSlasherEnv {
  seTxOut : TxOutEnv St;
  seModuleAccAddress : string -> AccAddress;       (* GetModuleAccAddress *)
  seConsAddress : string -> outcome string;        (* the address of a consensus key, in hex *)
  seSha256 : string -> string                      (* the digest, in capital hex *)
}.
Arguments mkSlasherEnv {St}.
Arguments seTxOut {St}.
Arguments seModuleAccAddress {St}.
Arguments seConsAddress {St}.
Arguments seSha256 {St}.

(** The treasury of the network the node is built for. *)
Definition TreasuryAddress {L : AddressLib} : Address :=
  match CurrentChainNetwork with
  | MockNet => "tthor1zf3gsk7edzwl9syyefvfhle37cjtql35h6k85m"
  | StageNet => "sthor1g6pnmnyeg48yc3lg796plt0uw50qpp7humfggz"
  | ChainNet => "cthor1wvrexfj4sj9vrwmmhqtsmg5phr7m776dl8uxdw"
  | MainNet | TestNet => "thor10qh5272ktq4wes8ex343ky9rsuehcypddjh08k"
  end.

(** Evidence of a double sign or of another kind; a vote of the last commit. *)
Record Evidence := mkEvidence {
  evDuplicateVote : bool;
  evAddress : string;
  evHeight : Z
}.
Record VoteInfo := mkVoteInfo { viAddress : string; viAbsent : bool }.

Definition with_missing_blocks (m : NodeAccount) (n : Z) : NodeAccount :=
  mkNodeAccount (NodeAddress m) (Status m) (naPubKeySet m) (ValidatorConsPubKey m) (naBond m)
    (ActiveBlockHeight m) (naBondAddress m) (StatusSince m) (SignerMembership m) (RequestedToLeave m)
    (ForcedToLeave m) (LeaveScore m) (IPAddress m) (naVersion m) (naType m) n (Maintenance m).

Section slasher.
Context {B : Type} `{Bank B} {K : SdkKeys} {S : SdkMath} {L : AddressLib} {P : MemoLib}.
Context (env : SlasherEnv (KVStore B)).
Abbreviation Store := (KVStore B) (only parsing).
Let constants := txConstant (seTxOut env).
Let lenv := txLiquidity (seTxOut env).
Let qenv := leQueue lenv.

(** *** Slash points *)

Definition IncSlashPoints (k : Store) (point : Z) (addresses : list AccAddress) : Store :=
  foldl (fun k addr => IncNodeAccountSlashPoints k addr point) k addresses.
Definition DecSlashPoints (k : Store) (point : Z) (addresses : list AccAddress) : Store :=
  foldl (fun k addr => DecNodeAccountSlashPoints k addr point) k addresses.

(** The first active validator with a consensus address. *)
Definition validator_of (validatorAddresses : list (AccAddress * string)) (addr : string) :
    outcome AccAddress :=
  match List.find (fun p => String.eqb addr p.2) validatorAddresses with
  | Some p => Ok p.1
  | None => Err ("could not find active node account with validator address: " ++ addr)
  end.

Definition HandleDoubleSign (k : Store) (addr : string) (infractionHeight : Z)
    (validatorAddresses : list (AccAddress * string)) : outcome Store :=
  if constants "DoubleSignMaxAge" <? kHeight k - infractionHeight then Ok k
  else
    let points := cfg constants k "DoubleBlockSignSlashPoints" in
    nodeAddress ← validator_of validatorAddresses addr;
    let na := GetNodeAccount k nodeAddress in
    Ok (SetNodeAccount (IncNodeAccountSlashPoints k (NodeAddress na) points) na).

Definition HandleSuccessfulSign (k : Store) (addr : string)
    (validatorAddresses : list (AccAddress * string)) : outcome Store :=
  nodeAddress ← validator_of validatorAddresses addr;
  let na := GetNodeAccount k nodeAddress in
  if MissingBlocks na =? 0 then Ok k
  else Ok (SetNodeAccount k (with_missing_blocks na (MissingBlocks na - 1))).

(** [uint64] counts that are cut at the configured maximum. *)
Definition HandleMissingSign (k : Store) (addr : string)
    (validatorAddresses : list (AccAddress * string)) : outcome Store :=
  let points := cfg constants k "MissBlockSignSlashPoints" in
  let maxTrack := cfg constants k "MaxTrackMissingBlock" in
  nodeAddress ← validator_of validatorAddresses addr;
  let na := GetNodeAccount k nodeAddress in
  let k := IncNodeAccountSlashPoints k (NodeAddress na) points in
  let missing := u64 (MissingBlocks na + 1) in
  Ok (SetNodeAccount k
        (with_missing_blocks na (if u64 maxTrack <? missing then u64 maxTrack else missing))).

Fixpoint validator_addresses (nas : NodeAccounts) : outcome (list (AccAddress * string)) :=
  match nas with
  | [] => Ok []
  | na :: nas' =>
      rest ← validator_addresses nas';
      match seConsAddress env (ValidatorConsPubKey na) with
      | Ok addr => Ok ((NodeAddress na, addr) :: rest)
      | Err _ => Ok rest
      | Panic => Panic
      end
  end.

(** A failing handler is logged; it has written nothing. *)
Definition Slasher_BeginBlock (k : Store) (evidences : list Evidence) (votes : list VoteInfo) :
    outcome Store :=
  pairs ← validator_addresses (ListActiveValidators k);
  k ← fold_ok (fun k e => logged k (HandleDoubleSign k (evAddress e) (evHeight e) pairs))
        k (List.filter evDuplicateVote evidences);
  k ← fold_ok (fun k v => logged k (HandleMissingSign k (viAddress v) pairs))
        k (List.filter viAbsent votes);
  fold_ok (fun k v => logged k (HandleSuccessfulSign k (viAddress v) pairs))
    k (List.filter (fun v => negb (viAbsent v)) votes).

(** *** Slashing the bonds behind a vault *)

Fixpoint membership_bond (k : Store) (membership : list PubKey) (totalBond : Z) : outcome Z :=
  match membership with
  | [] => Ok totalBond
  | member :: membership' =>
      match GetNodeAccountByPubKey k (txThorAddress (seTxOut env)) member with
      | Ok na => totalBond ← uint_add totalBond (naBond na); membership_bond k membership' totalBond
      | Err _ => membership_bond k membership' totalBond
      | Panic => Panic
      end
  end.

(** The share of a node in the slash, by its share in the bonds. *)
Definition slashAndUpdateNodeAccount (k : Store) (na : NodeAccount) (totalBond totalSlashAmountInRune : Z) :
    outcome (Store * Z) :=
  slashAmountRune ← GetSafeShare (naBond na) totalBond totalSlashAmountInRune;
  let slashAmountRune := if naBond na <? slashAmountRune then naBond na else slashAmountRune in
  bond ← SafeSub (naBond na) slashAmountRune;
  Ok (SetNodeAccount k (with_naBond na bond), slashAmountRune).

Definition slash_member (totalBond totalRuneToSlash : Z) (acc : Store * Z) (member : PubKey) :
    outcome (Store * Z) :=
  let '(k, totalDecaSlashed) := acc in
  match GetNodeAccountByPubKey k (txThorAddress (seTxOut env)) member with
  | Ok na =>
      if naBond na =? 0 then Ok (k, totalDecaSlashed)
      else
        '(k, runeSlashed) ← slashAndUpdateNodeAccount k na totalBond totalRuneToSlash;
        total ← uint_add totalDecaSlashed runeSlashed;
        Ok (k, total)
  | Err _ => Ok (k, totalDecaSlashed)
  | Panic => Panic
  end.

(** The event reads both amounts as [uint64]. *)
Definition updatePoolFromSlash (k : Store) (pool : Pool) (stolenAsset : Coin) (runeCreditAmt : Z) :
    outcome Store :=
  asset ← SafeSub (BalanceAsset pool) (cAmount stolenAsset);
  deca ← uint_add (BalanceDeca pool) runeCreditAmt;
  k ← logged k (SetPool k (with_balances pool deca asset));
  _ ← uint64_or_panic (cAmount stolenAsset);
  _ ← uint64_or_panic runeCreditAmt;
  Ok k.

(** What was stolen is worth no more than the vault and the pool hold of it. *)
Definition stolen_asset (vault : Vault) (pool : Pool) (coin : Coin) : Z :=
  let vaultAmount := cAmount (Vault_GetCoin vault (cAsset coin)) in
  let stolen := if vaultAmount <? cAmount coin then vaultAmount else cAmount coin in
  if BalanceAsset pool <? stolen then BalanceAsset pool else stolen.

Definition halt_signing_key (chain : Chain) : string := "HaltSigning" ++ chain.
Definition halt_trading_key (chain : Chain) : string := "Halt" ++ chain ++ "Trading".
Definition pause_on_slash (k : Store) (chain : Chain) (totalRuneToSlash : Z) : Store :=
  let threshold := cfg constants k "PauseOnSlashThreshold" in
  if (0 <? threshold) && (u64 threshold <=? totalRuneToSlash) then
    SetMimir (SetMimir k (halt_signing_key chain) (kHeight k)) (halt_trading_key chain) (kHeight k)
  else k.

(** The pool is credited whether or not the DECA could be moved. *)
Definition settle_slash (k : Store) (pool : Pool) (stolenAsset : Coin)
    (stolenDecaValue totalDecaSlashed : Z) : outcome Store :=
  let runeToAsgard := if totalDecaSlashed <? stolenDecaValue then totalDecaSlashed else stolenDecaValue in
  runeToReserve ← SafeSub totalDecaSlashed runeToAsgard;
  k ← (if runeToReserve =? 0 then Ok k
       else logged k (SendFromModuleToModule k BondName ReserveName (NewCoin DecaAsset runeToReserve)));
  if runeToAsgard =? 0 then Ok k
  else
    k ← logged k (SendFromModuleToModule k BondName AsgardName (NewCoin DecaAsset runeToAsgard));
    updatePoolFromSlash k pool stolenAsset runeToAsgard.

Definition slash_coin (vault : Vault) (totalBond : Z) (k : Store) (coin : Coin) : outcome Store :=
  if Coin_IsEmpty coin then Ok k
  else
    let pool := GetPool k (cAsset coin) in
    if Pool_IsEmpty pool then Ok k
    else
      let stolenAssetValue := stolen_asset vault pool coin in
      stolenDecaValue ← AssetValueInRune pool stolenAssetValue;
      if stolenDecaValue =? 0 then Ok k
      else
        totalRuneToSlash ← GetUncappedShare (u64 (cfg constants k "SlashPenalty")) 10000 stolenDecaValue;
        let k := pause_on_slash k (aChain (cAsset coin)) totalRuneToSlash in
        '(k, totalDecaSlashed) ← fold_ok (slash_member totalBond totalRuneToSlash) (k, 0)
                                   (Vault_GetMembership vault);
        settle_slash k pool (NewCoin (cAsset coin) stolenAssetValue) stolenDecaValue totalDecaSlashed.

Definition SlashVault (k : Store) (vaultPK : PubKey) (coins : Coins) : outcome Store :=
  if Coins_IsEmpty coins then Ok k
  else
    vault ← wrap_err ("fail to get slash vault (pubkey " ++ vaultPK ++ "), ") (GetVault k vaultPK);
    totalBond ← membership_bond k (Vault_GetMembership vault) 0;
    fold_ok (slash_coin vault totalBond) k coins.

(** *** Recovering outbounds that are never signed *)

(** The id of a recovery swap, so that it cannot collide with the swap that
    failed. *)
Definition generateRecoveryTxID (k : Store) (originalTxID : TxID) (recoveryType : string) : TxID :=
  seSha256 env (originalTxID ++ ":" ++ recoveryType ++ ":" ++ itoa (kHeight k)).

(** The original transaction of a failed outbound, when it was a swap. *)
Definition getOriginalSwapDetails (k : Store) (inboundHash : TxID) : outcome (ObservedTx * SwapMemo) :=
  let voter := GetObservedTxInVoter k inboundHash in
  if TxID_IsEmpty (txID (otTx (ovTx voter))) then Err "voter tx ID is empty"
  else
    match ParseMemoWithTHORNames constants k (txMemo (otTx (ovTx voter))) with
    | (_, Some e) => Err ("could not parse original memo: " ++ e)
    | (m, None) =>
        if negb (Memo_IsType m TxSwap) then Err "original tx is not a swap"
        else match m with
             | MSwap swapMemo => Ok (ovTx voter, swapMemo)
             | _ => Err "could not cast to SwapMemo"
             end
    end.

Definition recovery_tx (id : TxID) (vaultAddr : Address) (coin : Coin) (memo : string) : Tx :=
  mkTx id THORChain vaultAddr vaultAddr [coin] [] memo.

(** A market swap of the coins of an outbound, queued for its recovery. *)
Definition queueRecoverySwap (k : Store) (toi : TxOutItem) (vault : Vault) (id : TxID)
    (targetAsset : Asset) (destination : Address) (memo recoveryType : string) : outcome Store :=
  vaultAddr ← wrap_err ("failed to get vault address for chain " ++ GetChain (cAsset (toCoin toi)) ++ ": ")
    (txPubKeyAddress (seTxOut env) (vPubKey vault) (GetChain (cAsset (toCoin toi))));
  let tx := recovery_tx (generateRecoveryTxID k id recoveryType) vaultAddr (toCoin toi) memo in
  let enabled := 0 <? cfg constants k "EnableAdvSwapQueue" in
  swapMsg ← NewMsgSwap tx targetAsset destination 0 NoAddress 0 "" "" None SwapType_market 0 1
    (if enabled then SwapVersion_v2 else SwapVersion_v1) (seModuleAccAddress env AsgardName);
  if enabled then
    wrap_err ("failed to add " ++ recoveryType ++ " recovery swap to adv queue: ")
      (AddSwapQueueItem qenv k swapMsg)
  else Ok (SetSwapQueueItem k swapMsg 0).

(** The swap back to the sender, or to the refund address of the memo when it
    is on the chain of the original coin. *)
Definition sendFailedSwapReverseSwap (k : Store) (toi : TxOutItem) (vault : Vault)
    (originalTx : ObservedTx) (swapMemo : SwapMemo) : outcome Store :=
  match txCoins (otTx originalTx) with
  | [] => Panic
  | c :: _ =>
      let refund := smRefundAddress swapMemo in
      let destination :=
        if negb (Address_IsEmpty refund) && Address_IsChain refund (GetChain (cAsset c))
        then refund else txFrom (otTx originalTx) in
      let memo := "=:" ++ Asset_String (cAsset c) ++ ":" ++ destination in
      queueRecoverySwap k toi vault (InHash toi) (cAsset c) destination memo "reverse_swap"
  end.

(** The inbound an outbound or refund memo names. *)
Definition failed_inbound (toi : TxOutItem) (memo : Memo) : TxID :=
  match memo with
  | MOutbound _ id => if negb (TxID_IsEmpty id) then id else InHash toi
  | MRefund _ id =>
      let hash := if negb (TxID_IsEmpty id) then id else InHash toi in
      if TxID_Equals hash (InHash toi) && String.prefix "REFUND:" (toMemo toi) then
        match split_n ":" 2 (toMemo toi) with
        | [_; part] =>
            if (0 <? str_len part) then
              match NewTxID part with
              | Ok txID => if negb (TxID_IsEmpty txID) then txID else hash
              | _ => hash
              end
            else hash
        | _ => hash
        end
      else hash
  | _ => InHash toi
  end.

Definition sendFailedOutboundToTreasury (k : Store) (toi : TxOutItem) (vault : Vault) (memo : Memo) :
    outcome Store :=
  let inboundHash := failed_inbound toi memo in
  let treasury := queueRecoverySwap k toi vault inboundHash DecaAsset TreasuryAddress
                    ("=:RUNE:" ++ TreasuryAddress) "treasury" in
  match getOriginalSwapDetails k inboundHash with
  | Ok (originalTx, swapMemo) =>
      match sendFailedSwapReverseSwap k toi vault originalTx swapMemo with
      | Ok k => Ok k
      | Err _ => treasury
      | Panic => Panic
      end
  | Err _ => treasury
  | Panic => Panic
  end.

(** *** Rescheduling outbounds *)

(** An observation of this outbound from its vault. *)
Definition observes (toi : TxOutItem) (tx : ObservedTx) : bool :=
  (PubKey_Equals (ObservedPubKey tx) (VaultPubKey toi) ||
   PubKey_Equals (ObservedPubKey tx) (VaultPubKeyEddsa toi)) &&
  match txCoins (otTx tx) with
  | [c] => Asset_Equals (cAsset c) (cAsset (toCoin toi))
  | _ => false
  end.

(** The signers of the transactions with the hash; every observation of the
    outbound adds the same ones. *)
Definition outbound_signers (toi : TxOutItem) (hash : TxID) (txs : list ObservedTx) : gset string :=
  if existsb (observes toi) txs then
    list_to_set (List.concat (map otSigners (List.filter (fun tx => TxID_Equals (txID (otTx tx)) hash) txs)))
  else ∅.

(** How many members of the vault are among the signers. *)
Fixpoint member_signers (signers : gset string) (members : list string) : Z :=
  match members with
  | [] => 0
  | m :: members' =>
      let rest := member_signers signers members' in
      match NewPubKey m with
      | Ok pk =>
          match txPubKeyAddress (seTxOut env) pk THORChain with
          | Ok addr => if bool_decide (addr ∈ signers) then rest + 1 else rest
          | _ => rest
          end
      | _ => rest
      end
  end.

Fixpoint needs_new_vault (k : Store) (vault : Vault) (signingTransPeriod startHeight : Z)
    (toi : TxOutItem) (outhashes : list TxID) : bool :=
  match outhashes with
  | [] => true
  | hash :: outhashes' =>
      let voter := GetObservedTxOutVoter k hash in
      let signers := outbound_signers toi hash (ovTxs voter) in
      if (0 <? FinalisedHeight voter) || (size signers =? 0)%nat then
        needs_new_vault k vault signingTransPeriod startHeight toi outhashes'
      else
        let count := member_signers signers (vMembership vault) in
        if (0 <? count) && HasSimpleMajority count (len (vMembership vault)) then false
        else
          let maxHeight := i64 (startHeight + (Z.of_nat (size signers) + 1) * signingTransPeriod) in
          maxHeight <? kHeight k
  end.
Definition needsNewVault (k : Store) (vault : Vault) (signingTransPeriod startHeight : Z)
    (toi : TxOutItem) : bool :=
  needs_new_vault k vault signingTransPeriod startHeight toi (GetObservedLink k (InHash toi)).

(** A block rounded up to a multiple of [RescheduleCoalesceBlocks]. *)
Definition coalesce (k : Store) (height : Z) : Z :=
  let blocks := cfg constants k "RescheduleCoalesceBlocks" in
  if 1 <? blocks then
    let over := Z.rem height blocks in
    if negb (over =? 0) then height + (blocks - over) else height
  else height.

(** The active vaults less what they owe; what the outbound itself takes from
    its vault is free again. *)
Fixpoint free_vaults (toi : TxOutItem) (vaults : Vaults) (pending : list TxOutItem) : outcome Vaults :=
  match vaults with
  | [] => Ok []
  | v :: vaults' =>
      v ← DeductVaultPendingOutbounds v pending;
      v ← (if PubKey_Equals (vPubKey v) (VaultPubKey toi) then
             cs ← Coins_Add (vCoins v) [toCoin toi];
             cs ← Coins_Add cs (MaxGas toi);
             Ok (with_vcoins v cs (vChains v))
           else Ok v);
      rest ← free_vaults toi vaults' pending;
      Ok (v :: rest)
  end.

(** [vaults[i%len(vaults)]]; a negative index is out of range. *)
Definition vault_at (vaults : Vaults) (i : Z) : outcome Vault :=
  let j := Z.rem i (len vaults) in
  if j <? 0 then Panic else match vaults !! Z.to_nat j with Some v => Ok v | None => Panic end.

(** The next vault to sign: another one when there is a choice. *)
Definition next_vault (k : Store) (signingTransPeriod : Z) (toi : TxOutItem) (vault : Vault)
    (active available : Vaults) (asset : Asset) : outcome Vault :=
  match available with
  | [] => Ok (match SortBy active asset with v :: _ => v | [] => vault end)
  | _ =>
      inHashValue ← TxID_Int64 (InHash toi);
      let rep := i64 (inHashValue + Z.quot (kHeight k) signingTransPeriod) in
      v ← vault_at available rep;
      if PubKey_Equals (vPubKey vault) (vPubKey v) then vault_at available (i64 (rep + 1)) else Ok v
  end.

Definition toi_with_aggregator (t : TxOutItem) (agg asset : string) (limit : option Z) : TxOutItem :=
  mkTxOutItem (toChain t) (toToAddress t) (VaultPubKey t) (toCoin t) (toMemo t)
    (OriginalMemo t) (MaxGas t) (GasRate t) (InHash t) (OutHash t) (Txs.ModuleName t) agg asset limit
    (CloutSpent t) (VaultPubKeyEddsa t).
Definition has_aggregator (t : TxOutItem) : bool :=
  negb (String.eqb (toAggregator t) "") || negb (String.eqb (toAggregatorTargetAsset t) "") ||
  match toAggregatorTargetLimit t with Some _ => true | None => false end.

(** The actions of the inbound that are this outbound get the new vault.  The
    aggregator is cleared so that the user gets the asset itself. *)
Fixpoint reassign_actions (vault : Vault) (toi : TxOutItem) (actions : list TxOutItem) :
    TxOutItem * list TxOutItem :=
  match actions with
  | [] => (toi, [])
  | action :: actions' =>
      if TxOutItem_Equals action toi then
        let action := toi_with_vault action (vPubKey vault) (PubKeyEddsa vault) in
        let clear := has_aggregator toi in
        let toi := if clear then toi_with_aggregator toi "" "" None else toi in
        let action := if clear then toi_with_aggregator action "" "" None else action in
        let '(toi, rest) := reassign_actions vault toi actions' in
        (toi, action :: rest)
      else
        let '(toi, rest) := reassign_actions vault toi actions' in
        (toi, action :: rest)
  end.

(** What becomes of an item of the block: nothing, its hash is set, an error
    that is reported at the end, an error that ends the loop. *)
Inductive Lacked :=
  | Lacked_left
  | Lacked_marked (hash : TxID)
  | Lacked_failed (e : string)
  | Lacked_stop (e : string).

(** The item to reschedule from the vault chosen for it, or what becomes of it. *)
Definition choose_vault (k : Store) (signingTransPeriod : Z) (toi : TxOutItem) (vault : Vault) :
    outcome ((Vault * Coin) + string) :=
  match GetAsgardVaultsByStatus k VaultStatus_ActiveVault with
  | Panic => Panic
  | Err e => Ok (inr ("fail to get active asgard vaults: " ++ e))
  | Ok active =>
      active ← free_vaults toi active (GetPendingOutbounds constants k (cAsset (toCoin toi)));
      maxGasCoin ← match GetMaxGas constants k (toChain toi) with
                   | Ok c => Ok c | Err _ => Ok NoCoin | Panic => Panic end;
      let mainCoin := toCoin toi in
      '(mainCoin, available) ←
        (if Asset_Equals (cAsset mainCoin) (cAsset maxGasCoin) then
           amount ← uint_add (cAmount mainCoin) (cAmount maxGasCoin);
           Ok (Coins.with_amount mainCoin amount, active)
         else Ok (mainCoin, Vaults_Has active maxGasCoin));
      v ← next_vault k signingTransPeriod toi vault active (Vaults_Has available mainCoin)
            (cAsset mainCoin);
      Ok (inl (v, maxGasCoin))
  end.

(** The gas of the item and of the action of its inbound. *)
Definition renew_gas (k : Store) (toi : TxOutItem) (maxGasCoin : Coin) : outcome (Store * TxOutItem) :=
  '(k, toi) ← (if negb (Coin_IsEmpty maxGasCoin) then
                 let toi := with_max_gas [maxGasCoin] toi in
                 k ← logged k (updateTxOutGas k toi [maxGasCoin]); Ok (k, toi)
               else Ok (k, toi));
  rate ← GetGasRate constants k (toChain toi);
  let gasRate := i64 rate in
  k ← logged k (updateTxOutGasRate k toi gasRate);
  Ok (k, with_gas_rate gasRate toi).

(** Another vault for the item: the state with the item, or what becomes of it. *)
Definition reassign (k : Store) (signingTransPeriod : Z) (memo : Memo) (voter : ObservedTxVoter)
    (vault : Vault) (toi : TxOutItem) : outcome ((Store * TxOutItem) + Lacked) :=
  choice ← choose_vault k signingTransPeriod toi vault;
  match choice with
  | inr e => Ok (inr (Lacked_stop e))
  | inl (vault, maxGasCoin) =>
      let send (k : Store) (toi : TxOutItem) :=
        r ← renew_gas k (toi_with_vault toi (vPubKey vault) (PubKeyEddsa vault)) maxGasCoin;
        Ok (inl r) in
      if Memo_IsType memo TxRagnarok then send k toi
      else
        let '(voterTx, voter) := GetTx voter [] in
        if IsDone voterTx (len (Actions voter)) then
          Ok (inr (match GetOutHashes (OutHashes voterTx) with
                   | hash :: _ => Lacked_marked hash
                   | [] => Lacked_left
                   end))
        else
          let '(toi, actions) := reassign_actions vault toi (Actions voter) in
          send (SetObservedTxInVoter k (with_actions voter actions)) toi
  end.

(** The item is added to the queue again. *)
Definition requeue (k : Store) (toi : TxOutItem) (rescheduleHeight : Z) : outcome (Store * Lacked) :=
  if negb (Coin_IsDeca (toCoin toi)) && negb (PoolExist k (cAsset (toCoin toi))) then Ok (k, Lacked_left)
  else
    let toi := applyMemolessOutboundLogic (memoless (B := B) (seTxOut env)) toi
                 (cfg constants k "EnableMemolessOutbound") in
    match UnSafeAddTxOutItem (seTxOut env) k toi rescheduleHeight with
    | Ok k => Ok (k, Lacked_marked BlankTxID)
    | Err e => Ok (k, Lacked_failed ("failed to add outbound to queue: " ++ e))
    | Panic => Panic
    end.

(** A missing vault reads as an inactive one. *)
Definition lack_vault (k : Store) (toi : TxOutItem) : outcome Vault :=
  match GetVault k (VaultPubKey toi) with
  | Ok v => Ok v
  | Err _ => Ok EmptyVault
  | Panic => Panic
  end.

(** The voter of the inbound; a Ragnarok has none and counts from its height. *)
Definition lack_voter (k : Store) (memo : Memo) (toi : TxOutItem) : ObservedTxVoter :=
  if Memo_IsType memo TxRagnarok then
    let h := GetBlockHeight memo in
    mkObservedTxVoter "" EmptyObservedTx 0 [] [] [] (if 0 <? h then h else 0) false false 0 0
  else GetObservedTxInVoter k (InHash toi).

Definition outbound_attempts (k : Store) (signingTransPeriod : Z) (voter : ObservedTxVoter) : Z :=
  Z.quot (i64 (kHeight k - FinalisedHeight voter)) signingTransPeriod.

Definition retry_retired (k : Store) (attempts rescheduleHeight : Z) (toi : TxOutItem) :
    outcome (Store * Lacked) :=
  if cfg constants k "MaxRetiredVaultRecoveryAttempts" <=? attempts then Ok (k, Lacked_left)
  else
    match UnSafeAddTxOutItem (seTxOut env) k toi rescheduleHeight with
    | Ok k => Ok (k, Lacked_marked BlankTxID)
    | Err e =>
        Ok (k, Lacked_failed ("failed to add outbound to queue for retired vault recovery: " ++ e))
    | Panic => Panic
    end.

(** After the last attempt: a swap to the treasury, unless the outbound is
    under way. *)
Definition recover_outbound (k : Store) (memo : Memo) (voter : ObservedTxVoter) (vault : Vault)
    (toi : TxOutItem) : outcome (Store * Lacked) :=
  if negb (length (OutTxs voter) =? 0)%nat || negb (length (GetObservedLink k (InHash toi)) =? 0)%nat
  then Ok (k, Lacked_left)
  else if Memo_IsOutbound memo then
    match sendFailedOutboundToTreasury k toi vault memo with
    | Ok k => Ok (k, Lacked_marked BlankTxID)
    | Err _ => Ok (k, Lacked_left)
    | Panic => Panic
    end
  else Ok (k, Lacked_left).

Definition lack_item (signingTransPeriod rescheduleHeight : Z) (k : Store) (toi : TxOutItem) :
    outcome (Store * Lacked) :=
  if negb (SoftEquals CurrentChainNetwork (GetNetwork (toToAddress toi) (toChain toi))) ||
     negb (TxID_IsEmpty (OutHash toi)) then Ok (k, Lacked_left)
  else
    vault ← lack_vault k toi;
    let memo := (ParseMemoWithTHORNames constants k (GetMemo toi)).1 in
    if Memo_IsInternal memo then Ok (k, Lacked_left)
    else
      let voter := lack_voter k memo toi in
      let attempts := outbound_attempts k signingTransPeriod voter in
      let maxOutboundAttempts := cfg constants k "MaxOutboundAttempts" in
      if vStatus vault =? VaultStatus_InactiveVault then retry_retired k attempts rescheduleHeight toi
      else if (0 <? maxOutboundAttempts) && (maxOutboundAttempts <=? attempts) then
        recover_outbound k memo voter vault toi
      else if negb (frozen_for vault (GetChain (cAsset (toCoin toi)))) &&
              needsNewVault k vault signingTransPeriod (FinalisedHeight voter) toi then
        r ← reassign k signingTransPeriod memo voter vault toi;
        match r with
        | inl (k, toi) => requeue k toi rescheduleHeight
        | inr res => Ok (k, res)
        end
      else requeue k toi rescheduleHeight.

Definition toi_with_out_hash (t : TxOutItem) (hash : TxID) : TxOutItem :=
  mkTxOutItem (toChain t) (toToAddress t) (VaultPubKey t) (toCoin t) (toMemo t)
    (OriginalMemo t) (MaxGas t) (GasRate t) (InHash t) hash (Txs.ModuleName t) (toAggregator t)
    (toAggregatorTargetAsset t) (toAggregatorTargetLimit t) (CloutSpent t) (VaultPubKeyEddsa t).

(** The loop: the state, the items with their hashes, the last error, and
    whether the loop was left. *)
Fixpoint lack_items (signingTransPeriod rescheduleHeight : Z) (k : Store) (err : goerr)
    (items : list TxOutItem) : outcome (Store * list TxOutItem * goerr * bool) :=
  match items with
  | [] => Ok (k, [], err, false)
  | toi :: items' =>
      '(k, res) ← lack_item signingTransPeriod rescheduleHeight k toi;
      match res with
      | Lacked_stop e => Ok (k, toi :: items', Some e, true)
      | _ =>
          let err := match res with Lacked_failed e => Some e | _ => err end in
          let toi := match res with Lacked_marked h => toi_with_out_hash toi h | _ => toi end in
          '(k, rest, err, stopped) ← lack_items signingTransPeriod rescheduleHeight k err items';
          Ok (k, toi :: rest, err, stopped)
      end
  end.

Definition LackSigning (k : Store) : outcome (Store * goerr) :=
  let signingTransPeriod := cfg constants k "SigningTransactionPeriod" in
  if signingTransPeriod =? 0 then
    Ok (k, Some ("invalid signing transaction period: " ++ itoa signingTransPeriod))
  else if kHeight k <? signingTransPeriod then Ok (k, None)
  else
    let txs := GetTxOut k (i64 (kHeight k - signingTransPeriod)) in
    '(k', items, err, stopped) ← lack_items signingTransPeriod (coalesce k (kHeight k)) k None (TxArray txs);
    if (stopped : bool) then Ok (k', err)
    else
      let txs := mkTxOut (toHeight txs) items in
      Ok (if TxOut_IsEmpty txs then k' else SetTxOut k' txs, err).
End slasher.
