(* ===== verification/SlashProps.v ===== *)
(** Theorems on the slashing of a vault's members ([Slasher]): the bonds that are
    taken stay backed, and what is given to the pools is backed by Asgard. *)
From S2P Require Import Prelude SdkMath GoStr Keys Shares Chains Assets Coins Bank Nodes Txs.
From S2P Require Import Decimal GoLib Addresses Voters Mimir Observed Pools Streaming MemoTypes Vaults.
From S2P Require Import Keeper MemoParser Halt VaultStore NodeStore Swaps Outbounds GasMgr OutboundPlan.
From S2P Require Import OutboundProps GasProps ObservedStore LimitIndex Settle SwapQueue Liquidity Helpers Bonds.
From S2P Require Import SwapCheck Affiliates TxOutMgr Slasher.
Local Open Scope string_scope.
Local Open Scope Z_scope.

(** The bank pays a positive amount of DECA whenever the account has it. *)
Definition bank_pays (B : Type) `{Bank B} : Prop := forall (b : B) from to n,
  0 < n <= bank_balance b from "deca" -> exists b', bank_send from to "deca" n b = Ok b'.

Lemma simple_bank_pays : bank_pays SimpleBank.
Proof.
  intros b from to n [Hn Hb]. simpl in *. destruct (Z.leb_spec n 0); [lia|].
  destruct (Z.ltb_spec (sb_balance b from "deca") n); [lia|]. by eexists.
Qed.

Section slash_props.
Context {B : Type} `{HBank : Bank B} `{!BankOk B} {K : SdkKeys} {S : SdkMath} `{!SdkMathOk S}.
Context {L : AddressLib} {P : MemoLib} (env : SlasherEnv (KVStore B)).
Implicit Types k : KVStore B.

(** What the three modules the slasher moves DECA between hold together. *)
Definition held k : Z := deca_of k BondName + deca_of k AsgardName + deca_of k ReserveName.

(** Every pool has unsigned depths and is stored under its own asset. *)
Definition pools_filed k : Prop := forall a, pool_ok (GetPool k a) /\ pool_filed k a.

(** [d] of the bonds was taken and nothing was paid out yet. *)
Definition taken (d : Z) k k' : Prop :=
  nodes_ok k' /\ bond_gap k' = bond_gap k + d /\ kPools k' = kPools k /\ kBank k' = kBank k.

Lemma SetNodeAccount_pools k na : kPools (SetNodeAccount k na) = kPools k.
Proof. unfold SetNodeAccount. case_if; [done|]. by case_if. Qed.

Lemma by_pubkey_at k f m na : nodes_ok k -> GetNodeAccountByPubKey k f m = Ok na -> node_at k na.
Proof.
  intros Hk Hna. unfold GetNodeAccountByPubKey in Hna. apply bind_Ok_inv in Hna as (addr & _ & [= <-]).
  by apply GetNodeAccount_at.
Qed.

Lemma membership_bond_uint k l t r : nodes_ok k -> is_uint t ->
  membership_bond env k l t = Ok r -> is_uint r.
Proof.
  intros Hk. revert t. induction l as [|m l IH]; intros t Ht; simpl; [by intros [= <-]|].
  destruct (GetNodeAccountByPubKey _ _ _) as [na| |] eqn:Hna; [|by apply IH|done].
  intros Hr. apply bind_Ok_inv in Hr as (t' & Ht' & Hr).
  apply uint_add_inv in Ht' as [-> Hu]; [|done|by apply (na_uint _ _ (by_pubkey_at _ _ _ _ Hk Hna))].
  exact (IH _ Hu Hr).
Qed.

(** One member: at most its bond is taken. *)
Lemma slash_member_taken tb t k0 acc m acc' : is_uint tb -> is_uint t ->
  taken acc.2 k0 acc.1 -> is_uint acc.2 -> slash_member env tb t acc m = Ok acc' ->
  taken acc'.2 k0 acc'.1 /\ is_uint acc'.2.
Proof.
  destruct acc as [k d]. cbn [fst snd]. intros Htb Ht (Hk & Hg & Hp & Hb) Hd. unfold slash_member.
  destruct (GetNodeAccountByPubKey _ _ _) as [na| |] eqn:Hna; [|by intros [= <-]|done].
  destruct (Z.eqb_spec (naBond na) 0) as [Hz|Hz]; [by intros [= <-]|]. intros Hs.
  apply bind_Ok_inv in Hs as ([k1 s] & Hs & Hr). apply bind_Ok_inv in Hr as (d' & Hd' & [= <-]).
  apply by_pubkey_at in Hna; [|done]. pose proof (na_uint _ _ Hna) as Hu.
  unfold slashAndUpdateNodeAccount in Hs. apply bind_Ok_inv in Hs as (x & Hx & Hs).
  apply bind_Ok_inv in Hs as (bond & Hbond & [= <- <-]).
  apply GetSafeShare_inv in Hx as [_ Hx]; [|done..].
  set (s := if naBond na <? x then naBond na else x) in *.
  assert (Hsu : is_uint s /\ s <= naBond na) by (unfold s, is_uint in *; case_if; z_bool; lia).
  apply SafeSub_inv in Hbond as [Hbe Hbu]; [|done|apply Hsu].
  apply uint_add_inv in Hd' as [-> Hdu]; [|done|apply Hsu]. cbn [fst snd].
  destruct (SetNodeAccount_bank k (with_naBond na bond)) as (Hb1 & _).
  destruct (SetNodeAccount_ok k na (with_naBond na bond) Hk Hna) as (Hk1 & _ & Hg1); [done|done| |].
  { intros He. destruct Hz. by apply (na_empty _ _ Hna). }
  split; [|done]. split; [done|]. split; [rewrite Hg1, Hg; simpl; lia|].
  by rewrite SetNodeAccount_pools, Hb1.
Qed.

(** What a settlement keeps: see [slash_keeps_backing]. *)
Definition keeps_backing k k' : Prop :=
  nodes_ok k' /\ pools_filed k' /\ held k' = held k /\ deca_supply k' = deca_supply k /\
  bond_gap k <= bond_gap k' /\
  (bank_pays B -> 0 <= bond_gap k -> bond_gap k' = bond_gap k /\ unpooled k' = unpooled k).

Lemma keeps_refl k : nodes_ok k -> pools_filed k -> keeps_backing k k.
Proof. intros ? ?. by split_and!. Qed.

Lemma keeps_trans k1 k2 k3 : keeps_backing k1 k2 -> keeps_backing k2 k3 -> keeps_backing k1 k3.
Proof.
  intros (_ & _ & H1 & H2 & H3 & H4) (Hn & Hp & G1 & G2 & G3 & G4). split_and!; try done; try lia.
  intros Hpay Hgap. destruct (H4 Hpay Hgap) as [E1 E2]. destruct (G4 Hpay) as [F1 F2]; [lia|]. split; lia.
Qed.

(** A logged payment of DECA: it was made, or nothing changed. *)
Lemma logged_send k k' from n : 0 <= n -> from <> BondName ->
  logged k (SendFromModuleToModule k BondName from (NewCoin DecaAsset n)) = Ok k' ->
  exists paid : bool, (forall who, deca_of k' who = moved BondName from "deca" (if paid then n else 0) who "deca" (deca_of k who)) /\
    deca_supply k' = deca_supply k /\ kNodeAccounts k' = kNodeAccounts k /\
    kBondProviders k' = kBondProviders k /\ kPools k' = kPools k /\
    (bank_pays B -> 0 < n <= deca_of k BondName -> paid = true).
Proof.
  intros Hn Hne. unfold logged, SendFromModuleToModule. change (Asset_Native _) with "deca".
  change (cAmount _) with n.
  destruct (bank_send BondName from "deca" n (kBank k)) as [b|e|] eqn:Hs; simpl; [| |done].
  - intros [= <-]. apply bank_send_ok in Hs as [Hbal Hsup]. exists true.
    split_and!; try done; [intros who; apply (Hbal who "deca")|apply (Hsup "deca")].
  - intros [= <-]. exists false. split_and!; try done.
    + intros who. unfold moved. simpl. repeat case_if; lia.
    + intros Hpay Hle. destruct (Hpay (kBank k) BondName from n Hle) as [b' Hb']. congruence.
Qed.
(** The pool gets the credit and gives up what was stolen. *)
Lemma updatePoolFromSlash_ok k a n c k' : pools_filed k -> Pool_IsEmpty (GetPool k a) = false ->
  is_uint n -> is_uint (cAmount c) -> updatePoolFromSlash k (GetPool k a) c n = Ok k' ->
  pools_filed k' /\ pools_deca k' = pools_deca k + n /\ kBank k' = kBank k /\
  kNodeAccounts k' = kNodeAccounts k /\ kBondProviders k' = kBondProviders k.
Proof.
  intros Hpf Hne Hn Hc Hu. pose proof (Hpf a) as [(HD & HA & HL & HS) Hf]. unfold updatePoolFromSlash in Hu.
  apply bind_Ok_inv in Hu as (x & Hx & Hu). apply bind_Ok_inv in Hu as (d & Hd & Hu).
  apply bind_Ok_inv in Hu as (k1 & Hs & Hu). apply bind_Ok_inv in Hu as (_ & _ & Hu).
  apply bind_Ok_inv in Hu as (_ & _ & Hu). injection Hu as <-.
  apply SafeSub_inv in Hx as [_ Hx]; [|done..]. apply uint_add_inv in Hd as [-> Hd]; [|done..].
  set (pool' := with_balances (GetPool k a) (BalanceDeca (GetPool k a) + n) x) in *.
  destruct (SetPool k pool') as [k2|e|] eqn:Hset; simpl in Hs; [|exfalso|done].
  2:{ unfold SetPool in Hset. change (plAsset pool') with (plAsset (GetPool k a)) in Hset.
      unfold Pool_IsEmpty in Hne. by rewrite Hne in Hset. }
  injection Hs as <-. destruct (set_filed_pool k a pool' k2 Hf Hne eq_refl Hset) as (Hpd & Hb & Hother).
  assert (Hsame : GetPool k2 a = pool' /\ kNodeAccounts k2 = kNodeAccounts k /\ kBondProviders k2 = kBondProviders k).
  { unfold SetPool in Hset. case_if_in Hset; [done|]. injection Hset as <-. split; [|done].
    unfold GetPool at 1. unfold with_pools. cbn [kPools].
    pose proof (Hf Hne) as Hkey. unfold pool_key in Hkey.
    change (plAsset pool') with (plAsset (GetPool k a)). by rewrite Hkey, lookup_insert_eq. }
  destruct Hsame as (Ha & Hna & Hbp). split_and!; try done; [|rewrite Hpd; simpl; lia].
  intros b. destruct (decide (pool_key b = pool_key a)) as [He|Hd'].
  - assert (Hb' : GetPool k2 b = pool').
    { rewrite <- Ha. unfold GetPool. fold (pool_key b) (pool_key a). by rewrite He. }
    rewrite Hb'. split; [done|]. unfold pool_filed. rewrite Hb', He. intros _.
    change (plAsset pool') with (plAsset (GetPool k a)). by apply Hf.
  - unfold pool_filed. rewrite (Hother b Hd'). apply Hpf.
Qed.

Lemma bond_total_nonneg k : nodes_ok k -> 0 <= bond_total k.
Proof.
  intros Hk. apply map_sum_nonneg. intros key na Hna. destruct (no_account k Hk _ _ Hna) as (_ & _ & Hu).
  unfold is_uint in Hu. simpl. lia.
Qed.

Lemma nodes_ok_same k k' : kNodeAccounts k' = kNodeAccounts k -> kBondProviders k' = kBondProviders k ->
  nodes_ok k -> nodes_ok k'.
Proof. intros Ha Hb []. split; rewrite ?Ha, ?Hb; done. Qed.

(** A part goes from Bond to another module. *)
Lemma pay_part k k' n to : 0 <= n -> to <> BondName ->
  (if n =? 0 then Ok k else logged k (SendFromModuleToModule k BondName to (NewCoin DecaAsset n))) = Ok k' ->
  exists m, (m = 0 \/ m = n) /\
    (forall who, deca_of k' who = moved BondName to "deca" m who "deca" (deca_of k who)) /\
    deca_supply k' = deca_supply k /\ kNodeAccounts k' = kNodeAccounts k /\
    kBondProviders k' = kBondProviders k /\ kPools k' = kPools k /\
    (bank_pays B -> n <= deca_of k BondName -> m = n).
Proof.
  intros Hn Hto. destruct (Z.eqb_spec n 0) as [->|Hz].
  - intros [= <-]. exists 0. split_and!; try done; [by left|]. intros who. unfold moved. simpl. repeat case_if; lia.
  - intros (paid & Hbal & Hsup & Hna & Hbp & Hp & Hpay)%logged_send; [|done..].
    exists (if paid then n else 0). split_and!; try done; [by case_if; auto|].
    intros H1 H2. by rewrite Hpay by (try done; lia).
Qed.
(** Paying out what was taken. *)
Lemma settle_slash_ok k0 k a c v d k' : taken d k0 k -> pools_filed k0 -> nodes_ok k0 ->
  Pool_IsEmpty (GetPool k a) = false -> is_uint v -> is_uint d -> is_uint (cAmount c) ->
  settle_slash k (GetPool k a) c v d = Ok k' -> keeps_backing k0 k'.
Proof.
  intros (Hk & Hg & Hp & Hb) Hpf Hk0 Hne Hv Hd Hc Hs. unfold settle_slash in Hs.
  set (n := if d <? v then d else v) in *.
  assert (Hn : is_uint n /\ n <= d) by (unfold n, is_uint in *; case_if; z_bool; lia).
  apply bind_Ok_inv in Hs as (r & Hr & Hs). apply SafeSub_inv in Hr as [-> Hr]; [|done|apply Hn].
  apply bind_Ok_inv in Hs as (k1 & H1 & Hs). pose proof (bond_total_nonneg _ Hk) as Htot.
  apply pay_part in H1 as (m1 & Hm1 & Hb1 & Hs1 & Hna1 & Hbp1 & Hp1 & Hpay1); [|lia|done].
  assert (Hpf1 : pools_filed k1) by (intros b; unfold pool_filed, GetPool; rewrite Hp1, Hp; apply Hpf).
  assert (Hg1 : GetPool k1 a = GetPool k a) by (unfold GetPool; by rewrite Hp1).
  assert (Hend : exists k2, (if n =? 0 then Ok k1
      else logged k1 (SendFromModuleToModule k1 BondName AsgardName (NewCoin DecaAsset n))) = Ok k2 /\
    pools_filed k' /\ pools_deca k' = pools_deca k2 + n /\ kBank k' = kBank k2 /\
    kNodeAccounts k' = kNodeAccounts k2 /\ kBondProviders k' = kBondProviders k2).
  { destruct (Z.eqb_spec n 0) as [Hz|Hz].
    - injection Hs as <-. exists k1. split_and!; try done. lia.
    - apply bind_Ok_inv in Hs as (k2 & H2 & Hs). exists k2. split; [done|].
      assert (Hp2 : kPools k2 = kPools k1) by (apply logged_send in H2 as (? & _ & _ & _ & _ & ? & _); [done|unfold is_uint in *; lia|done]).
      assert (Hg2 : GetPool k2 a = GetPool k a) by (unfold GetPool; by rewrite Hp2, Hp1).
      rewrite <- Hg2 in Hs, Hne. apply updatePoolFromSlash_ok in Hs; try done; [|apply Hn].
      intros b. unfold pool_filed, GetPool. rewrite Hp2. apply Hpf1. }
  destruct Hend as (k2 & H2 & Hpf' & Hpd & Hbk & Hna' & Hbp').
  apply pay_part in H2 as (m2 & Hm2 & Hb2 & Hs2 & Hna2 & Hbp2 & Hp2 & Hpay2); [|unfold is_uint in *; lia|done].
  assert (Hbal : forall who, deca_of k' who = deca_of k2 who) by (intros; unfold deca_of; by rewrite Hbk).
  assert (Hpools : pools_deca k2 = pools_deca k0) by (unfold pools_deca; by rewrite Hp2, Hp1, Hp).
  assert (Htotal : bond_total k' = bond_total k) by (unfold bond_total; by rewrite Hna', Hna2, Hna1).
  assert (Hk00 : forall who, deca_of k who = deca_of k0 who) by (intros; unfold deca_of; by rewrite Hb).
  assert (HB : deca_of k' BondName = deca_of k0 BondName - m1 - m2).
  { rewrite Hbal, Hb2, Hb1, Hk00. rewrite !moved_from by done. lia. }
  assert (HA : deca_of k' AsgardName = deca_of k0 AsgardName + m2).
  { rewrite Hbal, Hb2, Hb1, Hk00. rewrite moved_to by done. unfold moved. simpl. lia. }
  assert (HR : deca_of k' ReserveName = deca_of k0 ReserveName + m1).
  { rewrite Hbal, Hb2, Hb1, Hk00. unfold moved. simpl. lia. }
  unfold keeps_backing, held, unpooled, bond_gap in *. rewrite HB, HA, HR, Htotal, Hpd, Hpools.
  rewrite (Hk00 BondName) in *. split_and!.
  - apply (nodes_ok_same k); by rewrite ?Hna', ?Hbp', ?Hna2, ?Hbp2, ?Hna1, ?Hbp1.
  - done.
  - lia.
  - unfold deca_supply in *. by rewrite Hbk, Hs2, Hs1, Hb.
  - unfold is_uint in *. destruct Hm1 as [->| ->], Hm2 as [->| ->]; lia.
  - intros Hpay Hgap. assert (m1 = Z.max 0 (d - n)) as -> by (apply Hpay1; [done|unfold is_uint in *; lia]).
    assert (m2 = n) as ->; [|unfold is_uint in *; lia]. apply Hpay2; [done|].
    rewrite Hb1, moved_from, Hk00 by done. unfold is_uint in *. lia.
Qed.
Lemma pause_taken k chain t : nodes_ok k -> taken 0 k (pause_on_slash env k chain t).
Proof.
  intros Hk. unfold pause_on_slash. case_if; [|split_and!; done || lia].
  split_and!; [by apply (nodes_ok_same k)|unfold bond_gap, bond_total, deca_of; simpl; lia|done|done].
Qed.

Lemma stolen_uint vault pool c : vault_uints vault -> pool_ok pool -> is_uint (cAmount c) ->
  is_uint (stolen_asset vault pool c).
Proof.
  intros Hv (_ & HA & _) Hc. pose proof (GetCoin_uint vault (cAsset c) Hv). unfold stolen_asset.
  by repeat case_if.
Qed.

Lemma slash_coin_ok vault tb k c k' : nodes_ok k -> pools_filed k -> vault_uints vault -> is_uint tb ->
  is_uint (cAmount c) -> slash_coin env vault tb k c = Ok k' -> keeps_backing k k'.
Proof.
  intros Hk Hpf Hv Htb Hc Hs. unfold slash_coin in Hs.
  case_if_in Hs; [injection Hs as <-; by apply keeps_refl|].
  case_if_in Hs; [injection Hs as <-; by apply keeps_refl|].
  pose proof (Hpf (cAsset c)) as [Hok _]. set (pool := GetPool k (cAsset c)) in *.
  pose proof (stolen_uint vault pool c Hv Hok Hc) as Hst. set (stolen := stolen_asset vault pool c) in *.
  apply bind_Ok_inv in Hs as (value & Hval & Hs). apply AssetValueInRune_uint in Hval; [|done..].
  case_if_in Hs; [injection Hs as <-; by apply keeps_refl|].
  apply bind_Ok_inv in Hs as (t & Ht & Hs).
  apply GetUncappedShare_inv in Ht as [_ Ht]; [|auto with go..].
  set (k1 := pause_on_slash env k _ t) in *. apply bind_Ok_inv in Hs as ([k2 d] & Hf & Hs).
  assert (Hd : taken d k k2 /\ is_uint d).
  { apply (fold_ok_inv (fun acc => taken acc.2 k acc.1 /\ is_uint acc.2)) in Hf; [exact Hf| |].
    - intros acc m acc' _ [H1 H2]. by apply (slash_member_taken tb t).
    - split; [by apply pause_taken|]. cbn [snd]. auto with go. }
  destruct Hd as [Htaken Hd].
  assert (Hpool : pool = GetPool k2 (cAsset c)).
  { unfold pool, GetPool. destruct Htaken as (_ & _ & -> & _). done. }
  rewrite Hpool in Hs. apply (settle_slash_ok k) in Hs; try done. by rewrite <- Hpool.
Qed.

(** Slashing the members of a vault takes no more than their bonds and never
    lowers what the Bond module holds beyond the bonds: what Bond, Asgard and
    Reserve hold together and the supply of DECA stay, and when the bank pays
    what an account has and the bonds were backed, the bonds are backed exactly as
    before, and so are the pools, whose credit is the DECA that reached Asgard.
    The stored numbers are unsigned, and each pool is stored under its own asset. *)
Theorem slash_keeps_backing k pk coins k' :
  nodes_ok k -> pools_filed k -> Forall (fun c => is_uint (cAmount c)) coins ->
  (forall v, GetVault k pk = Ok v -> vault_uints v) ->
  SlashVault env k pk coins = Ok k' ->
  nodes_ok k' /\ pools_filed k' /\ held k' = held k /\ deca_supply k' = deca_supply k /\
  bond_gap k <= bond_gap k' /\
  (bank_pays B -> 0 <= bond_gap k -> bond_gap k' = bond_gap k /\ unpooled k' = unpooled k).
Proof.
  intros Hk Hpf Hc Hv Hs. unfold SlashVault in Hs. case_if_in Hs; [injection Hs as <-; by apply keeps_refl|].
  apply bind_Ok_inv in Hs as (v & Hget & Hs). apply wrap_err_Ok in Hget. specialize (Hv v Hget).
  apply bind_Ok_inv in Hs as (tb & Htb & Hs).
  apply membership_bond_uint in Htb; [|done|auto with go].
  apply (fold_ok_inv (keeps_backing k)) in Hs; [exact Hs| |by apply keeps_refl].
  intros k1 c k2 Hin Hk1 Hc'. rewrite Forall_forall in Hc. apply (keeps_trans k k1 k2 Hk1).
  destruct Hk1 as (Hn1 & Hp1 & _). by apply (slash_coin_ok v tb k1 c); auto.
Qed.
End slash_props.

(** ** The theorem at a concrete input *)

Definition demo_slash_constants (name : string) : Z :=
  if String.eqb name "SlashPenalty" then 15000 else 0.
Definition demo_slash_env : SlasherEnv (KVStore SimpleBank) :=
  mkSlasherEnv
    (mkTxOutEnv demo_slash_constants (fun pk => Ok pk) demo_pk_address (fun m => Ok ("module-" ++ m))
      (fun a => Ok a) demo_liquidity_env (fun _ k => Ok k))
    (fun m => m) (fun pk => Ok pk) (fun s => s).
Definition demo_member (addr : string) (bond : Z) : string * NodeAccount :=
  (GetKey prefixNodeAccount addr, NewNodeAccount addr NodeStatus_Active EmptyPubKeySet "" bond addr 1).
Definition demo_slash_vault : Vault :=
  mkVault 1 "pv" [NewCoin BTCAsset 5000] VaultType_AsgardVault VaultStatus_ActiveVault 1 ["p1"; "p2"] [] 0 0 []
    [] [] "".
(** Bonds of 3000 and 1000, and a pool of 10 BTC at 100 DECA each. *)
Definition demo_slash_store : KVStore SimpleBank :=
  with_vaults
    (with_pools
      (with_node_accounts
        (empty_store (mkSimpleBank {[("bond", "deca") := 4000; ("asgard", "deca") := 1000 * 10 ^ 8]}
          {["deca" := 1000 * 10 ^ 8 + 4000]}) 7)
        (list_to_map [demo_member "p1" 3000; demo_member "p2" 1000]))
      {[GetKey prefixPool (Asset_String BTCAsset) := demo_btc_pool]})
    {[vault_key "pv" := demo_slash_vault]}.

Lemma demo_slash_ok : nodes_ok (K := keys_std) demo_slash_store /\ pools_filed demo_slash_store /\
  forall v, GetVault demo_slash_store "pv" = Ok v -> vault_uints v.
Proof.
  split; [split|split].
  - intros key na Hna. apply elem_of_list_to_map_2 in Hna.
    repeat (apply elem_of_cons in Hna as [ [= -> ->]|Hna];
      [split; [reflexivity|]; split; [reflexivity|unfold is_uint, uint_lim; simpl; lia]|]).
    by apply elem_of_nil in Hna.
  - intros key bp Hbp. simpl in Hbp. by rewrite lookup_empty in Hbp.
  - intros a. unfold pool_filed, GetPool, demo_slash_store, with_vaults, with_pools, kPools.
    destruct (decide (GetKey prefixPool (Asset_String BTCAsset) = GetKey prefixPool (Asset_String a))) as [He|Hne].
    + rewrite <- He, lookup_singleton_eq. split; [repeat split; vm_compute; congruence|].
      intros _. unfold pool_key. rewrite <- He. reflexivity.
    + rewrite lookup_singleton_ne by done. split; [repeat split; vm_compute; congruence|].
      intros Hv. vm_compute in Hv. discriminate Hv.
  - intros v Hv. vm_compute in Hv. injection Hv as <-. repeat constructor; vm_compute; congruence.
Qed.

(** Ten units too many left the vault: the members lose 1500 DECA, of which the
    pool gets their worth, 1000. *)
Lemma slash_keeps_backing_example : exists k',
  SlashVault (K := keys_std) (S := sdk_std) demo_slash_env demo_slash_store "pv" [NewCoin BTCAsset 10] = Ok k' /\
  bond_total k' = 2500 /\ deca_of k' ReserveName = 500 /\
  BalanceDeca (GetPool k' BTCAsset) = 1000 * 10 ^ 8 + 1000 /\
  bond_gap k' = bond_gap demo_slash_store /\ unpooled k' = unpooled demo_slash_store.
Proof.
  eexists. split; [vm_compute; reflexivity|]. do 3 (split; [vm_compute; reflexivity|]).
  match goal with |- bond_gap ?k = _ /\ _ => set (k' := k) end. destruct demo_slash_ok as (Hn & Hp & Hv).
  destruct (slash_keeps_backing (K := keys_std) (S := sdk_std) demo_slash_env demo_slash_store "pv"
    [NewCoin BTCAsset 10] k' Hn Hp) as (_ & _ & _ & _ & _ & Hpay).
  - constructor; [split; vm_compute; congruence|constructor].
  - exact Hv.
  - vm_compute. reflexivity.
  - apply Hpay; [exact simple_bank_pays|vm_compute; congruence].
Qed.
