(* ===== verification/TxOutProps.v ===== *)
(** Theorems on the outbound manager ([TxOutMgr]): the fees taken from outbounds
    reach the Reserve, and the pools stay backed by the Asgard module. *)
From S2P Require Import Prelude SdkMath GoStr Keys Shares Chains Assets Coins Bank Nodes Txs.
From S2P Require Import Decimal GoLib Addresses Voters Mimir Observed Pools Streaming MemoTypes Vaults.
From S2P Require Import Keeper MemoParser Halt VaultStore NodeStore Swaps Outbounds GasMgr OutboundPlan OutboundProps GasProps.
From S2P Require Import LimitIndex Settle SwapQueue Liquidity Helpers Bonds SwapCheck LegacyQueue TxOutMgr.
Local Open Scope string_scope.
Local Open Scope Z_scope.

Section txout_props.
Context {B : Type} `{HBank : Bank B} `{!BankOk B} {K : SdkKeys} {S : SdkMath} `{!SdkMathOk S}.
Context {L : AddressLib} {P : MemoLib}.
Context (env : TxOutEnv (KVStore B)).
Implicit Types k : KVStore B.

(** The records fees are charged to: the bank and the pools. *)
Definition same_funds k k' : Prop := kBank k' = kBank k /\ kPools k' = kPools k.

(** Computing a fee may write the record of the withheld fees, nothing else. *)
Lemma GetAssetOutboundFee_frame k a b k' f : GetAssetOutboundFee (txConstant env) k a b = Ok (k', f) ->
  exists m, k' = with_ints k m.
Proof.
  assert (Hid : exists m, k = with_ints k m) by (exists (kInts k); by destruct k).
  unfold GetAssetOutboundFee. intros Hf.
  case_if_in Hf; [by simplify_eq|]. destruct (NetworkFee_Valid _); [by simplify_eq|]. ok_inv.
  destruct x0 as [k1 f1].
  assert (Hk1 : exists m, k1 = with_ints k m).
  { unfold gas_asset_fee in H0. ok_inv. destruct x0 as [k2 w]. ok_inv.
    destruct (GetOutboundFeeWithheldRune _ _ _) as [ [k3 w3]| |] eqn:Ew; simplify_eq; [|done].
    unfold GetOutboundFeeWithheldRune in Ew. case_if_in Ew; [ok_inv; by eexists|by simplify_eq]. }
  do 2 (case_if_in Hf; [by simplify_eq|]). ok_inv. case_if_in Hf; [by simplify_eq|].
  case_if_in Hf; [by simplify_eq|]. ok_inv. done.
Qed.

(** *** One output of an asset that is neither DECA nor held on THORChain *)
Definition plain_asset (a : Asset) : Prop :=
  IsDeca a = false /\ IsSyntheticAsset a = false /\ IsDerivedAsset a = false.

(** While the outputs are charged: what the pool gave up is what is owed to the
    Reserve. *)
Definition prep_ok (k0 : KVStore B) (pool0 : Pool) (p : Prep) : Prop :=
  same_funds k0 (ppStore p) /\ pool_ok (ppPool p) /\ plAsset (ppPool p) = plAsset pool0 /\
  is_uint (ppFee p) /\ BalanceDeca (ppPool p) + ppFee p = BalanceDeca pool0.

Lemma keep_output_ok k0 pool0 p item p' : prep_ok k0 pool0 p -> keep_output p item = Ok p' ->
  prep_ok k0 pool0 p'.
Proof.
  intros Hp Hk. unfold keep_output in Hk. ok_inv. unfold prep_ok, same_funds in *. simpl. by case_if.
Qed.

Lemma charge_pool_spec pool item f pool' d : pool_ok pool -> is_uint f ->
  charge_pool pool item f = Ok (pool', d) ->
  pool_ok pool' /\ plAsset pool' = plAsset pool /\ is_uint d /\
  BalanceDeca pool' + d = BalanceDeca pool /\ LPUnits pool' = LPUnits pool /\
  SynthUnits pool' = SynthUnits pool.
Proof.
  intros (Hd & Ha & Hl & Hsu) Hf Hc. unfold charge_pool in Hc. ok_inv.
  assert (Hx : is_uint x).
  { unfold RuneDisbursementForAssetAdd in H. case_if_in H; [simplify_eq; auto with go|]. math_inv. done. }
  set (ded := if BalanceDeca pool <? x then BalanceDeca pool else x) in *.
  assert (Hded : is_uint ded /\ ded <= BalanceDeca pool).
  { unfold ded. destruct (Z.ltb_spec (BalanceDeca pool) x); split; try done; lia. }
  destruct Hded as [Hded Hle]. clearbody ded. math_inv. subst.
  assert (is_uint x0) by (case_if_in H0; [by uint_inv|by simplify_eq]).
  unfold pool_ok. simpl. split_and!; try done; try (unfold is_uint in *; lia).
Qed.

Lemma take_fee_ok k0 pool0 toi fee p item p' item' : plain_asset (toi_asset item) ->
  is_uint (toi_amount item) -> is_uint fee -> prep_ok k0 pool0 p ->
  take_fee env toi fee p item = Ok (Some (p', item')) -> prep_ok k0 pool0 p'.
Proof.
  intros (Hnd & Hns & Hnv) Ham Hfee Hp. unfold take_fee. rewrite Hnd. intros Ht. ok_inv.
  case_if_in Ht; [|by simplify_eq]. unfold asset_fee in Ht.
  set (af := if toi_amount item <=? fee then toi_amount item else fee) in *.
  assert (is_uint af) by (unfold af; by case_if). clearbody af. ok_inv.
  case_if_in Ht; [done|]. case_if_in Ht; [by ok_inv|]. unfold burn_fee in Ht. rewrite Hns, Hnv in Ht.
  simpl in Ht. ok_inv. destruct x1 as [pool' d]. ok_inv. destruct Hp as (Hs & Hpo & Has & Hf & Hsum).
  apply charge_pool_spec in H2 as (Hpo' & Has' & Hd & Hb & _); [|done..].
  uint_inv. subst. unfold prep_ok. simpl. split_and!; try done; [congruence|lia].
Qed.

(** *** The vaults *)

(** The stored numbers an outbound depends on. *)
Record funds_ok k : Prop := {
  fo_vaults : forall pk v, GetVault k pk = Ok v -> coins_ok (vCoins v);
  fo_items : forall h, Forall item_ok (TxArray (GetTxOut k h));
  fo_fees : fees_ok k
}.

Lemma pending_ok k asset last hs : (forall h, Forall item_ok (TxArray (GetTxOut k h))) ->
  Forall item_ok (pending_from k asset last hs).
Proof.
  intros Hi. induction hs as [|h hs IH]; simpl; [constructor|]. case_if; [constructor|].
  apply Forall_app. split; [|done]. specialize (Hi h). rewrite Forall_forall in *.
  intros x [Hx _]%list_elem_of_In%filter_In. by apply Hi, list_elem_of_In.
Qed.

Lemma find_coin_uint cs a : coins_ok cs -> is_uint (cAmount (Coins_GetCoin cs a)).
Proof.
  induction 1 as [|c cs Hc Hcs IH]; simpl; [auto with go|]. by case_if.
Qed.

Lemma item_ok_outbounds items : Forall item_ok items -> outbounds_ok items.
Proof.
  intros Hi. eapply Forall_impl; [exact Hi|]. intros i (Ha & Hg & _). split; [done|]. unfold outbound_gas.
  case_if; [auto with go|]. apply find_coin_uint. unfold ToCoins, coins_ok. by apply Forall_map.
Qed.

Lemma deduct_pending_ok vaults pending r : Forall (fun v => coins_ok (vCoins v)) vaults ->
  outbounds_ok pending -> deduct_pending vaults pending = Ok r -> Forall (fun v => coins_ok (vCoins v)) r.
Proof.
  intros Hv Hp. revert r. induction Hv as [|v vaults Hv Hvs IH]; intros r; simpl.
  { intros [= <-]. constructor. }
  rewrite DeductVaultPendingOutbounds_exact by done. simpl. intros Hr. ok_inv.
  constructor; [|by apply IH]. simpl. apply less_ok; [|done]. intros a. unfold owed. apply sumZ_nonneg.
  apply Forall_forall. intros z Hz. apply list_elem_of_In, in_map_iff in Hz as (i & <- & Hi%filter_In).
  destruct Hi as [Hi _]. rewrite <- list_elem_of_In in Hi. unfold outbounds_ok in Hp.
  rewrite Forall_forall in Hp. destruct (Hp i Hi) as [H1 H2]. unfold takes.
  pose proof (amount_if_nonneg a _ H1). pose proof (amount_if_nonneg a _ H2). lia.
Qed.

Lemma asgard_vaults_in k pks vs : asgard_vaults k pks = Ok vs ->
  Forall (fun v => exists pk, GetVault k pk = Ok v) vs.
Proof.
  revert vs. induction pks as [|pk pks IH]; intros vs; simpl; [intros [= <-]; constructor|].
  intros Hv. ok_inv. case_if; [constructor; [by eexists|]|]; by apply IH.
Qed.

Lemma SortBySecurity_perm ta pa k vs n r : SortBySecurity ta pa k vs n = Ok r -> r ≡ₚ vs.
Proof.
  unfold SortBySecurity. case_if; [by intros [= <-]|]. unfold getSortedVaultSecurity. intros Hr. ok_inv.
  rewrite stable_sort_perm. clear E. revert x0 H0. induction vs as [|v vs IH]; intros l; simpl.
  { by intros [= <-]. }
  intros Hl. ok_inv. simpl. rewrite (IH x0) by done.
  unfold vault_security in H. ok_inv. case_if_in H; ok_inv; done.
Qed.

Lemma available_vaults_ok k status what pending vs : funds_ok k -> outbounds_ok pending ->
  available_vaults env k status what pending = Ok vs -> Forall (fun v => coins_ok (vCoins v)) vs.
Proof.
  intros Hok Hp Hv. unfold available_vaults in Hv. ok_inv.
  eapply deduct_pending_ok; [|done|done]. rewrite (SortBySecurity_perm _ _ _ _ _ _ H0).
  unfold GetAsgardVaultsByStatus, GetAsgardVaults in H. ok_inv. apply asgard_vaults_in in H1.
  rewrite Forall_forall in *. intros v [Hin _]%list_elem_of_In%filter_In.
  destruct (H1 v) as [pk Hpk]; [by apply list_elem_of_In|]. by eapply fo_vaults.
Qed.

Lemma funds_vaults k m : funds_ok k -> forall pk v, GetVault (with_ints k m) pk = Ok v -> coins_ok (vCoins v).
Proof.
  intros Hok pk v Hv. apply (fo_vaults k Hok pk v). rewrite <- Hv. unfold GetVault. simpl.
  generalize (size (kStrings k)). intros n. clear Hv. revert pk. induction n as [|n IH]; intros pk; simpl.
  - by destruct (kVaults k !! _).
  - destruct (kVaults k !! _); [done|]. unfold getAsgardEDDSAIndex, getString, getStrings. simpl.
    change (kStrings (with_ints k m)) with (kStrings k). by repeat (case_match || rewrite IH; simpl).
Qed.

(** An output of the asset asked for, with amounts for numbers. *)
Definition output_ok (asset : Asset) (o : TxOutItem) : Prop :=
  toi_asset o = asset /\ is_uint (toi_amount o) /\ coins_ok (MaxGas o).

(** The outputs are of the asset asked for and add up to the amount. *)
Lemma select_vaults_ok k toi fee gas outs : funds_ok k -> output_ok (toi_asset toi) toi -> is_uint (cAmount gas) ->
  select_vaults env k toi fee gas = Ok outs ->
  Forall (output_ok (toi_asset toi)) outs /\ total_out outs = toi_amount toi.
Proof.
  intros Hok Ht Hg Hs. unfold select_vaults in Hs.
  case_if_in Hs; [injection Hs as <-; split; [by apply Forall_singleton|unfold total_out; simpl; lia]|].
  ok_inv. destruct x1 as [outs' rest].
  assert (Hp : outbounds_ok (GetPendingOutbounds (txConstant env) k (toi_asset toi))).
  { apply item_ok_outbounds, pending_ok, Hok. }
  apply available_vaults_ok in H, H0; [|done..].
  apply discover_spec in H1 as (Hu & Hsum & Hparts & _); [|by apply Forall_app|done|apply Ht].
  case_if_in Hs; [done|]. z_bool. injection Hs as <-. split; [|lia].
  rewrite Forall_forall in *. intros o Hin. specialize (Hparts o Hin). unfold part_of in Hparts.
  destruct Ht as (_ & _ & Hgas). split_and!; [by rewrite Hparts|by apply Hu|rewrite Hparts; exact Hgas].
Qed.

(** *** The outputs, one by one *)

(** What charging an output keeps: the books of the pool, and the amounts sent
    stay within the ones asked for. *)
Definition charged_ok k0 pool0 (sent : Z) (p : Prep (B := B)) : Prop :=
  prep_ok k0 pool0 p /\ Forall (fun o => is_uint (toi_amount o)) (ppOut p) /\ total_out (ppOut p) <= sent.

Lemma deduct_gas_ok k b item b' item' asset : output_ok asset item -> deduct_gas k b item = Ok (b', item') ->
  output_ok asset item' /\ toi_amount item' <= toi_amount item.
Proof.
  intros (Ha & Hu & Hg) Hd. unfold deduct_gas in Hd. case_if_in Hd; [simplify_eq; by split_and!|].
  apply bind_Ok_inv in Hd as (st & _ & Hd). case_if_in Hd; [|simplify_eq; by split_and!].
  apply bind_Ok_inv in Hd as (amt & Hamt & Hd). injection Hd as _ <-.
  apply SafeSub_inv in Hamt as [-> Hr]; [|done|apply find_coin_uint; unfold ToCoins, coins_ok; by apply Forall_map].
  pose proof (find_coin_uint (ToCoins (MaxGas item)) (toi_asset item)
    ltac:(unfold ToCoins, coins_ok; by apply Forall_map)).
  split; [by split_and!|]. rewrite amount_with. unfold is_uint in *. lia.
Qed.

Lemma take_fee_amount toi fee p item p' item' asset : plain_asset (toi_asset item) -> is_uint fee ->
  output_ok asset item -> take_fee env toi fee p item = Ok (Some (p', item')) ->
  is_uint (toi_amount item') /\ toi_amount item' <= toi_amount item /\ ppOut p' = ppOut p.
Proof.
  intros (Hnd & _) Hfee (_ & Hu & _) Ht. unfold take_fee in Ht. rewrite Hnd in Ht.
  apply bind_Ok_inv in Ht as (units & _ & Ht). case_if_in Ht; [|by simplify_eq].
  unfold asset_fee in Ht. set (af := if toi_amount item <=? fee then toi_amount item else fee) in *.
  assert (Haf : is_uint af) by (unfold af; by case_if). clearbody af.
  apply bind_Ok_inv in Ht as (rest & Hr & Ht). apply SafeSub_inv in Hr as [-> Hr]; [|done..].
  case_if_in Ht; [done|]. case_if_in Ht; [by ok_inv|].
  apply bind_Ok_inv in Ht as (k1 & _ & Ht). apply bind_Ok_inv in Ht as ([pool' d] & _ & Ht).
  apply bind_Ok_inv in Ht as (f & _ & Ht). injection Ht as <- <-. rewrite amount_with.
  split_and!; [done|unfold is_uint in *; lia|done].
Qed.

Lemma keep_output_sent (p : Prep (B := B)) item p' sent n : is_uint (toi_amount item) -> toi_amount item <= n ->
  Forall (fun o => is_uint (toi_amount o)) (ppOut p) -> total_out (ppOut p) <= sent ->
  keep_output p item = Ok p' ->
  Forall (fun o => is_uint (toi_amount o)) (ppOut p') /\ total_out (ppOut p') <= sent + n.
Proof.
  intros Hu Hle Hall Hs Hk. unfold keep_output in Hk. apply bind_Ok_inv in Hk as (amt & Ha & Hk).
  assert (Hamt : is_uint amt /\ amt <= toi_amount item).
  { case_if_in Ha; [|by simplify_eq]. split; [by eapply RoundToDecimal_uint|].
    by apply (RoundToDecimal_le _ _ _ Hu Ha). }
  injection Hk as <-. cbn [ppOut]. split; [apply Forall_app_2; [done|apply Forall_singleton, Hamt]|].
  rewrite total_out_app. unfold total_out at 2. cbn [map sumZ foldr]. destruct Hamt. rewrite amount_with. simpl. lia.
Qed.

Lemma prepare_output_ok k0 pool0 sent toi lend fee gas rate p item p' : plain_asset (toi_asset toi) ->
  is_uint fee -> is_uint (cAmount gas) -> output_ok (toi_asset toi) item -> charged_ok k0 pool0 sent p ->
  prepare_output env toi lend fee gas rate p item = Ok p' ->
  charged_ok k0 pool0 (sent + toi_amount item) p'.
Proof.
  intros Hpl Hfee Hgas Hi (Hp & Hall & Hsent) Ho. unfold prepare_output in Ho.
  apply bind_Ok_inv in Ho as (item1 & Hfill & Ho).
  assert (Hi1 : output_ok (toi_asset toi) item1 /\ toi_amount item1 = toi_amount item).
  { unfold fill_gas in Hfill. destruct Hi as (H1 & H2 & H3). case_if_in Hfill; [|by simplify_eq].
    case_if_in Hfill; [done|]. injection Hfill as <-. split; [|done]. split_and!; [done..|]. by apply Forall_singleton. }
  destruct Hi1 as [Hi1 Ham1]. destruct (ParseMemoWithTHORNames _ _ _) as [memo err].
  apply bind_Ok_inv in Ho as ([b item2] & Hd & Ho). apply (deduct_gas_ok _ _ _ _ _ (toi_asset toi)) in Hd as [Hi2 Ham2]; [|done].
  apply bind_Ok_inv in Ho as (charged & Hc & Ho).
  assert (Hkeep : 0 <= toi_amount item) by (destruct Hi as (_ & [? ?] & _); done).
  assert (Hstay : charged_ok k0 pool0 (sent + toi_amount item) p) by (split_and!; [done..|lia]).
  destruct charged as [[p1 item3]|]; [|by injection Ho as <-].
  assert (Hc1 : prep_ok k0 pool0 p1 /\ is_uint (toi_amount item3) /\ toi_amount item3 <= toi_amount item2 /\
    ppOut p1 = ppOut p).
  { destruct Hi2 as (Ha2 & Hu2 & Hg2). case_if_in Hc; [|injection Hc as <- <-; by split_and!].
    assert (Hpl2 : plain_asset (toi_asset item2)) by (by rewrite Ha2). split.
    - exact (take_fee_ok k0 pool0 toi fee p item2 p1 item3 Hpl2 Hu2 Hfee Hp Hc).
    - eapply (take_fee_amount _ _ _ _ _ _ (toi_asset toi)); [done|exact Hfee| |exact Hc]. by split_and!. }
  destruct Hc1 as (Hp1 & Hu3 & Ham3 & Hout).
  case_if_in Ho; [apply bind_Ok_inv in Ho as (? & _ & Ho); injection Ho as <-|].
  - split; [done|]. rewrite Hout. split; [done|lia].
  - split; [by eapply keep_output_ok|].
    apply (keep_output_sent p1 item3 p' sent (toi_amount item)); [done|lia|by rewrite Hout..|done].
Qed.
Lemma prepare_outputs_ok k0 pool0 toi lend fee gas rate outs sent p p' : plain_asset (toi_asset toi) ->
  is_uint fee -> is_uint (cAmount gas) -> Forall (output_ok (toi_asset toi)) outs -> charged_ok k0 pool0 sent p ->
  fold_ok (prepare_output env toi lend fee gas rate) p outs = Ok p' ->
  charged_ok k0 pool0 (sent + total_out outs) p'.
Proof.
  intros Hpl Hfee Hgas Hall. revert sent p. induction Hall as [|o outs Ho Hall IH]; intros sent p Hp Hf.
  { injection Hf as <-. unfold total_out. simpl. by rewrite Z.add_0_r. }
  cbn [fold_ok] in Hf. apply bind_Ok_inv in Hf as (p1 & H1 & Hf).
  eapply prepare_output_ok in H1; [|done..]. apply (IH _ _ H1) in Hf.
  replace (sent + total_out (o :: outs)) with (sent + toi_amount o + total_out outs); [done|].
  unfold total_out. simpl. lia.
Qed.

(** The memo and the address are filled in, the payment is the same. *)
Definition same_payment (t t' : TxOutItem) : Prop :=
  toCoin t' = toCoin t /\ MaxGas t' = MaxGas t /\ Txs.ModuleName t' = Txs.ModuleName t.

Lemma prepare_memo_same k toi : same_payment toi (prepare_memo env k toi).
Proof.
  unfold prepare_memo, applyMemolessOutboundLogic, pass_data, toi_with_memo, with_memos, toi_with_in_hash.
  repeat (case_match || case_if); done.
Qed.

Lemma prepare_address_same toi toi' : prepare_address env toi = Ok toi' -> same_payment toi toi'.
Proof.
  unfold prepare_address, convert_bch. do 2 (case_if; [done|]). case_if; [|by intros [= <-]].
  intros Ht. apply bind_Ok_inv in Ht as (a & _ & Ht). case_if_in Ht; [done|]. by injection Ht as <-.
Qed.

Lemma collect_fee_asgard k toi fee k' : IsDeca (toi_asset toi) = false -> IsDerivedAsset (toi_asset toi) = false ->
  GetModuleName toi = AsgardName -> collect_fee k toi fee = Ok k' ->
  deca_of k' AsgardName = deca_of k AsgardName - fee /\ deca_of k' ReserveName = deca_of k ReserveName + fee /\
  kPools k' = kPools k.
Proof.
  intros Hd Hv Hm Hc. unfold collect_fee in Hc. case_if_in Hc.
  { apply Z.eqb_eq in E as ->. injection Hc as <-. rewrite Z.add_0_r, Z.sub_0_r. done. }
  unfold Coin_IsDeca in Hc. fold (toi_asset toi) in Hc. rewrite Hd, Hv, Hm in Hc. simpl in Hc.
  apply wrap_err_Ok in Hc. unfold SendFromModuleToModule in Hc. apply bind_Ok_inv in Hc as (b & Hb & Hc).
  injection Hc as <-. destruct (bank_send_ok _ _ _ _ _ _ Hb) as [Hbal _]. unfold deca_of.
  cbn [kBank with_bank NewCoin cAsset cAmount kPools]. rewrite !Hbal. change (Asset_Native DecaAsset) with "deca".
  by rewrite moved_from, moved_to.
Qed.

(** C5. Preparing an outbound of a layer-1 asset from the Asgard module leaves
    what the module holds beyond the pools unchanged: the DECA value of the fee
    leaves the depth of the pool and the module together and reaches the
    Reserve, to the last unit, however many vaults share the payment and
    whichever of the outputs are dropped; and the outputs together are no more
    than the amount asked for. *)
Theorem prepare_keeps_backing k toi k' outs fee :
  funds_ok k -> output_ok (toi_asset toi) toi -> plain_asset (toi_asset toi) -> GetModuleName toi = AsgardName ->
  Pool_IsEmpty (GetPool k (GetLayer1Asset (toi_asset toi))) = false ->
  pool_filed k (GetLayer1Asset (toi_asset toi)) ->
  prepareTxOutItem env k toi = Ok (k', outs, fee) ->
  unpooled k' = unpooled k /\ deca_of k' ReserveName = deca_of k ReserveName + fee /\
  pools_deca k' = pools_deca k - fee /\ 0 <= fee /\ total_out outs <= toi_amount toi.
Proof.
  intros Hok Ht Hpl Hm Hne Hfiled Hp. unfold prepareTxOutItem in Hp.
  apply bind_Ok_inv in Hp as (toi1 & Haddr & Hp). apply prepare_address_same in Haddr as (Hc1 & Hg1 & Hn1).
  destruct (prepare_memo_same k toi) as (Hc0 & Hg0 & Hn0). rewrite Hc0 in Hc1. rewrite Hg0 in Hg1. rewrite Hn0 in Hn1.
  assert (Ha1 : toi_asset toi1 = toi_asset toi) by (unfold toi_asset; by rewrite Hc1).
  assert (Ht1 : output_ok (toi_asset toi1) toi1) by (unfold output_ok, toi_amount; by rewrite Ha1, Hc1, Hg1).
  assert (Hm1 : GetModuleName toi1 = AsgardName) by (rewrite <- Hm; unfold GetModuleName; by rewrite Hn1).
  rewrite <- Ha1 in Hpl, Hne, Hfiled. rewrite Ha1 in *. clear Hc0 Hg0 Hn0.
  apply bind_Ok_inv in Hp as ([k1 fee1] & Hf & Hp). apply wrap_err_Ok in Hf.
  destruct (GetAssetOutboundFee_frame _ _ _ _ _ Hf) as [m ->].
  apply GetAssetOutboundFee_uint in Hf as [Hfok Hfee]; [|apply Hok].
  assert (Hok1 : funds_ok (with_ints k m)) by (split; [by apply funds_vaults|exact (fo_items k Hok)|done]).
  apply bind_Ok_inv in Hp as ([gas rate] & Hg & Hp). apply wrap_err_Ok in Hg.
  apply GetGasDetails_uint in Hg; [|done].
  apply bind_Ok_inv in Hp as (outputs & Hs & Hp). rewrite <- Ha1 in Ht1.
  apply select_vaults_ok in Hs as [Hall Hsum]; [|done..].
  apply bind_Ok_inv in Hp as (lend & _ & Hp). apply bind_Ok_inv in Hp as (p & Hf & Hp).
  rewrite <- Ha1 in Hpl, Hf. set (a := GetLayer1Asset (toi_asset toi1)) in *.
  rewrite <- Ha1 in Hne, Hfiled. fold a in Hne, Hfiled.
  apply (prepare_outputs_ok (with_ints k m) (GetPool k a) _ _ _ _ _ _ 0) in Hf as (Hpk & Hu & Hle); [|done..|].
  2: { split_and!; [|constructor|unfold total_out; simpl; lia]. split_and!; try done; [exact (fe_pools k (fo_fees k Hok) a)|simpl; lia]. }
  destruct Hpk as ((Hbank & Hpools) & _ & Has & Hfu & Hbal). cbn [with_ints kBank kPools] in Hbank, Hpools.
  apply bind_Ok_inv in Hp as (k2 & Hset & Hp). apply bind_Ok_inv in Hp as (k3 & Hcol & Hp). injection Hp as <- <- <-.
  assert (Hpe : Pool_IsEmpty (ppPool p) = false) by (unfold Pool_IsEmpty in *; by rewrite Has).
  rewrite Hpe in Hset. simpl in Hset. apply wrap_err_Ok in Hset.
  assert (Hgp : GetPool (ppStore p) a = GetPool k a) by (unfold GetPool; by rewrite Hpools).
  apply (set_filed_pool (ppStore p) a) in Hset as (Hsum2 & Hb2 & _); [| |by rewrite Hgp..].
  2: { unfold pool_filed. by rewrite Hgp. }
  apply collect_fee_asgard in Hcol as (Hc1' & Hc2' & Hc3'); [|apply Hpl|apply Hpl|done].
  assert (Hd : pools_deca (ppStore p) = pools_deca k) by (unfold pools_deca; by rewrite Hpools).
  assert (Hd3 : pools_deca k3 = pools_deca k2) by (unfold pools_deca; by rewrite Hc3').
  assert (Hdeca : forall module, deca_of k2 module = deca_of k module) by (intros; unfold deca_of; by rewrite Hb2, Hbank).
  rewrite Hgp in Hsum2. rewrite !Hdeca in *. unfold unpooled.
  assert (Ham : toi_amount toi1 = toi_amount toi) by (unfold toi_amount; by rewrite Hc1).
  destruct Hfu as [Hf0 _]. split_and!; lia.
Qed.
End txout_props.

(** ** The property at a concrete input *)

Definition demo_out_constants (name : string) : Z :=
  if String.eqb name "TargetOutboundFeeSurplusDeca" then 100 * 10 ^ 8
  else if String.eqb name "MaxOutboundFeeMultiplierBasisPoints" then 30000
  else if String.eqb name "MinOutboundFeeMultiplierBasisPoints" then 9000
  else 0.
Definition demo_out_env : TxOutEnv (KVStore SimpleBank) :=
  mkTxOutEnv demo_out_constants (fun pk => Ok pk) demo_pk_address (fun m => Ok ("module-" ++ m))
    (fun a => Ok a) demo_liquidity_env (fun _ k => Ok k).
Definition demo_out_bank : SimpleBank :=
  mkSimpleBank {[("reserve", "deca") := 500; ("asgard", "deca") := 1000 * 10 ^ 8]} {["deca" := 1000 * 10 ^ 8 + 500]}.
Definition demo_out_store : KVStore SimpleBank :=
  with_vaults
    (with_network_fees (with_pools (empty_store demo_out_bank 100)
        {[GetKey prefixPool (Asset_String BTCAsset) := demo_btc_pool]})
      {[network_fee_key BTCChain := NewNetworkFee BTCChain 1000 20]})
    {[vault_key "pka" := demo_btc_vault "pka" (2 * 10 ^ 8)]}.
Definition demo_out_toi : TxOutItem :=
  toi_with_address (toi_with_vault (demo_toi (10 ^ 8)) "pka" "") "bc1user".

Lemma demo_out_ok : funds_ok demo_out_store.
Proof.
  split; [| |split].
  - intros pk v Hv.
    assert (Hg : GetVault demo_out_store pk =
      match ({[vault_key "pka" := demo_btc_vault "pka" (2 * 10 ^ 8)]} : gmap string Vault) !! vault_key pk with
      | Some v => Ok (complete_vault demo_out_store pk v)
      | None => Err ("vault with pubkey(" ++ pk ++ ") doesn't exist")
      end) by reflexivity.
    rewrite Hg in Hv. destruct (decide (vault_key "pka" = vault_key pk)) as [Heq|Hne].
    + rewrite Heq, lookup_singleton_eq in Hv. injection Hv as <-. repeat constructor; vm_compute; congruence.
    + by rewrite lookup_singleton_ne in Hv by done.
  - intros h. unfold GetTxOut. simpl. rewrite lookup_empty. constructor.
  - apply (so_pools demo_plan_store (proj1 demo_plan_ok)).
  - intros c. unfold GetNetworkFee, demo_out_store, with_vaults, with_network_fees, kNetworkFees.
    destruct (decide (network_fee_key BTCChain = network_fee_key c)) as [<-|Hne].
    + rewrite lookup_singleton_eq. repeat split; vm_compute; congruence.
    + rewrite lookup_singleton_ne by done. repeat split; simpl; lia.
  - intros a. unfold getUint64. simpl. rewrite lookup_empty. simpl. unfold is_u64. lia.
  - intros a. unfold getUint64. simpl. rewrite lookup_empty. simpl. unfold is_u64. lia.
Qed.

Lemma prepare_keeps_backing_witness : exists k' outs fee,
  prepareTxOutItem (K := keys_std) (S := sdk_std) (L := addr_std) (P := memo_lib_std) demo_out_env
    demo_out_store demo_out_toi = Ok (k', outs, fee) /\
  map toi_amount outs = [99980000] /\ fee = 1999960 /\
  unpooled k' = unpooled demo_out_store /\ pools_deca k' = pools_deca demo_out_store - fee.
Proof.
  do 3 eexists. split; [vm_compute; reflexivity|]. do 2 (split; [reflexivity|]).
  match goal with |- unpooled ?k = _ /\ _ => set (k' := k) end.
  epose proof (prepare_keeps_backing (K := keys_std) (S := sdk_std) (L := addr_std) (P := memo_lib_std)
    demo_out_env demo_out_store demo_out_toi k' _ 1999960) as Hk.
  destruct Hk as (H1 & _ & H2 & _).
  - apply demo_out_ok.
  - split; [reflexivity|]. split; [split; vm_compute; congruence|constructor].
  - split_and!; reflexivity.
  - reflexivity.
  - vm_compute. reflexivity.
  - intros _. vm_compute. reflexivity.
  - vm_compute. reflexivity.
  - split; [exact H1|exact H2].
Defined.
