(* ===== verification/NodeMsgs.v ===== *)
(** The transactions of the node operators: [handler_ip_address.go],
    [handler_version.go], [handler_maint.go], [handler_set_node_keys.go] and
    [handler_node_pause_chain.go] of [x/thorchain/]; the path of a node memo
    through [handler_deposit.go]; and the delivery of all of them, bond messages
    and votes included: the ante handler, then the message handler. *)
From S2P Require Import Prelude SdkMath GoStr Keys Shares Chains Assets Coins Bank Nodes Txs.
From S2P Require Import Voters Mimir Pools Streaming Vaults Keeper Halt VaultStore NodeStore Governance Bonds.
Local Open Scope string_scope.
Local Open Scope Z_scope.

(** ** Messages *)
Record MsgSetIPAddress := mkMsgSetIPAddress {
  ipIPAddress : string;
  ipSigner : AccAddress
}.
Record MsgSetVersion := mkMsgSetVersion {
  svVersion : string;
  svSigner : AccAddress
}.
Record MsgMaint := mkMsgMaint {
  mtNodeAddress : AccAddress;
  mtSigner : AccAddress
}.
Record MsgSetNodeKeys := mkMsgSetNodeKeys {
  skPubKeySetSet : PubKeySet;
  skValidatorConsPubKey : string;
  skSigner : AccAddress
}.
Record MsgNodePauseChain := mkMsgNodePauseChain {
  npValue : Z;
  npSigner : AccAddress
}.

(** What the handlers read from outside the store: the native fee
    ([GetNativeTxFee]), a constant, the address of the Asgard module, the bech32
    parser of consensus keys and the hash of a key ([GetThorAddress]). *)
Record NodeEnv := mkNodeEnv {
  neNativeTxFee : Z;
  neNodePauseChainBlocks : Z;
  neAsgardAddress : AccAddress;
  neConsPubKey : string -> goerr;
  neThorAddress : PubKey -> outcome AccAddress
}.

Section node_msgs.
Context {B : Type} `{Bank B} {K : SdkKeys} {S : SdkMath}.
Abbreviation Store := (KVStore B) (only parsing).
Context (env : NodeEnv).

(** *** ValidateBasic *)
Definition MsgSetIPAddress_ValidateBasic (m : MsgSetIPAddress) : goerr :=
  if acc_empty (ipSigner m) then Some (acc_string (ipSigner m))
  else if negb (parse_ip_ok (ipIPAddress m)) then Some "invalid IP address"
  else None.

Definition MsgSetVersion_ValidateBasic (m : MsgSetVersion) : goerr :=
  if acc_empty (svSigner m) then Some (acc_string (svSigner m))
  else snd (semver_make (svVersion m)).

Definition MsgMaint_ValidateBasic (m : MsgMaint) : goerr :=
  if negb (acc_verify (mtSigner m)) then Some (acc_string (mtSigner m))
  else if negb (acc_verify (mtNodeAddress m)) then Some (acc_string (mtNodeAddress m))
  else None.

Definition MsgSetNodeKeys_ValidateBasic (m : MsgSetNodeKeys) : goerr :=
  if acc_empty (skSigner m) then Some (acc_string (skSigner m))
  else match neConsPubKey env (skValidatorConsPubKey m) with
       | Some e => Some e
       | None =>
           if PubKeySet_IsEmpty (skPubKeySetSet m) then Some "node pub keys cannot be empty"
           else None
       end.

Definition MsgNodePauseChain_ValidateBasic (m : MsgNodePauseChain) : goerr :=
  if acc_empty (npSigner m) then Some (acc_string (npSigner m)) else None.

(** The assignments the handlers make. *)
Definition with_info (na : NodeAccount) (ip version : string) (maintenance : bool) : NodeAccount :=
  mkNodeAccount (NodeAddress na) (Status na) (naPubKeySet na) (ValidatorConsPubKey na)
    (naBond na) (ActiveBlockHeight na) (naBondAddress na) (StatusSince na) (SignerMembership na)
    (RequestedToLeave na) (ForcedToLeave na) (LeaveScore na) ip version (naType na)
    (MissingBlocks na) maintenance.
Definition with_keys (na : NodeAccount) (pks : PubKeySet) (cons : string) : NodeAccount :=
  mkNodeAccount (NodeAddress na) (Status na) pks cons
    (naBond na) (ActiveBlockHeight na) (naBondAddress na) (StatusSince na) (SignerMembership na)
    (RequestedToLeave na) (ForcedToLeave na) (LeaveScore na) (IPAddress na) (naVersion na)
    (naType na) (MissingBlocks na) (Maintenance na).

(** *** handler_ip_address.go *)
Definition not_authorized (addr : AccAddress) : string := acc_string addr ++ " is not authorized".

Definition validateIPAddressAuth (k : Store) (signer : AccAddress) : goerr :=
  let nodeAccount := GetNodeAccount k signer in
  if NodeAccount_IsEmpty nodeAccount then Some (not_authorized signer)
  else if negb (naType nodeAccount =? NodeType_TypeValidator) then Some (not_authorized signer)
  else None.

Definition ip_handle (k : Store) (msg : MsgSetIPAddress) : Store :=
  let na := GetNodeAccount k (ipSigner msg) in
  SetNodeAccount k (with_info na (ipIPAddress msg) (naVersion na) (Maintenance na)).

Definition ip_run (k : Store) (msg : MsgSetIPAddress) : outcome Store :=
  _ ← check (MsgSetIPAddress_ValidateBasic msg);
  _ ← check (validateIPAddressAuth k (ipSigner msg));
  Ok (ip_handle k msg).

Definition IPAddressAnteHandler (k : Store) (msg : MsgSetIPAddress) : outcome Store :=
  _ ← check (validateIPAddressAuth k (ipSigner msg));
  DeductNativeTxFeeFromBond k (neNativeTxFee env) (ipSigner msg).

(** *** handler_version.go *)
Definition validateVersionAuth (k : Store) (signer : AccAddress) : goerr :=
  let nodeAccount := GetNodeAccount k signer in
  if NodeAccount_IsEmpty nodeAccount then Some (not_authorized signer)
  else if negb (naType nodeAccount =? NodeType_TypeValidator) then Some (not_authorized signer)
  else None.

Definition version_validate (k : Store) (msg : MsgSetVersion) : goerr :=
  match MsgSetVersion_ValidateBasic msg with
  | Some e => Some e
  | None =>
      match semver_make (svVersion msg) with
      | (_, Some _) => Some (svVersion msg ++ " is invalid")
      | (v, None) =>
          if semver_tagged v then Some "THORChain doesn't use Pre/Build version"
          else validateVersionAuth k (svSigner msg)
      end
  end.

(** The version only ever goes up. *)
Definition version_handle (k : Store) (msg : MsgSetVersion) : outcome Store :=
  let na := GetNodeAccount k (svSigner msg) in
  match semver_make (svVersion msg) with
  | (_, Some e) => Err ("fail to parse version: " ++ e)
  | (version, None) =>
      let na := if semver_lt (GetVersion na) version
        then with_info na (IPAddress na) (semver_string version) (Maintenance na) else na in
      let k := SetNodeAccount k na in
      if Status na =? NodeStatus_Active then SetMinJoinLast k else Ok k
  end.

Definition version_run (k : Store) (msg : MsgSetVersion) : outcome Store :=
  _ ← check (version_validate k msg); version_handle k msg.

Definition VersionAnteHandler (k : Store) (msg : MsgSetVersion) : outcome Store :=
  _ ← check (validateVersionAuth k (svSigner msg));
  DeductNativeTxFeeFromBond k (neNativeTxFee env) (svSigner msg).

(** *** handler_maint.go *)
Definition validateMaintAuth (k : Store) (acc signer : AccAddress) : outcome unit :=
  let nodeAccount := GetNodeAccount k acc in
  if NodeAccount_IsEmpty nodeAccount then Err (not_authorized acc)
  else
    bondAddr ← AccAddress_of (naBondAddress nodeAccount);
    if negb (acc_equals bondAddr signer) then Err (not_authorized acc) else Ok tt.

Definition maint_handle (k : Store) (msg : MsgMaint) : Store :=
  let na := GetNodeAccount k (mtNodeAddress msg) in
  SetNodeAccount k (with_info na (IPAddress na) (naVersion na) (negb (Maintenance na))).

Definition maint_run (k : Store) (msg : MsgMaint) : outcome Store :=
  _ ← check (MsgMaint_ValidateBasic msg);
  _ ← validateMaintAuth k (mtNodeAddress msg) (mtSigner msg);
  Ok (maint_handle k msg).

(** *** handler_set_node_keys.go *)
Definition validateNodeKeysAuth (k : Store) (signer : AccAddress) : goerr :=
  let nodeAccount := GetNodeAccount k signer in
  let node := "node " ++ acc_string (NodeAddress nodeAccount) in
  if NodeAccount_IsEmpty nodeAccount then
    Some ("unauthorized account(" ++ acc_string signer ++ ")")
  else if Status nodeAccount =? NodeStatus_Active then
    Some (node ++ " is active, so it can't update itself")
  else if Status nodeAccount =? NodeStatus_Disabled then
    Some (node ++ " is disabled, so it can't update itself")
  else if negb (PubKeySet_IsEmpty (naPubKeySet nodeAccount)) then
    Some (node ++ " already has pubkey set assigned")
  else None.

Definition keys_validate (k : Store) (msg : MsgSetNodeKeys) : outcome unit :=
  _ ← check (MsgSetNodeKeys_ValidateBasic msg);
  _ ← check (validateNodeKeysAuth k (skSigner msg));
  _ ← check (EnsureNodeKeysUnique k (skValidatorConsPubKey msg) (skPubKeySetSet msg));
  addr ← neThorAddress env (Secp256k1 (skPubKeySetSet msg));
  if negb (acc_equals (skSigner msg) addr) then Err "node address must match secp256k1 pubkey"
  else Ok tt.

Definition keys_handle (k : Store) (msg : MsgSetNodeKeys) : Store :=
  let na := UpdateStatus (GetNodeAccount k (skSigner msg)) NodeStatus_Standby (kHeight k) in
  SetNodeAccount k (with_keys na (skPubKeySetSet msg) (skValidatorConsPubKey msg)).

Definition keys_run (k : Store) (msg : MsgSetNodeKeys) : outcome Store :=
  _ ← keys_validate k msg; Ok (keys_handle k msg).

Definition SetNodeKeysAnteHandler (k : Store) (msg : MsgSetNodeKeys) : outcome Store :=
  _ ← check (validateNodeKeysAuth k (skSigner msg));
  DeductNativeTxFeeFromBond k (neNativeTxFee env) (skSigner msg).

(** *** handler_node_pause_chain.go *)
Definition pause_validate (k : Store) (msg : MsgNodePauseChain) : goerr :=
  match MsgNodePauseChain_ValidateBasic msg with
  | Some e => Some e
  | None =>
      if negb (isSignedByActiveNodeAccounts k (neAsgardAddress env) [npSigner msg])
      then Some "not authorized" else None
  end.

Definition pause_handle (k : Store) (msg : MsgNodePauseChain) : outcome Store :=
  active ← GetAsgardVaultsByStatus k VaultStatus_ActiveVault;
  let lastChurn := foldl (fun last vault =>
    if last <? vStatusSince vault then vStatusSince vault else last) (-1) active in
  let nodeHeight := GetNodePauseChain k (npSigner msg) in
  if (0 <? nodeHeight) && (lastChurn <=? nodeHeight) then
    Err "node has already chosen pause/resume since the last churn"
  else
    let key := "NodePauseChainGlobal" in
    let pauseHeight := GetMimir k key in
    let blocks := GetConfigInt64 k "NodePauseChainBlocks" (neNodePauseChainBlocks env) in
    if 0 <? npValue msg then
      let pauseHeight := if kHeight k <? pauseHeight
        then i64 (pauseHeight + blocks) else i64 (kHeight k + blocks) in
      Ok (SetMimir (SetNodePauseChain k (npSigner msg)) key pauseHeight)
    else if pauseHeight <=? kHeight k then Ok k
    else Ok (SetMimir (SetNodePauseChain k (npSigner msg)) key (i64 (pauseHeight - blocks))).

Definition pause_run (k : Store) (msg : MsgNodePauseChain) : outcome Store :=
  _ ← check (pause_validate k msg); pause_handle k msg.

(** *** helpers.go *)
Definition activeNodeAccountsSignerPriority (k : Store) (signers : list AccAddress) : outcome Store :=
  if isSignedByActiveNodeAccounts k (neAsgardAddress env) signers then Ok k
  else Err "not authorized".

(** *** keeper.go *)
Definition DeductNativeTxFeeFromAccount (k : Store) (acctAddr : AccAddress) : outcome Store :=
  let fee := neNativeTxFee env in
  if fee =? 0 then Ok k
  else SendFromAccountToModule k acctAddr ReserveName (NewCoin DecaNative fee).
End node_msgs.

(** ** Deposits with a node memo *)

(** The parsed memos of [x/thorchain/memo/] the node operators use. *)
Inductive NodeMemo : Type :=
| BondMemo (nodeAddress bondProviderAddress : AccAddress) (nodeOperatorFee : Z)
| UnbondMemo (nodeAddress : AccAddress) (amount : Z) (bondProviderAddress : AccAddress)
| RebondMemo (nodeAddress newBondProviderAddress : AccAddress) (amount : Z)
| LeaveMemo (nodeAddress : AccAddress)
| OperatorRotateMemo (operatorAddress : AccAddress)
| MaintMemo (nodeAddress : AccAddress).

(** The message a memo makes. *)
Inductive NodeMsg : Type :=
| NMBond (m : MsgBond)
| NMUnBond (m : MsgUnBond)
| NMReBond (m : MsgReBond)
| NMLeave (m : MsgLeave)
| NMOperatorRotate (m : MsgOperatorRotate)
| NMMaint (m : MsgMaint).

(** The module a deposit goes to. *)
Definition targetModule (memo : NodeMemo) : string :=
  match memo with
  | BondMemo _ _ _ | UnbondMemo _ _ _ | LeaveMemo _ | OperatorRotateMemo _ => BondName
  | MaintMemo _ => ReserveName
  | RebondMemo _ _ _ => AsgardName
  end.

(** [processOneTxIn], for these memos. *)
Definition processOneTxIn (tx : Tx) (coin : Coin) (memo : NodeMemo) (signer : AccAddress) :
    NodeMsg :=
  match memo with
  | BondMemo node bp fee =>
      NMBond (mkMsgBond tx node (cAmount (Coins_GetCoin (txCoins tx) DecaAsset)) (txFrom tx)
                signer bp fee)
  | UnbondMemo node amt bp => NMUnBond (mkMsgUnBond tx node (txFrom tx) amt signer bp)
  | RebondMemo node new amt => NMReBond (mkMsgReBond tx node new amt signer)
  | LeaveMemo node => NMLeave (mkMsgLeave tx node signer)
  | OperatorRotateMemo operator => NMOperatorRotate (mkMsgOperatorRotate signer operator coin)
  | MaintMemo node => NMMaint (mkMsgMaint node signer)
  end.

(** A deposit of one native coin with a node memo; [hash] and [text] are the
    transaction id and the memo's text. *)
Record NodeDeposit := mkNodeDeposit {
  ndSigner : AccAddress;
  ndCoin : Coin;
  ndMemo : NodeMemo;
  ndHash : TxID;
  ndText : string
}.

(** The node transactions. *)
Inductive NodeTxn : Type :=
| TxnDeposit (d : NodeDeposit)
| TxnBan (m : MsgBan)
| TxnMimir (m : MsgMimir)
| TxnSetIPAddress (m : MsgSetIPAddress)
| TxnSetVersion (m : MsgSetVersion)
| TxnSetNodeKeys (m : MsgSetNodeKeys)
| TxnNodePauseChain (m : MsgNodePauseChain).

Section delivery.
Context {B : Type} `{Bank B} {K : SdkKeys} {S : SdkMath}.
Abbreviation Store := (KVStore B) (only parsing).
Context (env : NodeEnv) (benv : BondEnv) (menv : MimirEnv).
Context (order : gmap Z Z -> list (Z * Z)) (account_exists : B -> AccAddress -> bool).
(** The address of a module account. *)
Context (module_address : string -> Address).

Definition run_node_msg (k : Store) (m : NodeMsg) : outcome Store :=
  match m with
  | NMBond m => bond_run benv account_exists k m
  | NMUnBond m => unbond_run benv k m
  | NMReBond m => rebond_run benv k m
  | NMLeave m => leave_run benv k m
  | NMOperatorRotate m => rotate_run benv k m
  | NMMaint m => maint_run k m
  end.

(** [handler_deposit.go]: coins other than DECA, TCY and the whitelisted ones
    may only go to the Asgard module. *)
Definition deposit_handle (k : Store) (d : NodeDeposit) : outcome Store :=
  let coin := ndCoin d in
  if IsChainHalted k THORChain then Err "unable to use MsgDeposit while THORChain is halted"
  else
    '(denom, amount) ← wrap_err "coins are native to THORChain" (Coin_Native coin);
    if negb (Coin_IsEmpty coin) && (bank_balance (kBank k) (account_name (ndSigner d)) denom <? amount)
    then Err "insufficient funds"
    else
      let module := targetModule (ndMemo d) in
      if negb (Coin_IsEmpty coin) &&
         (negb (IsDeca (cAsset coin)) && negb (IsTCY (cAsset coin)) &&
          negb (IsWhitelisted (cAsset coin))) && negb (String.eqb module AsgardName)
      then Err "messages must only contain RUNE or TCY"
      else
        k ← (if negb (Coin_IsEmpty coin) && negb (IsTradeAsset (cAsset coin)) &&
                negb (IsSecuredAsset (cAsset coin))
             then SendFromAccountToModule k (ndSigner d) module coin else Ok k);
        let tx := mkTx (ndHash d) THORChain (acc_string (ndSigner d)) (module_address module)
                    [coin] [] (ndText d) in
        run_node_msg k (processOneTxIn tx coin (ndMemo d) (ndSigner d)).

(** The ante handler of a transaction: its changes stay even when the message
    fails. *)
Definition anteHandleMessage (k : Store) (t : NodeTxn) : outcome Store :=
  match t with
  | TxnDeposit d => DeductNativeTxFeeFromAccount env k (ndSigner d)
  | TxnBan m => activeNodeAccountsSignerPriority env k [bnSigner m]
  | TxnMimir m => activeNodeAccountsSignerPriority env k [mmSigner m]
  | TxnSetIPAddress m => IPAddressAnteHandler env k m
  | TxnSetVersion m => VersionAnteHandler env k m
  | TxnSetNodeKeys m => SetNodeKeysAnteHandler env k m
  | TxnNodePauseChain m => activeNodeAccountsSignerPriority env k [npSigner m]
  end.

Definition run_txn (k : Store) (t : NodeTxn) : outcome Store :=
  match t with
  | TxnDeposit d => deposit_handle k d
  | TxnBan m => ban_run benv k m
  | TxnMimir m => mimir_run order menv k m
  | TxnSetIPAddress m => ip_run k m
  | TxnSetVersion m => version_run k m
  | TxnSetNodeKeys m => keys_run env k m
  | TxnNodePauseChain m => pause_run env k m
  end.

(** Delivery: a transaction that fails in its message handler, or panics there,
    leaves only what the ante handler did. *)
Definition deliver (k : Store) (t : NodeTxn) : Store :=
  match anteHandleMessage k t with
  | Ok k1 => match run_txn k1 t with Ok k2 => k2 | _ => k1 end
  | _ => k
  end.

(** The amounts a transaction carries are [Uint]s, by their type. *)
Definition txn_uints (t : NodeTxn) : Prop :=
  match t with
  | TxnDeposit d =>
      is_uint (cAmount (ndCoin d)) /\
      match ndMemo d with
      | UnbondMemo _ amt _ | RebondMemo _ _ amt => is_uint amt
      | _ => True
      end
  | _ => True
  end.

(** A transaction is delivered, at some height.  The height rises between
    transactions; what the end of a block does (rewards, slashing, churning) is
    no step here. *)
Inductive node_step : Store -> Store -> Prop :=
| step_deliver k t : txn_uints t -> node_step k (deliver k t)
| step_height k h : kHeight k < h -> node_step k (with_height k h).
End delivery.

(** ** Lemmas *)
Section node_msg_lemmas.
Context {B : Type} `{Bank B} `{!BankOk B} {K : SdkKeys} {S : SdkMath} `{!SdkMathOk S}.
Implicit Types k : KVStore B.

(** What the gap depends on. *)
Lemma drops_frame d k k1 k2 : drops d k k1 -> kBank k2 = kBank k1 ->
  kNodeAccounts k2 = kNodeAccounts k1 -> kBondProviders k2 = kBondProviders k1 -> drops d k k2.
Proof using.
  intros ([Hn Hp] & Hg & Hs) Hb Ha Hbp. split; [split; rewrite ?Ha, ?Hbp; done|].
  split; [unfold bond_gap, bond_total, deca_of in *; by rewrite Hb, Ha|].
  apply (same_keys_trans k k1); [done|]. by apply same_keys_accounts.
Qed.

Lemma write_info k addr ip v m : nodes_ok k ->
  drops 0 k (SetNodeAccount k (with_info (GetNodeAccount k addr) ip v m)).
Proof using.
  intros Hk. by apply (write_same k (GetNodeAccount k addr)); [|apply GetNodeAccount_at|..].
Qed.

Lemma ip_run_ok k msg k' : nodes_ok k -> ip_run k msg = Ok k' -> drops 0 k k'.
Proof using. intros Hk Hr. unfold ip_run in Hr. ok_inv. by apply write_info. Qed.

Lemma maint_run_ok k msg k' : nodes_ok k -> maint_run k msg = Ok k' -> drops 0 k k'.
Proof using. intros Hk Hr. unfold maint_run in Hr. ok_inv. by apply write_info. Qed.

Lemma SetMinJoinLast_frame k k' : SetMinJoinLast k = Ok k' ->
  kBank k' = kBank k /\ kNodeAccounts k' = kNodeAccounts k /\ kBondProviders k' = kBondProviders k.
Proof using.
  unfold SetMinJoinLast. intros Hs. apply bind_Ok_inv in Hs as ([v h] & _ & Hs).
  by case_if_in Hs; simplify_eq.
Qed.

Lemma version_run_ok k msg k' : nodes_ok k -> version_run k msg = Ok k' -> drops 0 k k'.
Proof using.
  intros Hk Hr. unfold version_run, version_handle in Hr. ok_inv.
  destruct (semver_make (svVersion msg)) as [v [e|] ]; [done|]. cbv zeta in Hr.
  set (na := GetNodeAccount k (svSigner msg)) in *.
  set (na' := if semver_lt _ _ then _ else _) in Hr.
  assert (Hd : drops 0 k (SetNodeAccount k na')).
  { unfold na'. case_if; [by apply write_info|].
    by apply (write_same k na); [|apply GetNodeAccount_at|..]. }
  clearbody na'. case_if_in Hr; [|by simplify_eq].
  apply SetMinJoinLast_frame in Hr as (? & ? & ?). by eapply drops_frame.
Qed.

(** New keys for one account. *)
Lemma keys_run_ok env k msg k' : nodes_ok k -> keys_run env k msg = Ok k' ->
  nodes_ok k' /\ bond_gap k' = bond_gap k.
Proof using.
  intros Hk Hr. unfold keys_run in Hr. ok_inv. unfold keys_handle.
  set (na := GetNodeAccount k (skSigner msg)).
  destruct (UpdateStatus_same na NodeStatus_Standby (kHeight k)) as (Hb & Ha & _).
  pose proof (GetNodeAccount_at k (skSigner msg) Hk) as Hna. fold na in Hna.
  set (na' := with_keys _ _ _). assert (Hb' : naBond na' = naBond na) by done.
  destruct (SetNodeAccount_ok k na na' Hk Hna) as (Hk' & _ & Hg); [done| | |split; [done|lia]].
  - rewrite Hb'. apply (na_uint k na Hna).
  - intros He. apply (UpdateStatus_empty na NodeStatus_Standby (kHeight k)) in He; [|done].
    apply (na_empty k na Hna) in He. lia.
Qed.

Lemma pause_run_ok env k msg k' : nodes_ok k -> pause_run env k msg = Ok k' -> drops 0 k k'.
Proof using.
  intros Hk Hr. unfold pause_run, pause_handle in Hr. ok_inv.
  repeat case_if_in Hr; try done; injection Hr as <-;
    by apply (drops_frame 0 k k); [apply drops_refl|..].
Qed.

Lemma charge_vote_ok env k signer k' : nodes_ok k -> is_uint (envNativeTxFee env) ->
  charge_vote env k signer = Ok k' -> drops 0 k k'.
Proof using BankOk0 SdkMathOk0.
  intros Hk Hf Hc. unfold charge_vote in Hc. cbv zeta in Hc.
  pose proof (GetNodeAccount_at k signer Hk) as Hna. set (na := GetNodeAccount k signer) in *.
  set (cost := if naBond na <? _ then _ else _) in Hc.
  assert (Hcost : 0 <= cost <= naBond na /\ is_uint cost).
  { pose proof (na_uint k na Hna) as Hu. unfold cost, is_uint in *. case_if; z_bool; lia. }
  clearbody cost. destruct Hcost as [Hle Hcu]. apply bind_Ok_inv in Hc as (bond & Hb & Hc).
  rewrite SafeSub_Ok in Hb by (done || exact (na_uint k na Hna)). injection Hb as <-.
  rewrite Z.max_r in Hc by lia.
  assert (Hs1 : same_keys k (SetNodeAccount k (with_naBond na (naBond na - cost))))
    by by apply (SetNodeAccount_keys k na).
  destruct (SetNodeAccount_ok k na (with_naBond na (naBond na - cost)) Hk Hna) as (Hk1 & _ & Hg1).
  - done.
  - pose proof (na_uint k na Hna). unfold is_uint in *. simpl. lia.
  - intros He. pose proof (na_empty k na Hna He). simpl. lia.
  - simpl in Hg1. case_if_in Hc.
    + destruct (bond_to_reserve_ok _ _ _ Hk1 Hc) as (Hk2 & Hg2 & Ha2 & _). split; [done|].
      split; [lia|]. apply (same_keys_trans _ _ _ Hs1). by apply same_keys_accounts.
    + injection Hc as <-. apply negb_false_iff in E. z_bool. split; [done|]. split; [lia|done].
Qed.

Lemma mimir_run_ok order env k msg k' : nodes_ok k -> is_uint (envNativeTxFee env) ->
  mimir_run order env k msg = Ok k' -> drops 0 k k'.
Proof using BankOk0 SdkMathOk0.
  intros Hk Hf Hr. unfold mimir_run, mimir_handle in Hr. apply bind_Ok_inv in Hr as ([] & _ & Hr).
  apply bind_Ok_inv in Hr as (k1 & Hc & Hr). apply charge_vote_ok in Hc; [|done..].
  set (k2 := SetNodeMimir k1 _ _ _) in Hr.
  assert (Hd : drops 0 k k2).
  { destruct (SetNodeMimir_frame k1 (mmKey msg) (mmValue msg) (mmSigner msg)) as (_ & Hb & Ha).
    apply (drops_frame 0 k k1); [done..|]. unfold k2, SetNodeMimir.
    by destruct (if mmValue msg <? 0 then _ else _). }
  clearbody k2. repeat case_if_in Hr; injection Hr as <-; done || by apply (drops_frame 0 k k2).
Qed.
End node_msg_lemmas.

Section delivery_lemmas.
Context {B : Type} `{Bank B} `{!BankOk B} {K : SdkKeys} {S : SdkMath} `{!SdkMathOk S}.
Context (env : NodeEnv) (benv : BondEnv) (menv : MimirEnv).
Context (order : gmap Z Z -> list (Z * Z)) (account_exists : B -> AccAddress -> bool).
Context (module_address : string -> Address).
Implicit Types k : KVStore B.

(** A deposit of another asset, or to another module, keeps the gap; DECA for
    the Bond module raises it. *)
Lemma account_to_module_ok k from module coin k' : nodes_ok k ->
  SendFromAccountToModule k from module coin = Ok k' ->
  (module <> BondName -> drops 0 k k') /\
  (Coin_IsDeca coin = true -> drops (- (if String.eqb module BondName then cAmount coin else 0)) k k').
Proof using BankOk0.
  intros Hk Hs. unfold SendFromAccountToModule in Hs. apply bind_Ok_inv in Hs as (b & Hb & Hs).
  injection Hs as <-. destruct (bank_send_ok _ _ _ _ _ _ Hb) as [Hbal _].
  destruct (bond_gap_bank k b Hk) as [Hk' Hg].
  assert (Hbond : bank_balance b BondName "deca" - deca_of k BondName =
    if String.eqb "deca" (Asset_Native (cAsset coin)) && String.eqb module BondName
    then cAmount coin else 0).
  { rewrite Hbal. unfold moved, deca_of. rewrite (String.eqb_sym module BondName).
    destruct (String.eqb_spec BondName (account_name from)) as [He|_];
      [by destruct (account_name_ne from)|].
    destruct (String.eqb "deca" _), (String.eqb BondName module); simpl; lia. }
  split.
  - intros Hm. apply drops_bank; [done| |done]. rewrite Hg, Hbond, (proj2 (String.eqb_neq module BondName) Hm).
    rewrite andb_false_r. lia.
  - intros Hd. apply drops_bank; [done| |done]. rewrite Hg, Hbond, (Asset_Native_deca _ Hd). simpl. lia.
Qed.

Lemma bond_run_ok k msg k' : nodes_ok k -> is_uint (mbBond msg) ->
  bond_run benv account_exists k msg = Ok k' ->
  drops (mbBond msg) k k' /\ mbBond msg <> 0 /\
  exists c, txCoins (mbTxIn msg) = [c] /\ Coin_IsDeca c = true.
Proof using BankOk0 SdkMathOk0.
  intros Hk Hm Hr. unfold bond_run in Hr. apply bind_Ok_inv in Hr as ([] & Hv & Hr).
  unfold bond_validate in Hv. apply bind_Ok_inv in Hv as ([] & Hb & _).
  unfold check in Hb. destruct (MsgBond_ValidateBasic msg) as [e|] eqn:E; [done|].
  unfold MsgBond_ValidateBasic in E. do 3 (case_if_in E; [done|]).
  destruct (Tx_Valid _); [done|]. destruct (txCoins (mbTxIn msg)) as [|c [|] ]; try done.
  split; [by eapply bond_handle_ok|]. split; [by z_bool|]. exists c. split; [done|].
  by destruct (Coin_IsDeca c).
Qed.

Lemma deca_flags a : IsDeca a = true ->
  Asset_IsEmpty a = false /\ IsTradeAsset a = false /\ IsSecuredAsset a = false.
Proof using.
  unfold IsDeca. rewrite Asset_Equals_spec. destruct a as [c s t sy tr se].
  intros [= Hc Hs Ht Hsy Htr Hse]. simpl in *. split; [|done].
  unfold Asset_IsEmpty, Chain_IsEmpty, Symbol_IsEmpty, Ticker_IsEmpty. simpl.
  unfold Chain_String, Symbol_String, Ticker_String. by rewrite <- Hc, <- Hs, <- Ht.
Qed.

(** What a deposit sends before its message runs. *)
Lemma sent_ok k (d : NodeDeposit) k1 : let coin := ndCoin d in
  let module := targetModule (ndMemo d) in nodes_ok k ->
  (if negb (Coin_IsEmpty coin) && negb (IsTradeAsset (cAsset coin)) &&
      negb (IsSecuredAsset (cAsset coin))
   then SendFromAccountToModule k (ndSigner d) module coin else Ok k) = Ok k1 ->
  nodes_ok k1 /\ (module <> BondName \/ Coin_IsEmpty coin = true -> drops 0 k k1) /\
  (Coin_IsDeca coin = true -> cAmount coin <> 0 -> module = BondName ->
   drops (- cAmount coin) k k1).
Proof using BankOk0.
  intros coin module Hk Hs. pose proof (deca_flags (cAsset coin)) as Hflags.
  destruct (Coin_IsEmpty coin) eqn:Hemp; simpl in Hs.
  - injection Hs as <-. split; [done|]. split; [by intros _; apply drops_refl|].
    intros Hd Hnz _. destruct (Hflags Hd) as (Ha & _). unfold Coin_IsEmpty in Hemp.
    rewrite Ha in Hemp. simpl in Hemp. by z_bool.
  - case_if_in Hs.
    + destruct (account_to_module_ok k _ _ _ _ Hk Hs) as [H1 H2].
      pose proof (bond_gap_bank k) as _.
      assert (Hk1 : nodes_ok k1).
      { unfold SendFromAccountToModule in Hs. ok_inv. by apply bond_gap_bank. }
      split; [done|]. split; [intros [Hm|Hm]; [by apply H1|done]|].
      intros Hd _ Hm. specialize (H2 Hd). rewrite Hm, String.eqb_refl in H2. exact H2.
    + injection Hs as <-. split; [done|]. split; [by intros _; apply drops_refl|].
      intros Hd _ _. destruct (Hflags Hd) as (_ & Ht & Hse). by rewrite Ht, Hse in E.
Qed.

Lemma deposit_handle_ok k d k' : nodes_ok k -> txn_uints (TxnDeposit d) ->
  deposit_handle benv account_exists module_address k d = Ok k' -> drops 0 k k'.
Proof using BankOk0 SdkMathOk0.
  intros Hk [Hcu Hmu] Hh. unfold deposit_handle in Hh. case_if_in Hh; [done|].
  apply bind_Ok_inv in Hh as ([dn n] & _ & Hh). do 2 (case_if_in Hh; [done|]).
  apply bind_Ok_inv in Hh as (k1 & Hs & Hh).
  destruct (sent_ok k d k1 Hk Hs) as (Hk1 & Hother & Hbond). clear Hs E E0 E1.
  assert (Htrans : drops 0 k k1 -> drops 0 k1 k' -> drops 0 k k')
    by exact (drops_0_trans k k1 k').
  destruct d as [signer coin memo hash text]. simpl in *.
  destruct memo as [node bp fee|node amt bp|node new amt|node|operator|node]; simpl in *.
  - assert (Hu : is_uint (cAmount (Coins_GetCoin [coin] DecaAsset))).
    { simpl. case_if; [done|]. unfold is_uint, uint_lim. simpl. lia. }
    apply bond_run_ok in Hh as (Hd & Hnz & c & [= <-] & Hdeca); [|done|exact Hu].
    simpl in Hd, Hnz. unfold Coin_IsDeca, IsDeca in Hdeca. rewrite Hdeca in Hd, Hnz.
    pose proof (drops_trans _ _ _ _ _ (Hbond Hdeca Hnz eq_refl) Hd) as Hall.
    by rewrite Z.add_opp_diag_l in Hall.
  - apply Htrans; [apply Hother; right|eapply unbond_run_ok; [done| |exact Hh]; exact Hmu].
    unfold unbond_run, unbond_validate in Hh. ok_inv. simpl in *.
    by destruct (Coin_IsEmpty coin).
  - apply Htrans; [apply Hother; by left|]. unfold rebond_run in Hh. apply bind_Ok_inv in Hh as (_ & _ & Hh).
    eapply rebond_handle_ok; [done| |exact Hh]; exact Hmu.
  - unfold leave_run, leave_validate in Hh. ok_inv. simpl in *.
    apply Htrans; [apply Hother; right|by eapply leave_handle_ok].
    by destruct (Coin_IsEmpty coin).
  - unfold rotate_run in Hh. ok_inv.
    apply Htrans; [apply Hother; right|by eapply rotate_handle_ok].
    unfold MsgOperatorRotate_ValidateBasic in *. simpl in *. unfold Coin_IsEmpty.
    destruct (cAmount coin =? 0); [apply orb_true_r|].
    by destruct (acc_empty signer), (acc_empty operator).
  - apply Htrans; [apply Hother; by left|]. by eapply maint_run_ok.
Qed.

Lemma fee_from_bond_ok k err addr k' : nodes_ok k -> is_uint (neNativeTxFee env) ->
  (_ ← check err; DeductNativeTxFeeFromBond k (neNativeTxFee env) addr) = Ok k' -> drops 0 k k'.
Proof using BankOk0 SdkMathOk0.
  intros Hk Hf Hd. apply bind_Ok_inv in Hd as ([] & _ & Hd).
  apply DeductNativeTxFeeFromBond_ok in Hd as (Hk' & Hg & Hs); [|done..]. split; [done|].
  split; [lia|done].
Qed.

Lemma ante_ok k t k' : nodes_ok k -> is_uint (neNativeTxFee env) ->
  anteHandleMessage env k t = Ok k' -> drops 0 k k'.
Proof using BankOk0 SdkMathOk0.
  intros Hk Hf Ha.
  destruct t; simpl in Ha; try (by eapply fee_from_bond_ok; [..|exact Ha]);
    try (unfold activeNodeAccountsSignerPriority in Ha; case_if_in Ha; [injection Ha as <-|done];
         by apply drops_refl).
  unfold DeductNativeTxFeeFromAccount in Ha. case_if_in Ha; [injection Ha as <-; by apply drops_refl|].
  by apply account_to_module_ok in Ha as [Ha _]; [apply Ha|].
Qed.

(** Every transaction but the one that sets keys leaves all keys alone. *)
Lemma run_txn_ok k t k' : nodes_ok k -> txn_uints t -> is_uint (envNativeTxFee menv) ->
  run_txn env benv menv order account_exists module_address k t = Ok k' ->
  match t with
  | TxnSetNodeKeys m => keys_run env k m = Ok k' /\ nodes_ok k' /\ bond_gap k' = bond_gap k
  | _ => drops 0 k k'
  end.
Proof using BankOk0 SdkMathOk0.
  intros Hk Ht Hf Hr. destruct t; simpl in Hr.
  - by eapply deposit_handle_ok.
  - unfold ban_run in Hr. ok_inv. by eapply ban_handle_ok.
  - by eapply mimir_run_ok.
  - by eapply ip_run_ok.
  - by eapply version_run_ok.
  - split; [done|]. by eapply keys_run_ok.
  - by eapply pause_run_ok.
Qed.

(** A delivery leaves all keys alone, or sets the keys of its signer after the
    ante handler. *)
Lemma deliver_ok k t : nodes_ok k -> txn_uints t -> is_uint (neNativeTxFee env) ->
  is_uint (envNativeTxFee menv) ->
  let k' := deliver env benv menv order account_exists module_address k t in
  nodes_ok k' /\ bond_gap k' = bond_gap k /\
  (same_keys k k' \/ exists k1 m, same_keys k k1 /\ nodes_ok k1 /\ keys_run env k1 m = Ok k').
Proof using BankOk0 SdkMathOk0.
  intros Hk Ht Hf Hf' k'. unfold k', deliver.
  destruct (anteHandleMessage env k t) as [k1|e|] eqn:Ha; [|by split; [|split; [|left]]..].
  apply ante_ok in Ha as (Hk1 & Hg1 & Hs1); [|done..].
  destruct (run_txn env benv menv order account_exists module_address k1 t) as [k2|e|] eqn:Hr;
    [|by split; [|split; [lia|left]]..].
  apply run_txn_ok in Hr; [|done..].
  assert (Hcase : drops 0 k1 k2 \/ exists m, keys_run env k1 m = Ok k2 /\ nodes_ok k2 /\
    bond_gap k2 = bond_gap k1) by (destruct t; eauto). clear Hr.
  destruct Hcase as [(Hk2 & Hg2 & Hs2)|(m & Hr & Hk2 & Hg2)].
  - split; [done|]. split; [lia|]. left. by apply (same_keys_trans k k1).
  - split; [done|]. split; [lia|]. right. by exists k1, m.
Qed.

Lemma node_step_ok k k' : is_uint (neNativeTxFee env) -> is_uint (envNativeTxFee menv) ->
  nodes_ok k -> node_step env benv menv order account_exists module_address k k' ->
  nodes_ok k' /\ bond_gap k' = bond_gap k /\
  (same_keys k k' \/ exists k1 m, same_keys k k1 /\ nodes_ok k1 /\ keys_run env k1 m = Ok k').
Proof using BankOk0 SdkMathOk0.
  intros Hf Hf' Hk Hs. revert Hk. destruct Hs as [k1 t Ht|k1 h _]; intros Hk; [by apply deliver_ok|].
  destruct (drops_frame 0 k1 k1 (with_height k1 h)) as (Hk' & Hg & Hs); [by apply drops_refl|done..|].
  split; [done|]. split; [lia|by left].
Qed.
End delivery_lemmas.

(** *** Keys *)
Section key_lemmas.
Context {B : Type} `{Bank B} {K : SdkKeys} {S : SdkMath}.
Implicit Types k : KVStore B.

(** No two accounts share a consensus key, or a key of their sets. *)
Definition keys_unique k : Prop := forall key1 key2, key1 <> key2 ->
  (snd (keys_at k key1) = snd (keys_at k key2) -> snd (keys_at k key1) = "") /\
  (forall pk, pk <> "" -> PubKeySet_Contains (fst (keys_at k key1)) pk = true ->
     PubKeySet_Contains (fst (keys_at k key2)) pk = false).

Lemma keys_unique_same k k' : same_keys k k' -> keys_unique k -> keys_unique k'.
Proof using. intros Hs Hu key1 key2 Hne. rewrite !Hs. by apply Hu. Qed.

Lemma iterate_elem_of {A} (m : gmap string A) key x : m !! key = Some x -> x ∈ iterate m.
Proof using.
  intros Hm. unfold iterate. apply list_elem_of_In, in_map_iff. exists (key, x). split; [done|].
  apply list_elem_of_In. rewrite stable_sort_perm. by apply elem_of_map_to_list.
Qed.

(** Keys that passed the check are held by no account. *)
Lemma unique_check k cons pks key : EnsureNodeKeysUnique k cons pks = None ->
  cons <> "" /\ snd (keys_at k key) <> cons /\
  forall pk, pk <> "" -> PubKeySet_Contains pks pk = true ->
    PubKeySet_Contains (fst (keys_at k key)) pk = false.
Proof using.
  unfold EnsureNodeKeysUnique. intros He. destruct (is_blank cons) eqn:Hb; [done|].
  destruct (PubKeySet_IsEmpty pks); [done|]. destruct (List.find _ _) eqn:Hf; [done|].
  assert (Hc : cons <> "") by by intros ->. split; [done|].
  unfold keys_at. destruct (kNodeAccounts k !! key) as [na|] eqn:Hna; simpl.
  - apply iterate_elem_of, list_elem_of_In in Hna. apply (find_none _ _ Hf) in Hna. simpl in Hna.
    apply orb_false_iff in Hna as [ [Hcons Hs]%orb_false_iff He']. apply String.eqb_neq in Hcons.
    split; [done|]. intros pk _ [Hpk|Hpk]%orb_true_iff; apply String.eqb_eq in Hpk as <-; done.
  - split; [congruence|]. intros pk Hpk _. unfold PubKeySet_Contains, PubKey_Equals. simpl.
    by destruct pk.
Qed.

Lemma keys_run_unique env k msg k' : keys_unique k -> keys_run env k msg = Ok k' -> keys_unique k'.
Proof using.
  intros Hu Hr. unfold keys_run, keys_validate in Hr. ok_inv.
  match goal with Hc : check (EnsureNodeKeysUnique k ?c ?p) = Ok _ |- _ =>
    pose proof (fun key => unique_check k c p key) as Hnew;
    destruct (EnsureNodeKeysUnique k c p) eqn:E; [discriminate Hc|]; clear E end.
  unfold keys_handle. set (na' := with_keys _ _ _).
  destruct (NodeAccount_IsEmpty na') eqn:He.
  { unfold SetNodeAccount. by rewrite He. }
  destruct (SetNodeAccount_accounts k na' He) as (na2 & Hacc & _ & _ & _ & Hk2).
  set (key0 := node_key (NodeAddress na')) in *.
  assert (Hat : forall key, keys_at (SetNodeAccount k na') key =
    if decide (key0 = key) then (skPubKeySetSet msg, skValidatorConsPubKey msg) else keys_at k key).
  { intros key. unfold keys_at. rewrite Hacc. case_decide as Hd.
    - rewrite <- Hd, lookup_insert_eq. exact Hk2.
    - by rewrite lookup_insert_ne. }
  intros key1 key2 Hne. rewrite !Hat.
  destruct (Hnew key1 eq_refl) as (Hc & Hc1 & Hp1). destruct (Hnew key2 eq_refl) as (_ & Hc2 & Hp2).
  clearbody key0.
  do 2 case_decide; simpl; [congruence|by split; [congruence|auto]| |by apply Hu].
  split; [congruence|]. intros pk Hpk Hcon.
  apply not_true_iff_false. intros Hpn. by rewrite (Hp1 pk Hpk Hpn) in Hcon.
Qed.
End key_lemmas.

(** ** Properties *)

(** C3. The Bond module keeps backing the bonds: over any sequence of node
    transactions, at rising heights - bonding, unbonding, rebonding, leaving,
    operator rotation, bans, votes, addresses, versions, keys and pauses,
    whether they succeed, fail or panic - what the module holds beyond the sum
    of the node bonds never changes, and the accounts stay in order.  What the
    begin and the end of a block do to bonds (rewards, slashing, removal of low
    bonds) is not in the sequence; the native fees and the amounts in the memos
    are unsigned 256-bit integers. *)
Theorem bond_module_backs_bonds {B} `{Bank B} `{!BankOk B} {K : SdkKeys} {S : SdkMath}
    `{!SdkMathOk S} env benv menv order account_exists module_address (k k' : KVStore B) :
  is_uint (neNativeTxFee env) -> is_uint (envNativeTxFee menv) -> nodes_ok k ->
  rtc (node_step env benv menv order account_exists module_address) k k' ->
  nodes_ok k' /\
  deca_of k' BondName - bond_total k' = deca_of k BondName - bond_total k.
Proof.
  intros Hf Hf' Hk Hsteps. induction Hsteps as [k|k1 k2 k3 Hstep _ IH]; [done|].
  destruct (node_step_ok _ _ _ _ _ _ _ _ Hf Hf' Hk Hstep) as (Hk2 & Hg & _).
  destruct (IH Hk2) as [Hk3 Hg3]. split; [done|]. unfold bond_gap in Hg. lia.
Qed.

(** C27. Over any sequence of node transactions, at rising heights, no two node
    accounts ever share a consensus key or a public key. *)
Theorem node_keys_stay_unique {B} `{Bank B} `{!BankOk B} {K : SdkKeys} {S : SdkMath}
    `{!SdkMathOk S} env benv menv order account_exists module_address (k k' : KVStore B) :
  is_uint (neNativeTxFee env) -> is_uint (envNativeTxFee menv) -> nodes_ok k -> keys_unique k ->
  rtc (node_step env benv menv order account_exists module_address) k k' -> keys_unique k'.
Proof.
  intros Hf Hf' Hk Hu Hsteps. induction Hsteps as [k|k1 k2 k3 Hstep _ IH]; [done|].
  destruct (node_step_ok _ _ _ _ _ _ _ _ Hf Hf' Hk Hstep) as (Hk2 & _ & Hkeys). apply (IH Hk2).
  destruct Hkeys as [Hs|(k0 & m & Hs & _ & Hr)]; [by apply (keys_unique_same k1)|].
  apply (keys_run_unique env k0 m k2); [by apply (keys_unique_same k1)|exact Hr].
Qed.

(** ** The properties at concrete inputs *)

Definition demo_node_env : NodeEnv :=
  mkNodeEnv 2 720 "asgard" (fun _ => None) (fun pk => Ok pk).
Definition demo_bond_env : BondEnv :=
  mkBondEnv (fun _ => true) "asgard" 0 0 6 2000 100 0 0 43200 300 50.
Definition demo_operator_store : KVStore SimpleBank :=
  empty_store (mkSimpleBank {[("acct:op", "deca") := 1000]} {["deca" := 1000]}) 7.
Definition demo_bond_txn : NodeTxn :=
  TxnDeposit (mkNodeDeposit "op" (NewCoin DecaAsset 500) (BondMemo "n1" "" (-1)) "AA" "BOND:n1").

Lemma bond_module_backs_bonds_witness :
  let deliver := deliver (K := keys_std) (S := sdk_std) demo_node_env demo_bond_env demo_env range_up
    (fun _ _ => true) (fun m => m) in
  let k1 := deliver demo_operator_store demo_bond_txn in
  let k2 := deliver (with_height k1 8) (TxnSetIPAddress (mkMsgSetIPAddress "10.0.0.1" "n1")) in
  deca_of k2 BondName = 498 /\ bond_total k2 = 498.
Proof.
  intros deliver k1 k2.
  assert (Hb : deca_of k2 BondName = 498) by (vm_compute; reflexivity).
  split; [exact Hb|].
  destruct (bond_module_backs_bonds (K := keys_std) (S := sdk_std) demo_node_env demo_bond_env
    demo_env range_up (fun _ _ => true) (fun m => m) demo_operator_store k2) as [_ Hg].
  - split; vm_compute; congruence.
  - split; vm_compute; congruence.
  - split; intros key x Hx; vm_compute in Hx; discriminate Hx.
  - apply rtc_l with k1; [apply step_deliver; split; [split; vm_compute; congruence|exact I]|].
    apply rtc_l with (with_height k1 8); [apply step_height; vm_compute; reflexivity|].
    apply rtc_once, step_deliver. exact I.
  - rewrite Hb in Hg. change (deca_of demo_operator_store BondName) with 0 in Hg.
    change (bond_total demo_operator_store) with 0 in Hg. lia.
Defined.

Lemma demo_operator_store_ok : nodes_ok (K := keys_std) demo_operator_store.
Proof. split; intros key x Hx; vm_compute in Hx; discriminate Hx. Qed.

Definition demo_keys_txn : NodeTxn :=
  TxnSetNodeKeys (mkMsgSetNodeKeys (mkPubKeySet "n1" "e1") "cons1" "n1").

Lemma node_keys_stay_unique_witness :
  let deliver := deliver (K := keys_std) (S := sdk_std) demo_node_env demo_bond_env demo_env range_up
    (fun _ _ => true) (fun m => m) in
  let k2 := deliver (deliver demo_operator_store demo_bond_txn) demo_keys_txn in
  keys_at k2 (GetKey prefixNodeAccount "n1") = (mkPubKeySet "n1" "e1", "cons1") /\
  keys_unique k2.
Proof.
  intros deliver k2. split; [vm_compute; reflexivity|].
  apply (node_keys_stay_unique (K := keys_std) (S := sdk_std) demo_node_env demo_bond_env demo_env
    range_up (fun _ _ => true) (fun m => m) demo_operator_store k2).
  - split; vm_compute; congruence.
  - split; vm_compute; congruence.
  - exact demo_operator_store_ok.
  - intros key1 key2 _. split; [done|]. intros pk Hpk _. by destruct pk.
  - apply rtc_l with (deliver demo_operator_store demo_bond_txn);
      [apply step_deliver; split; [split; vm_compute; congruence|exact I]|].
    apply rtc_once, step_deliver. exact I.
Defined.
