(* ===== verification/NodeProps.v ===== *)
(** Properties of the node accounts in the store: the accounts removed for
    their low bond, and the minimum version to join. *)
From S2P Require Import Prelude SdkMath GoStr Keys Shares Chains Assets Coins Bank Nodes Txs.
From S2P Require Import Voters Mimir Pools Streaming Vaults Keeper VaultStore NodeStore Bonds.
Local Open Scope string_scope.
Local Open Scope Z_scope.

(** ** Accounts with next to no bond *)
Section low_bond.
Context {B : Type} `{Bank B} `{!BankOk B} {K : SdkKeys} {S : SdkMath} `{!SdkMathOk S}.
Implicit Types k : KVStore B.

Lemma pay_providers_ok providers k t f k' t' f' : nodes_ok k -> bonds_ok providers -> is_uint t ->
  pay_providers k providers t f = Ok (k', t', f') ->
  drops (t' - t) k k' /\ kNodeAccounts k' = kNodeAccounts k /\ is_uint t'.
Proof using BankOk0 SdkMathOk0.
  intros Hk Hb. revert k t f Hk. induction Hb as [|p ps Hp Hb IH]; intros k t f Hk Ht Hp'; simpl in Hp'.
  { injection Hp' as <- <- <-. split; [apply drops_bank; done || lia|done]. }
  case_if_in Hp'; [by eapply IH|].
  destruct (SendFromModuleToAccount k BondName _ _) as [k1|e|] eqn:Hs; [|by eapply IH|done].
  destruct (send_from_bond_ok _ _ _ _ Hk Hs) as (Hk1 & Hg1 & Ha1 & _).
  apply bind_Ok_inv in Hp' as (t1 & Hadd & Hp'). apply uint_add_inv in Hadd as [-> Ht1]; [|done..].
  destruct (IH k1 _ _ Hk1 Ht1 Hp') as ((Hk2 & Hg2 & _) & Ha2 & Ht2).
  split; [apply drops_bank; congruence || lia || done|]. split; [congruence|done].
Qed.

(** One account: when it is to be removed, the module lost no more than its
    bond, and nothing else changed; otherwise the gap is the same. *)
Lemma remove_low_bond_ok k key na k' low : nodes_ok k -> kNodeAccounts k !! key = Some na ->
  remove_low_bond k na = Ok (k', low, None) ->
  nodes_ok k' /\
  (forall key', key' <> key -> kNodeAccounts k' !! key' = kNodeAccounts k !! key') /\
  (low = true -> kNodeAccounts k' = kNodeAccounts k /\ bond_gap k - naBond na <= bond_gap k' /\
     naType na = NodeType_TypeValidator /\ Status na <> NodeStatus_Active /\ naBond na <= One) /\
  (low = false -> bond_gap k' = bond_gap k) /\ is_Some (kNodeAccounts k' !! key).
Proof using BankOk0 SdkMathOk0.
  intros Hk Hna Hr. destruct (no_account k Hk _ _ Hna) as (Hkey & He & Hu).
  assert (Hsome : is_Some (kNodeAccounts k !! key)) by by eexists.
  unfold remove_low_bond in Hr. case_if_in Hr; [by simplify_eq|]. case_if_in Hr; [by simplify_eq|].
  apply orb_false_iff in E as [_ Hact]. apply negb_false_iff, andb_true_iff in E0 as [Hty Hone]. z_bool.
  case_if_in Hr; [simplify_eq; z_bool; split; [done|]; split; [done|]; split; [|done]; split; [done|]; lia|].
  destruct (acc_from_bech32 _) as [to|e|]; [|done..].
  destruct (Providers (GetBondProviders k (NodeAddress na))) as [|p ps] eqn:HP.
  - destruct (SendFromModuleToAccount k BondName to _) as [k1|e|] eqn:Hs; [|by simplify_eq|done].
    injection Hr as <- <-. destruct (send_from_bond_ok _ _ _ _ Hk Hs) as (Hk1 & Hg1 & Ha1 & _).
    split; [done|]. split; [by rewrite Ha1|]. rewrite Ha1. split; [|done]. split; [done|]. lia.
  - apply bind_Ok_inv in Hr as (bps & Had & Hr).
    apply bind_Ok_inv in Hr as ([[k1 t] f] & Hpay & Hr).
    destruct (stored_bp_ok k (NodeAddress na) Hk) as [Hbs Hfee].
    destruct (Adjust_ok _ _ _ Hbs Hfee Hu Had) as [Hbs' _].
    apply pay_providers_ok in Hpay as ((Hk1 & Hg1 & _) & Ha1 & Ht);
      [|done..|unfold is_uint, uint_lim; lia].
    case_if_in Hr; [done|]. z_bool. destruct f.
    + apply bind_Ok_inv in Hr as (b & Hsub & Hr). apply uint_sub_inv in Hsub as [-> Hb]; [|done..].
      injection Hr as <- <-.
      assert (Hat : node_at k1 na).
      { split; [done| |congruence|]; unfold keys_at; by rewrite Ha1, <- Hkey, Hna. }
      destruct (write_account k1 na (with_naBond na (naBond na - t)) Hk1 Hat) as (Hk2 & Hg2 & _);
        [done..|].
      split; [done|]. split; [|split; [done|]].
      * intros key' Hne. destruct (SetNodeAccount_accounts k1 (with_naBond na (naBond na - t)))
          as (na2 & -> & _); [done|]. simpl. rewrite lookup_insert_ne by congruence. by rewrite Ha1.
      * split; [intros _; simpl in Hg2; lia|].
        destruct (SetNodeAccount_accounts k1 (with_naBond na (naBond na - t))) as (na2 & -> & _);
          [done|]. simpl. rewrite Hkey, lookup_insert_eq. by eexists.
    + injection Hr as <- <-. split.
      { split; [apply (no_account k1 Hk1)|]. intros key' bp Hbp. simpl in Hbp.
        apply lookup_delete_Some in Hbp as [_ Hbp].
        by apply (no_providers k1 Hk1 _ _ Hbp). }
      split; [by intros; simpl; rewrite Ha1|]. split; [|by simpl; rewrite Ha1]. split; [done|].
      assert (bond_gap (with_bond_providers k1 (delete (GetKey prefixBondProviders
        (acc_string (NodeAddress na))) (kBondProviders k1))) = bond_gap k1) as -> by done.
      split; [lia|]. done.
Qed.

(** The bonds of the accounts to be removed. *)
Definition pending k (keys : list string) : Z :=
  sumZ (map (fun key => from_option naBond 0 (kNodeAccounts k !! key)) keys).

Lemma pending_ext k k' keys :
  (forall key, key ∈ keys -> kNodeAccounts k' !! key = kNodeAccounts k !! key) ->
  pending k' keys = pending k keys.
Proof using.
  unfold pending. induction keys as [|key keys IH]; intros Hsame; simpl; [done|].
  rewrite (Hsame key) by by left. f_equal. apply IH. intros key' Hin. apply Hsame. by right.
Qed.

Lemma delete_all_sum (m : gmap string NodeAccount) keys : NoDup keys ->
  map_sum naBond (foldl (fun m key => delete key m) m keys) =
  map_sum naBond m - sumZ (map (fun key => from_option naBond 0 (m !! key)) keys).
Proof using.
  revert m. induction keys as [|key keys IH]; intros m Hnd; simpl; [lia|].
  apply NoDup_cons in Hnd as [Hin Hnd]. rewrite IH, map_sum_delete by done.
  rewrite (map_ext_in _ (fun key' => from_option naBond 0 (m !! key'))); [lia|].
  intros key' Hk'. rewrite lookup_delete_ne; [done|].
  intros ->. by apply Hin, list_elem_of_In.
Qed.

Lemma delete_all_lookup (m : gmap string NodeAccount) keys key :
  foldl (fun m key => delete key m) m keys !! key = if decide (key ∈ keys) then None else m !! key.
Proof using.
  revert m. induction keys as [|key' keys IH]; intros m; simpl; [done|]. rewrite IH.
  destruct (decide (key ∈ keys)) as [Hin|Hin].
  - rewrite decide_True; [done|by right].
  - destruct (decide (key = key')) as [->|Hne].
    + rewrite decide_True; [apply lookup_delete_eq|by left].
    + rewrite decide_False; [by rewrite lookup_delete_ne|]. by intros [?|?]%elem_of_cons.
Qed.

(** An account that may be removed. *)
Definition removable (na : NodeAccount) : Prop :=
  naType na = NodeType_TypeValidator /\ Status na <> NodeStatus_Active /\ naBond na <= One.

Lemma low_bond_loop_ok nas k low k' low' : nodes_ok k ->
  NoDup (low ++ map fst nas)%list ->
  (forall key na, (key, na) ∈ nas -> kNodeAccounts k !! key = Some na) ->
  low_bond_loop k nas low = Ok (k', low', None) ->
  nodes_ok k' /\ NoDup low' /\ bond_gap k + pending k low <= bond_gap k' + pending k' low' /\
  (forall key, key ∈ low -> key ∈ low') /\
  (forall key, key ∈ low' -> key ∈ low \/ exists na, (key, na) ∈ nas /\ removable na) /\
  (forall key, is_Some (kNodeAccounts k !! key) -> is_Some (kNodeAccounts k' !! key)).
Proof using BankOk0 SdkMathOk0.
  revert k low. induction nas as [|[key na] nas IH]; intros k low Hk Hnd Hin Hl; simpl in Hl.
  - injection Hl as <- <-. rewrite app_nil_r in Hnd. split; [done|]. split; [done|].
    split; [lia|]. auto.
  - apply bind_Ok_inv in Hl as ([[k1 b] err] & Hr & Hl). destruct err; [done|].
    assert (Hna : kNodeAccounts k !! key = Some na) by (apply Hin; left).
    destruct (remove_low_bond_ok k key na k1 b Hk Hna Hr) as (Hk1 & Hsame & Htrue & Hfalse & Hsome).
    simpl in Hnd.
    assert (Hnd' : NoDup (key :: low ++ map fst nas)%list) by by rewrite Permutation_middle.
    apply NoDup_cons in Hnd' as [Hfresh Hnd'].
    assert (Hlow : pending k1 low = pending k low).
    { apply pending_ext. intros key' Hkey'. apply Hsame. intros ->.
      apply Hfresh, elem_of_app. by left. }
    assert (Hin1 : forall key' na', (key', na') ∈ nas -> kNodeAccounts k1 !! key' = Some na').
    { intros key' na' Hkey'. rewrite Hsame; [apply Hin; by right|]. intros ->.
      apply Hfresh, elem_of_app. right. by apply (list_elem_of_fmap_2 fst _ (key, na')). }
    assert (Hkeep : forall key', is_Some (kNodeAccounts k !! key') -> is_Some (kNodeAccounts k1 !! key')).
    { intros key' Hs. destruct (decide (key' = key)) as [->|Hne]; [done|by rewrite Hsame]. }
    destruct b.
    + destruct (Htrue eq_refl) as (Ha & Hg & Hrem).
      assert (Hp : pending k1 (low ++ [key])%list = pending k low + naBond na).
      { unfold pending in *. rewrite map_app, sumZ_app, Hlow. simpl. rewrite Ha, Hna. simpl. lia. }
      destruct (IH k1 (low ++ [key])%list Hk1) as (Hk2 & Hnd2 & Hg2 & Hsub & Hback & Hkeep2); [|done..|].
      { by rewrite <- app_assoc. }
      split; [done|]. split; [done|]. split; [lia|]. split; [|split].
      * intros key' Hkey'. apply Hsub, elem_of_app. by left.
      * intros key' Hkey'. destruct (Hback key' Hkey') as [ [Hl'|Hl']%elem_of_app|(na' & Hn & ?)].
        -- by left.
        -- apply list_elem_of_singleton in Hl' as ->. right. exists na. split; [left|done].
        -- right. exists na'. split; [by right|done].
      * auto.
    + destruct (IH k1 low Hk1 Hnd' Hin1 Hl) as (Hk2 & Hnd2 & Hg2 & Hsub & Hback & Hkeep2).
      specialize (Hfalse eq_refl). split; [done|]. split; [done|]. split; [lia|]. split; [done|]. split; [|by auto].
      intros key' Hkey'. destruct (Hback key' Hkey') as [?|(na' & Hn & ?)]; [by left|].
      right. exists na'. split; [by right|done].
Qed.

Lemma iterate_keys_spec {A} (m : gmap string A) :
  NoDup (map fst (iterate_keys m)) /\ (forall key x, (key, x) ∈ iterate_keys m -> m !! key = Some x).
Proof using.
  unfold iterate_keys. split.
  - rewrite stable_sort_perm. apply NoDup_fst_map_to_list.
  - intros key x. rewrite stable_sort_perm. apply elem_of_map_to_list.
Qed.
End low_bond.

(** ** The minimum version to join *)
Section min_join.
Context {K : SdkKeys} `{!SdkKeysOk K}.

(** How many of [l] run [v] or later. *)
Definition support (l : NodeAccounts) (v : semver) : Z :=
  len (List.filter (fun na => semver_lte v (GetVersion na)) l).

(** Two versions the ordering does not tell apart. *)
Definition same_version (v w : semver) : Prop := semver_lte v w = true /\ semver_lte w v = true.

Lemma semver_lte_trans u v w : semver_lte u v = true -> semver_lte v w = true -> semver_lte u w = true.
Proof using SdkKeysOk0.
  unfold semver_lte. rewrite !negb_true_iff. intros H1 H2. eapply (less_neg_trans semver_lt); [exact H2|exact H1].
Qed.

Lemma support_app l l' v : support (l ++ l') v = support l v + support l' v.
Proof using. unfold support, len. rewrite List.filter_app, length_app. lia. Qed.

Lemma support_perm l l' v : l ≡ₚ l' -> support l v = support l' v.
Proof using.
  intros Hp. unfold support, len. f_equal.
  induction Hp as [|na l1 l2 _ IH|na nb l1|l1 l2 l3 _ IH1 _ IH2]; simpl; [done| | |congruence].
  - case_if; simpl; congruence.
  - by repeat case_if.
Qed.

Lemma support_le l v : 0 <= support l v <= len l.
Proof using.
  unfold support, len. pose proof (List.filter_length_le (fun na => semver_lte v (GetVersion na)) l). lia.
Qed.

Lemma support_mono l v w : semver_lte v w = true -> support l w <= support l v.
Proof using SdkKeysOk0.
  intros Hvw. unfold support, len. induction l as [|na l IH]; simpl; [done|].
  destruct (semver_lte w (GetVersion na)) eqn:Hw.
  - rewrite (semver_lte_trans v w (GetVersion na)) by done. simpl. lia.
  - case_if; simpl; lia.
Qed.

Lemma support_same l v w : same_version v w -> support l v = support l w.
Proof using SdkKeysOk0.
  intros [H1 H2]. pose proof (support_mono l v w H1). pose proof (support_mono l w v H2). lia.
Qed.

(** One entry of the count after one more node. *)
Lemma elem_of_count_version na vc v c : (v, c) ∈ count_version na vc <->
  exists c0, (v, c0) ∈ vc /\ c = if semver_lte v (GetVersion na) then i64 (c0 + 1) else c0.
Proof using.
  induction vc as [|[v0 c0] vc IH]; simpl.
  - split; [by intros ?%elem_of_nil|]. by intros (? & ?%elem_of_nil & _).
  - rewrite elem_of_cons, IH. split.
    + intros [ [= -> ->]|(c1 & ? & ->)]; [exists c0|exists c1]; (split; [|done]); by constructor.
    + intros (c1 & [ [= -> ->]|Hin]%elem_of_cons & ->); [by left|right; by exists c1].
Qed.

(** What the count holds after the nodes of [l], in the order of their
    versions: no entry counts too many nodes, and some entry of each version
    present counts all of them. *)
Record counted (l : NodeAccounts) (vc : list (semver * Z)) : Prop := {
  ct_from v c : (v, c) ∈ vc -> exists na, na ∈ l /\ v = GetVersion na;
  ct_bound v c : (v, c) ∈ vc -> 0 <= c <= support l v;
  ct_all na : na ∈ l -> exists v, same_version v (GetVersion na) /\ (v, support l v) ∈ vc
}.

(** Printing a version and parsing it back. *)
Context (semver_roundtrip : forall v, fst (semver_make (semver_string v)) = v).

Lemma add_version_counted l vc na : counted l vc -> len l < 2 ^ 60 ->
  Forall (fun x => semver_lte (GetVersion x) (GetVersion na) = true) l ->
  counted (l ++ [na]) (add_version vc na).
Proof using All.
  intros [Hfrom Hbound Hall] Hlen Hsorted. unfold add_version.
  assert (Hrefl : semver_lte (GetVersion na) (GetVersion na) = true).
  { unfold semver_lte. by rewrite (less_irrefl semver_lt). }
  assert (Hone : forall v, support (l ++ [na]) v =
    support l v + (if semver_lte v (GetVersion na) then 1 else 0)).
  { intros v. rewrite support_app. unfold support at 2, len. simpl. by case_if. }
  assert (Hi : forall v c, 0 <= c <= support l v -> i64 (c + 1) = c + 1).
  { intros v c Hc. pose proof (support_le l v). apply i64_id. unfold is_i64. lia. }
  set (exist := existsb _ vc). set (vc' := if exist then vc else (vc ++ [(GetVersion na, 0)])%list).
  assert (Hvc' : forall v c, (v, c) ∈ vc' -> (v, c) ∈ vc \/ exist = false /\ v = GetVersion na /\ c = 0).
  { intros v c. unfold vc'. destruct exist; [by left|].
    intros [Hin|[= -> ->]%list_elem_of_singleton]%elem_of_app; [by left|by right]. }
  assert (Hsub : forall x, x ∈ vc -> x ∈ vc').
  { intros x Hx. unfold vc'. destruct exist; [done|]. apply elem_of_app. by left. }
  assert (Hb' : forall v c, (v, c) ∈ vc' -> 0 <= c <= support l v).
  { intros v c [Hin|(_ & -> & ->)]%Hvc'; [by apply Hbound|]. pose proof (support_le l (GetVersion na)). lia. }
  split.
  - intros v c (c0 & Hin & _)%elem_of_count_version.
    apply Hvc' in Hin as [Hin|(_ & -> & _)].
    + destruct (Hfrom v c0 Hin) as (x & Hx & ->). exists x. split; [apply elem_of_app; by left|done].
    + exists na. split; [apply elem_of_app; right; left|done].
  - intros v c (c0 & Hin & ->)%elem_of_count_version. apply Hb' in Hin as Hc. rewrite Hone.
    case_if; [rewrite (Hi v) by done|]; lia.
  - assert (Hgrow : forall v c, (v, c) ∈ vc' -> semver_lte v (GetVersion na) = true ->
      c = support l v -> (v, support (l ++ [na]) v) ∈ count_version na vc').
    { intros v c Hin Hle ->. apply elem_of_count_version. exists (support l v). split; [done|].
      rewrite Hone, Hle. symmetry. by apply (Hi v), Hb'. }
    assert (Hold : forall x, x ∈ l -> exists v, same_version v (GetVersion x) /\
      (v, support (l ++ [na]) v) ∈ count_version na vc').
    { intros x Hx. destruct (Hall x Hx) as (v & Hv & Hin). exists v. split; [done|].
      apply (Hgrow v (support l v)); [by apply Hsub| |done]. rewrite Forall_forall in Hsorted.
      by apply (semver_lte_trans v (GetVersion x)); [apply Hv|apply Hsorted]. }
    intros x [Hx|Hx]%elem_of_app; [by apply Hold|]. apply list_elem_of_singleton in Hx as ->.
    destruct (Z.eq_dec (support l (GetVersion na)) 0) as [Hz|Hz].
    + destruct exist eqn:He.
      * unfold exist in He. apply existsb_exists in He as ([v c] & Hin & Heq%String.eqb_eq).
        apply list_elem_of_In in Hin. destruct (Hfrom v c Hin) as (y & Hy & Hv). simpl in Heq.
        destruct (Hold y Hy) as (w & Hw & Hin'). exists w. split; [|done]. rewrite <- Hv in Hw.
        unfold GetVersion. by rewrite <- Heq, semver_roundtrip.
      * exists (GetVersion na). split; [done|]. apply (Hgrow _ 0); [|done|congruence].
        unfold vc'. apply elem_of_app. right. left.
    + destruct (List.filter (fun y => semver_lte (GetVersion na) (GetVersion y)) l) as [|y ys] eqn:Hf.
      { exfalso. apply Hz. unfold support. by rewrite Hf. }
      assert (Hy : In y l /\ semver_lte (GetVersion na) (GetVersion y) = true).
      { apply (List.filter_In (fun y => semver_lte (GetVersion na) (GetVersion y))). rewrite Hf. by left. }
      destruct Hy as [Hy Hge]. apply list_elem_of_In in Hy. destruct (Hold y Hy) as (v & [Hv1 Hv2] & Hin).
      exists v. split; [|done]. rewrite Forall_forall in Hsorted. split.
      * by apply (semver_lte_trans v (GetVersion y)); [|apply Hsorted].
      * by apply (semver_lte_trans _ (GetVersion y)).
Qed.

#[export] Instance version_less_weak : StrictWeak version_less.
Proof using SdkKeysOk0.
  split; unfold version_less; intros.
  - apply (less_irrefl semver_lt).
  - by eapply (less_trans semver_lt).
  - by eapply (less_neg_trans semver_lt).
Qed.

Lemma foldl_counted l acc vc : counted acc vc -> len (acc ++ l) < 2 ^ 60 ->
  sorted_by version_less (acc ++ l) -> counted (acc ++ l) (foldl add_version vc l).
Proof using All.
  revert acc vc. induction l as [|na l IH]; intros acc vc Hc Hlen Hs; simpl.
  - by rewrite app_nil_r.
  - replace (acc ++ na :: l)%list with ((acc ++ [na]) ++ l)%list in * by by rewrite <- app_assoc.
    apply IH; [|done|done]. apply add_version_counted; [done| |].
    + unfold len in *. rewrite !length_app in Hlen. simpl in Hlen. lia.
    + apply Forall_forall. intros x Hx. unfold semver_lte.
      apply list_elem_of_lookup in Hx as [i Hi].
      assert (Hlt : (i < length acc)%nat) by by apply lookup_lt_Some in Hi.
      change (semver_lt (GetVersion na) (GetVersion x)) with (version_less na x).
      rewrite (sorted_by_lookup version_less ((acc ++ [na]) ++ l) i (length acc) x na Hs); [done| | |done].
      * by rewrite <- app_assoc, lookup_app_l.
      * rewrite <- app_assoc, lookup_app_r by done. by rewrite Nat.sub_diag.
Qed.

(** The loop that picks the greatest version with enough support. *)
Lemma pick_version (n : Z) infos v0 : let v := foldl (fun version info =>
    if negb (HasSuperMajority (snd info) n) then version
    else if semver_gt (fst info) version then fst info else version) v0 infos in
  (v = v0 \/ exists c, (v, c) ∈ infos /\ HasSuperMajority c n = true) /\ semver_lte v0 v = true /\
  (forall w c, (w, c) ∈ infos -> HasSuperMajority c n = true -> semver_lte w v = true).
Proof using SdkKeysOk0.
  cbv zeta. revert v0. induction infos as [|[v1 c1] infos IH]; intros v0; simpl.
  - split; [by left|]. split; [unfold semver_lte; by rewrite (less_irrefl semver_lt)|]. by intros w c ?%elem_of_nil.
  - set (v2 := if negb _ then v0 else _). destruct (IH v2) as (H1 & H2 & H3).
    set (r := foldl _ v2 infos) in *. clearbody r.
    assert (Hv2 : (v2 = v0 \/ v2 = v1 /\ HasSuperMajority c1 n = true) /\ semver_lte v0 v2 = true /\
      (HasSuperMajority c1 n = true -> semver_lte v1 v2 = true)).
    { unfold v2, semver_gt, semver_lte. destruct (HasSuperMajority c1 n); simpl.
      - destruct (semver_lt v0 v1) eqn:E; rewrite ?(less_irrefl semver_lt), ?E; [|by split; [left|split]].
        split; [by right|]. split; [by rewrite (less_asym semver_lt _ _ E)|done].
      - rewrite (less_irrefl semver_lt). by split; [left|split]. }
    destruct Hv2 as (Hv2 & Hv0 & Hv1). split; [|split].
    + destruct H1 as [->|(c & Hin & Hc)].
      * destruct Hv2 as [->|[-> Hc] ]; [by left|right; exists c1; split; [left|done] ].
      * right. exists c. split; [by right|done].
    + by apply (semver_lte_trans v0 v2).
    + intros w c [ [= -> ->]|Hin]%elem_of_cons Hc; [|by apply (H3 w c)].
      apply (semver_lte_trans v1 v2); auto.
Qed.
End min_join.

(** ** Properties *)

(** C35. When the removal of low-bond accounts returns without an error, what
    the Bond module holds beyond the bonds has not fallen, the accounts stay in
    order, and only validators that are not active and have at most one DECA of
    bond are gone. *)
Theorem low_bond_removal_keeps_backing {B} `{Bank B} `{!BankOk B} {K : SdkKeys} {S : SdkMath}
    `{!SdkMathOk S} (k k' : KVStore B) :
  nodes_ok k -> RemoveLowBondValidatorAccounts k = Ok (k', None) ->
  nodes_ok k' /\
  deca_of k BondName - bond_total k <= deca_of k' BondName - bond_total k' /\
  (forall key na, kNodeAccounts k !! key = Some na -> kNodeAccounts k' !! key = None ->
     naType na = NodeType_TypeValidator /\ Status na <> NodeStatus_Active /\ naBond na <= One).
Proof.
  intros Hk Hr. unfold RemoveLowBondValidatorAccounts in Hr.
  apply bind_Ok_inv in Hr as ([[k1 low] err] & Hl & Hr). destruct err; [done|]. injection Hr as <-.
  destruct (iterate_keys_spec (kNodeAccounts k)) as [Hnd Hin].
  destruct (low_bond_loop_ok _ k [] k1 low Hk Hnd Hin Hl) as (Hk1 & Hnd1 & Hg & _ & Hback & Hkept).
  assert (Hlookup : forall key, kNodeAccounts (with_node_accounts k1
    (foldl (fun m key => delete key m) (kNodeAccounts k1) low)) !! key =
    if decide (key ∈ low) then None else kNodeAccounts k1 !! key)
    by (intros key; apply delete_all_lookup).
  split; [split|split].
  - intros key na. rewrite Hlookup. case_decide; [done|]. apply (no_account k1 Hk1).
  - apply (no_providers k1 Hk1).
  - unfold bond_gap, bond_total, pending, deca_of in *. simpl.
    rewrite delete_all_sum by done. simpl in Hg. lia.
  - intros key na Hna Hnone. rewrite Hlookup in Hnone. case_decide as Hd.
    + destruct (Hback key Hd) as [Hno|(na' & Hn & Hrem)]; [by apply elem_of_nil in Hno|].
      apply Hin in Hn. rewrite Hna in Hn. by simplify_eq.
    + destruct (Hkept key) as [x Hx]; [by eexists|]. congruence.
Qed.

(** The minimum version to join is the greatest version that two thirds of
    the active validators run or exceed: the answer is zero or has that support,
    and every version of an active validator with that support is at most the
    answer. *)
Theorem min_join_version_greatest {B} `{Bank B} {K : SdkKeys} `{!SdkKeysOk K} (k : KVStore B) :
  (forall v, fst (semver_make (semver_string v)) = v) ->
  let nodes := ListActiveValidators k in
  len nodes < 2 ^ 60 ->
  let v := GetMinJoinVersion k in
  let agreed w := 2 * len nodes <= 3 * support nodes w in
  (v = semver_zero \/ agreed v) /\
  (forall na, na ∈ nodes -> agreed (GetVersion na) -> semver_lte (GetVersion na) v = true).
Proof.
  intros Hrt nodes Hlen v agreed. unfold GetMinJoinVersion, min_join_version in v. fold nodes in v.
  set (sorted := stable_sort version_less nodes) in *.
  assert (Hp : sorted ≡ₚ nodes) by apply stable_sort_perm.
  assert (Hc : counted sorted (foldl add_version [] sorted)).
  { apply (foldl_counted Hrt sorted []).
    - split; [by intros ? ? ?%elem_of_nil..|by intros ? ?%elem_of_nil].
    - unfold len in *. simpl. by rewrite Hp.
    - apply stable_sort_sorted. apply version_less_weak. }
  set (infos := stable_sort _ _) in v.
  assert (Hin : forall x, x ∈ infos <-> x ∈ foldl add_version [] sorted)
    by (intros x; unfold infos; by rewrite stable_sort_perm).
  destruct (pick_version (len nodes) infos semver_zero) as (H1 & _ & H3). fold v in H1, H3.
  assert (Hlen' : len nodes < 2 ^ 62) by lia. split.
  - destruct H1 as [H1|(c & Hv & Hc')]; [by left|right]. apply Hin in Hv.
    apply (ct_bound _ _ Hc) in Hv. rewrite (support_perm _ _ v Hp) in Hv.
    apply HasSuperMajority_spec in Hc'; [|done]. unfold agreed. lia.
  - intros na Hna Hag. rewrite <- Hp in Hna.
    destruct (ct_all _ _ Hc na Hna) as (w & Hw & Hwin).
    apply (semver_lte_trans _ w); [apply Hw|]. apply (H3 w (support sorted w)); [by apply Hin|].
    apply HasSuperMajority_spec; [done|].
    rewrite (support_perm _ _ w Hp), (support_same _ _ _ Hw).
    pose proof (support_le nodes (GetVersion na)). unfold agreed in Hag.
    assert (0 < len nodes); [|lia]. rewrite Hp in Hna. destruct nodes; [by apply elem_of_nil in Hna|].
    unfold len. simpl. lia.
Qed.

(** When rounding makes the adjusted bonds exceed a dust bond ([Adjust] allows
    it), the removal stops with an error after it paid; the accounts paid before
    are kept with their bond, so that the module backs the bonds no more, and
    they are paid again at the next churn. *)
Definition demo_account (addr bondAddr : string) (status : NodeStatus) (bond : Z) (version : string) :
    string * NodeAccount :=
  let na := NewNodeAccount addr status EmptyPubKeySet "" bond bondAddr 1 in
  (GetKey prefixNodeAccount addr,
   mkNodeAccount (NodeAddress na) (Status na) (naPubKeySet na) (ValidatorConsPubKey na)
     (naBond na) 1 (naBondAddress na) (StatusSince na) (SignerMembership na)
     (RequestedToLeave na) (ForcedToLeave na) (LeaveScore na) (IPAddress na) version
     (naType na) (MissingBlocks na) (Maintenance na)).
Definition demo_low_store (providers : list BondProvider) (dust : Z) : KVStore SimpleBank :=
  with_bond_providers
    (with_node_accounts
      (empty_store (mkSimpleBank {[("bond", "deca") := 1000]} {["deca" := 1000]}) 7)
      (list_to_map [demo_account "n1" "op1" NodeStatus_Standby 50 "1.0.0";
                    demo_account "n2" "op2" NodeStatus_Standby dust "1.0.0";
                    demo_account "n3" "op3" NodeStatus_Active 900 "1.2.0";
                    demo_account "n4" "op4" NodeStatus_Active 10 "1.1.0";
                    demo_account "n5" "op5" NodeStatus_Active 10 "1.3.0"]))
    {[GetKey prefixBondProviders "n2" := mkBondProviders "n2" 0 providers]}.

Lemma low_bond_error_overpays : exists k' e,
  let k := demo_low_store [mkBondProvider "op2" 0; mkBondProvider "a" 1; mkBondProvider "b" 1] 1 in
  RemoveLowBondValidatorAccounts (K := keys_std) (S := sdk_std) k = Ok (k', Some e) /\
  deca_of k BondName - bond_total k = 29 /\ deca_of k' BondName - bond_total k' = -23.
Proof. do 2 eexists. split; [vm_compute; reflexivity|]. split; vm_compute; reflexivity. Qed.

(** ** The properties at concrete inputs *)

Lemma demo_low_store_ok providers dust : bonds_ok providers -> 0 <= dust < 100 ->
  nodes_ok (K := keys_std) (demo_low_store providers dust).
Proof.
  intros Hp Hd. split.
  - intros key na Hna. apply elem_of_list_to_map_2 in Hna.
    repeat (apply elem_of_cons in Hna as [ [= -> ->]|Hna];
      [split; [reflexivity|]; split; [reflexivity|unfold is_uint, uint_lim; simpl; lia]|]).
    by apply elem_of_nil in Hna.
  - intros key bp Hbp. unfold demo_low_store in Hbp. simpl in Hbp.
    apply lookup_singleton_Some in Hbp as [<- <-]. split; [exact Hp|unfold is_uint, uint_lim; simpl; lia].
Qed.

Lemma low_bond_removal_keeps_backing_witness : exists k',
  let k := demo_low_store [mkBondProvider "op2" 10; mkBondProvider "a" 10] 30 in
  RemoveLowBondValidatorAccounts (K := keys_std) (S := sdk_std) k = Ok (k', None) /\
  deca_of k' BondName = 920 /\ bond_total k' = 920 /\
  deca_of k BondName - bond_total k <= deca_of k' BondName - bond_total k'.
Proof.
  set (k := demo_low_store [mkBondProvider "op2" 10; mkBondProvider "a" 10] 30).
  destruct (RemoveLowBondValidatorAccounts (K := keys_std) (S := sdk_std) k) as [[k' err]|e|] eqn:E;
    [|exfalso; vm_compute in E; discriminate E..].
  assert (Hv : deca_of k' BondName = 920 /\ bond_total k' = 920 /\ err = None).
  { vm_compute in E. injection E as <- <-. vm_compute. auto. }
  destruct Hv as (Hv1 & Hv2 & ->). exists k'. cbv zeta. split; [exact E|].
  split; [exact Hv1|]. split; [exact Hv2|].
  destruct (low_bond_removal_keeps_backing (K := keys_std) (S := sdk_std) k k') as (_ & Hg & _);
    [|exact E|exact Hg].
  apply demo_low_store_ok; [|lia].
  repeat constructor; unfold is_uint, uint_lim; simpl; lia.
Defined.

Lemma min_join_version_greatest_witness :
  GetMinJoinVersion (K := keys_std) (demo_low_store [] 1) = "1.2.0" /\
  forall na, na ∈ ListActiveValidators (demo_low_store [] 1) ->
    6 <= 3 * support (K := keys_std) (ListActiveValidators (demo_low_store [] 1)) (GetVersion (K := keys_std) na) ->
    semver_lte (K := keys_std) (GetVersion (K := keys_std) na) "1.2.0" = true.
Proof.
  assert (Hv : GetMinJoinVersion (K := keys_std) (demo_low_store [] 1) = "1.2.0") by (vm_compute; reflexivity).
  split; [exact Hv|].
  destruct (min_join_version_greatest (K := keys_std) (demo_low_store [] 1)) as [_ Hg].
  - reflexivity.
  - vm_compute. reflexivity.
  - rewrite Hv in Hg. exact Hg.
Defined.
